(* ===== verification/_CoqProject ===== *)
-Q . S2P
Prelude.v
Threads.v
MonitorThread.v
BenchThreads.v
Hashes.v
Coding.v
Crc32c.v
Log.v
Bloom.v
WriteBatch.v
Comparator.v
Iterators.v
Block.v
BlockRead.v
BlockBuild.v
Inode.v
DCache.v
Cache.v
Kv.v
Engines.v
VecKv.v
ICache.v
Teardown.v
Posix.v
Properties.v
Allocator.v
Trace.v
Metrics.v
Random.v
DbFormat.v
SkipList.v
SkipListOk.v
MemTable.v
MemTableOk.v
Durability.v
DurabilityOk.v
Merger.v
MergerOk.v
DbIter.v
DbIterOk.v
MemTableIter.v
DbScan.v
Adaptor.v
MetaKv.v
HiKv.v
SortedKv.v
Adaptors.v
State.v
TableFS.v
FsInv.v
FsOps.v
FsRename.v
FsFile.v
FsTruncate.v
FsDir.v
FsFrame.v
FsMount.v
FsSpec.v
FsHistory.v
FsRemount.v
FuseMain.v
FsWrapper.v
FsBench.v
Scenario.v
FsCorrect.v
FsNames.v
Histories.v
Workloads.v
Caches.v
Components.v
