(* ===== verification/Prelude.v ===== *)
(** * TableFS, verified

    TableFS is a file system in user space that keeps the metadata and the small
    files of a directory tree in a key-value store. A FUSE call, or a call on the
    descriptor wrapper, goes through these parts:

    - [tablefs_main.cpp]: [main], which sets the file system up and gives
      [fuse_main] the table of callbacks;
    - [fs/fswrapper.cpp]: descriptors and file positions over the file system;
    - [fs/tablefs.cpp]: the operations. A path is resolved component by component,
      a component is the key (inode of the directory, [murmur64] of the name); the
      value under a key is the inode: a 256-byte header, the name, a NUL byte and
      the data of a small file. A file that outgrows a threshold moves to a data
      file of the operating system;
    - [fs/dcache.cpp], [fs/icache.cpp]: a cache of (key, inode number) pairs for
      path resolution and a cache of inode values with modes and reference counts,
      on top of LevelDB's sharded LRU cache ([lib/leveldb/util/cache.cc]);
    - [fs/tfs_state.cpp]: the mount's state, above all the inode counter;
    - [adaptor/]: the interface [KvWrapper] of the store, and adaptors that make
      LevelDB, RocksDB, uTree, ROART, a two-level hash, MetaKV and HiKV stores of
      it; batches travel in LevelDB's format ([lib/leveldb/db/write_batch.cc],
      [util/coding.cc]);
    - [lib/leveldb/]: the vendored database. A write goes to a log of checksummed
      records ([db/log_writer.cc]) and to a memtable ([db/memtable.cc]), a skip list
      of entries ordered by key and sequence number; after a crash the log is read
      back ([db/log_reader.cc]). Tables are made of blocks ([table/block.cc]) with
      Bloom filters ([util/bloom.cc]);
    - [util/]: hash functions and configuration properties; a monitor of metrics,
      a loader of traces and an arena for the benchmark;
    - [fsbench.cpp]: the benchmark: workloads over the wrapper, run by threads.

    Two parts use threads: [TableFS::Init] starts a monitor that reports from the
    store until [Destroy] stops it, and the benchmark runs its workloads beside a
    monitor of its own.

    ** The files

    The model is a shallow embedding. An operation is a program [prog S A] of this
    file: from a state it returns a value and a state, or stops with undefined
    behaviour ([UB]: a dangling pointer, an index out of range, a failed assert),
    so a theorem [p s = Ret a s'] says that the code returns, with that result,
    and runs into nothing undefined on the way. Machine integers are [Z] with the
    reduction to their width written out; memory is a list of bytes.

    - [Prelude]: integers, bytes, programs, tactics, the hint database [tfs] and
      the rewrite database [len], lemmas on lists and integers.
    - [Threads]: a machine of threads with one mutex and one condition variable,
      spurious wake-ups included, as a step function on control points; runs,
      fairness, and a rule for liveness (a rank that some thread that can go
      lowers).
    - [MonitorThread]: [monitor_thread], [monitor_init], [monitor_destroy] and the
      end of [Destroy] on that machine. [BenchThreads]: [RunBenchmark],
      [ThreadBody], [MonitorThreadBody], with the lifetime of what they share.
    - [Hashes]: [crc32], [murmur64], LevelDB's [Hash].
    - [Coding], [WriteBatch]: fixed-width and variable-length integers,
      length-prefixed strings, batches and their iteration.
    - [Crc32c], [Log]: LevelDB's checksum, the writer and the reader of its logs
      over files whose calls may fail.
    - [Bloom]: the filter policy. [Comparator], [DbFormat]: [Comparator] as a record
      of operations and its contract [ComparatorOk] on a domain of keys, with the
      bytewise comparator and the comparator of internal keys as instances.
    - [Iterators]: LevelDB's [Iterator] as a record of operations and its contract
      [IteratorOk]: a position in a list of entries.
    - [Block]: [BlockBuilder], [Block] and its iterator; [BlockRead], [BlockBuild]:
      the layout of a block, and the iterator as a cursor over the entries.
    - [SkipList], [SkipListOk]: the skip list as nodes with links, and that its
      levels are chains of a sorted list. [KeyOrder] is what it asks of its keys.
    - [MemTable], [MemTableOk]: the memtable over the skip list, batches applied to
      it. [Durability], [DurabilityOk]: the write of a batch to log and memtable,
      the recovery of a log file.
    - [Merger], [MergerOk]: the merging iterator, an instance of the contract when its
      children are. [DbIter], [DbIterOk]: the iterator of the database over any
      internal iterator that keeps the contract. [MemTableIter]: the iterator of a
      memtable keeps it. [DbScan]: scans of the database, from these parts.
    - [Inode]: meta keys, the layout of inodes, the accessors of [tablefs.cpp].
    - [DCache]: [DentryCache]; iterators are the identities of list nodes.
    - [Cache]: the LRU cache: handles in a heap, hash chains, the LRU list,
      reference counts, resizing, shards, deleters.
    - [Kv]: [KvWrapper] as a class of operations and [KvSpec], the contract: the
      abstract state of a store is a map from byte strings to byte strings, and a
      seek lists a directory completely. [MemKv] is an instance.
    - [Engines], [VecKv], [MetaKv], [HiKv], [Adaptor], [SortedKv]: the adaptors,
      each an instance of [KvWrapper] over a class with the methods of its engine.
      LevelDB and RocksDB document what their iterators do, so their adaptors are
      proved to be stores ([KvSpec]) over the laws of [SortedDbSpec], of which an
      instance shows that they can hold. Of the other engines, which are not part of
      the repository, nothing is assumed: the theorems say which calls reach them.
    - [ICache]: [InodeCache] over [Cache] and a [KvWrapper]; its deleter writes
      dirty inodes back. [IC] relates cache and store to the table of inodes.
    - [Posix]: the files, descriptors and [printf]/[scanf] conversions used.
    - [Properties], [State]: configuration; mount state, inode numbers, locks.
    - [Allocator], [Trace], [Random]: the arena the benchmark keeps its traces in,
      the loader of traces with pointers into its blocks, LevelDB's random numbers
      and the [RandomPicker] of the benchmark.
    - [Metrics]: [Monitor] and its sources, which read files with [fscanf].
    - [TableFS]: every operation of [class TableFS].
    - [FuseMain]: the callbacks and [main]; [fuse_main] is a parameter.
    - [FsWrapper]: [TableFSWrapper], with its descriptor table.
    - [FsBench]: the twelve workloads of the benchmark, each the run of one thread,
      and the list of benchmarks; [rand_of] and [now] stand for [rand] and [time].
    - [FsInv]: the abstract file system and the invariant [FS].
    - [FsOps], [FsRename], [FsFile], [FsTruncate], [FsDir], [FsMount]: each
      operation keeps the invariant and does to the abstract file system what it
      should.
    - [Teardown], [FsRemount]: the destructors of the caches write everything back,
      and a store that is closed and opened again ([KvDurable]) holds the tree.
    - [FsFrame]: what each operation leaves alone, found from its definition.
    - [FsSpec]: the file system as a tree of files, directories and links, with
      one executable function per operation and nothing of the implementation.
    - [FsHistory]: a state represents a tree; every operation refines its
      specification.
    - [Scenario]: a concrete mounted file system, on which the theorems are
      instantiated and the operations run.
    - [FsCorrect], [FsNames], [Histories], [Workloads], [Caches], [Components],
      [Adaptors]: the theorems on these; the other files hold their own.

    ** What is proved

    The abstract file system is the table [T] from keys to inode values together
    with the counts [PO] of references held by open files. [FS T PO t] relates a
    state [t] of [TableFS] to them: the store with the cached inodes on top of it
    is [T], the dentry cache holds only true entries, pinned handles are live,
    inode numbers are unique and below the counter.

    - Files ([FsCorrect]): [Open], [Read], [Write], [Release] against the contents
      of the file, whether inline or in a data file, across migration and across
      closing and opening again.
    - Names ([FsNames]): lookup, attributes, creation, removal, renaming, listing,
      links and mounting are functions of [T]; error results included.
    - The program ([Histories]): [main], run again and again by new processes over
      the same disk and store, answers the requests of [FsSpec] as one tree of files
      that stays from run to run.
    - Histories ([Histories]): from the first mount on, any sequence of operations
      on which [FsSpec] is defined returns what the tree gives (the header of
      [FsSpec] lists what it leaves out). The specification knows
      no caches, no store, no inline data and no data files, so this is also the
      statement that they cannot be observed. Every entry of the store is then a
      well-typed inode of that tree.
    - Caches ([Caches]): a dentry lookup is never stale; an LRU eviction ends,
      drops the oldest entries and calls the deleter of those nobody holds; it takes
      no entry in use as long as there is room; the inode cache returns current
      values; new inodes get data files of their own; the wrapper's descriptors.
    - Stores ([Adaptors]): the adaptors of LevelDB and RocksDB keep [KvSpec], so
      everything proved of the file system holds over them. For every engine behind
      the others, a batch makes the calls of its operations in order, and an iterator
      of the three vector adaptors walks what the engine's scan returned. How much
      unsynced data a sequence of [Put]s leaves in LevelDB.
    - Encodings ([Components], [Hashes], [Crc32c]): round trips of batches, varints,
      headers, inline data and keys; the unrolled CRCs are the bit-serial ones.
    - LevelDB's storage ([Log], [Bloom], [BlockBuild], [SkipListOk], [DurabilityOk],
      [DbScan]):
      the reader of a log that was cut off gives exactly the records written in full;
      a filter misses no key; iterators over blocks and skip lists are cursors over
      sorted lists; a lookup in the memtable sees the map of its snapshot, and after
      a crash the map of a prefix of the batches; a scan over one memtable or several
      merged ones, forwards and backwards, is a cursor over the sorted snapshot.
    - Threads ([MonitorThread], [BenchThreads]): in every interleaving the monitor
      thread and [Destroy] use nothing that is destroyed or closed, and in every fair
      run [Destroy] returns; the threads of a benchmark start together, each runs its
      method once, and [RunBenchmark] returns, with the two races it has stated.
    - The benchmark ([Trace], [Random], [Metrics], [Workloads]): a printed trace loads
      back from memory the arena handed out; the generator is the Lehmer sequence; a
      monitor gets through files whose words fit into its arrays, reads the counters
      the kernel printed and keeps its series in order;
      creating the paths of a trace builds their tree.

    Some hypotheses are about the code and not about its environment. [room] asks
    that loading an inode does not push one in use out of the cache: the LRU cache
    evicts pinned entries too, after which two handles of one inode exist; and that
    the 32-bit count of references has room for one more. A write has at least one
    byte or does not start past the end of the file ([writes_through]): [pwrite] of
    no bytes leaves a data file as it is, but [Write] records the larger size. A
    removed file is not open; the two keys of a renaming differ; a listed directory
    is not the root, whose scan starts after the least key; a scan of LevelDB turns
    from going backwards to going forwards only where every entry is visible. The findings beside
    the development say what happens otherwise.

    ** Bounds

    Loops that are not structural take fuel, and the caller passes enough: the
    length of the path for path resolution and of the batch for its iteration (the
    theorem on batches shows that more changes nothing), 10 rounds for a 64-bit
    varint, the entries of the LRU list and one more for an eviction, the number of descriptors in
    the search for a free one, 32 doublings of a hash table, the bytes left when
    reading a file of properties, a trace or a file of the kernel, the paths for the
    strided loops of the workloads, 32 rounds for the logarithm of [RandomPicker],
    two rounds more than bytes for a record written to a log, the bytes left for the
    loops of a log's reader and of a block's iterator, the restart points for its
    binary search, the nodes and levels for a search in a skip list,
    more rounds than entries for the loops of LevelDB's iterator.
    Running out of it is the undefined outcome [Unfinished], so a theorem that a
    program returns also says that the fuel is enough. [ReadDir] and the scans of the wrapper take
    their fuel as an argument: the theorem on [ReadDir] gives the number of rounds
    that is enough and shows that every entry is listed.

    ** Not modelled

    - Concurrent operations of the file system. [InodeMutex] computes a lock and
      takes none, the calls are commented out; the mutexes of the caches protect
      operations that are atomic here. Operations interleave as a whole: [main] runs
      FUSE with one thread. A workload of the benchmark is the run of one thread.
      In [BenchThreads] an access to the counters of [SharedState] is one step on one
      memory, also where the code makes it without the mutex.
    - Logging, sockets, shell commands, the report of the statistics and the scan
      log: they write what nothing reads back. The counters they print and the fact
      that a key is logged are modelled.
    - [ProcStat] of the monitor (floating point, [popen]), the constructor and [main]
      of the benchmark, the base class [FileSystemWrapper], which hands each call to
      the operating system, and the destructor of the arena.
    - The engines: git submodules and libraries, parameters; the ordered databases
      with laws, among them [leveldb::DB] as the adaptor sees it. Of the vendored database below it the
      parts listed above are modelled; versions, compactions, tables as files, the
      queue of writers and the environment are not.
    - [tablefs-old.cpp], [leveldb_adaptor.cpp]: not compiled by the build.
    - [ldb_check.cpp], a tool that prints a database, and the tests.
    - Failing allocations, and the disk errors of [pread] and [pwrite] on open
      descriptors. *)

From Stdlib Require Export ZArith Lia List String Ascii.
From stdpp Require Export base list gmap option.

Declare Scope tfs_scope.
Delimit Scope tfs_scope with tfs.
#[global] Open Scope Z_scope.
#[global] Open Scope list_scope.

(** * Machine integers

    A C integer of width [w] is a [Z]; every place where the C++ arithmetic is
    reduced modulo [2^w] (or read back as a two's complement number) says so
    with one of these functions. *)

Definition u8 (x : Z) : Z := x mod 2 ^ 8.
Definition u32 (x : Z) : Z := x mod 2 ^ 32.
Definition u64 (x : Z) : Z := x mod 2 ^ 64.

(** Conversion of an unsigned value to the signed type of the same width. *)
Definition to_signed (w x : Z) : Z :=
  let y := x mod 2 ^ w in if y <? 2 ^ (w - 1) then y else y - 2 ^ w.

Definition i32 (x : Z) : Z := to_signed 32 x.
Definition i64 (x : Z) : Z := to_signed 64 x.

(** * Bytes, C strings and [std::string]

    Memory is a list of bytes, a byte a [Z] in [0, 255]. *)

Abbreviation byte := Z (only parsing).
Abbreviation bytes := (list Z).

Definition byte_ok (b : Z) : Prop := 0 <= b < 256.
Definition bytes_ok (l : bytes) : Prop := Forall byte_ok l.

#[global] Instance byte_ok_dec b : Decision (byte_ok b).
Proof. unfold byte_ok. apply _. Defined.

#[global] Instance bytes_ok_dec l : Decision (bytes_ok l).
Proof. unfold bytes_ok. apply _. Defined.

(** A string literal as the bytes it denotes (without the final NUL). *)
Fixpoint str (s : string) : bytes :=
  match s with
  | EmptyString => []
  | String c s' => Z.of_N (N_of_ascii c) :: str s'
  end.

(** The C string stored at the head of a buffer: everything before the first
    NUL byte. *)
Fixpoint c_str (l : bytes) : bytes :=
  match l with
  | [] => []
  | b :: l' => if b =? 0 then [] else b :: c_str l'
  end.

(** [std::string::resize]: cut, or extend with NUL bytes. *)
Definition str_resize (s : bytes) (n : nat) : bytes :=
  take n s ++ replicate (n - length s) 0.

(** [std::string::replace (pos, len, buf, n)] for [buf] of [n] bytes and
    [pos <= size()]; [len] is clipped to the end of the string. *)
Definition str_replace (s : bytes) (pos len : nat) (buf : bytes) : bytes :=
  take pos s ++ buf ++ drop (pos + len) s.

(** [len] bytes of memory from offset [pos]. *)
Definition slice (pos len : nat) (s : bytes) : bytes := take len (drop pos s).

(** The file contents after [pwrite (buf, off)]: a hole is filled with NULs. *)
Definition write_at (data : bytes) (off : nat) (buf : bytes) : bytes :=
  str_replace (if decide (length data < off)%nat then str_resize data off else data)
    off (length buf) buf.

(** The writes that leave no gap at the end of the contents [c]: [pwrite] of no
    bytes has no effect, so it does not fill a hole either. *)
Definition writes_through (c buf : bytes) (offset : Z) : Prop := buf <> [] \/ offset <= Z.of_nat (length c).

#[global] Instance writes_through_dec c buf offset : Decision (writes_through c buf offset).
Proof. apply _. Defined.

(** ** Little-endian integers in memory *)

Fixpoint le_bytes (n : nat) (z : Z) : bytes :=
  match n with
  | O => []
  | S n' => z mod 256 :: le_bytes n' (z / 256)
  end.

Fixpoint le_val (l : bytes) : Z :=
  match l with
  | [] => 0
  | b :: l' => b + 256 * le_val l'
  end.

(** * Programs

    A C++ function that runs in a state [S] returns normally, ends the process
    with [exit], or has undefined behaviour (the reason is recorded). *)

Inductive ub_reason : Type :=
| UseAfterFree
| NullPointer
| OutOfBounds
| AssertFailed
| MissingReturn
| SignedOverflow
| Unfinished.    (* a loop ran for as many rounds as the model allows *)

Inductive outcome (S A : Type) : Type :=
| Ret (a : A) (s : S)
| Exit (code : Z) (s : S)
| UB (why : ub_reason).
Arguments Ret {S A} a s.
Arguments Exit {S A} code s.
Arguments UB {S A} why.

Definition prog (S A : Type) : Type := S -> outcome S A.

Definition ret {S A} (a : A) : prog S A := fun s => Ret a s.
Definition bind {S A B} (m : prog S A) (k : A -> prog S B) : prog S B :=
  fun s =>
    match m s with
    | Ret a s' => k a s'
    | Exit c s' => Exit c s'
    | UB w => UB w
    end.
Definition get_state {S} : prog S S := fun s => Ret s s.
Definition gets {S A} (f : S -> A) : prog S A := fun s => Ret (f s) s.
Definition modify {S} (f : S -> S) : prog S unit := fun s => Ret tt (f s).
Definition exit {S A} (code : Z) : prog S A := fun s => Exit code s.
Definition undefined {S A} (w : ub_reason) : prog S A := fun _ => UB w.

(** Read through a pointer that may be dangling or null. *)
Definition deref {S A} (w : ub_reason) (o : option A) : prog S A :=
  match o with Some a => ret a | None => undefined w end.

(** [assert (b)] *)
Definition assert_ {S} (b : bool) : prog S unit := if b then ret tt else undefined AssertFailed.

(** Run a program on a component [T] of a larger state. *)
Definition zoom {S T A} (get : S -> T) (put : T -> S -> S) (m : prog T A) : prog S A :=
  fun s =>
    match m (get s) with
    | Ret a t => Ret a (put t s)
    | Exit c t => Exit c (put t s)
    | UB w => UB w
    end.

Notation "x <- m ;; k" := (bind m (fun x => k))
  (at level 20, m at level 99, k at level 200, right associativity) : tfs_scope.
Notation "' p <- m ;; k" := (bind m (fun x => match x with p => k end))
  (at level 20, p pattern, m at level 99, k at level 200, right associativity) : tfs_scope.
Notation "m ;;; k" := (bind m (fun _ => k))
  (at level 100, k at level 200, right associativity) : tfs_scope.
#[global] Open Scope tfs_scope.

Section prog_laws.
Context {S : Type}.

Lemma bind_ret {A B} (a : A) (k : A -> prog S B) s : bind (ret a) k s = k a s.
Proof. reflexivity. Qed.

Lemma bind_ext {A B} (p : prog S A) (f g : A -> prog S B) s :
  (forall a s', f a s' = g a s') -> bind p f s = bind p g s.
Proof. intros H. unfold bind. by destruct (p s). Qed.

Lemma bind_assoc {A B C} (m : prog S A) (k : A -> prog S B) (h : B -> prog S C) s :
  bind (bind m k) h s = bind m (fun a => bind (k a) h) s.
Proof. unfold bind. by destruct (m s). Qed.

Lemma bind_Ret {A B} (m : prog S A) (k : A -> prog S B) s a s' :
  m s = Ret a s' -> bind m k s = k a s'.
Proof. unfold bind. by intros ->. Qed.

Lemma zoom_Ret {T A} (get : S -> T) (put : T -> S -> S) (m : prog T A) s a t :
  m (get s) = Ret a t -> zoom get put m s = Ret a (put t s).
Proof. unfold zoom. by intros ->. Qed.

Lemma bind_inv {A B} (m : prog S A) (k : A -> prog S B) s b s'' :
  bind m k s = Ret b s'' -> exists a s', m s = Ret a s' /\ k a s' = Ret b s''.
Proof. unfold bind. destruct (m s); naive_solver. Qed.
End prog_laws.

(** * Tactics *)

(** Destruct the scrutinee of an [if] on booleans, turning integer tests into
    linear-arithmetic facts. *)
Ltac case_bool :=
  match goal with
  | |- context [if ?b then _ else _] => destruct b eqn:?
  | H : context [if ?b then _ else _] |- _ => destruct b eqn:?
  end.

Ltac bool_to_prop :=
  repeat match goal with
  | H : (_ && _)%bool = true |- _ => apply andb_true_iff in H as [? ?]
  | H : (_ || _)%bool = false |- _ => apply orb_false_iff in H as [? ?]
  | H : (_ <? _) = true |- _ => apply Z.ltb_lt in H
  | H : (_ <? _) = false |- _ => apply Z.ltb_ge in H
  | H : (_ <=? _) = true |- _ => apply Z.leb_le in H
  | H : (_ <=? _) = false |- _ => apply Z.leb_gt in H
  | H : (_ =? _) = true |- _ => apply Z.eqb_eq in H
  | H : (_ =? _) = false |- _ => apply Z.eqb_neq in H
  | H : (_ >? _) = _ |- _ => rewrite Z.gtb_ltb in H
  | H : (_ >=? _) = _ |- _ => rewrite Z.geb_leb in H
  end.

(** Case analysis on every boolean test of the goal, closing by arithmetic. *)
Ltac split_tests := repeat (case_bool; bool_to_prop; try lia).

Create HintDb tfs discriminated.
Create Rewrite HintDb len.

(** Length goals of byte strings. *)
Ltac len := autorewrite with len; simpl length; try lia.

(** * Lemmas on lists *)

Lemma elem_of_sublist {A} (l k : list A) x : l `sublist_of` k -> x ∈ l -> x ∈ k.
Proof. induction 1; rewrite ?elem_of_cons; naive_solver. Qed.

Lemma NoDup_fmap_sublist {A B} (f : A -> B) (l k : list A) :
  l `sublist_of` k -> NoDup (f <$> k) -> NoDup (f <$> l).
Proof.
  induction 1 as [|x l k Hs IH|x l k Hs IH]; simpl; [done| |].
  - intros [Hn Hk]%list.NoDup_cons. apply list.NoDup_cons. split; [|by apply IH].
    intros (y & Hy & Hin)%list_elem_of_fmap. apply Hn, list_elem_of_fmap.
    exists y. split; [done|]. eauto using elem_of_sublist.
  - intros [_ Hk]%list.NoDup_cons. by apply IH.
Qed.

Lemma filter_id {A} (P : A -> Prop) `{!forall x, Decision (P x)} (l : list A) :
  (forall x, x ∈ l -> P x) -> filter P l = l.
Proof.
  induction l as [|x l IH]; intros HP; [done|].
  rewrite filter_cons_True by (apply HP; by left).
  f_equal. apply IH. intros y Hy. apply HP. by right.
Qed.

Lemma filter_iff_in {A} (P Q : A -> Prop) `{!forall x, Decision (P x)} `{!forall x, Decision (Q x)} (l : list A) :
  (forall x, x ∈ l -> P x <-> Q x) -> filter P l = filter Q l.
Proof.
  induction l as [|x l IH]; intros HPQ; [done|]. rewrite !filter_cons.
  pose proof (HPQ x ltac:(by left)). rewrite IH by (intros y Hy; apply HPQ; by right).
  repeat case_decide; tauto.
Qed.

Lemma mjoin_split {A} (ls : list (list A)) i c c' :
  ls !! i = Some c ->
  mjoin ls ≡ₚ c ++ mjoin (take i ls ++ drop (S i) ls) /\
  mjoin (<[i := c']> ls) ≡ₚ c' ++ mjoin (take i ls ++ drop (S i) ls).
Proof.
  intros Hc. pose proof (lookup_lt_Some _ _ _ Hc) as Hlt. split.
  - rewrite <- (take_drop_middle ls i c Hc) at 1.
    rewrite !join_app. simpl. rewrite !app_assoc. f_equiv. apply Permutation_app_comm.
  - rewrite insert_take_drop by done.
    rewrite !join_app. simpl. rewrite !app_assoc. f_equiv. apply Permutation_app_comm.
Qed.

Lemma removelast_sublist {A} (l : list A) : removelast l `sublist_of` l.
Proof.
  induction l as [|x l IH]; [done|]. destruct l as [|y l].
  - apply sublist_nil_l.
  - change (removelast (x :: y :: l)) with (x :: removelast (y :: l)). by apply sublist_skip.
Qed.

Lemma last_removelast {A} (l : list A) x :
  list.last l = Some x -> l = removelast l ++ [x].
Proof.
  intros H. destruct (decide (length l = 0%nat)) as [E|Hne]; [by destruct l|].
  assert (l <> []) as Hnn by by destruct l.
  rewrite (app_removelast_last x Hnn) at 1. do 2 f_equal.
  clear Hne Hnn. revert H. induction l as [|y l IH]; [done|].
  destruct l as [|z l]; simpl in *; [by intros; simplify_eq|]. apply IH.
Qed.

(** * Lemmas on integers *)

Lemma u8_range x : 0 <= u8 x < 256.
Proof. apply Z.mod_pos_bound. lia. Qed.

Lemma u32_range x : 0 <= u32 x < 2 ^ 32.
Proof. apply Z.mod_pos_bound. lia. Qed.

Lemma u64_range x : 0 <= u64 x < 2 ^ 64.
Proof. apply Z.mod_pos_bound. lia. Qed.

Lemma u32_small x : 0 <= x < 2 ^ 32 -> u32 x = x.
Proof. apply Z.mod_small. Qed.

Lemma u64_small x : 0 <= x < 2 ^ 64 -> u64 x = x.
Proof. apply Z.mod_small. Qed.

Lemma to_signed_small w x : 0 < w -> 0 <= x < 2 ^ (w - 1) -> to_signed w x = x.
Proof.
  intros Hw Hx. unfold to_signed.
  assert (2 ^ w = 2 * 2 ^ (w - 1)) as E.
  { rewrite <- Z.pow_succ_r by lia. f_equal. lia. }
  rewrite Z.mod_small by lia.
  destruct (Z.ltb_spec x (2 ^ (w - 1))); lia.
Qed.

Lemma i32_small x : 0 <= x < 2 ^ 31 -> i32 x = x.
Proof. intros H. apply to_signed_small; simpl; lia. Qed.

Lemma i64_small x : 0 <= x < 2 ^ 63 -> i64 x = x.
Proof. intros H. apply to_signed_small; simpl; lia. Qed.

Lemma to_signed_id w x : 0 < w -> - 2 ^ (w - 1) <= x < 2 ^ (w - 1) -> to_signed w x = x.
Proof.
  intros Hw Hx. unfold to_signed.
  assert (2 ^ w = 2 * 2 ^ (w - 1)) as Hp by (rewrite <- Z.pow_succ_r by lia; f_equal; lia).
  destruct (Z.lt_ge_cases x 0).
  - replace (x mod 2 ^ w) with (x + 2 ^ w) by (apply Z.mod_unique with (-1); lia).
    replace (_ <? _) with false by (symmetry; apply Z.ltb_ge; lia). lia.
  - rewrite Z.mod_small by lia. by replace (_ <? _) with true by (symmetry; apply Z.ltb_lt; lia).
Qed.

Lemma to_signed_range w x :
  0 < w -> - 2 ^ (w - 1) <= to_signed w x < 2 ^ (w - 1).
Proof.
  intros Hw. unfold to_signed.
  assert (2 ^ w = 2 * 2 ^ (w - 1)) as E.
  { rewrite <- Z.pow_succ_r by lia. f_equal. lia. }
  pose proof (Z.mod_pos_bound x (2 ^ w) ltac:(lia)).
  destruct (Z.ltb_spec (x mod 2 ^ w) (2 ^ (w - 1))); lia.
Qed.

Lemma to_signed_mod w x : 0 < w -> (to_signed w x) mod 2 ^ w = x mod 2 ^ w.
Proof.
  intros Hw. unfold to_signed. case_bool.
  - apply Z.mod_mod. lia.
  - replace (x mod 2 ^ w - 2 ^ w) with (x mod 2 ^ w + (-1) * 2 ^ w) by lia.
    rewrite Z_mod_plus_full. apply Z.mod_mod. lia.
Qed.

(** Reading an unsigned value back from the memory of a signed field. *)
Lemma to_signed_roundtrip w x :
  0 < w -> - 2 ^ (w - 1) <= x < 2 ^ (w - 1) -> to_signed w (x mod 2 ^ w) = x.
Proof.
  intros Hw Hx. unfold to_signed.
  assert (2 ^ w = 2 * 2 ^ (w - 1)) as E.
  { rewrite <- Z.pow_succ_r by lia. f_equal. lia. }
  rewrite Z.mod_mod by lia.
  destruct (Z.leb_spec 0 x) as [Hp|Hn].
  - rewrite Z.mod_small by lia. destruct (Z.ltb_spec x (2 ^ (w - 1))); lia.
  - assert (x mod 2 ^ w = x + 2 ^ w) as ->.
    { rewrite <- (Z_mod_plus_full x 1). rewrite Z.mul_1_l. apply Z.mod_small. lia. }
    destruct (Z.ltb_spec (x + 2 ^ w) (2 ^ (w - 1))); lia.
Qed.

(** Bitwise operations stay within the width of their operands. *)
Lemma bits_above n a i : 0 <= a < 2 ^ n -> n <= i -> Z.testbit a i = false.
Proof.
  intros Ha Hi. destruct (Z.leb_spec 0 n) as [Hn|Hn].
  - rewrite <- (Z.mod_small a (2 ^ n)) by done. by apply Z.mod_pow2_bits_high.
  - rewrite Z.pow_neg_r in Ha by done. lia.
Qed.

Lemma lxor_range n a b :
  0 <= n -> 0 <= a < 2 ^ n -> 0 <= b < 2 ^ n -> 0 <= Z.lxor a b < 2 ^ n.
Proof.
  intros Hn Ha Hb.
  assert (Z.lxor a b = Z.lxor a b mod 2 ^ n) as ->.
  { apply Z.bits_inj'. intros i Hi. destruct (Z.ltb_spec i n).
    - by rewrite Z.mod_pow2_bits_low.
    - rewrite Z.mod_pow2_bits_high by lia.
      by rewrite Z.lxor_spec, (bits_above n a), (bits_above n b). }
  apply Z.mod_pos_bound. lia.
Qed.

Lemma shiftr_range n a k : 0 <= k -> 0 <= a < 2 ^ n -> 0 <= Z.shiftr a k < 2 ^ n.
Proof.
  intros Hk Ha. rewrite Z.shiftr_div_pow2 by done. split.
  - apply Z.div_pos; lia.
  - apply Z.le_lt_trans with a; [|lia]. apply Z.div_le_upper_bound; nia.
Qed.

Lemma lxor_self_shiftr_range n a k :
  0 <= n -> 0 <= k -> 0 <= a < 2 ^ n -> 0 <= Z.lxor a (Z.shiftr a k) < 2 ^ n.
Proof. intros. apply lxor_range; auto using shiftr_range. Qed.

(** Disjoint bits: xor is addition. *)
Lemma lxor_low_high n a b :
  0 <= n -> 0 <= a < 2 ^ n -> Z.lxor a (Z.shiftl b n) = a + b * 2 ^ n.
Proof.
  intros Hn Ha. rewrite <- Z.shiftl_mul_pow2 by done.
  rewrite Z.add_nocarry_lxor; [done|].
  apply Z.bits_inj'. intros i Hi. rewrite Z.land_spec, Z.bits_0.
  destruct (Z.ltb_spec i n).
  - rewrite Z.shiftl_spec_low by done. apply andb_false_r.
  - by rewrite (bits_above n a).
Qed.

(** * Lemmas on byte strings *)

Lemma bytes_ok_nil : bytes_ok [].
Proof. constructor. Qed.

Lemma bytes_ok_app l1 l2 : bytes_ok (l1 ++ l2) <-> bytes_ok l1 /\ bytes_ok l2.
Proof. apply Forall_app. Qed.

Lemma bytes_ok_take n l : bytes_ok l -> bytes_ok (take n l).
Proof. apply Forall_take. Qed.

Lemma bytes_ok_drop n l : bytes_ok l -> bytes_ok (drop n l).
Proof. apply Forall_drop. Qed.

Lemma bytes_ok_replicate0 n : bytes_ok (replicate n 0).
Proof. apply Forall_replicate. unfold byte_ok. lia. Qed.

Lemma bytes_ok_str s : bytes_ok (str s).
Proof.
  induction s as [|c s IH]; simpl; constructor; [|exact IH].
  unfold byte_ok. pose proof (N_ascii_bounded c). lia.
Qed.

Lemma length_str_resize s n : length (str_resize s n) = n.
Proof. unfold str_resize. rewrite length_app, length_take, length_replicate. lia. Qed.

#[export] Hint Rewrite @length_app @length_take @length_drop @length_replicate
  length_str_resize : len.

Lemma bytes_ok_resize s n : bytes_ok s -> bytes_ok (str_resize s n).
Proof.
  intros H. unfold str_resize. apply bytes_ok_app.
  split; [by apply bytes_ok_take|apply bytes_ok_replicate0].
Qed.

Lemma str_resize_shrink s n : (n <= length s)%nat -> str_resize s n = take n s.
Proof.
  intros H. unfold str_resize.
  replace (n - length s)%nat with 0%nat by lia. apply app_nil_r.
Qed.

Lemma str_resize_grow s n :
  (length s <= n)%nat -> str_resize s n = s ++ replicate (n - length s) 0.
Proof. intros H. unfold str_resize. by rewrite take_ge by lia. Qed.

Lemma length_str_replace s pos len buf :
  (pos <= length s)%nat ->
  length (str_replace s pos len buf) =
  (pos + length buf + (length s - (pos + len)))%nat.
Proof.
  intros H. unfold str_replace. rewrite !length_app, length_take, length_drop. lia.
Qed.

Lemma bytes_ok_replace s pos len buf :
  bytes_ok s -> bytes_ok buf -> bytes_ok (str_replace s pos len buf).
Proof.
  intros Hs Hb. unfold str_replace. rewrite !bytes_ok_app.
  auto using bytes_ok_take, bytes_ok_drop.
Qed.

Lemma slice_app_r pos len l1 l2 :
  (length l1 <= pos)%nat -> slice pos len (l1 ++ l2) = slice (pos - length l1) len l2.
Proof. intros H. unfold slice. by rewrite drop_app_ge. Qed.

Lemma slice_app_l pos len l1 l2 :
  (pos + len <= length l1)%nat -> slice pos len (l1 ++ l2) = slice pos len l1.
Proof.
  intros H. unfold slice. rewrite drop_app_le by lia.
  rewrite take_app_le; [done|]. rewrite length_drop. lia.
Qed.

Lemma length_slice pos len l :
  (pos + len <= length l)%nat -> length (slice pos len l) = len.
Proof. intros H. unfold slice. rewrite length_take, length_drop. lia. Qed.

Lemma slice_all l n : n = length l -> slice 0 n l = l.
Proof. intros ->. unfold slice. by rewrite drop_0, take_ge by lia. Qed.

Lemma length_write_at data off buf :
  length (write_at data off buf) = Nat.max (length data) (off + length buf).
Proof.
  unfold write_at. case_decide.
  - rewrite length_str_replace; rewrite length_str_resize; lia.
  - rewrite length_str_replace; lia.
Qed.

Lemma bytes_ok_write_at data off buf :
  bytes_ok data -> bytes_ok buf -> bytes_ok (write_at data off buf).
Proof. intros. unfold write_at. apply bytes_ok_replace; [case_decide|]; auto using bytes_ok_resize. Qed.

Lemma write_at_nil buf : write_at [] 0 buf = buf.
Proof. unfold write_at, str_replace. cbn. destruct buf; [done|]. cbn. by rewrite app_nil_r. Qed.

Lemma write_at_none data off : (off <= length data)%nat -> write_at data off [] = data.
Proof.
  intros H. unfold write_at, str_replace. rewrite decide_False by lia. cbn. rewrite Nat.add_0_r. apply take_drop.
Qed.

(** Read after write. *)
Lemma slice_write_at data off buf : slice off (length buf) (write_at data off buf) = buf.
Proof.
  unfold write_at, str_replace.
  set (d := if decide _ then _ else _).
  assert (off <= length d)%nat as Hd.
  { subst d. case_decide; [rewrite length_str_resize|]; lia. }
  rewrite slice_app_r by len. rewrite length_take, Nat.min_l, Nat.sub_diag by done.
  rewrite slice_app_l by lia. by apply slice_all.
Qed.

(** Bytes outside the written range keep their value. *)
Lemma lookup_write_at_ne data off buf i :
  (i < length data)%nat -> (i < off \/ off + length buf <= i)%nat ->
  write_at data off buf !! i = data !! i.
Proof.
  intros Hi Hr. unfold write_at, str_replace.
  set (d := if decide _ then _ else _).
  assert (off <= length d /\ d !! i = data !! i)%nat as [Hd E].
  { subst d. case_decide; [|split; [lia|done]]. rewrite length_str_resize.
    split; [lia|]. unfold str_resize. rewrite take_ge, lookup_app_l by lia. done. }
  destruct Hr.
  - rewrite lookup_app_l by len. by rewrite lookup_take_lt by lia.
  - rewrite lookup_app_r by len. rewrite lookup_app_r by len.
    rewrite lookup_drop, length_take, <- E. f_equal. lia.
Qed.

(** A hole reads as NUL bytes. *)
Lemma lookup_write_at_hole data off buf i :
  (length data <= i < off)%nat -> write_at data off buf !! i = Some 0.
Proof.
  intros Hi. unfold write_at, str_replace. rewrite decide_True by lia.
  rewrite lookup_app_l by len. rewrite lookup_take_lt by lia. unfold str_resize.
  rewrite take_ge by lia. rewrite lookup_app_r by lia.
  apply lookup_replicate_2. lia.
Qed.

Lemma c_str_all l : Forall (fun b => b <> 0) l -> c_str l = l.
Proof.
  induction 1 as [|b l Hb _ IH]; simpl; [done|]. rewrite IH.
  by replace (b =? 0) with false by (symmetry; by apply Z.eqb_neq).
Qed.

Lemma c_str_no_nul l : Forall (fun b => b <> 0) l -> forall r, c_str (l ++ 0 :: r) = l.
Proof.
  induction 1 as [|b l Hb _ IH]; intros r; simpl; [done|].
  destruct (Z.eqb_spec b 0); [done|]. by rewrite IH.
Qed.

Lemma length_le_bytes n z : length (le_bytes n z) = n.
Proof. revert z. induction n; intros z; simpl; [done|]. by rewrite IHn. Qed.

Lemma le_bytes_ok n z : bytes_ok (le_bytes n z).
Proof.
  revert z. induction n; intros z; simpl; constructor; [|apply IHn].
  apply Z.mod_pos_bound. lia.
Qed.

Lemma le_val_bytes n z : le_val (le_bytes n z) = z mod 2 ^ (8 * Z.of_nat n).
Proof.
  revert z. induction n as [|n IH]; intros z; cbn [le_bytes le_val].
  - by rewrite Z.mod_1_r.
  - rewrite IH.
    replace (2 ^ (8 * Z.of_nat (S n))) with (256 * 2 ^ (8 * Z.of_nat n)).
    + rewrite Z.rem_mul_r by lia. lia.
    + rewrite Nat2Z.inj_succ. replace (8 * Z.succ (Z.of_nat n)) with (8 + 8 * Z.of_nat n) by lia.
      rewrite Z.pow_add_r by lia. reflexivity.
Qed.

Lemma le_val_range l : bytes_ok l -> 0 <= le_val l < 2 ^ (8 * Z.of_nat (length l)).
Proof.
  induction 1 as [|b l Hb _ IH]; simpl length; simpl le_val; [lia|].
  rewrite Nat2Z.inj_succ. replace (8 * Z.succ (Z.of_nat (length l))) with (8 + 8 * Z.of_nat (length l)) by lia.
  rewrite Z.pow_add_r by lia. unfold byte_ok in Hb. lia.
Qed.

Lemma le_bytes_val l n : length l = n -> bytes_ok l -> le_bytes n (le_val l) = l.
Proof.
  intros <- H. induction H as [|b l Hb _ IH]; [done|].
  cbn [length le_bytes le_val]. unfold byte_ok in Hb.
  replace (b + 256 * le_val l) with (b + le_val l * 256) by lia.
  rewrite Z_mod_plus_full, Z.mod_small by lia.
  rewrite Z.div_add, Z.div_small, Z.add_0_l by lia. by rewrite IH.
Qed.

Lemma le_bytes_mod n z : le_bytes n z = le_bytes n (z mod 2 ^ (8 * Z.of_nat n)).
Proof.
  rewrite <- le_val_bytes. symmetry. apply le_bytes_val; [apply length_le_bytes|apply le_bytes_ok].
Qed.

Lemma le_bytes_inj n x y :
  0 <= x < 2 ^ (8 * Z.of_nat n) -> 0 <= y < 2 ^ (8 * Z.of_nat n) ->
  le_bytes n x = le_bytes n y -> x = y.
Proof.
  intros Hx Hy H. apply (f_equal le_val) in H. rewrite !le_val_bytes in H.
  by rewrite !Z.mod_small in H by done.
Qed.

#[export] Hint Rewrite length_le_bytes length_write_at : len.
#[export] Hint Resolve bytes_ok_nil bytes_ok_str le_bytes_ok bytes_ok_replicate0
  bytes_ok_take bytes_ok_drop bytes_ok_resize bytes_ok_replace bytes_ok_write_at : tfs.
