(* ===== verification/Threads.v ===== *)
(** Threads that share data, a mutex and a condition variable, as POSIX has them.

    The code of a thread is a map from program points to instructions. A thread
    in [Wait] has given the mutex back and sleeps until a signal, a broadcast, a
    time-out or a spurious wake-up; awake again, it takes the mutex before it goes
    on. Uses that POSIX leaves undefined make the machine [Broken]: a mutex or a
    condition variable that was destroyed, an unlock or a wait without the mutex,
    the destruction of what is in use. *)

From S2P Require Import Prelude.

Set Default Proof Using "Type".

Section machine.
Context {A P : Type}.

Inductive instr : Type :=
| Lock (q : P)
| Unlock (q : P)
| Wait (q : P)
| Signal (q : P)
| Broadcast (q : P)
| Do (f : A -> option A) (q : P)
| Test (b : A -> option bool) (q r : P)
| Mutex_destroy (q : P)
| Cond_destroy (q : P)
| Halt.

Inductive status : Type :=
| Running (p : P)
| Asleep (q : P)
| Awake (q : P).

Record machine : Type := mkMachine {
  data : A;
  owner : option nat;
  mutex_live : bool;
  cond_live : bool;
  threads : list status
}.

(** Thread [i] goes on, and if it signals, [j] is woken; thread [i] wakes up by
    itself. *)
Inductive event : Type :=
| Go (i j : nat)
| WakeUp (i : nat).

Inductive outcome : Type :=
| Next (m : machine)
| Blocked
| Broken.

Definition put_data (a : A) (m : machine) : machine :=
  mkMachine a (owner m) (mutex_live m) (cond_live m) (threads m).
Definition put_owner (o : option nat) (m : machine) : machine :=
  mkMachine (data m) o (mutex_live m) (cond_live m) (threads m).
Definition put_threads (l : list status) (m : machine) : machine :=
  mkMachine (data m) (owner m) (mutex_live m) (cond_live m) l.
Definition become (i : nat) (st : status) (m : machine) : machine :=
  put_threads (<[i := st]> (threads m)) m.

Definition sleeping (st : status) : bool := match st with Asleep _ => true | _ => false end.
Definition wake (st : status) : status := match st with Asleep q => Awake q | _ => st end.

Definition require (b : bool) (o : outcome) : outcome := if b then o else Broken.

Definition holds (i : nat) (m : machine) : bool := bool_decide (owner m = Some i).

(** Thread [i] takes the mutex and goes on as [st]. *)
Definition acquire (i : nat) (st : status) (m : machine) : outcome :=
  require (mutex_live m)
    (match owner m with
     | None => Next (put_owner (Some i) (become i st m))
     | Some _ => Blocked
     end).

Context (code : P -> instr).

Definition exec (i j : nat) (p : P) (m : machine) : outcome :=
  match code p with
  | Lock q => acquire i (Running q) m
  | Unlock q => require (mutex_live m && holds i m) (Next (put_owner None (become i (Running q) m)))
  | Wait q =>
      require (mutex_live m && cond_live m && holds i m) (Next (put_owner None (become i (Asleep q) m)))
  | Signal q =>
      require (cond_live m)
        (match threads m !! j with
         | Some (Asleep r) => Next (become i (Running q) (become j (Awake r) m))
         | _ => if existsb sleeping (threads m) then Blocked else Next (become i (Running q) m)
         end)
  | Broadcast q => require (cond_live m) (Next (become i (Running q) (put_threads (wake <$> threads m) m)))
  | Do f q => match f (data m) with Some a => Next (become i (Running q) (put_data a m)) | None => Broken end
  | Test b q r =>
      match b (data m) with
      | Some c => Next (become i (Running (if c then q else r)) m)
      | None => Broken
      end
  | Mutex_destroy q =>
      require (mutex_live m && bool_decide (owner m = None))
        (Next (become i (Running q) (mkMachine (data m) (owner m) false (cond_live m) (threads m))))
  | Cond_destroy q =>
      require (cond_live m && negb (existsb sleeping (threads m)))
        (Next (become i (Running q) (mkMachine (data m) (owner m) (mutex_live m) false (threads m))))
  | Halt => Blocked
  end.

Definition step (e : event) (m : machine) : outcome :=
  match e with
  | Go i j =>
      match threads m !! i with
      | Some (Running p) => exec i j p m
      | Some (Awake q) => acquire i (Running q) m
      | Some (Asleep _) | None => Blocked
      end
  | WakeUp i =>
      match threads m !! i with
      | Some (Asleep q) => Next (become i (Awake q) m)
      | _ => Blocked
      end
  end.

(** * Reachable machines *)

(** Whether threads may wake up by themselves. *)
Definition allowed (w : bool) (e : event) : bool := match e with Go _ _ => true | WakeUp _ => w end.

Inductive reachable (w : bool) (m0 : machine) : machine -> Prop :=
| reachable_init : reachable w m0 m0
| reachable_step m e m' : reachable w m0 m -> allowed w e = true -> step e m = Next m' -> reachable w m0 m'.

Fixpoint steps (es : list event) (m : machine) : outcome :=
  match es with
  | [] => Next m
  | e :: es' => match step e m with Next m' => steps es' m' | o => o end
  end.

Lemma steps_reachable w es m0 m m' :
  reachable w m0 m -> forallb (allowed w) es = true -> steps es m = Next m' -> reachable w m0 m'.
Proof.
  revert m. induction es as [|e es IH]; intros m Hr Hes Hs; simplify_eq/=; [done|].
  apply andb_prop in Hes as [He Hes]. destruct (step e m) as [m1| |] eqn:Hst; [|done|done].
  eapply IH; [|done|done]. by eapply reachable_step.
Qed.

Lemma steps_app es es' m :
  steps (es ++ es') m = match steps es m with Next m' => steps es' m' | o => o end.
Proof.
  revert m. induction es as [|e es IH]; intros m; [done|]. cbn. destruct (step e m); [apply IH|done|done].
Qed.

(** * Fair runs *)

Definition can_go (i : nat) (m : machine) : Prop := exists j m', step (Go i j) m = Next m'.

(** An infinite run: at each moment an event, or none. *)
Record runs_from (w : bool) (r : nat -> machine) (s : nat -> option event) : Prop := {
  run_step n e : s n = Some e -> allowed w e = true /\ step e (r n) = Next (r (Datatypes.S n));
  run_idle n : s n = None -> r (Datatypes.S n) = r n
}.

(** Thread [i] goes on infinitely often, unless from some moment on it cannot. *)
Definition fair (r : nat -> machine) (s : nat -> option event) (i : nat) : Prop :=
  forall n, exists k, (n <= k)%nat /\
    ((exists j, s k = Some (Go i j)) \/ forall l, (k <= l)%nat -> ~ can_go i (r l)).

(** A run that follows a list of events and then stays where it is. *)
Definition script_run (es : list event) (m0 : machine) (n : nat) : machine :=
  match steps (take n es) m0 with Next m => m | _ => m0 end.

Lemma script_runs w es m0 m' : forallb (allowed w) es = true -> steps es m0 = Next m' ->
  runs_from w (script_run es m0) (fun n => es !! n).
Proof.
  intros Hw Hs. unfold script_run. split; intros n.
  - intros e He. split.
    + rewrite forallb_forall in Hw. apply Hw. apply list_elem_of_In. by eapply list_elem_of_lookup_2.
    + rewrite <- (take_drop_middle es n e He), steps_app in Hs.
      rewrite (take_S_r es n e He), steps_app. destruct (steps (take n es) m0) as [m1| |]; [|done|done].
      cbn in *. by destruct (step e m1).
  - intros He. apply lookup_ge_None in He. by rewrite !take_ge by lia.
Qed.

Lemma script_fair es m0 m' i : steps es m0 = Next m' -> ~ can_go i m' -> fair (script_run es m0) (fun n => es !! n) i.
Proof.
  intros Hs Hno n. exists (n + length es)%nat. split; [lia|]. right. intros l Hl.
  unfold script_run. rewrite take_ge by lia. by rewrite Hs.
Qed.

Section runs.
Context (w : bool) (r : nat -> machine) (s : nat -> option event) (Hrun : runs_from w r s).
Implicit Types (Inv goal : machine -> Prop) (rank : machine -> nat).

Lemma run_reachable m0 n k : reachable w m0 (r n) -> (n <= k)%nat -> reachable w m0 (r k).
Proof using Hrun.
  intros Hn. induction 1 as [|k Hk IH]; [done|]. destruct (s k) as [e|] eqn:He.
  - destruct (run_step _ _ _ Hrun _ _ He). by eapply reachable_step.
  - by rewrite (run_idle _ _ _ Hrun _ He).
Qed.

(** What every step keeps, until the goal is reached, holds along the run. *)
Lemma run_keeps goal (Q : machine -> Prop) n k :
  (forall l, (n <= l < k)%nat -> Q (r l) -> forall e, s l = Some e -> goal (r (Datatypes.S l)) \/ Q (r (Datatypes.S l))) ->
  (n <= k)%nat -> Q (r n) -> (exists l, (n <= l <= k)%nat /\ goal (r l)) \/ Q (r k).
Proof using Hrun.
  intros Hk Hle HQ. induction Hle as [|k Hle IH]; [by right|].
  destruct IH as [(l & Hl & Hg)|HQk]; [intros l Hl; apply Hk; lia|left; exists l; split; [lia|done]|].
  destruct (s k) as [e|] eqn:He.
  - destruct (Hk k ltac:(lia) HQk e He) as [Hg|Hg]; [left; exists (Datatypes.S k); split; [lia|done]|by right].
  - right. by rewrite (run_idle _ _ _ Hrun _ He).
Qed.

(** A thread whose every move brings the goal nearer, while no other event takes
    it away, reaches it when it is not blocked for ever. *)
Lemma fair_descent i Inv goal rank :
  fair r s i ->
  (forall n e, Inv (r n) -> s n = Some e -> goal (r (Datatypes.S n)) \/
     Inv (r (Datatypes.S n)) /\ (rank (r (Datatypes.S n)) <= rank (r n))%nat /\
     (forall j, e = Go i j -> (rank (r (Datatypes.S n)) < rank (r n))%nat)) ->
  (forall n, Inv (r n) -> exists k, (n <= k)%nat /\ (goal (r k) \/ can_go i (r k))) ->
  forall n, Inv (r n) -> exists k, (n <= k)%nat /\ goal (r k).
Proof using Hrun.
  intros Hf Hstep Hgo n. remember (rank (r n)) as d eqn:Hd. revert n Hd.
  induction (lt_wf d) as [d _ IH]. intros n -> HI.
  destruct (Hf n) as (k & Hnk & Hk).
  destruct (run_keeps goal (fun m => Inv m /\ (rank m <= rank (r n))%nat) n k) as [(l & Hl & Hg)|[HIk Hrk]]; [|done|split; [done|lia]| |].
  { intros l Hl [HIl Hrl] e He. destruct (Hstep l e HIl He) as [|(? & ? & ?)]; [by left|right; split; [done|lia]]. }
  { exists l. split; [lia|done]. }
  destruct Hk as [(j & Hj)|Hno].
  - destruct (Hstep k _ HIk Hj) as [Hg|(HI' & _ & Hlt)]; [exists (Datatypes.S k); split; [lia|done]|].
    destruct (IH (rank (r (Datatypes.S k))) ltac:(specialize (Hlt j eq_refl); lia) (Datatypes.S k) eq_refl HI') as (l & ? & ?).
    exists l. split; [lia|done].
  - destruct (Hgo k HIk) as (l & Hkl & [Hg|Hc]); [exists l; split; [lia|done]|]. by destruct (Hno l Hkl).
Qed.

(** The same when the thread that makes progress depends on the machine: as long
    as the goal is not reached some thread is [helpful], it stays so until the
    rank falls, and its move makes it fall. *)
Lemma fair_progress Inv goal rank (helpful : nat -> machine -> Prop) :
  (forall i m, helpful i m -> can_go i m) ->
  (forall n, Inv (r n) -> goal (r n) \/ exists i, helpful i (r n) /\ fair r s i) ->
  (forall n e, Inv (r n) -> s n = Some e -> Inv (r (Datatypes.S n)) /\
     ((rank (r (Datatypes.S n)) < rank (r n))%nat \/ rank (r (Datatypes.S n)) = rank (r n) /\
        forall i, helpful i (r n) -> helpful i (r (Datatypes.S n)) /\ forall j, e <> Go i j)) ->
  forall n, Inv (r n) -> exists k, (n <= k)%nat /\ goal (r k).
Proof using Hrun.
  intros Hgo Hhelp Hstep n. remember (rank (r n)) as d eqn:Hd. revert n Hd.
  induction (lt_wf d) as [d _ IH]. intros n -> HI.
  destruct (Hhelp n HI) as [Hg|(i & Hi & Hf)]; [by exists n|].
  destruct (Hf n) as (k & Hnk & Hk).
  assert (Hlow : forall l, (n <= l)%nat -> Inv (r l) /\ (rank (r l) < rank (r n))%nat -> exists k, (n <= k)%nat /\ goal (r k)).
  { intros l Hl [HIl Hrl]. destruct (IH _ Hrl l eq_refl HIl) as (k' & ? & ?). exists k'. split; [lia|done]. }
  destruct (run_keeps (fun m => Inv m /\ (rank m < rank (r n))%nat)
              (fun m => Inv m /\ rank m = rank (r n) /\ helpful i m) n k) as [(l & Hl & Hg)|(HIk & Hrk & Hik)]; [|done|done| |].
  { intros l Hl (HIl & Hrl & Hil) e He. destruct (Hstep l e HIl He) as [HI' [Hlt|[Heq Hh]]]; [left; split; [done|lia]|].
    right. split; [done|]. split; [lia|]. by apply Hh. }
  { apply (Hlow l); [lia|done]. }
  destruct Hk as [(j & Hj)|Hno].
  - destruct (Hstep k _ HIk Hj) as [HI' [Hlt|[Heq Hh]]]; [apply (Hlow (Datatypes.S k)); [lia|split; [done|lia]]|].
    destruct (Hh i Hik) as [_ Hne]. by destruct (Hne j).
  - destruct (Hno k (le_n _)). by apply Hgo.
Qed.
End runs.
End machine.

Arguments instr : clear implicits.
Arguments status : clear implicits.
Arguments machine : clear implicits.
Arguments outcome : clear implicits.
