(* ===== verification/MonitorThread.v ===== *)
(** The monitor thread of [src/fs/tablefs.cpp]: [monitor_thread], [monitor_init] and
    [monitor_destroy], and what [TableFS::Destroy] does after it.

    The thread reports every few seconds until it is told to stop; [Destroy] tells
    it and waits for it, because it goes on to close the store the thread reads. *)

From S2P Require Import Prelude Threads.

Set Default Proof Using "Type".

Definition ETIMEDOUT : Z := 110.

(** The two flags, the thread's variable [ret], and whether [metadb] still stands. *)
Record monitor_data : Type := mkMonitor {
  stop_monitor_thread : Z;
  flag_monitor_thread_finish : Z;
  mon_ret : Z;
  metadb_open : bool;
  mon_reports : nat
}.

Definition set_stop (d : monitor_data) : monitor_data :=
  mkMonitor 1 (flag_monitor_thread_finish d) (mon_ret d) (metadb_open d) (mon_reports d).
Definition set_finish (d : monitor_data) : monitor_data :=
  mkMonitor (stop_monitor_thread d) 1 (mon_ret d) (metadb_open d) (mon_reports d).
Definition set_ret (r : Z) (d : monitor_data) : monitor_data :=
  mkMonitor (stop_monitor_thread d) (flag_monitor_thread_finish d) r (metadb_open d) (mon_reports d).
Definition close_metadb (d : monitor_data) : monitor_data :=
  mkMonitor (stop_monitor_thread d) (flag_monitor_thread_finish d) (mon_ret d) false (mon_reports d).

(** A report reads from the store: undefined when the store is gone. *)
Definition report_metrics (d : monitor_data) : option monitor_data :=
  if metadb_open d
  then Some (mkMonitor (stop_monitor_thread d) (flag_monitor_thread_finish d) (mon_ret d) true
               (Datatypes.S (mon_reports d)))
  else None.

(** The program points of [Destroy], of [monitor_destroy] in it, and of the
    thread. *)
Inductive mon_point : Type :=
| D_lock | D_stop | D_signal | D_while | D_wait | D_unlock | D_mutex | D_cond
| D_report | D_close | D_end
| T_lock | T_ret | T_while | T_timed_out | T_report | T_unexpected | T_give_up | T_wait
| T_finish | T_broadcast | T_unlock | T_end.

#[global] Instance mon_point_eq_dec : EqDecision mon_point.
Proof. solve_decision. Defined.

Definition monitor_destroy (p : mon_point) : instr monitor_data mon_point :=
  match p with
  | D_lock => Lock D_stop
  | D_stop => Do (fun d => Some (set_stop d)) D_signal
  | D_signal => Signal D_while
  | D_while => Test (fun d => Some (flag_monitor_thread_finish d =? 0)) D_wait D_unlock
  | D_wait => Wait D_while
  | D_unlock => Unlock D_mutex
  | D_mutex => Mutex_destroy D_cond
  | D_cond => Cond_destroy D_report
  | _ => Halt
  end.

(** The value [pthread_cond_timedwait] returns is not assigned to [ret]. *)
Definition monitor_thread (p : mon_point) : instr monitor_data mon_point :=
  match p with
  | T_lock => Lock T_ret
  | T_ret => Do (fun d => Some (set_ret ETIMEDOUT d)) T_while
  | T_while => Test (fun d => Some (stop_monitor_thread d =? 0)) T_timed_out T_finish
  | T_timed_out => Test (fun d => Some (mon_ret d =? ETIMEDOUT)) T_report T_unexpected
  | T_report => Do report_metrics T_wait
  | T_unexpected => Test (fun d => Some (stop_monitor_thread d =? 0)) T_give_up T_wait
  | T_give_up => Do (fun d => Some (set_stop d)) T_wait
  | T_wait => Wait T_while
  | T_finish => Do (fun d => Some (set_finish d)) T_broadcast
  | T_broadcast => Broadcast T_unlock
  | T_unlock => Unlock T_end
  | _ => Halt
  end.

(** [Destroy]: [monitor_destroy], the last reports, and the store is closed and
    deleted by [state_->Destroy]. *)
Definition destroy_code (p : mon_point) : instr monitor_data mon_point :=
  match p with
  | D_report => Do report_metrics D_close
  | D_close => Do (fun d => Some (close_metadb d)) D_end
  | D_end => Halt
  | _ => monitor_destroy p
  end.

Definition mon_code (p : mon_point) : instr monitor_data mon_point :=
  match p with
  | T_lock | T_ret | T_while | T_timed_out | T_report | T_unexpected | T_give_up | T_wait
  | T_finish | T_broadcast | T_unlock | T_end => monitor_thread p
  | _ => destroy_code p
  end.

(** After [monitor_init]: thread 0 has [Destroy] before it, thread 1 is the
    monitor. [ret] is not set yet. *)
Definition monitor_init (r : Z) : machine monitor_data mon_point :=
  mkMachine (mkMonitor 0 0 r true 0) None true true [Running D_lock; Running T_lock].

(** * The invariant *)

Abbreviation mon_machine := (machine monitor_data mon_point).
Abbreviation mon_status := (status mon_point).
Implicit Types (m : mon_machine) (st : mon_status).

(** Between [lock] and [unlock]. *)
Definition in_section st : bool :=
  match st with
  | Running (D_stop | D_signal | D_while | D_wait | D_unlock) => true
  | Running (T_ret | T_while | T_timed_out | T_report | T_unexpected | T_give_up | T_wait
             | T_finish | T_broadcast | T_unlock) => true
  | _ => false
  end.

(** Where each thread can be. *)
Definition destroy_side st : bool :=
  match st with
  | Running (D_lock | D_stop | D_signal | D_while | D_wait | D_unlock | D_mutex | D_cond | D_report | D_close | D_end)
  | Asleep D_while | Awake D_while => true
  | _ => false
  end.
Definition thread_side st : bool :=
  match st with
  | Running (T_lock | T_ret | T_while | T_timed_out | T_report | T_wait | T_finish | T_broadcast | T_unlock | T_end)
  | Asleep T_while | Awake T_while => true
  | _ => false
  end.

Definition stopped_before st : bool :=
  match st with Running (D_lock | D_stop) => false | _ => true end.
Definition finished st : bool :=
  match st with Running (T_broadcast | T_unlock | T_end) => true | _ => false end.
(** Past [monitor_destroy]'s loop. *)
Definition past_loop st : bool :=
  match st with Running (D_unlock | D_mutex | D_cond | D_report | D_close | D_end) => true | _ => false end.
Definition past_mutex st : bool := match st with Running (D_cond | D_report | D_close | D_end) => true | _ => false end.
Definition past_cond st : bool := match st with Running (D_report | D_close | D_end) => true | _ => false end.

(** The thread has seen no stop yet, holding the mutex. *)
Definition working st : bool := match st with Running (T_timed_out | T_report | T_wait) => true | _ => false end.

(** Where the two can be at the same time. *)
Definition compatible (d t : mon_status) : bool :=
  destroy_side d && thread_side t &&
  negb (in_section d && in_section t) &&
  implb (past_loop d) (match t with Running T_end => true | _ => false end) &&
  implb (match t with Running T_finish => true | _ => finished t end) (stopped_before d) &&
  implb (working t) (negb (stopped_before d)) &&
  implb (match d with Running D_wait => true | _ => false end) (negb (finished t)) &&
  implb (sleeping t) (match d with Running D_signal => true | _ => negb (stopped_before d) end) &&
  implb (sleeping d) (match t with Running (T_unlock | T_end) => false | _ => true end).

Record mon_ok (d t : mon_status) m : Prop := {
  ok_threads : threads m = [d; t];
  ok_compatible : compatible d t = true;
  ok_owner : owner m = if in_section d then Some 0%nat else if in_section t then Some 1%nat else None;
  ok_stop : stop_monitor_thread (data m) = if stopped_before d then 1 else 0;
  ok_finish : flag_monitor_thread_finish (data m) = if finished t then 1 else 0;
  ok_ret : match t with Running (T_lock | T_ret) => True | _ => mon_ret (data m) = ETIMEDOUT end;
  ok_mutex : mutex_live m = negb (past_mutex d);
  ok_cond : cond_live m = negb (past_cond d);
  ok_metadb : metadb_open (data m) = match d with Running D_end => false | _ => true end
}.

Lemma monitor_init_ok r : mon_ok (Running D_lock) (Running T_lock) (monitor_init r).
Proof. by split. Qed.

(** Every event keeps the invariant, and none is undefined. *)
Lemma mon_step d t m e : mon_ok d t m ->
  match step mon_code e m with
  | Next m' => exists d' t', mon_ok d' t' m'
  | Blocked => True
  | Broken => False
  end.
Proof.
  destruct m as [[stop fin r op k] o ml cl ths]. intros [? Hc ? ? ? ? ? ? ?]; simplify_eq/=.
  destruct d as [[]|[]|[]], t as [[]|[]|[]]; try discriminate Hc; clear Hc; simplify_eq/=;
    (destruct e as [[|[|i]] [|[|j]]|[|[|i]]]; cbn; try exact I; do 2 eexists; by split).
Qed.

Lemma mon_reachable w r m : reachable mon_code w (monitor_init r) m -> exists d t, mon_ok d t m.
Proof.
  induction 1 as [|m e m' _ (d & t & Hok) _ Hs]; [eauto using monitor_init_ok|].
  pose proof (mon_step d t m e Hok) as H. by rewrite Hs in H.
Qed.

(** * Progress *)

(** How far a thread has to go. *)
Definition mon_rank st : nat :=
  match st with
  | Running D_lock => 12 | Running D_stop => 11 | Running D_signal => 10 | Awake D_while | Asleep D_while => 9
  | Running D_while => 8 | Running D_wait => 7 | Running D_unlock => 6 | Running D_mutex => 5
  | Running D_cond => 4 | Running D_report => 3 | Running D_close => 2
  | Running T_lock => 13 | Running T_ret => 12 | Asleep T_while => 11 | Awake T_while => 10 | Running T_while => 9
  | Running T_timed_out => 8 | Running T_report => 7 | Running T_wait => 6 | Running T_finish => 5
  | Running T_broadcast => 4 | Running T_unlock => 3
  | _ => 0
  end.

Definition at_end st : bool := match st with Running (D_end | T_end) => true | _ => false end.

(** The two threads by their number. *)
Definition pick (b : bool) (d t : mon_status) : mon_status := if b then t else d.
Definition num (b : bool) : nat := if b then 1 else 0.

(** The rank does not rise, and falls when thread [b] moves. *)
Definition falls (b : bool) (e : event) (st st' : mon_status) : Prop :=
  (mon_rank st' <= mon_rank st)%nat /\ forall j, e = Go (num b) j -> (mon_rank st' < mon_rank st)%nat.

Ltac progress_solver :=
  intros; first
  [ done | discriminate | lia
  | split; progress_solver
  | left; solve [progress_solver]
  | right; solve [progress_solver] ].

Ltac mon_cases :=
  intros [? Hc ? ? ? ? ? ? ?]; simplify_eq/=;
  match goal with Hc : compatible ?d ?t = true |- _ =>
    destruct d as [[]|[]|[]], t as [[]|[]|[]]; try discriminate Hc; clear Hc; simplify_eq/= end.

Lemma mon_progress d t m e m' : mon_ok d t m -> step mon_code e m = Next m' ->
  exists d' t', mon_ok d' t' m' /\
    (stopped_before d = true -> stopped_before d' = true /\ falls true e t t') /\
    (stopped_before d = false -> stopped_before d' = true \/ falls false e d d') /\
    (forall b, in_section (pick b d t) = true ->
       owner m' = None \/ in_section (pick b d' t') = true /\ falls b e (pick b d t) (pick b d' t')) /\
    (t = Running T_end -> t' = Running T_end /\ falls false e d d').
Proof.
  destruct m as [[stop fin r op k] o ml cl ths]. mon_cases; intros Hs;
    (destruct e as [[|[|i]] [|[|j]]|[|[|i]]]; cbn in Hs; try discriminate Hs; injection Hs as <-; do 2 eexists; (split; [by split|]);
     repeat split; try intros []; cbn; progress_solver).
Qed.

(** A thread with work left can go on when the mutex is free or its own. *)
Lemma mon_can_go b d t m : mon_ok d t m -> owner m = None \/ owner m = Some (num b) ->
  sleeping (pick b d t) = false -> at_end (pick b d t) = false -> can_go mon_code (num b) m.
Proof.
  destruct m as [[stop fin r op k] o ml cl ths]. mon_cases; intros Ho; destruct b; cbn in *; intros; try done;
    (by destruct Ho) || (by exists 1%nat; eexists).
Qed.

Lemma mon_owner b d t m : mon_ok d t m -> in_section (pick b d t) = true -> owner m = Some (num b).
Proof. destruct m as [[stop fin r op k] o ml cl ths]. mon_cases; by destruct b. Qed.

Lemma mon_thread b d t m : mon_ok d t m -> threads m !! num b = Some (pick b d t).
Proof. intros Hok. rewrite (ok_threads _ _ _ Hok). by destruct b. Qed.

Section liveness.
Context (w : bool) (r : nat -> mon_machine) (s : nat -> option event).
Context (Hrun : runs_from mon_code w r s) (Hfair : forall i, fair mon_code r s i).
Context (v : Z) (Hinit : reachable mon_code w (monitor_init v) (r 0%nat)).

Lemma mon_always n : exists d t, mon_ok d t (r n).
Proof using All.
  apply (mon_reachable w v). apply (run_reachable _ _ _ _ Hrun _ 0); [done|lia].
Qed.

(** [fair_descent] for the ranks of this protocol. *)
Lemma mon_descent b (Inv : mon_status -> mon_status -> Prop) (goal : mon_machine -> Prop) :
  (forall d t m e m', mon_ok d t m -> Inv d t -> step mon_code e m = Next m' -> goal m' \/
     exists d' t', mon_ok d' t' m' /\ Inv d' t' /\ falls b e (pick b d t) (pick b d' t')) ->
  (forall n d t, mon_ok d t (r n) -> Inv d t ->
     exists k, (n <= k)%nat /\ (goal (r k) \/ can_go mon_code (num b) (r k))) ->
  forall n d t, mon_ok d t (r n) -> Inv d t -> exists k, (n <= k)%nat /\ goal (r k).
Proof using All.
  intros Hstep Hgo n d t Hok HI.
  apply (fair_descent mon_code w r s Hrun (num b)
    (fun m => exists d t, mon_ok d t m /\ Inv d t) goal
    (fun m => mon_rank (default (Running D_end) (threads m !! num b)))); [apply Hfair| |naive_solver|by exists d, t].
  intros l e (d1 & t1 & Hok1 & HI1) He. destruct (run_step _ _ _ _ Hrun _ _ He) as [_ Hs].
  destruct (Hstep _ _ _ _ _ Hok1 HI1 Hs) as [|(d2 & t2 & Hok2 & HI2 & Hle & Hlt)]; [by left|right].
  rewrite (mon_thread b _ _ _ Hok1), (mon_thread b _ _ _ Hok2). cbn. split; [eauto|]. by split.
Qed.

(** No thread keeps the mutex for ever. *)
Lemma section_ends b n d t : mon_ok d t (r n) -> in_section (pick b d t) = true ->
  exists k, (n <= k)%nat /\ owner (r k) = None.
Proof using All.
  apply (mon_descent b (fun d t => in_section (pick b d t) = true) (fun m => owner m = None)).
  - intros d1 t1 m e m' Hok1 Hb Hs. destruct (mon_progress _ _ _ _ _ Hok1 Hs) as (d2 & t2 & Hok2 & _ & _ & Hsec & _).
    destruct (Hsec b Hb) as [|[? ?]]; eauto 10.
  - intros l d1 t1 Hok1 Hb. exists l. split; [done|]. right.
    apply (mon_can_go b d1 t1); [done|right; by apply (mon_owner b d1 t1)|by destruct (pick b d1 t1)|].
    by destruct (pick b d1 t1) as [[]|[]|[]].
Qed.

Lemma mutex_free_again n : exists k, (n <= k)%nat /\ owner (r k) = None.
Proof using All.
  destruct (mon_always n) as (d & t & Hok).
  destruct (in_section d) eqn:Hd; [by apply (section_ends false n d t)|].
  destruct (in_section t) eqn:Ht; [by apply (section_ends true n d t)|].
  exists n. split; [done|]. by rewrite (ok_owner _ _ _ Hok), Hd, Ht.
Qed.

(** [monitor_destroy] gets the mutex and sets the flag. *)
Lemma flag_is_set n : exists k d t, (n <= k)%nat /\ mon_ok d t (r k) /\ stopped_before d = true.
Proof using All.
  destruct (mon_always n) as (d & t & Hok). destruct (stopped_before d) eqn:Hd; [by exists n, d, t|].
  destruct (mon_descent false (fun d t => stopped_before d = false)
    (fun m => exists d t, mon_ok d t m /\ stopped_before d = true)) with (n := n) (d := d) (t := t) as (k & Hk & d' & t' & ?);
    [| |done|done|by exists k, d', t'].
  - intros d1 t1 m e m' Hok1 Hd1 Hs. destruct (mon_progress _ _ _ _ _ Hok1 Hs) as (d2 & t2 & Hok2 & _ & Hst & _).
    destruct (Hst Hd1) as [|?]; [left; eauto|]. destruct (stopped_before d2) eqn:Hd2; [left; eauto|right]. by exists d2, t2.
  - intros l d1 t1 Hok1 Hd1. destruct (mutex_free_again l) as (k & Hk & Ho). exists k. split; [done|].
    destruct (mon_always k) as (d2 & t2 & Hok2). destruct (stopped_before d2) eqn:Hd2; [left; eauto|right].
    apply (mon_can_go false d2 t2); [done|by left|by destruct d2|by destruct d2 as [[]|[]|[]]].
Qed.

(** The flag stays, and the thread sees it and ends. *)
Lemma thread_ends n d t : mon_ok d t (r n) -> stopped_before d = true ->
  exists k, (n <= k)%nat /\ exists d, mon_ok d (Running T_end) (r k).
Proof using All.
  apply (mon_descent true (fun d t => stopped_before d = true) (fun m => exists d, mon_ok d (Running T_end) m)).
  - intros d1 t1 m e m' Hok1 Hd1 Hs. destruct (mon_progress _ _ _ _ _ Hok1 Hs) as (d2 & t2 & Hok2 & Hst & _).
    destruct (Hst Hd1). right. by exists d2, t2.
  - intros l d1 t1 Hok1 Hd1. destruct (mutex_free_again l) as (k & Hk & Ho). exists k. split; [done|].
    destruct (run_keeps mon_code w r s Hrun (fun _ => False) (fun m => exists d t, mon_ok d t m /\ stopped_before d = true) l k)
      as [(? & _ & [])|(d2 & t2 & Hok2 & Hd2)]; [|done|by exists d1, t1|].
    { intros j Hj (d2 & t2 & Hok2 & Hd2) e He. right. destruct (run_step _ _ _ _ Hrun _ _ He) as [_ Hs].
      destruct (mon_progress _ _ _ _ _ Hok2 Hs) as (d3 & t3 & Hok3 & Hst & _). exists d3, t3. by destruct (Hst Hd2). }
    destruct (at_end t2) eqn:He; [left; exists d2|right; apply (mon_can_go true d2 t2); try done; [by left|]].
    + pose proof (ok_compatible _ _ _ Hok2) as Hc. destruct d2 as [[]|[]|[]], t2 as [[]|[]|[]]; done.
    + pose proof (ok_owner _ _ _ Hok2) as Hw. rewrite Ho in Hw. pose proof (ok_compatible _ _ _ Hok2) as Hc.
      destruct d2 as [[]|[]|[]], t2 as [[]|[]|[]]; done.
Qed.

(** Then [Destroy] goes on to its end. *)
Lemma destroy_ends n d : mon_ok d (Running T_end) (r n) ->
  exists k, (n <= k)%nat /\ mon_ok (Running D_end) (Running T_end) (r k).
Proof using All.
  intros Hok. eapply (mon_descent false (fun d t => t = Running T_end)
    (fun m => mon_ok (Running D_end) (Running T_end) m)); [| |exact Hok|done].
  - intros d1 t1 m e m' Hok1 -> Hs. destruct (mon_progress _ _ _ _ _ Hok1 Hs) as (d2 & t2 & Hok2 & _ & _ & _ & Hst).
    destruct (Hst eq_refl) as [-> ?]. right. by exists d2, (Running T_end).
  - intros l d1 t1 Hok1 ->. exists l. split; [done|]. destruct (at_end d1) eqn:He.
    + left. pose proof (ok_compatible _ _ _ Hok1) as Hc. by destruct d1 as [[]|[]|[]].
    + right. pose proof (ok_compatible _ _ _ Hok1) as Hc. apply (mon_can_go false d1 (Running T_end)); try done.
      * rewrite (ok_owner _ _ _ Hok1). cbn. destruct (in_section d1); auto.
      * by destruct d1 as [[]|[]|[]].
Qed.
End liveness.

(** * The theorems *)

(** C15: whatever the interleaving, time-outs and spurious wake-ups included, the
    monitor thread and [Destroy] never use a mutex or condition variable that is
    destroyed, never unlock or wait without the mutex, never report from a store
    that is closed; and once [monitor_destroy] is past its loop the thread has
    ended. *)
Theorem monitor_stops_safely (w : bool) (v : Z) (m : machine monitor_data mon_point) :
  reachable mon_code w (monitor_init v) m ->
  (forall e, step mon_code e m <> Broken) /\
  (forall p, threads m !! 0%nat = Some (Running p) -> p ∈ [D_mutex; D_cond; D_report; D_close; D_end] ->
     threads m !! 1%nat = Some (Running T_end) /\ owner m = None).
Proof.
  intros Hr. destruct (mon_reachable w v m Hr) as (d & t & Hok). split.
  - intros e He. pose proof (mon_step d t m e Hok) as H. by rewrite He in H.
  - intros p Hp Hin. pose proof (ok_compatible _ _ _ Hok) as Hc. pose proof (ok_owner _ _ _ Hok) as Ho.
    rewrite (ok_threads _ _ _ Hok) in *. injection Hp as ->. destruct p, t as [[]|[]|[]]; set_solver.
Qed.

(** The thread reports, sleeps and times out, [Destroy] stops it, and both end. *)
Definition mon_script : list event :=
  [Go 1 0; Go 1 0; Go 1 0; Go 1 0; Go 1 0; Go 1 0; WakeUp 1; Go 1 0; Go 1 0; Go 1 0; Go 1 0; Go 1 0;
   Go 0 1; Go 0 1; Go 0 1; Go 0 1; Go 0 1; WakeUp 0; Go 0 1; Go 0 1; Go 0 1;
   Go 1 0; Go 1 0; Go 1 0; Go 1 0; Go 1 0; Go 0 1; Go 0 1; Go 0 1; Go 0 1; Go 0 1; Go 0 1; Go 0 1]%nat.

Lemma mon_script_ends :
  steps mon_code mon_script (monitor_init 7) =
    Next (mkMachine (mkMonitor 1 1 ETIMEDOUT false 3) None false false [Running D_end; Running T_end]).
Proof. vm_compute. reflexivity. Qed.

Lemma monitor_stops_safely_witness :
  let m := mkMachine (mkMonitor 1 1 ETIMEDOUT false 3) None false false [Running D_end; Running T_end] in
  (forall e, step mon_code e m <> Broken) /\ threads m !! 1%nat = Some (Running T_end).
Proof.
  intros m. assert (Hr : reachable mon_code true (monitor_init 7) m).
  { apply (steps_reachable mon_code true mon_script (monitor_init 7) (monitor_init 7));
      [constructor|reflexivity|exact mon_script_ends]. }
  split; [exact (proj1 (monitor_stops_safely true 7 m Hr))|].
  apply (proj2 (monitor_stops_safely true 7 m Hr) D_end); [reflexivity|set_solver].
Defined.

(** C16: in every run that is fair to both threads [monitor_destroy] returns and
    [Destroy] reaches its end, with the thread ended and the store closed, however
    often the waiting threads wake up without a reason. *)
Theorem monitor_destroy_returns (w : bool) (v : Z) (r : nat -> machine monitor_data mon_point) (s : nat -> option event) :
  r 0%nat = monitor_init v -> runs_from mon_code w r s -> (forall i, fair mon_code r s i) ->
  exists k, threads (r k) = [Running D_end; Running T_end] /\ metadb_open (data (r k)) = false.
Proof.
  intros H0 Hrun Hfair. assert (Hi : reachable mon_code w (monitor_init v) (r 0%nat)) by (rewrite H0; constructor).
  destruct (flag_is_set w r s Hrun Hfair v Hi 0) as (n1 & d1 & t1 & _ & Hok1 & Hst).
  destruct (thread_ends w r s Hrun Hfair v Hi n1 d1 t1 Hok1 Hst) as (n2 & _ & d2 & Hok2).
  destruct (destroy_ends w r s Hrun Hfair v Hi n2 d2 Hok2) as (k & _ & Hok). exists k.
  split; [apply (ok_threads _ _ _ Hok)|apply (ok_metadb _ _ _ Hok)].
Qed.

Lemma monitor_destroy_returns_witness :
  exists k, threads (script_run mon_code mon_script (monitor_init 7) k) = [Running D_end; Running T_end].
Proof.
  destruct (monitor_destroy_returns true 7 (script_run mon_code mon_script (monitor_init 7)) (fun n => mon_script !! n))
    as (k & Hk & _).
  - reflexivity.
  - exact (script_runs mon_code true mon_script _ _ eq_refl mon_script_ends).
  - intros i. apply (script_fair mon_code _ _ _ _ mon_script_ends).
    intros (j & m' & H). destruct i as [|[|i]]; discriminate H.
  - exists k. exact Hk.
Defined.
