(* ===== verification/BenchThreads.v ===== *)
(** How [src/fsbench.cpp] runs a benchmark in threads: [RunBenchmark], [ThreadBody]
    and [MonitorThreadBody].

    Every thread counts itself in and waits for [start]; the main thread waits
    until all have, sets [start] and waits until all are done. The thread of the
    monitor looks at [num_done] without the mutex, adds to it without the mutex and
    signals without it. In C++ these accesses are data races; the model gives them
    the meaning they have on the target, an access to the [int] being one step on
    one memory. The increment is one step, too: the monitor makes it after it has
    seen every benchmark thread done, so no other increment can come between. *)

From S2P Require Import Prelude Threads.

Set Default Proof Using "Type".

(** [SharedState], and whether it and the arrays of [RunBenchmark] still exist.
    [bench_ran] counts the calls of the benchmark's method. *)
Record shared_state : Type := mkShared {
  sh_total : Z;
  num_initialized : Z;
  num_done : Z;
  sh_start : bool;
  sh_alive : bool;
  args_alive : bool;
  bench_ran : Z
}.

Implicit Types (d : shared_state).

(** An access to [shared], or through [arg]. *)
Definition with_shared {B} (f : shared_state -> B) d : option B := if sh_alive d then Some (f d) else None.
Definition with_args (f : shared_state -> shared_state) d : option shared_state :=
  if args_alive d then Some (f d) else None.

Definition count_in d : shared_state :=
  mkShared (sh_total d) (num_initialized d + 1) (num_done d) (sh_start d) (sh_alive d) (args_alive d) (bench_ran d).
Definition count_done d : shared_state :=
  mkShared (sh_total d) (num_initialized d) (num_done d + 1) (sh_start d) (sh_alive d) (args_alive d) (bench_ran d).
Definition set_start d : shared_state :=
  mkShared (sh_total d) (num_initialized d) (num_done d) true (sh_alive d) (args_alive d) (bench_ran d).
Definition run_method d : shared_state :=
  mkShared (sh_total d) (num_initialized d) (num_done d) (sh_start d) (sh_alive d) (args_alive d) (bench_ran d + 1).
Definition free_args d : shared_state :=
  mkShared (sh_total d) (num_initialized d) (num_done d) (sh_start d) (sh_alive d) false (bench_ran d).
Definition free_shared d : shared_state :=
  mkShared (sh_total d) (num_initialized d) (num_done d) (sh_start d) false (args_alive d) (bench_ran d).

(** Program points: of [RunBenchmark] from the moment the threads are started; of
    the entry block that [ThreadBody] and [MonitorThreadBody] share (the flag says
    which of the two); of the rest of each. *)
Inductive bench_point : Type :=
| R_lock | R_while | R_wait | R_monitor | R_start | R_all | R_while2 | R_wait2 | R_unlock
| R_monitor2 | R_args | R_cond | R_mutex | R_shared | R_end
| J_lock (mon : bool) | J_count (mon : bool) | J_last (mon : bool) | J_all (mon : bool)
| J_while (mon : bool) | J_wait (mon : bool) | J_unlock (mon : bool)
| W_run | W_lock | W_done | W_last | W_all | W_unlock | W_end
| K_while | K_monitor | K_final | K_done | K_all | K_end.

Abbreviation bench_instr := (instr shared_state bench_point).

(** The block that opens [ThreadBody] and [MonitorThreadBody]. *)
Definition join_block (p : bench_point) : bench_instr :=
  match p with
  | J_lock b => Lock (J_count b)
  | J_count b => Do (with_shared count_in) (J_last b)
  | J_last b => Test (with_shared (fun d => num_initialized d >=? sh_total d)) (J_all b) (J_while b)
  | J_all b => Broadcast (J_while b)
  | J_while b => Test (with_shared (fun d => negb (sh_start d))) (J_wait b) (J_unlock b)
  | J_wait b => Wait (J_while b)
  | J_unlock b => Unlock (if b then K_while else W_run)
  | _ => Halt
  end.

Definition ThreadBody (p : bench_point) : bench_instr :=
  match p with
  | W_run => Do (with_args run_method) W_lock
  | W_lock => Lock W_done
  | W_done => Do (with_shared count_done) W_last
  | W_last => Test (with_shared (fun d => num_done d >=? sh_total d)) W_all W_unlock
  | W_all => Broadcast W_unlock
  | W_unlock => Unlock W_end
  | W_end => Halt
  | _ => join_block p
  end.

Definition MonitorThreadBody (p : bench_point) : bench_instr :=
  match p with
  | K_while => Test (with_shared (fun d => num_done d <? sh_total d - 1)) K_monitor K_final
  | K_monitor => Do (with_args id) K_while
  | K_final => Do (with_args id) K_done
  | K_done => Do (with_shared count_done) K_all
  | K_all => Broadcast K_end
  | K_end => Halt
  | _ => join_block p
  end.

(** [shared] is a local variable: its members are destroyed when the call returns. *)
Definition RunBenchmark (n : nat) (p : bench_point) : bench_instr :=
  match p with
  | R_lock => Lock R_while
  | R_while => Test (with_shared (fun d => num_initialized d <=? Z.of_nat n)) R_wait R_monitor
  | R_wait => Wait R_while
  | R_monitor => Do (with_args id) R_start
  | R_start => Do (with_shared set_start) R_all
  | R_all => Broadcast R_while2
  | R_while2 => Test (with_shared (fun d => num_done d <=? Z.of_nat n)) R_wait2 R_unlock
  | R_wait2 => Wait R_while2
  | R_unlock => Unlock R_monitor2
  | R_monitor2 => Do (with_args id) R_args
  | R_args => Do (fun d => Some (free_args d)) R_cond
  | R_cond => Cond_destroy R_mutex
  | R_mutex => Mutex_destroy R_shared
  | R_shared => Do (fun d => Some (free_shared d)) R_end
  | _ => Halt
  end.

Definition bench_code (n : nat) (p : bench_point) : bench_instr :=
  match p with
  | R_lock | R_while | R_wait | R_monitor | R_start | R_all | R_while2 | R_wait2 | R_unlock
  | R_monitor2 | R_args | R_cond | R_mutex | R_shared | R_end => RunBenchmark n p
  | K_while | K_monitor | K_final | K_done | K_all | K_end => MonitorThreadBody p
  | _ => ThreadBody p
  end.

(** The threads are started: 0 is the main thread, then [n] threads of the
    benchmark, and the monitor. *)
Definition bench_init (n : nat) : machine shared_state bench_point :=
  mkMachine (mkShared (Z.of_nat n + 1) 0 0 false true true 0) None true true
    (Running R_lock :: replicate n (Running (J_lock false)) ++ [Running (J_lock true)]).

Abbreviation bench_machine := (machine shared_state bench_point).
Abbreviation bench_status := (status bench_point).

(** * What goes wrong *)

(** The thread of the benchmark is done, the monitor counts itself done, the
    thread sees that all are and wakes the main thread, which destroys [shared];
    then the monitor signals. *)
Definition late_signal : list event :=
  (replicate 3 (Go 0 0) ++ replicate 5 (Go 1 0) ++ replicate 6 (Go 2 0) ++ replicate 7 (Go 0 0) ++
   replicate 3 (Go 1 0) ++ replicate 3 (Go 2 0) ++
   replicate 3 (Go 1 0) ++ replicate 3 (Go 2 0) ++ replicate 3 (Go 1 0) ++ replicate 8 (Go 0 0))%nat.

(** The main thread wakes up by itself, sees that the monitor is not done, and
    before it sleeps again the monitor counts itself done and signals. *)
Definition lost_signal : list event :=
  (replicate 3 (Go 0 0) ++ replicate 5 (Go 1 0) ++ replicate 6 (Go 2 0) ++ replicate 7 (Go 0 0) ++
   replicate 3 (Go 1 0) ++ replicate 3 (Go 2 0) ++ replicate 5 (Go 1 0) ++ replicate 2 (Go 2 0) ++
   [WakeUp 0; Go 0 0; Go 0 0] ++ replicate 2 (Go 2 0) ++ [Go 0 0])%nat.

(** * The invariant *)

Implicit Types (m : bench_machine) (r st : bench_status) (js : list bench_status).

(** The program point a thread is at or comes back to. *)
Definition point st : bench_point := match st with Running p | Asleep p | Awake p => p end.

Definition main_side r : bool :=
  match r with
  | Running (R_lock | R_while | R_wait | R_monitor | R_start | R_all | R_while2 | R_wait2 | R_unlock
             | R_monitor2 | R_args | R_cond | R_mutex | R_shared | R_end)
  | Asleep (R_while | R_while2) | Awake (R_while | R_while2) => true
  | _ => false
  end.
Definition joiner_side (mon : bool) st : bool :=
  match st with
  | Running (J_lock b | J_count b | J_last b | J_all b | J_while b | J_wait b | J_unlock b)
  | Asleep (J_while b) | Awake (J_while b) => eqb b mon
  | Running (W_run | W_lock | W_done | W_last | W_all | W_unlock | W_end) => negb mon
  | Running (K_while | K_monitor | K_final | K_done | K_all | K_end) => mon
  | _ => false
  end.

(** Between [Lock] and [Unlock]. *)
Definition in_section st : bool :=
  match st with
  | Running (R_while | R_wait | R_monitor | R_start | R_all | R_while2 | R_wait2 | R_unlock
             | J_count _ | J_last _ | J_all _ | J_while _ | J_wait _ | J_unlock _
             | W_done | W_last | W_all | W_unlock) => true
  | _ => false
  end.

(** A thread has counted itself in; is past the wait for [start]; is done. *)
Definition counted st : bool :=
  match st with Running (J_lock _ | J_count _) => false | _ => true end.
Definition released st : bool :=
  match st with
  | Running (J_unlock _ | W_run | W_lock | W_done | W_last | W_all | W_unlock | W_end
             | K_while | K_monitor | K_final | K_done | K_all | K_end) => true
  | _ => false
  end.
Definition is_done st : bool :=
  match st with Running (W_last | W_all | W_unlock | W_end | K_all | K_end) => true | _ => false end.

(** It has run the method. *)
Definition has_run st : bool :=
  match st with Running (W_lock | W_done | W_last | W_all | W_unlock | W_end) => true | _ => false end.

(** The main thread has seen all threads; has set [start]; is past its last loop. *)
Definition all_in r : bool :=
  match r with
  | Running (R_lock | R_while | R_wait) | Asleep R_while | Awake R_while => false
  | _ => true
  end.
Definition started r : bool :=
  match r with Running (R_monitor | R_start) => false | _ => all_in r end.
Definition past_loop r : bool :=
  match r with
  | Running (R_unlock | R_monitor2 | R_args | R_cond | R_mutex | R_shared | R_end) => true
  | _ => false
  end.
(** It holds the mutex since it set [start]. *)
Definition starting r : bool :=
  match r with Running (R_all | R_wait2) => true | _ => false end.

Definition count (f : bench_status -> bool) js : nat := sum_list_with (fun st => if f st then 1%nat else 0%nat) js.

Definition last_block st : bool := match st with Running (J_last _ | J_all _) => true | _ => false end.
Definition is_monitor st : bool :=
  match point st with
  | J_lock b | J_count b | J_last b | J_all b | J_while b | J_wait b | J_unlock b => b
  | K_while | K_monitor | K_final | K_done | K_all | K_end => true
  | _ => false
  end.

(** A thread beside the main thread [r]. *)
Definition beside r st : bool :=
  implb (released st) (started r) &&
  implb (sleeping st) (negb (started r) || match r with Running R_all => true | _ => false end) &&
  implb (match st with Running (J_wait _) => true | _ => false end) (negb (started r)) &&
  implb (last_block st) (negb (all_in r)) &&
  implb (all_in r) (counted st) &&
  implb (starting r) (negb (released st)) &&
  implb (match st with Running K_end => true | _ => false end) (match r with Asleep R_while2 => false | _ => true end) &&
  implb (past_loop r) (match st with Running (W_end | K_all | K_end) => true | _ => false end).

(** How many threads must be done where a thread is. *)
Definition need (n : nat) st : nat :=
  match st with
  | Running (K_final | K_done) => n
  | Running (K_all | K_end | W_all) | Awake R_while2 => n + 1
  | _ => if past_loop st then n + 1 else 0
  end.

(** The mutex belongs to the thread that is between [Lock] and [Unlock]. *)
Definition owned (o : option nat) (l : list bench_status) : Prop :=
  (forall i st, l !! i = Some st -> in_section st = bool_decide (o = Some i)) /\
  (forall i, o = Some i -> is_Some (l !! i)).

Record bench_ok (n : nat) r js m : Prop := {
  bo_threads : threads m = r :: js;
  bo_length : length js = (n + 1)%nat;
  bo_main : main_side r = true;
  bo_joiners : Forall (fun st => joiner_side (is_monitor st) st = true) js;
  bo_monitor : count is_monitor js = 1%nat;
  bo_owner : owned (owner m) (r :: js);
  bo_total : sh_total (data m) = Z.of_nat n + 1;
  bo_initialized : num_initialized (data m) = Z.of_nat (count counted js);
  bo_done : num_done (data m) = Z.of_nat (count is_done js);
  bo_ran : bench_ran (data m) = Z.of_nat (count has_run js);
  bo_start : sh_start (data m) = started r;
  bo_beside : Forall (fun st => beside r st = true) js;
  bo_need : Forall (fun st => (need n st <= count is_done js)%nat) (r :: js);
  bo_wait : r = Running R_wait -> (count counted js <= n)%nat;
  bo_asleep : r = Asleep R_while -> (count counted js <= n)%nat \/ exists i st, js !! i = Some st /\ last_block st = true;
  bo_while2 : r = Running R_while2 -> Forall (fun st => released st = false) js \/ (n + 1 <= count is_done js)%nat;
  bo_mutex : mutex_live m = match r with Running (R_shared | R_end) => false | _ => true end;
  bo_cond : cond_live m = match r with Running (R_mutex | R_shared | R_end) => false | _ => true end;
  bo_args : args_alive (data m) = match r with Running (R_cond | R_mutex | R_shared | R_end) => false | _ => true end;
  bo_alive : sh_alive (data m) = match r with Running R_end => false | _ => true end
}.

(** * Counting *)

Lemma sum_insert {X} (f : X -> nat) (l : list X) i x y : l !! i = Some x ->
  (sum_list_with f (<[i := y]> l) + f x = sum_list_with f l + f y)%nat.
Proof.
  revert i. induction l as [|z l IH]; intros [|i] H; simplify_eq/=; [lia|].
  specialize (IH i H). lia.
Qed.

Lemma count_le f js : (count f js <= length js)%nat.
Proof. induction js as [|st js IH]; cbn in *; [done|]. fold (count f js). destruct (f st); lia. Qed.

Lemma count_app f js js' : count f (js ++ js') = (count f js + count f js')%nat.
Proof. apply sum_list_with_app. Qed.

Lemma count_one f st : count f [st] = if f st then 1%nat else 0%nat.
Proof. unfold count. cbn. lia. Qed.

Lemma count_wake f js : (forall st, f (wake st) = f st) -> count f (wake <$> js) = count f js.
Proof. intros Hf. induction js as [|st js IH]; [done|]. cbn in *. unfold count in IH. by rewrite Hf, IH. Qed.

Lemma count_all f js : Forall (fun st => f st = true) js <-> count f js = length js.
Proof.
  induction js as [|st js IH]; [by split|]. rewrite Forall_cons_iff. pose proof (count_le f js).
  change (count f (st :: js)) with ((if f st then 1 else 0) + count f js)%nat. cbn [length].
  destruct (f st); split; [intros [_ ?%IH]; lia|intros ?; split; [done|apply IH; lia]|by intros []|lia].
Qed.

Lemma counted_wake st : counted (wake st) = counted st. Proof. by destruct st. Qed.
Lemma is_done_wake st : is_done (wake st) = is_done st. Proof. by destruct st. Qed.
Lemma joiner_side_wake b st : joiner_side b st = true -> joiner_side b (wake st) = true. Proof. by destruct st. Qed.
Lemma in_section_wake st : in_section (wake st) = in_section st. Proof. by destruct st. Qed.

Lemma is_monitor_wake st : is_monitor (wake st) = is_monitor st. Proof. by destruct st. Qed.
Lemma has_run_wake st : has_run (wake st) = has_run st. Proof. by destruct st. Qed.
Lemma released_wake st : released (wake st) = released st. Proof. by destruct st. Qed.

Lemma count_init (f : bench_status -> bool) n x y : count f (replicate n x ++ [y]) =
  ((if f x then n else 0) + (if f y then 1 else 0))%nat.
Proof. rewrite count_app, count_one. f_equal. induction n as [|n IH]; cbn in *; destruct (f x); unfold count in *; lia. Qed.

Lemma bench_init_ok n :
  bench_ok n (Running R_lock) (replicate n (Running (J_lock false)) ++ [Running (J_lock true)]) (bench_init n).
Proof.
  split; cbn; rewrite ?count_init; cbn; try done.
  - rewrite length_app, length_replicate. cbn. lia.
  - apply Forall_app_2; [by apply Forall_replicate|by apply Forall_singleton].
  - split; [|done]. intros i st [[-> <-]|[? Hi]]%lookup_cons_Some; [done|]. apply list_elem_of_lookup_2 in Hi.
    rewrite elem_of_app, elem_of_replicate, list_elem_of_singleton in Hi. by destruct Hi as [[-> _]| ->].
  - apply Forall_app_2; [by apply Forall_replicate|by apply Forall_singleton].
  - constructor; [cbn; lia|]. apply Forall_app_2; [apply Forall_replicate|apply Forall_singleton]; cbn; lia.
Qed.

(** * Ownership *)

Lemma owned_keep o l i st st' : owned o l -> l !! i = Some st -> in_section st' = in_section st -> owned o (<[i := st']> l).
Proof.
  intros [H1 H2] Hi Heq. split.
  - intros x y [(-> & -> & _)|[? Hx]]%list_lookup_insert_Some; [|by apply H1]. rewrite Heq. by apply H1.
  - intros x Hx. apply lookup_lt_is_Some. rewrite length_insert. apply lookup_lt_is_Some. by apply H2.
Qed.

Lemma owned_take l i st st' : owned None l -> l !! i = Some st -> in_section st' = true -> owned (Some i) (<[i := st']> l).
Proof.
  intros [H1 H2] Hi Heq. split.
  - intros x y [(-> & -> & _)|[Hne Hx]]%list_lookup_insert_Some.
    + rewrite Heq. by rewrite bool_decide_true.
    + rewrite (H1 _ _ Hx), !bool_decide_false; congruence.
  - intros x [= ->]. apply lookup_lt_is_Some. rewrite length_insert. by apply lookup_lt_is_Some.
Qed.

Lemma owned_drop l i st st' : owned (Some i) l -> l !! i = Some st -> in_section st' = false -> owned None (<[i := st']> l).
Proof.
  intros [H1 H2] Hi Heq. split; [|done].
  intros x y [(-> & -> & _)|[Hne Hx]]%list_lookup_insert_Some; [by rewrite Heq|].
  rewrite (H1 _ _ Hx), !bool_decide_false; congruence.
Qed.

Lemma owned_wake o l : owned o l -> owned o (wake <$> l).
Proof.
  intros [H1 H2]. split.
  - intros x y Hy. rewrite list_lookup_fmap in Hy. apply fmap_Some in Hy as (st & Hst & ->). rewrite in_section_wake. by apply H1.
  - intros x Hx. rewrite list_lookup_fmap. apply fmap_is_Some. by apply H2.
Qed.

(** Only the owner is between [Lock] and [Unlock]. *)
Lemma owned_out o l i st : owned o l -> l !! i = Some st -> o <> Some i -> in_section st = false.
Proof. intros [H _] Hi Ho. rewrite (H _ _ Hi). by rewrite bool_decide_false. Qed.

Lemma owned_in o l i st : owned o l -> l !! i = Some st -> in_section st = true -> o = Some i.
Proof. intros [H _] Hi Ho. rewrite (H _ _ Hi) in Ho. by apply bool_decide_eq_true in Ho. Qed.

Lemma owned_nobody o l : owned o l -> Forall (fun st => in_section st = false) l -> o = None.
Proof.
  intros Ho Hl. destruct o as [i|]; [|done]. destruct Ho as [H1 H2]. destruct (H2 i eq_refl) as [st Hst].
  pose proof (H1 _ _ Hst) as H. rewrite bool_decide_true in H by done.
  rewrite Forall_lookup in Hl. by rewrite (Hl _ _ Hst) in H.
Qed.

(** * Moves *)

Definition b2n (b : bool) : nat := if b then 1 else 0.

Lemma count_insert f js i st st' : js !! i = Some st ->
  (count f (<[i := st']> js) + b2n (f st) = count f js + b2n (f st'))%nat.
Proof. apply (sum_insert (fun st => b2n (f st))). Qed.

(** What [Lock], [Unlock] and the rest do to the owner. *)
Definition owner_moves (i : nat) (o o' : option nat) st st' : Prop :=
  (o' = o /\ in_section st' = in_section st) \/
  (o = None /\ o' = Some i /\ in_section st' = true) \/
  (o = Some i /\ o' = None /\ in_section st' = false).

Lemma owner_moves_owned i o o' l st st' : owned o l -> l !! i = Some st -> owner_moves i o o' st st' -> owned o' (<[i := st']> l).
Proof.
  intros Ho Hi [[-> ?]|[(-> & -> & ?)|(-> & -> & ?)]];
    [by eapply owned_keep|by eapply owned_take|by eapply owned_drop].
Qed.

(** Thread [i + 1] moves from [st] to [st'], with the counters kept right. *)
Lemma joiner_move n r js m i st st' a o : bench_ok n r js m -> js !! i = Some st ->
  joiner_side (is_monitor st') st' = true -> is_monitor st' = is_monitor st ->
  owner_moves (Datatypes.S i) (owner m) o st st' ->
  (sh_total a, sh_start a, sh_alive a, args_alive a) =
    (sh_total (data m), sh_start (data m), sh_alive (data m), args_alive (data m)) ->
  num_initialized a + Z.of_nat (b2n (counted st)) = num_initialized (data m) + Z.of_nat (b2n (counted st')) ->
  num_done a + Z.of_nat (b2n (is_done st)) = num_done (data m) + Z.of_nat (b2n (is_done st')) ->
  bench_ran a + Z.of_nat (b2n (has_run st)) = bench_ran (data m) + Z.of_nat (b2n (has_run st')) ->
  implb (is_done st) (is_done st') = true ->
  beside r st' = true ->
  (need n st' + b2n (is_done st) <= count is_done js + b2n (is_done st'))%nat ->
  (counted st' = counted st \/ r <> Running R_wait /\ last_block st' = true) ->
  (r = Asleep R_while -> last_block st = true -> last_block st' = true \/ (count counted js <= n)%nat /\ counted st' = counted st) ->
  (released st' = released st \/ r <> Running R_while2) ->
  bench_ok n r (<[i := st']> js) (mkMachine a o (mutex_live m) (cond_live m) (r :: <[i := st']> js)).
Proof.
  intros [] Hi Hside Hmon Hown Ha Hin Hdn Hran Hmono Hbes Hneed Hcnt Hlast Hrel. simplify_eq Ha; clear Ha; intros.
  pose proof (count_insert counted js i st st' Hi). pose proof (count_insert has_run js i st st' Hi). pose proof (count_insert is_done js i st st' Hi).
  pose proof (count_insert is_monitor js i st st' Hi) as Hm. rewrite Hmon in Hm.
  assert (count is_done js <= count is_done (<[i := st']> js))%nat by (destruct (is_done st), (is_done st'); cbn in *; (lia || done)).
  split; cbn [threads owner data mutex_live cond_live]; try congruence.
  - by rewrite length_insert.
  - by apply Forall_insert.
  - lia.
  - by apply (owner_moves_owned (Datatypes.S i) (owner m) o (r :: js) st st').
  - lia.
  - lia.
  - lia.
  - by apply Forall_insert.
  - apply Forall_cons_iff in bo_need0 as [Hr Hjs]. constructor; [lia|]. apply Forall_insert; [|lia].
    eapply Forall_impl; [|exact Hjs]. intros x Hx. cbn in *. lia.
  - intros Hr. specialize (bo_wait0 Hr). destruct Hcnt as [Hc|[? _]]; [rewrite Hc in *; lia|done].
  - intros Hr. assert (Hnew : last_block st' = true -> exists i0 x, <[i := st']> js !! i0 = Some x /\ last_block x = true).
    { exists i, st'. split; [|done]. apply list_lookup_insert_eq. by eapply lookup_lt_Some. }
    destruct Hcnt as [Hc|[_ Hl]]; [|by right; apply Hnew].
    destruct (bo_asleep0 Hr) as [?|(x & y & Hx & Hy)]; [left; rewrite Hc in *; lia|].
    destruct (decide (x = i)) as [->|Hne].
    + destruct (Hlast Hr) as [Hl|[? _]]; [congruence|by right; apply Hnew|left; rewrite Hc in *; lia].
    + right. exists x, y. by rewrite list_lookup_insert_ne.
  - intros Hr. destruct (bo_while3 Hr) as [Hf|?]; [|right; lia]. destruct Hrel as [Hrel|]; [|done]. left.
    apply Forall_insert; [done|]. rewrite Hrel. rewrite Forall_lookup in Hf. by apply (Hf i).
Qed.

(** A broadcast wakes every sleeper. *)
Lemma wake_all n r js m : bench_ok n r js m -> (r = Asleep R_while2 -> (n + 1 <= count is_done js)%nat) ->
  bench_ok n (wake r) (wake <$> js) (put_threads (wake <$> threads m) m).
Proof.
  intros [] Hd. split; cbn [threads owner data mutex_live cond_live put_threads];
    rewrite ?length_fmap, ?count_wake by auto using counted_wake, is_done_wake, has_run_wake, is_monitor_wake; try done.
  - by rewrite bo_threads0.
  - by destruct r.
  - rewrite Forall_fmap. eapply Forall_impl; [|exact bo_joiners0]. intros st Hst. cbn. rewrite is_monitor_wake. by apply joiner_side_wake.
  - change (owned (owner m) (wake <$> r :: js)). by apply owned_wake.
  - by destruct r.
  - rewrite Forall_fmap. eapply Forall_impl; [|exact bo_beside0]. intros st Hst. cbn.
    destruct r as [[]|[]|[]], st as [p| |]; try done. by destruct p.
  - apply Forall_cons_iff in bo_need0 as [Hr Hjs]. constructor.
    + destruct r as [|[]|]; cbn in *; try done; try lia. by apply Hd.
    + rewrite Forall_fmap, Forall_lookup. intros i st Hi. rewrite Forall_lookup in bo_joiners0, Hjs.
      specialize (bo_joiners0 i st Hi). specialize (Hjs i st Hi). cbn. destruct st as [|[]|[]]; cbn in *; (done || lia).
  - destruct r; [exact bo_wait0|done|done].
  - by destruct r.
  - intros Hr. destruct r as [p| |]; [|done|done]. destruct (bo_while3 Hr) as [Hf|]; [left|by right].
    rewrite Forall_fmap. eapply Forall_impl; [|exact Hf]. intros st Hst. cbn. by rewrite released_wake.
  - by destruct r.
  - by destruct r.
  - by destruct r.
  - by destruct r.
Qed.

(** * The measure *)

(** More than all threads gain when they are woken. *)
Definition wake_cost (n : nat) : nat := 4 * (n + 2) + 1.

(** What a thread has left to do; [nd] says that only the monitor is not done. *)
Definition rank (n : nat) (nd : bool) st : nat :=
  let c := wake_cost n in
  match st with
  | Running R_end => 0 | Running R_shared => 1 | Running R_mutex => 2 | Running R_cond => 3 | Running R_args => 4
  | Running R_monitor2 => 5 | Running R_unlock => 6
  | Asleep R_while2 => 7 | Running R_wait2 => 8 | Running R_while2 => 9 | Awake R_while2 => 11
  | Running R_all => c + 12 | Running R_start => c + 13 | Running R_monitor => c + 14
  | Asleep R_while => c + 15 | Running R_wait => c + 16 | Running R_while => c + 17 | Awake R_while => c + 19
  | Running R_lock => c + 18
  | Running W_end | Running K_end => 0 | Running W_unlock => 1 | Running W_all => c + 2 | Running W_last => c + 3
  | Running W_done => 2 * c + 4 | Running W_lock => 2 * c + 5 | Running W_run => 2 * c + 6
  | Running K_all => c + 1 | Running K_done => 2 * c + 2 | Running K_final => 2 * c + 3
  | Running K_while => 2 * c + 4 | Running K_monitor => 2 * c + 4 + b2n nd
  | Running (J_unlock _) => 2 * c + 8 | Asleep (J_while _) => 2 * c + 9 | Running (J_wait _) => 2 * c + 10
  | Running (J_while _) => 2 * c + 11 | Awake (J_while _) => 2 * c + 13
  | Running (J_all _) => 3 * c + 12 | Running (J_last _) => 3 * c + 13
  | Running (J_count _) => 3 * c + 14 | Running (J_lock _) => 3 * c + 15
  | _ => 0
  end%nat.

Definition others_done (n : nat) m : bool := Z.of_nat n <=? num_done (data m).
Definition total_rank (n : nat) m : nat := sum_list_with (rank n (others_done n m)) (threads m).

Lemma sum_le_length {X} (f g : X -> nat) c (l : list X) : (forall x, (f x <= g x + c)%nat) ->
  (sum_list_with f l <= sum_list_with g l + c * length l)%nat.
Proof. intros H. induction l as [|x l IH]; cbn; [lia|]. specialize (H x). lia. Qed.

Lemma rank_done n b b' st : (rank n b st <= rank n b' st + 1)%nat.
Proof. unfold rank. destruct st as [[]|[]|[]], b, b'; cbn [b2n]; lia. Qed.

Lemma rank_wake n b st : (rank n b (wake st) <= rank n b st + 4)%nat.
Proof. unfold rank. destruct st as [|[]|]; cbn [wake]; lia. Qed.

(** Thread [i] moves: the rest counts at most one more each. *)
Lemma total_rank_move n i st st' l b b' : l !! i = Some st ->
  (sum_list_with (rank n b') (<[i := st']> l) + rank n b st <= sum_list_with (rank n b) l + rank n b' st' +
     (if eqb b b' then 0 else length l))%nat.
Proof.
  intros Hi. pose proof (sum_insert (rank n b') l i st st' Hi). destruct (eqb b b') eqn:Hb.
  - apply eqb_prop in Hb as ->. lia.
  - assert (length l = length (<[i := st']> l)) by by rewrite length_insert.
    pose proof (sum_insert (rank n b) l i st st' Hi).
    assert (Hs : (sum_list_with (rank n b') (<[i := st']> l) + rank n b st' <= sum_list_with (rank n b) (<[i := st']> l) + rank n b' st' + length l)%nat).
    { apply lookup_lt_Some in Hi. rewrite insert_take_drop by done. rewrite !sum_list_with_app. cbn.
      pose proof (sum_le_length (rank n b') (rank n b) 1 (take i l) (rank_done n b' b)) as Hl.
      pose proof (sum_le_length (rank n b') (rank n b) 1 (drop (Datatypes.S i) l) (rank_done n b' b)) as Hr.
      rewrite length_take in Hl. rewrite length_drop in Hr. lia. }
    lia.
Qed.

Lemma total_rank_wake n b l : (sum_list_with (rank n b) (wake <$> l) <= sum_list_with (rank n b) l + 4 * length l)%nat.
Proof. induction l as [|st l IH]; cbn in *; [lia|]. pose proof (rank_wake n b st). lia. Qed.

(** * Steps of the threads *)

(** A joiner's move that brings the end nearer. *)
Lemma joiner_good n r js m i st st' a o : bench_ok n r js m -> js !! i = Some st ->
  joiner_side (is_monitor st') st' = true -> is_monitor st' = is_monitor st ->
  owner_moves (Datatypes.S i) (owner m) o st st' ->
  (sh_total a, sh_start a, sh_alive a, args_alive a) =
    (sh_total (data m), sh_start (data m), sh_alive (data m), args_alive (data m)) ->
  num_initialized a + Z.of_nat (b2n (counted st)) = num_initialized (data m) + Z.of_nat (b2n (counted st')) ->
  num_done a + Z.of_nat (b2n (is_done st)) = num_done (data m) + Z.of_nat (b2n (is_done st')) ->
  bench_ran a + Z.of_nat (b2n (has_run st)) = bench_ran (data m) + Z.of_nat (b2n (has_run st')) ->
  implb (is_done st) (is_done st') = true ->
  beside r st' = true ->
  (need n st' + b2n (is_done st) <= count is_done js + b2n (is_done st'))%nat ->
  (counted st' = counted st \/ r <> Running R_wait /\ last_block st' = true) ->
  (r = Asleep R_while -> last_block st = true -> last_block st' = true \/ (count counted js <= n)%nat /\ counted st' = counted st) ->
  (released st' = released st \/ r <> Running R_while2) ->
  (rank n (Z.of_nat n <=? num_done a)%Z st' + b2n (negb (eqb (is_done st) (is_done st'))) * (n + 2) < rank n (others_done n m) st)%nat ->
  let m' := mkMachine a o (mutex_live m) (cond_live m) (<[Datatypes.S i := st']> (threads m)) in
  exists r' js', bench_ok n r' js' m' /\ (total_rank n m' < total_rank n m)%nat.
Proof.
  intros Hok Hi Hside Hmon Hown Ha Hin Hdn Hran Hmono Hbes Hneed Hcnt Hlast Hrel Hrank m'.
  pose proof (bo_threads _ _ _ _ Hok) as Ht. exists r, (<[i := st']> js). split.
  - unfold m'. rewrite Ht. cbn. by apply (joiner_move n r js m i st st').
  - unfold total_rank, m', others_done in *. cbn [threads data]. rewrite Ht.
    pose proof (total_rank_move n (Datatypes.S i) st st' (r :: js) (Z.of_nat n <=? num_done (data m)) (Z.of_nat n <=? num_done a) Hi).
    pose proof (bo_length _ _ _ _ Hok). cbn [length] in *.
    destruct (eqb (is_done st) (is_done st')) eqn:Hd; cbn [b2n negb] in *.
    + apply eqb_prop in Hd. rewrite Hd in Hdn. assert (num_done a = num_done (data m)) as Heq by lia.
      rewrite Heq in *. rewrite eqb_reflx in *. lia.
    + repeat case_match; lia.
Qed.

(** The same after a broadcast. *)
Lemma joiner_wakes n r js m i (p q : bench_point) : bench_ok n r js m -> js !! i = Some (Running p) ->
  (r = Asleep R_while2 -> (n + 1 <= count is_done js)%nat) ->
  (forall r', r' = wake r -> beside r' (Running p) = true -> beside r' (Running q) = true) ->
  joiner_side (is_monitor (Running q)) (Running q) = true -> is_monitor (Running q) = is_monitor (Running p) ->
  in_section (Running q) = in_section (Running p) -> counted (Running q) = counted (Running p) ->
  is_done (Running q) = is_done (Running p) -> has_run (Running q) = has_run (Running p) -> (need n (Running q) <= need n (Running p))%nat ->
  released (Running q) = released (Running p) ->
  (rank n (others_done n m) (Running q) + wake_cost n <= rank n (others_done n m) (Running p))%nat ->
  let m' := become (Datatypes.S i) (Running q) (put_threads (wake <$> threads m) m) in
  exists r' js', bench_ok n r' js' m' /\ (total_rank n m' < total_rank n m)%nat.
Proof.
  intros Hok Hi Hd Hbes Hside Hmon Hsec Hcnt Hdone Hrun Hneed Hrel Hrank m'.
  pose proof (wake_all n r js m Hok Hd) as Hok'. pose proof (bo_threads _ _ _ _ Hok) as Ht.
  assert (Hi' : (wake <$> js) !! i = Some (Running p)) by by rewrite list_lookup_fmap, Hi.
  exists (wake r), (<[i := Running q]> (wake <$> js)). split.
  - unfold m', become. cbn. rewrite Ht. cbn.
    apply (joiner_move n (wake r) (wake <$> js) (put_threads (wake <$> threads m) m) i (Running p) (Running q)); try done;
      try (rewrite ?Hcnt, ?Hdone, ?Hrun; done); [by left| |apply Hbes; [done|]| |by left| |by left].
    + rewrite Hdone. apply implb_same.
    + pose proof (bo_beside _ _ _ _ Hok') as H. rewrite Forall_lookup in H. by apply (H i).
    + rewrite Hdone. pose proof (bo_need _ _ _ _ Hok') as H. apply Forall_cons_iff in H as [_ H]. rewrite Forall_lookup in H.
      specialize (H i _ Hi'). cbn in *. lia.
    + by destruct r.
  - unfold total_rank, m', become, others_done in *. cbn [threads data put_threads]. rewrite Ht.
    pose proof (sum_insert (rank n (Z.of_nat n <=? num_done (data m))) (wake <$> r :: js) (Datatypes.S i) _ (Running q) Hi').
    pose proof (total_rank_wake n (Z.of_nat n <=? num_done (data m)) (r :: js)).
    pose proof (bo_length _ _ _ _ Hok). cbn [length] in *. unfold wake_cost in *. lia.
Qed.

(** While the main thread is in its loops everything is alive. *)
Lemma all_alive n r js m : bench_ok n r js m -> past_loop r = false ->
  mutex_live m = true /\ cond_live m = true /\ args_alive (data m) = true /\ sh_alive (data m) = true.
Proof. intros [] Hp. rewrite bo_mutex0, bo_cond0, bo_args0, bo_alive0. by destruct r as [[]|[]|[]]. Qed.

(** The monitor looks again: nothing but its program point changes. *)
Definition polls (n i : nat) m m' : Prop :=
  others_done n m = false /\ exists p q, threads m !! i = Some (Running p) /\
    ((p, q) = (K_while, K_monitor) \/ (p, q) = (K_monitor, K_while)) /\ m' = become i (Running q) m.

(** What a step of the threads may lead to. *)
Definition step_ok (n i : nat) m (broken : Prop) (o : outcome shared_state bench_point) : Prop :=
  match o with
  | Next m' => exists r js, bench_ok n r js m' /\ ((total_rank n m' < total_rank n m)%nat \/ polls n i m m')
  | Blocked => True
  | Broken => broken
  end.

#[local] Arguments step_ok : simpl never.

Lemma step_ok_less n i m Q m' :
  (exists r js, bench_ok n r js m' /\ (total_rank n m' < total_rank n m)%nat) -> step_ok n i m Q (Next m').
Proof. intros (r & js & ? & ?). exists r, js. auto. Qed.

(** What is known of a joiner. *)
Record joiner_facts (n : nat) r js m (i : nat) st : Prop := {
  jf_beside : beside r st = true;
  jf_need : (need n st <= count is_done js)%nat;
  jf_section : in_section st = true -> owner m = Some (Datatypes.S i) /\ in_section r = false;
  jf_out : owner m = None -> in_section r = false;
  jf_thread : threads m !! Datatypes.S i = Some st
}.

Lemma joiner_known n r js m i st : bench_ok n r js m -> js !! i = Some st -> joiner_facts n r js m i st.
Proof.
  intros [] Hi. rewrite Forall_lookup in bo_beside0. apply Forall_cons_iff in bo_need0 as [_ Hn]. rewrite Forall_lookup in Hn.
  split; [by apply (bo_beside0 i)|by apply (Hn i)| | |by rewrite bo_threads0].
  - intros Hs. assert (Ho : owner m = Some (Datatypes.S i)) by by apply (owned_in _ (r :: js) _ st). split; [done|].
    apply (owned_out (owner m) (r :: js) 0); [done|done|]. by rewrite Ho.
  - intros Ho. apply (owned_out (owner m) (r :: js) 0); [done|done|]. by rewrite Ho.
Qed.

(** Side conditions of [joiner_good]: [r] decides what is beside it. *)
Ltac joiner_side_conditions :=
  first
  [ done
  | apply eqb_reflx
  | progress cbn; lia
  | by left
  | by right; left
  | by right; right
  | match goal with Hmain : main_side ?r = true |- _ =>
      destruct r as [[]|[]|[]]; try discriminate Hmain; first [done | by left | by right | cbn in *; first [done | lia | naive_solver]] end ].

(** The points of the three blocks. *)
Definition joins (p : bench_point) : bool :=
  match p with J_lock _ | J_count _ | J_last _ | J_all _ | J_while _ | J_wait _ | J_unlock _ => true | _ => false end.
Definition works (p : bench_point) : bool :=
  match p with W_run | W_lock | W_done | W_last | W_all | W_unlock => true | _ => false end.
Definition monitors (p : bench_point) : bool :=
  match p with K_while | K_monitor | K_final | K_done | K_all => true | _ => false end.

Lemma join_block_step n r js m i j p : bench_ok n r js m -> js !! i = Some (Running p) ->
  joins p = true ->
  step_ok n (Datatypes.S i) m False (exec (bench_code n) (Datatypes.S i) j p m).
Proof.
  intros Hok Hi Hp. destruct (joiner_known _ _ _ _ _ _ Hok Hi) as [Hbes Hneed Hsec Hout Hth].
  pose proof (bo_main _ _ _ _ Hok) as Hmain. pose proof (bo_initialized _ _ _ _ Hok) as Hini.
  pose proof (bo_total _ _ _ _ Hok) as Htot. pose proof (bo_start _ _ _ _ Hok) as Hst.
  destruct (all_alive _ _ _ _ Hok) as (Hm & Hc & Ha & Hs).
  { destruct p; try discriminate Hp; by destruct r as [[]|[]|[]]. }
  destruct p as [| | | | | | | | | | | | | | |b|b|b|b|b|b|b| | | | | | | | | | | | |]; try discriminate Hp; unfold exec; cbn [bench_code ThreadBody join_block].
  - unfold acquire. rewrite Hm. cbn. destruct (owner m) eqn:Ho; [done|]. specialize (Hout eq_refl).
    apply step_ok_less, (joiner_good n r js m i _ (Running (J_count b)) (data m) (Some (Datatypes.S i)) Hok Hi); joiner_side_conditions.
  - destruct (Hsec eq_refl) as [Ho Hr]. unfold with_shared. rewrite Hs. cbn.
    apply step_ok_less, (joiner_good n r js m i _ (Running (J_last b)) (count_in (data m)) (owner m) Hok Hi); joiner_side_conditions.
  - destruct (Hsec eq_refl) as [Ho Hr]. unfold with_shared. rewrite Hs. cbn. destruct (num_initialized (data m) >=? sh_total (data m)) eqn:Hge.
    + apply step_ok_less, (joiner_good n r js m i _ (Running (J_all b)) (data m) (owner m) Hok Hi); joiner_side_conditions.
    + apply step_ok_less, (joiner_good n r js m i _ (Running (J_while b)) (data m) (owner m) Hok Hi); joiner_side_conditions.
  - rewrite Hc. cbn. apply step_ok_less, (joiner_wakes n r js m i (J_all b) (J_while b) Hok Hi); joiner_side_conditions.
  - destruct (Hsec eq_refl) as [Ho Hr]. unfold with_shared. rewrite Hs. cbn. rewrite Hst. destruct (started r) eqn:Hsr; cbn.
    + apply step_ok_less, (joiner_good n r js m i _ (Running (J_unlock b)) (data m) (owner m) Hok Hi); joiner_side_conditions.
    + apply step_ok_less, (joiner_good n r js m i _ (Running (J_wait b)) (data m) (owner m) Hok Hi); joiner_side_conditions.
  - destruct (Hsec eq_refl) as [Ho Hr]. rewrite Hm, Hc. unfold holds. rewrite bool_decide_true by done. cbn.
    apply step_ok_less, (joiner_good n r js m i _ (Asleep (J_while b)) (data m) None Hok Hi); joiner_side_conditions.
  - destruct (Hsec eq_refl) as [Ho Hr]. rewrite Hm. unfold holds. rewrite bool_decide_true by done. cbn.
    apply step_ok_less, (joiner_good n r js m i _ (Running (if b then K_while else W_run)) (data m) None Hok Hi); destruct b; joiner_side_conditions.
Qed.

Lemma worker_step n r js m i j p : bench_ok n r js m -> js !! i = Some (Running p) ->
  works p = true ->
  step_ok n (Datatypes.S i) m False (exec (bench_code n) (Datatypes.S i) j p m).
Proof.
  intros Hok Hi Hp. destruct (joiner_known _ _ _ _ _ _ Hok Hi) as [Hbes Hneed Hsec Hout Hth].
  pose proof (bo_main _ _ _ _ Hok) as Hmain. pose proof (bo_done _ _ _ _ Hok) as Hdn.
  pose proof (bo_total _ _ _ _ Hok) as Htot.
  destruct (all_alive _ _ _ _ Hok) as (Hm & Hc & Ha & Hs).
  { destruct p; try discriminate Hp; by destruct r as [[]|[]|[]]. }
  destruct p; try discriminate Hp; unfold exec; cbn [bench_code ThreadBody].
  - unfold with_args. rewrite Ha.
    apply step_ok_less, (joiner_good n r js m i _ (Running W_lock) (run_method (data m)) (owner m) Hok Hi); joiner_side_conditions.
  - unfold acquire. rewrite Hm. cbn. destruct (owner m) eqn:Ho; [done|]. specialize (Hout eq_refl).
    apply step_ok_less, (joiner_good n r js m i _ (Running W_done) (data m) (Some (Datatypes.S i)) Hok Hi); joiner_side_conditions.
  - destruct (Hsec eq_refl) as [Ho Hr]. unfold with_shared. rewrite Hs.
    apply step_ok_less, (joiner_good n r js m i _ (Running W_last) (count_done (data m)) (owner m) Hok Hi); joiner_side_conditions.
  - destruct (Hsec eq_refl) as [Ho Hr]. unfold with_shared. rewrite Hs. destruct (num_done (data m) >=? sh_total (data m)) eqn:Hge.
    + apply step_ok_less, (joiner_good n r js m i _ (Running W_all) (data m) (owner m) Hok Hi); joiner_side_conditions.
    + apply step_ok_less, (joiner_good n r js m i _ (Running W_unlock) (data m) (owner m) Hok Hi); joiner_side_conditions.
  - rewrite Hc. apply step_ok_less, (joiner_wakes n r js m i W_all W_unlock Hok Hi); joiner_side_conditions.
  - destruct (Hsec eq_refl) as [Ho Hr]. rewrite Hm. unfold holds. rewrite bool_decide_true by done.
    apply step_ok_less, (joiner_good n r js m i _ (Running W_end) (data m) None Hok Hi); joiner_side_conditions.
Qed.

(** The last signal of the monitor can come too late. *)
Lemma monitor_step n r js m i j p : bench_ok n r js m -> js !! i = Some (Running p) ->
  monitors p = true ->
  step_ok n (Datatypes.S i) m (p = K_all) (exec (bench_code n) (Datatypes.S i) j p m).
Proof.
  intros Hok Hi Hp. destruct (joiner_known _ _ _ _ _ _ Hok Hi) as [Hbes Hneed Hsec Hout Hth].
  pose proof (bo_main _ _ _ _ Hok) as Hmain. pose proof (bo_done _ _ _ _ Hok) as Hdn.
  pose proof (bo_total _ _ _ _ Hok) as Htot.
  assert (Hlive : p <> K_all -> mutex_live m = true /\ cond_live m = true /\ args_alive (data m) = true /\ sh_alive (data m) = true).
  { intros Hne. apply (all_alive n r js m Hok). destruct p; try discriminate Hp; by destruct r as [[]|[]|[]]. }
  destruct p; try discriminate Hp; unfold exec; cbn [bench_code MonitorThreadBody];
    try (destruct Hlive as (Hm & Hc & Ha & Hs); [done|]).
  - unfold with_shared. rewrite Hs. destruct (num_done (data m) <? sh_total (data m) - 1) eqn:Hlt.
    + exists r, (<[i := Running K_monitor]> js). split.
      * unfold become. cbn. rewrite (bo_threads _ _ _ _ Hok). cbn.
        apply (joiner_move n r js m i (Running K_while) (Running K_monitor) (data m) (owner m) Hok Hi); joiner_side_conditions.
      * right. split; [unfold others_done; lia|]. exists K_while, K_monitor. split; [done|]. split; [by left|done].
    + apply step_ok_less, (joiner_good n r js m i _ (Running K_final) (data m) (owner m) Hok Hi); joiner_side_conditions.
  - unfold with_args. rewrite Ha. destruct (others_done n m) eqn:Ho.
    + apply step_ok_less, (joiner_good n r js m i _ (Running K_while) (data m) (owner m) Hok Hi);
        [joiner_side_conditions ..|rewrite Ho; cbn; lia].
    + exists r, (<[i := Running K_while]> js). split.
      * unfold become. cbn. rewrite (bo_threads _ _ _ _ Hok). cbn.
        apply (joiner_move n r js m i (Running K_monitor) (Running K_while) (data m) (owner m) Hok Hi); joiner_side_conditions.
      * right. split; [done|]. exists K_monitor, K_while. split; [done|]. split; [by right|by destruct m].
  - unfold with_args. rewrite Ha.
    apply step_ok_less, (joiner_good n r js m i _ (Running K_done) (data m) (owner m) Hok Hi); joiner_side_conditions.
  - unfold with_shared. rewrite Hs.
    apply step_ok_less, (joiner_good n r js m i _ (Running K_all) (count_done (data m)) (owner m) Hok Hi); joiner_side_conditions.
  - destruct (cond_live m); [|done]. apply step_ok_less, (joiner_wakes n r js m i K_all K_end Hok Hi); joiner_side_conditions.
Qed.

Lemma joiner_step n r js m i j st : bench_ok n r js m -> js !! i = Some st ->
  step_ok n (Datatypes.S i) m (st = Running K_all) (step (bench_code n) (Go (Datatypes.S i) j) m).
Proof.
  intros Hok Hi. destruct (joiner_known _ _ _ _ _ _ Hok Hi) as [Hbes Hneed Hsec Hout Hth].
  unfold step. rewrite Hth. pose proof (bo_joiners _ _ _ _ Hok) as Hside. rewrite Forall_lookup in Hside. specialize (Hside i st Hi).
  assert (Hweak : forall (Q : Prop) o, step_ok n (Datatypes.S i) m False o -> step_ok n (Datatypes.S i) m Q o) by (by intros Q []).
  destruct st as [p| |q]; [| done |].
  - destruct p; try discriminate Hside; try done;
      first [ by apply Hweak, (join_block_step n r js) | by apply Hweak, (worker_step n r js) | idtac ].
    all: match goal with |- step_ok _ _ _ (Running ?p = _) _ =>
      pose proof (monitor_step n r js m i j p Hok Hi eq_refl) as H end.
    all: by destruct exec; [exact H|done|unfold step_ok in *; congruence].
  - destruct q; try discriminate Hside. apply Hweak. unfold acquire.
    destruct (all_alive _ _ _ _ Hok) as (Hm & _); [by destruct r as [[]|[]|[]]|]. rewrite Hm. cbn.
    pose proof (bo_main _ _ _ _ Hok) as Hmain.
    destruct (owner m) eqn:Ho; [done|]. specialize (Hout eq_refl).
    apply step_ok_less, (joiner_good n r js m i _ (Running (J_while mon)) (data m) (Some (Datatypes.S i)) Hok Hi); joiner_side_conditions.
Qed.

(** * Steps of the main thread *)

Section main_moves.
Context (n : nat) (r r' : bench_status) (js : list bench_status) (m : bench_machine) (a : shared_state).
Context (o : option nat) (ml cl : bool) (Hok : bench_ok n r js m).

(** What the new place of the main thread asks for. *)
Record main_fits : Prop := {
  mf_side : main_side r' = true;
  mf_owner : owner_moves 0 (owner m) o r r';
  mf_counts : (sh_total a, num_initialized a, num_done a, bench_ran a) =
    (sh_total (data m), num_initialized (data m), num_done (data m), bench_ran (data m));
  mf_start : sh_start a = started r';
  mf_beside : Forall (fun st => beside r' st = true) js;
  mf_need : (need n r' <= count is_done js)%nat;
  mf_wait : r' = Running R_wait \/ r' = Asleep R_while -> (count counted js <= n)%nat;
  mf_while2 : r' = Running R_while2 -> Forall (fun st => released st = false) js \/ (n + 1 <= count is_done js)%nat;
  mf_mutex : ml = match r' with Running (R_shared | R_end) => false | _ => true end;
  mf_cond : cl = match r' with Running (R_mutex | R_shared | R_end) => false | _ => true end;
  mf_args : args_alive a = match r' with Running (R_cond | R_mutex | R_shared | R_end) => false | _ => true end;
  mf_alive : sh_alive a = match r' with Running R_end => false | _ => true end
}.

Lemma main_move : main_fits -> bench_ok n r' js (mkMachine a o ml cl (r' :: js)).
Proof using Hok.
  intros [Hside Hown Ha Hst Hbes Hneed Hwait Hwhile Hml Hcl Hargs Hal]. simplify_eq Ha; clear Ha; intros Htot Hin Hdn Hran.
  destruct Hok. split; cbn [threads owner data mutex_live cond_live]; try congruence; try done.
  - by apply (owner_moves_owned 0 (owner m) o (r :: js) r r').
  - apply Forall_cons_iff in bo_need0 as [_ Hn]. by constructor.
  - auto.
  - auto.
Qed.

Lemma main_good Q : main_fits -> (rank n (others_done n m) r' < rank n (others_done n m) r)%nat ->
  step_ok n 0 m Q (Next (mkMachine a o ml cl (<[0%nat := r']> (threads m)))).
Proof using Hok.
  intros Hfit Hrank. pose proof (bo_threads _ _ _ _ Hok) as Ht. apply step_ok_less. exists r', js. split.
  - rewrite Ht. by apply main_move.
  - pose proof (mf_counts Hfit) as Ha. simplify_eq Ha; clear Ha; intros _ _ Hdn _.
    unfold total_rank, others_done in *. cbn [threads data]. rewrite Ht, Hdn. cbn [insert list_insert sum_list_with]. lia.
Qed.
End main_moves.

(** The other threads are outside when the mutex is the main thread's or free. *)
Lemma others_outside n r js m : bench_ok n r js m -> owner m = Some 0%nat \/ owner m = None ->
  Forall (fun st => in_section st = false) js.
Proof.
  intros Hok Ho. apply Forall_lookup. intros i st Hi.
  apply (owned_out (owner m) (r :: js) (Datatypes.S i)); [apply (bo_owner _ _ _ _ Hok)|done|]. by destruct Ho as [-> | ->].
Qed.

(** All that is beside [r] is beside [r'], if also [Q] holds of it. *)
Lemma beside_all n r r' js m (Q : bench_status -> Prop) : bench_ok n r js m -> Forall Q js ->
  (forall st, joiner_side (is_monitor st) st = true -> beside r st = true -> Q st -> beside r' st = true) ->
  Forall (fun st => beside r' st = true) js.
Proof.
  intros [] HQ Himp. rewrite Forall_lookup in *. intros i st Hi. apply Himp; [by apply (bo_joiners0 i)|by apply (bo_beside0 i)|by apply (HQ i)].
Qed.

Ltac main_side_conditions :=
  first
  [ done
  | match goal with |- owner_moves _ _ _ _ _ => first [by left | by right; left | by right; right] end
  | match goal with |- Forall (fun st => beside _ st = true) _ =>
      eapply beside_all; [eassumption|eassumption|];
      intros [[]|[]|[]] ? ? Hq; match type of Hq with _ /\ _ => destruct Hq | _ => idtac end; done end
  | progress cbn; lia
  | by intros [|]
  | intros _; lia
  | by intros _; left
  | match goal with H : ?a = true |- ?a = _ => exact H end
  | congruence ].

Lemma all_counted n r js m : bench_ok n r js m -> (n < count counted js)%nat -> Forall (fun st => counted st = true) js.
Proof. intros [] Hc. apply count_all. pose proof (count_le counted js). lia. Qed.

Lemma all_done n r js m : bench_ok n r js m -> (n < count is_done js)%nat -> Forall (fun st => is_done st = true) js.
Proof. intros [] Hc. apply count_all. pose proof (count_le is_done js). lia. Qed.

Lemma main_waits n p js m : bench_ok n (Running p) js m ->
  match p with R_lock | R_while | R_wait | R_monitor | R_start => true | _ => false end = true ->
  step_ok n 0 m False (exec (bench_code n) 0 0 p m).
Proof.
  intros Hok Hp. destruct (all_alive _ _ _ _ Hok) as (Hm & Hc & Ha & Hs); [by destruct p|].
  assert (Hout : owner m = Some 0%nat \/ owner m = None -> _) by exact (others_outside _ _ _ _ Hok).
  assert (Hsec : in_section (Running p) = true -> owner m = Some 0%nat).
  { intros H. by apply (owned_in (owner m) (Running p :: js) 0 (Running p)); [apply (bo_owner _ _ _ _ Hok)|done|]. }
  pose proof (bo_start _ _ _ _ Hok) as Hst. pose proof (bo_initialized _ _ _ _ Hok) as Hini.
  destruct p; try discriminate Hp; unfold exec; cbn [bench_code RunBenchmark].
  - unfold acquire. rewrite Hm. cbn. destruct (owner m) eqn:Ho; [done|]. specialize (Hout (or_intror eq_refl)).
    apply (main_good n (Running R_lock) (Running R_while) js m (data m) (Some 0%nat) _ _ Hok); [split; main_side_conditions|cbn; lia].
  - specialize (Hsec eq_refl). specialize (Hout (or_introl Hsec)). unfold with_shared. rewrite Hs.
    destruct (num_initialized (data m) <=? Z.of_nat n) eqn:Hle.
    + apply (main_good n (Running R_while) (Running R_wait) js m (data m) (owner m) _ _ Hok); [split; main_side_conditions|cbn; lia].
    + assert (Hall : Forall (fun st => counted st = true) js) by (apply (all_counted n _ js m Hok); lia).
      apply (main_good n (Running R_while) (Running R_monitor) js m (data m) (owner m) _ _ Hok); [|cbn; lia].
      assert (Hboth : Forall (fun st => counted st = true /\ in_section st = false) js) by (by apply Forall_and).
      clear Hall Hout. split; main_side_conditions.
  - specialize (Hsec eq_refl). specialize (Hout (or_introl Hsec)). rewrite Hm, Hc. unfold holds. rewrite bool_decide_true by done.
    pose proof (bo_wait _ _ _ _ Hok eq_refl) as Hw.
    apply (main_good n (Running R_wait) (Asleep R_while) js m (data m) None _ _ Hok); [split; main_side_conditions|cbn; lia].
  - specialize (Hsec eq_refl). specialize (Hout (or_introl Hsec)). unfold with_args. rewrite Ha.
    apply (main_good n (Running R_monitor) (Running R_start) js m (data m) (owner m) _ _ Hok); [split; main_side_conditions|cbn; lia].
  - specialize (Hsec eq_refl). specialize (Hout (or_introl Hsec)). unfold with_shared. rewrite Hs.
    apply (main_good n (Running R_start) (Running R_all) js m (set_start (data m)) (owner m) _ _ Hok); [split; main_side_conditions|cbn; lia].
Qed.

Lemma main_starts n js m : bench_ok n (Running R_all) js m -> step_ok n 0 m False (exec (bench_code n) 0 0 R_all m).
Proof.
  intros Hok. destruct (all_alive _ _ _ _ Hok) as (Hm & Hc & Ha & Hs); [done|].
  pose proof (wake_all n _ js m Hok ltac:(done)) as Hok'. pose proof (bo_threads _ _ _ _ Hok) as Ht.
  pose proof (bo_start _ _ _ _ Hok) as Hst.
  assert (Hrel : Forall (fun st => released st = false) (wake <$> js)).
  { pose proof (bo_beside _ _ _ _ Hok') as Hb. eapply Forall_impl; [|exact Hb]. by intros [[]|[]|[]]. }
  unfold exec. cbn [bench_code RunBenchmark]. rewrite Hc. cbn. apply step_ok_less.
  exists (Running R_while2), (wake <$> js). split.
  - unfold become. cbn. rewrite Ht. cbn.
    apply (main_move n (Running R_all) (Running R_while2) (wake <$> js) _ (data m) (owner m) _ _ Hok').
    split; try main_side_conditions.
    pose proof (bo_beside _ _ _ _ Hok) as Hb. rewrite Forall_fmap. eapply Forall_impl; [|exact Hb]. by intros [[]|[]|[]].
  - unfold total_rank, become, others_done. cbn [threads data put_threads]. rewrite Ht. cbn [fmap list_fmap insert list_insert sum_list_with].
    pose proof (total_rank_wake n (Z.of_nat n <=? num_done (data m)) js) as Hw. pose proof (bo_length _ _ _ _ Hok).
    cbn [wake rank]. unfold wake_cost. cbn in Hw |- *. lia.
Qed.

Lemma main_ends n p js m : bench_ok n (Running p) js m ->
  match p with R_while2 | R_wait2 | R_unlock | R_monitor2 | R_args | R_cond | R_mutex | R_shared => true | _ => false end = true ->
  step_ok n 0 m False (exec (bench_code n) 0 0 p m).
Proof.
  intros Hok Hp.
  pose proof (bo_mutex _ _ _ _ Hok) as Hm. pose proof (bo_cond _ _ _ _ Hok) as Hc. pose proof (bo_args _ _ _ _ Hok) as Ha.
  pose proof (bo_alive _ _ _ _ Hok) as Hs.
  assert (Hout : owner m = Some 0%nat \/ owner m = None -> _) by exact (others_outside _ _ _ _ Hok).
  assert (Hsec : in_section (Running p) = true -> owner m = Some 0%nat).
  { intros H. by apply (owned_in (owner m) (Running p :: js) 0 (Running p)); [apply (bo_owner _ _ _ _ Hok)|done|]. }
  pose proof (bo_start _ _ _ _ Hok) as Hst. pose proof (bo_done _ _ _ _ Hok) as Hdn.
  pose proof (bo_need _ _ _ _ Hok) as Hneed. apply Forall_cons_iff in Hneed as [Hneed _].
  pose proof (bo_beside _ _ _ _ Hok) as Hbes.
  destruct p; try discriminate Hp; unfold exec; cbn [bench_code RunBenchmark].
  - specialize (Hsec eq_refl). specialize (Hout (or_introl Hsec)). unfold with_shared. rewrite Hs.
    destruct (num_done (data m) <=? Z.of_nat n) eqn:Hle.
    + destruct (bo_while2 _ _ _ _ Hok eq_refl) as [Hrel|]; [|lia].
      apply (main_good n (Running R_while2) (Running R_wait2) js m (data m) (owner m) _ _ Hok); [|cbn; lia].
      clear Hout Hbes. split; main_side_conditions.
    + assert (Hall : Forall (fun st => is_done st = true) js) by (apply (all_done n _ js m Hok); lia).
      assert (Hboth : Forall (fun st => is_done st = true /\ in_section st = false) js) by (by apply Forall_and).
      apply (main_good n (Running R_while2) (Running R_unlock) js m (data m) (owner m) _ _ Hok); [|cbn; lia].
      clear Hall Hout Hbes. split; main_side_conditions.
  - specialize (Hsec eq_refl). specialize (Hout (or_introl Hsec)). rewrite Hm, Hc. unfold holds. rewrite bool_decide_true by done.
    apply (main_good n (Running R_wait2) (Asleep R_while2) js m (data m) None _ _ Hok); [split; main_side_conditions|cbn; lia].
  - specialize (Hsec eq_refl). specialize (Hout (or_introl Hsec)). rewrite Hm. unfold holds. rewrite bool_decide_true by done.
    apply (main_good n (Running R_unlock) (Running R_monitor2) js m (data m) None _ _ Hok); [split; main_side_conditions|cbn; lia].
  - unfold with_args. rewrite Ha.
    apply (main_good n (Running R_monitor2) (Running R_args) js m (data m) (owner m) _ _ Hok); [split; main_side_conditions|cbn; lia].
  - apply (main_good n (Running R_args) (Running R_cond) js m (free_args (data m)) (owner m) _ _ Hok); [split; main_side_conditions|cbn; lia].
  - rewrite Hc. assert (Hsl : existsb sleeping (threads m) = false).
    { rewrite (bo_threads _ _ _ _ Hok). cbn. clear -Hbes. induction Hbes as [|st js Hst _ IH]; [done|]. cbn. rewrite IH. by destruct st as [[]|[]|[]]. }
    rewrite Hsl. cbn. apply (main_good n (Running R_cond) (Running R_mutex) js m (data m) (owner m) _ _ Hok); [split; main_side_conditions|cbn; lia].
  - assert (Ho : owner m = None).
    { apply (owned_nobody _ (Running R_mutex :: js)); [apply (bo_owner _ _ _ _ Hok)|]. constructor; [done|].
      eapply Forall_impl; [|exact Hbes]. by intros [[]|[]|[]]. }
    rewrite Hm, Ho. cbn. apply (main_good n (Running R_mutex) (Running R_shared) js m (data m) None _ _ Hok); [split; main_side_conditions|cbn; lia].
  - apply (main_good n (Running R_shared) (Running R_end) js m (free_shared (data m)) (owner m) _ _ Hok); [split; main_side_conditions|cbn; lia].
Qed.

Lemma exec_signals n i j p m : exec (bench_code n) i j p m = exec (bench_code n) i 0 p m.
Proof. by destruct p. Qed.

Lemma main_step n r js m j : bench_ok n r js m -> step_ok n 0 m False (step (bench_code n) (Go 0 j) m).
Proof.
  intros Hok. unfold step. rewrite (bo_threads _ _ _ _ Hok). cbn [lookup list_lookup].
  pose proof (bo_main _ _ _ _ Hok) as Hside. destruct r as [p|q|q]; [|done|].
  - rewrite exec_signals.
    destruct p; try discriminate Hside; try done;
      first [by apply (main_waits n _ js m Hok) | by apply (main_ends n _ js m Hok) | by apply (main_starts n js)].
  - assert (Hml : mutex_live m = true) by (rewrite (bo_mutex _ _ _ _ Hok); by destruct q).
    unfold acquire. rewrite Hml. cbn. destruct (owner m) eqn:Ho; [done|].
    pose proof (others_outside _ _ _ _ Hok (or_intror Ho)) as Hout. pose proof (bo_start _ _ _ _ Hok) as Hst.
    destruct (all_alive _ _ _ _ Hok) as (_ & Hc & Ha & Hs); [by destruct q|].
    destruct q; try discriminate Hside.
    + apply (main_good n (Awake R_while) (Running R_while) js m (data m) (Some 0%nat) _ _ Hok); [split; main_side_conditions|cbn; lia].
    + pose proof (bo_need _ _ _ _ Hok) as Hneed. apply Forall_cons_iff in Hneed as [Hneed _]. cbn in Hneed.
      apply (main_good n (Awake R_while2) (Running R_while2) js m (data m) (Some 0%nat) _ _ Hok); [split; main_side_conditions|cbn; lia].
Qed.

(** Without spurious wake-ups, the only step that can be undefined is the last
    signal of the monitor. *)
Lemma bench_step n r js m e : bench_ok n r js m -> allowed false e = true ->
  exists i j, e = Go i j /\ step_ok n i m (threads m !! i = Some (Running K_all)) (step (bench_code n) e m).
Proof.
  intros Hok He. destruct e as [[|i] j|]; [| |done]; (do 2 eexists; split; [done|]).
  - pose proof (main_step n r js m j Hok) as H. by destruct step.
  - destruct (js !! i) as [st|] eqn:Hi.
    + pose proof (joiner_step n r js m i j st Hok Hi) as H. rewrite (bo_threads _ _ _ _ Hok).
      destruct step; [exact H|done|]. unfold step_ok in *. change ((r :: js) !! Datatypes.S i) with (js !! i). by rewrite Hi, H.
    + unfold step. rewrite (bo_threads _ _ _ _ Hok). change ((r :: js) !! Datatypes.S i) with (js !! i). by rewrite Hi.
Qed.

Lemma bench_reachable n m : reachable (bench_code n) false (bench_init n) m -> exists r js, bench_ok n r js m.
Proof.
  induction 1 as [|m e m' _ (r & js & Hok) He Hs]; [eauto using bench_init_ok|].
  destruct (bench_step n r js m e Hok He) as (i & j & -> & H). rewrite Hs in H. destruct H as (r' & js' & ? & _). eauto.
Qed.

(** * Some thread can always go on *)

(** A thread whose next step brings the end nearer. *)
Definition lively (n : nat) m st : bool :=
  match st with
  | Asleep _ => false
  | Awake _ | Running (R_lock | J_lock _ | W_lock) => bool_decide (owner m = None)
  | Running (R_end | W_end | K_end) => false
  | Running (K_while | K_monitor) => others_done n m
  | Running K_all => cond_live m
  | Running _ => true
  end.

Definition helpful (n i : nat) m : Prop :=
  (exists r js, bench_ok n r js m) /\ exists st, threads m !! i = Some st /\ lively n m st = true.

Lemma lively_can_go n i j st m : threads m !! i = Some st -> lively n m st = true -> step (bench_code n) (Go i j) m <> Blocked.
Proof.
  intros Hi Hl. unfold step. rewrite Hi. destruct st as [p| |q]; [|done|].
  - destruct p; try discriminate Hl; unfold exec, acquire, require, with_shared, with_args; cbn;
      cbn in Hl; try (apply bool_decide_eq_true in Hl); repeat case_match; congruence.
  - cbn in Hl. apply bool_decide_eq_true in Hl. unfold acquire, require. rewrite Hl. by destruct (mutex_live m).
Qed.

Lemma helpful_can_go n i m : helpful n i m -> can_go (bench_code n) i m.
Proof.
  intros [(r & js & Hok) (st & Hi & Hl)]. exists 0%nat.
  destruct (bench_step n r js m (Go i 0) Hok eq_refl) as (i' & j' & [= <- <-] & H).
  pose proof (lively_can_go n i 0 st m Hi Hl) as Hnb. destruct (step (bench_code n) (Go i 0) m) as [m'| |] eqn:Hs; [eauto|done|].
  unfold step_ok in H. rewrite Hi in H. injection H as ->. unfold step, exec in Hs. rewrite Hi in Hs. cbn in *. by rewrite Hl in Hs.
Qed.

Lemma count_cover f g js : Forall (fun st => f st || g st = true) js -> (length js <= count f js + count g js)%nat.
Proof.
  induction 1 as [|st js Hst _ IH]; [done|]. cbn. fold (count f js) (count g js). destruct (f st), (g st); cbn in *; (lia || done).
Qed.

Lemma count_none f js : Forall (fun st => f st = false) js -> count f js = 0%nat.
Proof. induction 1 as [|st js Hst _ IH]; [done|]. cbn. by rewrite Hst. Qed.

(** The mutex is free and no thread is lively: the main thread has returned. *)
Lemma all_stuck n r js m : bench_ok n r js m -> owner m = None ->
  Forall (fun st => lively n m st = false) (r :: js) -> r = Running R_end.
Proof.
  intros Hok Ho Hall. apply Forall_cons_iff in Hall as [Hr Hjs].
  pose proof (others_outside _ _ _ _ Hok (or_intror Ho)) as Hout. pose proof (bo_main _ _ _ _ Hok) as Hmain.
  pose proof (bo_cond _ _ _ _ Hok) as Hc. pose proof (bo_beside _ _ _ _ Hok) as Hbes.
  assert (Hjs' : Forall (fun st => (lively n m st = false /\ in_section st = false) /\ beside r st = true /\
                                   joiner_side (is_monitor st) st = true) js).
  { repeat apply Forall_and; try done. apply (bo_joiners _ _ _ _ Hok). }
  assert (Hrs : in_section r = false).
  { apply (owned_out (owner m) (r :: js) 0); [apply (bo_owner _ _ _ _ Hok)|done|by rewrite Ho]. }
  destruct r as [[]|[]|[]]; try done; try (by cbn in Hr; rewrite Ho in Hr).
  - exfalso. assert (Hcount : count counted js = length js).
    { apply count_all. eapply Forall_impl; [|exact Hjs']. intros st ((Hl & Hs) & Hb & Hj).
      destruct st as [[]|[]|[]]; try done; cbn in Hl; by rewrite Ho in Hl. }
    rewrite (bo_length _ _ _ _ Hok) in Hcount. destruct (bo_asleep _ _ _ _ Hok eq_refl) as [?|(i & st & Hi & Hl)]; [lia|].
    rewrite Forall_lookup in Hout. specialize (Hout i st Hi). by destruct st as [[]|[]|[]].
  - exfalso. destruct (others_done n m) eqn:Hd.
    + assert (Hnone : count is_monitor js = 0%nat).
      { apply count_none. eapply Forall_impl; [|exact Hjs']. intros st ((Hl & Hs) & Hb & Hj).
        destruct st as [[]|[]|[]]; try done; cbn in Hl; rewrite ?Ho, ?Hd, ?Hc in Hl; done. }
      pose proof (bo_monitor _ _ _ _ Hok). lia.
    + assert (Hcov : (length js <= count is_done js + count is_monitor js)%nat).
      { apply count_cover. eapply Forall_impl; [|exact Hjs']. intros st ((Hl & Hs) & Hb & Hj).
        destruct st as [[]|[]|[]]; try done; cbn in Hl; rewrite ?Ho, ?Hd, ?Hc in Hl; done. }
      pose proof (bo_monitor _ _ _ _ Hok). pose proof (bo_length _ _ _ _ Hok). pose proof (bo_done _ _ _ _ Hok).
      unfold others_done in Hd. lia.
Qed.

Lemma some_helpful n r js m : bench_ok n r js m -> r = Running R_end \/ exists i, helpful n i m.
Proof.
  intros Hok. assert (Hhelp : forall i st, (r :: js) !! i = Some st -> lively n m st = true -> exists i, helpful n i m).
  { intros i st Hi Hl. exists i. split; [eauto|]. exists st. by rewrite (bo_threads _ _ _ _ Hok). }
  destruct (owner m) as [i|] eqn:Ho.
  - right. destruct (bo_owner _ _ _ _ Hok) as [H1 H2]. destruct (H2 i Ho) as [st Hst]. apply (Hhelp i st Hst).
    pose proof (H1 i st Hst) as Hs. rewrite bool_decide_true in Hs by done. by destruct st as [[]|[]|[]].
  - destruct (decide (Forall (fun st => lively n m st = false) (r :: js))) as [Hall|Hnot].
    + left. by apply (all_stuck n r js m).
    + right. apply not_Forall_Exists in Hnot; [|apply _]. apply Exists_exists in Hnot as (st & Hin & Hl).
      apply list_elem_of_In, list_elem_of_lookup in Hin as (i & Hi). apply (Hhelp i st Hi). by apply not_false_is_true.
Qed.

(** * The theorems *)

Lemma polls_rank n i m m' : polls n i m m' -> total_rank n m' = total_rank n m.
Proof.
  intros (Hd & p & q & Hi & Hpq & ->). unfold total_rank, become, others_done in *. cbn [threads data put_threads]. rewrite Hd.
  pose proof (sum_insert (rank n false) (threads m) i _ (Running q) Hi). destruct Hpq as [[= -> ->]|[= -> ->]]; cbn [rank b2n] in *; lia.
Qed.

Lemma polls_helpful n i m m' x r js : polls n i m m' -> bench_ok n r js m' -> helpful n x m -> helpful n x m' /\ x <> i.
Proof.
  intros (Hd & p & q & Hi & Hpq & ->) Hok [_ (st & Hx & Hl)]. assert (x <> i) as Hne.
  { intros ->. rewrite Hi in Hx. injection Hx as <-. destruct Hpq as [[= -> ->]|[= -> ->]]; cbn in Hl; congruence. }
  split; [|done]. split; [eauto|]. exists st. unfold become. cbn [threads put_threads]. rewrite list_lookup_insert_ne by done. by destruct st.
Qed.

(** C17: run by any number of threads and however these interleave, without spurious
    wake-ups, a benchmark calls its method only after every thread has checked in,
    each thread of it exactly once, and returns only after all of these calls; the
    locks are used properly and nothing that is freed is used, except that the last
    signal of the monitor's thread may come when [shared] is gone. *)
Theorem benchmark_barrier (n : nat) (m : machine shared_state bench_point) :
  reachable (bench_code n) false (bench_init n) m ->
  (forall i, threads m !! i = Some (Running W_run) -> num_initialized (data m) = Z.of_nat n + 1 /\ sh_start (data m) = true) /\
  (forall p, threads m !! 0%nat = Some (Running p) -> p ∈ [R_monitor2; R_args; R_cond; R_mutex; R_shared; R_end] ->
     bench_ran (data m) = Z.of_nat n) /\
  (forall i j, step (bench_code n) (Go i j) m = Broken -> threads m !! i = Some (Running K_all)).
Proof.
  intros Hr. destruct (bench_reachable n m Hr) as (r & js & Hok). split; [|split].
  - intros [|i] Hi; rewrite (bo_threads _ _ _ _ Hok) in Hi.
    { injection Hi as ->. by pose proof (bo_main _ _ _ _ Hok). }
    destruct (joiner_known _ _ _ _ _ _ Hok Hi) as [Hbes _ _ _ _].
    assert (Hst : started r = true) by by destruct r as [[]|[]|[]].
    rewrite (bo_initialized _ _ _ _ Hok), (bo_start _ _ _ _ Hok). split; [|done].
    assert (Hall : Forall (fun st => counted st = true) js).
    { eapply Forall_impl; [|exact (bo_beside _ _ _ _ Hok)]. intros st Hb. by destruct r as [[]|[]|[]], st as [[]| |]. }
    apply count_all in Hall. rewrite Hall, (bo_length _ _ _ _ Hok). lia.
  - intros p Hp Hin. rewrite (bo_threads _ _ _ _ Hok) in Hp. injection Hp as ->.
    assert (Hpast : past_loop (Running p) = true) by (destruct p; set_solver).
    assert (Hjs : Forall (fun st => has_run st = negb (is_monitor st)) js).
    { eapply Forall_impl; [|exact (bo_beside _ _ _ _ Hok)]. intros st Hb. unfold beside in Hb. rewrite Hpast in Hb.
      destruct st as [[]|[]|[]]; try done; cbn in Hb; by rewrite !andb_false_r in Hb. }
    assert (Hsum : (count has_run js + count is_monitor js = length js)%nat).
    { clear -Hjs. induction Hjs as [|st js Hst _ IH]; [done|]. cbn. fold (count has_run js) (count is_monitor js).
      rewrite Hst. destruct (is_monitor st); cbn; lia. }
    rewrite (bo_monitor _ _ _ _ Hok), (bo_length _ _ _ _ Hok) in Hsum. rewrite (bo_ran _ _ _ _ Hok). lia.
  - intros i j Hb. destruct (bench_step n r js m (Go i j) Hok eq_refl) as (i' & j' & [= <- <-] & H). by rewrite Hb in H.
Qed.

(** A benchmark with two threads. *)
Definition bench_script : list event :=
  (replicate 3 (Go 0 0) ++ replicate 5 (Go 1 0) ++ replicate 5 (Go 2 0) ++ replicate 6 (Go 3 0) ++
   replicate 7 (Go 0 0) ++ replicate 3 (Go 2 0) ++ replicate 3 (Go 1 0) ++ replicate 3 (Go 3 0) ++
   replicate 3 (Go 3 0) ++ replicate 5 (Go 2 0) ++ replicate 5 (Go 1 0) ++ replicate 5 (Go 3 0) ++ replicate 8 (Go 0 0))%nat.

Definition bench_end : machine shared_state bench_point :=
  mkMachine (mkShared 3 3 3 true false false 2) None false false
    [Running R_end; Running W_end; Running W_end; Running K_end].

Lemma bench_script_ends : steps (bench_code 2) bench_script (bench_init 2) = Next bench_end.
Proof. vm_compute. reflexivity. Qed.

Lemma benchmark_barrier_witness : bench_ran (data bench_end) = 2 /\ step (bench_code 2) (Go 3 0) bench_end <> Broken.
Proof.
  assert (Hr : reachable (bench_code 2) false (bench_init 2) bench_end).
  { apply (steps_reachable (bench_code 2) false bench_script (bench_init 2) (bench_init 2));
      [constructor|reflexivity|exact bench_script_ends]. }
  split.
  - apply (proj1 (proj2 (benchmark_barrier 2 bench_end Hr)) R_end); [reflexivity|set_solver].
  - intros H. discriminate (proj2 (proj2 (benchmark_barrier 2 bench_end Hr)) 3%nat 0%nat H).
Defined.

(** C18: in every run that is fair to the threads and has no spurious wake-ups,
    [RunBenchmark] returns, whatever the number of threads; only the polling of the
    monitor repeats, and some other thread can always go on. *)
Theorem benchmark_returns (n : nat) (r : nat -> machine shared_state bench_point) (s : nat -> option event) :
  r 0%nat = bench_init n -> runs_from (bench_code n) false r s -> (forall i, fair (bench_code n) r s i) ->
  exists k : nat, threads (r k) !! 0%nat = Some (Running R_end).
Proof.
  intros H0 Hrun Hfair.
  destruct (fair_progress (bench_code n) false r s Hrun (fun m => exists r js, bench_ok n r js m)
    (fun m => threads m !! 0%nat = Some (Running R_end)) (total_rank n) (helpful n)) with (n := 0%nat) as (k & _ & Hk);
    [apply helpful_can_go| | |rewrite H0; eauto using bench_init_ok|by exists k].
  - intros l (d & js & Hok). destruct (some_helpful n d js (r l) Hok) as [-> |(i & Hi)]; [left|right; eauto].
    by rewrite (bo_threads _ _ _ _ Hok).
  - intros l e (d & js & Hok) He. destruct (run_step _ _ _ _ Hrun _ _ He) as [Ha Hs].
    destruct (bench_step n d js (r l) e Hok Ha) as (i & j & -> & H). rewrite Hs in H. destruct H as (d' & js' & Hok' & Hdec).
    split; [eauto|]. destruct Hdec as [?|Hp]; [by left|right]. split; [by eapply polls_rank|].
    intros x Hx. destruct (polls_helpful n i _ _ x d' js' Hp Hok' Hx). split; [done|]. congruence.
Qed.

Lemma benchmark_returns_witness :
  exists k : nat, threads (script_run (bench_code 2) bench_script (bench_init 2) k) !! 0%nat = Some (Running R_end).
Proof.
  apply (benchmark_returns 2 (script_run (bench_code 2) bench_script (bench_init 2)) (fun n => bench_script !! n)).
  - reflexivity.
  - exact (script_runs (bench_code 2) false bench_script _ _ eq_refl bench_script_ends).
  - intros i. apply (script_fair (bench_code 2) _ _ _ _ bench_script_ends).
    intros (j & m' & H). destruct i as [|[|[|[|i]]]]; discriminate H.
Defined.

(** The monitor signals when [shared] is gone. *)
Lemma late_signal_breaks : steps (bench_code 1) (late_signal ++ [Go 2 0]) (bench_init 1) = Broken.
Proof. vm_compute. reflexivity. Qed.

(** After a spurious wake-up at the wrong moment the main thread sleeps for ever. *)
Lemma lost_signal_hangs : exists m, steps (bench_code 1) lost_signal (bench_init 1) = Next m /\
  threads m = [Asleep R_while2; Running W_end; Running K_end] /\
  forall i j, step (bench_code 1) (Go i j) m = Blocked.
Proof. eexists. split; [vm_compute; reflexivity|]. split; [done|]. by intros [|[|[|i]]] j. Qed.
