(* ===== verification/Hashes.v ===== *)
(** Hash functions: [src/util/myhash.cpp] ([crc32], [murmur64]) and
    [src/lib/leveldb/util/hash.cc] ([Hash]).

    The loops that read whole words are structural recursions on the number of
    words; a [switch] with fall-through is the sequence of its cases. [murmur64]
    is what names are turned into key components with, so its range is what
    makes a [tfs_meta_key_t] fit in 16 bytes. *)

From S2P Require Import Prelude.

(** * CRC-32, table driven and unrolled eight times *)

Definition crc_table : list Z :=
  [0x00000000; 0x77073096; 0xee0e612c; 0x990951ba; 0x076dc419; 0x706af48f;
   0xe963a535; 0x9e6495a3; 0x0edb8832; 0x79dcb8a4; 0xe0d5e91e; 0x97d2d988;
   0x09b64c2b; 0x7eb17cbd; 0xe7b82d07; 0x90bf1d91; 0x1db71064; 0x6ab020f2;
   0xf3b97148; 0x84be41de; 0x1adad47d; 0x6ddde4eb; 0xf4d4b551; 0x83d385c7;
   0x136c9856; 0x646ba8c0; 0xfd62f97a; 0x8a65c9ec; 0x14015c4f; 0x63066cd9;
   0xfa0f3d63; 0x8d080df5; 0x3b6e20c8; 0x4c69105e; 0xd56041e4; 0xa2677172;
   0x3c03e4d1; 0x4b04d447; 0xd20d85fd; 0xa50ab56b; 0x35b5a8fa; 0x42b2986c;
   0xdbbbc9d6; 0xacbcf940; 0x32d86ce3; 0x45df5c75; 0xdcd60dcf; 0xabd13d59;
   0x26d930ac; 0x51de003a; 0xc8d75180; 0xbfd06116; 0x21b4f4b5; 0x56b3c423;
   0xcfba9599; 0xb8bda50f; 0x2802b89e; 0x5f058808; 0xc60cd9b2; 0xb10be924;
   0x2f6f7c87; 0x58684c11; 0xc1611dab; 0xb6662d3d; 0x76dc4190; 0x01db7106;
   0x98d220bc; 0xefd5102a; 0x71b18589; 0x06b6b51f; 0x9fbfe4a5; 0xe8b8d433;
   0x7807c9a2; 0x0f00f934; 0x9609a88e; 0xe10e9818; 0x7f6a0dbb; 0x086d3d2d;
   0x91646c97; 0xe6635c01; 0x6b6b51f4; 0x1c6c6162; 0x856530d8; 0xf262004e;
   0x6c0695ed; 0x1b01a57b; 0x8208f4c1; 0xf50fc457; 0x65b0d9c6; 0x12b7e950;
   0x8bbeb8ea; 0xfcb9887c; 0x62dd1ddf; 0x15da2d49; 0x8cd37cf3; 0xfbd44c65;
   0x4db26158; 0x3ab551ce; 0xa3bc0074; 0xd4bb30e2; 0x4adfa541; 0x3dd895d7;
   0xa4d1c46d; 0xd3d6f4fb; 0x4369e96a; 0x346ed9fc; 0xad678846; 0xda60b8d0;
   0x44042d73; 0x33031de5; 0xaa0a4c5f; 0xdd0d7cc9; 0x5005713c; 0x270241aa;
   0xbe0b1010; 0xc90c2086; 0x5768b525; 0x206f85b3; 0xb966d409; 0xce61e49f;
   0x5edef90e; 0x29d9c998; 0xb0d09822; 0xc7d7a8b4; 0x59b33d17; 0x2eb40d81;
   0xb7bd5c3b; 0xc0ba6cad; 0xedb88320; 0x9abfb3b6; 0x03b6e20c; 0x74b1d29a;
   0xead54739; 0x9dd277af; 0x04db2615; 0x73dc1683; 0xe3630b12; 0x94643b84;
   0x0d6d6a3e; 0x7a6a5aa8; 0xe40ecf0b; 0x9309ff9d; 0x0a00ae27; 0x7d079eb1;
   0xf00f9344; 0x8708a3d2; 0x1e01f268; 0x6906c2fe; 0xf762575d; 0x806567cb;
   0x196c3671; 0x6e6b06e7; 0xfed41b76; 0x89d32be0; 0x10da7a5a; 0x67dd4acc;
   0xf9b9df6f; 0x8ebeeff9; 0x17b7be43; 0x60b08ed5; 0xd6d6a3e8; 0xa1d1937e;
   0x38d8c2c4; 0x4fdff252; 0xd1bb67f1; 0xa6bc5767; 0x3fb506dd; 0x48b2364b;
   0xd80d2bda; 0xaf0a1b4c; 0x36034af6; 0x41047a60; 0xdf60efc3; 0xa867df55;
   0x316e8eef; 0x4669be79; 0xcb61b38c; 0xbc66831a; 0x256fd2a0; 0x5268e236;
   0xcc0c7795; 0xbb0b4703; 0x220216b9; 0x5505262f; 0xc5ba3bbe; 0xb2bd0b28;
   0x2bb45a92; 0x5cb36a04; 0xc2d7ffa7; 0xb5d0cf31; 0x2cd99e8b; 0x5bdeae1d;
   0x9b64c2b0; 0xec63f226; 0x756aa39c; 0x026d930a; 0x9c0906a9; 0xeb0e363f;
   0x72076785; 0x05005713; 0x95bf4a82; 0xe2b87a14; 0x7bb12bae; 0x0cb61b38;
   0x92d28e9b; 0xe5d5be0d; 0x7cdcefb7; 0x0bdbdf21; 0x86d3d2d4; 0xf1d4e242;
   0x68ddb3f8; 0x1fda836e; 0x81be16cd; 0xf6b9265b; 0x6fb077e1; 0x18b74777;
   0x88085ae6; 0xff0f6a70; 0x66063bca; 0x11010b5c; 0x8f659eff; 0xf862ae69;
   0x616bffd3; 0x166ccf45; 0xa00ae278; 0xd70dd2ee; 0x4e048354; 0x3903b3c2;
   0xa7672661; 0xd06016f7; 0x4969474d; 0x3e6e77db; 0xaed16a4a; 0xd9d65adc;
   0x40df0b66; 0x37d83bf0; 0xa9bcae53; 0xdebb9ec5; 0x47b2cf7f; 0x30b5ffe9;
   0xbdbdf21c; 0xcabac28a; 0x53b39330; 0x24b4a3a6; 0xbad03605; 0xcdd70693;
   0x54de5729; 0x23d967bf; 0xb3667a2e; 0xc4614ab8; 0x5d681b02; 0x2a6f2b94;
   0xb40bbe37; 0xc30c8ea1; 0x5a05df1b; 0x2d02ef8d].

(** The macro DO1: [crc = crc_table[((int)crc ^ ( *buf++)) & 0xff] ^ (crc >> 8)]. *)
Definition DO1 (crc b : Z) : Z :=
  Z.lxor (nth (Z.to_nat (Z.land (Z.lxor crc b) 255)) crc_table 0) (Z.shiftr crc 8).

(** The macro DO8 on a buffer that holds at least eight more bytes. *)
Definition DO8 (crc : Z) (buf : bytes) : Z :=
  foldl DO1 crc (take 8 buf).

(** [while (len >= 8) { DO8(buf); len -= 8; }] *)
Fixpoint crc32_loop8 (n : nat) (crc : Z) (buf : bytes) : Z * bytes :=
  match n with
  | O => (crc, buf)
  | S n' => crc32_loop8 n' (DO8 crc buf) (drop 8 buf)
  end.

Definition crc32 (key : bytes) : Z :=
  let crc := Z.lxor 0 4294967295 in
  let '(crc, buf) := crc32_loop8 (length key / 8)%nat crc key in
  let crc := foldl DO1 crc buf in
  Z.lxor crc 4294967295.

(** * MurmurHash64A *)

Definition murmur_m : Z := 14313749767032793493. (* 0xc6a4a7935bd1e995 *)
Definition murmur_r : Z := 47.

(** The body of the loop over 64-bit words. *)
Definition murmur64_step (h k : Z) : Z :=
  let k := u64 (k * murmur_m) in
  let k := Z.lxor k (Z.shiftr k murmur_r) in
  let k := u64 (k * murmur_m) in
  let h := Z.lxor h k in
  u64 (h * murmur_m).

Fixpoint murmur64_loop (n : nat) (h : Z) (data : bytes) : Z * bytes :=
  match n with
  | O => (h, data)
  | S n' => murmur64_loop n' (murmur64_step h (le_val (take 8 data))) (drop 8 data)
  end.

(** [switch (len & 7)]: case [j] xors byte [j - 1] in and falls through to the
    next lower case; case 1 also multiplies. *)
Definition murmur64_tail (n : nat) (h : Z) (d : bytes) : Z :=
  let case (j : nat) (h : Z) : Z :=
    if decide (j <= n)%nat
    then Z.lxor h (u64 (Z.shiftl (nth (j - 1) d 0) (8 * Z.of_nat (j - 1)))) else h in
  let h := case 7%nat h in
  let h := case 6%nat h in
  let h := case 5%nat h in
  let h := case 4%nat h in
  let h := case 3%nat h in
  let h := case 2%nat h in
  let h := case 1%nat h in
  if decide (1 <= n)%nat then u64 (h * murmur_m) else h.

Definition murmur64 (key : bytes) (seed : Z) : Z :=
  let len := Z.of_nat (length key) in
  let h := Z.lxor seed (u64 (len * murmur_m)) in
  let '(h, data2) := murmur64_loop (length key / 8)%nat h key in
  let h := murmur64_tail (length key mod 8)%nat h data2 in
  let h := Z.lxor h (Z.shiftr h murmur_r) in
  let h := u64 (h * murmur_m) in
  Z.lxor h (Z.shiftr h murmur_r).

(** * leveldb's 32-bit hash *)

Definition hash_m : Z := 3332679571. (* 0xc6a4a793 *)

Fixpoint Hash_loop (n : nat) (h : Z) (data : bytes) : Z * bytes :=
  match n with
  | O => (h, data)
  | S n' =>
      let w := le_val (take 4 data) in
      let h := u32 (h + w) in
      let h := u32 (h * hash_m) in
      let h := Z.lxor h (Z.shiftr h 16) in
      Hash_loop n' h (drop 4 data)
  end.

(** The bytes of the tail are plain [char]s, signed on the target. *)
Definition Hash_tail (n : nat) (h : Z) (d : bytes) : Z :=
  let ch (j : nat) : Z := to_signed 8 (nth j d 0) in
  let h := if decide (3 <= n)%nat then u32 (h + Z.shiftl (ch 2%nat) 16) else h in
  let h := if decide (2 <= n)%nat then u32 (h + Z.shiftl (ch 1%nat) 8) else h in
  if decide (1 <= n)%nat then
    let h := u32 (h + ch 0%nat) in
    let h := u32 (h * hash_m) in
    Z.lxor h (Z.shiftr h 24)
  else h.

Definition Hash (data : bytes) (seed : Z) : Z :=
  let n := Z.of_nat (length data) in
  let h := Z.lxor seed (u32 (n * hash_m)) in
  let '(h, rest) := Hash_loop (length data / 4)%nat h data in
  Hash_tail (length data mod 4)%nat h rest.

(** * Reference definitions *)

(** One step of the bit-serial CRC with a reflected polynomial, and a byte of it. *)
Definition poly_bit (poly x : Z) : Z := Z.lxor (Z.shiftr x 1) (if Z.odd x then poly else 0).
Definition poly_byte (poly crc b : Z) : Z := Nat.iter 8 (poly_bit poly) (Z.lxor crc b).

(** CRC-32 has the polynomial 0xEDB88320. *)
Definition crc_byte : Z -> Z -> Z := poly_byte 3988292384.

(** CRC-32 as it is defined: shift the message through the polynomial. *)
Definition crc32_spec (key : bytes) : Z :=
  Z.lxor (foldl crc_byte 4294967295 key) 4294967295.

(** * The table-driven CRC is the bit-serial one *)

Section poly.
Context (poly : Z).

Lemma poly_bit_lxor x y : poly_bit poly (Z.lxor x y) = Z.lxor (poly_bit poly x) (poly_bit poly y).
Proof.
  unfold poly_bit. rewrite Z.shiftr_lxor.
  rewrite <- !Z.bit0_odd, Z.lxor_spec.
  apply Z.bits_inj'. intros i _. rewrite !Z.lxor_spec.
  destruct (Z.testbit x 0), (Z.testbit y 0); simpl xorb; cbv iota;
    rewrite ?Z.bits_0; set (p := Z.testbit poly i);
    destruct (Z.testbit (Z.shiftr x 1) i), (Z.testbit (Z.shiftr y 1) i), p; reflexivity.
Qed.

Lemma poly_iter_lxor n x y :
  Nat.iter n (poly_bit poly) (Z.lxor x y) = Z.lxor (Nat.iter n (poly_bit poly) x) (Nat.iter n (poly_bit poly) y).
Proof. induction n as [|n IH]; simpl; [done|]. by rewrite IH, poly_bit_lxor. Qed.

Lemma poly_iter_shiftl n y : Nat.iter n (poly_bit poly) (Z.shiftl y (Z.of_nat n)) = y.
Proof.
  induction n as [|n IH]; [apply Z.shiftl_0_r|].
  rewrite Nat.iter_succ_r. transitivity (Nat.iter n (poly_bit poly) (Z.shiftl y (Z.of_nat n))); [|exact IH].
  f_equal. rewrite Nat2Z.inj_succ.
  unfold poly_bit. rewrite <- Z.bit0_odd, Z.shiftl_spec_low by lia. cbv iota.
  rewrite Z.lxor_0_r, Z.shiftr_shiftl_l by lia. by replace (Z.succ (Z.of_nat n) - 1) with (Z.of_nat n) by lia.
Qed.

Lemma split_low_byte x : x = Z.lxor (Z.land x 255) (Z.shiftl (Z.shiftr x 8) 8).
Proof.
  change 255 with (Z.ones 8). rewrite Z.land_ones by lia.
  rewrite lxor_low_high by first [lia | apply Z.mod_pos_bound; lia].
  rewrite Z.shiftr_div_pow2 by lia. pose proof (Z.div_mod x (2 ^ 8) ltac:(lia)). lia.
Qed.

(** One step with a table. *)
Lemma poly_table_step (table : list Z) crc b : byte_ok b ->
  (forall c, 0 <= c < 256 -> nth (Z.to_nat c) table 0 = Nat.iter 8 (poly_bit poly) c) ->
  Z.lxor (nth (Z.to_nat (Z.land (Z.lxor crc b) 255)) table 0) (Z.shiftr crc 8) = poly_byte poly crc b.
Proof.
  intros Hb Ht. unfold poly_byte. rewrite (split_low_byte (Z.lxor crc b)) at 2.
  rewrite poly_iter_lxor. change 8 with (Z.of_nat 8) at 3. rewrite poly_iter_shiftl.
  change 255 with (Z.ones 8). rewrite Z.land_ones, Ht by first [lia | apply Z.mod_pos_bound; lia].
  f_equal. rewrite Z.shiftr_lxor. unfold byte_ok in Hb.
  rewrite (Z.shiftr_div_pow2 b) by lia. rewrite (Z.div_small b) by (simpl; lia).
  by rewrite Z.lxor_0_r.
Qed.

(** A table of 256 entries is checked by computation. *)
Lemma poly_table_ok (table : list Z) n :
  forallb (fun i => nth i table 0 =? Nat.iter n (poly_bit poly) (Z.of_nat i)) (seq 0 256) = true ->
  forall b, 0 <= b < 256 -> nth (Z.to_nat b) table 0 = Nat.iter n (poly_bit poly) b.
Proof.
  intros H b Hb. rewrite forallb_forall in H. specialize (H (Z.to_nat b)).
  rewrite in_seq, Z.eqb_eq in H. rewrite H by lia. by rewrite Z2Nat.id by lia.
Qed.
End poly.

Lemma DO1_crc_byte crc b : byte_ok b -> DO1 crc b = crc_byte crc b.
Proof. intros Hb. by apply poly_table_step, poly_table_ok; [|vm_compute]. Qed.

Lemma crc32_loop8_foldl n crc buf crc' buf' :
  crc32_loop8 n crc buf = (crc', buf') -> foldl DO1 crc' buf' = foldl DO1 crc buf.
Proof.
  revert crc buf. induction n as [|n IH]; intros crc buf; simpl; intros H.
  - by simplify_eq.
  - rewrite (IH _ _ H). unfold DO8. by rewrite <- foldl_app, take_drop.
Qed.

Lemma foldl_crc_byte crc l : bytes_ok l -> foldl DO1 crc l = foldl crc_byte crc l.
Proof.
  intros Hl. revert crc. induction Hl as [|b l Hb _ IH]; intros crc; simpl; [done|].
  by rewrite DO1_crc_byte, IH.
Qed.

(** [crc32], with its lookup table and its eight-fold unrolled loop, computes
    the bit-serial CRC-32 of every message. *)
Theorem crc32_is_bitwise_crc (key : bytes) :
  bytes_ok key -> crc32 key = crc32_spec key.
Proof.
  intros Hk. unfold crc32, crc32_spec.
  destruct (crc32_loop8 _ _ key) as [crc buf] eqn:E.
  rewrite (crc32_loop8_foldl _ _ _ _ _ E). by rewrite foldl_crc_byte.
Qed.

Lemma crc32_is_bitwise_crc_witness :
  bytes_ok (str "123456789") /\ crc32 (str "123456789") = crc32_spec (str "123456789").
Proof. split; [auto with tfs|]. apply crc32_is_bitwise_crc. auto with tfs. Defined.

(** * [murmur64] stays in 64 bits *)

Lemma murmur64_step_range h k : 0 <= murmur64_step h k < 2 ^ 64.
Proof. apply u64_range. Qed.

Lemma murmur64_loop_range n h data h' data' :
  0 <= h < 2 ^ 64 -> murmur64_loop n h data = (h', data') -> 0 <= h' < 2 ^ 64.
Proof.
  revert h data. induction n as [|n IH]; intros h data Hh H; simpl in H.
  - by simplify_eq.
  - eapply IH; [|exact H]. apply murmur64_step_range.
Qed.

(** The hash of a name is a 64-bit value, whatever the name and seed. *)
Lemma murmur64_range key seed : 0 <= murmur64 key seed < 2 ^ 64.
Proof.
  unfold murmur64. destruct (murmur64_loop _ _ _) as [h d].
  apply lxor_self_shiftr_range; [lia|unfold murmur_r; lia|apply u64_range].
Qed.

(** The fall-through [switch] of [murmur64] xors the remaining bytes in as one
    little-endian integer. *)
Lemma murmur64_tail_le n h d :
  length d = n -> (n < 8)%nat -> bytes_ok d ->
  murmur64_tail n h d =
  if decide (n = 0%nat) then h else u64 (Z.lxor h (le_val d) * murmur_m).
Proof.
  intros Hn H8 Hd. subst n.
  assert (forall b i, byte_ok b -> 0 <= i <= 6 ->
            u64 (Z.shiftl b (8 * i)) = Z.shiftl b (8 * i)) as Hsmall.
  { intros b i Hb Hi. apply u64_small. rewrite Z.shiftl_mul_pow2 by lia.
    unfold byte_ok in Hb. assert (2 ^ (8 * i) <= 2 ^ 48) by (apply Z.pow_le_mono_r; lia).
    assert (0 < 2 ^ (8 * i)) by lia. change (2^64) with (256 * (256 * 2^48)). nia. }
  assert (forall b l, byte_ok b -> le_val (b :: l) = Z.lxor b (Z.shiftl (le_val l) 8)) as Hcons.
  { intros b l Hb. rewrite lxor_low_high by (unfold byte_ok in Hb; lia). simpl. lia. }
  unfold murmur64_tail.
  destruct d as [|b0 [|b1 [|b2 [|b3 [|b4 [|b5 [|b6 [|b7 d]]]]]]]]; simpl in H8; try lia;
    repeat match goal with H : _ (_ :: _) |- _ => apply Forall_cons_1 in H as [? H] end;
    simpl length; repeat (case_decide; try lia); try done;
    cbn [nth Nat.sub]; rewrite ?Hsmall by (auto; lia).
  all: f_equal; f_equal.
  all: rewrite !Hcons by done; simpl le_val; rewrite ?Z.shiftl_0_l, ?Z.lxor_0_r;
    rewrite ?Z.shiftl_lxor, ?Z.shiftl_shiftl by lia; simpl; rewrite ?Z.shiftl_0_r.
  all: repeat match goal with |- context [Z.shiftl ?b ?k] =>
         let k' := eval vm_compute in k in
         progress change (Z.shiftl b k) with (Z.shiftl b k') end.
  all: apply Z.bits_inj'; intros i _; rewrite ?Z.lxor_spec;
    repeat match goal with |- context [Z.testbit ?a i] => generalize (Z.testbit a i); intro end.
  all: repeat match goal with b : bool |- _ => destruct b end; reflexivity.
Qed.

(** ** [Hash] stays in 32 bits *)

Lemma Hash_loop_range n h data h' data' :
  0 <= h < 2 ^ 32 -> Hash_loop n h data = (h', data') -> 0 <= h' < 2 ^ 32.
Proof.
  revert h data. induction n as [|n IH]; intros h data Hh H; simpl in H; [by simplify_eq|].
  eapply IH; [|exact H]. apply lxor_self_shiftr_range; [lia|lia|apply u32_range].
Qed.

Lemma Hash_tail_range n h d : 0 <= h < 2 ^ 32 -> 0 <= Hash_tail n h d < 2 ^ 32.
Proof.
  intros Hh. unfold Hash_tail. case_decide as H1.
  - apply lxor_self_shiftr_range; [lia|lia|apply u32_range].
  - rewrite !decide_False by lia. done.
Qed.

Lemma Hash_range data seed : 0 <= seed < 2 ^ 32 -> 0 <= Hash data seed < 2 ^ 32.
Proof.
  intros Hs. unfold Hash. destruct (Hash_loop _ _ _) as [h rest] eqn:E.
  apply Hash_tail_range. eapply Hash_loop_range; [|exact E].
  apply lxor_range; [lia|done|apply u32_range].
Qed.
