(* ===== verification/Coding.v ===== *)
(** Integer and string encodings of leveldb: [src/lib/leveldb/util/coding.cc]
    and [coding.h].

    A [Slice] that a parser advances is the list of bytes still to read; a
    parser returns [None] where the C++ returns NULL or [false]. *)

From S2P Require Import Prelude.

(** * Fixed-width and varint codes *)

Definition EncodeFixed32 (value : Z) : bytes := le_bytes 4 value.
Definition EncodeFixed64 (value : Z) : bytes := le_bytes 8 value.
Definition DecodeFixed32 (ptr : bytes) : Z := le_val (take 4 ptr).
Definition DecodeFixed64 (ptr : bytes) : Z := le_val (take 8 ptr).
Definition PutFixed32 (dst : bytes) (value : Z) : bytes := dst ++ EncodeFixed32 value.
Definition PutFixed64 (dst : bytes) (value : Z) : bytes := dst ++ EncodeFixed64 value.

(** [*(ptr++) = x] through an [unsigned char *]. *)
Definition EncodeVarint32 (v : Z) : bytes :=
  let B := 128 in
  if v <? Z.shiftl 1 7 then [u8 v]
  else if v <? Z.shiftl 1 14 then [u8 (Z.lor v B); u8 (Z.shiftr v 7)]
  else if v <? Z.shiftl 1 21 then
    [u8 (Z.lor v B); u8 (Z.lor (Z.shiftr v 7) B); u8 (Z.shiftr v 14)]
  else if v <? Z.shiftl 1 28 then
    [u8 (Z.lor v B); u8 (Z.lor (Z.shiftr v 7) B); u8 (Z.lor (Z.shiftr v 14) B);
     u8 (Z.shiftr v 21)]
  else
    [u8 (Z.lor v B); u8 (Z.lor (Z.shiftr v 7) B); u8 (Z.lor (Z.shiftr v 14) B);
     u8 (Z.lor (Z.shiftr v 21) B); u8 (Z.shiftr v 28)].

Definition PutVarint32 (dst : bytes) (v : Z) : bytes := dst ++ EncodeVarint32 v.

(** The loop of [EncodeVarint64]; ten rounds are enough for 64 bits. *)
Fixpoint EncodeVarint64_loop (fuel : nat) (v : Z) : bytes :=
  match fuel with
  | O => []
  | S fuel' =>
      if v >=? 128
      then Z.lor (Z.land v 127) 128 :: EncodeVarint64_loop fuel' (Z.shiftr v 7)
      else [u8 v]
  end.

Definition EncodeVarint64 (v : Z) : bytes := EncodeVarint64_loop 10 v.
Definition PutVarint64 (dst : bytes) (v : Z) : bytes := dst ++ EncodeVarint64 v.

Fixpoint VarintLength_loop (fuel : nat) (v : Z) (len : Z) : Z :=
  match fuel with
  | O => len
  | S fuel' => if v >=? 128 then VarintLength_loop fuel' (Z.shiftr v 7) (len + 1) else len
  end.

Definition VarintLength (v : Z) : Z := VarintLength_loop 10 v 1.

(** The loop shared by [GetVarint32PtrFallback] ([w = 32], shifts 0, 7, .., 28)
    and [GetVarint64Ptr] ([w = 64], shifts 0, 7, .., 63): [n] rounds are left. *)
Fixpoint GetVarint_loop (w : Z) (n : nat) (shift result : Z) (p : bytes)
    : option (Z * bytes) :=
  match n, p with
  | S n', byte :: p' =>
      if negb (Z.land byte 128 =? 0)
      then GetVarint_loop w n' (shift + 7)
             (Z.lor result (Z.shiftl (Z.land byte 127) shift mod 2 ^ w)) p'
      else Some (Z.lor result (Z.shiftl byte shift mod 2 ^ w), p')
  | _, _ => None
  end.

Definition GetVarint32PtrFallback (p : bytes) : option (Z * bytes) :=
  GetVarint_loop 32 5 0 0 p.

Definition GetVarint32Ptr (p : bytes) : option (Z * bytes) :=
  match p with
  | result :: p' =>
      if Z.land result 128 =? 0 then Some (result, p') else GetVarint32PtrFallback p
  | [] => GetVarint32PtrFallback p
  end.

Definition GetVarint32 (input : bytes) : option (Z * bytes) := GetVarint32Ptr input.

Definition GetVarint64Ptr (p : bytes) : option (Z * bytes) := GetVarint_loop 64 10 0 0 p.

Definition GetVarint64 (input : bytes) : option (Z * bytes) := GetVarint64Ptr input.

(** [value.size()] is narrowed to the [uint32_t] parameter. *)
Definition PutLengthPrefixedSlice (dst value : bytes) : bytes :=
  PutVarint32 dst (u32 (Z.of_nat (length value))) ++ value.

Definition GetLengthPrefixedSlice (input : bytes) : option (bytes * bytes) :=
  match GetVarint32 input with
  | Some (len, input') =>
      if Z.of_nat (length input') >=? len
      then Some (take (Z.to_nat len) input', drop (Z.to_nat len) input')
      else None
  | None => None
  end.

(** * Properties of the codes *)

Lemma low7 v : Z.land v 127 = v mod 128.
Proof. change 127 with (Z.ones 7). by apply Z.land_ones. Qed.

Lemma lor_128 v : 0 <= v -> u8 (Z.lor v 128) = Z.lor (Z.land v 127) 128.
Proof.
  intros Hv. unfold u8. change 128 with (Z.shiftl 1 7). change 127 with (Z.ones 7).
  rewrite <- Z.land_ones, Z.land_lor_distr_l by lia. change (Z.land (Z.shiftl 1 7) (Z.ones 8)) with (Z.shiftl 1 7).
  apply Z.bits_inj'. intros i Hi. rewrite !Z.lor_spec, !Z.land_spec.
  destruct (Z.ltb_spec i 7).
  - by rewrite !Z.ones_spec_low by lia.
  - destruct (Z.eq_dec i 7) as [->|]; [simpl; by rewrite !orb_true_r|].
    by rewrite !Z.ones_spec_high by lia.
Qed.

Lemma shiftr_lt v k n : 0 <= k -> 0 <= v < 2 ^ (n + k) -> 0 <= n -> 0 <= Z.shiftr v k < 2 ^ n.
Proof.
  intros Hk Hv Hn. rewrite Z.shiftr_div_pow2 by done. rewrite Z.pow_add_r in Hv by done.
  split; [apply Z.div_pos; lia|]. apply Z.div_lt_upper_bound; lia.
Qed.

(** [EncodeVarint32] is the loop of [EncodeVarint64] unrolled. *)
Lemma EncodeVarint32_loop v :
  0 <= v < 2 ^ 32 -> EncodeVarint32 v = EncodeVarint64_loop 5 v.
Proof.
  intros Hv.
  assert (forall k, 0 <= k -> 0 <= Z.shiftr v k) as Hpos
    by (intros; apply Z.shiftr_nonneg; lia).
  assert (forall k, 0 <= k -> (Z.shiftr v k >=? 128) = (2 ^ (7 + k) <=? v)) as Hge.
  { intros k Hk. rewrite Z.geb_leb, Z.shiftr_div_pow2, Z.pow_add_r by lia.
    apply eq_iff_eq_true. rewrite !Z.leb_le. change (2 ^ 7) with 128.
    assert (0 < 2 ^ k) by lia. split; intros.
    - pose proof (Z.mul_div_le v (2 ^ k)). nia.
    - apply Z.div_le_lower_bound; lia. }
  pose proof (Hge 0) as H0. rewrite Z.shiftr_0_r in H0.
  unfold EncodeVarint32. cbn [EncodeVarint64_loop].
  rewrite !Z.shiftr_shiftr by lia. simpl (7 + _).
  rewrite H0, !Hge by (auto; lia). rewrite !Z.shiftl_1_l.
  split_tests; rewrite <- ?lor_128 by first [lia | apply Hpos; lia]; done.
Qed.

Lemma low7_high v : v = Z.lor (Z.land v 127) (Z.shiftl (Z.shiftr v 7) 7).
Proof.
  apply Z.bits_inj'. intros i Hi. rewrite Z.lor_spec, Z.land_spec.
  change 127 with (Z.ones 7). destruct (Z.ltb_spec i 7).
  - rewrite Z.ones_spec_low, Z.shiftl_spec_low by lia.
    by rewrite andb_true_r, orb_false_r.
  - rewrite Z.ones_spec_high, Z.shiftl_spec, Z.shiftr_spec by lia.
    rewrite andb_false_r. simpl. f_equal. lia.
Qed.

(** The continuation bit of a byte and its seven payload bits. *)
Lemma land_lor_128_r a : Z.land (Z.lor a 128) 128 = 128.
Proof.
  apply Z.bits_inj'. intros i _. rewrite Z.land_spec, Z.lor_spec.
  by destruct (Z.testbit a i), (Z.testbit 128 i).
Qed.

Lemma land_lor_128_l a : 0 <= a < 2 ^ 7 -> Z.land (Z.lor a 128) 127 = a.
Proof.
  intros Ha. rewrite Z.land_lor_distr_l. change (Z.land 128 127) with 0.
  rewrite Z.lor_0_r, low7. apply Z.mod_small. lia.
Qed.

Lemma land_128_small a : 0 <= a < 2 ^ 7 -> Z.land a 128 = 0.
Proof.
  intros Ha. apply Z.bits_inj'. intros i Hi. rewrite Z.land_spec, Z.bits_0.
  change 128 with (2 ^ 7). destruct (Z.eq_dec i 7) as [->|].
  - by rewrite (bits_above 7 a).
  - by rewrite Z.pow2_bits_false, andb_false_r by lia.
Qed.

(** The decoding loop undoes the encoding loop. *)
Lemma GetVarint_loop_encode w fuel n v shift r rest :
  0 <= shift -> 0 <= v < 2 ^ (7 * Z.of_nat fuel) -> (fuel <= n)%nat ->
  0 <= w -> Z.shiftl v shift < 2 ^ w ->
  GetVarint_loop w n shift r (EncodeVarint64_loop fuel v ++ rest) =
  if decide (fuel = 0%nat) then GetVarint_loop w n shift r rest
  else Some (Z.lor r (Z.shiftl v shift), rest).
Proof.
  revert n v shift r. induction fuel as [|fuel IH]; intros n v shift r Hs Hv Hn Hw Hb;
    [by rewrite decide_True by done|]. rewrite decide_False by done.
  destruct n as [|n]; [lia|]. cbn [EncodeVarint64_loop].
  assert (forall x, 0 <= x <= v -> Z.shiftl x shift mod 2 ^ w = Z.shiftl x shift) as Hmod.
  { intros x Hx. apply Z.mod_small. rewrite Z.shiftl_mul_pow2 in * by done.
    assert (0 < 2 ^ shift) by lia. nia. }
  rewrite Z.geb_leb. destruct (Z.leb_spec 128 v) as [Hge|Hlt].
  - cbn [app GetVarint_loop].
    rewrite low7. pose proof (Z.mod_pos_bound v 128 ltac:(lia)).
    assert (0 <= v mod 128 < 2 ^ 7) as Hlow by lia.
    rewrite land_lor_128_r, (land_lor_128_l _ Hlow).
    simpl negb. cbv iota.
    assert (0 < fuel)%nat. { destruct fuel; [simpl in Hv; lia|lia]. }
    rewrite IH; [| lia | | lia | lia |].
    + rewrite decide_False by lia. f_equal. f_equal.
      rewrite Hmod by (split; [lia|apply Z.mod_le; lia]).
      rewrite <- Z.lor_assoc. f_equal. rewrite <- low7.
      rewrite (Z.add_comm shift 7), <- (Z.shiftl_shiftl _ 7 shift) by lia.
      rewrite <- Z.shiftl_lor. f_equal. symmetry. apply low7_high.
    + apply shiftr_lt; [lia| |lia]. split; [lia|].
      replace (7 * Z.of_nat fuel + 7) with (7 * Z.of_nat (S fuel)) by lia. lia.
    + rewrite Z.shiftr_div_pow2, !Z.shiftl_mul_pow2 in * by lia.
      rewrite Z.pow_add_r by lia. pose proof (Z.mul_div_le v (2 ^ 7) ltac:(lia)).
      assert (0 < 2 ^ shift) by lia. nia.
  - cbn [app GetVarint_loop].
    unfold u8. rewrite (Z.mod_small v) by lia. rewrite land_128_small by lia.
    simpl. rewrite Hmod by lia. done.
Qed.

Lemma GetVarint32Ptr_fallback p : bytes_ok p -> GetVarint32Ptr p = GetVarint32PtrFallback p.
Proof.
  intros Hp. destruct p as [|b p]; [done|]. simpl. apply Forall_cons_1 in Hp as [Hb _].
  destruct (Z.eqb_spec (Z.land b 128) 0) as [E|E]; [|done].
  unfold GetVarint32PtrFallback. simpl. rewrite E. simpl.
  rewrite Z.shiftl_0_r, Z.mod_small; [done|]. unfold byte_ok in Hb. lia.
Qed.

Lemma EncodeVarint64_loop_ok fuel v : 0 <= v -> bytes_ok (EncodeVarint64_loop fuel v).
Proof.
  revert v. induction fuel as [|fuel IH]; intros v Hv; simpl; [constructor|].
  case_bool; constructor.
  - rewrite <- lor_128 by done. apply u8_range.
  - apply IH. apply Z.shiftr_nonneg. lia.
  - apply u8_range.
  - constructor.
Qed.

Lemma GetVarint32_encode (v : Z) (rest : bytes) :
  0 <= v < 2 ^ 32 -> bytes_ok rest -> GetVarint32 (EncodeVarint32 v ++ rest) = Some (v, rest).
Proof.
  intros Hv Hr. unfold GetVarint32. rewrite EncodeVarint32_loop by done.
  rewrite GetVarint32Ptr_fallback
    by (apply bytes_ok_app; split; [apply EncodeVarint64_loop_ok; lia|done]).
  unfold GetVarint32PtrFallback. rewrite GetVarint_loop_encode; try lia.
  - simpl. by rewrite Z.shiftl_0_r.
  - rewrite Z.shiftl_0_r. lia.
Qed.

Lemma GetVarint64_encode (v : Z) (rest : bytes) :
  0 <= v < 2 ^ 64 -> GetVarint64 (EncodeVarint64 v ++ rest) = Some (v, rest).
Proof.
  intros Hv. unfold GetVarint64, GetVarint64Ptr, EncodeVarint64.
  rewrite GetVarint_loop_encode; try lia.
  - simpl. by rewrite Z.shiftl_0_r.
  - rewrite Z.shiftl_0_r. lia.
Qed.

Lemma length_EncodeVarint64_loop fuel v len :
  0 <= v < 2 ^ (7 * Z.of_nat fuel) -> (0 < fuel)%nat ->
  VarintLength_loop fuel v len = len + Z.of_nat (length (EncodeVarint64_loop fuel v)) - 1.
Proof.
  revert v len. induction fuel as [|fuel IH]; intros v len Hv Hf; [lia|].
  cbn [VarintLength_loop EncodeVarint64_loop]. rewrite Z.geb_leb.
  destruct (Z.leb_spec 128 v); [|simpl; lia].
  assert (0 < fuel)%nat. { destruct fuel; [simpl in Hv; lia|lia]. }
  rewrite IH; [simpl length; lia| |done].
  apply shiftr_lt; [lia| |lia].
  replace (7 * Z.of_nat fuel + 7) with (7 * Z.of_nat (S fuel)) by lia. lia.
Qed.

(** [VarintLength] is the length of the code, and ten rounds always suffice. *)
Lemma VarintLength_correct v :
  0 <= v < 2 ^ 64 -> VarintLength v = Z.of_nat (length (EncodeVarint64 v)).
Proof.
  intros Hv. unfold VarintLength, EncodeVarint64.
  rewrite length_EncodeVarint64_loop; [lia|lia|lia].
Qed.

Lemma EncodeVarint32_ok v : 0 <= v < 2 ^ 32 -> bytes_ok (EncodeVarint32 v).
Proof. intros. rewrite EncodeVarint32_loop by done. apply EncodeVarint64_loop_ok. lia. Qed.

Lemma length_prefixed_roundtrip value rest :
  Z.of_nat (length value) < 2 ^ 32 -> bytes_ok value -> bytes_ok rest ->
  GetLengthPrefixedSlice (PutLengthPrefixedSlice [] value ++ rest) = Some (value, rest).
Proof.
  intros Hl Hv Hr. unfold GetLengthPrefixedSlice, PutLengthPrefixedSlice.
  rewrite u32_small by lia.
  unfold PutVarint32. rewrite app_nil_l, <- app_assoc.
  rewrite GetVarint32_encode by first [lia | apply bytes_ok_app; auto].
  rewrite Z.geb_leb. destruct (Z.leb_spec (Z.of_nat (length value)) (Z.of_nat (length (value ++ rest)))) as [H|H];
    [|rewrite length_app in H; lia].
  rewrite Nat2Z.id, take_app_length, drop_app_length. done.
Qed.
