(* ===== verification/Log.v ===== *)
(** The log of LevelDB: [src/lib/leveldb/db/log_format.h], [log_writer.cc],
    [log_reader.cc].

    A record is cut into physical records that do not cross blocks of 32768 bytes;
    each has a checksum, a length and a type. Calls on the files below may fail: a
    file carries the outcomes of the calls to come, and succeeds when there are none
    left. The checksum does not depend on where the bytes lie ([Crc32c]), so the
    addresses are left out. *)

From S2P Require Import Prelude Coding Hashes Crc32c.

Set Default Proof Using "Type".

(** ** The format *)

Definition kZeroType : Z := 0.
Definition kFullType : Z := 1.
Definition kFirstType : Z := 2.
Definition kMiddleType : Z := 3.
Definition kLastType : Z := 4.
Definition kMaxRecordType : Z := kLastType.

Definition kBlockSize : Z := 32768.
Definition kHeaderSize : Z := 4 + 1 + 2.

(** ** The writer *)

(** A [WritableFile]: what was appended, and which of the calls to come fail. *)
Record wfile : Type := mkWfile { wf_contents : bytes; wf_fails : list bool }.

Record Writer : Type := mkWriter { dest_ : wfile; block_offset_ : Z }.
Abbreviation writer_prog := (prog Writer).

Definition Writer_new (f : wfile) : Writer := mkWriter f 0.

(** [type_crc_[t]] *)
Definition type_crc (t : Z) : Z := Value 0 [t].

(** [Append] and [Flush]; the result is [ok ()]. *)
Definition wf_Append (data : bytes) : writer_prog bool := fun w =>
  let '(mkWfile c fs) := dest_ w in
  match fs with
  | true :: fs' => Ret false (mkWriter (mkWfile c fs') (block_offset_ w))
  | _ => Ret true (mkWriter (mkWfile (c ++ data) (tail fs)) (block_offset_ w))
  end.

Definition wf_Flush : writer_prog bool := fun w =>
  let '(mkWfile c fs) := dest_ w in
  Ret (negb (default false (head fs))) (mkWriter (mkWfile c (tail fs)) (block_offset_ w)).

Definition set_block_offset (x : Z) : writer_prog unit := modify (fun w => mkWriter (dest_ w) x).

Definition EmitPhysicalRecord (t : Z) (ptr : bytes) : writer_prog bool :=
  let n := Z.of_nat (length ptr) in
  assert_ (n <=? 65535) ;;;
  w <- get_state ;;
  assert_ (block_offset_ w + kHeaderSize + n <=? kBlockSize) ;;;
  let crc := Extend 0 (type_crc t) ptr in
  let crc := Mask crc in
  let buf := EncodeFixed32 crc ++ [Z.land n 255; u8 (Z.shiftr n 8); t] in
  s <- wf_Append buf ;;
  s <- (if (s : bool) then s <- wf_Append ptr ;; if (s : bool) then wf_Flush else ret s else ret s) ;;
  w <- get_state ;;
  set_block_offset (block_offset_ w + kHeaderSize + n) ;;;
  ret s.

(** The type of a fragment. *)
Definition fragment_type (begin end_ : bool) : Z :=
  if begin && end_ then kFullType
  else if begin then kFirstType
  else if end_ then kLastType
  else kMiddleType.

(** The loop of [AddRecord]. A round that takes nothing starts a new block, so there
    are at most two more rounds than bytes. *)
Fixpoint add_loop (fuel : nat) (begin : bool) (ptr : bytes) : writer_prog bool :=
  match fuel with
  | O => undefined Unfinished
  | S fuel' =>
      w <- get_state ;;
      let leftover := kBlockSize - block_offset_ w in
      assert_ (leftover >=? 0) ;;;
      (if leftover <? kHeaderSize then
         (if leftover >? 0 then wf_Append (replicate (Z.to_nat leftover) 0) ;;; ret tt else ret tt) ;;;
         set_block_offset 0
       else ret tt) ;;;
      w <- get_state ;;
      assert_ (kBlockSize - block_offset_ w - kHeaderSize >=? 0) ;;;
      let left := Z.of_nat (length ptr) in
      let avail := kBlockSize - block_offset_ w - kHeaderSize in
      let fragment_length := if left <? avail then left else avail in
      let end_ := left =? fragment_length in
      let type := fragment_type begin end_ in
      s <- EmitPhysicalRecord type (take (Z.to_nat fragment_length) ptr) ;;
      let ptr := drop (Z.to_nat fragment_length) ptr in
      if s && (0 <? Z.of_nat (length ptr)) then add_loop fuel' false ptr else ret s
  end.

Definition AddRecord (slice : bytes) : writer_prog bool := add_loop (length slice + 2) true slice.

(** ** The reader *)

(** A [SequentialFile]: what is not read yet, and the calls to come: [Some k] is a
    failure after [k] bytes. *)
Record rfile : Type := mkRfile { rf_rest : bytes; rf_fails : list (option nat) }.

Record Reader : Type := mkReader {
  file_ : rfile;
  has_reporter : bool;
  checksum_ : bool;
  buffer_ : bytes;
  eof_ : bool;
  last_record_offset_ : Z;
  end_of_buffer_offset_ : Z;
  initial_offset_ : Z;
  reports : list Z           (* the sizes given to [reporter_->Corruption] *)
}.
Abbreviation reader_prog := (prog Reader).

Definition Reader_new (f : rfile) (reporter checksum : bool) (initial_offset : Z) : Reader :=
  mkReader f reporter checksum [] false 0 0 initial_offset [].

Definition kEof : Z := kMaxRecordType + 1.
Definition kBadRecord : Z := kMaxRecordType + 2.

Definition put_file (f : rfile) (r : Reader) : Reader :=
  mkReader f (has_reporter r) (checksum_ r) (buffer_ r) (eof_ r) (last_record_offset_ r) (end_of_buffer_offset_ r)
    (initial_offset_ r) (reports r).
Definition put_buffer (b : bytes) (r : Reader) : Reader :=
  mkReader (file_ r) (has_reporter r) (checksum_ r) b (eof_ r) (last_record_offset_ r) (end_of_buffer_offset_ r)
    (initial_offset_ r) (reports r).
Definition put_eof (e : bool) (r : Reader) : Reader :=
  mkReader (file_ r) (has_reporter r) (checksum_ r) (buffer_ r) e (last_record_offset_ r) (end_of_buffer_offset_ r)
    (initial_offset_ r) (reports r).
Definition put_last (x : Z) (r : Reader) : Reader :=
  mkReader (file_ r) (has_reporter r) (checksum_ r) (buffer_ r) (eof_ r) x (end_of_buffer_offset_ r)
    (initial_offset_ r) (reports r).
Definition put_end (x : Z) (r : Reader) : Reader :=
  mkReader (file_ r) (has_reporter r) (checksum_ r) (buffer_ r) (eof_ r) (last_record_offset_ r) x
    (initial_offset_ r) (reports r).
Definition put_report (n : Z) (r : Reader) : Reader :=
  mkReader (file_ r) (has_reporter r) (checksum_ r) (buffer_ r) (eof_ r) (last_record_offset_ r) (end_of_buffer_offset_ r)
    (initial_offset_ r) (reports r ++ [n]).

Definition buffer_size (r : Reader) : Z := Z.of_nat (length (buffer_ r)).

(** [file_->Read (n, &buffer_, ..)]; the result is [status.ok ()]. *)
Definition rf_Read (n : Z) : reader_prog bool := fun r =>
  let '(mkRfile l fs) := file_ r in
  match fs with
  | Some k :: fs' =>
      let k := Nat.min k (Z.to_nat n) in
      Ret false (put_buffer (take k l) (put_file (mkRfile (drop k l) fs') r))
  | _ => Ret true (put_buffer (take (Z.to_nat n) l) (put_file (mkRfile (drop (Z.to_nat n) l) (tail fs)) r))
  end.

(** [file_->Skip (n)] *)
Definition rf_Skip (n : Z) : reader_prog bool := fun r =>
  let '(mkRfile l fs) := file_ r in
  match fs with
  | Some _ :: fs' => Ret false (put_file (mkRfile l fs') r)
  | _ => Ret true (put_file (mkRfile (drop (Z.to_nat n) l) (tail fs)) r)
  end.

Definition ReportDrop (bytes : Z) : reader_prog unit :=
  r <- get_state ;;
  if has_reporter r && (u64 (end_of_buffer_offset_ r - buffer_size r - bytes) >=? initial_offset_ r)
  then modify (put_report bytes) else ret tt.

Definition ReportCorruption (bytes : Z) : reader_prog unit := ReportDrop bytes.

Definition SkipToInitialBlock : reader_prog bool :=
  r <- get_state ;;
  let offset_in_block := initial_offset_ r mod kBlockSize in
  let block_start_location := initial_offset_ r - offset_in_block in
  let block_start_location :=
    if offset_in_block >? kBlockSize - 6 then u64 (block_start_location + kBlockSize) else block_start_location in
  modify (put_end block_start_location) ;;;
  if block_start_location >? 0 then
    ok <- rf_Skip block_start_location ;;
    if (ok : bool) then ret true else ReportDrop block_start_location ;;; ret false
  else ret true.

(** [unsigned int type = header[6]] of a signed [char] *)
Definition char_to_uint (b : Z) : Z := u32 (if b >=? 128 then b - 256 else b).

(** The body of [ReadPhysicalRecord] when the buffer has a header: the type and the
    fragment. *)
Definition parse_record : reader_prog (Z * bytes) :=
  r <- get_state ;;
  let header := buffer_ r in
  let a := Z.land (nth 4 header 0) 255 in
  let b := Z.land (nth 5 header 0) 255 in
  let type := char_to_uint (nth 6 header 0) in
  let length_ := Z.lor a (Z.shiftl b 8) in
  if kHeaderSize + length_ >? buffer_size r then
    let drop_size := buffer_size r in
    modify (put_buffer []) ;;;
    ReportCorruption drop_size ;;;
    ret (kBadRecord, [])
  else if (type =? kZeroType) && (length_ =? 0) then
    modify (put_buffer []) ;;;
    ret (kBadRecord, [])
  else if checksum_ r &&
          negb (Value 0 (take (Z.to_nat (1 + length_)) (drop 6 header)) =? Unmask (DecodeFixed32 (take 4 header))) then
    let drop_size := buffer_size r in
    modify (put_buffer []) ;;;
    ReportCorruption drop_size ;;;
    ret (kBadRecord, [])
  else
    modify (put_buffer (drop (Z.to_nat (kHeaderSize + length_)) header)) ;;;
    r <- get_state ;;
    if u64 (end_of_buffer_offset_ r - buffer_size r - kHeaderSize - length_) <? initial_offset_ r
    then ret (kBadRecord, [])
    else ret (type, take (Z.to_nat length_) (drop (Z.to_nat kHeaderSize) header)).

(** The loop goes round once more after it has read a block. *)
Fixpoint read_physical (fuel : nat) : reader_prog (Z * bytes) :=
  match fuel with
  | O => undefined Unfinished
  | S fuel' =>
      r <- get_state ;;
      if buffer_size r <? kHeaderSize then
        if negb (eof_ r) then
          modify (put_buffer []) ;;;
          ok <- rf_Read kBlockSize ;;
          modify (fun r => put_end (u64 (end_of_buffer_offset_ r + buffer_size r)) r) ;;;
          if negb ok then
            modify (put_buffer []) ;;;
            ReportDrop kBlockSize ;;;
            modify (put_eof true) ;;;
            ret (kEof, [])
          else
            modify (fun r => if buffer_size r <? kBlockSize then put_eof true r else r) ;;;
            read_physical fuel'
        else if buffer_size r =? 0 then ret (kEof, [])
        else
          let drop_size := buffer_size r in
          modify (put_buffer []) ;;;
          ReportCorruption drop_size ;;;
          ret (kEof, [])
      else parse_record
  end.

Definition ReadPhysicalRecord : reader_prog (Z * bytes) := read_physical 2.

(** The loop of [ReadRecord]; [None] is the result [false]. A physical record that is
    not the end takes a byte at least. *)
Fixpoint read_record (fuel : nat) (in_fragmented_record : bool) (scratch : bytes) (prospective_record_offset : Z) :
    reader_prog (option bytes) :=
  match fuel with
  | O => undefined Unfinished
  | S fuel' =>
      r <- get_state ;;
      let physical_record_offset := u64 (end_of_buffer_offset_ r - buffer_size r) in
      let size := Z.of_nat (length scratch) in
      let again := read_record fuel' in
      ' (record_type, fragment) <- ReadPhysicalRecord ;;
      if record_type =? kFullType then
        (if in_fragmented_record && negb (size =? 0) then ReportCorruption size else ret tt) ;;;
        modify (put_last physical_record_offset) ;;;
        ret (Some fragment)
      else if record_type =? kFirstType then
        (if in_fragmented_record && negb (size =? 0) then ReportCorruption size else ret tt) ;;;
        again true fragment physical_record_offset
      else if record_type =? kMiddleType then
        if negb in_fragmented_record then
          ReportCorruption (Z.of_nat (length fragment)) ;;;
          again in_fragmented_record scratch prospective_record_offset
        else again in_fragmented_record (scratch ++ fragment) prospective_record_offset
      else if record_type =? kLastType then
        if negb in_fragmented_record then
          ReportCorruption (Z.of_nat (length fragment)) ;;;
          again in_fragmented_record scratch prospective_record_offset
        else
          modify (put_last prospective_record_offset) ;;;
          ret (Some (scratch ++ fragment))
      else if record_type =? kEof then
        (if in_fragmented_record then ReportCorruption size else ret tt) ;;;
        ret None
      else if record_type =? kBadRecord then
        if in_fragmented_record then ReportCorruption size ;;; again false [] prospective_record_offset
        else again in_fragmented_record scratch prospective_record_offset
      else
        ReportCorruption (Z.of_nat (length fragment) + (if in_fragmented_record then size else 0)) ;;;
        again false [] prospective_record_offset
  end.

Definition ReadRecord : reader_prog (option bytes) :=
  r <- get_state ;;
  ok <- (if last_record_offset_ r <? initial_offset_ r then SkipToInitialBlock else ret true) ;;
  if negb ok then ret None else
  r <- get_state ;;
  read_record (length (buffer_ r) + length (rf_rest (file_ r)) + 1) false [] 0.

Definition LastRecordOffset : reader_prog Z := gets last_record_offset_.

(** * What the writer writes *)

(** A physical record. *)
Definition physical (t : Z) (ptr : bytes) : bytes :=
  let n := Z.of_nat (length ptr) in
  EncodeFixed32 (Mask (Extend 0 (type_crc t) ptr)) ++ [Z.land n 255; u8 (Z.shiftr n 8); t] ++ ptr.

Definition leftover (off : Z) : Z := kBlockSize - off.

(** Too little is left of the block for a header: zeros fill it, and the next block
    starts. *)
Definition filler (off : Z) : bytes := if leftover off <? kHeaderSize then replicate (Z.to_nat (leftover off)) 0 else [].
Definition aligned (off : Z) : Z := if leftover off <? kHeaderSize then 0 else off.
Definition avail (off : Z) : Z := leftover (aligned off) - kHeaderSize.

(** The bytes a record becomes when the block is filled up to [off], and how far it
    is filled then. *)
Inductive written : bool -> Z -> bytes -> bytes -> Z -> Prop :=
| written_end begin off ptr :
    Z.of_nat (length ptr) <= avail off ->
    written begin off ptr (filler off ++ physical (fragment_type begin true) ptr)
      (aligned off + kHeaderSize + Z.of_nat (length ptr))
| written_more begin off ptr out off' :
    avail off < Z.of_nat (length ptr) ->
    written false kBlockSize (drop (Z.to_nat (avail off)) ptr) out off' ->
    written begin off ptr
      (filler off ++ physical (fragment_type begin false) (take (Z.to_nat (avail off)) ptr) ++ out) off'.

Definition off_ok (off : Z) : Prop := 0 <= off <= kBlockSize.

Ltac block_lia := unfold off_ok, avail, leftover, aligned, filler, kHeaderSize, kBlockSize in *; lia.

Lemma aligned_ok off : off_ok off -> 0 <= aligned off <= kBlockSize - kHeaderSize.
Proof. unfold aligned. intros H. case_bool; bool_to_prop; block_lia. Qed.

Lemma avail_ok off : off_ok off -> 0 <= avail off <= 32761 /\ aligned off + kHeaderSize + avail off = kBlockSize.
Proof. intros H. pose proof (aligned_ok off H). unfold avail, leftover, kHeaderSize, kBlockSize in *. lia. Qed.

Lemma length_physical t ptr : length (physical t ptr) = (7 + length ptr)%nat.
Proof. unfold physical, EncodeFixed32. rewrite !length_app, length_le_bytes. cbn [length]. lia. Qed.

(** One round of [AddRecord] up to the next fragment. *)
Lemma Emit_run t ptr c off : off_ok off -> Z.of_nat (length ptr) + kHeaderSize + off <= kBlockSize ->
  EmitPhysicalRecord t ptr (mkWriter (mkWfile c []) off) =
    Ret true (mkWriter (mkWfile (c ++ physical t ptr) []) (off + kHeaderSize + Z.of_nat (length ptr))).
Proof.
  intros Ho Hl. unfold EmitPhysicalRecord, assert_. 
  rewrite (proj2 (Z.leb_le (Z.of_nat (length ptr)) 65535)) by block_lia. rewrite bind_ret.
  erewrite bind_Ret by reflexivity. cbn [block_offset_].
  rewrite (proj2 (Z.leb_le (off + kHeaderSize + Z.of_nat (length ptr)) kBlockSize)) by lia. rewrite bind_ret.
  unfold bind, wf_Append, wf_Flush, get_state, set_block_offset, modify, ret. cbn [dest_ wf_contents wf_fails tail negb default head].
  cbn. unfold physical. by rewrite <- !app_assoc.
Qed.

Lemma fill_run c off : off_ok off ->
  (if leftover off <? kHeaderSize then
     (if leftover off >? 0 then wf_Append (replicate (Z.to_nat (leftover off)) 0) ;;; ret tt else ret tt) ;;;
     set_block_offset 0
   else ret tt) (mkWriter (mkWfile c []) off) = Ret tt (mkWriter (mkWfile (c ++ filler off) []) (aligned off)).
Proof.
  intros Ho. unfold filler, aligned. destruct (leftover off <? kHeaderSize); [|by rewrite app_nil_r].
  destruct (leftover off >? 0) eqn:E; [done|]. rewrite Z.gtb_ltb in E. apply Z.ltb_ge in E.
  replace (Z.to_nat (leftover off)) with 0%nat by lia. by rewrite app_nil_r.
Qed.

(** The rounds a record takes. *)
Definition rounds (off : Z) (ptr : bytes) : nat := (length ptr + if (avail off =? 0)%Z then 2 else 1)%nat.

Lemma add_loop_round fuel begin off ptr c : off_ok off ->
  add_loop (Datatypes.S fuel) begin ptr (mkWriter (mkWfile c []) off) =
    let n := Z.to_nat (Z.min (Z.of_nat (length ptr)) (avail off)) in
    let w := mkWriter (mkWfile (c ++ filler off ++ physical (fragment_type begin (Z.of_nat (length ptr) <=? avail off)) (take n ptr)) [])
               (aligned off + kHeaderSize + Z.of_nat n) in
    if Z.of_nat (length ptr) <=? avail off then Ret true w else add_loop fuel false (drop n ptr) w.
Proof.
  intros Ho. pose proof (avail_ok off Ho) as [Ha Hb]. pose proof (aligned_ok off Ho) as Hal.
  cbn [add_loop]. erewrite bind_Ret by reflexivity. cbn [block_offset_]. cbv zeta. unfold assert_ at 1.
  rewrite Z.geb_leb, (proj2 (Z.leb_le 0 _)) by block_lia. rewrite bind_ret.
  erewrite bind_Ret by (by apply fill_run). erewrite bind_Ret by reflexivity. cbn [block_offset_].
  unfold assert_. rewrite Z.geb_leb, (proj2 (Z.leb_le 0 _)) by block_lia. rewrite bind_ret.
  change (kBlockSize - aligned off - kHeaderSize) with (avail off).
  set (n := Z.of_nat (length ptr)). assert (Hn : 0 <= n) by lia.
  replace (if n <? avail off then n else avail off) with (Z.min n (avail off)) by (case_bool; bool_to_prop; lia).
  replace (n =? Z.min n (avail off)) with (n <=? avail off) by (apply eq_true_iff_eq; rewrite Z.leb_le, Z.eqb_eq; lia).
  assert (Hlen : length (take (Z.to_nat (Z.min n (avail off))) ptr) = Z.to_nat (Z.min n (avail off)))
    by (rewrite length_take; unfold n; lia).
  erewrite bind_Ret by (apply Emit_run; [block_lia|rewrite Hlen; lia]). rewrite Hlen, length_drop, <- app_assoc.
  destruct (n <=? avail off) eqn:E; bool_to_prop.
  - replace (0 <? Z.of_nat _) with false by (symmetry; apply Z.ltb_ge; unfold n in *; lia). done.
  - replace (0 <? Z.of_nat _) with true by (symmetry; apply Z.ltb_lt; unfold n in *; lia). done.
Qed.

Lemma add_loop_written fuel : forall begin off ptr c, off_ok off -> (rounds off ptr <= fuel)%nat ->
  exists out off', written begin off ptr out off' /\ off_ok off' /\
    add_loop fuel begin ptr (mkWriter (mkWfile c []) off) = Ret true (mkWriter (mkWfile (c ++ out) []) off').
Proof.
  induction fuel as [|fuel IH]; intros begin off ptr c Ho Hf; [unfold rounds in Hf; destruct (_ =? _); lia|].
  pose proof (avail_ok off Ho) as [Ha Hb]. rewrite add_loop_round by done. cbv zeta.
  destruct (Z.of_nat (length ptr) <=? avail off) eqn:E; bool_to_prop.
  - rewrite Z.min_l, Nat2Z.id, take_ge by lia. eexists _, _. split; [by apply written_end|]. split; [|done].
    pose proof (aligned_ok off Ho). block_lia.
  - rewrite Z.min_r by lia. replace (aligned off + kHeaderSize + Z.of_nat (Z.to_nat (avail off))) with kBlockSize by lia.
    destruct (IH false kBlockSize (drop (Z.to_nat (avail off)) ptr)
                (c ++ filler off ++ physical (fragment_type begin false) (take (Z.to_nat (avail off)) ptr)))
      as (out & off' & Hw & Ho' & Hrun); [block_lia| |].
    { revert Hf. unfold rounds. rewrite length_drop. change (avail kBlockSize =? 0) with false. cbv iota.
      destruct (avail off =? 0) eqn:E0; bool_to_prop; lia. }
    eexists _, _. split; [by eapply written_more|]. split; [done|]. rewrite Hrun, <- !app_assoc. done.
Qed.

Lemma AddRecord_written off ptr c : off_ok off ->
  exists out off', written true off ptr out off' /\ off_ok off' /\
    AddRecord ptr (mkWriter (mkWfile c []) off) = Ret true (mkWriter (mkWfile (c ++ out) []) off').
Proof. intros Ho. apply add_loop_written; [done|]. unfold rounds. destruct (_ =? _); lia. Qed.

(** A log that starts a block is written as one behind a full block. *)
Lemma written_start begin ptr out off' : written begin 0 ptr out off' <-> written begin kBlockSize ptr out off'.
Proof.
  split; intros H; inversion H; subst.
  - by apply (written_end begin kBlockSize).
  - by apply (written_more begin kBlockSize).
  - by apply (written_end begin 0).
  - by apply (written_more begin 0).
Qed.

(** * What the reader sees *)

(** The block is read up to [off], and [X] is what is left of the file: the rest of
    the block is in the buffer. *)
Record reading (off : Z) (X : bytes) (r : Reader) : Prop := {
  rd_buffer : buffer_ r = take (Z.to_nat (leftover off)) X;
  rd_rest : rf_rest (file_ r) = drop (Z.to_nat (leftover off)) X;
  rd_eof : eof_ r = (Z.of_nat (length X) <? leftover off);
  rd_fails : rf_fails (file_ r) = [];
  rd_initial : initial_offset_ r = 0;
  rd_last : 0 <= last_record_offset_ r
}.

(** Nothing is left. *)
Record finished (r : Reader) : Prop := {
  fi_buffer : buffer_ r = [];
  fi_rest : rf_rest (file_ r) = [];
  fi_eof : eof_ r = true;
  fi_initial : initial_offset_ r = 0;
  fi_last : 0 <= last_record_offset_ r
}.

Lemma length_field n : 0 <= n <= 65535 ->
  Z.lor (Z.land (Z.land n 255) 255) (Z.shiftl (Z.land (u8 (Z.shiftr n 8)) 255) 8) = n.
Proof.
  intros Hn. rewrite <- Z.land_assoc. change (Z.land 255 255) with 255.
  assert (Hq : 0 <= Z.shiftr n 8 < 256).
  { rewrite Z.shiftr_div_pow2 by lia. split; [apply Z.div_pos; lia|apply Z.div_lt_upper_bound; lia]. }
  assert (E : Z.land (u8 (Z.shiftr n 8)) 255 = Z.shiftr n 8).
  { unfold u8. rewrite Z.mod_small by lia. change 255 with (Z.ones 8). rewrite Z.land_ones by lia. apply Z.mod_small. lia. }
  rewrite E. rewrite (split_low_byte n) at 3. symmetry. apply Z.lxor_lor. change 255 with (Z.ones 8).
  apply Z.bits_inj'. intros i Hi. rewrite Z.land_spec, Z.bits_0. destruct (Z.ltb_spec i 8).
  - rewrite Z.shiftl_spec_low by lia. apply andb_false_r.
  - rewrite Z.land_spec, Z.ones_spec_high by lia. by rewrite andb_false_r.
Qed.

Definition known_type (t : Z) : Prop := 1 <= t <= 4.

(** The checksum the writer stored is the one the reader computes. *)
Lemma physical_crc t ptr : known_type t -> bytes_ok ptr ->
  Value 0 (t :: ptr) = Unmask (DecodeFixed32 (EncodeFixed32 (Mask (Extend 0 (type_crc t) ptr)))).
Proof.
  intros Ht Hp. assert (Hb : byte_ok t) by (unfold known_type, byte_ok in *; lia).
  assert (Hb1 : bytes_ok [t]) by (constructor; [done|constructor]).
  assert (E : Extend 0 (type_crc t) ptr = Value 0 (t :: ptr)).
  { pose proof (Value_range 0 [t] Hb1) as Hv. unfold type_crc. rewrite (Extend_bytes 0 (Value 0 [t]) ptr) by done.
    unfold Value. rewrite (Extend_bytes 0 0 [t]), (Extend_bytes 0 0 (t :: ptr)) by (lia || done || by constructor).
    rewrite Z.lxor_assoc, Z.lxor_nilpotent, Z.lxor_0_r. done. }
  rewrite E. unfold DecodeFixed32, EncodeFixed32. rewrite take_ge by (rewrite length_le_bytes; lia). rewrite le_val_bytes.
  change (2 ^ (8 * Z.of_nat 4)) with (2 ^ 32). rewrite Z.mod_small by apply Mask_range.
  symmetry. apply Unmask_Mask, Value_range. by constructor.
Qed.

Definition same_ends (r r' : Reader) : Prop :=
  initial_offset_ r' = initial_offset_ r /\ last_record_offset_ r' = last_record_offset_ r /\
  rf_fails (file_ r') = rf_fails (file_ r).

Lemma ReportDrop_run n r : exists l, ReportDrop n r =
  Ret tt (mkReader (file_ r) (has_reporter r) (checksum_ r) (buffer_ r) (eof_ r) (last_record_offset_ r)
            (end_of_buffer_offset_ r) (initial_offset_ r) (reports r ++ l)).
Proof.
  unfold ReportDrop. erewrite bind_Ret by reflexivity. case_bool; [by eexists|]. exists [].
  rewrite app_nil_r. by destruct r.
Qed.

(** The header of a physical record that is in the buffer. *)
Lemma physical_header t ptr rest :
  let header := physical t ptr ++ rest in let n := Z.of_nat (length ptr) in
  nth 4 header 0 = Z.land n 255 /\ nth 5 header 0 = u8 (Z.shiftr n 8) /\ nth 6 header 0 = t /\
  take 4 header = EncodeFixed32 (Mask (Extend 0 (type_crc t) ptr)) /\
  drop 6 header = t :: ptr ++ rest /\ drop 7 header = ptr ++ rest.
Proof.
  cbv zeta. unfold physical. set (m := EncodeFixed32 (Mask (Extend 0 (type_crc t) ptr))). 
  assert (Hm : length m = 4%nat) by apply length_le_bytes. destruct m as [|m0 [|m1 [|m2 [|m3 [|]]]]]; try done.
Qed.

Lemma known_char t : known_type t -> char_to_uint t = t.
Proof.
  unfold known_type, char_to_uint. intros Ht. rewrite Z.geb_leb.
  replace (128 <=? t) with false by (symmetry; apply Z.leb_gt; lia). apply u32_small. lia.
Qed.

Lemma parse_physical t ptr rest r : known_type t -> bytes_ok ptr -> Z.of_nat (length ptr) <= 65535 ->
  buffer_ r = physical t ptr ++ rest -> initial_offset_ r = 0 ->
  parse_record r = Ret (t, ptr) (put_buffer rest r).
Proof.
  intros Ht Hp Hl Hb Hi. unfold parse_record. erewrite bind_Ret by reflexivity. cbv zeta. rewrite Hb.
  destruct (physical_header t ptr rest) as (-> & -> & -> & H4 & H6 & H7). rewrite length_field, known_char by (done || lia).
  unfold buffer_size. rewrite Hb, length_app, length_physical. rewrite Z.gtb_ltb.
  rewrite (proj2 (Z.ltb_ge _ _)) by (unfold kHeaderSize; lia).
  replace (t =? kZeroType) with false by (symmetry; apply Z.eqb_neq; unfold known_type, kZeroType in *; lia). cbn [andb].
  assert (Hcrc : (Value 0 (take (Z.to_nat (1 + Z.of_nat (length ptr))) (t :: ptr ++ rest)) =?
                 Unmask (DecodeFixed32 (take 4 (physical t ptr ++ rest)))) = true).
  { apply Z.eqb_eq. rewrite H4, <- physical_crc by done. f_equal. replace (Z.to_nat _) with (length (t :: ptr)) by (cbn; lia).
    by rewrite app_comm_cons, take_app_length. }
  rewrite H6, Hcrc, andb_false_r. erewrite bind_Ret by reflexivity. erewrite bind_Ret by reflexivity. cbn [initial_offset_ put_buffer].
  rewrite Hi, (proj2 (Z.ltb_ge _ 0)) by apply u64_range. rewrite Nat2Z.id. change (Z.to_nat kHeaderSize) with 7%nat.
  replace (Z.to_nat (kHeaderSize + Z.of_nat (length ptr))) with (length (physical t ptr))
    by (rewrite length_physical; unfold kHeaderSize; lia).
  rewrite drop_app_length, H7, take_app_length. done.
Qed.

(** A physical record that is cut off. *)
Lemma parse_cut t ptr n r : known_type t -> bytes_ok ptr -> Z.of_nat (length ptr) <= 65535 ->
  (7 <= n < 7 + length ptr)%nat -> buffer_ r = take n (physical t ptr) ->
  exists l, parse_record r =
    Ret (kBadRecord, []) (mkReader (file_ r) (has_reporter r) (checksum_ r) [] (eof_ r) (last_record_offset_ r)
            (end_of_buffer_offset_ r) (initial_offset_ r) (reports r ++ l)).
Proof.
  intros Ht Hp Hl Hn Hb. unfold parse_record. erewrite bind_Ret by reflexivity. cbv zeta.
  destruct (physical_header t ptr []) as (H4 & H5 & _). rewrite app_nil_r in H4, H5.
  assert (Hnth : forall i, (i < 7)%nat -> nth i (buffer_ r) 0 = nth i (physical t ptr) 0).
  { intros i Hi. rewrite Hb. rewrite !nth_lookup. by rewrite lookup_take_lt by lia. }
  rewrite (Hnth 4%nat), (Hnth 5%nat), H4, H5, length_field by lia.
  assert (Hsz : buffer_size r = Z.of_nat n) by (unfold buffer_size; rewrite Hb, length_take, length_physical; lia).
  rewrite Hsz, Z.gtb_ltb, (proj2 (Z.ltb_lt _ _)) by (unfold kHeaderSize; lia).
  erewrite bind_Ret by reflexivity. destruct (ReportDrop_run (Z.of_nat n) (put_buffer [] r)) as (l & E). exists l.
  unfold ReportCorruption. by erewrite bind_Ret by exact E.
Qed.

(** A block that has no room for a header is left for the next one. *)
Lemma read_next_block off X r : off_ok off -> leftover off < kHeaderSize -> leftover off <= Z.of_nat (length X) -> reading off X r ->
  exists r', read_physical 2 r = read_physical 1 r' /\ reading 0 (drop (Z.to_nat (leftover off)) X) r' /\
    reports r' = reports r /\ last_record_offset_ r' = last_record_offset_ r.
Proof.
  intros Ho Hlo Hlen [Hb Hr He Hf Hi Hl]. cbn [read_physical]. erewrite bind_Ret by reflexivity.
  assert (Hsz : buffer_size r = leftover off) by (unfold buffer_size; rewrite Hb, length_take; block_lia).
  rewrite Hsz, (proj2 (Z.ltb_lt _ _) Hlo), He, (proj2 (Z.ltb_ge _ _) Hlen). cbn [negb].
  erewrite bind_Ret by reflexivity. unfold rf_Read at 1. unfold bind at 1. cbn [file_ put_buffer].
  destruct (file_ r) as [l fs] eqn:Ef. cbn [rf_rest rf_fails] in Hr, Hf. subst fs l. cbn [tail].
  erewrite bind_Ret by reflexivity. cbn [negb]. erewrite bind_Ret by reflexivity. eexists. split; [reflexivity|].
  set (X' := drop (Z.to_nat (leftover off)) X). unfold buffer_size. cbn [buffer_ put_buffer put_file put_end].
  change (leftover 0) with kBlockSize.
  assert (He' : (Z.of_nat (length (take (Z.to_nat kBlockSize) X')) <? kBlockSize) = (Z.of_nat (length X') <? kBlockSize)).
  { rewrite length_take. apply eq_true_iff_eq. rewrite !Z.ltb_lt. unfold kBlockSize. lia. }
  rewrite He'. destruct (Z.of_nat (length X') <? kBlockSize) eqn:E; (split; [split|]); cbn; rewrite ?E; try done.
  change (leftover 0) with kBlockSize. rewrite He, E. by apply Z.ltb_ge.
Qed.

Lemma read_parse fuel off X r : reading off X r -> kHeaderSize <= leftover off -> (7 <= length X)%nat ->
  read_physical (Datatypes.S fuel) r = parse_record r.
Proof.
  intros [Hb _ _ _ _ _] Hlo Hlen. cbn [read_physical]. erewrite bind_Ret by reflexivity.
  assert (Hsz : kHeaderSize <= buffer_size r) by (unfold buffer_size; rewrite Hb, length_take; unfold kHeaderSize in *; lia).
  by rewrite (proj2 (Z.ltb_ge _ _) Hsz).
Qed.

(** A physical record that lies in the rest of the block. *)
Lemma read_here fuel off t ptr Y r : 0 <= off -> known_type t -> bytes_ok ptr ->
  kHeaderSize + Z.of_nat (length ptr) <= leftover off -> reading off (physical t ptr ++ Y) r ->
  exists r', read_physical (Datatypes.S fuel) r = Ret (t, ptr) r' /\ reading (off + kHeaderSize + Z.of_nat (length ptr)) Y r' /\
    reports r' = reports r /\ last_record_offset_ r' = last_record_offset_ r.
Proof.
  intros H0 Ht Hp Hl Hr. rewrite (read_parse _ _ _ _ Hr); [|unfold kHeaderSize in *; lia|rewrite length_app, length_physical; lia].
  pose proof Hr as [Hb Hre He Hf Hi Hla]. set (k := Z.to_nat (leftover off - (kHeaderSize + Z.of_nat (length ptr)))).
  assert (Hk : Z.to_nat (leftover off) = (length (physical t ptr) + k)%nat)
    by (rewrite length_physical; unfold k, kHeaderSize in *; lia).
  rewrite Hk, take_app_add in Hb. rewrite Hk, drop_app_add in Hre.
  rewrite (parse_physical t ptr (take k Y) r) by (done || (unfold leftover, kBlockSize, kHeaderSize in *; lia)).
  eexists. split; [reflexivity|].
  assert (Hk' : Z.to_nat (leftover (off + kHeaderSize + Z.of_nat (length ptr))) = k) by (unfold k, leftover; f_equal; lia).
  split; [|done]. split; cbn; rewrite ?Hk'; try done. rewrite He, length_app, length_physical.
  apply eq_true_iff_eq. rewrite !Z.ltb_lt. unfold leftover, kHeaderSize. lia.
Qed.

Lemma read_whole off t ptr Y r : off_ok off -> known_type t -> bytes_ok ptr -> Z.of_nat (length ptr) <= avail off ->
  reading off (filler off ++ physical t ptr ++ Y) r ->
  exists r', ReadPhysicalRecord r = Ret (t, ptr) r' /\ reading (aligned off + kHeaderSize + Z.of_nat (length ptr)) Y r' /\
    reports r' = reports r /\ last_record_offset_ r' = last_record_offset_ r.
Proof.
  intros Ho Ht Hp Hl Hr. unfold ReadPhysicalRecord. unfold filler, aligned, avail in *.
  destruct (leftover off <? kHeaderSize) eqn:E; bool_to_prop.
  - edestruct (read_next_block off) as (r1 & -> & Hr1 & E1 & E2); [exact Ho|exact E| |exact Hr|].
    { rewrite length_app, length_replicate. lia. }
    rewrite drop_app_length' in Hr1 by by rewrite length_replicate.
    destruct (read_here 0 0 t ptr Y r1) as (r' & -> & Hr' & E3 & E4); [lia|done|done| |done|].
    { unfold aligned in Hl. rewrite (proj2 (Z.ltb_lt _ _) E) in Hl. lia. }
    exists r'. split; [done|]. split; [done|]. split; congruence.
  - unfold aligned in Hl. rewrite (proj2 (Z.ltb_ge _ _) E) in Hl.
    destruct (read_here 1 off t ptr Y r) as (r' & -> & Hr' & E3 & E4); [block_lia|done|done|lia|done|]. by exists r'.
Qed.

(** Less than a header at the end of the file. *)
Lemma read_scraps fuel r : (length (buffer_ r) < 7)%nat -> rf_rest (file_ r) = [] -> eof_ r = true ->
  initial_offset_ r = 0 -> 0 <= last_record_offset_ r ->
  exists r', read_physical (Datatypes.S fuel) r = Ret (kEof, []) r' /\ finished r'.
Proof.
  intros Hb Hre He Hi Hla. cbn [read_physical]. erewrite bind_Ret by reflexivity.
  rewrite (proj2 (Z.ltb_lt (buffer_size r) kHeaderSize)) by (unfold buffer_size, kHeaderSize; lia). rewrite He. cbn [negb].
  destruct (buffer_size r =? 0) eqn:E0; bool_to_prop.
  - exists r. split; [done|]. split; try done. apply nil_length_inv. unfold buffer_size in E0. lia.
  - erewrite bind_Ret by reflexivity. destruct (ReportDrop_run (buffer_size r) (put_buffer [] r)) as (l & E1).
    unfold ReportCorruption. erewrite bind_Ret by exact E1. eexists. split; [reflexivity|]. by split.
Qed.

(** The last block, of which only the start of a physical record is left. *)
Lemma read_last_bytes fuel t ptr n r : known_type t -> bytes_ok ptr -> Z.of_nat (length ptr) <= 65535 ->
  (n < 7 + length ptr)%nat -> buffer_ r = take n (physical t ptr) -> rf_rest (file_ r) = [] -> eof_ r = true ->
  initial_offset_ r = 0 -> 0 <= last_record_offset_ r ->
  exists ty r', read_physical (Datatypes.S fuel) r = Ret (ty, []) r' /\ (ty = kEof \/ (ty = kBadRecord /\ (7 <= n)%nat)) /\ finished r'.
Proof.
  intros Ht Hp Hl Hn Hb Hre He Hi Hla.
  assert (Hlen : length (buffer_ r) = n) by (rewrite Hb, length_take, length_physical; lia).
  destruct (decide (n < 7)%nat) as [H7|H7].
  - destruct (read_scraps fuel r) as (r' & -> & Hf); [lia|done..|]. exists kEof, r'. eauto.
  - cbn [read_physical]. erewrite bind_Ret by reflexivity.
    rewrite (proj2 (Z.ltb_ge (buffer_size r) kHeaderSize)) by (unfold buffer_size, kHeaderSize; lia).
    destruct (parse_cut t ptr n r Ht Hp Hl) as (l & ->); [lia|done|].
    eexists _, _. split; [reflexivity|]. split; [right; split; [done|lia]|]. by split.
Qed.

(** The file ends in the rest of the block. *)
Lemma read_cut_here fuel off t ptr n r : 0 <= off -> known_type t -> bytes_ok ptr ->
  kHeaderSize + Z.of_nat (length ptr) <= leftover off -> (n < 7 + length ptr)%nat -> reading off (take n (physical t ptr)) r ->
  exists ty r', read_physical (Datatypes.S fuel) r = Ret (ty, []) r' /\ (ty = kEof \/ (ty = kBadRecord /\ (7 <= n)%nat)) /\ finished r'.
Proof.
  intros H0 Ht Hp Hl Hn [Hb Hre He Hf Hi Hla].
  assert (Hlen : length (take n (physical t ptr)) = n) by (rewrite length_take, length_physical; lia).
  eapply read_last_bytes; try done.
  - unfold leftover, kBlockSize, kHeaderSize in *. lia.
  - rewrite Hb. apply take_ge. rewrite Hlen. unfold kHeaderSize in *. lia.
  - rewrite Hre. apply drop_ge. rewrite Hlen. unfold kHeaderSize in *. lia.
  - rewrite He, Hlen. apply Z.ltb_lt. unfold kHeaderSize in *. lia.
Qed.

Lemma read_cut off t ptr n r : off_ok off -> known_type t -> bytes_ok ptr -> Z.of_nat (length ptr) <= avail off ->
  (n < length (filler off ++ physical t ptr))%nat -> reading off (take n (filler off ++ physical t ptr)) r ->
  exists ty r', ReadPhysicalRecord r = Ret (ty, []) r' /\ (ty = kEof \/ (ty = kBadRecord /\ (7 <= n)%nat)) /\ finished r'.
Proof.
  intros Ho Ht Hp Hl Hn Hr. unfold ReadPhysicalRecord. unfold filler, avail, aligned in *.
  destruct (leftover off <? kHeaderSize) eqn:E; bool_to_prop.
  2: { apply (read_cut_here 1 off t ptr); [block_lia|done|done| |rewrite length_app, length_physical in Hn; exact Hn|exact Hr]. lia. }
  set (pad := replicate (Z.to_nat (leftover off)) 0) in *. assert (Hpad : length pad = Z.to_nat (leftover off)) by apply length_replicate.
  rewrite length_app, length_physical in Hn. destruct (decide (n < length pad)%nat) as [Hlt|Hge].
  - pose proof Hr as [Hb Hre He Hf Hi Hla]. rewrite take_app_le in Hb, Hre, He by lia.
    destruct (read_scraps 1 r) as (r' & -> & Hfin); try done.
    + rewrite Hb, !length_take. unfold kHeaderSize in E. lia.
    + rewrite Hre. apply drop_ge. rewrite length_take. lia.
    + rewrite He, length_take. apply Z.ltb_lt. lia.
    + exists kEof, r'. eauto.
  - rewrite take_app_ge in Hr by lia. edestruct (read_next_block off) as (r1 & -> & Hr1 & _ & _); [exact Ho|exact E| |exact Hr|].
    { rewrite length_app. lia. }
    rewrite drop_app_length' in Hr1 by done.
    destruct (read_cut_here 0 0 t ptr (n - length pad) r1) as (ty & r' & -> & Hty & Hfin); [lia|done|done| |lia|done|].
    { change (leftover 0) with kBlockSize in *. lia. }
    exists ty, r'. split; [done|]. split; [|done]. destruct Hty as [?|[? ?]]; [by left|right; split; [done|lia]].
Qed.

Lemma read_finished r : finished r -> ReadPhysicalRecord r = Ret (kEof, []) r.
Proof.
  intros [Hb Hr He Hi Hl]. unfold ReadPhysicalRecord. cbn [read_physical]. erewrite bind_Ret by reflexivity.
  unfold buffer_size. by rewrite Hb, He.
Qed.

(** A file that is read to its end. *)
Lemma read_eof off r : off_ok off -> reading off [] r -> exists r', ReadPhysicalRecord r = Ret (kEof, []) r' /\ finished r' /\
  reports r' = reports r.
Proof.
  intros Ho Hr. pose proof Hr as [Hb Hre He Hf Hi Hla]. rewrite take_nil in Hb. rewrite drop_nil in Hre.
  destruct (decide (0 < leftover off)) as [H|H].
  - exists r. assert (Hfin : finished r) by (split; try done; rewrite He; by apply Z.ltb_lt).
    split; [by apply read_finished|done].
  - destruct (read_next_block off [] r) as (r1 & E & Hr1 & E1 & _); [done|unfold kHeaderSize; lia|cbn; block_lia|done|].
    rewrite drop_nil in Hr1. destruct Hr1 as [Hb1 Hre1 He1 Hf1 Hi1 Hla1]. rewrite take_nil in Hb1. rewrite drop_nil in Hre1.
    exists r1. unfold ReadPhysicalRecord. rewrite E. cbn [read_physical]. erewrite bind_Ret by reflexivity.
    unfold buffer_size. rewrite Hb1, He1. cbn. split; [done|]. split; [by split|done].
Qed.

(** ** Records *)

Lemma ReportDrop_finished n r : finished r -> exists r', ReportDrop n r = Ret tt r' /\ finished r'.
Proof.
  intros [Hb Hr He Hi Hl]. destruct (ReportDrop_run n r) as (l & ->). eexists. split; [reflexivity|]. by split.
Qed.

Lemma report_if_finished (b : bool) n r : finished r ->
  exists r', (if b then ReportCorruption n else ret tt) r = Ret tt r' /\ finished r'.
Proof. intros Hf. destruct b; [by apply ReportDrop_finished|by exists r]. Qed.

(** Decide the tests on the type of a physical record. *)
Ltac dispatch :=
  cbv beta zeta iota; cbn [negb];
  repeat match goal with
  | |- context [?a =? ?b] =>
      let v := eval vm_compute in (a =? b) in
      lazymatch v with
      | true => change (a =? b) with true
      | false => change (a =? b) with false
      end; cbv iota; cbn [andb]
  end.

Lemma read_record_eof fuel inf scratch pro r r1 : ReadPhysicalRecord r = Ret (kEof, []) r1 -> finished r1 ->
  exists r', read_record (Datatypes.S fuel) inf scratch pro r = Ret None r' /\ finished r'.
Proof.
  intros E Hf. cbn [read_record]. erewrite bind_Ret by reflexivity. erewrite bind_Ret by exact E. dispatch.
  destruct (report_if_finished inf (Z.of_nat (length scratch)) r1 Hf) as (r' & E' & Hf').
  erewrite bind_Ret by exact E'. by exists r'.
Qed.

(** Whatever stops the reader stops it for good. *)
Lemma read_record_stop fuel inf scratch pro r r1 ty : ReadPhysicalRecord r = Ret (ty, []) r1 -> finished r1 ->
  ty = kEof \/ (ty = kBadRecord /\ (1 <= fuel)%nat) ->
  exists r', read_record (Datatypes.S fuel) inf scratch pro r = Ret None r' /\ finished r'.
Proof.
  intros E Hf [-> | [-> Hfuel]]; [by eapply read_record_eof|].
  cbn [read_record]. erewrite bind_Ret by reflexivity. erewrite bind_Ret by exact E. dispatch.
  destruct fuel as [|fuel]; [lia|]. destruct inf.
  - destruct (ReportDrop_finished (Z.of_nat (length scratch)) r1 Hf) as (r2 & E2 & Hf2).
    unfold ReportCorruption. erewrite bind_Ret by exact E2. eapply read_record_eof; [by apply read_finished|done].
  - eapply read_record_eof; [by apply read_finished|done].
Qed.

Lemma fragment_known b e : known_type (fragment_type b e).
Proof. destruct b, e; unfold known_type, fragment_type; cbn; unfold kFullType, kFirstType, kLastType, kMiddleType; lia. Qed.

Lemma written_off_ok begin off ptr out off' : written begin off ptr out off' -> off_ok off -> off_ok off'.
Proof.
  induction 1 as [begin off ptr Hl|begin off ptr out off' Hl Hw IH]; intros Ho.
  - pose proof (avail_ok off Ho). pose proof (aligned_ok off Ho). block_lia.
  - apply IH. block_lia.
Qed.

(** Where the rest of the file is cut, before or behind a piece. *)
Lemma take_app_cut {A} n (l l' : list A) :
  take n (l ++ l') = if (length l <=? n)%nat then l ++ take (n - length l) l' else take n l.
Proof.
  destruct (Nat.leb_spec (length l) n); [by apply take_app_ge|apply take_app_le; lia].
Qed.

(** A fragment that is in the file is taken, and the reader goes on. *)
Lemma read_record_fragment fuel begin e off ptr Y r scratch pro : off_ok off -> bytes_ok ptr -> Z.of_nat (length ptr) <= avail off ->
  (begin = true -> scratch = []) -> 0 <= pro -> reading off (filler off ++ physical (fragment_type begin e) ptr ++ Y) r ->
  exists r', reading (aligned off + kHeaderSize + Z.of_nat (length ptr)) Y r' /\ reports r' = reports r /\
    if e then read_record (Datatypes.S fuel) (negb begin) scratch pro r = Ret (Some (scratch ++ ptr)) r'
    else exists pro', 0 <= pro' /\ read_record (Datatypes.S fuel) (negb begin) scratch pro r = read_record fuel true (scratch ++ ptr) pro' r'.
Proof.
  intros Ho Hp Hl Hs Hpro Hr. destruct (read_whole off _ ptr Y r Ho (fragment_known begin e) Hp Hl Hr) as (r1 & E & Hr1 & E1 & E2).
  set (p := u64 (end_of_buffer_offset_ r - buffer_size r)). assert (Hu : 0 <= p) by apply u64_range.
  assert (Hlast : forall x, 0 <= x -> reading (aligned off + kHeaderSize + Z.of_nat (length ptr)) Y (put_last x r1)).
  { intros x Hx. destruct Hr1. by split. }
  destruct begin, e; cbn [read_record negb]; erewrite bind_Ret by reflexivity; erewrite bind_Ret by exact E;
    unfold fragment_type; cbn [andb]; dispatch.
  - rewrite (Hs eq_refl). exists (put_last p r1). split; [by apply Hlast|done].
  - rewrite (Hs eq_refl). exists r1. split; [done|]. split; [done|]. by exists p.
  - exists (put_last pro r1). split; [by apply Hlast|done].
  - exists r1. split; [done|]. split; [done|]. by exists pro.
Qed.

Lemma read_record_written begin off ptr out off' : written begin off ptr out off' -> off_ok off -> bytes_ok ptr ->
  forall n Y r scratch pro fuel, (begin = true -> scratch = []) -> 0 <= pro ->
  reading off (take n (out ++ Y)) r -> (length (take n (out ++ Y)) < fuel)%nat ->
  if (length out <=? n)%nat
  then exists r', read_record fuel (negb begin) scratch pro r = Ret (Some (scratch ++ ptr)) r' /\
         reading off' (take (n - length out) Y) r' /\ reports r' = reports r
  else exists r', read_record fuel (negb begin) scratch pro r = Ret None r' /\ finished r'.
Proof.
  induction 1 as [begin off ptr Hl|begin off ptr out off' Hl Hw IH];
    intros Ho Hp n Y r scratch pro fuel Hs Hpro Hr Hf; (destruct fuel as [|fuel]; [lia|]).
  - rewrite take_app_cut in Hr, Hf. destruct (Nat.leb_spec (length (filler off ++ physical (fragment_type begin true) ptr)) n) as [Hn|Hn].
    + rewrite <- app_assoc in Hr.
      destruct (read_record_fragment fuel begin true off ptr _ r scratch pro Ho Hp Hl Hs Hpro Hr) as (r' & Hr' & E & Hrun).
      by exists r'.
    + destruct (read_cut off _ ptr n r Ho (fragment_known begin true) Hp Hl Hn Hr) as (ty & r1 & E & Hty & Hfin).
      rewrite length_take in Hf. eapply read_record_stop; [exact E|done|]. destruct Hty as [?|[? ?]]; [by left|right; split; [done|lia]].
  - pose proof (avail_ok off Ho) as [Ha Hb]. set (p := take (Z.to_nat (avail off)) ptr) in *.
    assert (Hlp : Z.of_nat (length p) = avail off) by (unfold p; rewrite length_take; lia).
    assert (Hpp : bytes_ok p) by by apply bytes_ok_take.
    set (piece := filler off ++ physical (fragment_type begin false) p).
    assert (E1 : filler off ++ physical (fragment_type begin false) p ++ out = piece ++ out) by (unfold piece; by rewrite app_assoc).
    rewrite E1 in Hr, Hf |- *. rewrite <- app_assoc in Hr, Hf. rewrite length_app. rewrite take_app_cut in Hr, Hf.
    destruct (Nat.leb_spec (length piece) n) as [Hn|Hn].
    + unfold piece in Hr at 1. rewrite <- app_assoc in Hr.
      destruct (read_record_fragment fuel begin false off p _ r scratch pro Ho Hpp ltac:(lia) Hs Hpro Hr) as (r1 & Hr1 & E & pro' & Hpro' & Hrun).
      rewrite Hrun. replace (aligned off + kHeaderSize + Z.of_nat (length p)) with kBlockSize in Hr1 by lia.
      specialize (IH ltac:(block_lia) (bytes_ok_drop _ _ Hp) (n - length piece)%nat Y r1 (scratch ++ p) pro' fuel ltac:(done) Hpro' Hr1).
      rewrite length_app in Hf. unfold piece in Hf at 1. rewrite length_app, length_physical in Hf. specialize (IH ltac:(lia)).
      replace (length piece + length out <=? n)%nat with (length out <=? n - length piece)%nat
        by (apply eq_true_iff_eq; rewrite !Nat.leb_le; lia).
      replace (n - (length piece + length out))%nat with (n - length piece - length out)%nat by lia.
      destruct (length out <=? n - length piece)%nat; [|done].
      destruct IH as (r' & H1 & H2 & H3). exists r'. rewrite <- app_assoc in H1. unfold p in H1. rewrite take_drop in H1.
      split; [done|]. split; [done|congruence].
    + rewrite (proj2 (Nat.leb_gt (length piece + length out) n)) by lia.
      destruct (read_cut off _ p n r Ho (fragment_known begin false) Hpp ltac:(lia) Hn Hr) as (ty & r1 & E & Hty & Hfin).
      rewrite length_take in Hf. eapply read_record_stop; [exact E|done|]. destruct Hty as [?|[? ?]]; [by left|right; split; [done|lia]].
Qed.

(** * Recovery *)

(** Records are added until a call fails. *)
Fixpoint AddRecords (rs : list bytes) : writer_prog bool :=
  match rs with
  | [] => ret true
  | rec :: rs' => s <- AddRecord rec ;; if (s : bool) then AddRecords rs' else ret false
  end.

(** The records the loop of [DBImpl::RecoverLogFile] gets. *)
Fixpoint read_all (fuel : nat) : reader_prog (list bytes) :=
  match fuel with
  | O => undefined Unfinished
  | S fuel' =>
      rec <- ReadRecord ;;
      match rec with
      | None => ret []
      | Some rec => rs <- read_all fuel' ;; ret (rec :: rs)
      end
  end.

(** What is in a new log after these records. *)
Definition log_of (rs : list bytes) : bytes :=
  match AddRecords rs (Writer_new (mkWfile [] [])) with
  | Ret _ w => wf_contents (dest_ w)
  | _ => []
  end.

Inductive chain : Z -> list bytes -> list bytes -> Prop :=
| chain_nil off : chain off [] []
| chain_cons off rec out off' rs outs : written true off rec out off' -> chain off' rs outs -> chain off (rec :: rs) (out :: outs).

Lemma AddRecords_chain rs : forall off c, off_ok off ->
  exists outs, chain off rs outs /\ length outs = length rs /\
    forall k, exists off', AddRecords (take k rs) (mkWriter (mkWfile c []) off) = Ret true (mkWriter (mkWfile (c ++ mjoin (take k outs)) []) off').
Proof.
  induction rs as [|rec rs IH]; intros off c Ho.
  { exists []. split; [constructor|]. split; [done|]. intros k. rewrite !take_nil. exists off. cbn. by rewrite app_nil_r. }
  destruct (AddRecord_written off rec c Ho) as (out & off1 & Hw & Ho1 & Hrun).
  destruct (IH off1 (c ++ out) Ho1) as (outs & Hc & Hl & Hall). exists (out :: outs).
  split; [by econstructor|]. split; [cbn; by f_equal|]. intros [|k].
  - exists off. cbn. by rewrite app_nil_r.
  - destruct (Hall k) as (off' & E). exists off'. cbn [take AddRecords]. erewrite bind_Ret by exact Hrun. cbv beta iota. rewrite E.
    cbn [mjoin list_join]. by rewrite <- app_assoc.
Qed.

Lemma chain_start rs outs : chain 0 rs outs -> chain kBlockSize rs outs.
Proof. intros H. inversion H; subst; [constructor|]. econstructor; [by apply written_start|done]. Qed.

(** The bytes of a new log. *)
Lemma log_chain rs : exists outs, chain kBlockSize rs outs /\ length outs = length rs /\
  (forall k, exists off', AddRecords (take k rs) (Writer_new (mkWfile [] [])) = Ret true (mkWriter (mkWfile (mjoin (take k outs)) []) off')) /\
  (forall k, log_of (take k rs) = mjoin (take k outs)) /\ log_of rs = mjoin outs.
Proof.
  destruct (AddRecords_chain rs 0 []) as (outs & Hc & Hl & Hall); [unfold off_ok, kBlockSize; lia|].
  assert (Hlog : forall k, log_of (take k rs) = mjoin (take k outs)).
  { intros k. unfold log_of, Writer_new. by destruct (Hall k) as (off' & ->). }
  exists outs. split; [by apply chain_start|]. split; [done|]. split; [done|]. split; [done|].
  pose proof (Hlog (length rs)) as H. rewrite firstn_all, <- Hl, firstn_all in H. exact H.
Qed.

Lemma ReadRecord_run off X r : reading off X r -> off_ok off ->
  ReadRecord r = read_record (length X + 1) false [] 0 r.
Proof.
  intros [Hb Hr He Hf Hi Hl] Ho. unfold ReadRecord. erewrite bind_Ret by reflexivity. rewrite Hi, (proj2 (Z.ltb_ge _ _) Hl), bind_ret.
  cbn [negb]. erewrite bind_Ret by reflexivity. rewrite Hb, Hr, <- length_app, take_drop. done.
Qed.

(** How many records are whole in the first [n] bytes. *)
Fixpoint whole (outs : list bytes) (n : nat) : nat :=
  match outs with
  | [] => 0
  | out :: outs' => if (length out <=? n)%nat then S (whole outs' (n - length out)) else 0
  end.

Lemma read_all_chain off rs outs : chain off rs outs -> off_ok off -> Forall bytes_ok rs -> forall n r,
  reading off (take n (mjoin outs)) r ->
  exists r', read_all (Datatypes.S (length rs)) r = Ret (take (whole outs n) rs) r' /\
    ((length (mjoin outs) <= n)%nat -> reports r' = reports r).
Proof.
  induction 1 as [off|off rec out off' rs outs Hw Hc IH]; intros Ho Hrs n r Hr.
  - cbn [mjoin list_join] in Hr. rewrite take_nil in Hr. destruct (read_eof off r Ho Hr) as (r' & E & Hf & Hrep).
    assert (Hrun : ReadRecord r = Ret None r').
    { rewrite (ReadRecord_run off [] r Hr Ho). cbn [length Nat.add read_record]. erewrite bind_Ret by reflexivity.
      erewrite bind_Ret by exact E. dispatch. done. }
    exists r'. cbn [read_all]. erewrite bind_Ret by exact Hrun. split; [by rewrite take_nil|done].
  - apply Forall_cons_iff in Hrs as [Hrec Hrs]. change (mjoin (out :: outs)) with (out ++ mjoin outs) in *.
    pose proof (read_record_written _ _ _ _ _ Hw Ho Hrec n (mjoin outs) r [] 0 (length (take n (out ++ mjoin outs)) + 1)
                  ltac:(done) ltac:(lia) Hr ltac:(lia)) as H.
    cbn [negb app] in H. cbn [whole]. cbn [length].
    replace (read_all (S (S (length rs))) r) with
      ((rec <- ReadRecord ;; match rec with None => ret [] | Some rec => l <- read_all (S (length rs)) ;; ret (rec :: l) end) r) by reflexivity.
    destruct (length out <=? n)%nat eqn:E.
    + destruct H as (r1 & Hrun & Hr1 & Hrep). rewrite <- (ReadRecord_run _ _ _ Hr Ho) in Hrun.
      destruct (IH (written_off_ok _ _ _ _ _ Hw Ho) Hrs (n - length out)%nat r1 Hr1) as (r' & E' & Hrep').
      exists r'. erewrite bind_Ret by exact Hrun. cbv beta iota. erewrite bind_Ret by exact E'. split; [done|].
      rewrite length_app. intros Hn. rewrite <- Hrep. apply Hrep'. lia.
    + destruct H as (r1 & Hrun & Hf). rewrite <- (ReadRecord_run _ _ _ Hr Ho) in Hrun. exists r1.
      erewrite bind_Ret by exact Hrun. split; [done|]. rewrite length_app. apply Nat.leb_gt in E. lia.
Qed.

Lemma whole_max outs n k : (k <= length outs)%nat -> (length (mjoin (take k outs)) <= n)%nat ->
  ((k < length outs)%nat -> (n < length (mjoin (take (S k) outs)))%nat) -> whole outs n = k.
Proof.
  revert n k. induction outs as [|out outs IH]; intros n k Hk Hle Hgt; [cbn in *; lia|]. cbn [whole].
  destruct k as [|k].
  - specialize (Hgt ltac:(cbn; lia)). cbn in Hgt. rewrite app_nil_r in Hgt. by rewrite (proj2 (Nat.leb_gt _ _) Hgt).
  - cbn [take] in Hle. change (mjoin (out :: take k outs)) with (out ++ mjoin (take k outs)) in Hle. rewrite length_app in Hle.
    rewrite (proj2 (Nat.leb_le (length out) n)) by lia. f_equal. cbn [length] in Hk, Hgt. apply IH; [lia|lia|].
    intros Hlt. specialize (Hgt ltac:(lia)). cbn [take] in Hgt. change (mjoin (out :: take (S k) outs)) with (out ++ mjoin (take (S k) outs)) in Hgt.
    rewrite length_app in Hgt. lia.
Qed.

(** A record takes a header at least. *)
Lemma written_length begin off ptr out off' : written begin off ptr out off' -> (7 <= length out)%nat.
Proof. intros H. destruct H; rewrite ?length_app, length_physical; lia. Qed.

Lemma chain_length off rs outs : chain off rs outs -> (length rs <= length (mjoin outs))%nat.
Proof.
  induction 1 as [|off rec out off' rs outs Hw Hc IH]; [done|]. apply written_length in Hw.
  change (mjoin (out :: outs)) with (out ++ mjoin outs). rewrite length_app. simpl. lia.
Qed.

Lemma log_length rs : (length rs <= length (log_of rs))%nat.
Proof. destruct (log_chain rs) as (outs & Hc & _ & _ & _ & ->). by eapply chain_length. Qed.

Lemma log_take_length rs k : (length (log_of (take k rs)) <= length (log_of rs))%nat.
Proof.
  destruct (log_chain rs) as (outs & _ & _ & _ & -> & ->).
  rewrite <- (take_drop k outs) at 2. rewrite join_app, length_app. lia.
Qed.

(** Writing a log and reading what is left of it. *)
Lemma read_log (rs : list bytes) (n k : nat) (reporter checksum : bool) :
  Forall bytes_ok rs -> (k <= length rs)%nat -> (length (log_of (take k rs)) <= n)%nat ->
  ((k < length rs)%nat -> (n < length (log_of (take (S k) rs)))%nat) ->
  (exists off, AddRecords rs (Writer_new (mkWfile [] [])) = Ret true (mkWriter (mkWfile (log_of rs) []) off)) /\
  exists r', read_all (Datatypes.S (length rs)) (Reader_new (mkRfile (take n (log_of rs)) []) reporter checksum 0) = Ret (take k rs) r' /\
    ((length (log_of rs) <= n)%nat -> reports r' = []).
Proof.
  intros Hrs Hk Hle Hgt. destruct (log_chain rs) as (outs & Hc & Hl & Hadd & Hlog & Hall). split.
  { destruct (Hadd (length rs)) as (off & E). rewrite firstn_all in E. exists off. rewrite E, <- Hl, firstn_all, Hall. done. }
  assert (Ho : off_ok kBlockSize) by (unfold off_ok, kBlockSize; lia). rewrite Hall in *.
  destruct (read_all_chain kBlockSize rs outs Hc Ho Hrs n (Reader_new (mkRfile (take n (mjoin outs)) []) reporter checksum 0)) as (r' & E & Hrep).
  { split; try done. cbn. symmetry. apply Z.ltb_ge. unfold leftover. lia. }
  exists r'. rewrite E. rewrite (whole_max outs n k); [by split|by rewrite Hl|by rewrite <- Hlog|].
  intros Hlt. rewrite <- Hlog. apply Hgt. by rewrite <- Hl.
Qed.

(** C30: a log keeps what was added to it. Records of any size, cut into fragments that
    fit into the blocks, are read back in order; and if the file is cut off anywhere,
    as after a crash, the reader gives exactly the records that were written in full,
    each of them unchanged, and stops. A complete log is read without any report of
    corruption. *)
Theorem log_recovers (rs : list bytes) (n k : nat) (reporter checksum : bool) :
  Forall bytes_ok rs -> (k <= length rs)%nat -> (length (log_of (take k rs)) <= n)%nat ->
  ((k < length rs)%nat -> (n < length (log_of (take (S k) rs)))%nat) ->
  (exists off, AddRecords rs (Writer_new (mkWfile [] [])) = Ret true (mkWriter (mkWfile (log_of rs) []) off)) /\
  exists r', read_all (Datatypes.S (length rs)) (Reader_new (mkRfile (take n (log_of rs)) []) reporter checksum 0) = Ret (take k rs) r' /\
    ((length (log_of rs) <= n)%nat -> reports r' = []).
Proof. apply read_log. Qed.

(** The third record is cut off. *)
Definition log0 : list bytes := [str "abc"; []; str "cut off"].

Lemma log_recovers_witness :
  exists r', read_all 4 (Reader_new (mkRfile (take 25 (log_of log0)) []) true true 0) = Ret [str "abc"; []] r'.
Proof.
  destruct (log_recovers log0 25 2 true true) as (_ & r' & E & _).
  - repeat constructor; unfold byte_ok; lia.
  - cbn. lia.
  - vm_compute. lia.
  - intros _. vm_compute. lia.
  - exists r'. exact E.
Defined.

(** A record that does not fit into one block is read back, too. *)
Lemma long_record_read :
  let rec := replicate (Z.to_nat 33000) 1 in
  match read_all 2 (Reader_new (mkRfile (log_of [rec]) []) true true 0) with
  | Ret [rec'] r => bool_decide (rec' = rec) && (Z.of_nat (length (log_of [rec])) =? 33014)
  | _ => false
  end = true.
Proof. vm_compute. reflexivity. Qed.
