(* ===== verification/Bloom.v ===== *)
(** The Bloom filter of LevelDB: [src/lib/leveldb/util/bloom.cc]. The LevelDB adaptor
    asks for it when it opens its database.

    A filter is an array of bits and, in its last byte, the number of probes. The
    global counter [num_filter_hit] is the state of a lookup. *)

From S2P Require Import Prelude Coding Hashes.

Set Default Proof Using "Type".

Definition BloomHash (key : bytes) : Z := Hash key 0xbc9f1d34.

Record BloomFilterPolicy : Type := mkBloom { bits_per_key_ : Z; k_ : Z }.

(** [static_cast<size_t> (bits_per_key * 0.69)]: the product of the constant with an
    [int] is rounded only when it would be a multiple of 69, far above the bound 30. *)
Definition BloomFilterPolicy_new (bits_per_key : Z) : BloomFilterPolicy :=
  let k := bits_per_key * 69 / 100 in
  let k := if k <? 1 then 1 else k in
  let k := if k >? 30 then 30 else k in
  mkBloom (u64 bits_per_key) k.

(** [array[bitpos/8] |= (1 << (bitpos % 8))] *)
Definition set_bit (array : bytes) (bitpos : Z) : bytes :=
  let i := Z.to_nat (bitpos / 8) in
  <[i := Z.lor (nth i array 0) (Z.shiftl 1 (bitpos mod 8))]> array.

Definition test_bit (array : bytes) (bitpos : Z) : bool :=
  negb (Z.land (nth (Z.to_nat (bitpos / 8)) array 0) (Z.shiftl 1 (bitpos mod 8)) =? 0).

(** Rotate right by 17 bits. *)
Definition delta_of (h : Z) : Z := Z.lor (Z.shiftr h 17) (u32 (Z.shiftl h 15)).

(** The inner loop of [CreateFilter]. *)
Fixpoint add_probes (k : nat) (bits h delta : Z) (array : bytes) : bytes :=
  match k with
  | O => array
  | S k' => add_probes k' bits (u32 (h + delta)) delta (set_bit array (h mod bits))
  end.

Fixpoint add_keys (k : nat) (bits : Z) (keys : list bytes) (array : bytes) : bytes :=
  match keys with
  | [] => array
  | key :: keys' =>
      let h := BloomHash key in
      let delta := delta_of h in
      add_keys k bits keys' (add_probes k bits h delta array)
  end.

(** [CreateFilter (keys, n, dst)]: the filter is appended to [dst]. *)
Definition CreateFilter (p : BloomFilterPolicy) (keys : list bytes) (dst : bytes) : bytes :=
  let n := Z.of_nat (length keys) in
  let bits := u64 (n * bits_per_key_ p) in
  let bits := if bits <? 64 then 64 else bits in
  let nbytes := u64 (bits + 7) / 8 in
  let bits := u64 (nbytes * 8) in
  dst ++ add_keys (Z.to_nat (k_ p)) bits keys (replicate (Z.to_nat nbytes) 0) ++ [k_ p].

(** The loop of [KeyMayMatch]. *)
Fixpoint all_probes (k : nat) (bits h delta : Z) (array : bytes) : bool :=
  match k with
  | O => true
  | S k' => if negb (test_bit array (h mod bits)) then false else all_probes k' bits (u32 (h + delta)) delta array
  end.

(** The state is [num_filter_hit]. [k] is read as a signed [char]: above 127 it is a
    very large number, which is above 30 as well. *)
Definition KeyMayMatch (key bloom_filter : bytes) : prog Z bool :=
  let len := length bloom_filter in
  if Nat.ltb len 2 then ret false else
  let array := bloom_filter in
  let bits := (Z.of_nat len - 1) * 8 in
  let k := nth (len - 1) array 0 in
  if k >? 30 then modify (fun n => n + 1) ;;; ret true else
  let h := BloomHash key in
  let delta := delta_of h in
  if all_probes (Z.to_nat k) bits h delta array then modify (fun n => n + 1) ;;; ret true else ret false.

(** * No key is missed *)

(** The bits of [a] are set in [b]. *)
Definition bits_le (a b : bytes) : Prop := length a = length b /\ forall i, 0 <= i -> test_bit a i = true -> test_bit b i = true.

#[global] Instance bits_le_preorder : PreOrder bits_le.
Proof. split; [by intros a|]. intros a b c [L1 H1] [L2 H2]. split; [congruence|auto]. Qed.

Lemma test_bit_testbit a i : 0 <= i -> test_bit a i = Z.testbit (nth (Z.to_nat (i / 8)) a 0) (i mod 8).
Proof.
  intros Hi. unfold test_bit. set (x := nth _ a 0). pose proof (Z.mod_pos_bound i 8 ltac:(lia)) as Hm.
  assert (E : Z.land x (Z.shiftl 1 (i mod 8)) = if Z.testbit x (i mod 8) then Z.shiftl 1 (i mod 8) else 0).
  { apply Z.bits_inj'. intros j Hj. rewrite Z.land_spec, Z.shiftl_1_l. destruct (decide (j = i mod 8)) as [->|Hne].
    - rewrite Z.pow2_bits_true by lia. destruct (Z.testbit x (i mod 8)); [by rewrite Z.pow2_bits_true by lia|by rewrite Z.bits_0].
    - rewrite Z.pow2_bits_false by lia. rewrite andb_false_r.
      destruct (Z.testbit x (i mod 8)); [by rewrite Z.pow2_bits_false by lia|by rewrite Z.bits_0]. }
  rewrite E, Z.shiftl_1_l. destruct (Z.testbit x (i mod 8)); [|done]. 
  replace (2 ^ (i mod 8) =? 0) with false; [done|]. symmetry. apply Z.eqb_neq. lia.
Qed.

Lemma set_bit_test a p i : 0 <= p -> 0 <= i -> (Z.to_nat (p / 8) < length a)%nat ->
  test_bit (set_bit a p) i = (if decide (i = p) then true else test_bit a i).
Proof.
  intros Hp Hi Hlen. rewrite !test_bit_testbit by done. unfold set_bit. pose proof (Z.mod_pos_bound p 8 ltac:(lia)) as Hm.
  pose proof (Z.div_mod p 8 ltac:(lia)). pose proof (Z.div_mod i 8 ltac:(lia)). pose proof (Z.mod_pos_bound i 8 ltac:(lia)).
  pose proof (Z.div_pos p 8 ltac:(lia) ltac:(lia)). pose proof (Z.div_pos i 8 ltac:(lia) ltac:(lia)).
  destruct (decide (i / 8 = p / 8)) as [E|E].
  - rewrite E, (nth_lookup (<[_ := _]> a)), list_lookup_insert_eq by done. cbn [from_option id].
    rewrite Z.lor_spec, Z.shiftl_1_l. case_decide as Eip.
    + subst i. rewrite Z.pow2_bits_true by lia. apply orb_true_r.
    + rewrite Z.pow2_bits_false by lia. apply orb_false_r.
  - rewrite (nth_lookup (<[_ := _]> a)), list_lookup_insert_ne by lia. rewrite <- nth_lookup. case_decide; [congruence|done].
Qed.

Lemma set_bit_le a p : 0 <= p -> (Z.to_nat (p / 8) < length a)%nat -> bits_le a (set_bit a p).
Proof.
  intros Hp Hl. split; [unfold set_bit; by rewrite length_insert|]. intros i Hi Hb. rewrite set_bit_test by done. by case_decide.
Qed.

Section filter.
Context (bits : Z) (array : bytes) (Hbits : 0 < bits) (Hlen : Z.of_nat (length array) * 8 = bits).

Lemma in_array h : 0 <= h -> 0 <= h mod bits /\ (Z.to_nat (h mod bits / 8) < length array)%nat.
Proof using Hbits Hlen.
  intros Hh. pose proof (Z.mod_pos_bound h bits Hbits). split; [lia|].
  assert (h mod bits / 8 < Z.of_nat (length array)) by (apply Z.div_lt_upper_bound; lia).
  pose proof (Z.div_pos (h mod bits) 8 ltac:(lia) ltac:(lia)). lia.
Qed.

Lemma add_probes_le k : forall h delta a, length a = length array -> 0 <= h -> bits_le a (add_probes k bits h delta a).
Proof using Hbits Hlen.
  induction k as [|k IH]; intros h delta a Ha Hh; [reflexivity|]. cbn [add_probes]. destruct (in_array h Hh) as [H1 H2].
  etrans; [apply set_bit_le; [exact H1|by rewrite Ha]|]. apply IH; [unfold set_bit; by rewrite length_insert|apply u32_range].
Qed.

Lemma add_keys_le k keys : forall a, length a = length array -> bits_le a (add_keys k bits keys a).
Proof using Hbits Hlen.
  induction keys as [|key keys IH]; intros a Ha; [reflexivity|]. cbn [add_keys].
  assert (Hh : 0 <= BloomHash key) by (apply Hash_range; lia).
  pose proof (add_probes_le k (BloomHash key) (delta_of (BloomHash key)) a Ha Hh) as Hle.
  etrans; [exact Hle|]. apply IH. destruct Hle. congruence.
Qed.

(** The probes of a key that was added are set, and stay set. *)
Lemma all_probes_le k : forall h delta a b, 0 <= h -> bits_le a b -> all_probes k bits h delta a = true -> all_probes k bits h delta b = true.
Proof using Hbits Hlen.
  induction k as [|k IH]; intros h delta a b Hh Hle; [done|]. cbn [all_probes].
  destruct (test_bit a (h mod bits)) eqn:E; [|done]. destruct (in_array h Hh) as [H1 _].
  rewrite (proj2 Hle _ H1 E). cbn [negb]. apply IH; [apply u32_range|done].
Qed.

Lemma add_probes_all k : forall h delta a, length a = length array -> 0 <= h -> all_probes k bits h delta (add_probes k bits h delta a) = true.
Proof using Hbits Hlen.
  induction k as [|k IH]; intros h delta a Ha Hh; [done|]. cbn [add_probes all_probes]. destruct (in_array h Hh) as [H1 H2].
  set (a1 := set_bit a (h mod bits)). assert (Ha1 : length a1 = length array) by (unfold a1, set_bit; by rewrite length_insert).
  assert (Ht : test_bit a1 (h mod bits) = true) by (unfold a1; rewrite set_bit_test by (done || by rewrite Ha); by rewrite decide_True).
  destruct (add_probes_le k (u32 (h + delta)) delta a1 Ha1 ltac:(apply u32_range)) as [_ Hle].
  rewrite (Hle _ H1 Ht). cbn [negb]. apply IH; [done|apply u32_range].
Qed.

Lemma add_keys_all k keys key : forall a, length a = length array -> key ∈ keys ->
  all_probes k bits (BloomHash key) (delta_of (BloomHash key)) (add_keys k bits keys a) = true.
Proof using Hbits Hlen.
  induction keys as [|key' keys IH]; intros a Ha Hin; [by apply not_elem_of_nil in Hin|]. cbn [add_keys].
  assert (Hh : 0 <= BloomHash key') by (apply Hash_range; lia).
  pose proof (add_probes_le k (BloomHash key') (delta_of (BloomHash key')) a Ha Hh) as [Hl _].
  apply elem_of_cons in Hin as [->|Hin]; [|apply IH; [congruence|done]].
  eapply all_probes_le; [done|apply add_keys_le; congruence|]. by apply add_probes_all.
Qed.
End filter.

(** Behind the array there is the number of probes. *)
Lemma all_probes_app k bits h delta a rest : 0 < bits -> Z.of_nat (length a) * 8 = bits -> 0 <= h ->
  all_probes k bits h delta (a ++ rest) = all_probes k bits h delta a.
Proof.
  intros Hb Ha. revert h. induction k as [|k IH]; intros h Hh; [done|]. cbn [all_probes].
  destruct (in_array bits a Hb Ha h Hh) as [_ H2]. rewrite IH by apply u32_range. unfold test_bit. by rewrite app_nth1.
Qed.

Lemma probes_bound bits_per_key : 1 <= k_ (BloomFilterPolicy_new bits_per_key) <= 30.
Proof.
  unfold BloomFilterPolicy_new. cbn [k_]. set (k := bits_per_key * 69 / 100). destruct (Z.ltb_spec k 1).
  - cbn. lia.
  - rewrite Z.gtb_ltb. destruct (Z.ltb_spec 30 k); lia.
Qed.

(** C31: a filter made from any keys answers "may match" for each of them, so a lookup
    that trusts the filter misses no key; every such answer is counted. *)
Theorem bloom_no_false_negatives (bits_per_key hits : Z) (keys : list bytes) (key dst : bytes) :
  0 <= bits_per_key < 2 ^ 31 -> Z.of_nat (length keys) < 2 ^ 31 -> key ∈ keys ->
  KeyMayMatch key (drop (length dst) (CreateFilter (BloomFilterPolicy_new bits_per_key) keys dst)) hits = Ret true (hits + 1).
Proof.
  intros Hb Hn Hin. unfold CreateFilter. rewrite drop_app_length. set (k := k_ (BloomFilterPolicy_new bits_per_key)).
  assert (Hk : 1 <= k <= 30) by apply probes_bound.
  set (bits := if _ <? 64 then 64 else _). assert (Hbits : 64 <= bits < 2 ^ 63).
  { unfold bits, BloomFilterPolicy_new. cbn [bits_per_key_]. rewrite (u64_small bits_per_key) by lia.
    rewrite u64_small by nia. destruct (Z.ltb_spec (Z.of_nat (length keys) * bits_per_key) 64); [lia|]. split; [lia|nia]. }
  clearbody bits. rewrite (u64_small (bits + 7)) by lia. set (nbytes := (bits + 7) / 8).
  pose proof (Z.div_mod (bits + 7) 8 ltac:(lia)) as Hd. pose proof (Z.mod_pos_bound (bits + 7) 8 ltac:(lia)).
  assert (Hnb : 8 <= nbytes < 2 ^ 61) by (unfold nbytes in *; lia). clearbody nbytes. rewrite u64_small by lia.
  set (a := add_keys (Z.to_nat k) (nbytes * 8) keys (replicate (Z.to_nat nbytes) 0)).
  assert (Ha : Z.of_nat (length (replicate (Z.to_nat nbytes) 0)) * 8 = nbytes * 8) by (rewrite length_replicate; lia).
  assert (Hla : length a = Z.to_nat nbytes).
  { destruct (add_keys_le (nbytes * 8) _ ltac:(lia) Ha (Z.to_nat k) keys (replicate (Z.to_nat nbytes) 0) eq_refl) as [Hl _].
    rewrite length_replicate in Hl. by symmetry. }
  unfold KeyMayMatch. rewrite length_app, Hla. cbn [length]. rewrite (proj2 (Nat.ltb_ge _ 2)) by lia.
  replace (nth (Z.to_nat nbytes + 1 - 1) (a ++ [k]) 0) with k.
  2: { rewrite app_nth2 by lia. replace (Z.to_nat nbytes + 1 - 1 - length a)%nat with 0%nat by lia. done. }
  rewrite Z.gtb_ltb, (proj2 (Z.ltb_ge 30 k)) by lia.
  replace ((Z.of_nat (Z.to_nat nbytes + 1) - 1) * 8) with (nbytes * 8) by lia.
  rewrite all_probes_app by (rewrite ?Hla; first [lia|apply Hash_range; lia]).
  unfold a. by rewrite (add_keys_all (nbytes * 8) (replicate (Z.to_nat nbytes) 0)) by (done || lia).
Qed.

Lemma bloom_no_false_negatives_witness :
  KeyMayMatch (str "b") (drop 3 (CreateFilter (BloomFilterPolicy_new 10) [str "a"; str "b"] (str "xyz"))) 4 = Ret true 5.
Proof.
  apply (bloom_no_false_negatives 10 4 [str "a"; str "b"] (str "b") (str "xyz")); [lia|cbn; lia|]. right. left.
Defined.

(** A key that was not added is ruled out. *)
Lemma bloom_rules_out : KeyMayMatch (str "c") (CreateFilter (BloomFilterPolicy_new 10) [str "a"; str "b"] []) 4 = Ret false 4.
Proof. vm_compute. reflexivity. Qed.
