(* ===== verification/WriteBatch.v ===== *)
(** Write batches: [src/lib/leveldb/db/write_batch.cc] and the part of
    [include/leveldb/status.h] it uses.

    A batch is its byte string [rep_]: an 8-byte sequence number, a 4-byte count
    and one record per operation. [Iterate] replays the records on a handler,
    which is how every store behind [KvWrapper::Write] applies a batch. *)

From S2P Require Import Prelude Coding.

Inductive Status : Type :=
| Status_OK
| Status_NotFound
| Status_Corruption (msg : string)
| Status_IOError.

#[global] Instance Status_eq_dec : EqDecision Status.
Proof. solve_decision. Defined.

Definition Status_ok (s : Status) : bool := bool_decide (s = Status_OK).

(** The options of a write ([include/leveldb/options.h]). *)
Record WriteOptions : Type := mkWriteOptions { wo_sync : bool; wo_writeahead : bool }.

Definition WriteOptions_new : WriteOptions := mkWriteOptions false true.

Definition kHeader : nat := 12.
Definition kTypeDeletion : Z := 0.
Definition kTypeValue : Z := 1.

(** [WriteBatch::Handler], over the state [S] it acts on. *)
Record Handler (S : Type) : Type := mkHandler {
  handler_Put : bytes -> bytes -> S -> S;
  handler_Delete : bytes -> S -> S
}.
Arguments mkHandler {S}.
Arguments handler_Put {S}.
Arguments handler_Delete {S}.

(** [rep_.clear(); rep_.resize(kHeader);] *)
Definition WriteBatch_Clear : bytes := str_resize [] kHeader.

Definition Count (rep : bytes) : Z := i32 (DecodeFixed32 (drop 8 rep)).

Definition SetCount (rep : bytes) (n : Z) : bytes :=
  str_replace rep 8 4 (EncodeFixed32 n).

Definition Sequence (rep : bytes) : Z := DecodeFixed64 rep.

Definition SetSequence (rep : bytes) (seq : Z) : bytes :=
  str_replace rep 0 8 (EncodeFixed64 seq).

Definition WriteBatch_Put (rep key value : bytes) : bytes :=
  let rep := SetCount rep (Count rep + 1) in
  let rep := rep ++ [kTypeValue] in
  let rep := PutLengthPrefixedSlice rep key in
  PutLengthPrefixedSlice rep value.

Definition WriteBatch_Delete (rep key : bytes) : bytes :=
  let rep := SetCount rep (Count rep + 1) in
  let rep := rep ++ [kTypeDeletion] in
  PutLengthPrefixedSlice rep key.

(** The loop of [Iterate]. Each round consumes at least the tag byte, so the
    length of the input bounds the number of rounds; [total] is the count the
    header announces. *)
Fixpoint Iterate_loop {S} (handler : Handler S) (total : Z) (fuel : nat)
    (input : bytes) (found : Z) (s : S) : Status * S :=
  match input, fuel with
  | [], _ =>
      (if negb (found =? total) then Status_Corruption "WriteBatch has wrong count"
       else Status_OK, s)
  | tag :: input, Datatypes.S fuel' =>
      let found := found + 1 in
      if tag =? kTypeValue then
        match GetLengthPrefixedSlice input with
        | Some (key, input) =>
            match GetLengthPrefixedSlice input with
            | Some (value, input) =>
                Iterate_loop handler total fuel' input found (handler_Put handler key value s)
            | None => (Status_Corruption "bad WriteBatch Put", s)
            end
        | None => (Status_Corruption "bad WriteBatch Put", s)
        end
      else if tag =? kTypeDeletion then
        match GetLengthPrefixedSlice input with
        | Some (key, input) =>
            Iterate_loop handler total fuel' input found (handler_Delete handler key s)
        | None => (Status_Corruption "bad WriteBatch Delete", s)
        end
      else (Status_Corruption "unknown WriteBatch tag", s)
  | _ :: _, O => (Status_Corruption "out of fuel", s)
  end.

Definition Iterate {S} (handler : Handler S) (rep : bytes) (s : S) : Status * S :=
  if decide (length rep < kHeader)%nat
  then (Status_Corruption "malformed WriteBatch (too small)", s)
  else let input := drop kHeader rep in
       Iterate_loop handler (Count rep) (length input) input 0 s.

(** [WriteBatchInternal::Append]. *)
Definition Append (dst src : bytes) : bytes :=
  SetCount dst (Count dst + Count src) ++ drop kHeader src.

(** * What a batch means *)

Inductive batch_op : Type :=
| BPut (key value : bytes)
| BDelete (key : bytes).

(** The batch a client builds with a sequence of calls. *)
Definition add_op (rep : bytes) (op : batch_op) : bytes :=
  match op with
  | BPut k v => WriteBatch_Put rep k v
  | BDelete k => WriteBatch_Delete rep k
  end.

Definition build (ops : list batch_op) : bytes := foldl add_op WriteBatch_Clear ops.

(** Applying the operations in order. *)
Definition run_op {S} (h : Handler S) (s : S) (op : batch_op) : S :=
  match op with
  | BPut k v => handler_Put h k v s
  | BDelete k => handler_Delete h k s
  end.

Definition str_ok (l : bytes) : Prop := bytes_ok l /\ Z.of_nat (length l) < 2 ^ 32.

Definition op_ok (op : batch_op) : Prop :=
  match op with
  | BPut k v => str_ok k /\ str_ok v
  | BDelete k => str_ok k
  end.

(** * Lemmas *)

Definition enc_str (l : bytes) : bytes := PutLengthPrefixedSlice [] l.

Definition enc_op (op : batch_op) : bytes :=
  match op with
  | BPut k v => kTypeValue :: enc_str k ++ enc_str v
  | BDelete k => kTypeDeletion :: enc_str k
  end.

Definition enc_ops (ops : list batch_op) : bytes := mjoin (enc_op <$> ops).

Lemma PutLengthPrefixedSlice_app dst l : PutLengthPrefixedSlice dst l = dst ++ enc_str l.
Proof. unfold enc_str, PutLengthPrefixedSlice, PutVarint32. by rewrite <- !app_assoc. Qed.

Lemma enc_str_ok l : str_ok l -> bytes_ok (enc_str l).
Proof.
  intros [Hl Hn]. unfold enc_str, PutLengthPrefixedSlice, PutVarint32.
  rewrite app_nil_l. apply bytes_ok_app. split; [|done].
  apply EncodeVarint32_ok. rewrite u32_small; lia.
Qed.

Lemma enc_op_ok op : op_ok op -> bytes_ok (enc_op op).
Proof.
  destruct op as [k v|k]; simpl; intros H.
  - destruct H as [Hk Hv]. constructor; [unfold byte_ok, kTypeValue; lia|].
    apply bytes_ok_app. auto using enc_str_ok.
  - constructor; [unfold byte_ok, kTypeDeletion; lia|]. by apply enc_str_ok.
Qed.

Lemma enc_ops_ok ops : Forall op_ok ops -> bytes_ok (enc_ops ops).
Proof.
  induction 1 as [|op ops Hop _ IH]; [constructor|].
  apply bytes_ok_app. auto using enc_op_ok.
Qed.

(** A batch: header with sequence number 0 and count [n], then the records. *)
Definition batch_rep (n : Z) (body : bytes) : bytes :=
  replicate 8 0 ++ le_bytes 4 n ++ body.

Lemma Count_batch_rep n body : 0 <= n < 2 ^ 31 -> Count (batch_rep n body) = n.
Proof.
  intros Hn. unfold Count, DecodeFixed32, batch_rep.
  rewrite drop_app_ge by len. simpl Nat.sub. rewrite drop_0.
  rewrite take_app_le by len. rewrite take_ge by len.
  rewrite le_val_bytes, Z.mod_small by (cbn; lia). by apply i32_small.
Qed.

Lemma SetCount_batch_rep n m body : SetCount (batch_rep n body) m = batch_rep m body.
Proof.
  unfold SetCount, str_replace, batch_rep, EncodeFixed32.
  by rewrite take_app_le, take_ge by len.
Qed.

Lemma batch_rep_app n body l : batch_rep n body ++ l = batch_rep n (body ++ l).
Proof. unfold batch_rep. by rewrite <- !app_assoc. Qed.

Lemma add_op_batch_rep n body op :
  0 <= n < 2 ^ 31 -> add_op (batch_rep n body) op = batch_rep (n + 1) (body ++ enc_op op).
Proof.
  intros Hn. destruct op as [k v|k]; simpl; unfold WriteBatch_Put, WriteBatch_Delete;
    rewrite Count_batch_rep, SetCount_batch_rep by done;
    rewrite !PutLengthPrefixedSlice_app, !batch_rep_app; f_equal;
    rewrite <- !app_assoc; reflexivity.
Qed.

Lemma foldl_add_op ops n body :
  0 <= n -> n + Z.of_nat (length ops) < 2 ^ 31 ->
  foldl add_op (batch_rep n body) ops =
  batch_rep (n + Z.of_nat (length ops)) (body ++ enc_ops ops).
Proof.
  revert n body. induction ops as [|op ops IH]; intros n body Hn Hl; simpl length in *.
  - simpl. by rewrite Z.add_0_r, app_nil_r.
  - simpl foldl. rewrite add_op_batch_rep, IH by lia. f_equal; [lia|].
    unfold enc_ops. simpl. by rewrite <- app_assoc.
Qed.

Lemma build_rep ops :
  Z.of_nat (length ops) < 2 ^ 31 -> build ops = batch_rep (Z.of_nat (length ops)) (enc_ops ops).
Proof.
  intros Hl. unfold build.
  replace WriteBatch_Clear with (batch_rep 0 []) by reflexivity.
  rewrite foldl_add_op by lia. by rewrite app_nil_l.
Qed.

Lemma GetLengthPrefixedSlice_enc l rest :
  str_ok l -> bytes_ok rest -> GetLengthPrefixedSlice (enc_str l ++ rest) = Some (l, rest).
Proof. intros [Hl Hn] Hr. by apply length_prefixed_roundtrip. Qed.

Lemma length_enc_str l : (0 < length (enc_str l))%nat.
Proof.
  unfold enc_str, PutLengthPrefixedSlice, PutVarint32, EncodeVarint32.
  rewrite app_nil_l, length_app. repeat case_bool; simpl; lia.
Qed.

Lemma Iterate_loop_ops {S} (h : Handler S) ops total fuel found s :
  Forall op_ok ops -> (length (enc_ops ops) <= fuel)%nat ->
  found + Z.of_nat (length ops) = total ->
  Iterate_loop h total fuel (enc_ops ops) found s = (Status_OK, foldl (run_op h) s ops).
Proof.
  intros Hops. revert fuel found s.
  induction Hops as [|op ops Hop Hops IH]; intros fuel found s Hf Ht.
  - simpl in *. rewrite Z.add_0_r in Ht. subst.
    destruct fuel; simpl; by rewrite Z.eqb_refl.
  - simpl length in Ht.
    assert (bytes_ok (enc_ops ops)) as Hok by by apply enc_ops_ok.
    change (enc_ops (op :: ops)) with (enc_op op ++ enc_ops ops) in *.
    destruct op as [k v|k]; cbn [enc_op app length foldl run_op] in *;
      (destruct fuel as [|fuel]; [lia|]); cbn [Iterate_loop].
    + destruct Hop as [Hk Hv]. change (kTypeValue =? kTypeValue) with true. cbv iota.
      rewrite <- app_assoc, GetLengthPrefixedSlice_enc
        by first [done | apply bytes_ok_app; auto using enc_str_ok].
      rewrite GetLengthPrefixedSlice_enc by done.
      rewrite !length_app in Hf. apply IH; lia.
    + change (kTypeDeletion =? kTypeValue) with false.
      change (kTypeDeletion =? kTypeDeletion) with true. cbv iota.
      rewrite GetLengthPrefixedSlice_enc by done. rewrite length_app in Hf. apply IH; lia.
Qed.

Lemma drop_batch_rep n body : drop kHeader (batch_rep n body) = body.
Proof.
  unfold kHeader, batch_rep. rewrite drop_app_ge by len. rewrite drop_app_ge by len.
  rewrite length_le_bytes. apply drop_0.
Qed.

Lemma Iterate_build {S} (h : Handler S) ops s :
  Forall op_ok ops -> Z.of_nat (length ops) < 2 ^ 31 ->
  Iterate h (build ops) s = (Status_OK, foldl (run_op h) s ops).
Proof.
  intros Hops Hl. rewrite build_rep by done. unfold Iterate.
  rewrite decide_False; cycle 1.
  { unfold batch_rep, kHeader. len. }
  rewrite drop_batch_rep, Count_batch_rep by lia. by apply Iterate_loop_ops.
Qed.

(** The rounds of the loop never run out: more fuel changes nothing. *)
Lemma GetLengthPrefixedSlice_shrinks input k rest :
  GetLengthPrefixedSlice input = Some (k, rest) -> (length rest < length input)%nat.
Proof.
  unfold GetLengthPrefixedSlice, GetVarint32.
  destruct (GetVarint32Ptr input) as [[len input']|] eqn:E; [|done].
  assert (length input' < length input)%nat as Hlt.
  { assert (forall w n shift r p q, GetVarint_loop w n shift r p = Some q ->
              (length q.2 < length p)%nat) as Hloop.
    { intros w n. induction n as [|n IH]; intros shift r [|b p] q H; simpl in H; try done.
      case_bool; [apply IH in H; simpl; lia|]. simplify_eq. simpl. lia. }
    destruct input as [|b input]; simpl in E; [done|].
    case_bool; [simplify_eq; simpl; lia|]. by apply Hloop in E. }
  case_bool; intros ?; simplify_eq. rewrite length_drop. lia.
Qed.

Lemma Iterate_loop_fuel {S} (h : Handler S) total fuel fuel' input found s :
  (length input <= fuel)%nat -> (length input <= fuel')%nat ->
  Iterate_loop h total fuel input found s = Iterate_loop h total fuel' input found s.
Proof.
  revert fuel' input found s. induction fuel as [|fuel IH]; intros fuel' input found s H1 H2.
  { destruct input; simpl in *; [by destruct fuel'|lia]. }
  destruct input as [|tag input]; [by destruct fuel'|].
  destruct fuel' as [|fuel']; simpl in *; [lia|].
  assert (forall rest found s, (length rest <= length input)%nat ->
            Iterate_loop h total fuel rest found s = Iterate_loop h total fuel' rest found s)
    as IH' by (intros; apply IH; lia).
  case_bool; [|case_bool; [|done]];
    destruct (GetLengthPrefixedSlice input) as [[k r]|] eqn:E1; try done;
    apply GetLengthPrefixedSlice_shrinks in E1.
  - destruct (GetLengthPrefixedSlice r) as [[v r']|] eqn:E2; [|done].
    apply GetLengthPrefixedSlice_shrinks in E2. apply IH'. lia.
  - apply IH'. lia.
Qed.
