(* ===== verification/Comparator.v ===== *)
(** The order of keys: [Slice::compare] of
    [src/lib/leveldb/include/leveldb/slice.h], the interface
    [include/leveldb/comparator.h] with its contract, and the bytewise comparator of
    [util/comparator.cc], which meets it.

    A slice is shorter than 2^31 bytes, so that its size is an [int]. *)

From S2P Require Import Prelude.

Set Default Proof Using "Type".

(** The sign of [memcmp] over the first [n] bytes. *)
Fixpoint memcmp (a b : bytes) (n : nat) : Z :=
  match n, a, b with
  | S n', x :: a', y :: b' => if x <? y then -1 else if y <? x then 1 else memcmp a' b' n'
  | _, _, _ => 0
  end.

Definition compare (a b : bytes) : Z :=
  let min_len := if (length a <? length b)%nat then length a else length b in
  let r := memcmp a b min_len in
  if r =? 0 then
    if (length a <? length b)%nat then -1 else if (length b <? length a)%nat then 1 else r
  else r.

(** ** The interface

    The two methods that change a string run in the state of that string. *)

Record Comparator : Type := mkComparator {
  Compare : bytes -> bytes -> Z;
  FindShortestSeparator : bytes -> prog bytes unit;
  FindShortSuccessor : prog bytes unit }.

(** The contract, on the keys the comparator is for. *)
Class ComparatorOk (c : Comparator) (dom : bytes -> Prop) : Prop := {
  cmp_eq a b : dom a -> dom b -> (Compare c a b = 0 <-> a = b);
  cmp_flip a b : dom a -> dom b -> (Compare c a b < 0 <-> 0 < Compare c b a);
  cmp_trans a b d : dom a -> dom b -> dom d -> Compare c a b < 0 -> Compare c b d < 0 -> Compare c a d < 0;
  cmp_separator start limit : dom start -> dom limit -> Compare c start limit < 0 ->
    exists s, FindShortestSeparator c limit start = Ret tt s /\ dom s /\ Compare c start s <= 0 /\ Compare c s limit < 0;
  cmp_no_separator start limit : dom start -> dom limit -> 0 <= Compare c start limit ->
    FindShortestSeparator c limit start = Ret tt start;
  cmp_successor key : dom key -> exists s, FindShortSuccessor c key = Ret tt s /\ dom s /\ Compare c key s <= 0 }.

(** ** The bytewise comparator *)

(** The loop for the length of the common prefix. *)
Fixpoint common_prefix (a b : bytes) (n : nat) : nat :=
  match n, a, b with
  | S n', x :: a', y :: b' => if x =? y then S (common_prefix a' b' n') else 0
  | _, _, _ => 0
  end.

Definition bytewise_separator (limit : bytes) : prog bytes unit :=
  start <- get_state ;;
  let min_length := Nat.min (length start) (length limit) in
  let diff_index := common_prefix start limit min_length in
  if (min_length <=? diff_index)%nat then ret tt
  else
    let diff_byte := nth diff_index start 0 in
    if (diff_byte <? 255) && (diff_byte + 1 <? nth diff_index limit 0) then
      modify (fun s => <[diff_index := diff_byte + 1]> s) ;;;
      modify (fun s => str_resize s (diff_index + 1)) ;;;
      start <- get_state ;;
      assert_ (compare start limit <? 0)
    else ret tt.

(** The loop over the bytes of the key. *)
Fixpoint first_not_ff (key : bytes) (i : nat) : option nat :=
  match key with
  | [] => None
  | b :: key' => if negb (b =? 255) then Some i else first_not_ff key' (S i)
  end.

Definition bytewise_successor : prog bytes unit :=
  key <- get_state ;;
  match first_not_ff key 0 with
  | Some i =>
      modify (fun k => <[i := nth i key 0 + 1]> k) ;;;
      modify (fun k => str_resize k (i + 1))
  | None => ret tt
  end.

Definition BytewiseComparator : Comparator := mkComparator compare bytewise_separator bytewise_successor.

(** ** The order is the lexicographic one *)

Fixpoint lex (a b : bytes) : Z :=
  match a, b with
  | [], [] => 0
  | [], _ => -1
  | _, [] => 1
  | x :: a', y :: b' => if x <? y then -1 else if y <? x then 1 else lex a' b'
  end.

Lemma compare_lex a b : compare a b = lex a b.
Proof.
  unfold compare. revert b. induction a as [|x a IH]; intros [|y b]; try done.
  cbn [length lex]. specialize (IH b).
  change (S (length a) <? S (length b))%nat with (length a <? length b)%nat.
  change (S (length b) <? S (length a))%nat with (length b <? length a)%nat.
  rewrite <- IH. destruct (length a <? length b)%nat eqn:E; cbn [memcmp];
    destruct (x <? y) eqn:E1, (y <? x) eqn:E2; done.
Qed.

Lemma lex_eq a b : lex a b = 0 <-> a = b.
Proof.
  revert b. induction a as [|x a IH]; intros [|y b]; simpl; try done.
  split_tests; rewrite ?IH; split; intros H; try done; try (by simplify_eq; lia).
  - f_equal; [lia|done].
  - by simplify_eq.
Qed.

Lemma lex_flip a b : lex a b < 0 <-> 0 < lex b a.
Proof.
  revert b. induction a as [|x a IH]; intros [|y b]; simpl; try lia. split_tests. apply IH.
Qed.

Lemma lex_trans a b c : lex a b < 0 -> lex b c < 0 -> lex a c < 0.
Proof.
  revert b c. induction a as [|x a IH]; intros [|y b] [|z c]; simpl; try lia.
  split_tests. apply IH.
Qed.

Lemma common_prefix_spec a b n i :
  (n <= length a)%nat -> (n <= length b)%nat -> common_prefix a b n = i -> (i < n)%nat ->
  exists p x y a' b', a = p ++ x :: a' /\ b = p ++ y :: b' /\ length p = i /\ x <> y.
Proof.
  revert a b i. induction n as [|n IH]; intros [|x a] [|y b] i Ha Hb Hi Hlt; simpl in *; try lia.
  destruct (Z.eqb_spec x y) as [->|Hne].
  - destruct (IH a b (pred i)) as (p & x & y' & a' & b' & -> & -> & Hp & Hxy); [lia..|].
    exists (y :: p), x, y', a', b'. split_and!; try done. simpl. lia.
  - subst i. by exists [], x, y, a, b.
Qed.

Lemma lex_app p a b : lex (p ++ a) (p ++ b) = lex a b.
Proof. induction p as [|x p IH]; simpl; [done|]. split_tests. Qed.

(** Raising one byte and cutting the rest. *)
Lemma raised_resize (p a : bytes) x :
  str_resize (<[length p := x + 1]> (p ++ x :: a)) (length p + 1) = p ++ [x + 1].
Proof.
  rewrite str_resize_shrink by (rewrite length_insert, length_app; simpl; lia).
  rewrite insert_app_r_alt, Nat.sub_diag by lia. simpl.
  rewrite take_app_ge by lia. f_equal. by replace (length p + 1 - length p)%nat with 1%nat by lia.
Qed.

Lemma raised_ok (p a : bytes) x : x + 1 < 256 -> bytes_ok (p ++ x :: a) -> bytes_ok (p ++ [x + 1]).
Proof.
  intros Hx [Hp Ha]%bytes_ok_app. apply bytes_ok_app. split; [done|].
  apply Forall_cons_1 in Ha as [Hb _]. unfold byte_ok in Hb. repeat constructor; lia.
Qed.

Lemma separator_ok start limit :
  bytes_ok start -> bytes_ok limit -> lex start limit < 0 ->
  exists s, bytewise_separator limit start = Ret tt s /\ bytes_ok s /\ lex start s <= 0 /\ lex s limit < 0.
Proof.
  intros Hs Hl Hlt. assert (lex start start <= 0) as Hr by (by rewrite (proj2 (lex_eq start start))).
  unfold bytewise_separator, bind, get_state, modify.
  destruct (Nat.leb_spec (Nat.min (length start) (length limit)) (common_prefix start limit (Nat.min (length start) (length limit)))) as [|Hd]; [by eauto|].
  destruct (common_prefix_spec start limit _ _ (Nat.le_min_l _ _) (Nat.le_min_r _ _) eq_refl Hd) as (p & x & y & a & b & -> & -> & Hp & Hxy).
  rewrite <- Hp, !nth_middle. destruct (_ && _) eqn:E; [|by eauto 6]. bool_to_prop.
  rewrite raised_resize. assert (lex (p ++ [x + 1]) (p ++ y :: b) < 0) as H2 by (rewrite lex_app; simpl; split_tests).
  rewrite compare_lex. destruct (Z.ltb_spec (lex (p ++ [x + 1]) (p ++ y :: b)) 0); [|lia].
  eexists. split; [done|]. split; [|split; [|done]]; [by apply raised_ok with a; [lia|]|].
  rewrite lex_app. simpl. split_tests.
Qed.

Lemma no_separator start limit : 0 <= lex start limit -> bytewise_separator limit start = Ret tt start.
Proof.
  intros Hge. unfold bytewise_separator, bind, get_state, modify.
  destruct (Nat.leb_spec (Nat.min (length start) (length limit)) (common_prefix start limit (Nat.min (length start) (length limit)))) as [|Hd]; [done|].
  destruct (common_prefix_spec start limit _ _ (Nat.le_min_l _ _) (Nat.le_min_r _ _) eq_refl Hd) as (p & x & y & a & b & -> & -> & Hp & Hxy).
  rewrite <- Hp, !nth_middle. rewrite lex_app in Hge. simpl in Hge.
  destruct (_ && _) eqn:E; [|done]. bool_to_prop. split_tests.
Qed.

Lemma first_not_ff_spec key j i :
  first_not_ff key j = Some i -> exists p x a, key = p ++ x :: a /\ i = (j + length p)%nat /\ x <> 255.
Proof.
  revert j. induction key as [|b key IH]; intros j; simpl; [done|].
  destruct (Z.eqb_spec b 255); simpl.
  - intros (p & x & a & -> & -> & Hx)%IH. exists (b :: p), x, a. simpl. split_and!; [done|lia|done].
  - intros [= <-]. exists [], b, key. simpl. split_and!; [done|lia|done].
Qed.

Lemma successor_ok key :
  bytes_ok key -> exists s, bytewise_successor key = Ret tt s /\ bytes_ok s /\ lex key s <= 0.
Proof.
  intros Hk. unfold bytewise_successor, bind, get_state, modify.
  destruct (first_not_ff key 0) as [i|] eqn:E.
  - apply first_not_ff_spec in E as (p & x & a & -> & -> & Hx). simpl (0 + _)%nat. rewrite nth_middle, raised_resize.
    eexists. split; [done|]. split; [|rewrite lex_app; simpl; split_tests]. apply raised_ok with a; [|done].
    apply bytes_ok_app in Hk as [_ Hk]. apply Forall_cons_1 in Hk as [Hb _]. unfold byte_ok in Hb. lia.
  - eexists. split; [done|]. by rewrite (proj2 (lex_eq key key)).
Qed.

#[global] Instance BytewiseComparator_ok : ComparatorOk BytewiseComparator bytes_ok.
Proof.
  split; simpl; intros *; rewrite ?compare_lex; intros.
  - apply lex_eq.
  - apply lex_flip.
  - by eapply lex_trans.
  - destruct (separator_ok start limit) as (s & ?); [done..|]. exists s. by rewrite !compare_lex.
  - by apply no_separator.
  - destruct (successor_ok key) as (s & ?); [done|]. exists s. by rewrite compare_lex.
Qed.

Lemma cmp_refl c dom `{!ComparatorOk c dom} a : dom a -> Compare c a a = 0.
Proof. intros H. by apply cmp_eq. Qed.
