(* ===== verification/Iterators.v ===== *)
(** The interface of iterators: [src/lib/leveldb/include/leveldb/iterator.h] and
    [table/iterator.cc].

    The abstract class is a record of its operations on a state; what a class that
    implements it promises is [IteratorOk]: the iterator is a position in a list of
    entries. Clients are verified against this promise, and the iterators over blocks,
    memtables and merged iterators keep it. *)

From stdpp Require Import sorting.
From S2P Require Import Prelude Comparator.

Set Default Proof Using "Type".

(** The status is whether it is ok. *)
Record IteratorOps (S : Type) : Type := mkIteratorOps {
  it_Valid : prog S bool;
  it_SeekToFirst : prog S unit;
  it_SeekToLast : prog S unit;
  it_Seek : bytes -> prog S unit;
  it_Next : prog S unit;
  it_Prev : prog S unit;
  it_key : prog S bytes;
  it_value : prog S bytes;
  it_status : prog S bool }.
Arguments mkIteratorOps {S}.
Arguments it_Valid {S}.
Arguments it_SeekToFirst {S}.
Arguments it_SeekToLast {S}.
Arguments it_Seek {S}.
Arguments it_Next {S}.
Arguments it_Prev {S}.
Arguments it_key {S}.
Arguments it_value {S}.
Arguments it_status {S}.

(** ** The empty iterator, with a status *)

Definition EmptyIterator : IteratorOps bool :=
  mkIteratorOps (ret false) (ret tt) (ret tt) (fun _ => ret tt)
    (assert_ false) (assert_ false)
    (assert_ false ;;; ret []) (assert_ false ;;; ret [])
    get_state.

(** ** Histories of an iterator *)

Inductive iter_op : Type :=
| OpSeekToFirst
| OpSeekToLast
| OpSeek (target : bytes)
| OpNext
| OpPrev.

Section histories.
Context {S : Type} (I : IteratorOps S).

Definition move (op : iter_op) : prog S unit :=
  match op with
  | OpSeekToFirst => it_SeekToFirst I
  | OpSeekToLast => it_SeekToLast I
  | OpSeek target => it_Seek I target
  | OpNext => it_Next I
  | OpPrev => it_Prev I
  end.

(** What a client sees: the entry if there is one, and whether the status is ok. *)
Definition observe : prog S (option (bytes * bytes) * bool) :=
  v <- it_Valid I ;;
  e <- (if (v : bool) then k <- it_key I ;; x <- it_value I ;; ret (Some (k, x)) else ret None) ;;
  s <- it_status I ;;
  ret (e, s).

Fixpoint moves (ops : list iter_op) : prog S (list (option (bytes * bytes) * bool)) :=
  match ops with
  | [] => ret []
  | op :: ops' =>
      move op ;;;
      x <- observe ;;
      xs <- moves ops' ;;
      ret (x :: xs)
  end.
End histories.

(** ** The specification: a position in the list of entries *)

Definition target_in (dom : bytes -> Prop) (op : iter_op) : Prop :=
  match op with OpSeek target => dom target | _ => True end.

Definition before (i : nat) : option nat := match i with O => None | S j => Some j end.

Section cursor_spec.
Context (c : Comparator) (kvs : list (bytes * bytes)).

Definition position (i : nat) : option nat := if (i <? length kvs)%nat then Some i else None.

Definition spec_op (op : iter_op) : prog (option nat) unit :=
  match op with
  | OpSeekToFirst => modify (fun _ => position 0)
  | OpSeekToLast => modify (fun _ => before (length kvs))
  | OpSeek target => modify (fun _ => fst <$> list_find (fun kv => 0 <= Compare c (fst kv) target) kvs)
  | OpNext => i <- (fun p => deref AssertFailed p p) ;; modify (fun _ => position (S i))
  | OpPrev => i <- (fun p => deref AssertFailed p p) ;; modify (fun _ => before i)
  end.

Fixpoint spec_ops (ops : list iter_op) : prog (option nat) (list (option (bytes * bytes) * bool)) :=
  match ops with
  | [] => ret []
  | op :: ops' =>
      spec_op op ;;;
      x <- gets (fun p => (p ≫= fun i => kvs !! i, true)) ;;
      xs <- spec_ops ops' ;;
      ret (x :: xs)
  end.
End cursor_spec.

Lemma position_middle a b : position (a ++ b) (length a) = match b with [] => None | _ => Some (length a) end.
Proof.
  unfold position. rewrite length_app. destruct b; simpl; case_bool; rewrite ?Nat.ltb_lt, ?Nat.ltb_ge in *; done || lia.
Qed.

Lemma find_position (P : bytes * bytes -> Prop) `{!forall x, Decision (P x)} a b :
  (forall x, x ∈ a -> ~ P x) -> (forall x, head b = Some x -> P x) ->
  fst <$> list_find P (a ++ b) = position (a ++ b) (length a).
Proof.
  intros Ha Hb. rewrite position_middle. destruct b as [|x b].
  - rewrite app_nil_r. destruct (list_find P a) as [[i y]|] eqn:E; [|done].
    apply list_find_Some in E as (Hi & Hp & _). by destruct (Ha y (list_elem_of_lookup_2 _ _ _ Hi)).
  - assert (list_find P (a ++ x :: b) = Some (length a, x)) as ->; [|done]. apply list_find_Some. split_and!.
    + by apply list_lookup_middle.
    + by apply Hb.
    + intros j y Hj Hlt. rewrite lookup_app_l in Hj by done. apply Ha. by eapply list_elem_of_lookup_2.
Qed.

Lemma find_split {A} (P : A -> Prop) `{!forall x, Decision (P x)} l :
  exists a b, l = a ++ b /\ (forall x, x ∈ a -> ~ P x) /\ (forall x, head b = Some x -> P x).
Proof.
  induction l as [|x l (a & b & -> & Ha & Hb)]; [exists [], []; split_and!; [done|by intros x ?%elem_of_nil|done]|].
  destruct (decide (P x)).
  - exists [], (x :: a ++ b). split_and!; [done|by intros y ?%elem_of_nil|]. intros y [= <-]. done.
  - exists (x :: a), b. split_and!; [done| |done]. by intros y [->|Hy]%elem_of_cons; [|apply Ha].
Qed.

(** What a program returns, without its state. *)
Definition result {S A} (x : outcome S A) : outcome unit A :=
  match x with
  | Ret a _ => Ret a tt
  | Exit n _ => Exit n tt
  | UB w => UB w
  end.

(** ** What an iterator promises

    [at_ p s]: the iterator in state [s] is at the position [p] of the entries. *)

Class IteratorOk {S} (I : IteratorOps S) (c : Comparator) (dom : bytes -> Prop) (kvs : list (bytes * bytes))
    (at_ : option nat -> S -> Prop) : Prop := {
  io_move op p s : at_ p s -> target_in dom op ->
    match spec_op c kvs op p with
    | Ret _ p' => exists s', move I op s = Ret tt s' /\ at_ p' s'
    | Exit _ _ => False
    | UB w => move I op s = UB w
    end;
  io_valid p s : at_ p s -> it_Valid I s = Ret (bool_decide (is_Some p)) s;
  io_entry i s : at_ (Some i) s -> exists k v, kvs !! i = Some (k, v) /\ it_key I s = Ret k s /\ it_value I s = Ret v s;
  io_status p s : at_ p s -> it_status I s = Ret true s }.

(** What a client sees of an iterator at a position. *)
Lemma observe_at {S} (I : IteratorOps S) (kvs : list (bytes * bytes)) (at_ : option nat -> S -> Prop) p s :
  (forall p s, at_ p s -> it_Valid I s = Ret (bool_decide (is_Some p)) s) ->
  (forall i s, at_ (Some i) s -> exists k v, kvs !! i = Some (k, v) /\ it_key I s = Ret k s /\ it_value I s = Ret v s) ->
  (forall p s, at_ p s -> it_status I s = Ret true s) ->
  at_ p s -> observe I s = Ret (p ≫= fun i => kvs !! i, true) s.
Proof.
  intros Hv He Hs H. unfold observe, bind. rewrite (Hv _ _ H). destruct p as [i|]; simpl.
  - destruct (He i s H) as (k & v & -> & -> & ->). unfold ret. by rewrite (Hs _ _ H).
  - unfold ret. by rewrite (Hs _ _ H).
Qed.

Section ok.
Context {S : Type} (I : IteratorOps S) (c : Comparator) (dom : bytes -> Prop) (kvs : list (bytes * bytes))
  (at_ : option nat -> S -> Prop) {HI : IteratorOk I c dom kvs at_}.

Lemma moves_refine ops p s :
  at_ p s -> Forall (target_in dom) ops -> result (moves I ops s) = result (spec_ops c kvs ops p).
Proof using HI.
  intros H Ht. revert p s H. induction Ht as [|op ops Hop0 Ht IH]; intros p s H; [done|].
  cbn [moves spec_ops]. pose proof (io_move op p s H Hop0) as Hop. unfold bind at 1 4.
  destruct (spec_op c kvs op p) as [[] p'| |w]; [|done|by rewrite Hop].
  destruct Hop as (s' & -> & H'). unfold bind, gets, ret.
  rewrite (observe_at I kvs at_ p' s' io_valid io_entry io_status H').
  specialize (IH p' s' H'). destruct (moves I ops s'), (spec_ops c kvs ops p'); by simplify_eq/=.
Qed.

Lemma at_first p s : at_ p s -> exists s', it_SeekToFirst I s = Ret tt s' /\ at_ (position kvs 0) s'.
Proof using HI. intros H. exact (io_move OpSeekToFirst p s H Logic.I). Qed.

Lemma at_last p s : at_ p s -> exists s', it_SeekToLast I s = Ret tt s' /\ at_ (before (length kvs)) s'.
Proof using HI. intros H. exact (io_move OpSeekToLast p s H Logic.I). Qed.

Lemma at_seek target p s : at_ p s -> dom target ->
  exists s', it_Seek I target s = Ret tt s' /\ at_ (fst <$> list_find (fun kv => 0 <= Compare c (fst kv) target) kvs) s'.
Proof using HI. intros H Ht. exact (io_move (OpSeek target) p s H Ht). Qed.

Lemma at_next i s : at_ (Some i) s -> exists s', it_Next I s = Ret tt s' /\ at_ (position kvs (Datatypes.S i)) s'.
Proof using HI. intros H. exact (io_move OpNext (Some i) s H Logic.I). Qed.

Lemma at_prev i s : at_ (Some i) s -> exists s', it_Prev I s = Ret tt s' /\ at_ (before i) s'.
Proof using HI. intros H. exact (io_move OpPrev (Some i) s H Logic.I). Qed.
End ok.

#[global] Instance EmptyIterator_ok c dom : IteratorOk EmptyIterator c dom [] (fun p status => p = None /\ status = true).
Proof.
  split.
  - intros [] p s [-> ->] _; simpl; eauto.
  - by intros p s [-> _].
  - by intros i s [? _].
  - by intros p s [_ ->].
Qed.
