(* ===== verification/Block.v ===== *)
(** Blocks of a sorted table: the builder of
    [src/lib/leveldb/table/block_builder.cc] and the block with its iterator of
    [src/lib/leveldb/table/block.cc].

    Keys are stored with the prefix they share with the key before them left out,
    except at restart points. A pointer into the block is an offset; a read past the
    block is [OutOfBounds]. *)

From S2P Require Import Prelude Coding Comparator.

Set Default Proof Using "Type".

(** ** The builder *)

Record Options : Type := mkOptions { block_restart_interval : Z; comparator : Comparator }.

Record BlockBuilder : Type := mkBuilder {
  bb_buffer_ : bytes;
  bb_restarts_ : list Z;
  counter_ : Z;
  finished_ : bool;
  last_key_ : bytes }.
Abbreviation builder_prog := (prog BlockBuilder).

Definition BlockBuilder_empty : BlockBuilder := mkBuilder [] [0] 0 false [].

(** The constructor with its assertion. *)
Definition BlockBuilder_new (o : Options) : builder_prog unit :=
  assert_ (block_restart_interval o >=? 1) ;;;
  modify (fun _ => BlockBuilder_empty).

Definition Reset : builder_prog unit := modify (fun _ => mkBuilder [] [0] 0 false []).

Definition CurrentSizeEstimate : builder_prog Z :=
  gets (fun b => Z.of_nat (length (bb_buffer_ b)) + Z.of_nat (length (bb_restarts_ b)) * 4 + 4).

Definition builder_is_empty : builder_prog bool := gets (fun b => bool_decide (bb_buffer_ b = [])).

Definition Finish : builder_prog bytes :=
  modify (fun b =>
    let buffer := foldl PutFixed32 (bb_buffer_ b) (bb_restarts_ b) in
    let buffer := PutFixed32 buffer (u32 (Z.of_nat (length (bb_restarts_ b)))) in
    mkBuilder buffer (bb_restarts_ b) (counter_ b) true (last_key_ b)) ;;;
  gets bb_buffer_.

(** [restarts_] holds [uint32_t], as do the varints. *)
Definition Add (o : Options) (key value : bytes) : builder_prog unit :=
  b <- get_state ;;
  assert_ (negb (finished_ b)) ;;;
  assert_ (counter_ b <=? block_restart_interval o) ;;;
  assert_ (bool_decide (bb_buffer_ b = []) || (Compare (comparator o) key (last_key_ b) >? 0)) ;;;
  let '(shared, restarts, counter) :=
    if counter_ b <? block_restart_interval o then
      (common_prefix (last_key_ b) key (Nat.min (length (last_key_ b)) (length key)), bb_restarts_ b, counter_ b)
    else (0%nat, bb_restarts_ b ++ [u32 (Z.of_nat (length (bb_buffer_ b)))], 0) in
  let non_shared := (length key - shared)%nat in
  let buffer := PutVarint32 (bb_buffer_ b) (u32 (Z.of_nat shared)) in
  let buffer := PutVarint32 buffer (u32 (Z.of_nat non_shared)) in
  let buffer := PutVarint32 buffer (u32 (Z.of_nat (length value))) in
  let buffer := buffer ++ slice shared non_shared key in
  let buffer := buffer ++ value in
  let last_key := str_resize (last_key_ b) shared ++ slice shared non_shared key in
  modify (fun _ => mkBuilder buffer restarts counter false last_key) ;;;
  assert_ (bool_decide (last_key = key)) ;;;
  modify (fun _ => mkBuilder buffer restarts (counter + 1) false last_key).

(** ** The block *)

(** [size_] is 0 as an error marker; [restart_offset_] is not set when the contents
    are shorter than the count of restarts. *)
Record Block : Type := mkBlock { block_data_ : bytes; size_ : Z; restart_offset_ : Z }.

(** [NumRestarts] of a block of [size] bytes *)
Definition NumRestarts {S} (data : bytes) (size : Z) : prog S Z :=
  assert_ (size >=? 8) ;;;
  ret (DecodeFixed32 (drop (Z.to_nat (size - 4)) data)).

(** [1 + NumRestarts()] is a 32-bit sum, the product and the difference have 64 bits,
    and [restart_offset_] has 32. *)
Definition Block_new {S} (contents : bytes) : prog S Block :=
  let size := Z.of_nat (length contents) in
  if size <? 4 then ret (mkBlock contents 0 0)
  else
    n <- NumRestarts contents size ;;
    let restart_offset := u32 (u64 (size - u32 (1 + n) * 4)) in
    ret (mkBlock contents (if restart_offset >? size - 4 then 0 else size) restart_offset).

(** The three varints of the slow path of [DecodeEntry]. *)
Definition three_varints (p : bytes) : option (Z * Z * Z * bytes) :=
  match GetVarint32Ptr p with
  | Some (shared, p) =>
      match GetVarint32Ptr p with
      | Some (non_shared, p) =>
          match GetVarint32Ptr p with
          | Some (value_length, p) => Some (shared, non_shared, value_length, p)
          | None => None
          end
      | None => None
      end
  | None => None
  end.

(** The bytes from [p] to [limit]; the result is the three numbers and the bytes from
    the key delta to [limit]. *)
Definition DecodeEntry (p : bytes) : option (Z * Z * Z * bytes) :=
  match p with
  | s :: n :: v :: p3 =>
      match (if Z.lor (Z.lor s n) v <? 128 then Some (s, n, v, p3) else three_varints p) with
      | Some (shared, non_shared, value_length, p) =>
          if u32 (Z.of_nat (length p)) <? u32 (non_shared + value_length) then None
          else Some (shared, non_shared, value_length, p)
      | None => None
      end
  | _ => None
  end.

(** [value_] is a slice of the block, or the slice of the empty literal. *)
Record Iter : Type := mkIter {
  data_ : bytes;
  restarts_ : Z;
  num_restarts_ : Z;
  current_ : Z;
  restart_index_ : Z;
  key_ : bytes;
  value_ : option (Z * Z);
  corrupt : bool }.    (* [status_] is a corruption *)
Abbreviation iter_prog := (prog Iter).

Definition Iter_new (data : bytes) (restarts num_restarts : Z) : Iter :=
  mkIter data restarts num_restarts restarts num_restarts [] None false.

Definition at_current (c : Z) (it : Iter) : Iter :=
  mkIter (data_ it) (restarts_ it) (num_restarts_ it) c (restart_index_ it) (key_ it) (value_ it) (corrupt it).
Definition at_index (i : Z) (it : Iter) : Iter :=
  mkIter (data_ it) (restarts_ it) (num_restarts_ it) (current_ it) i (key_ it) (value_ it) (corrupt it).
Definition with_entry (k : bytes) (v : option (Z * Z)) (it : Iter) : Iter :=
  mkIter (data_ it) (restarts_ it) (num_restarts_ it) (current_ it) (restart_index_ it) k v (corrupt it).

(** [n] bytes of the block from offset [off] *)
Definition load_bytes (off n : Z) : iter_prog bytes :=
  it <- get_state ;;
  if off + n <=? Z.of_nat (length (data_ it)) then ret (slice (Z.to_nat off) (Z.to_nat n) (data_ it))
  else undefined OutOfBounds.

Definition NextEntryOffset : iter_prog Z :=
  it <- get_state ;;
  ' (off, len) <- deref OutOfBounds (value_ it) ;;
  ret (u32 (off + len)).

Definition GetRestartPoint (index : Z) : iter_prog Z :=
  it <- get_state ;;
  assert_ (index <? num_restarts_ it) ;;;
  bs <- load_bytes (restarts_ it + index * 4) 4 ;;
  ret (DecodeFixed32 bs).

Definition SeekToRestartPoint (index : Z) : iter_prog unit :=
  modify (fun it => at_index index (with_entry [] (value_ it) it)) ;;;
  offset <- GetRestartPoint index ;;
  modify (fun it => with_entry (key_ it) (Some (offset, 0)) it).

Definition invalidate : iter_prog unit :=
  modify (fun it => at_index (num_restarts_ it) (at_current (restarts_ it) it)).

Definition CorruptionError : iter_prog unit :=
  modify (fun it => mkIter (data_ it) (restarts_ it) (num_restarts_ it) (restarts_ it) (num_restarts_ it) [] None true).

Definition Valid : iter_prog bool := gets (fun it => current_ it <? restarts_ it).
Definition status : iter_prog bool := gets (fun it => negb (corrupt it)).
Definition key : iter_prog bytes :=
  v <- Valid ;; assert_ v ;;; gets key_.
Definition value : iter_prog bytes :=
  v <- Valid ;; assert_ v ;;;
  it <- get_state ;;
  ' (off, len) <- deref OutOfBounds (value_ it) ;;
  load_bytes off len.

(** The loop over the restart points that lie before [current_]. *)
Fixpoint skip_restarts (fuel : nat) : iter_prog unit :=
  match fuel with
  | O => undefined Unfinished
  | S fuel' =>
      it <- get_state ;;
      if u32 (restart_index_ it + 1) <? num_restarts_ it then
        p <- GetRestartPoint (u32 (restart_index_ it + 1)) ;;
        if p <? current_ it then
          modify (fun it => at_index (u32 (restart_index_ it + 1)) it) ;;;
          skip_restarts fuel'
        else ret tt
      else ret tt
  end.

(** The bytes from offset [p] to the restart array. *)
Definition entry_bytes (p : Z) (it : Iter) : bytes :=
  slice (Z.to_nat p) (Z.to_nat (restarts_ it - p)) (data_ it).

Definition ParseNextKey : iter_prog bool :=
  next <- NextEntryOffset ;;
  modify (at_current next) ;;;
  it <- get_state ;;
  let p := current_ it in
  if p >=? restarts_ it then invalidate ;;; ret false
  else
    match DecodeEntry (entry_bytes p it) with
    | Some (shared, non_shared, value_length, rest) =>
        if Z.of_nat (length (key_ it)) <? shared then CorruptionError ;;; ret false
        else
          let p := restarts_ it - Z.of_nat (length rest) in
          delta <- load_bytes p non_shared ;;
          modify (fun it =>
            with_entry (str_resize (key_ it) (Z.to_nat shared) ++ delta) (Some (p + non_shared, value_length)) it) ;;;
          skip_restarts (S (Z.to_nat (num_restarts_ it - restart_index_ it))) ;;;
          ret true
    | None => CorruptionError ;;; ret false
    end.

Definition Next : iter_prog unit :=
  v <- Valid ;; assert_ v ;;; ParseNextKey ;;; ret tt.

(** [do { } while (ParseNextKey() && NextEntryOffset() < bound)]; an entry takes a byte
    at least. *)
Fixpoint parse_until (fuel : nat) (bound : Z) : iter_prog unit :=
  match fuel with
  | O => undefined Unfinished
  | S fuel' =>
      ok <- ParseNextKey ;;
      if (ok : bool) then
        next <- NextEntryOffset ;;
        if next <? bound then parse_until fuel' bound else ret tt
      else ret tt
  end.

Definition entry_fuel (it : Iter) : nat := S (length (data_ it)).

(** The loop of [Prev] over the restart points; [false] when there are no more
    entries. *)
Fixpoint restart_before (fuel : nat) (original : Z) : iter_prog bool :=
  match fuel with
  | O => undefined Unfinished
  | S fuel' =>
      it <- get_state ;;
      p <- GetRestartPoint (restart_index_ it) ;;
      if p >=? original then
        if restart_index_ it =? 0 then invalidate ;;; ret false
        else modify (fun it => at_index (restart_index_ it - 1) it) ;;; restart_before fuel' original
      else ret true
  end.

Definition Prev : iter_prog unit :=
  v <- Valid ;; assert_ v ;;;
  it <- get_state ;;
  let original := current_ it in
  found <- restart_before (S (Z.to_nat (restart_index_ it))) original ;;
  if (found : bool) then
    it <- get_state ;;
    SeekToRestartPoint (restart_index_ it) ;;;
    parse_until (entry_fuel it) original
  else ret tt.

(** The binary search of [Seek] over the restart points: [None] after a corruption. *)
Fixpoint search (c : Comparator) (target : bytes) (fuel : nat) (left_ right_ : Z) : iter_prog (option Z) :=
  match fuel with
  | O => undefined Unfinished
  | S fuel' =>
      if left_ <? right_ then
        let mid := u32 (left_ + right_ + 1) / 2 in
        region_offset <- GetRestartPoint mid ;;
        it <- get_state ;;
        match DecodeEntry (entry_bytes region_offset it) with
        | Some (shared, non_shared, _, rest) =>
            if negb (shared =? 0) then CorruptionError ;;; ret None
            else
              mid_key <- load_bytes (restarts_ it - Z.of_nat (length rest)) non_shared ;;
              if Compare c mid_key target <? 0 then search c target fuel' mid right_
              else search c target fuel' left_ (mid - 1)
        | None => CorruptionError ;;; ret None
        end
      else ret (Some left_)
  end.

(** The linear search for the first key that is not below the target. *)
Fixpoint scan (c : Comparator) (target : bytes) (fuel : nat) : iter_prog unit :=
  match fuel with
  | O => undefined Unfinished
  | S fuel' =>
      ok <- ParseNextKey ;;
      if negb ok then ret tt
      else
        it <- get_state ;;
        if Compare c (key_ it) target >=? 0 then ret tt else scan c target fuel'
  end.

Definition Seek (c : Comparator) (target : bytes) : iter_prog unit :=
  it <- get_state ;;
  found <- search c target (Z.to_nat (num_restarts_ it)) 0 (u32 (num_restarts_ it - 1)) ;;
  match found with
  | Some left_ => SeekToRestartPoint left_ ;;; scan c target (entry_fuel it)
  | None => ret tt
  end.

Definition SeekToFirst : iter_prog unit := SeekToRestartPoint 0 ;;; ParseNextKey ;;; ret tt.

Definition SeekToLast : iter_prog unit :=
  it <- get_state ;;
  SeekToRestartPoint (u32 (num_restarts_ it - 1)) ;;;
  parse_until (entry_fuel it) (restarts_ it).

Inductive Iterator : Type :=
| ErrorIterator
| EmptyIterator
| BlockIterator (it : Iter).

Definition NewIterator {S} (b : Block) : prog S Iterator :=
  if size_ b <? 8 then ret ErrorIterator
  else
    n <- NumRestarts (block_data_ b) (size_ b) ;;
    if n =? 0 then ret EmptyIterator
    else ret (BlockIterator (Iter_new (block_data_ b) (restart_offset_ b) n)).
