(* ===== verification/BlockRead.v ===== *)
(** Reading blocks: the layout of a block as a list of entries with restart points,
    and what every operation of the iterator of [Block] does on a block of that
    layout. *)

From stdpp Require Import sorting.
From S2P Require Import Prelude Coding Comparator Block.

Set Default Proof Using "Type".

(** ** The format

    A block is a list of entries, each with the number of bytes it shares with the key
    before it, and a list of the entries that are restart points. *)

Record entry : Type := mkEntry { e_shared : nat; e_key : bytes; e_value : bytes }.

Definition enc (e : entry) : bytes :=
  EncodeVarint32 (Z.of_nat (e_shared e)) ++ EncodeVarint32 (Z.of_nat (length (e_key e) - e_shared e)) ++
  EncodeVarint32 (Z.of_nat (length (e_value e))) ++ drop (e_shared e) (e_key e) ++ e_value e.

Definition buf (es : list entry) : bytes := mjoin (enc <$> es).

(** Where the [i]th entry starts. *)
Definition off (es : list entry) (i : nat) : Z := Z.of_nat (length (buf (take i es))).

(** The entry can be read when [prev] is the key before it. *)
Definition follows (prev : bytes) (e : entry) : Prop :=
  (e_shared e <= length prev)%nat /\ take (e_shared e) prev = take (e_shared e) (e_key e) /\
  (e_shared e <= length (e_key e))%nat.

Fixpoint chained (prev : bytes) (es : list entry) : Prop :=
  match es with
  | [] => True
  | e :: es' => follows prev e /\ chained (e_key e) es'
  end.

Definition entry_ok (e : entry) : Prop := bytes_ok (e_key e) /\ bytes_ok (e_value e).

Definition restart_array (es : list entry) (ris : list nat) : bytes :=
  mjoin ((fun i => EncodeFixed32 (off es i)) <$> ris).

Definition contents (es : list entry) (ris : list nat) : bytes :=
  buf es ++ restart_array es ris ++ EncodeFixed32 (Z.of_nat (length ris)).

Record format (es : list entry) (ris : list nat) : Prop := {
  f_chain : chained [] es;
  f_ok : Forall entry_ok es;
  f_first : ris !! 0%nat = Some 0%nat;
  f_restart r i : ris !! r = Some i ->
    ((i < length es)%nat \/ i = 0%nat) /\ forall e, es !! i = Some e -> e_shared e = 0%nat;
  f_lengths : Forall (fun e => Z.of_nat (length (e_key e)) + Z.of_nat (length (e_value e)) < 2 ^ 32) es;
  f_size : Z.of_nat (length (contents es ris)) < 2 ^ 32 }.

Lemma length_varint v : (1 <= length (EncodeVarint32 v) <= 5)%nat.
Proof. unfold EncodeVarint32. repeat case_bool; simpl; lia. Qed.

Lemma length_enc e :
  (e_shared e <= length (e_key e))%nat ->
  (3 <= length (enc e) <= 15 + length (e_key e) + length (e_value e))%nat.
Proof.
  intros Hs. unfold enc. rewrite !length_app, length_drop.
  pose proof (length_varint (Z.of_nat (e_shared e))).
  pose proof (length_varint (Z.of_nat (length (e_key e) - e_shared e))).
  pose proof (length_varint (Z.of_nat (length (e_value e)))). lia.
Qed.

Lemma enc_nonempty e : (1 <= length (enc e))%nat.
Proof. unfold enc. rewrite !length_app. pose proof (length_varint (Z.of_nat (e_shared e))). lia. Qed.

Lemma enc_ok e :
  Z.of_nat (length (e_key e)) + Z.of_nat (length (e_value e)) < 2 ^ 32 -> (e_shared e <= length (e_key e))%nat ->
  entry_ok e -> bytes_ok (enc e).
Proof.
  intros Hl Hs [Hk Hv]. unfold enc. rewrite !bytes_ok_app.
  split_and!; (apply EncodeVarint32_ok; lia) || auto using bytes_ok_drop.
Qed.

(** ** Decoding an entry *)

Lemma lor_lt_l a b n : 0 <= a -> 0 <= b -> Z.lor a b < n -> a < n.
Proof.
  intros Ha Hb H. destruct (Z.ldiff_le a (Z.lor a b)); [by apply Z.lor_nonneg| |lia].
  apply Z.bits_inj'. intros i _. rewrite Z.ldiff_spec, Z.lor_spec, Z.bits_0.
  by destruct (Z.testbit a i), (Z.testbit b i).
Qed.

Lemma lor_lt_r a b n : 0 <= a -> 0 <= b -> Z.lor a b < n -> b < n.
Proof. intros Ha Hb. rewrite Z.lor_comm. by apply lor_lt_l. Qed.

Lemma one_byte_varint s p : 0 <= s < 128 -> GetVarint32Ptr (s :: p) = Some (s, p).
Proof. intros Hs. unfold GetVarint32Ptr. by rewrite land_128_small. Qed.

(** The fast path agrees with the slow one. *)
Lemma fast_path s n v q :
  bytes_ok (s :: n :: v :: q) -> Z.lor (Z.lor s n) v < 128 ->
  three_varints (s :: n :: v :: q) = Some (s, n, v, q).
Proof.
  intros Hp Hlt. apply Forall_cons_1 in Hp as [Hs Hp]. apply Forall_cons_1 in Hp as [Hn Hp].
  apply Forall_cons_1 in Hp as [Hv _]. unfold byte_ok in *.
  assert (0 <= Z.lor s n) as Hsn by (apply Z.lor_nonneg; lia).
  pose proof (lor_lt_r _ _ _ Hsn (proj1 Hv) Hlt). pose proof (lor_lt_l _ _ _ Hsn (proj1 Hv) Hlt) as Hlt'.
  pose proof (lor_lt_r _ _ _ (proj1 Hs) (proj1 Hn) Hlt'). pose proof (lor_lt_l _ _ _ (proj1 Hs) (proj1 Hn) Hlt').
  unfold three_varints. by rewrite !one_byte_varint by lia.
Qed.

Lemma DecodeEntry_slow p s n v q :
  bytes_ok p -> (3 <= length p)%nat -> three_varints p = Some (s, n, v, q) ->
  Z.of_nat (length q) < 2 ^ 32 -> 0 <= n + v <= Z.of_nat (length q) ->
  DecodeEntry p = Some (s, n, v, q).
Proof.
  intros Hp Hl H Hq Hnv. destruct p as [|s0 [|n0 [|v0 q0]]]; try (simpl in Hl; lia).
  unfold DecodeEntry. destruct (Z.ltb_spec (Z.lor (Z.lor s0 n0) v0) 128) as [Hlt|_].
  - rewrite fast_path in H by done. simplify_eq. rewrite !u32_small by lia. split_tests. done.
  - rewrite H, !u32_small by lia. split_tests. done.
Qed.

Lemma three_varints_enc e rest :
  Z.of_nat (length (e_key e)) + Z.of_nat (length (e_value e)) < 2 ^ 32 -> (e_shared e <= length (e_key e))%nat ->
  entry_ok e -> bytes_ok rest ->
  three_varints (enc e ++ rest) =
    Some (Z.of_nat (e_shared e), Z.of_nat (length (e_key e) - e_shared e), Z.of_nat (length (e_value e)),
          drop (e_shared e) (e_key e) ++ e_value e ++ rest).
Proof.
  intros Hl Hs [Hk Hv] Hr. unfold enc, three_varints. rewrite <- !app_assoc.
  assert (bytes_ok (drop (e_shared e) (e_key e) ++ e_value e ++ rest)) as Ht
    by (rewrite !bytes_ok_app; auto using bytes_ok_drop).
  pose proof GetVarint32_encode as Hg. unfold GetVarint32 in Hg.
  rewrite !Hg; rewrite ?bytes_ok_app; repeat split; try apply EncodeVarint32_ok;
    auto using bytes_ok_drop; lia.
Qed.

Lemma DecodeEntry_enc e rest :
  Z.of_nat (length (e_key e)) + Z.of_nat (length (e_value e)) < 2 ^ 32 -> (e_shared e <= length (e_key e))%nat ->
  entry_ok e -> bytes_ok rest -> Z.of_nat (length (enc e ++ rest)) < 2 ^ 32 ->
  DecodeEntry (enc e ++ rest) =
    Some (Z.of_nat (e_shared e), Z.of_nat (length (e_key e) - e_shared e), Z.of_nat (length (e_value e)),
          drop (e_shared e) (e_key e) ++ e_value e ++ rest).
Proof.
  intros Hl Hs He Hr Hsz. pose proof (enc_ok e Hl Hs He) as Hb. pose proof (length_enc e Hs) as Hlen.
  rewrite length_app in Hsz. apply DecodeEntry_slow.
  - by apply bytes_ok_app.
  - rewrite length_app. lia.
  - by apply three_varints_enc.
  - unfold enc in Hsz. rewrite !length_app in *. lia.
  - rewrite !length_app, length_drop. lia.
Qed.

(** ** Offsets *)

Lemma buf_app es es' : buf (es ++ es') = buf es ++ buf es'.
Proof. unfold buf. by rewrite fmap_app, join_app. Qed.

Lemma buf_cons e es : buf (e :: es) = enc e ++ buf es.
Proof. done. Qed.

Lemma buf_at es i e :
  es !! i = Some e -> buf es = buf (take i es) ++ enc e ++ buf (drop (S i) es).
Proof. intros Hi. rewrite <- (take_drop_middle es i e Hi) at 1. by rewrite buf_app, buf_cons. Qed.

Lemma off_succ es i e : es !! i = Some e -> off es (S i) = off es i + Z.of_nat (length (enc e)).
Proof.
  intros Hi. unfold off. erewrite take_S_r by done. rewrite buf_app, buf_cons, length_app, length_app. simpl. lia.
Qed.

Lemma off_all es i : (length es <= i)%nat -> off es i = Z.of_nat (length (buf es)).
Proof. intros. unfold off. by rewrite take_ge. Qed.

Lemma off_lt es i j : (i < j)%nat -> (i < length es)%nat -> off es i < off es j.
Proof.
  intros Hij Hi. induction Hij as [|j Hij IH].
  - destruct (lookup_lt_is_Some_2 es i Hi) as [e He]. rewrite (off_succ _ _ _ He). pose proof (enc_nonempty e). lia.
  - destruct (es !! j) as [e|] eqn:He.
    + rewrite (off_succ _ _ _ He). lia.
    + apply lookup_ge_None in He. rewrite (off_all es (S j)), <- (off_all es j) by lia. done.
Qed.

Lemma off_le es i j : (i <= j)%nat -> off es i <= off es j.
Proof.
  intros Hij. destruct (decide (i = j)) as [->|]; [done|].
  destruct (decide (i < length es)%nat); [pose proof (off_lt es i j); lia|].
  rewrite !off_all by lia. done.
Qed.

Lemma off_nonneg es i : 0 <= off es i.
Proof. unfold off. lia. Qed.

Lemma length_es_buf es : (length es <= length (buf es))%nat.
Proof.
  induction es as [|e es IH]; [simpl; lia|]. rewrite buf_cons, length_app. pose proof (enc_nonempty e). simpl. lia.
Qed.

Lemma chained_at es : forall prev i e,
  chained prev es -> es !! i = Some e ->
  follows (match i with O => prev | S j => default [] (e_key <$> es !! j) end) e.
Proof.
  induction es as [|e0 es IH]; intros prev i e Hc Hi; [done|]. destruct Hc as [H0 Hc].
  destruct i as [|i]; simpl in Hi; [by simplify_eq|]. specialize (IH _ i e Hc Hi). by destruct i.
Qed.

Lemma slice_mid (a b c : bytes) pos n : pos = length a -> n = length b -> slice pos n (a ++ b ++ c) = b.
Proof. intros -> ->. unfold slice. by rewrite drop_app_length, take_app_length. Qed.

(** ** Reading a block of the format *)

Section reading.
Context (es : list entry) (ris : list nat) (F : format es ris).
#[local] Abbreviation D := (contents es ris).
#[local] Abbreviation R := (Z.of_nat (length (buf es))).
#[local] Abbreviation N := (Z.of_nat (length ris)).

Lemma restart_array_cons i l : restart_array es (i :: l) = EncodeFixed32 (off es i) ++ restart_array es l.
Proof. done. Qed.

Lemma restart_array_app l l' : restart_array es (l ++ l') = restart_array es l ++ restart_array es l'.
Proof. unfold restart_array. by rewrite fmap_app, join_app. Qed.

Lemma length_restart_array l : length (restart_array es l) = (4 * length l)%nat.
Proof.
  induction l as [|i l IH]; [done|]. rewrite restart_array_cons, length_app, IH. unfold EncodeFixed32. rewrite length_le_bytes. simpl. lia.
Qed.

Lemma length_contents : Z.of_nat (length D) = R + 4 * N + 4.
Proof.
  unfold contents. rewrite !length_app, length_restart_array.
  unfold EncodeFixed32. rewrite length_le_bytes. lia.
Qed.

Lemma sizes : 0 <= R /\ 1 <= N /\ R + 4 * N + 4 < 2 ^ 32.
Proof using F.
  pose proof (f_size _ _ F) as Hs. rewrite length_contents in Hs.
  pose proof (f_first _ _ F) as Hf. apply lookup_lt_Some in Hf. lia.
Qed.

Lemma off_R i : off es i <= R.
Proof. rewrite <- (off_all es (length es)) by done. destruct (decide (i <= length es)%nat); [by apply off_le|]. rewrite !off_all by lia. done. Qed.

Lemma entry_follows i e :
  es !! i = Some e -> follows (match i with O => [] | S j => default [] (e_key <$> es !! j) end) e.
Proof using F. intros Hi. by apply chained_at; [apply F|]. Qed.

Lemma entry_facts i e :
  es !! i = Some e ->
  (e_shared e <= length (e_key e))%nat /\ entry_ok e /\
  Z.of_nat (length (e_key e)) + Z.of_nat (length (e_value e)) < 2 ^ 32.
Proof using F.
  intros Hi. split_and!.
  - by apply (entry_follows i e) in Hi as (_ & _ & ?).
  - pose proof (f_ok _ _ F) as H. rewrite Forall_lookup in H. by eapply H.
  - pose proof (f_lengths _ _ F) as H. rewrite Forall_lookup in H. by eapply (H i).
Qed.

Lemma buf_drop_ok i : bytes_ok (buf (drop i es)).
Proof using F.
  pose proof (fun j e Hj => entry_facts (i + j) e ltac:(rewrite <- lookup_drop; exact Hj)) as H.
  assert (Forall (fun e => bytes_ok (enc e)) (drop i es)) as Hf.
  { apply Forall_lookup. intros j e Hj. destruct (H j e Hj) as (H1 & H2 & H3). by apply enc_ok. }
  clear -Hf. induction Hf as [|e l He Hl IH]; [constructor|]. rewrite buf_cons. by apply bytes_ok_app.
Qed.

(** An iterator over this block without a corruption, its restart index in range. *)
Record over (it : Iter) : Prop := {
  o_data : data_ it = D;
  o_restarts : restarts_ it = R;
  o_num : num_restarts_ it = N;
  o_sound : corrupt it = false }.

Definition indexed (it : Iter) : Prop := 0 <= restart_index_ it < N.

(** The iterator has read entry [i]. *)
Record at_entry (i : nat) (e : entry) (it : Iter) : Prop := {
  ae_over : over it;
  ae_index : indexed it;
  ae_entry : es !! i = Some e;
  ae_current : current_ it = off es i;
  ae_key : key_ it = e_key e;
  ae_value : value_ it = Some (off es (S i) - Z.of_nat (length (e_value e)), Z.of_nat (length (e_value e))) }.

(** It is about to read entry [i], or the end. *)
Record ready (i : nat) (it : Iter) : Prop := {
  re_over : over it;
  re_index : indexed it;
  re_key e : es !! i = Some e -> follows (key_ it) e;
  re_value : exists o l, value_ it = Some (o, l) /\ o + l = off es i }.

Definition done_ (it : Iter) : Prop := over it /\ current_ it = R.

Lemma at_entry_ready i e it : at_entry i e it -> ready (S i) it.
Proof using F.
  intros [Ho Hi He Hc Hk Hv]. split; try done.
  - intros e' He'. apply entry_follows in He'. by rewrite He in He'; simpl in He'; rewrite Hk.
  - eexists _, _. split; [exact Hv|]. lia.
Qed.

Lemma GetRestartPoint_run r i it :
  over it -> ris !! r = Some i -> GetRestartPoint (Z.of_nat r) it = Ret (off es i) it.
Proof using F.
  intros [Hd Hr Hn _] Hi. unfold GetRestartPoint, load_bytes, bind, get_state, assert_, ret.
  pose proof (lookup_lt_Some _ _ _ Hi). pose proof length_contents.
  rewrite Hn. replace (Z.of_nat r <? N) with true by (symmetry; apply Z.ltb_lt; lia).
  cbv beta iota. rewrite Hd, Hr.
  destruct (Z.leb_spec (R + Z.of_nat r * 4 + 4) (Z.of_nat (length D))) as [_|]; [|lia].
  f_equal. unfold contents.
  rewrite <- (take_drop_middle ris r i Hi) at 1. rewrite restart_array_app, restart_array_cons, <- !app_assoc, app_assoc.
  rewrite slice_mid; [| |done].
  - unfold DecodeFixed32, EncodeFixed32. rewrite take_ge by (rewrite length_le_bytes; done).
    rewrite le_val_bytes. change (8 * Z.of_nat 4) with 32. apply Z.mod_small.
    pose proof (off_nonneg es i). pose proof (off_R i). pose proof sizes. lia.
  - rewrite length_app. rewrite length_restart_array, length_take. lia.
Qed.

Lemma restart_point k : 0 <= k < N -> exists i, ris !! Z.to_nat k = Some i /\ Z.of_nat (Z.to_nat k) = k.
Proof. intros Hk. destruct (lookup_lt_is_Some_2 ris (Z.to_nat k)) as [i Hi]; [lia|]. exists i. split; [done|lia]. Qed.

Lemma GetRestartPoint_in k it :
  over it -> 0 <= k < N -> exists i, ris !! Z.to_nat k = Some i /\ GetRestartPoint k it = Ret (off es i) it.
Proof using F.
  intros Ho Hk. destruct (restart_point k Hk) as (i & Hi & Ek). exists i. split; [done|].
  rewrite <- Ek at 1. by apply GetRestartPoint_run.
Qed.

Lemma SeekToRestartPoint_run k it :
  over it -> 0 <= k < N ->
  exists i it', ris !! Z.to_nat k = Some i /\ SeekToRestartPoint k it = Ret tt it' /\ ready i it'.
Proof using F.
  intros Ho Hk. set (it1 := at_index k (with_entry [] (value_ it) it)).
  assert (over it1) as Ho1 by (by destruct Ho; split).
  destruct (GetRestartPoint_in k it1 Ho1 Hk) as (i & Hi & Hg). exists i.
  exists (with_entry (key_ it1) (Some (off es i, 0)) it1). split_and!; [done| |].
  - unfold SeekToRestartPoint, bind, modify. fold it1. by rewrite Hg.
  - split; [by destruct Ho1; split|done| |].
    + intros e He. destruct (f_restart _ _ F _ _ Hi) as [_ H0]. specialize (H0 e He).
      unfold follows. rewrite H0. simpl. split_and!; [lia|by rewrite !take_0|lia].
    + eexists _, _. split; [reflexivity|]. lia.
Qed.

(** Only the restart index moves. *)
Definition moved (it it' : Iter) : Prop := exists k, it' = at_index k it /\ 0 <= k < N.

Lemma skip_restarts_run fuel it :
  over it -> indexed it -> N - restart_index_ it < Z.of_nat fuel ->
  exists it', skip_restarts fuel it = Ret tt it' /\ moved it it'.
Proof using F.
  pose proof sizes as HN.
  revert it. induction fuel as [|fuel IH]; intros it Ho Hi Hf; unfold indexed in Hi; [lia|].
  assert (moved it it) as Hm by (exists (restart_index_ it); split; [by destruct it|done]).
  cbn [skip_restarts]. unfold bind, get_state, modify, ret. rewrite u32_small, (o_num _ Ho) by lia.
  destruct (Z.ltb_spec (restart_index_ it + 1) N) as [Hlt|]; [|eauto].
  destruct (GetRestartPoint_in (restart_index_ it + 1) it Ho) as (i & _ & ->); [lia|].
  destruct (off es i <? current_ it); [|eauto].
  rewrite u32_small by lia. set (it1 := at_index (restart_index_ it + 1) it).
  destruct (IH it1) as (it' & -> & k & -> & Hk);
    [by destruct Ho; split|unfold indexed; simpl; lia|simpl; lia|].
  eexists. split; [done|]. by exists k.
Qed.

Lemma resize_follows prev e :
  follows prev e -> str_resize prev (e_shared e) ++ drop (e_shared e) (e_key e) = e_key e.
Proof. intros (H1 & H2 & H3). rewrite str_resize_shrink, H2 by done. apply take_drop. Qed.

Lemma contents_entry i e :
  es !! i = Some e ->
  D = buf (take i es) ++ (enc e ++ buf (drop (S i) es)) ++ restart_array es ris ++ EncodeFixed32 N.
Proof. intros He. unfold contents. rewrite (buf_at es i e He) at 1. by rewrite <- !app_assoc. Qed.

Lemma contents_delta i e :
  es !! i = Some e ->
  exists a b, D = a ++ drop (e_shared e) (e_key e) ++ e_value e ++ b /\
    Z.of_nat (length a) = off es (S i) - Z.of_nat (length (e_value e)) - Z.of_nat (length (e_key e) - e_shared e).
Proof.
  intros He. rewrite (contents_entry i e He), (off_succ _ _ _ He). unfold off, enc.
  eexists (buf (take i es) ++ EncodeVarint32 _ ++ EncodeVarint32 _ ++ EncodeVarint32 _), _.
  split; [by rewrite <- !app_assoc|]. rewrite !length_app, length_drop. lia.
Qed.

Lemma load_bytes_mid (a b c : bytes) pos it :
  data_ it = a ++ b ++ c -> pos = Z.of_nat (length a) -> load_bytes pos (Z.of_nat (length b)) it = Ret b it.
Proof.
  intros Hd ->. unfold load_bytes, bind, get_state, ret. rewrite Hd, !length_app.
  destruct (Z.leb_spec (Z.of_nat (length a) + Z.of_nat (length b)) (Z.of_nat (length a + (length b + length c)))); [|lia].
  by rewrite slice_mid by (by rewrite Nat2Z.id).
Qed.

(** What [ParseNextKey] decodes, and where the key delta lies. *)
Lemma decode_at i e it :
  over it -> es !! i = Some e ->
  exists rest, DecodeEntry (entry_bytes (off es i) it) =
    Some (Z.of_nat (e_shared e), Z.of_nat (length (e_key e) - e_shared e), Z.of_nat (length (e_value e)), rest) /\
    R - Z.of_nat (length rest) = off es (S i) - Z.of_nat (length (e_value e)) - Z.of_nat (length (e_key e) - e_shared e) /\
    load_bytes (R - Z.of_nat (length rest)) (Z.of_nat (length (e_key e) - e_shared e)) it = Ret (drop (e_shared e) (e_key e)) it.
Proof using F.
  intros Ho He. destruct (entry_facts i e He) as (Hs & Hok & Hl). pose proof sizes as Hsz.
  pose proof (f_equal length (buf_at es i e He)) as Hlen. rewrite !length_app in Hlen.
  exists (drop (e_shared e) (e_key e) ++ e_value e ++ buf (drop (S i) es)).
  assert (R - Z.of_nat (length (drop (e_shared e) (e_key e) ++ e_value e ++ buf (drop (S i) es))) =
    off es (S i) - Z.of_nat (length (e_value e)) - Z.of_nat (length (e_key e) - e_shared e)) as Hpos.
  { rewrite (off_succ _ _ _ He). unfold off. rewrite !length_app, length_drop. lia. }
  split_and!; [|done|].
  - unfold entry_bytes. rewrite (o_data _ Ho), (o_restarts _ Ho), (contents_entry i e He).
    rewrite slice_mid by (unfold off; rewrite ?length_app; lia).
    apply DecodeEntry_enc; try done; [apply buf_drop_ok|]. rewrite length_app. lia.
  - destruct (contents_delta i e He) as (a & b & Hd & Ha). rewrite <- length_drop.
    eapply load_bytes_mid; [by rewrite (o_data _ Ho)|]. rewrite Hpos. done.
Qed.

Lemma parse_entry i e it :
  ready i it -> es !! i = Some e -> exists it', ParseNextKey it = Ret true it' /\ at_entry i e it'.
Proof using F.
  intros [Ho Hx Hk (o & l & Hv & Hol)] He. specialize (Hk e He). pose proof sizes as Hsz.
  destruct (decode_at i e (at_current (off es i) it)) as (rest & Hd & Hp & Hld); [by destruct Ho; split|done|].
  pose proof (off_lt es i (S i) ltac:(lia) ltac:(eauto using lookup_lt_Some)). pose proof (off_R (S i)). pose proof (off_nonneg es i).
  unfold ParseNextKey, NextEntryOffset, bind, get_state, modify, ret. rewrite Hv. simpl deref. unfold ret.
  rewrite Hol, u32_small by lia. change (current_ (at_current (off es i) it)) with (off es i).
  change (restarts_ (at_current (off es i) it)) with (restarts_ it). rewrite (o_restarts _ Ho).
  rewrite Z.geb_leb. destruct (Z.leb_spec R (off es i)) as [|_]; [lia|]. rewrite Hd.
  change (key_ (at_current (off es i) it)) with (key_ it).
  destruct (Z.ltb_spec (Z.of_nat (length (key_ it))) (Z.of_nat (e_shared e))) as [|_]; [destruct Hk; lia|].
  rewrite Hld, Nat2Z.id. set (it1 := with_entry _ _ _).
  destruct (skip_restarts_run (S (Z.to_nat (num_restarts_ it - restart_index_ it))) it1) as (it' & Hs & k & -> & Hk');
    [by destruct Ho; split|done|rewrite (o_num _ Ho); change (restart_index_ it1) with (restart_index_ it); lia|].
  change (num_restarts_ (at_current (off es i) it)) with (num_restarts_ it).
  change (restart_index_ (at_current (off es i) it)) with (restart_index_ it). rewrite Hs.
  eexists. split; [done|]. split; try done.
  - by destruct Ho; split.
  - simpl. by apply resize_follows.
  - simpl. f_equal. f_equal. lia.
Qed.

Lemma parse_end i it :
  ready i it -> es !! i = None -> exists it', ParseNextKey it = Ret false it' /\ done_ it'.
Proof using F.
  intros [Ho Hx Hk (o & l & Hv & Hol)] He%lookup_ge_None. pose proof sizes as Hsz.
  rewrite off_all in Hol by done.
  unfold ParseNextKey, NextEntryOffset, bind, get_state, modify, ret. rewrite Hv. simpl deref. unfold ret.
  rewrite Hol, u32_small by lia. change (current_ (at_current R it)) with R.
  change (restarts_ (at_current R it)) with (restarts_ it). rewrite (o_restarts _ Ho).
  rewrite Z.geb_leb, Z.leb_refl. eexists. split; [reflexivity|].
  split; [by destruct Ho; split|]. simpl. apply Ho.
Qed.

(** ** The operations move a cursor *)

Definition pos_at (i : nat) : option nat := if (i <? length es)%nat then Some i else None.

Definition cursor (p : option nat) (it : Iter) : Prop :=
  match p with Some i => exists e, at_entry i e it | None => done_ it end.

Lemma cursor_over p it : cursor p it -> over it.
Proof. destruct p as [i|]; [intros [e H]; by eapply ae_over|by intros [H _]]. Qed.

Lemma parse_run i it :
  ready i it -> exists it', ParseNextKey it = Ret (i <? length es)%nat it' /\ cursor (pos_at i) it'.
Proof using F.
  intros Hr. unfold pos_at. destruct (Nat.ltb_spec i (length es)) as [Hlt|Hge].
  - destruct (lookup_lt_is_Some_2 es i Hlt) as [e He].
    destruct (parse_entry i e it Hr He) as (it' & Hp & H). exists it'. split; [done|by exists e].
  - apply (parse_end i); [done|]. by apply lookup_ge_None.
Qed.

Lemma at_entry_next i e it : at_entry i e it -> NextEntryOffset it = Ret (off es (S i)) it.
Proof using F.
  intros H. unfold NextEntryOffset, bind, get_state. rewrite (ae_value _ _ _ H). simpl. unfold ret.
  pose proof (off_R (S i)). pose proof (off_nonneg es (S i)). pose proof sizes.
  rewrite u32_small by lia. f_equal. lia.
Qed.

Lemma valid_run p it : cursor p it -> Valid it = Ret (bool_decide (is_Some p)) it.
Proof using F.
  destruct p as [i|]; simpl; unfold Valid, gets; intros H.
  - destruct H as [e H]. rewrite (ae_current _ _ _ H), (o_restarts _ (ae_over _ _ _ H)).
    pose proof (off_lt es i (S i) ltac:(lia) (lookup_lt_Some _ _ _ (ae_entry _ _ _ H))). pose proof (off_R (S i)).
    f_equal. apply Z.ltb_lt. lia.
  - destruct H as [Ho ->]. rewrite (o_restarts _ Ho), Z.ltb_irrefl. done.
Qed.

Lemma assert_false {S} : assert_ (S:=S) false = undefined AssertFailed.
Proof. done. Qed.

Lemma key_run i e it : at_entry i e it -> key it = Ret (e_key e) it.
Proof using F.
  intros H. unfold key, bind. rewrite (valid_run (Some i)) by (by exists e). simpl. unfold ret, gets.
  by rewrite (ae_key _ _ _ H).
Qed.

Lemma value_run i e it : at_entry i e it -> value it = Ret (e_value e) it.
Proof using F.
  intros H. unfold value, bind. rewrite (valid_run (Some i)) by (by exists e). simpl. unfold ret, get_state.
  rewrite (ae_value _ _ _ H). simpl. unfold ret.
  destruct (contents_delta i e (ae_entry _ _ _ H)) as (a & b & Hd & Ha).
  destruct (entry_facts i e (ae_entry _ _ _ H)) as (Hs & _).
  eapply (load_bytes_mid (a ++ drop (e_shared e) (e_key e)) (e_value e) b).
  - rewrite (o_data _ (ae_over _ _ _ H)), Hd. by rewrite <- app_assoc.
  - rewrite length_app, length_drop. lia.
Qed.

Lemma Next_run i it : cursor (Some i) it -> exists it', Next it = Ret tt it' /\ cursor (pos_at (S i)) it'.
Proof using F.
  intros H. unfold Next, bind. rewrite (valid_run _ _ H). simpl. unfold ret.
  destruct H as [e H]. destruct (parse_run (S i) it (at_entry_ready _ _ _ H)) as (it' & -> & Hc). eauto.
Qed.

Lemma restart_le r i : ris !! r = Some i -> (i <= length es)%nat.
Proof using F. intros Hi. destruct (f_restart _ _ F _ _ Hi) as [[| ->] _]; lia. Qed.

(** The loop that stops at the entry before offset [off es j]. *)
Lemma parse_until_run fuel i j it :
  ready i it -> (i < j <= length es)%nat -> (j - i <= fuel)%nat ->
  exists it', parse_until fuel (off es j) it = Ret tt it' /\ cursor (Some (pred j)) it'.
Proof using F.
  revert i it. induction fuel as [|fuel IH]; intros i it Hr Hij Hf; [lia|].
  destruct (lookup_lt_is_Some_2 es i) as [e He]; [lia|].
  destruct (parse_entry i e it Hr He) as (it1 & Hp & H1).
  cbn [parse_until]. unfold bind. rewrite Hp, (at_entry_next _ _ _ H1).
  destruct (Z.ltb_spec (off es (S i)) (off es j)) as [Hlt|Hge].
  - apply (IH (S i)); [by eapply at_entry_ready| |lia].
    destruct (decide (S i = j)); [subst; lia|lia].
  - exists it1. split; [done|]. assert (j = S i) as ->; [|by exists e].
    destruct (decide (S i < j)%nat) as [Hlt|]; [|lia]. pose proof (off_lt es (S i) j Hlt). lia.
Qed.

Lemma entry_fuel_enough it : over it -> (length es < entry_fuel it)%nat.
Proof.
  intros Ho. unfold entry_fuel. rewrite (o_data _ Ho). pose proof length_contents. pose proof (length_es_buf es). lia.
Qed.

Lemma block_SeekToFirst_run it : over it -> exists it', SeekToFirst it = Ret tt it' /\ cursor (pos_at 0) it'.
Proof using F.
  intros Ho. destruct (SeekToRestartPoint_run 0 it Ho) as (i & it1 & Hi & Hs & Hr); [pose proof sizes; lia|].
  change (Z.to_nat 0) with 0%nat in Hi. rewrite (f_first _ _ F) in Hi. simplify_eq.
  destruct (parse_run 0 it1 Hr) as (it' & Hp & Hc). exists it'. split; [|done].
  unfold SeekToFirst, bind. by rewrite Hs, Hp.
Qed.

Definition last_pos : option nat := if (length es =? 0)%nat then None else Some (pred (length es)).

Lemma block_SeekToLast_run it : over it -> exists it', SeekToLast it = Ret tt it' /\ cursor last_pos it'.
Proof using F.
  intros Ho. pose proof sizes as Hsz. unfold SeekToLast, bind, get_state. rewrite (o_num _ Ho), (o_restarts _ Ho), u32_small by lia.
  destruct (SeekToRestartPoint_run (N - 1) it Ho) as (i & it1 & Hi & -> & Hr); [lia|].
  pose proof (restart_le _ _ Hi) as Hle. destruct (f_restart _ _ F _ _ Hi) as [Hor _]. unfold last_pos.
  destruct (Nat.eqb_spec (length es) 0) as [E|E].
  - destruct (parse_run i it1 Hr) as (it' & Hp & Hc). unfold pos_at in *. rewrite E in Hp, Hc.
    exists it'. split; [|by destruct i]. unfold entry_fuel. cbn [parse_until]. unfold bind. rewrite Hp. by destruct i.
  - rewrite <- (off_all es (length es)) by done. apply (parse_until_run _ i); [done|lia|].
    pose proof (entry_fuel_enough it Ho). lia.
Qed.

Lemma restart_before_run fuel i k it :
  over it -> 0 <= k < N -> (0 < i <= length es)%nat -> k < Z.of_nat fuel ->
  exists k' j, restart_before fuel (off es i) (at_index k it) = Ret true (at_index k' it) /\ 0 <= k' < N /\
    ris !! Z.to_nat k' = Some j /\ (j < i)%nat.
Proof using F.
  intros Ho. revert k. induction fuel as [|fuel IH]; intros k Hk Hi Hf; [simpl in Hf; lia|].
  assert (over (at_index k it)) as Ho' by (by destruct Ho; split).
  destruct (GetRestartPoint_in k (at_index k it) Ho' Hk) as (j & Hj & Hg).
  cbn [restart_before]. unfold bind, get_state, modify, ret. change (restart_index_ (at_index k it)) with k.
  rewrite Hg, Z.geb_leb.
  destruct (Z.leb_spec (off es i) (off es j)) as [Hle|Hlt].
  - destruct (Z.eqb_spec k 0) as [->|].
    + change (Z.to_nat 0) with 0%nat in Hj. rewrite (f_first _ _ F) in Hj. simplify_eq.
      pose proof (off_lt es 0 i). lia.
    + apply (IH (k - 1)); lia.
  - exists k, j. split_and!; [done|lia|lia|done|]. destruct (decide (j < i)%nat); [done|].
    pose proof (off_le es i j). lia.
Qed.

Lemma restart_before_none it fuel :
  over it -> indexed it -> restart_index_ it < Z.of_nat fuel ->
  exists it', restart_before fuel 0 it = Ret false it' /\ done_ it'.
Proof using F.
  revert it. induction fuel as [|fuel IH]; intros it Ho Hi Hf; unfold indexed in Hi; [lia|].
  destruct (GetRestartPoint_in (restart_index_ it) it Ho Hi) as (j & Hj & Hg).
  cbn [restart_before]. unfold bind, get_state, modify, ret. rewrite Hg, Z.geb_leb.
  destruct (Z.leb_spec 0 (off es j)) as [_|]; [|pose proof (off_nonneg es j); lia].
  destruct (Z.eqb_spec (restart_index_ it) 0).
  - eexists. split; [reflexivity|]. split; [by destruct Ho; split|]. simpl. apply Ho.
  - apply IH; [by destruct Ho; split|unfold indexed; simpl; lia|simpl; lia].
Qed.

Definition prev_pos (i : nat) : option nat := match i with O => None | S j => Some j end.

Lemma Prev_run i it : cursor (Some i) it -> exists it', Prev it = Ret tt it' /\ cursor (prev_pos i) it'.
Proof using F.
  intros H. unfold Prev, bind. rewrite (valid_run _ _ H). simpl assert_. unfold ret, get_state.
  destruct H as [e H]. pose proof (ae_over _ _ _ H) as Ho. pose proof (ae_index _ _ _ H) as Hx.
  pose proof Hx as Hx'. unfold indexed in Hx'.
  assert (restart_index_ it < Z.of_nat (S (Z.to_nat (restart_index_ it)))) as Hf by lia.
  pose proof (lookup_lt_Some _ _ _ (ae_entry _ _ _ H)) as Hlt. rewrite (ae_current _ _ _ H).
  destruct i as [|i].
  - destruct (restart_before_none it _ Ho Hx Hf) as (it' & Hr & Hd).
    change (off es 0) with 0. rewrite Hr. by exists it'.
  - destruct (restart_before_run _ (S i) _ it Ho Hx ltac:(lia) Hf) as (k & j & Hb & Hk & Hj & Hji).
    replace (at_index (restart_index_ it) it) with it in Hb by (by destruct it). rewrite Hb.
    assert (over (at_index k it)) as Ho' by (by destruct Ho; split).
    change (restart_index_ (at_index k it)) with k.
    destruct (SeekToRestartPoint_run k _ Ho' Hk) as (j' & it2 & Hj' & -> & Hr). simplify_eq.
    apply (parse_until_run _ j); [done|lia|]. pose proof (entry_fuel_enough _ Ho'). lia.
Qed.

(** *** Seek *)

Section seek.
Context (c : Comparator) (dom : bytes -> Prop) {Hc : ComparatorOk c dom} (target : bytes).

Definition below (e : entry) : Prop := Compare c (e_key e) target < 0.

(** The binary search ends at the first restart point or at one whose key is below the
    target. *)
Definition low_restart (k : Z) : Prop :=
  0 <= k < N /\ (k = 0 \/ exists i e, ris !! Z.to_nat k = Some i /\ es !! i = Some e /\ below e).

(** The key of a restart point after the first one is stored in full. *)
Lemma search_mid k it :
  over it -> 1 <= k < N -> (forall r, ris !! r = Some 0%nat -> r = 0%nat) ->
  exists i e rest, ris !! Z.to_nat k = Some i /\ es !! i = Some e /\
    DecodeEntry (entry_bytes (off es i) it) =
      Some (0, Z.of_nat (length (e_key e)), Z.of_nat (length (e_value e)), rest) /\
    load_bytes (R - Z.of_nat (length rest)) (Z.of_nat (length (e_key e))) it = Ret (e_key e) it.
Proof using F.
  intros Ho Hk Hz. destruct (restart_point k) as (i & Hi & _); [lia|].
  destruct (f_restart _ _ F _ _ Hi) as [[Hlt|E] Hsh]; [|subst i; apply Hz in Hi; lia].
  destruct (lookup_lt_is_Some_2 es i Hlt) as [e He]. specialize (Hsh e He).
  destruct (decode_at i e it Ho He) as (rest & Hd & _ & Hl).
  rewrite Hsh, Nat.sub_0_r, drop_0 in *. exists i, e, rest. by split_and!.
Qed.

Lemma search_run fuel l r it :
  over it -> (forall r, ris !! r = Some 0%nat -> r = 0%nat) ->
  low_restart l -> l <= r < N -> r - l < Z.of_nat fuel ->
  exists k, search c target fuel l r it = Ret (Some k) it /\ low_restart k.
Proof using F.
  intros Ho Hz. pose proof sizes as Hsz. revert l r. induction fuel as [|fuel IH]; intros l r Hl Hr Hf; [lia|].
  cbn [search]. destruct (Z.ltb_spec l r) as [Hlr|]; [|by exists l].
  rewrite u32_small by (destruct Hl; lia). set (mid := (l + r + 1) / 2).
  assert (l < mid <= r) as Hm by (pose proof (Z.div_mod (l + r + 1) 2); pose proof (Z.mod_pos_bound (l + r + 1) 2); lia).
  destruct Hl as [Hl0 Hl]. unfold bind, get_state.
  destruct (search_mid mid it Ho ltac:(lia) Hz) as (i & e & rest & Hi & He & Hd & Hld).
  destruct (GetRestartPoint_in mid it Ho ltac:(lia)) as (i' & Hi' & ->). simplify_eq.
  rewrite Hd. change (negb (0 =? 0)) with false. cbv beta iota. rewrite (o_restarts _ Ho), Hld.
  destruct (Z.ltb_spec (Compare c (e_key e) target) 0).
  - apply IH; [|lia|lia]. split; [lia|]. right. by exists i, e.
  - apply IH; [by split|lia|lia].
Qed.

(** The first entry from [i] on that is not below the target. *)
Fixpoint first_from (l : list entry) (i : nat) : nat :=
  match l with
  | [] => i
  | e :: l' => if Compare c (e_key e) target >=? 0 then i else first_from l' (S i)
  end.

Lemma block_scan_run fuel i it :
  ready i it -> (length es - i < fuel)%nat -> (i <= length es)%nat ->
  exists it', scan c target fuel it = Ret tt it' /\ cursor (pos_at (first_from (drop i es) i)) it'.
Proof using F.
  revert i it. induction fuel as [|fuel IH]; intros i it Hr Hf Hi; [lia|].
  cbn [scan]. unfold bind, get_state, ret. destruct (es !! i) as [e|] eqn:He.
  - destruct (parse_entry i e it Hr He) as (it1 & -> & H1). pose proof (lookup_lt_Some _ _ _ He) as Hlt.
    rewrite (drop_S es e i He). cbn [first_from negb]. rewrite (ae_key _ _ _ H1).
    destruct (Compare c (e_key e) target >=? 0).
    + exists it1. split; [done|]. unfold pos_at. destruct (Nat.ltb_spec i (length es)); [by exists e|lia].
    + apply IH; [by eapply at_entry_ready|lia|lia].
  - destruct (parse_end i it Hr He) as (it1 & -> & H1). apply lookup_ge_None in He.
    exists it1. split; [done|]. rewrite drop_ge by done. unfold pos_at. simpl.
    destruct (Nat.ltb_spec i (length es)); [lia|done].
Qed.

Lemma first_from_skip l1 l2 i :
  Forall below l1 -> first_from (l1 ++ l2) i = first_from l2 (i + length l1)%nat.
Proof.
  intros H. revert i. induction H as [|e l1 He Hl IH]; intros i; simpl; [by rewrite Nat.add_0_r|].
  unfold below in He. rewrite Z.geb_leb. destruct (Z.leb_spec 0 (Compare c (e_key e) target)); [lia|].
  rewrite IH. f_equal. lia.
Qed.

Lemma elem_of_take_sub {A} (x : A) n l : x ∈ take n l -> x ∈ l.
Proof. intros H. rewrite <- (take_drop n l). apply elem_of_app. by left. Qed.

Lemma block_Seek_run it :
  over it -> (forall r, ris !! r = Some 0%nat -> r = 0%nat) ->
  StronglySorted (fun a b => Compare c (e_key a) (e_key b) < 0) es ->
  Forall (fun e => dom (e_key e)) es -> dom target ->
  exists it', Seek c target it = Ret tt it' /\ cursor (pos_at (first_from es 0)) it'.
Proof using F Hc.
  intros Ho Hz Hsort Hdom Ht. pose proof sizes as Hsz. unfold Seek, bind at 1, get_state. rewrite (o_num _ Ho), u32_small by lia.
  assert (low_restart 0) as H0 by (split; [lia|by left]).
  destruct (search_run (Z.to_nat N) 0 (N - 1) it Ho Hz H0 ltac:(lia) ltac:(lia)) as (k & Hs & Hk & Hlow).
  unfold bind. rewrite Hs. destruct (SeekToRestartPoint_run k it Ho Hk) as (i & it1 & Hi & -> & Hr).
  pose proof (restart_le _ _ Hi). pose proof (entry_fuel_enough it Ho).
  destruct (block_scan_run (entry_fuel it) i it1 Hr ltac:(lia) ltac:(lia)) as (it' & Hsc & Hcu).
  exists it'. split; [done|]. replace (first_from es 0) with (first_from (drop i es) i); [done|].
  rewrite <- (take_drop i es) at 2. rewrite first_from_skip; [by rewrite length_take_le by done|].
  destruct Hlow as [->|(i' & e & Hi' & He & Hb)].
  { change (Z.to_nat 0) with 0%nat in Hi. rewrite (f_first _ _ F) in Hi. simplify_eq. rewrite take_0. constructor. }
  assert (i' = i) as -> by congruence. apply list.Forall_forall. intros e' He'. rewrite <- (take_drop_middle es i e He) in Hsort.
  rewrite list.Forall_forall in Hdom. assert (e' ∈ es) by (by eapply elem_of_take_sub).
  eapply cmp_trans; [apply Hdom; done|apply Hdom; by eapply list_elem_of_lookup_2|done| |exact Hb].
  eapply (StronglySorted_app_1_elem_of _ _ _ _ _ Hsort He'). by left.
Qed.
End seek.
End reading.
