(* ===== verification/BlockBuild.v ===== *)
(** Building blocks: what [BlockBuilder] of [Block] writes has the layout of
    [BlockRead], and the iterator over it is a cursor over the entries added. *)

From stdpp Require Import sorting.
From S2P Require Import Prelude Coding Comparator Iterators Block BlockRead.

Set Default Proof Using "Type".

(** ** Building and opening *)

Fixpoint add_entries (o : Options) (kvs : list (bytes * bytes)) : builder_prog unit :=
  match kvs with
  | [] => ret tt
  | (k, v) :: kvs' => Add o k v ;;; add_entries o kvs'
  end.

Definition build (o : Options) (kvs : list (bytes * bytes)) : builder_prog bytes :=
  BlockBuilder_new o ;;; add_entries o kvs ;;; Finish.

Definition open_block (data : bytes) : prog unit Iterator :=
  blk <- Block_new data ;; NewIterator blk.

(** ** The iterator over a block as an iterator *)

Definition block_iterator (c : Comparator) : IteratorOps Iter :=
  mkIteratorOps Valid SeekToFirst SeekToLast (Seek c) Next Prev key value status.

Definition kv_of (e : entry) : bytes * bytes := (e_key e, e_value e).

Section refinement.
Context (c : Comparator) (dom : bytes -> Prop) {Hc : ComparatorOk c dom} (es : list entry) (ris : list nat) (F : format es ris).
Context (Hz : forall r, ris !! r = Some 0%nat -> r = 0%nat)
        (Hsort : StronglySorted (fun a b => Compare c (e_key a) (e_key b) < 0) es)
        (Hdom : Forall (fun e => dom (e_key e)) es).
#[local] Abbreviation kvs := (kv_of <$> es).

Lemma position_pos i : position kvs i = pos_at es i.
Proof. unfold position, pos_at. by rewrite length_fmap. Qed.

Lemma first_from_find target l i :
  first_from c target l i =
  (i + default (length l) (fst <$> list_find (fun kv => 0%Z <= Compare c (fst kv) target)%Z (kv_of <$> l)))%nat.
Proof.
  revert i. induction l as [|e l IH]; intros i; simpl; [lia|].
  rewrite Z.geb_leb. destruct (Z.leb_spec 0 (Compare c (e_key e) target)) as [H|H].
  - rewrite decide_True by done. simpl. lia.
  - rewrite decide_False by (simpl; lia). rewrite IH. destruct (list_find _ _) as [[j x]|]; simpl; lia.
Qed.

Lemma find_pos target :
  fst <$> list_find (fun kv => 0%Z <= Compare c (fst kv) target)%Z kvs = pos_at es (first_from c target es 0).
Proof.
  rewrite first_from_find. unfold pos_at. destruct (list_find _ _) as [[j x]|] eqn:E; simpl.
  - apply list_find_Some in E as (Hj & _). apply lookup_lt_Some in Hj. rewrite length_fmap in Hj.
    by destruct (Nat.ltb_spec j (length es)); [|lia].
  - by rewrite Nat.ltb_irrefl.
Qed.

#[global] Instance block_iterator_ok : IteratorOk (block_iterator c) c dom kvs (cursor es ris).
Proof using F Hc Hz Hsort Hdom.
  split.
  - intros op p it H Ht. pose proof (cursor_over _ _ _ _ H) as Ho. destruct op as [| |target| |]; simpl.
    + rewrite position_pos. by apply block_SeekToFirst_run.
    + destruct (block_SeekToLast_run es ris F it Ho) as (it' & Hr & Hcu). exists it'. split; [done|].
      unfold last_pos in Hcu. rewrite length_fmap. by destruct es.
    + rewrite find_pos. by eapply block_Seek_run.
    + unfold bind. destruct p as [i|]; simpl.
      * rewrite position_pos. by eapply Next_run.
      * unfold Next, bind. by rewrite (valid_run es ris F None it H).
    + unfold bind. destruct p as [i|]; simpl.
      * by eapply (Prev_run es ris F).
      * unfold Prev, bind. by rewrite (valid_run es ris F None it H).
  - intros p it H. cbn. rewrite (valid_run es ris F p it H). by destruct p.
  - intros i it [e H]. exists (e_key e), (e_value e).
    split_and!; [by rewrite list_lookup_fmap, (ae_entry _ _ _ _ _ H)|by eapply key_run|by eapply value_run].
  - intros p it H. cbn. unfold status, gets. by rewrite (o_sound _ _ _ (cursor_over _ _ _ _ H)).
Qed.
End refinement.

(** ** What the builder writes *)

(** A bound on the bytes of a block: three varints and a restart point for an entry. *)
Definition block_bound (kvs : list (bytes * bytes)) : Z :=
  foldr (fun kv n => Z.of_nat (length (fst kv)) + Z.of_nat (length (snd kv)) + 19 + n) 8 kvs.

Lemma block_bound_app kvs kvs' : block_bound (kvs ++ kvs') = block_bound kvs + block_bound kvs' - 8.
Proof. induction kvs as [|kv kvs IH]; simpl; [lia|]. unfold block_bound in *. lia. Qed.

Lemma block_bound_min kvs : 8 <= block_bound kvs.
Proof. induction kvs as [|kv kvs IH]; simpl; [done|]. unfold block_bound in *. lia. Qed.

Lemma common_prefix_take a b n :
  (common_prefix a b n <= n)%nat /\ (common_prefix a b n <= length a)%nat /\ (common_prefix a b n <= length b)%nat /\
  take (common_prefix a b n) a = take (common_prefix a b n) b.
Proof.
  revert a b. induction n as [|n IH]; intros [|x a] [|y b]; simpl; split_and!; try lia; try done;
    destruct (Z.eqb_spec x y) as [->|]; simpl; try lia; try done; destruct (IH a b) as (? & ? & ? & ?); try lia.
  by f_equal.
Qed.

Record built (o : Options) (kvs : list (bytes * bytes)) (es : list entry) (ris : list nat) (b : BlockBuilder) : Prop := {
  bu_kvs : kv_of <$> es = kvs;
  bu_buffer : bb_buffer_ b = buf es;
  bu_restarts : bb_restarts_ b = off es <$> ris;
  bu_counter : 0 <= counter_ b <= block_restart_interval o;
  bu_none : es = [] -> counter_ b = 0 /\ ris = [0%nat];
  bu_open : finished_ b = false;
  bu_last : last_key_ b = default [] (e_key <$> list.last es);
  bu_chain : chained [] es;
  bu_first : ris !! 0%nat = Some 0%nat;
  bu_zero r : ris !! r = Some 0%nat -> r = 0%nat;
  bu_restart r i : ris !! r = Some i ->
    ((i < length es)%nat \/ i = 0%nat) /\ forall e, es !! i = Some e -> e_shared e = 0%nat;
  bu_number : (length ris <= S (length es))%nat;
  bu_size : Z.of_nat (length (buf es)) + 4 * Z.of_nat (length es) + 8 <= block_bound kvs }.

Lemma chained_snoc prev es e :
  chained prev es -> follows (default prev (e_key <$> list.last es)) e -> chained prev (es ++ [e]).
Proof.
  revert prev. induction es as [|e0 es IH]; intros prev; simpl; [done|]. intros [H0 H] Hf. split; [done|].
  apply IH; [done|]. destruct es; [done|]. rewrite last_cons_cons in Hf.
  destruct (list.last (e1 :: es)) as [x|] eqn:E; [done|]. by apply last_None in E.
Qed.

Lemma off_app es es' i : (i <= length es)%nat -> off (es ++ es') i = off es i.
Proof. intros H. unfold off. by rewrite take_app_le. Qed.

Lemma enc_of_add k v shared :
  (shared <= length k)%nat -> Z.of_nat (length k) + Z.of_nat (length v) < 2 ^ 32 ->
  forall buffer, PutVarint32 (PutVarint32 (PutVarint32 buffer (u32 (Z.of_nat shared)))
    (u32 (Z.of_nat (length k - shared)))) (u32 (Z.of_nat (length v))) ++ slice shared (length k - shared) k ++ v =
  buffer ++ enc (mkEntry shared k v).
Proof.
  intros Hs Hl buffer. unfold PutVarint32, enc, slice. simpl.
  rewrite !u32_small, (take_ge (drop shared k)) by (rewrite ?length_drop; lia). by rewrite <- !app_assoc.
Qed.

(** The state after an entry was added, with or without a restart. *)
Lemma built_snoc o kvs es ris b k v shared restart counter :
  built o kvs es ris b ->
  follows (last_key_ b) (mkEntry shared k v) ->
  (restart = true -> shared = 0%nat /\ es <> []) -> 0 <= counter < block_restart_interval o ->
  built o (kvs ++ [(k, v)]) (es ++ [mkEntry shared k v]) (if restart then ris ++ [length es] else ris)
    (mkBuilder (buf es ++ enc (mkEntry shared k v))
       (if restart then bb_restarts_ b ++ [Z.of_nat (length (buf es))] else bb_restarts_ b) (counter + 1) false k).
Proof.
  intros B Hf Hr Hcnt. pose proof (bu_first _ _ _ _ _ B) as Hfirst. pose proof (bu_number _ _ _ _ _ B) as Hnum.
  assert (forall r i, ris !! r = Some i -> (i <= length es)%nat) as Hle.
  { intros r i Hi. destruct (bu_restart _ _ _ _ _ B r i Hi) as [[| ->] _]; lia. }
  assert (off (es ++ [mkEntry shared k v]) <$> ris = off es <$> ris) as Hoff.
  { apply list_fmap_ext. intros r i Hi. apply off_app. by eapply Hle. }
  assert (forall r i e, ris !! r = Some i -> (es ++ [mkEntry shared k v]) !! i = Some e -> e_shared e = 0%nat) as Hsh.
  { intros r i e Hi He. destruct (bu_restart _ _ _ _ _ B r i Hi) as [Hor H0].
    destruct (decide (i < length es)%nat) as [Hlt|]; [rewrite lookup_app_l in He by done; eauto|].
    destruct Hor as [| ->]; [lia|]. destruct es as [|x es']; [|simpl in *; lia]. simpl in He. simplify_eq. simpl.
    destruct Hf as (Hf & _). rewrite (bu_last _ _ _ _ _ B) in Hf. simpl in Hf. lia. }
  split; simpl.
  - rewrite fmap_app, (bu_kvs _ _ _ _ _ B). done.
  - by rewrite buf_app, buf_cons, app_nil_r.
  - rewrite (bu_restarts _ _ _ _ _ B). destruct restart; [|done]. rewrite fmap_app, Hoff. simpl.
    rewrite off_app, off_all by done. done.
  - lia.
  - intros E. by apply app_eq_nil in E as [_ ?].
  - done.
  - by rewrite last_snoc.
  - apply chained_snoc; [apply B|]. rewrite <- (bu_last _ _ _ _ _ B). done.
  - destruct restart; [|done]. rewrite lookup_app_l; [done|]. eauto using lookup_lt_Some.
  - intros r Hr0. destruct restart; [|by eapply bu_zero].
    apply lookup_app_Some in Hr0 as [|[Hge Hr0]]; [by eapply bu_zero|].
    apply list_lookup_singleton_Some in Hr0 as [_ Hr0]. destruct (Hr eq_refl) as [_ Hne]. destruct es; done.
  - intros r i Hi. rewrite length_app. simpl. destruct restart; [|split; [apply Hle in Hi; lia|eauto]].
    apply lookup_app_Some in Hi as [Hi|[Hge Hi]]; [split; [apply Hle in Hi; lia|eauto]|].
    apply list_lookup_singleton_Some in Hi as [_ <-]. split; [lia|]. intros e He.
    rewrite list_lookup_middle in He by done. simplify_eq. by apply Hr.
  - destruct restart; rewrite ?length_app; simpl; lia.
  - rewrite buf_app, buf_cons, block_bound_app, !length_app. pose proof (bu_size _ _ _ _ _ B). simpl.
    pose proof (length_enc (mkEntry shared k v)) as Hl. destruct Hf as (_ & _ & Hf). simpl in *. lia.
Qed.

Section building.
Context (o : Options) (dom : bytes -> Prop) {Hc : ComparatorOk (comparator o) dom}.

Lemma add_last_key k last shared :
  follows last (mkEntry shared k []) -> str_resize last shared ++ slice shared (length k - shared) k = k.
Proof using Type.
  intros Hf. pose proof (resize_follows _ _ Hf) as H. simpl in H. unfold slice.
  by rewrite take_ge by (rewrite length_drop; lia).
Qed.

Lemma block_Add_run kvs es ris b k v :
  built o kvs es ris b -> block_bound (kvs ++ [(k, v)]) < 2 ^ 32 ->
  (es = [] \/ (dom (last_key_ b) /\ dom k /\ Compare (comparator o) (last_key_ b) k < 0)) -> 1 <= block_restart_interval o ->
  exists es' ris' b', Add o k v b = Ret tt b' /\ built o (kvs ++ [(k, v)]) es' ris' b' /\ last_key_ b' = k.
Proof using Hc.
  intros B Hsz Hlt Hiv. pose proof (bu_size _ _ _ _ _ B) as Hb. rewrite block_bound_app in Hsz. simpl in Hsz.
  pose proof (bu_counter _ _ _ _ _ B) as Hcnt.
  set (cp := common_prefix (last_key_ b) k (Nat.min (length (last_key_ b)) (length k))).
  destruct (common_prefix_take (last_key_ b) k (Nat.min (length (last_key_ b)) (length k))) as (Hcp & Hc1 & Hc2 & Hc3).
  fold cp in Hcp, Hc1, Hc2, Hc3.
  set (restart := negb (counter_ b <? block_restart_interval o)).
  set (shared := if restart then 0%nat else cp).
  assert (follows (last_key_ b) (mkEntry shared k v)) as Hf.
  { unfold follows, shared. simpl. destruct restart; [rewrite !take_0; split_and!; [lia|done|lia]|done]. }
  pose proof (built_snoc o kvs es ris b k v shared restart (if restart then 0 else counter_ b) B Hf) as Hs.
  eexists _, _, _. split_and!; [| apply Hs; clear Hs |done].
  - unfold Add, bind, get_state, modify. rewrite (bu_open _ _ _ _ _ B). simpl assert_. unfold ret.
    replace (counter_ b <=? block_restart_interval o) with true by (symmetry; apply Z.leb_le; lia). simpl assert_. unfold ret.
    replace (bool_decide (bb_buffer_ b = []) || (Compare (comparator o) k (last_key_ b) >? 0)) with true.
    2: { rewrite (bu_buffer _ _ _ _ _ B). destruct Hlt as [->|(Hd1 & Hd2 & Hlt)]; [done|].
         apply (cmp_flip _ _ Hd1 Hd2) in Hlt. symmetry. apply orb_true_iff. right. rewrite Z.gtb_ltb. by apply Z.ltb_lt. }
    simpl assert_. unfold ret. fold cp. rewrite (bu_buffer _ _ _ _ _ B).
    assert ((if counter_ b <? block_restart_interval o then (cp, bb_restarts_ b, counter_ b)
      else (0%nat, bb_restarts_ b ++ [u32 (Z.of_nat (length (buf es)))], 0)) =
      (shared, if restart then bb_restarts_ b ++ [Z.of_nat (length (buf es))] else bb_restarts_ b,
       if restart then 0 else counter_ b)) as ->.
    { unfold shared, restart. destruct (counter_ b <? block_restart_interval o); [done|]. simpl.
      by rewrite u32_small by lia. }
    cbv beta iota zeta. rewrite (add_last_key k (last_key_ b) shared Hf), bool_decide_true by done.
    simpl assert_. unfold ret. rewrite <- app_assoc, enc_of_add; [done|by apply Hf|lia].
  - intros E. unfold shared. rewrite E. split; [done|]. intros ->.
    destruct (bu_none _ _ _ _ _ B eq_refl) as [H0 _]. unfold restart in E. rewrite H0 in E.
    destruct (Z.ltb_spec 0 (block_restart_interval o)); [done|lia].
  - unfold restart. destruct (Z.ltb_spec (counter_ b) (block_restart_interval o)); simpl; lia.
Qed.

Lemma add_entries_run kvs : forall done_kvs es ris b,
  built o done_kvs es ris b -> block_bound (done_kvs ++ kvs) < 2 ^ 32 -> 1 <= block_restart_interval o ->
  StronglySorted (fun x y => Compare (comparator o) (fst x) (fst y) < 0) (done_kvs ++ kvs) ->
  Forall (fun kv => dom (fst kv)) (done_kvs ++ kvs) ->
  exists es' ris' b', add_entries o kvs b = Ret tt b' /\ built o (done_kvs ++ kvs) es' ris' b'.
Proof using Hc.
  induction kvs as [|[k v] kvs IH]; intros done_kvs es ris b B Hsz Hiv Hsort Hdom; simpl.
  { exists es, ris, b. by rewrite app_nil_r. }
  replace (done_kvs ++ (k, v) :: kvs) with ((done_kvs ++ [(k, v)]) ++ kvs) in * by (by rewrite <- app_assoc).
  destruct (block_Add_run done_kvs es ris b k v B) as (es1 & ris1 & b1 & Ha & B1 & _); [| |done|].
  - rewrite block_bound_app in Hsz. pose proof (block_bound_min kvs). lia.
  - rewrite (bu_last _ _ _ _ _ B). destruct (list.last es) as [e|] eqn:E; [right|left; by apply last_None].
    assert (kv_of e ∈ done_kvs) as Hin.
    { rewrite <- (bu_kvs _ _ _ _ _ B). apply list_elem_of_fmap. exists e. split; [done|]. by apply last_Some_elem_of. }
    rewrite list.Forall_forall in Hdom. split_and!.
    + apply (Hdom (kv_of e)). set_solver.
    + apply (Hdom (k, v)). set_solver.
    + apply StronglySorted_app_1_l in Hsort. by apply (StronglySorted_app_1_elem_of _ _ _ (kv_of e) (k, v) Hsort); [|left].
  - destruct (IH _ _ _ _ B1) as (es' & ris' & b' & Hr & B'); [done..|].
    exists es', ris', b'. split; [|done]. unfold bind. by rewrite Ha.
Qed.

Lemma foldl_PutFixed32 es ris buffer :
  foldl PutFixed32 buffer (off es <$> ris) = buffer ++ restart_array es ris.
Proof using Type.
  revert buffer. induction ris as [|i ris IH]; intros buffer; simpl; [by rewrite app_nil_r|].
  rewrite IH, restart_array_cons. unfold PutFixed32. by rewrite <- app_assoc.
Qed.

Lemma built_format kvs es ris b :
  built o kvs es ris b -> block_bound kvs < 2 ^ 32 ->
  Forall (fun kv => bytes_ok (fst kv) /\ bytes_ok (snd kv)) kvs -> format es ris.
Proof using Type.
  intros B Hsz Hok. pose proof (bu_size _ _ _ _ _ B) as Hb. pose proof (bu_number _ _ _ _ _ B).
  rewrite <- (bu_kvs _ _ _ _ _ B) in Hok, Hsz, Hb. split; try by apply B.
  - apply Forall_fmap in Hok. exact Hok.
  - clear -Hsz. induction es as [|e es IH]; [constructor|].
    change (block_bound (kv_of <$> e :: es)) with
      (Z.of_nat (length (e_key e)) + Z.of_nat (length (e_value e)) + 19 + block_bound (kv_of <$> es)) in Hsz.
    pose proof (block_bound_min (kv_of <$> es)) as Hm. constructor; [lia|]. apply IH. lia.
  - rewrite length_contents. lia.
Qed.

Lemma Finish_run kvs es ris b :
  built o kvs es ris b -> block_bound kvs < 2 ^ 32 -> exists b', Finish b = Ret (contents es ris) b'.
Proof using Type.
  intros B Hsz. pose proof (bu_size _ _ _ _ _ B). pose proof (bu_number _ _ _ _ _ B).
  unfold Finish, bind, modify, gets. eexists. f_equal. simpl.
  rewrite (bu_restarts _ _ _ _ _ B), (bu_buffer _ _ _ _ _ B), foldl_PutFixed32, length_fmap, u32_small by lia.
  unfold contents, PutFixed32. by rewrite app_assoc.
Qed.
End building.

Lemma NumRestarts_run {S} es ris (F : format es ris) (s : S) :
  NumRestarts (contents es ris) (Z.of_nat (length (contents es ris))) s = Ret (Z.of_nat (length ris)) s.
Proof.
  pose proof (sizes es ris F) as Hsz. unfold NumRestarts, bind. rewrite length_contents.
  replace (Z.of_nat (length (buf es)) + 4 * Z.of_nat (length ris) + 4 >=? 8) with true
    by (symmetry; rewrite Z.geb_leb; apply Z.leb_le; lia).
  simpl assert_. unfold ret. f_equal. unfold contents. rewrite app_assoc, drop_app_ge.
  2: { rewrite length_app, length_restart_array. lia. }
  rewrite length_app, length_restart_array.
  replace (Z.to_nat _ - _)%nat with 0%nat by lia.
  unfold DecodeFixed32, EncodeFixed32. rewrite drop_0, take_ge, le_val_bytes by (rewrite length_le_bytes; done).
  apply Z.mod_small. change (2 ^ (8 * Z.of_nat 4)) with (2 ^ 32). lia.
Qed.

Lemma open_run es ris :
  format es ris -> exists it, open_block (contents es ris) tt = Ret (BlockIterator it) tt /\ cursor es ris None it.
Proof.
  intros F. pose proof (sizes es ris F) as Hsz. pose proof (length_contents es ris) as Hl.
  exists (Iter_new (contents es ris) (Z.of_nat (length (buf es))) (Z.of_nat (length ris))).
  split; [|by split; [split|]].
  unfold open_block, bind, Block_new. destruct (Z.ltb_spec (Z.of_nat (length (contents es ris))) 4); [lia|].
  unfold bind. rewrite (NumRestarts_run es ris F). unfold ret.
  rewrite (u32_small (1 + _)), u64_small by lia.
  replace (Z.of_nat (length (contents es ris)) - (1 + Z.of_nat (length ris)) * 4) with (Z.of_nat (length (buf es))) by lia.
  rewrite u32_small by lia. rewrite Z.gtb_ltb.
  destruct (Z.ltb_spec (Z.of_nat (length (contents es ris)) - 4) (Z.of_nat (length (buf es)))); [lia|].
  unfold NewIterator, bind. cbn [size_ block_data_ restart_offset_].
  destruct (Z.ltb_spec (Z.of_nat (length (contents es ris))) 8); [lia|].
  rewrite (NumRestarts_run es ris F). destruct (Z.eqb_spec (Z.of_nat (length ris)) 0); [lia|]. done.
Qed.

Lemma built_empty o : 1 <= block_restart_interval o -> built o [] [] [0%nat] BlockBuilder_empty.
Proof.
  intros Ho. split; simpl; try done; try lia; [by intros [|r]|].
  intros [|r] i Hi; [|done]. simpl in Hi. simplify_eq. split; [by right|done].
Qed.

Lemma sorted_entries c es :
  StronglySorted (fun x y => Compare c (fst x) (fst y) < 0) (kv_of <$> es) ->
  StronglySorted (fun a b => Compare c (e_key a) (e_key b) < 0) es.
Proof.
  induction es as [|e es IH]; [constructor|]. rewrite fmap_cons, !StronglySorted_cons, Forall_fmap.
  intros [H1 H2]. split; [exact H1|by apply IH].
Qed.

(** C28: For a comparator that keeps its contract on the keys, entries with strictly increasing keys that
    take less than 4 GB and any restart interval of at least 1, building a block of
    them (prefix compression and restart points) fails no assertion, the block opens,
    and every history of [Seek], [SeekToFirst], [SeekToLast], [Next] and [Prev] on its
    iterator shows what a position in the list of entries would: after [Seek] the
    first entry whose key is not below the target, and nothing but a [Next] or [Prev]
    of an iterator that is not valid fails. *)
Theorem block_refines_list (o : Options) (dom : bytes -> Prop) {Hc : ComparatorOk (comparator o) dom} (kvs : list (bytes * bytes))
    (ops : list iter_op) (b0 : BlockBuilder) :
  1 <= block_restart_interval o ->
  StronglySorted (fun x y => Compare (comparator o) (fst x) (fst y) < 0) kvs ->
  Forall (fun kv => bytes_ok (fst kv) /\ bytes_ok (snd kv)) kvs ->
  Forall (fun kv => dom (fst kv)) kvs -> Forall (target_in dom) ops ->
  block_bound kvs < 2 ^ 32 ->
  exists data b it,
    build o kvs b0 = Ret data b /\
    open_block data tt = Ret (BlockIterator it) tt /\
    result (moves (block_iterator (comparator o)) ops it) = result (spec_ops (comparator o) kvs ops None).
Proof.
  intros Hiv Hsort Hok Hdom Ht Hsz.
  destruct (add_entries_run o dom kvs [] [] [0%nat] BlockBuilder_empty (built_empty o Hiv)) as (es & ris & b & Ha & B); [done..|].
  destruct (Finish_run o kvs es ris b B Hsz) as (b' & Hf).
  pose proof (built_format o kvs es ris b B Hsz Hok) as F.
  destruct (open_run es ris F) as (it & Hopen & Hcu).
  exists (contents es ris), b', it. split_and!; [|done|].
  - unfold build, BlockBuilder_new, bind. rewrite Z.geb_leb, (proj2 (Z.leb_le _ _) Hiv). simpl. by rewrite Ha.
  - pose proof (bu_kvs _ _ _ _ _ B) as E. simpl in E. subst kvs.
    pose proof (block_iterator_ok (comparator o) dom es ris F (bu_zero _ _ _ _ _ B) (sorted_entries _ _ Hsort)
      (proj1 (Forall_fmap kv_of (fun kv => dom (fst kv)) es) Hdom)) as HI. by eapply moves_refine.
Qed.

Lemma block_refines_list_witness :
  let o := mkOptions 2 BytewiseComparator in
  let kvs := [(str "app", str "1"); (str "apple", str "2"); (str "apply", str "3"); (str "bar", str "4")] in
  exists data b it,
    build o kvs BlockBuilder_empty = Ret data b /\
    open_block data tt = Ret (BlockIterator it) tt /\
    result (moves (block_iterator BytewiseComparator) [OpSeek (str "applz"); OpPrev; OpPrev; OpSeekToLast; OpNext; OpSeekToFirst; OpPrev] it) =
    Ret [(Some (str "bar", str "4"), true); (Some (str "apply", str "3"), true); (Some (str "apple", str "2"), true);
         (Some (str "bar", str "4"), true); (None, true); (Some (str "app", str "1"), true); (None, true)] tt.
Proof.
  intros o kvs. apply (block_refines_list o bytes_ok kvs
    [OpSeek (str "applz"); OpPrev; OpPrev; OpSeekToLast; OpNext; OpSeekToFirst; OpPrev] BlockBuilder_empty); [done| | | | |done].
  - subst o kvs. repeat constructor.
  - apply (bool_decide_unpack _). by vm_compute.
  - apply (bool_decide_unpack _). by vm_compute.
  - repeat constructor; apply (bool_decide_unpack _); by vm_compute.
Defined.

(** ** Damaged blocks

    The constructor and [DecodeEntry] check the numbers they read with 32-bit sums,
    which some damaged blocks pass. *)

(** Contents of 4 to 7 bytes fail the assertion of [NumRestarts]. *)
Lemma short_block_asserts : open_block [0; 0; 0; 0; 0] tt = UB AssertFailed.
Proof. reflexivity. Qed.

(** A count of 2^30 restart points passes for an array of one, and the last restart
    point is read far past the block. *)
Lemma restart_count_wraps :
  exists it, open_block (EncodeFixed32 0 ++ EncodeFixed32 (2 ^ 30)) tt = Ret (BlockIterator it) tt /\
    SeekToLast it = UB OutOfBounds.
Proof. eexists. split; [reflexivity|vm_compute; reflexivity]. Qed.

(** A key of 2^32 - 1 bytes with a value of one byte passes as an entry of none. *)
Lemma entry_length_wraps :
  exists it, open_block ([0] ++ EncodeVarint32 (2 ^ 32 - 1) ++ [1] ++ EncodeFixed32 0 ++ EncodeFixed32 1) tt =
    Ret (BlockIterator it) tt /\ SeekToFirst it = UB OutOfBounds.
Proof. eexists. split; [reflexivity|vm_compute; reflexivity]. Qed.
