(* ===== verification/Inode.v ===== *)
(** On-disk inodes: [src/fs/tfs_inode.h] and the accessors at the top of
    [src/fs/tablefs.cpp].

    A metadata key is the 16 bytes of a [tfs_meta_key_t]; a metadata value is
    the 256 bytes of a [tfs_inode_header], the file name, a NUL byte and the
    inline data. The C++ reads and writes the header by pointer casts, so the
    model keeps the layout: [struct stat] as glibc lays it out on x86-64 (144
    bytes), 104 bytes of padding, then [has_blob] and [namelen]. *)

From S2P Require Import Prelude Hashes.

Definition PATH_DELIMITER : Z := 47.
Definition INODE_PADDING : nat := 104.
Definition ROOT_INODE_ID : Z := 0.
Definition NUM_FILES_IN_DATADIR_BITS : Z := 14.
Definition NUM_FILES_IN_DATADIR : Z := 16384.
Definition MAX_OPEN_FILES : Z := 512.

(** * Struct layouts

    A layout lists the fields of a struct: signedness and width in bytes. *)

Abbreviation field := (bool * nat)%type.

Definition dec_field (f : field) (bs : bytes) : Z :=
  if f.1 then to_signed (8 * Z.of_nat f.2) (le_val bs) else le_val bs.

Fixpoint enc_fields (L : list field) (zs : list Z) : bytes :=
  match L, zs with
  | f :: L', z :: zs' => le_bytes f.2 z ++ enc_fields L' zs'
  | _, _ => []
  end.

Fixpoint dec_fields (L : list field) (bs : bytes) : list Z :=
  match L with
  | [] => []
  | f :: L' => dec_field f (take f.2 bs) :: dec_fields L' (drop f.2 bs)
  end.

Definition field_ok (f : field) (z : Z) : Prop :=
  if f.1 then - 2 ^ (8 * Z.of_nat f.2 - 1) <= z < 2 ^ (8 * Z.of_nat f.2 - 1)
  else 0 <= z < 2 ^ (8 * Z.of_nat f.2).

Definition layout_size (L : list field) : nat := sum_list (snd <$> L).

Definition U64 : field := (false, 8%nat).
Definition U32 : field := (false, 4%nat).
Definition I64 : field := (true, 8%nat).

(** * The structs *)

Record tfs_meta_key_t : Type := mkKey { inode_id : Z; hash_id : Z }.

#[global] Instance tfs_meta_key_t_eq_dec : EqDecision tfs_meta_key_t.
Proof. solve_decision. Defined.

#[global] Instance tfs_meta_key_t_countable : Countable tfs_meta_key_t.
Proof.
  refine (inj_countable' (fun k => (inode_id k, hash_id k)) (fun p => mkKey p.1 p.2) _).
  by intros [].
Defined.

Definition ToSlice (k : tfs_meta_key_t) : bytes :=
  le_bytes 8 (inode_id k) ++ le_bytes 8 (hash_id k).

Definition key_ok (k : tfs_meta_key_t) : Prop :=
  0 <= inode_id k < 2 ^ 64 /\ 0 <= hash_id k < 2 ^ 64.

(** [struct stat]; [st_pad] and [st_reserved] are the bytes no field names. *)
Record tfs_stat_t : Type := mkStat {
  st_dev : Z; st_ino : Z; st_nlink : Z; st_mode : Z; st_uid : Z; st_gid : Z;
  st_pad : Z; st_rdev : Z; st_size : Z; st_blksize : Z; st_blocks : Z;
  st_atim_sec : Z; st_atim_nsec : Z; st_mtim_sec : Z; st_mtim_nsec : Z;
  st_ctim_sec : Z; st_ctim_nsec : Z;
  st_reserved0 : Z; st_reserved1 : Z; st_reserved2 : Z
}.

Definition stat_layout : list field :=
  [U64; U64; U64; U32; U32; U32; U32; U64; I64; I64; I64;
   I64; I64; I64; I64; I64; I64; U64; U64; U64].

Definition stat_fields (s : tfs_stat_t) : list Z :=
  [st_dev s; st_ino s; st_nlink s; st_mode s; st_uid s; st_gid s; st_pad s; st_rdev s;
   st_size s; st_blksize s; st_blocks s; st_atim_sec s; st_atim_nsec s;
   st_mtim_sec s; st_mtim_nsec s; st_ctim_sec s; st_ctim_nsec s;
   st_reserved0 s; st_reserved1 s; st_reserved2 s].

Definition stat_zero : tfs_stat_t := mkStat 0 0 0 0 0 0 0 0 0 0 0 0 0 0 0 0 0 0 0 0.

Definition stat_of_fields (zs : list Z) : tfs_stat_t :=
  match zs with
  | [a0; a1; a2; a3; a4; a5; a6; a7; a8; a9; a10; a11; a12; a13; a14; a15; a16; a17; a18; a19] =>
      mkStat a0 a1 a2 a3 a4 a5 a6 a7 a8 a9 a10 a11 a12 a13 a14 a15 a16 a17 a18 a19
  | _ => stat_zero
  end.

Definition stat_bytes (s : tfs_stat_t) : bytes := enc_fields stat_layout (stat_fields s).
Definition stat_of_bytes (bs : bytes) : tfs_stat_t := stat_of_fields (dec_fields stat_layout bs).

Definition stat_ok (s : tfs_stat_t) : Prop := Forall2 field_ok stat_layout (stat_fields s).

Record tfs_inode_header : Type := mkHeader {
  fstat : tfs_stat_t;
  padding : bytes;
  has_blob : Z;
  namelen : Z
}.

Definition TFS_INODE_ATTR_SIZE : nat := 144.
Definition TFS_INODE_HEADER_SIZE : nat := 256.

Definition header_bytes (h : tfs_inode_header) : bytes :=
  stat_bytes (fstat h) ++ padding h ++ le_bytes 4 (has_blob h) ++ le_bytes 4 (namelen h).

Definition header_of_bytes (bs : bytes) : tfs_inode_header :=
  mkHeader (stat_of_bytes (take TFS_INODE_ATTR_SIZE bs))
    (slice TFS_INODE_ATTR_SIZE INODE_PADDING bs)
    (le_val (slice 248 4 bs)) (le_val (slice 252 4 bs)).

Definition header_ok (h : tfs_inode_header) : Prop :=
  stat_ok (fstat h) /\ length (padding h) = INODE_PADDING /\ bytes_ok (padding h) /\
  0 <= has_blob h < 2 ^ 32 /\ 0 <= namelen h < 2 ^ 32.

(** ** Assignments to single fields *)

Definition set_st_size (n : Z) (s : tfs_stat_t) : tfs_stat_t :=
  mkStat (st_dev s) (st_ino s) (st_nlink s) (st_mode s) (st_uid s) (st_gid s) (st_pad s)
    (st_rdev s) n (st_blksize s) (st_blocks s) (st_atim_sec s) (st_atim_nsec s)
    (st_mtim_sec s) (st_mtim_nsec s) (st_ctim_sec s) (st_ctim_nsec s)
    (st_reserved0 s) (st_reserved1 s) (st_reserved2 s).

Definition set_st_mode (m : Z) (s : tfs_stat_t) : tfs_stat_t :=
  mkStat (st_dev s) (st_ino s) (st_nlink s) m (st_uid s) (st_gid s) (st_pad s)
    (st_rdev s) (st_size s) (st_blksize s) (st_blocks s) (st_atim_sec s) (st_atim_nsec s)
    (st_mtim_sec s) (st_mtim_nsec s) (st_ctim_sec s) (st_ctim_nsec s)
    (st_reserved0 s) (st_reserved1 s) (st_reserved2 s).

Definition set_st_owner (uid gid : Z) (s : tfs_stat_t) : tfs_stat_t :=
  mkStat (st_dev s) (st_ino s) (st_nlink s) (st_mode s) uid gid (st_pad s)
    (st_rdev s) (st_size s) (st_blksize s) (st_blocks s) (st_atim_sec s) (st_atim_nsec s)
    (st_mtim_sec s) (st_mtim_nsec s) (st_ctim_sec s) (st_ctim_nsec s)
    (st_reserved0 s) (st_reserved1 s) (st_reserved2 s).

(** [st_atim] and [st_mtim]. *)
Definition set_st_times (as_ an ms mn : Z) (s : tfs_stat_t) : tfs_stat_t :=
  mkStat (st_dev s) (st_ino s) (st_nlink s) (st_mode s) (st_uid s) (st_gid s) (st_pad s)
    (st_rdev s) (st_size s) (st_blksize s) (st_blocks s) as_ an ms mn
    (st_ctim_sec s) (st_ctim_nsec s) (st_reserved0 s) (st_reserved1 s) (st_reserved2 s).

Definition set_fstat (s : tfs_stat_t) (h : tfs_inode_header) : tfs_inode_header :=
  mkHeader s (padding h) (has_blob h) (namelen h).

Definition set_has_blob (b : Z) (h : tfs_inode_header) : tfs_inode_header :=
  mkHeader (fstat h) (padding h) b (namelen h).

Definition set_namelen (n : Z) (h : tfs_inode_header) : tfs_inode_header :=
  mkHeader (fstat h) (padding h) (has_blob h) n.

(** * The accessors of [tablefs.cpp] *)

Definition BuildMetaKey (inode_id hash_id : Z) : tfs_meta_key_t := mkKey inode_id hash_id.

Definition BuildMetaKey_path (path : bytes) (inode_id : Z) : tfs_meta_key_t :=
  BuildMetaKey inode_id (murmur64 path 123).

Definition IsKeyInDir (key : bytes) (dirkey : tfs_meta_key_t) : bool :=
  le_val (take 8 key) =? inode_id dirkey.

Definition GetInodeHeader (value : bytes) : tfs_inode_header :=
  header_of_bytes (take TFS_INODE_HEADER_SIZE value).

Definition GetAttribute (value : bytes) : tfs_stat_t :=
  stat_of_bytes (take TFS_INODE_ATTR_SIZE value).

(** Where the inline data start: [TFS_INODE_HEADER_SIZE + header->namelen + 1]. *)
Definition inline_start (value : bytes) : Z :=
  Z.of_nat TFS_INODE_HEADER_SIZE + namelen (GetInodeHeader value) + 1.

(** The bytes copied to [buf]; their number is the result of the C++. [size_t]
    arithmetic is modulo [2^64]. *)
Definition GetInlineData (value : bytes) (offset size : Z) : bytes :=
  let realoffset := u64 (inline_start value + offset) in
  let vsize := Z.of_nat (length value) in
  if realoffset <? vsize then
    let size := if u64 (realoffset + size) >? vsize then vsize - realoffset else size in
    slice (Z.to_nat realoffset) (Z.to_nat size) value
  else [].

(** [buf] holds exactly [size] bytes. *)
Definition UpdateIhandleValue (value buf : bytes) (offset : Z) : bytes :=
  let value := if offset >? Z.of_nat (length value)
               then str_resize value (Z.to_nat offset) else value in
  str_replace value (Z.to_nat offset) (length buf) buf.

Definition UpdateInodeHeader (value : bytes) (new_header : tfs_inode_header) : bytes :=
  UpdateIhandleValue value (header_bytes new_header) 0.

Definition UpdateAttribute (value : bytes) (new_fstat : tfs_stat_t) : bytes :=
  UpdateIhandleValue value (stat_bytes new_fstat) 0.

Definition UpdateInlineData (value buf : bytes) (offset : Z) : bytes :=
  UpdateIhandleValue value buf (u64 (inline_start value + offset)).

Definition TruncateInlineData (value : bytes) (new_size : Z) : bytes :=
  str_resize value (Z.to_nat (u64 (inline_start value + new_size))).

Definition DropInlineData (value : bytes) : bytes :=
  str_resize value (Z.to_nat (inline_start value)).

(** ** New inodes *)

Definition S_IFMT : Z := 61440.    (* 0170000 *)
Definition S_IFREG : Z := 32768.   (* 0100000 *)
Definition S_IFDIR : Z := 16384.   (* 0040000 *)
Definition S_IFLNK : Z := 40960.   (* 0120000 *)
Definition S_ISREG (mode : Z) : bool := Z.land mode S_IFMT =? S_IFREG.

(** [TableFS::InitStat]: [old] is what the memory held before; the seconds of
    [st_atim] and [st_mtim] are not assigned. [owner] is the caller's identity
    under FUSE. *)
Definition InitStat (old : tfs_stat_t) (inode mode dev : Z) (owner : option (Z * Z))
    (now : Z) : tfs_stat_t :=
  let '(uid, gid) := match owner with Some o => o | None => (0, 0) end in
  mkStat dev inode (if S_ISREG mode then 1 else 2) mode uid gid (st_pad old) (st_rdev old)
    0 0 0 (st_atim_sec old) 0 (st_mtim_sec old) 0 now 0
    (st_reserved0 old) (st_reserved1 old) (st_reserved2 old).

(** The header that [InitInodeValue] and [Symlink] leave in fresh memory [mem]. *)
Definition init_header (mem : bytes) (inum mode dev : Z) (owner : option (Z * Z)) (now : Z)
    (filename : bytes) : tfs_inode_header :=
  let header := header_of_bytes (take TFS_INODE_HEADER_SIZE mem) in
  let header := set_fstat (InitStat (fstat header) inum mode dev owner now) header in
  let header := set_has_blob 0 header in
  set_namelen (u32 (Z.of_nat (length filename))) header.

(** [InitInodeValue(inum, mode, dev, filename)]; [mem] is the uninitialised
    memory [new char[ival.size]] returned. *)
Definition InitInodeValue (mem : bytes) (inum mode dev : Z) (owner : option (Z * Z)) (now : Z)
    (filename : bytes) : bytes :=
  header_bytes (init_header mem inum mode dev owner now filename) ++ filename ++ [0].

(** [InitInodeValue(old_value, filename)]: the file name of [Rename] ends at the
    NUL of its path, which [filename.size()+1] bytes include. *)
Definition RenameInodeValue (old_value filename : bytes) : bytes :=
  let header := GetInodeHeader old_value in
  let new_value := str_replace old_value TFS_INODE_HEADER_SIZE
                     (Z.to_nat (u32 (namelen header + 1))) (filename ++ [0]) in
  let header := set_namelen (u32 (Z.of_nat (length filename))) header in
  UpdateInodeHeader new_value header.

(** The value [Symlink] stores. *)
Definition SymlinkValue (mem : bytes) (inum : Z) (owner : option (Z * Z)) (now : Z)
    (filename target : bytes) : bytes :=
  header_bytes (init_header mem inum S_IFLNK 0 owner now filename) ++ filename ++ [0] ++ target.

(** * Values as header, name and data *)

(** What the byte string of a well-formed inode value is. *)
Definition mk_value (h : tfs_inode_header) (name data : bytes) : bytes :=
  header_bytes h ++ name ++ 0 :: data.

Definition value_wf (h : tfs_inode_header) (name : bytes) : Prop :=
  header_ok h /\ namelen h = Z.of_nat (length name).

(** ** Layout lemmas *)

Lemma length_enc_fields L zs :
  length L = length zs -> length (enc_fields L zs) = layout_size L.
Proof.
  revert zs. induction L as [|f L IH]; intros [|z zs] H; simpl in *; try done.
  rewrite length_app, length_le_bytes, IH by lia. done.
Qed.

Lemma enc_fields_ok L zs : bytes_ok (enc_fields L zs).
Proof.
  revert zs. induction L as [|f L IH]; intros [|z zs]; simpl; try constructor.
  apply bytes_ok_app. auto with tfs.
Qed.

Lemma dec_enc_field f z rest :
  (0 < f.2)%nat -> field_ok f z -> dec_field f (take f.2 (le_bytes f.2 z ++ rest)) = z.
Proof.
  intros Hw Hz. rewrite take_app_length' by len.
  unfold dec_field, field_ok in *. rewrite le_val_bytes. destruct f as [[] w]; simpl in *.
  - apply to_signed_roundtrip; lia.
  - apply Z.mod_small; lia.
Qed.

Lemma dec_enc_fields L zs rest :
  Forall (fun f : field => 0 < f.2)%nat L -> Forall2 field_ok L zs ->
  dec_fields L (enc_fields L zs ++ rest) = zs.
Proof.
  intros HL H. revert rest. induction H as [|f z L zs Hf _ IH]; intros rest; [done|].
  apply Forall_cons_1 in HL as [Hw HL]. simpl. rewrite <- app_assoc.
  rewrite dec_enc_field by done. f_equal.
  rewrite drop_app_length' by len. by apply IH.
Qed.

Lemma layout_size_cons f L : layout_size (f :: L) = (f.2 + layout_size L)%nat.
Proof. reflexivity. Qed.

Lemma enc_dec_fields L bs :
  Forall (fun f : field => 0 < f.2)%nat L -> length bs = layout_size L -> bytes_ok bs ->
  enc_fields L (dec_fields L bs) = bs.
Proof.
  intros HL. revert bs. induction HL as [|f L Hw _ IH]; intros bs Hlen Hok.
  - by destruct bs.
  - rewrite layout_size_cons in Hlen. cbn [enc_fields dec_fields].
    rewrite IH by first [rewrite length_drop; lia | by apply bytes_ok_drop].
    rewrite <- (take_drop f.2 bs) at 3. f_equal.
    rewrite <- (le_bytes_val (take f.2 bs) f.2) at 2
      by first [rewrite length_take; lia | by apply bytes_ok_take].
    unfold dec_field. destruct f as [[] w]; simpl in *; [|done].
    rewrite le_bytes_mod, to_signed_mod, <- le_bytes_mod by lia. done.
Qed.

Lemma dec_fields_ok L bs :
  Forall (fun f : field => 0 < f.2)%nat L -> length bs = layout_size L -> bytes_ok bs ->
  Forall2 field_ok L (dec_fields L bs).
Proof.
  intros HL. revert bs. induction HL as [|f L Hw _ IH]; intros bs Hlen Hok;
    [constructor|].
  rewrite layout_size_cons in Hlen.
  constructor; [|apply IH; [rewrite length_drop; lia|by apply bytes_ok_drop]].
  pose proof (le_val_range (take f.2 bs) (bytes_ok_take _ _ Hok)) as Hr.
  rewrite length_take, Nat.min_l in Hr by lia.
  unfold field_ok, dec_field. destruct f as [[] w]; simpl in *; [|done].
  apply to_signed_range. lia.
Qed.

Lemma stat_layout_pos : Forall (fun f : field => 0 < f.2)%nat stat_layout.
Proof. repeat constructor. Qed.

Lemma length_stat_bytes s : length (stat_bytes s) = TFS_INODE_ATTR_SIZE.
Proof. unfold stat_bytes. by rewrite length_enc_fields. Qed.

Lemma stat_of_fields_fields s : stat_of_fields (stat_fields s) = s.
Proof. by destruct s. Qed.

Lemma stat_roundtrip s : stat_ok s -> stat_of_bytes (stat_bytes s) = s.
Proof.
  intros H. unfold stat_of_bytes, stat_bytes.
  rewrite <- (app_nil_r (enc_fields _ _)), dec_enc_fields by (done || apply stat_layout_pos).
  apply stat_of_fields_fields.
Qed.

Lemma stat_fields_of_fields zs : length zs = 20%nat -> stat_fields (stat_of_fields zs) = zs.
Proof.
  intros H. do 20 (destruct zs as [|? zs]; [done|]). by destruct zs.
Qed.

Lemma length_dec_fields L bs : length (dec_fields L bs) = length L.
Proof. revert bs. induction L; intros bs; simpl; [done|]. by rewrite IHL. Qed.

Lemma stat_of_bytes_ok bs :
  length bs = TFS_INODE_ATTR_SIZE -> bytes_ok bs -> stat_ok (stat_of_bytes bs).
Proof.
  intros Hl Hok. unfold stat_ok, stat_of_bytes.
  rewrite stat_fields_of_fields by apply length_dec_fields.
  apply dec_fields_ok; [apply stat_layout_pos|done|done].
Qed.

Lemma length_header_bytes h :
  length (padding h) = INODE_PADDING -> length (header_bytes h) = TFS_INODE_HEADER_SIZE.
Proof.
  intros H. unfold header_bytes. rewrite !length_app, length_stat_bytes, H. by len.
Qed.

Lemma header_bytes_ok h : bytes_ok (padding h) -> bytes_ok (header_bytes h).
Proof.
  intros H. unfold header_bytes. rewrite !bytes_ok_app.
  unfold stat_bytes. auto using enc_fields_ok, le_bytes_ok.
Qed.

Lemma header_roundtrip h : header_ok h -> header_of_bytes (header_bytes h) = h.
Proof.
  intros (Hs & Hl & Hp & Hb & Hn). unfold header_of_bytes, header_bytes, INODE_PADDING in *.
  pose proof (length_stat_bytes (fstat h)) as Hsl. unfold TFS_INODE_ATTR_SIZE in *.
  rewrite take_app_length' by done. rewrite stat_roundtrip by done.
  rewrite (slice_app_r 144), Hsl by (rewrite Hsl; lia).
  rewrite (slice_app_r 248), (slice_app_r 252), Hsl by (rewrite Hsl; lia).
  rewrite slice_app_l by (rewrite Hl; lia). rewrite slice_all by (simpl; lia).
  rewrite (slice_app_r (248 - 144)), (slice_app_r (252 - 144)), Hl by (rewrite Hl; lia).
  rewrite slice_app_l by len. rewrite slice_app_r by len.
  rewrite slice_all by len. rewrite slice_all by (len; reflexivity).
  rewrite !le_val_bytes, !Z.mod_small by (cbn; lia). by destruct h.
Qed.

Lemma header_of_bytes_ok bs :
  length bs = TFS_INODE_HEADER_SIZE -> bytes_ok bs -> header_ok (header_of_bytes bs).
Proof.
  unfold TFS_INODE_HEADER_SIZE. intros Hl Hok. unfold header_ok, header_of_bytes; simpl.
  repeat split.
  - apply stat_of_bytes_ok; [|by apply bytes_ok_take].
    rewrite length_take. unfold TFS_INODE_ATTR_SIZE. lia.
  - apply length_slice. unfold TFS_INODE_ATTR_SIZE, INODE_PADDING. lia.
  - by apply bytes_ok_take, bytes_ok_drop.
  - apply le_val_range. by apply bytes_ok_take, bytes_ok_drop.
  - pose proof (le_val_range (slice 248 4 bs)) as H.
    rewrite length_slice in H by lia. apply H. by apply bytes_ok_take, bytes_ok_drop.
  - apply le_val_range. by apply bytes_ok_take, bytes_ok_drop.
  - pose proof (le_val_range (slice 252 4 bs)) as H.
    rewrite length_slice in H by lia. apply H. by apply bytes_ok_take, bytes_ok_drop.
Qed.

Lemma ToSlice_inj k1 k2 : key_ok k1 -> key_ok k2 -> ToSlice k1 = ToSlice k2 -> k1 = k2.
Proof.
  intros [H1 H2] [H3 H4] E. unfold ToSlice in E.
  apply app_inj_1 in E as [E1 E2]; [|len].
  apply le_bytes_inj in E1; [|cbn; lia|cbn; lia].
  apply le_bytes_inj in E2; [|cbn; lia|cbn; lia].
  destruct k1, k2; simpl in *; congruence.
Qed.

Lemma length_ToSlice k : length (ToSlice k) = 16%nat.
Proof. unfold ToSlice. len. Qed.

Lemma ToSlice_ok k : bytes_ok (ToSlice k).
Proof. unfold ToSlice. apply bytes_ok_app. auto using le_bytes_ok. Qed.

Lemma IsKeyInDir_ToSlice k dir :
  key_ok k -> IsKeyInDir (ToSlice k) dir = (inode_id k =? inode_id dir).
Proof.
  intros [H _]. unfold IsKeyInDir, ToSlice.
  rewrite take_app_length' by len. rewrite le_val_bytes, Z.mod_small by (cbn; lia). done.
Qed.

(** ** The accessors on well-formed values *)

Section values.
Context (h : tfs_inode_header) (name : bytes) (Hwf : value_wf h name).

Lemma wf_padding : length (padding h) = INODE_PADDING.
Proof. apply Hwf. Qed.

Lemma wf_length : length (header_bytes h) = TFS_INODE_HEADER_SIZE.
Proof. apply length_header_bytes, wf_padding. Qed.

Lemma GetInodeHeader_mk data : GetInodeHeader (mk_value h name data) = h.
Proof.
  unfold GetInodeHeader, mk_value. rewrite take_app_length' by by rewrite wf_length.
  apply header_roundtrip, Hwf.
Qed.

Lemma GetAttribute_mk data : GetAttribute (mk_value h name data) = fstat h.
Proof.
  unfold GetAttribute, mk_value, header_bytes. rewrite <- app_assoc.
  rewrite take_app_length' by by rewrite length_stat_bytes.
  apply stat_roundtrip, Hwf.
Qed.

Lemma inline_start_mk data :
  inline_start (mk_value h name data) = 257 + Z.of_nat (length name).
Proof.
  unfold inline_start. rewrite GetInodeHeader_mk. destruct Hwf as [_ ->].
  unfold TFS_INODE_HEADER_SIZE. lia.
Qed.

Lemma namelen_range : Z.of_nat (length name) < 2 ^ 32.
Proof. destruct Hwf as [(_ & _ & _ & _ & Hn) <-]. lia. Qed.

Lemma length_mk data : length (mk_value h name data) = (257 + length name + length data)%nat.
Proof.
  unfold mk_value. rewrite length_app, wf_length, length_app. simpl length.
  unfold TFS_INODE_HEADER_SIZE. lia.
Qed.

(** Everything before the inline data, as one prefix. *)
Lemma mk_value_prefix data : mk_value h name data = (header_bytes h ++ name ++ [0]) ++ data.
Proof. unfold mk_value. by rewrite <- !app_assoc. Qed.

Lemma length_prefix : length (header_bytes h ++ name ++ [0]) = (257 + length name)%nat.
Proof. rewrite !length_app, wf_length. unfold TFS_INODE_HEADER_SIZE. simpl. lia. Qed.

Lemma GetInlineData_mk data off size :
  0 <= off < 2 ^ 62 -> 0 <= size < 2 ^ 62 -> Z.of_nat (length data) < 2 ^ 62 ->
  GetInlineData (mk_value h name data) off size = slice (Z.to_nat off) (Z.to_nat size) data.
Proof.
  intros Ho Hs Hd. pose proof namelen_range as Hn. unfold GetInlineData.
  rewrite inline_start_mk, length_mk.
  assert (u64 (257 + Z.of_nat (length name) + off) = 257 + Z.of_nat (length name) + off) as ->
    by (apply u64_small; lia).
  assert (u64 (257 + Z.of_nat (length name) + off + size)
          = 257 + Z.of_nat (length name) + off + size) as -> by (apply u64_small; lia).
  destruct (Z.ltb_spec (257 + Z.of_nat (length name) + off)
              (Z.of_nat (257 + length name + length data))) as [H|H].
  - rewrite mk_value_prefix, slice_app_r by (rewrite length_prefix; lia).
    rewrite length_prefix.
    replace (Z.to_nat (257 + Z.of_nat (length name) + off) - (257 + length name))%nat
      with (Z.to_nat off) by lia.
    rewrite Z.gtb_ltb. case_bool; bool_to_prop; [|done].
    unfold slice. rewrite !(take_ge (drop _ _)) by (rewrite length_drop; lia). done.
  - unfold slice. rewrite drop_ge by lia. by rewrite take_nil.
Qed.

Lemma UpdateInlineData_mk data buf off :
  0 <= off < 2 ^ 62 ->
  UpdateInlineData (mk_value h name data) buf off = mk_value h name (write_at data (Z.to_nat off) buf).
Proof.
  intros Ho. pose proof namelen_range as Hn. unfold UpdateInlineData, UpdateIhandleValue.
  rewrite inline_start_mk, length_mk, u64_small by lia. rewrite Z.gtb_ltb.
  set (pre := (257 + length name)%nat).
  replace (Z.to_nat (257 + Z.of_nat (length name) + off)) with (pre + Z.to_nat off)%nat by lia.
  unfold write_at. rewrite !mk_value_prefix. unfold str_replace.
  assert (forall d : bytes,
    take (pre + Z.to_nat off) ((header_bytes h ++ name ++ [0]) ++ d) ++ buf ++
    drop (pre + Z.to_nat off + length buf) ((header_bytes h ++ name ++ [0]) ++ d) =
    (header_bytes h ++ name ++ [0]) ++
      (take (Z.to_nat off) d ++ buf ++ drop (Z.to_nat off + length buf) d)) as Hrep.
  { intros d. rewrite take_app_ge, drop_app_ge by (rewrite length_prefix; lia).
    rewrite length_prefix. fold pre. rewrite <- app_assoc. do 3 f_equal; [|f_equal]; f_equal; lia. }
  case_bool; bool_to_prop; case_decide; try lia; [|apply Hrep].
  rewrite <- Hrep. f_equal; [|f_equal]; f_equal; unfold str_resize;
    rewrite take_app_ge by (rewrite length_prefix; lia); rewrite length_prefix;
    rewrite !(take_ge data) by lia; rewrite <- !app_assoc; do 3 f_equal;
    rewrite !length_app, wf_length; simpl; do 2 f_equal; unfold TFS_INODE_HEADER_SIZE; lia.
Qed.

Lemma TruncateInlineData_mk data n :
  0 <= n < 2 ^ 62 ->
  TruncateInlineData (mk_value h name data) n = mk_value h name (str_resize data (Z.to_nat n)).
Proof.
  intros Hn. pose proof namelen_range as Hl. unfold TruncateInlineData.
  rewrite inline_start_mk, u64_small by lia. rewrite !mk_value_prefix. unfold str_resize.
  rewrite take_app_ge by (rewrite length_prefix; lia).
  rewrite length_prefix, <- app_assoc. do 2 f_equal; [f_equal; lia|].
  f_equal. rewrite length_app, length_prefix. lia.
Qed.

Lemma DropInlineData_mk data : DropInlineData (mk_value h name data) = mk_value h name [].
Proof.
  unfold DropInlineData. rewrite inline_start_mk, !mk_value_prefix, app_nil_r.
  rewrite str_resize_shrink by (rewrite length_app, length_prefix; lia).
  apply take_app_length'. rewrite length_prefix. lia.
Qed.

Lemma UpdateInodeHeader_mk h' data :
  length (padding h') = INODE_PADDING ->
  UpdateInodeHeader (mk_value h name data) h' = mk_value h' name data.
Proof.
  intros Hp. unfold UpdateInodeHeader, UpdateIhandleValue.
  rewrite Z.gtb_ltb. case_bool; bool_to_prop; [lia|]. unfold str_replace, mk_value.
  rewrite length_header_bytes by done. simpl take. cbn [Z.to_nat Nat.add app]. f_equal.
  apply drop_app_length'. by rewrite wf_length.
Qed.

Lemma UpdateAttribute_mk s data :
  UpdateAttribute (mk_value h name data) s = mk_value (set_fstat s h) name data.
Proof.
  unfold UpdateAttribute, UpdateIhandleValue.
  rewrite Z.gtb_ltb. case_bool; bool_to_prop; [lia|].
  unfold str_replace, mk_value, header_bytes. rewrite length_stat_bytes.
  cbn [Z.to_nat Nat.add take app fstat padding has_blob namelen set_fstat].
  by rewrite <- !app_assoc, drop_app_length' by by rewrite length_stat_bytes.
Qed.

Lemma RenameInodeValue_mk name' data :
  Z.of_nat (length name) < 2 ^ 32 - 1 -> Z.of_nat (length name') < 2 ^ 32 ->
  RenameInodeValue (mk_value h name data) name' =
  mk_value (set_namelen (Z.of_nat (length name')) h) name' data.
Proof.
  intros Hn Hn'. unfold RenameInodeValue. rewrite GetInodeHeader_mk.
  rewrite (u32_small (Z.of_nat (length name'))) by lia.
  destruct Hwf as [_ Hnl]. rewrite Hnl, u32_small by lia.
  assert (str_replace (mk_value h name data) TFS_INODE_HEADER_SIZE
            (Z.to_nat (Z.of_nat (length name) + 1)) (name' ++ [0]) = mk_value h name' data) as ->.
  { unfold str_replace, mk_value.
    rewrite take_app_length' by by rewrite wf_length.
    rewrite drop_app_ge by (rewrite wf_length; lia). rewrite wf_length.
    f_equal. rewrite <- app_assoc. simpl app. do 2 f_equal.
    rewrite drop_app_ge by lia.
    match goal with |- context [drop ?n (0 :: data)] => replace n with 1%nat by lia end.
    reflexivity. }
  unfold UpdateInodeHeader, UpdateIhandleValue.
  rewrite Z.gtb_ltb. case_bool; bool_to_prop; [lia|].
  unfold str_replace, mk_value. rewrite length_header_bytes by apply wf_padding.
  change (Z.to_nat 0) with 0%nat. rewrite take_0, app_nil_l, Nat.add_0_l. f_equal. apply drop_app_length'. by rewrite wf_length.
Qed.
End values.

(** ** Field assignments keep the ranges *)

Ltac stat_ok_set :=
  unfold stat_ok, stat_fields, stat_layout in *;
  repeat match goal with H : Forall2 _ (_ :: _) (_ :: _) |- _ => apply Forall2_cons_1 in H as [? H] end;
  cbn; repeat first [apply List.Forall2_nil | apply List.Forall2_cons];
  first [assumption | unfold field_ok; simpl; lia].

Lemma stat_ok_size n s : stat_ok s -> - 2 ^ 63 <= n < 2 ^ 63 -> stat_ok (set_st_size n s).
Proof. intros Hs Hn. stat_ok_set. Qed.

Lemma stat_ok_mode n s : stat_ok s -> 0 <= n < 2 ^ 32 -> stat_ok (set_st_mode n s).
Proof. intros Hs Hn. stat_ok_set. Qed.

Lemma stat_ok_owner u g s :
  stat_ok s -> 0 <= u < 2 ^ 32 -> 0 <= g < 2 ^ 32 -> stat_ok (set_st_owner u g s).
Proof. intros Hs Hu Hg. stat_ok_set. Qed.

Lemma stat_ok_times a b c d s :
  stat_ok s -> Forall (fun z => - 2 ^ 63 <= z < 2 ^ 63) [a; b; c; d] -> stat_ok (set_st_times a b c d s).
Proof.
  intros Hs Ht. repeat (apply Forall_cons_1 in Ht as [? Ht]). stat_ok_set.
Qed.

Lemma value_wf_fstat s h name : stat_ok s -> value_wf h name -> value_wf (set_fstat s h) name.
Proof. intros Hs [(H1 & H2 & H3 & H4 & H5) H6]. exact (conj (conj Hs (conj H2 (conj H3 (conj H4 H5)))) H6). Qed.

Lemma value_wf_blob b h name : 0 <= b < 2 ^ 32 -> value_wf h name -> value_wf (set_has_blob b h) name.
Proof. intros Hb [(H1 & H2 & H3 & H4 & H5) H6]. exact (conj (conj H1 (conj H2 (conj H3 (conj Hb H5)))) H6). Qed.

(** ** Fresh inodes *)

Lemma InitStat_ok old inode mode dev owner now :
  stat_ok old -> 0 <= inode < 2 ^ 64 -> 0 <= mode < 2 ^ 32 -> 0 <= dev < 2 ^ 64 ->
  (forall u g, owner = Some (u, g) -> 0 <= u < 2 ^ 32 /\ 0 <= g < 2 ^ 32) ->
  - 2 ^ 63 <= now < 2 ^ 63 -> stat_ok (InitStat old inode mode dev owner now).
Proof.
  intros Hold Hi Hm Hd Ho Hnow. unfold stat_ok, stat_fields, stat_layout in *.
  repeat match goal with H : Forall2 _ (_ :: _) (_ :: _) |- _ => apply Forall2_cons_1 in H as [? H] end.
  assert (field_ok U64 (if S_ISREG mode then 1 else 2)) by (destruct (S_ISREG mode); done).
  unfold InitStat. destruct owner as [[u g]|]; [destruct (Ho u g eq_refl) as [Hu Hg]|];
    simpl; repeat first [apply List.Forall2_nil | apply List.Forall2_cons];
    first [assumption | unfold field_ok; simpl; lia].
Qed.

Lemma init_header_ok mem inum mode dev owner now filename :
  (TFS_INODE_HEADER_SIZE <= length mem)%nat -> bytes_ok mem ->
  0 <= inum < 2 ^ 64 -> 0 <= mode < 2 ^ 32 -> 0 <= dev < 2 ^ 64 ->
  (forall u g, owner = Some (u, g) -> 0 <= u < 2 ^ 32 /\ 0 <= g < 2 ^ 32) ->
  - 2 ^ 63 <= now < 2 ^ 63 ->
  header_ok (init_header mem inum mode dev owner now filename).
Proof.
  intros Hl Hok Hi Hm Hd Ho Hnow.
  destruct (header_of_bytes_ok (take TFS_INODE_HEADER_SIZE mem)) as (H1 & H2 & H3 & H4 & H5).
  { rewrite length_take. lia. }
  { by apply bytes_ok_take. }
  split; [by apply InitStat_ok|]. split; [done|]. split; [done|].
  split; simpl; [lia|apply u32_range].
Qed.

Lemma InitInodeValue_mk mem inum mode dev owner now filename :
  InitInodeValue mem inum mode dev owner now filename =
  mk_value (init_header mem inum mode dev owner now filename) filename [].
Proof. reflexivity. Qed.

Lemma SymlinkValue_mk mem inum owner now filename target :
  SymlinkValue mem inum owner now filename target =
  mk_value (init_header mem inum S_IFLNK 0 owner now filename) filename target.
Proof. reflexivity. Qed.

(** The name of an inode as [ReadDir] reads it, up to the first NUL. *)
Lemma name_buffer_mk h name data :
  value_wf h name -> Forall (fun b => b <> 0) name ->
  c_str (drop TFS_INODE_HEADER_SIZE (mk_value h name data)) = name.
Proof.
  intros Hwf Hn. unfold mk_value. rewrite drop_app_length' by by rewrite wf_length with (1 := Hwf).
  by apply c_str_no_nul.
Qed.

#[global] Arguments ToSlice : simpl never.
#[global] Arguments BuildMetaKey_path : simpl never.
#[global] Arguments GetInodeHeader : simpl never.
#[global] Arguments GetAttribute : simpl never.
#[global] Arguments GetInlineData : simpl never.
#[global] Arguments UpdateInodeHeader : simpl never.
#[global] Arguments UpdateAttribute : simpl never.
#[global] Arguments UpdateInlineData : simpl never.
#[global] Arguments TruncateInlineData : simpl never.
#[global] Arguments DropInlineData : simpl never.
#[global] Arguments InitInodeValue : simpl never.
#[global] Arguments RenameInodeValue : simpl never.
#[global] Arguments SymlinkValue : simpl never.
#[global] Arguments mk_value : simpl never.
