(* ===== verification/DCache.v ===== *)
(** The dentry cache: [src/fs/dcache.h] and [src/fs/dcache.cpp].

    [DentryCache] keeps a [std::list] of (key, inode) entries, most recent
    first, and an [unordered_map] from keys to iterators into that list. An
    iterator is the identity of a list node, so that an iterator left behind by
    [erase] or [pop_back] is visibly dangling: reading it is undefined. The mutex
    makes each operation atomic. *)

From S2P Require Import Prelude Inode.

Record Entry : Type := mkEntry { ent_key : tfs_meta_key_t; ent_val : Z }.

Record DentryCache : Type := mkDC {
  maxsize : nat;
  cache : list (nat * Entry);              (* node identity, entry *)
  lookup_ : gmap tfs_meta_key_t nat;       (* CacheMap *)
  next_node : nat                          (* allocation counter of list nodes *)
}.

Definition DentryCache_new (size : nat) : DentryCache := mkDC size [] ∅ 0.

(** Dereference an iterator. *)
Definition node_at (it : nat) (l : list (nat * Entry)) : option Entry :=
  snd <$> List.find (fun n => (n.1 =? it)%nat) l.

(** [cache.push_front(e)]; the new node is [cache.begin()]. *)
Definition push_front (e : Entry) (dc : DentryCache) : DentryCache :=
  mkDC (maxsize dc) ((next_node dc, e) :: cache dc) (lookup_ dc) (S (next_node dc)).

(** [cache.erase(it)] *)
Definition list_erase (it : nat) (dc : DentryCache) : DentryCache :=
  mkDC (maxsize dc) (filter (fun n => n.1 <> it) (cache dc)) (lookup_ dc) (next_node dc).

(** [lookup[key] = it], [lookup.erase(key)] *)
Definition set_lookup (m : gmap tfs_meta_key_t nat) (dc : DentryCache) : DentryCache :=
  mkDC (maxsize dc) (cache dc) m (next_node dc).

Definition pop_back (dc : DentryCache) : DentryCache :=
  mkDC (maxsize dc) (removelast (cache dc)) (lookup_ dc) (next_node dc).

Definition Find (key : tfs_meta_key_t) : prog DentryCache (option Z) :=
  dc <- get_state ;;
  match lookup_ dc !! key with
  | None => ret None
  | Some it =>
      ent <- deref UseAfterFree (node_at it (cache dc)) ;;
      modify (push_front ent) ;;;
      modify (list_erase it) ;;;
      modify (fun dc' => set_lookup (<[key := next_node dc]> (lookup_ dc')) dc') ;;;
      ret (Some (ent_val ent))
  end.

Definition Insert (key : tfs_meta_key_t) (value : Z) : prog DentryCache unit :=
  dc <- get_state ;;
  modify (push_front (mkEntry key value)) ;;;
  modify (fun dc' => set_lookup (<[key := next_node dc]> (lookup_ dc')) dc') ;;;
  dc' <- get_state ;;
  if decide (maxsize dc' < length (cache dc'))%nat then
    back <- deref UseAfterFree (list.last (cache dc')) ;;
    modify (fun dc' => set_lookup (delete (ent_key back.2) (lookup_ dc')) dc') ;;;
    modify pop_back
  else ret tt.

Definition Evict (key : tfs_meta_key_t) : prog DentryCache unit :=
  dc <- get_state ;;
  match lookup_ dc !! key with
  | Some _ => modify (fun dc' => set_lookup (delete key (lookup_ dc')) dc')
  | None => ret tt
  end.

(** [GetSize(size_cache_list, size_cache_map)]: the code assigns the two sizes
    the other way round. *)
Definition GetSize (dc : DentryCache) : nat * nat :=
  let size_cache_map := length (cache dc) in
  let size_cache_list := size (lookup_ dc) in
  (size_cache_list, size_cache_map).

(** * Invariant and abstraction *)

(** Every iterator in the map points to a live node that holds its key; the list
    never exceeds [maxsize]. *)
Record dc_inv (dc : DentryCache) : Prop := {
  inv_nodup : NoDup (cache dc).*1;
  inv_fresh : forall n e, (n, e) ∈ cache dc -> (n < next_node dc)%nat;
  inv_live : forall k it, lookup_ dc !! k = Some it ->
    exists v, (it, mkEntry k v) ∈ cache dc;
  inv_size : (length (cache dc) <= maxsize dc)%nat
}.

(** The partial map the cache represents. *)
Definition dc_view (dc : DentryCache) (k : tfs_meta_key_t) : option Z :=
  it ← lookup_ dc !! k; ent_val <$> node_at it (cache dc).

(** * Lemmas *)

Lemma node_at_elem it e l :
  NoDup l.*1 -> (it, e) ∈ l -> node_at it l = Some e.
Proof.
  induction l as [|[n e'] l IH]; intros Hnd Hin; [by apply not_elem_of_nil in Hin|].
  apply list.NoDup_cons in Hnd as [Hn Hnd]. unfold node_at. simpl.
  apply elem_of_cons in Hin as [Heq|Hin].
  - simplify_eq. by rewrite Nat.eqb_refl.
  - destruct (Nat.eqb_spec n it) as [->|]; [|by apply IH].
    exfalso. apply Hn. apply list_elem_of_fmap. by exists (it, e).
Qed.

Lemma node_at_Some it e l : node_at it l = Some e -> (it, e) ∈ l.
Proof.
  unfold node_at. destruct (List.find _ l) as [[n e']|] eqn:E; [|done].
  simpl. intros ?; simplify_eq. apply List.find_some in E as [Hin Heq].
  apply Nat.eqb_eq in Heq. simpl in Heq. subst. by apply list_elem_of_In.
Qed.

Lemma dc_view_Some dc k v :
  dc_inv dc -> dc_view dc k = Some v <->
  exists it, lookup_ dc !! k = Some it /\ (it, mkEntry k v) ∈ cache dc.
Proof.
  intros Hinv. unfold dc_view. split.
  - destruct (lookup_ dc !! k) as [it|] eqn:E; [|done]. simpl. intros H. exists it.
    split; [done|]. destruct (inv_live _ Hinv _ _ E) as [v' Hin].
    rewrite (node_at_elem _ _ _ (inv_nodup _ Hinv) Hin) in H. simpl in H. by simplify_eq.
  - intros (it & E & Hin). rewrite E. simpl.
    by rewrite (node_at_elem _ _ _ (inv_nodup _ Hinv) Hin).
Qed.

Lemma dc_view_None dc k : dc_inv dc -> dc_view dc k = None <-> lookup_ dc !! k = None.
Proof.
  intros Hinv. split.
  - intros H. destruct (lookup_ dc !! k) as [it|] eqn:E; [|done]. exfalso.
    destruct (inv_live _ Hinv _ _ E) as [v Hin].
    assert (dc_view dc k = Some v) by (apply dc_view_Some; eauto). congruence.
  - intros H. unfold dc_view. by rewrite H.
Qed.

Lemma new_inv n : dc_inv (DentryCache_new n).
Proof.
  split; simpl; [constructor| | |lia].
  - intros ?? H. by apply not_elem_of_nil in H.
  - intros ?? H. by rewrite lookup_empty in H.
Qed.

Lemma sublist_filter_length_lt it e (l : list (nat * Entry)) :
  (it, e) ∈ l -> (length (filter (fun n => n.1 <> it) l) < length l)%nat.
Proof.
  induction l as [|[n e'] l IH]; intros H; [by apply not_elem_of_nil in H|].
  pose proof (length_filter (fun n : nat * Entry => n.1 <> it) l) as Hle.
  destruct (decide (n = it)) as [->|Hne].
  - rewrite filter_cons_False by (simpl; by intros []). simpl. lia.
  - rewrite filter_cons_True by done. apply elem_of_cons in H as [?|H]; [by simplify_eq|].
    simpl. apply IH in H. lia.
Qed.

(** ** The operations, as equations on states that satisfy the invariant *)

Lemma Find_hit dc k it v :
  dc_inv dc -> lookup_ dc !! k = Some it -> (it, mkEntry k v) ∈ cache dc ->
  Find k dc = Ret (Some v)
    (mkDC (maxsize dc)
       ((next_node dc, mkEntry k v) :: filter (fun n => n.1 <> it) (cache dc))
       (<[k := next_node dc]> (lookup_ dc)) (S (next_node dc))).
Proof.
  intros Hinv E Hin. unfold Find, bind, get_state. rewrite E.
  rewrite (node_at_elem _ _ _ (inv_nodup _ Hinv) Hin). simpl.
  unfold list_erase, push_front, set_lookup. simpl.
  rewrite filter_cons_True; [done|]. simpl.
  pose proof (inv_fresh _ Hinv _ _ Hin). lia.
Qed.

Lemma Find_inv dc k :
  dc_inv dc ->
  exists dc', Find k dc = Ret (dc_view dc k) dc' /\ dc_inv dc' /\
    (forall k', dc_view dc' k' = dc_view dc k') /\ maxsize dc' = maxsize dc.
Proof.
  intros Hinv. destruct (lookup_ dc !! k) as [it|] eqn:E; cycle 1.
  { exists dc. unfold Find, bind, get_state. rewrite E.
    assert (dc_view dc k = None) as -> by by apply dc_view_None. by repeat split; try apply Hinv. }
  destruct (inv_live _ Hinv _ _ E) as [v Hin].
  assert (dc_view dc k = Some v) as Hv by (apply dc_view_Some; eauto).
  eexists. split; [rewrite Hv; by apply Find_hit|].
  assert (forall k' it', k' <> k -> lookup_ dc !! k' = Some it' -> it' <> it) as Hdiff.
  { intros k' it' Hne E' ->. destruct (inv_live _ Hinv _ _ E') as [v' Hin'].
    pose proof (node_at_elem _ _ _ (inv_nodup _ Hinv) Hin).
    pose proof (node_at_elem _ _ _ (inv_nodup _ Hinv) Hin'). simplify_eq. }
  assert (forall n e, (n, e) ∈ filter (fun n => n.1 <> it) (cache dc) <->
                      n <> it /\ (n, e) ∈ cache dc) as Hf.
  { intros n e. rewrite list_elem_of_filter. done. }
  match goal with |- dc_inv ?d /\ _ => set (dc' := d) end.
  assert (dc_inv dc') as Hinv'.
  { split; simpl.
    - apply list.NoDup_cons. split.
      + rewrite list_elem_of_fmap. intros ([n e] & Heq & Hn). simpl in Heq. subst n.
        apply Hf in Hn as [_ Hn]. pose proof (inv_fresh _ Hinv _ _ Hn). lia.
      + eapply NoDup_fmap_sublist; [apply sublist_filter|apply Hinv].
    - intros n e [?|Hn]%elem_of_cons; [simplify_eq; lia|].
      apply Hf in Hn as [_ Hn]. pose proof (inv_fresh _ Hinv _ _ Hn). lia.
    - intros k' it'. destruct (decide (k' = k)) as [->|Hne].
      + rewrite lookup_insert_eq. intros ?; simplify_eq. exists v. by left.
      + rewrite lookup_insert_ne by done. intros E'.
        destruct (inv_live _ Hinv _ _ E') as [v' Hin']. exists v'. right.
        apply Hf. eauto.
    - apply Nat.le_trans with (length (cache dc)); [|apply Hinv].
      apply Nat.le_succ_l. by apply (sublist_filter_length_lt it (mkEntry k v)). }
  split; [done|]. split; [|done]. intros k'.
  destruct (decide (k' = k)) as [->|Hne].
  - rewrite Hv. apply dc_view_Some; [done|]. exists (next_node dc). simpl.
    rewrite lookup_insert_eq. split; [done|]. by left.
  - destruct (dc_view dc k') as [v'|] eqn:E'.
    + apply dc_view_Some in E' as (it' & El & Hin'); [|done].
      apply dc_view_Some; [done|]. exists it'. simpl. rewrite lookup_insert_ne by done.
      split; [done|]. right. apply Hf. eauto.
    + apply dc_view_None in E'; [|done]. apply dc_view_None; [done|]. simpl.
      by rewrite lookup_insert_ne.
Qed.

(** The state after [push_front] and the map assignment of [Insert]. *)
Definition inserted (k : tfs_meta_key_t) (v : Z) (dc : DentryCache) : DentryCache :=
  mkDC (maxsize dc) ((next_node dc, mkEntry k v) :: cache dc)
    (<[k := next_node dc]> (lookup_ dc)) (S (next_node dc)).

(** The state after the oldest entry [back] has been dropped. *)
Definition dropped (back : Entry) (dc : DentryCache) : DentryCache :=
  mkDC (maxsize dc) (removelast (cache dc)) (delete (ent_key back) (lookup_ dc)) (next_node dc).

(** Everything of the invariant but the bound on the size. *)
Record dc_links (dc : DentryCache) : Prop := {
  links_nodup : NoDup (cache dc).*1;
  links_fresh : forall n e, (n, e) ∈ cache dc -> (n < next_node dc)%nat;
  links_live : forall k it, lookup_ dc !! k = Some it ->
    exists v, (it, mkEntry k v) ∈ cache dc
}.

Lemma dc_inv_links dc : dc_inv dc <-> dc_links dc /\ (length (cache dc) <= maxsize dc)%nat.
Proof. split; [intros []; split; [split|]; done|intros [[] ?]; split; done]. Qed.

Lemma inserted_links k v dc : dc_links dc -> dc_links (inserted k v dc).
Proof.
  intros []. split; simpl.
  - apply list.NoDup_cons. split; [|done].
    intros ([n e] & Heq & Hn)%list_elem_of_fmap. simpl in Heq. subst.
    apply links_fresh0 in Hn. lia.
  - intros n e [?|Hn]%elem_of_cons; [simplify_eq; lia|]. apply links_fresh0 in Hn. lia.
  - intros k' it. rewrite lookup_insert. case_decide as E.
    + intros ?; simplify_eq. exists v. by left.
    + intros [v' Hin]%links_live0. exists v'. by right.
Qed.

Lemma dropped_links n back dc :
  dc_links dc -> list.last (cache dc) = Some (n, back) -> dc_links (dropped back dc).
Proof.
  intros [H1 H2 H3] Hl. pose proof (last_removelast _ _ Hl) as Hr. split; simpl.
  - eapply NoDup_fmap_sublist; [apply removelast_sublist|done].
  - intros n' e Hn. eapply H2, elem_of_sublist; [apply removelast_sublist|done].
  - intros k it. rewrite lookup_delete. case_decide as E; [done|].
    intros Hk. destruct (H3 _ _ Hk) as [v Hin]. exists v.
    rewrite Hr in Hin. apply elem_of_app in Hin as [?|Hin]; [done|].
    apply list_elem_of_singleton in Hin. simplify_eq.
Qed.

Lemma Insert_eq k v dc :
  dc_inv dc ->
  (Insert k v dc = Ret tt (inserted k v dc) /\ (length (cache dc) < maxsize dc)%nat) \/
  (exists n back, list.last (cache (inserted k v dc)) = Some (n, back) /\
     Insert k v dc = Ret tt (dropped back (inserted k v dc)) /\
     length (cache dc) = maxsize dc).
Proof.
  intros Hinv. pose proof (inv_size _ Hinv) as Hs.
  unfold Insert, bind, get_state, modify. simpl. case_decide as E; simpl in E.
  - right. unfold deref.
    destruct (list.last ((next_node dc, mkEntry k v) :: cache dc)) as [[n back]|] eqn:El.
    + exists n, back. split; [done|]. split; [done|lia].
    + by apply last_None in El.
  - left. split; [done|lia].
Qed.

(** What a cache may forget but never invents. *)
Lemma dropped_view n back dc k v :
  dc_links dc -> list.last (cache dc) = Some (n, back) -> dc_inv (dropped back dc) ->
  dc_view (dropped back dc) k = Some v ->
  exists it, lookup_ dc !! k = Some it /\ (it, mkEntry k v) ∈ cache dc.
Proof.
  intros Hl Hlast Hinv. rewrite dc_view_Some by done. intros (it & E & Hin). simpl in *.
  apply lookup_delete_Some in E as [_ E]. exists it. split; [done|].
  eapply elem_of_sublist; [apply removelast_sublist|done].
Qed.

Lemma Insert_inv dc k v :
  dc_inv dc ->
  exists dc', Insert k v dc = Ret tt dc' /\ dc_inv dc' /\ maxsize dc' = maxsize dc /\
    (forall k' v', dc_view dc' k' = Some v' ->
       (k' = k /\ v' = v) \/ (k' <> k /\ dc_view dc k' = Some v')) /\
    ((0 < maxsize dc)%nat -> (forall n e, (n, e) ∈ cache dc -> ent_key e <> k) ->
       dc_view dc' k = Some v).
Proof.
  intros Hinv. pose proof (proj1 (dc_inv_links _) Hinv) as [Hl Hs].
  pose proof (inserted_links k v _ Hl) as Hl'.
  assert (forall k' v' it, lookup_ (inserted k v dc) !! k' = Some it ->
            (it, mkEntry k' v') ∈ cache (inserted k v dc) ->
            (k' = k /\ v' = v) \/ (k' <> k /\ dc_view dc k' = Some v')) as Hback.
  { intros k' v' it. simpl. rewrite lookup_insert. case_decide as E.
    - intros ?; simplify_eq. intros [?|Hin]%elem_of_cons; [simplify_eq; by left|].
      apply (inv_fresh _ Hinv) in Hin. lia.
    - intros Hk [?|Hin]%elem_of_cons; [simplify_eq|].
      right. split; [done|]. apply dc_view_Some; eauto. }
  destruct (Insert_eq k v dc Hinv) as [[HI Hlt]|(n & back & Hlast & HI & Hlen)].
  - exists (inserted k v dc).
    assert (dc_inv (inserted k v dc)) as Hi by (apply dc_inv_links; split; [done|simpl; lia]).
    split; [done|]. split; [done|]. split; [done|]. split.
    + intros k' v'. rewrite dc_view_Some by done. intros (it & E & Hin). eauto.
    + intros _ _. apply dc_view_Some; [done|]. exists (next_node dc). simpl.
      rewrite lookup_insert_eq. split; [done|by left].
  - exists (dropped back (inserted k v dc)).
    pose proof (last_removelast _ _ Hlast) as Hr.
    pose proof (f_equal (@length _) Hr) as Hrl. rewrite length_app in Hrl. simpl length in Hrl.
    assert (dc_inv (dropped back (inserted k v dc))) as Hi.
    { apply dc_inv_links. split; [by eapply dropped_links|]. simpl cache. simpl maxsize. lia. }
    split; [done|]. split; [done|]. split; [done|]. split.
    + intros k' v' H. edestruct dropped_view as (it & E & Hin); eauto.
    + intros Hpos Hfresh. apply dc_view_Some; [done|]. exists (next_node dc).
      destruct (cache dc) as [|c l] eqn:Ec; [simpl in Hlen; lia|].
      assert ((n, back) ∈ cache dc) as Hin.
      { change (cache (inserted k v dc)) with ((next_node dc, mkEntry k v) :: cache dc) in Hlast.
        rewrite Ec, last_cons_cons in Hlast. rewrite Ec. by apply last_Some_elem_of. }
      simpl. rewrite Ec. split; [|by left].
      rewrite lookup_delete_ne, lookup_insert_eq; [done|]. rewrite Ec in Hin. eauto.
Qed.

Lemma Evict_inv dc k :
  dc_inv dc ->
  exists dc', Evict k dc = Ret tt dc' /\ dc_inv dc' /\ maxsize dc' = maxsize dc /\
    (forall k', dc_view dc' k' = if decide (k' = k) then None else dc_view dc k').
Proof.
  intros Hinv. destruct (lookup_ dc !! k) as [it|] eqn:E; unfold Evict, bind, get_state; rewrite E.
  - exists (set_lookup (delete k (lookup_ dc)) dc). split; [done|].
    split; [|split; [done|]].
    + destruct Hinv. split; simpl; try done. intros k' it' [_ ?]%lookup_delete_Some. eauto.
    + intros k'. unfold dc_view. simpl. rewrite lookup_delete.
      repeat case_decide; try congruence; done.
  - exists dc. split; [done|]. split; [done|]. split; [done|]. intros k'.
    case_decide; [subst; by apply dc_view_None|done].
Qed.
