(* ===== verification/Cache.v ===== *)
(** leveldb's reference-counted LRU cache: [src/lib/leveldb/util/cache.cc].

    An [LRUHandle *] is a location of a heap of handles, one heap per shard;
    reading a freed handle is undefined. The chain of handles in a bucket (the
    [next_hash] links) and the circular LRU list (the [next]/[prev] links) are
    lists of locations, oldest first for the latter. A handle's [deleter] runs on
    a state [W] outside the cache: all insertions into one cache pass the same
    function, which is the parameter [deleter]. The mutexes make each operation
    atomic. *)

From S2P Require Import Prelude Hashes.

Set Default Proof Using "Type".

Abbreviation loc := nat (only parsing).

Section cache.
Context {V W : Type} (deleter : bytes -> V -> prog W unit).

Record LRUHandle : Type := mkHandle {
  value : V;
  charge : Z;
  hkey : bytes;      (* key_data, key_length *)
  refs : Z;
  hash : Z
}.

(** [HandleTable]: an array of [length_] buckets. *)
Record HandleTable : Type := mkTable {
  length_ : Z;
  elems_ : Z;
  list_ : list (list loc)
}.

Record LRUCache : Type := mkLRU {
  capacity_ : Z;
  usage_ : Z;
  lru_ : list loc;   (* [lru_.next] (oldest) first *)
  table_ : HandleTable;
  heap : gmap loc LRUHandle;
  next_loc : loc
}.

Definition set_refs (n : Z) (h : LRUHandle) : LRUHandle :=
  mkHandle (value h) (charge h) (hkey h) n (hash h).

(** ** [HandleTable] *)

(** The walk of [FindPointer] along a chain: the position of the entry that
    matches, or of the trailing slot; [None] when it meets a freed handle. *)
Fixpoint FindSlot (hp : gmap loc LRUHandle) (key : bytes) (hsh : Z) (chain : list loc)
    : option nat :=
  match chain with
  | [] => Some 0%nat
  | l :: chain' =>
      h ← hp !! l;
      if (negb (hash h =? hsh) || negb (bool_decide (key = hkey h)))%bool
      then S <$> FindSlot hp key hsh chain' else Some 0%nat
  end.

Definition bucket (hsh len : Z) : nat := Z.to_nat (Z.land hsh (len - 1)).

(** [FindPointer]: the bucket, its chain and the slot in it. *)
Definition FindPointer (hp : gmap loc LRUHandle) (t : HandleTable) (key : bytes) (hsh : Z)
    : option (nat * list loc * nat) :=
  let i := bucket hsh (length_ t) in
  chain ← list_ t !! i;
  j ← FindSlot hp key hsh chain;
  Some (i, chain, j).

Definition table_Lookup (hp : gmap loc LRUHandle) (t : HandleTable) (key : bytes) (hsh : Z)
    : option (option loc) :=
  '(i, chain, j) ← FindPointer hp t key hsh;
  Some (chain !! j).

(** [uint32_t new_length = 4; while (new_length < elems_) new_length *= 2;]
    The doubling wraps to 0 after 29 rounds and stays there, so that a loop that
    has not ended after 32 rounds never ends; [None] then. *)
Fixpoint grow (fuel : nat) (new_length elems : Z) : option Z :=
  match fuel with
  | O => None
  | S fuel' => if new_length <? elems then grow fuel' (u32 (new_length * 2)) elems else Some new_length
  end.

(** [*ptr = h] with [h->next_hash = *ptr]: push on the front of its new chain. *)
Definition rehash_one (hp : gmap loc LRUHandle) (new_length : Z)
    (acc : option (list (list loc))) (l : loc) : option (list (list loc)) :=
  new_list ← acc;
  h ← hp !! l;
  let i := bucket (hash h) new_length in
  chain ← new_list !! i;
  Some (<[i := l :: chain]> new_list).

(** [None] is a freed handle, a failed assertion or a loop without end. *)
Definition Resize (hp : gmap loc LRUHandle) (t : HandleTable) : option HandleTable :=
  new_length ← grow 32 4 (elems_ t);
  new_list ← foldl (rehash_one hp new_length)
               (Some (replicate (Z.to_nat new_length) [])) (mjoin (list_ t));
  let count := u32 (Z.of_nat (length (mjoin (list_ t)))) in
  if negb (elems_ t =? count) then None else
  Some (mkTable new_length (elems_ t) new_list).

Definition table_new : HandleTable := mkTable 4 0 (replicate 4 []).

(** [HandleTable::Insert(h)]; returns the displaced entry. *)
Definition table_Insert (hp : gmap loc LRUHandle) (t : HandleTable) (l : loc)
    : option (option loc * HandleTable) :=
  h ← hp !! l;
  '(i, chain, j) ← FindPointer hp t (hkey h) (hash h);
  match chain !! j with
  | Some old =>
      Some (Some old, mkTable (length_ t) (elems_ t) (<[i := <[j := l]> chain]> (list_ t)))
  | None =>
      let t := mkTable (length_ t) (u32 (elems_ t + 1)) (<[i := chain ++ [l]]> (list_ t)) in
      if elems_ t >? length_ t then t' ← Resize hp t; Some (None, t') else Some (None, t)
  end.

Definition table_Remove (hp : gmap loc LRUHandle) (t : HandleTable) (key : bytes) (hsh : Z)
    : option (option loc * HandleTable) :=
  '(i, chain, j) ← FindPointer hp t key hsh;
  match chain !! j with
  | Some result =>
      Some (Some result,
            mkTable (length_ t) (u32 (elems_ t - 1)) (<[i := delete j chain]> (list_ t)))
  | None => Some (None, t)
  end.

(** ** [LRUCache] *)

Abbreviation shard_prog := (prog (LRUCache * W)).

Definition with_lru (l : list loc) (c : LRUCache) : LRUCache :=
  mkLRU (capacity_ c) (usage_ c) l (table_ c) (heap c) (next_loc c).
Definition with_table (t : HandleTable) (c : LRUCache) : LRUCache :=
  mkLRU (capacity_ c) (usage_ c) (lru_ c) t (heap c) (next_loc c).
Definition with_heap (hp : gmap loc LRUHandle) (c : LRUCache) : LRUCache :=
  mkLRU (capacity_ c) (usage_ c) (lru_ c) (table_ c) hp (next_loc c).
Definition with_usage (u : Z) (c : LRUCache) : LRUCache :=
  mkLRU (capacity_ c) u (lru_ c) (table_ c) (heap c) (next_loc c).

Definition SetCapacity (capacity : Z) (c : LRUCache) : LRUCache :=
  mkLRU capacity (usage_ c) (lru_ c) (table_ c) (heap c) (next_loc c).

Definition shard : shard_prog LRUCache := gets fst.
Definition on_shard (f : LRUCache -> LRUCache) : shard_prog unit :=
  modify (fun cw => (f cw.1, cw.2)).

Definition LRU_Remove (e : loc) : shard_prog unit :=
  on_shard (fun c => with_lru (filter (fun l => l <> e) (lru_ c)) c).

Definition LRU_Append (e : loc) : shard_prog unit :=
  on_shard (fun c => with_lru (lru_ c ++ [e]) c).

Definition Unref (e : loc) : shard_prog unit :=
  c <- shard ;;
  h <- deref UseAfterFree (heap c !! e) ;;
  if negb (refs h >? 0) then undefined AssertFailed else
  let n := refs h - 1 in
  if n <=? 0 then
    on_shard (fun c => with_usage (u64 (usage_ c - charge h)) c) ;;;
    zoom snd (fun w cw => (cw.1, w)) (deleter (hkey h) (value h)) ;;;
    on_shard (fun c => with_heap (delete e (heap c)) c)
  else on_shard (fun c => with_heap (<[e := set_refs n h]> (heap c)) c).

Definition LRU_Lookup (key : bytes) (hsh : Z) : shard_prog (option loc) :=
  c <- shard ;;
  e <- deref UseAfterFree (table_Lookup (heap c) (table_ c) key hsh) ;;
  match e with
  | Some e =>
      h <- deref UseAfterFree (heap c !! e) ;;
      on_shard (with_heap (<[e := set_refs (u32 (refs h + 1)) h]> (heap c))) ;;;
      LRU_Remove e ;;;
      LRU_Append e ;;;
      ret (Some e)
  | None => ret None
  end.

Definition LRU_Release (handle : loc) : shard_prog unit := Unref handle.

(** [while (usage_ > capacity_ && lru_.next != &lru_)]: each round takes one entry
    off the list, so one round more than the list is long is enough fuel. *)
Fixpoint evict_loop (fuel : nat) : shard_prog unit :=
  match fuel with
  | O => undefined Unfinished
  | S fuel' =>
      c <- shard ;;
      if usage_ c >? capacity_ c then
        match lru_ c with
        | old :: _ =>
            LRU_Remove old ;;;
            h <- deref UseAfterFree (heap c !! old) ;;
            r <- deref UseAfterFree (table_Remove (heap c) (table_ c) (hkey h) (hash h)) ;;
            on_shard (with_table r.2) ;;;
            Unref old ;;;
            evict_loop fuel'
        | [] => ret tt
        end
      else ret tt
  end.

Definition LRU_Insert (key : bytes) (hsh : Z) (v : V) (chg : Z) : shard_prog loc :=
  c <- shard ;;
  let e := next_loc c in
  on_shard (fun c => mkLRU (capacity_ c) (usage_ c) (lru_ c) (table_ c)
                       (<[e := mkHandle v chg key 2 hsh]> (heap c)) (S e)) ;;;
  LRU_Append e ;;;
  on_shard (fun c => with_usage (u64 (usage_ c + chg)) c) ;;;
  c <- shard ;;
  r <- deref UseAfterFree (table_Insert (heap c) (table_ c) e) ;;
  on_shard (with_table r.2) ;;;
  (match r.1 with
   | Some old => LRU_Remove old ;;; Unref old
   | None => ret tt
   end) ;;;
  c <- shard ;;
  evict_loop (S (length (lru_ c))) ;;;
  ret e.

Definition LRU_Erase (key : bytes) (hsh : Z) : shard_prog unit :=
  c <- shard ;;
  r <- deref UseAfterFree (table_Remove (heap c) (table_ c) key hsh) ;;
  on_shard (with_table r.2) ;;;
  match r.1 with
  | Some e => LRU_Remove e ;;; Unref e
  | None => ret tt
  end.

(** [~LRUCache]: the destructor asserts that no caller holds a handle. *)
Fixpoint LRU_destroy_loop (l : list loc) : shard_prog unit :=
  match l with
  | [] => ret tt
  | e :: l' =>
      c <- shard ;;
      h <- deref UseAfterFree (heap c !! e) ;;
      if negb (refs h =? 1) then undefined AssertFailed else
      Unref e ;;; LRU_destroy_loop l'
  end.

Definition LRU_destroy : shard_prog unit :=
  c <- shard ;; LRU_destroy_loop (lru_ c).

Definition LRU_new (capacity : Z) : LRUCache := mkLRU capacity 0 [] table_new ∅ 0.

(** ** [ShardedLRUCache] *)

Definition kNumShardBits : Z := 4.
Definition kNumShards : Z := Z.shiftl 1 kNumShardBits.

Record ShardedLRUCache : Type := mkSharded {
  shard_ : list LRUCache;
  last_id_ : Z
}.

(** A [Cache::Handle *]: the location in its shard's heap, with the immutable
    [hash] field that [Release] reads through the pointer. *)
Record Cache_Handle : Type := mkCH { ch_hash : Z; ch_loc : loc }.

Definition HashSlice (s : bytes) : Z := Hash s 0.
Definition Shard (hsh : Z) : nat := Z.to_nat (Z.shiftr hsh (32 - kNumShardBits)).

Definition NewLRUCache (capacity : Z) : ShardedLRUCache :=
  let per_shard := (capacity + (kNumShards - 1)) / kNumShards in
  mkSharded (replicate (Z.to_nat kNumShards) (LRU_new per_shard)) 0.

Abbreviation cache_prog := (prog (ShardedLRUCache * W)).

(** Run an operation of one shard. *)
Definition in_shard {A} (i : nat) (m : shard_prog A) : cache_prog A := fun cw =>
  match shard_ cw.1 !! i with
  | None => UB OutOfBounds
  | Some c =>
      match m (c, cw.2) with
      | Ret a (c', w') => Ret a (mkSharded (<[i := c']> (shard_ cw.1)) (last_id_ cw.1), w')
      | Exit code (c', w') => Exit code (mkSharded (<[i := c']> (shard_ cw.1)) (last_id_ cw.1), w')
      | UB r => UB r
      end
  end.

Definition Cache_Insert (key : bytes) (v : V) (chg : Z) : cache_prog Cache_Handle :=
  let hsh := HashSlice key in
  e <- in_shard (Shard hsh) (LRU_Insert key hsh v chg) ;;
  ret (mkCH hsh e).

Definition Cache_Lookup (key : bytes) : cache_prog (option Cache_Handle) :=
  let hsh := HashSlice key in
  e <- in_shard (Shard hsh) (LRU_Lookup key hsh) ;;
  ret (mkCH hsh <$> e).

Definition Cache_Release (h : Cache_Handle) : cache_prog unit :=
  in_shard (Shard (ch_hash h)) (LRU_Release (ch_loc h)).

Definition Cache_Erase (key : bytes) : cache_prog unit :=
  let hsh := HashSlice key in
  in_shard (Shard hsh) (LRU_Erase key hsh).

Definition Cache_Value (h : Cache_Handle) : cache_prog V :=
  in_shard (Shard (ch_hash h))
    (c <- shard ;; e <- deref UseAfterFree (heap c !! ch_loc h) ;; ret (value e)).

Definition Cache_NewId : cache_prog Z := fun cw =>
  let id := u64 (last_id_ cw.1 + 1) in
  Ret id (mkSharded (shard_ cw.1) id, cw.2).

(** [delete cache]: the shards are destroyed in reverse order of construction. *)
Definition Cache_destroy : cache_prog unit :=
  fold_right (fun i m => m ;;; in_shard i LRU_destroy) (ret tt) (seq 0 (Z.to_nat kNumShards)).
End cache.

#[global] Arguments HashSlice : simpl never.
#[global] Arguments Shard : simpl never.
#[global] Arguments kNumShards : simpl never.
Arguments LRUHandle V : clear implicits.
Arguments LRUCache V : clear implicits.
Arguments ShardedLRUCache V : clear implicits.

(** * Properties of one shard *)

Section shard_facts.
Context {V : Type} (hashf : bytes -> Z).
Implicit Types (c : LRUCache V) (hp : gmap nat (LRUHandle V)) (t : HandleTable) (L : list nat).

(** Specification: search the list of cached entries for a key. *)
Fixpoint lru_find hp (key : bytes) L : option nat :=
  match L with
  | [] => None
  | l :: L' =>
      match hp !! l with
      | Some h => if decide (hkey h = key) then Some l else lru_find hp key L'
      | None => lru_find hp key L'
      end
  end.

(** The entries [L] are live, carry the hash of their key, and no two have the
    same key. *)
Record entries_ok hp L : Prop := {
  ent_nodup : NoDup L;
  ent_live : forall l, l ∈ L -> exists h, hp !! l = Some h /\ hash h = hashf (hkey h);
  ent_unique : forall l1 l2 h1 h2, l1 ∈ L -> l2 ∈ L ->
    hp !! l1 = Some h1 -> hp !! l2 = Some h2 -> hkey h1 = hkey h2 -> l1 = l2
}.

(** The hash table indexes exactly the entries [L]. *)
Record table_ok hp t L : Prop := {
  tab_pow2 : exists k, 2 <= k /\ length_ t = 2 ^ k;
  tab_len : Z.of_nat (length (list_ t)) = length_ t;
  tab_elems : elems_ t = Z.of_nat (length L) /\ elems_ t <= 2 ^ 31;
  tab_perm : mjoin (list_ t) ≡ₚ L;
  tab_place : forall i chain l h, list_ t !! i = Some chain -> l ∈ chain ->
    hp !! l = Some h -> bucket (hash h) (length_ t) = i
}.

Lemma bucket_lt hsh len : (exists k, 2 <= k /\ len = 2 ^ k) -> (bucket hsh len < Z.to_nat len)%nat.
Proof.
  intros (k & Hk & ->). unfold bucket.
  replace (2 ^ k - 1) with (Z.ones k) by (rewrite Z.ones_equiv; lia).
  rewrite Z.land_ones by lia. pose proof (Z.mod_pos_bound hsh (2 ^ k) ltac:(lia)). lia.
Qed.

Lemma lru_find_Some hp key L l :
  entries_ok hp L ->
  lru_find hp key L = Some l <-> l ∈ L /\ exists h, hp !! l = Some h /\ hkey h = key.
Proof.
  intros [_ Hlive Huniq]. revert Hlive Huniq.
  induction L as [|x L IH]; intros Hlive Huniq; simpl.
  { split; [done|]. intros [H _]. by apply not_elem_of_nil in H. }
  destruct (Hlive x) as (hx & Ex & _); [by left|]. rewrite Ex.
  case_decide as Hk.
  - split.
    + intros ?; simplify_eq. split; [by left|]. eauto.
    + intros (Hin & h & E & Hh). f_equal. eapply Huniq; [by left|done|done|done|congruence].
  - rewrite IH; [|by intros; apply Hlive; right|by intros; eapply Huniq; eauto; by right].
    rewrite elem_of_cons. split; [naive_solver|]. intros ([->|Hin] & h & E & Hh); naive_solver.
Qed.

Lemma lru_find_None hp key L :
  entries_ok hp L ->
  lru_find hp key L = None <-> forall l h, l ∈ L -> hp !! l = Some h -> hkey h <> key.
Proof.
  intros HL. split.
  - intros HN l h Hin E Hk.
    assert (lru_find hp key L = Some l) by (apply lru_find_Some; eauto). congruence.
  - intros H. destruct (lru_find hp key L) as [l|] eqn:E; [|done].
    apply lru_find_Some in E as (Hin & h & Eh & Hk); [|done]. exfalso. eapply H; eauto.
Qed.

(** Changing reference counts changes neither keys nor hashes. *)
Definition meta (h : LRUHandle V) : bytes * Z := (hkey h, hash h).

Definition same_meta hp hp' L : Prop := forall l, l ∈ L -> meta <$> hp' !! l = meta <$> hp !! l.

Lemma entries_ok_meta hp hp' L : same_meta hp hp' L -> entries_ok hp L -> entries_ok hp' L.
Proof.
  intros Hm [Hnd Hlive Huniq].
  assert (forall l h', l ∈ L -> hp' !! l = Some h' ->
            exists h, hp !! l = Some h /\ hkey h = hkey h' /\ hash h = hash h') as Hback.
  { intros l h' Hin E. specialize (Hm l Hin). rewrite E in Hm. simpl in Hm.
    destruct (hp !! l) as [h|]; [|done]. unfold meta in Hm. simpl in Hm.
    exists h. by simplify_eq. }
  split; [done| |].
  - intros l Hin. destruct (Hlive l Hin) as (h & E & Hh). specialize (Hm l Hin).
    rewrite E in Hm. destruct (hp' !! l) as [h'|]; [|done]. exists h'. split; [done|].
    unfold meta in Hm. simpl in Hm. simplify_eq. congruence.
  - intros l1 l2 h1 h2 H1 H2 E1 E2 Hk.
    destruct (Hback _ _ H1 E1) as (h1' & E1' & Hk1 & _).
    destruct (Hback _ _ H2 E2) as (h2' & E2' & Hk2 & _).
    eapply Huniq; eauto. congruence.
Qed.

Lemma table_ok_meta hp hp' t L : same_meta hp hp' L -> table_ok hp t L -> table_ok hp' t L.
Proof.
  intros Hm [Hp Hl He Hperm Hplace]. split; try done.
  intros i chain l h' Hc Hin E.
  assert (l ∈ L) as HL.
  { rewrite <- Hperm. apply list_elem_of_join. exists chain. split; [done|].
    by eapply list_elem_of_lookup_2. }
  specialize (Hm l HL). rewrite E in Hm. destruct (hp !! l) as [h|] eqn:E'; [|done].
  unfold meta in Hm. simpl in Hm. simplify_eq. rewrite <- (Hplace _ _ _ _ Hc Hin E'). congruence.
Qed.

Lemma table_ok_perm hp t L L' : L ≡ₚ L' -> table_ok hp t L -> table_ok hp t L'.
Proof.
  intros HLL [Hp Hl He Hperm Hplace]. split; try done.
  - by rewrite <- HLL.
  - by rewrite <- HLL.
Qed.

Lemma entries_ok_perm hp L L' : L ≡ₚ L' -> entries_ok hp L -> entries_ok hp L'.
Proof.
  intros HLL [Hnd Hlive Huniq]. split.
  - by rewrite <- HLL.
  - intros l. rewrite <- HLL. apply Hlive.
  - intros l1 l2 h1 h2. rewrite <- HLL. apply Huniq.
Qed.

Lemma entries_ok_filter hp L e : entries_ok hp L -> entries_ok hp (filter (fun l => l <> e) L).
Proof.
  intros [Hnd Hlive Huniq]. split.
  - by apply list.NoDup_filter.
  - intros l [_ Hin]%list_elem_of_filter. by apply Hlive.
  - intros l1 l2 h1 h2 [_ H1]%list_elem_of_filter [_ H2]%list_elem_of_filter. by apply Huniq.
Qed.

Lemma perm_filter_ne L e :
  NoDup L -> e ∈ L -> L ≡ₚ e :: filter (fun l => l <> e) L.
Proof.
  induction L as [|x L IH]; intros Hnd Hin; [by apply not_elem_of_nil in Hin|].
  apply list.NoDup_cons in Hnd as [Hx Hnd]. destruct (decide (x = e)) as [->|Hne].
  - rewrite filter_cons_False by naive_solver. f_equiv.
    rewrite filter_id; [done|]. intros y Hy ->. done.
  - rewrite filter_cons_True by done. apply elem_of_cons in Hin as [->|Hin]; [done|].
    rewrite (IH Hnd Hin) at 1. apply Permutation_swap.
Qed.

(** *** [FindPointer] finds the entry with the key, if there is one *)

Lemma FindSlot_spec hp key chain :
  (forall l, l ∈ chain -> exists h, hp !! l = Some h /\ hash h = hashf (hkey h)) ->
  exists j, FindSlot hp key (hashf key) chain = Some j /\
    match chain !! j with
    | Some l => exists h, hp !! l = Some h /\ hkey h = key
    | None => forall l h, l ∈ chain -> hp !! l = Some h -> hkey h <> key
    end.
Proof.
  induction chain as [|x chain IH]; intros Hlive.
  { exists 0%nat. split; [done|]. simpl. intros l h Hin. by apply not_elem_of_nil in Hin. }
  destruct (Hlive x) as (hx & Ex & Hx); [by left|]. simpl. rewrite Ex. simpl.
  destruct (decide (key = hkey hx)) as [->|Hne].
  - exists 0%nat. rewrite Hx, Z.eqb_refl, bool_decide_true by done. simpl. eauto.
  - destruct IH as (j & Hj & Hm); [intros; apply Hlive; by right|].
    exists (S j). rewrite (bool_decide_false (key = hkey hx)) by done. simpl.
    rewrite orb_true_r, Hj. split; [done|]. simpl. destruct (chain !! j); [done|].
    intros l h [->|Hin]%elem_of_cons E; [congruence|]. eauto.
Qed.

Lemma FindPointer_spec hp t L key :
  entries_ok hp L -> table_ok hp t L ->
  exists i chain j, FindPointer hp t key (hashf key) = Some (i, chain, j) /\
    i = bucket (hashf key) (length_ t) /\
    list_ t !! i = Some chain /\ chain !! j = lru_find hp key L.
Proof.
  intros HL Ht. pose proof (tab_len _ _ _ Ht) as Hlen.
  pose proof (bucket_lt (hashf key) _ (tab_pow2 _ _ _ Ht)) as Hb.
  set (i := bucket (hashf key) (length_ t)) in *.
  destruct (list_ t !! i) as [chain|] eqn:Hc; [|apply lookup_ge_None in Hc; lia].
  assert (forall l, l ∈ chain -> l ∈ L) as Hsub.
  { intros l Hin. rewrite <- (tab_perm _ _ _ Ht). apply list_elem_of_join.
    exists chain. split; [done|]. by eapply list_elem_of_lookup_2. }
  destruct (FindSlot_spec hp key chain) as (j & Hj & Hm).
  { intros l Hin. by apply (ent_live _ _ HL), Hsub. }
  exists i, chain, j. unfold FindPointer. fold i. rewrite Hc. simpl. rewrite Hj.
  split; [done|]. split; [done|]. split; [done|]. symmetry.
  destruct (chain !! j) as [l|] eqn:Ej.
  - destruct Hm as (h & E & Hk). apply lru_find_Some; [done|]. split; [|eauto].
    apply Hsub. by eapply list_elem_of_lookup_2.
  - apply lru_find_None; [done|]. intros l h Hin E Hk.
    destruct (ent_live _ _ HL l Hin) as (h' & E' & Hh'). simplify_eq.
    assert (l ∈ mjoin (list_ t)) as Hin' by by rewrite (tab_perm _ _ _ Ht).
    apply list_elem_of_join in Hin' as (chain' & Hl & Hch').
    apply list_elem_of_lookup in Hch' as [i' Hi'].
    pose proof (tab_place _ _ _ Ht _ _ _ _ Hi' Hl E) as Hpl. rewrite Hh' in Hpl.
    fold i in Hpl. subst i'. simplify_eq. by eapply Hm.
Qed.

Lemma table_Lookup_spec hp t L key :
  entries_ok hp L -> table_ok hp t L ->
  table_Lookup hp t key (hashf key) = Some (lru_find hp key L).
Proof.
  intros HL Ht. destruct (FindPointer_spec hp t L key HL Ht) as (i & chain & j & E & _ & _ & Ej).
  unfold table_Lookup. rewrite E. simpl. by rewrite Ej.
Qed.

(** *** Removal *)

(** Replacing one chain of the table. *)
Lemma table_ok_chain hp t L i chain chain' n L' :
  table_ok hp t L -> list_ t !! i = Some chain ->
  (forall l h, l ∈ chain' -> hp !! l = Some h -> bucket (hash h) (length_ t) = i) ->
  (forall R, L ≡ₚ chain ++ R -> L' ≡ₚ chain' ++ R) ->
  n = Z.of_nat (length L') -> n <= 2 ^ 31 ->
  table_ok hp (mkTable (length_ t) n (<[i := chain']> (list_ t))) L'.
Proof.
  intros [Hp Hl He Hperm Hplace] Hc Hbk HR Hn Hmax.
  destruct (mjoin_split _ _ _ chain' Hc) as [Hold Hnew]. split; simpl; try done.
  - by rewrite length_insert.
  - rewrite Hnew. symmetry. apply HR. by rewrite <- Hperm, Hold.
  - intros i' ch l h Hi' Hin E. apply list_lookup_insert_Some in Hi' as [(-> & <- & _)|[Hne Hi']];
      [by eapply Hbk|by eapply Hplace].
Qed.

Lemma table_Remove_spec hp t L key :
  entries_ok hp L -> table_ok hp t L ->
  match lru_find hp key L with
  | Some l => exists t', table_Remove hp t key (hashf key) = Some (Some l, t') /\
                table_ok hp t' (filter (fun x => x <> l) L)
  | None => table_Remove hp t key (hashf key) = Some (None, t)
  end.
Proof.
  intros HL Ht.
  destruct (FindPointer_spec hp t L key HL Ht) as (i & chain & j & E & Hi & Hc & Ej).
  unfold table_Remove. rewrite E. simpl. rewrite Ej.
  destruct (lru_find hp key L) as [l|] eqn:El; [|done].
  eexists. split; [done|].
  apply lru_find_Some in El as [Hin _]; [|done].
  pose proof (perm_filter_ne L l (ent_nodup _ _ HL) Hin) as Hp.
  pose proof (delete_Permutation chain j l Ej) as Hd.
  pose proof (Permutation_length Hp) as Hlen. simpl in Hlen. destruct (tab_elems _ _ _ Ht) as [He Hmax].
  assert (u32 (elems_ t - 1) = elems_ t - 1) as -> by (apply u32_small; lia).
  eapply table_ok_chain; [done|done| | |lia|lia].
  - intros x h Hx. eapply (tab_place _ _ _ Ht); [done|]. rewrite Hd. by right.
  - intros R HR. rewrite Hp, Hd in HR. simpl in HR. by apply Permutation_cons_inv in HR.
Qed.

(** *** Growing the table *)

Lemma grow_spec n : 0 <= n <= 2 ^ 31 -> exists k, grow 32 4 n = Some (2 ^ k) /\ 2 <= k <= 31 /\ n <= 2 ^ k.
Proof.
  intros Hn.
  assert (forall fuel k, 2 <= k <= 31 -> 31 < k + Z.of_nat fuel ->
    exists k', grow fuel (2 ^ k) n = Some (2 ^ k') /\ 2 <= k' <= 31 /\ n <= 2 ^ k') as H; [|by apply (H 32%nat 2)].
  induction fuel as [|fuel IH]; intros k Hk Hf; [lia|]. cbn [grow]. case_bool; bool_to_prop; [|by exists k].
  assert (k < 31) as Hlt by (destruct (decide (k = 31)) as [->|]; lia).
  replace (2 ^ k * 2) with (2 ^ (k + 1)) by (rewrite Z.pow_add_r by lia; lia).
  rewrite u32_small; [apply IH; lia|]. split; [lia|]. apply (Z.pow_lt_mono_r 2); lia.
Qed.

Lemma rehash_spec hp len new_list ls :
  (exists k, 2 <= k /\ len = 2 ^ k) -> Z.of_nat (length new_list) = len ->
  (forall l, l ∈ ls -> is_Some (hp !! l)) ->
  (forall i chain l h, new_list !! i = Some chain -> l ∈ chain ->
     hp !! l = Some h -> bucket (hash h) len = i) ->
  exists new', foldl (rehash_one hp len) (Some new_list) ls = Some new' /\
    Z.of_nat (length new') = len /\ mjoin new' ≡ₚ mjoin new_list ++ ls /\
    (forall i chain l h, new' !! i = Some chain -> l ∈ chain ->
       hp !! l = Some h -> bucket (hash h) len = i).
Proof.
  intros Hpow. revert new_list. induction ls as [|l ls IH]; intros new_list Hlen Hlive Hplace.
  { exists new_list. simpl. rewrite app_nil_r. done. }
  destruct (Hlive l) as [h E]; [by left|]. simpl. rewrite E. simpl.
  pose proof (bucket_lt (hash h) _ Hpow) as Hb.
  destruct (new_list !! bucket (hash h) len) as [chain|] eqn:Hc;
    [|apply lookup_ge_None in Hc; lia]. simpl.
  destruct (mjoin_split _ _ _ (l :: chain) Hc) as [Hold Hnew].
  destruct (IH (<[bucket (hash h) len := l :: chain]> new_list)) as (new' & H1 & H2 & H3 & H4).
  - by rewrite length_insert.
  - intros x Hx. apply Hlive. by right.
  - intros i ch x hx Hi Hin Ex. apply list_lookup_insert_Some in Hi as [(<- & <- & _)|[Hne Hi]].
    + apply elem_of_cons in Hin as [->|Hin]; [by simplify_eq|]. by eapply Hplace.
    + by eapply Hplace.
  - exists new'. split; [done|]. split; [done|]. split; [|done].
    rewrite H3, Hnew, Hold. simpl. by rewrite <- Permutation_middle.
Qed.

Lemma Resize_spec hp t L :
  elems_ t = Z.of_nat (length L) /\ elems_ t <= 2 ^ 31 -> mjoin (list_ t) ≡ₚ L ->
  (forall l, l ∈ L -> is_Some (hp !! l)) ->
  exists t', Resize hp t = Some t' /\ table_ok hp t' L.
Proof.
  intros [He Hmax] Hperm Hlive. unfold Resize.
  destruct (grow_spec (elems_ t)) as (k & Hg & Hk & _); [lia|]. rewrite Hg. cbn [mbind option_bind].
  set (len := 2 ^ k) in *. assert (exists k, 2 <= k /\ len = 2 ^ k) as Hpow by (exists k; by split; [lia|]).
  assert (0 < len) as Hpos by (subst len; lia).
  destruct (rehash_spec hp len (replicate (Z.to_nat len) []) (mjoin (list_ t)))
    as (new' & H1 & H2 & H3 & H4).
  - done.
  - rewrite length_replicate. lia.
  - intros l. rewrite Hperm. apply Hlive.
  - intros i chain l h Hi Hin. apply lookup_replicate in Hi as [-> _].
    by apply not_elem_of_nil in Hin.
  - rewrite H1. cbn [mbind option_bind]. rewrite (Permutation_length Hperm), <- He, u32_small, Z.eqb_refl by lia. cbn [negb].
    eexists. split; [done|]. split; simpl; try done.
    rewrite H3, <- Hperm. clear. induction (Z.to_nat len); [done|]. simpl. done.
Qed.

(** *** Insertion *)

Lemma table_Insert_spec hp t L l h :
  hp !! l = Some h -> hash h = hashf (hkey h) -> l ∉ L -> Z.of_nat (length L) < 2 ^ 31 ->
  entries_ok hp L -> table_ok hp t L ->
  exists t', table_Insert hp t l = Some (lru_find hp (hkey h) L, t') /\
    table_ok hp t' (match lru_find hp (hkey h) L with
                    | Some old => filter (fun x => x <> old) L | None => L end ++ [l]).
Proof.
  intros E Hh Hl Hroom HL Ht. destruct (tab_elems _ _ _ Ht) as [He Hmax].
  destruct (FindPointer_spec hp t L (hkey h) HL Ht) as (i & chain & j & Ef & Hi & Hc & Ej).
  unfold table_Insert. rewrite E. simpl. rewrite Hh, Ef. simpl. rewrite Ej.
  assert (forall x hx, x ∈ chain \/ x = l -> hp !! x = Some hx -> bucket (hash hx) (length_ t) = i)
    as Hbk.
  { intros x hx [Hx| ->] Ex; [by eapply (tab_place _ _ _ Ht)|]. simplify_eq. congruence. }
  destruct (lru_find hp (hkey h) L) as [old|] eqn:El.
  - eexists. split; [done|].
    apply lru_find_Some in El as [Hin _]; [|done].
    pose proof (perm_filter_ne L old (ent_nodup _ _ HL) Hin) as Hp.
    pose proof (lookup_lt_Some _ _ _ Ej) as Hlt.
    assert (<[j := l]> chain ≡ₚ l :: delete j chain) as Hins.
    { rewrite insert_take_drop, delete_take_drop by done. by rewrite Permutation_middle. }
    pose proof (delete_Permutation chain j old Ej) as Hd.
    eapply table_ok_chain; [done|done| | | |done].
    + intros x hx. rewrite Hins, elem_of_cons. intros Hx. apply Hbk. rewrite Hd, elem_of_cons. naive_solver.
    + intros R HR. rewrite Hp, Hd in HR. simpl in HR. apply Permutation_cons_inv in HR.
      rewrite Hins, HR. simpl. by rewrite Permutation_app_comm.
    + pose proof (Permutation_length Hp) as Hlen. simpl in Hlen.
      rewrite He, length_app. simpl length. lia.
  - assert (u32 (elems_ t + 1) = elems_ t + 1) as -> by (apply u32_small; lia).
    set (t1 := mkTable (length_ t) (elems_ t + 1) (<[i := chain ++ [l]]> (list_ t))).
    assert (table_ok hp t1 (L ++ [l])) as Ht1.
    { eapply table_ok_chain; [done|done| | | |lia].
      - intros x hx Hx. apply Hbk. apply elem_of_app in Hx as [?|Hx]; [by left|].
        apply list_elem_of_singleton in Hx. by right.
      - intros R HR. rewrite HR. rewrite <- !app_assoc. f_equiv. apply Permutation_app_comm.
      - rewrite He, length_app. simpl length. lia. }
    fold t1. case_bool; [|eauto].
    destruct (Resize_spec hp t1 (L ++ [l])) as (t' & Hr & Ht').
    + apply Ht1.
    + apply Ht1.
    + intros x [Hx|Hx]%elem_of_app; [destruct (ent_live _ _ HL x Hx) as (? & ? & _); eauto|].
      apply list_elem_of_singleton in Hx. subst. eauto.
    + exists t'. rewrite Hr. done.
Qed.
(** *** The invariant of a shard

    [pn l] is the number of references to the handle [l] held outside the cache.
    The list and the table hold one more each entry between them. *)

Definition total_charge hp : Z := map_fold (fun _ h acc => charge h + acc) 0 hp.

Definition in_lru c (l : nat) : Z := if decide (l ∈ lru_ c) then 1 else 0.

Record cache_inv (pn : nat -> Z) c : Prop := {
  ci_entries : entries_ok (heap c) (lru_ c);
  ci_table : table_ok (heap c) (table_ c) (lru_ c);
  ci_hash : forall l h, heap c !! l = Some h -> hash h = hashf (hkey h);
  ci_refs : forall l h, heap c !! l = Some h -> refs h = pn l + in_lru c l /\ 0 < refs h;
  ci_pins : forall l, 0 <= pn l;
  ci_dead : forall l, heap c !! l = None -> pn l = 0;
  ci_next : forall l, (next_loc c <= l)%nat -> heap c !! l = None;
  ci_usage : usage_ c = u64 (total_charge (heap c))
}.

(** What a client sees: the handles that are alive, with key and value. *)
Definition live c : gmap nat (bytes * V) := (fun h => (hkey h, value h)) <$> heap c.

Definition pin (l : nat) (pn : nat -> Z) : nat -> Z :=
  fun x => if decide (x = l) then pn x + 1 else pn x.
Definition unpin (l : nat) (pn : nat -> Z) : nat -> Z :=
  fun x => if decide (x = l) then pn x - 1 else pn x.

Lemma cache_inv_ext pn pn' c : (forall l, pn l = pn' l) -> cache_inv pn c -> cache_inv pn' c.
Proof.
  intros E [? ? ? Hr Hp Hd ? ?]. split; try done.
  - intros l h Hl. rewrite <- E. by apply Hr.
  - intros l. rewrite <- E. apply Hp.
  - intros l. rewrite <- E. apply Hd.
Qed.

Lemma unpin_pin l pn x : unpin l (pin l pn) x = pn x.
Proof. unfold unpin, pin. case_decide; lia. Qed.

Lemma total_charge_delete hp l h :
  hp !! l = Some h -> total_charge hp = charge h + total_charge (delete l hp).
Proof.
  intros E. unfold total_charge.
  rewrite (map_fold_delete_L _ _ l h hp); [done| |done]. intros. lia.
Qed.

Lemma total_charge_insert hp l h :
  hp !! l = None -> total_charge (<[l := h]> hp) = charge h + total_charge hp.
Proof.
  intros E. rewrite (total_charge_delete _ l h) by apply lookup_insert_eq.
  by rewrite delete_insert_id.
Qed.

Lemma total_charge_refs hp l h n :
  hp !! l = Some h -> total_charge (<[l := set_refs n h]> hp) = total_charge hp.
Proof.
  intros E. rewrite (total_charge_delete hp l h E), (total_charge_delete _ l (set_refs n h))
    by apply lookup_insert_eq. by rewrite delete_insert_eq.
Qed.

Lemma cache_inv_capacity pn c n : cache_inv pn c -> cache_inv pn (SetCapacity n c).
Proof. by intros []. Qed.

Lemma live_lookup c l k v :
  live c !! l = Some (k, v) <-> exists h, heap c !! l = Some h /\ hkey h = k /\ value h = v.
Proof.
  unfold live. rewrite lookup_fmap. clear hashf.
  destruct (heap c !! l) as [h|]; simpl; naive_solver.
Qed.

Lemma set_refs_meta hp l h n L :
  hp !! l = Some h -> same_meta hp (<[l := set_refs n h]> hp) L.
Proof.
  intros E x _. destruct (decide (x = l)) as [->|Hne].
  - by rewrite lookup_insert_eq, E.
  - by rewrite lookup_insert_ne.
Qed.

Lemma live_set_refs c l h n :
  heap c !! l = Some h -> live (with_heap (<[l := set_refs n h]> (heap c)) c) = live c.
Proof.
  intros E. unfold live. simpl. rewrite fmap_insert. apply insert_id.
  by rewrite lookup_fmap, E.
Qed.
Lemma in_lru_ext c c' l : (l ∈ lru_ c <-> l ∈ lru_ c') -> in_lru c l = in_lru c' l.
Proof. intros H. unfold in_lru. do 2 case_decide; naive_solver. Qed.

(** Adjusting one reference count together with the outside references. *)
Lemma inv_set_refs pn pn' c l h :
  cache_inv pn c -> heap c !! l = Some h ->
  0 <= pn' l -> 0 < pn' l + in_lru c l -> (forall x, x <> l -> pn' x = pn x) ->
  cache_inv pn' (with_heap (<[l := set_refs (pn' l + in_lru c l) h]> (heap c)) c).
Proof.
  intros [He Ht Hh Hr Hp Hd Hn Hu] E H0 Hpos Hne. split; simpl.
  - eapply entries_ok_meta; [by apply set_refs_meta|done].
  - eapply table_ok_meta; [by apply set_refs_meta|done].
  - intros x hx. rewrite lookup_insert_Some. intros [[<- <-]|[_ Hx]]; simpl; eauto.
  - intros x hx. rewrite lookup_insert_Some. intros [[<- <-]|[Hx Ex]]; simpl; [done|].
    rewrite Hne by done. by apply Hr.
  - intros x. destruct (decide (x = l)) as [->|Hx]; [done|]. rewrite Hne by done. apply Hp.
  - intros x. rewrite lookup_insert_None. intros [Hx Hxl]. rewrite Hne by done. by apply Hd.
  - intros x Hx. rewrite lookup_insert_None. split; [by apply Hn|]. intros ->.
    rewrite (Hn x Hx) in E. done.
  - by rewrite total_charge_refs.
Qed.

(** Reordering the list. *)
Lemma inv_lru_perm pn c L' :
  lru_ c ≡ₚ L' -> cache_inv pn c -> cache_inv pn (with_lru L' c).
Proof.
  intros HL [He Ht Hh Hr Hp Hd Hn Hu]. split; simpl; try done.
  - by eapply entries_ok_perm.
  - by eapply table_ok_perm.
  - intros l h E. rewrite (in_lru_ext _ c) by (simpl; by rewrite HL). by apply Hr.
Qed.

(** Taking an entry off the list and out of the table turns the reference they
    held into one held outside. *)
Lemma inv_detach pn c l t' :
  cache_inv pn c -> l ∈ lru_ c ->
  table_ok (heap c) t' (filter (fun x => x <> l) (lru_ c)) ->
  cache_inv (pin l pn) (with_table t' (with_lru (filter (fun x => x <> l) (lru_ c)) c)).
Proof.
  intros [He Ht Hh Hr Hp Hd Hn Hu] Hin Ht'. split; simpl; try done.
  - by apply entries_ok_filter.
  - intros x h E. destruct (Hr x h E) as [Hx Hpos]. split; [|done]. rewrite Hx.
    pose proof (list_elem_of_filter (fun y => y <> l) (lru_ c) x) as Hf.
    unfold pin, in_lru. simpl. repeat case_decide; naive_solver lia.
  - intros x. unfold pin. specialize (Hp x). case_decide; lia.
  - intros x E. unfold pin. case_decide as Hx; [|by apply Hd]. subst.
    destruct (ent_live _ _ He l Hin) as (? & ? & _). congruence.
Qed.

Lemma inv_delete pn c l h :
  cache_inv pn c -> heap c !! l = Some h -> pn l = 1 -> l ∉ lru_ c ->
  cache_inv (unpin l pn)
    (with_heap (delete l (heap c)) (with_usage (u64 (usage_ c - charge h)) c)).
Proof.
  intros [He Ht Hh Hr Hp Hd Hn Hu] E Hpn Hl.
  assert (same_meta (heap c) (delete l (heap c)) (lru_ c)) as Hm.
  { intros x Hx. rewrite lookup_delete_ne; [done|]. by intros ->. }
  split; simpl.
  - by eapply entries_ok_meta.
  - by eapply table_ok_meta.
  - intros x hx. rewrite lookup_delete_Some. naive_solver.
  - intros x hx. rewrite lookup_delete_Some. intros [Hx Ex].
    unfold unpin. rewrite decide_False by done. by apply Hr.
  - intros x. unfold unpin. specialize (Hp x). case_decide; [subst; lia|done].
  - intros x. rewrite lookup_delete_None. unfold unpin. intros [->|Ex].
    + rewrite decide_True by done. lia.
    + rewrite decide_False; [by apply Hd|]. intros ->. congruence.
  - intros x Hx. rewrite lookup_delete_None. right. by apply Hn.
  - rewrite Hu, (total_charge_delete _ _ _ E). unfold u64. rewrite Zminus_mod_idemp_l.
    f_equal. lia.
Qed.

Definition cached c (key : bytes) : option nat := lru_find (heap c) key (lru_ c).

Lemma cached_Some pn c key l :
  cache_inv pn c ->
  cached c key = Some l <-> l ∈ lru_ c /\ exists v, live c !! l = Some (key, v).
Proof.
  intros Hinv. unfold cached. rewrite lru_find_Some by apply Hinv.
  setoid_rewrite live_lookup. naive_solver.
Qed.

Lemma cached_None pn c key :
  cache_inv pn c ->
  cached c key = None <-> forall l v, l ∈ lru_ c -> live c !! l <> Some (key, v).
Proof.
  intros Hinv. unfold cached. rewrite lru_find_None by apply Hinv. split.
  - intros H l v Hl (h & E & Hk & _)%live_lookup. by eapply H.
  - intros H l h Hl E Hk. apply (H l (value h) Hl). apply live_lookup. eauto.
Qed.

(** The parts of a shard that bookkeeping does not touch. *)
Definition same_shape c c' : Prop :=
  live c' = live c /\ capacity_ c' = capacity_ c /\ charge <$> heap c' = charge <$> heap c.

Context {W : Type} (deleter : bytes -> V -> prog W unit).
Implicit Types (w : W).

(** [Unref] of a handle the caller holds: the handle survives when someone else
    holds it, otherwise the deleter runs on its key and value. *)
Lemma Unref_spec pn c l w :
  cache_inv pn c -> 0 < pn l ->
  exists h, heap c !! l = Some h /\
  if decide (pn l = 1 /\ l ∉ lru_ c) then
    forall w', deleter (hkey h) (value h) w = Ret tt w' ->
    exists c', Unref deleter l (c, w) = Ret tt (c', w') /\ cache_inv (unpin l pn) c' /\
      heap c' = delete l (heap c) /\ lru_ c' = lru_ c /\ capacity_ c' = capacity_ c
  else
    exists c', Unref deleter l (c, w) = Ret tt (c', w) /\ cache_inv (unpin l pn) c' /\
      live c' = live c /\ lru_ c' = lru_ c /\ capacity_ c' = capacity_ c /\
      charge <$> heap c' = charge <$> heap c.
Proof.
  intros Hinv Hpos. pose proof Hinv as [He Ht Hh Hr Hp Hd Hn Hu].
  destruct (heap c !! l) as [h|] eqn:E; [|rewrite Hd in Hpos by done; lia].
  exists h. split; [done|]. destruct (Hr l h E) as [Hrefs Hrpos].
  assert (in_lru c l = 0 \/ in_lru c l = 1) as Hb by (unfold in_lru; case_decide; lia).
  case_decide as Hlast.
  - destruct Hlast as [Hone Hnin]. intros w' Hdel.
    assert (in_lru c l = 0) as Hz by (unfold in_lru; by rewrite decide_False).
    unfold Unref. cbn. rewrite E. cbn. rewrite Hrefs, Hone, Hz. simpl.
    unfold zoom, bind. cbn. rewrite Hdel. eexists. split; [done|].
    split; [exact (inv_delete pn c l h Hinv E Hone Hnin)|]. done.
  - assert (1 < refs h) as H1.
    { unfold in_lru in *. case_decide; [lia|]. destruct (decide (pn l = 1)); [|lia].
      exfalso. by apply Hlast. }
    unfold Unref. cbn. rewrite E. cbn.
    replace (refs h >? 0) with true by (symmetry; apply Z.gtb_lt; lia). cbn.
    replace (refs h - 1 <=? 0) with false by (symmetry; apply Z.leb_gt; lia).
    eexists. split; [done|]. simpl.
    replace (refs h - 1) with (unpin l pn l + in_lru c l)
      by (unfold unpin; rewrite decide_True by done; lia).
    split; [|split; [by apply live_set_refs|]; split; [done|]; split; [done|]].
    + apply (inv_set_refs pn); [done|done| | |].
      * unfold unpin. rewrite decide_True by done. lia.
      * unfold unpin. rewrite decide_True by done. lia.
      * intros x Hx. unfold unpin. by rewrite decide_False.
    + rewrite fmap_insert. apply insert_id. by rewrite lookup_fmap, E.
Qed.
(** *** The operations of a shard *)

(** One more reference fits into the 32 bits of [refs]. *)
Definition countable_refs pn c key : Prop := forall l, cached c key = Some l -> pn l < 2 ^ 32 - 2.

Lemma LRU_Lookup_spec pn c key w :
  cache_inv pn c -> countable_refs pn c key ->
  match cached c key with
  | None => LRU_Lookup key (hashf key) (c, w) = Ret None (c, w)
  | Some l => exists c', LRU_Lookup key (hashf key) (c, w) = Ret (Some l) (c', w) /\
      cache_inv (pin l pn) c' /\ same_shape c c' /\
      lru_ c' = filter (fun x => x <> l) (lru_ c) ++ [l]
  end.
Proof.
  intros Hinv Hcnt. pose proof Hinv as [He Ht Hh Hr Hp Hd Hn Hu]. unfold countable_refs, cached in Hcnt.
  unfold LRU_Lookup. cbn. rewrite (table_Lookup_spec _ _ _ key He Ht). cbn. unfold cached.
  destruct (lru_find (heap c) key (lru_ c)) as [l|] eqn:El; [|done]. specialize (Hcnt l eq_refl).
  apply lru_find_Some in El as (Hin & h & E & Hk); [|done]. cbn. rewrite E. cbn.
  eexists. split; [done|].
  assert (u32 (refs h + 1) = pin l pn l + in_lru c l) as ->.
  { destruct (Hr l h E) as [-> _]. unfold pin, in_lru. rewrite !decide_True by done.
    specialize (Hp l). rewrite u32_small; lia. }
  assert (cache_inv (pin l pn) (with_heap (<[l := set_refs (pin l pn l + in_lru c l) h]> (heap c)) c))
    as Hinv'.
  { apply (inv_set_refs pn); [done|done| | |].
    - unfold pin. rewrite decide_True by done. specialize (Hp l). lia.
    - unfold pin, in_lru. rewrite !decide_True by done. specialize (Hp l). lia.
    - intros x Hx. unfold pin. by rewrite decide_False. }
  split; [|split; [|done]].
  - apply (inv_lru_perm _ _ (filter (fun x => x <> l) (lru_ c) ++ [l])) in Hinv'; [done|].
    simpl. rewrite (perm_filter_ne _ _ (ent_nodup _ _ He) Hin) at 1. apply Permutation_cons_append.
  - split; [by apply live_set_refs|]. split; [done|]. simpl.
    rewrite fmap_insert. apply insert_id. by rewrite lookup_fmap, E.
Qed.

(** Dropping the cache's own reference to an entry. *)
Lemma drop_spec pn c l t' w :
  cache_inv pn c -> l ∈ lru_ c ->
  table_ok (heap c) t' (filter (fun x => x <> l) (lru_ c)) ->
  exists h, heap c !! l = Some h /\
  let c1 := with_table t' (with_lru (filter (fun x => x <> l) (lru_ c)) c) in
  if decide (pn l = 0) then
    forall w', deleter (hkey h) (value h) w = Ret tt w' ->
    exists c', Unref deleter l (c1, w) = Ret tt (c', w') /\ cache_inv pn c' /\
      heap c' = delete l (heap c) /\ lru_ c' = filter (fun x => x <> l) (lru_ c) /\
      capacity_ c' = capacity_ c
  else
    exists c', Unref deleter l (c1, w) = Ret tt (c', w) /\ cache_inv pn c' /\
      same_shape c c' /\ lru_ c' = filter (fun x => x <> l) (lru_ c).
Proof.
  intros Hinv Hin Ht'. pose proof (inv_detach _ _ _ _ Hinv Hin Ht') as Hinv1.
  assert (pin l pn l = pn l + 1) as Hpl by (unfold pin; by rewrite decide_True).
  pose proof (ci_pins _ _ Hinv l) as Hpos.
  destruct (Unref_spec _ _ l w Hinv1) as (h & E & Hu); [lia|]. simpl in E.
  exists h. split; [done|]. intros c1. fold c1 in Hu, Hinv1.
  assert (l ∉ lru_ c1) as Hnin by (simpl; rewrite list_elem_of_filter; naive_solver).
  assert (forall c', cache_inv (unpin l (pin l pn)) c' -> cache_inv pn c') as Hext.
  { intros c'. apply cache_inv_ext. intros x. apply unpin_pin. }
  destruct (decide (pn l = 0)) as [Hz|Hz].
  - rewrite decide_True in Hu by (split; [lia|done]). intros w' Hdel.
    destruct (Hu w' Hdel) as (c' & H1 & H2 & H3 & H4 & H5). exists c'. auto 10.
  - rewrite decide_False in Hu by lia.
    destruct Hu as (c' & H1 & H2 & H3 & H4 & H5 & H6). exists c'.
    split; [done|]. split; [auto|]. by split.
Qed.

Lemma LRU_Erase_spec pn c key w :
  cache_inv pn c ->
  match cached c key with
  | None => LRU_Erase deleter key (hashf key) (c, w) = Ret tt (c, w)
  | Some l => exists v, live c !! l = Some (key, v) /\
      if decide (pn l = 0) then
        forall w', deleter key v w = Ret tt w' ->
        exists c', LRU_Erase deleter key (hashf key) (c, w) = Ret tt (c', w') /\
          cache_inv pn c' /\ heap c' = delete l (heap c) /\
          lru_ c' = filter (fun x => x <> l) (lru_ c) /\ capacity_ c' = capacity_ c
      else
        exists c', LRU_Erase deleter key (hashf key) (c, w) = Ret tt (c', w) /\
          cache_inv pn c' /\ same_shape c c' /\
          lru_ c' = filter (fun x => x <> l) (lru_ c)
  end.
Proof.
  intros Hinv. pose proof (table_Remove_spec (heap c) (table_ c) _ key (ci_entries _ _ Hinv)
    (ci_table _ _ Hinv)) as Hrem.
  unfold LRU_Erase, cached. cbn.
  destruct (lru_find (heap c) key (lru_ c)) as [l|] eqn:El.
  - destruct Hrem as (t' & -> & Ht'). cbn.
    apply lru_find_Some in El as (Hin & h & E & Hk); [|apply Hinv].
    destruct (drop_spec pn c l t' w Hinv Hin Ht') as (h' & E' & Hd). simplify_eq.
    exists (value h). split; [apply live_lookup; eauto|]. exact Hd.
  - rewrite Hrem. cbn. by destruct c.
Qed.
(** *** Insertion and eviction *)

Definition new_entry (key : bytes) (v : V) (chg : Z) : LRUHandle V :=
  mkHandle v chg key 2 (hashf key).

Definition add_entry (key : bytes) (v : V) (chg : Z) t' c : LRUCache V :=
  mkLRU (capacity_ c) (u64 (usage_ c + chg)) (lru_ c ++ [next_loc c]) t'
    (<[next_loc c := new_entry key v chg]> (heap c)) (S (next_loc c)).

Lemma fresh_not_in_lru pn c : cache_inv pn c -> next_loc c ∉ lru_ c.
Proof.
  intros Hinv Hin. destruct (ent_live _ _ (ci_entries _ _ Hinv) _ Hin) as (h & E & _).
  rewrite (ci_next _ _ Hinv) in E; [done|lia].
Qed.

Lemma fresh_meta pn c h : cache_inv pn c -> same_meta (heap c) (<[next_loc c := h]> (heap c)) (lru_ c).
Proof.
  intros Hinv l Hl. rewrite lookup_insert_ne; [done|]. intros <-.
  by eapply fresh_not_in_lru.
Qed.

Lemma inv_add pn c key v chg t' :
  cache_inv pn c -> cached c key = None ->
  table_ok (<[next_loc c := new_entry key v chg]> (heap c)) t' (lru_ c ++ [next_loc c]) ->
  cache_inv (pin (next_loc c) pn) (add_entry key v chg t' c).
Proof.
  clear deleter.
  intros Hinv Hc Ht'. pose proof (fresh_not_in_lru _ _ Hinv) as Hf.
  pose proof Hinv as [He Ht Hh Hr Hp Hd Hn Hu].
  assert (heap c !! next_loc c = None) as Hfree by (apply Hn; lia).
  assert (forall l, l ∈ lru_ c -> l <> next_loc c) as Hne by (intros l Hl ->; done).
  unfold cached in Hc. rewrite lru_find_None in Hc by done.
  split; simpl.
  - pose proof (entries_ok_meta _ _ _ (fresh_meta _ _ (new_entry key v chg) Hinv) He) as [Hnd Hlv Huq].
    split.
    + apply list.NoDup_app. split; [done|]. split; [|apply NoDup_singleton].
      intros x Hx ->%list_elem_of_singleton. done.
    + intros l [Hl| ->%list_elem_of_singleton]%elem_of_app; [by apply Hlv|].
      rewrite lookup_insert_eq. eauto.
    + intros l1 l2 h1 h2 [H1| ->%list_elem_of_singleton]%elem_of_app
        [H2| ->%list_elem_of_singleton]%elem_of_app E1 E2 Hk; [by eapply Huq| | |done].
      * rewrite lookup_insert_ne in E1 by (apply not_eq_sym; auto). rewrite lookup_insert_eq in E2.
        simplify_eq. exfalso. by eapply Hc.
      * rewrite lookup_insert_ne in E2 by (apply not_eq_sym; auto). rewrite lookup_insert_eq in E1.
        simplify_eq. exfalso. eapply Hc; [apply H2|done|]. by rewrite <- Hk.
  - done.
  - intros l h. rewrite lookup_insert_Some. naive_solver.
  - intros l h. rewrite lookup_insert_Some. intros [[<- <-]|[Hl E]].
    + unfold pin, in_lru. simpl.
      rewrite decide_True by done. rewrite decide_True by (apply elem_of_app; right; by left).
      rewrite Hd by done. lia.
    + unfold pin. rewrite decide_False by done.
      rewrite (in_lru_ext _ c); [by apply Hr|]. simpl. rewrite elem_of_app, list_elem_of_singleton.
      naive_solver.
  - intros l. unfold pin. specialize (Hp l). case_decide; lia.
  - intros l. rewrite lookup_insert_None. intros [E Hl]. unfold pin.
    rewrite decide_False by done. by apply Hd.
  - intros l Hl. rewrite lookup_insert_None. split; [apply Hn; lia|lia].
  - rewrite total_charge_insert by done. rewrite Hu. unfold u64. simpl.
    rewrite Zplus_mod_idemp_l. f_equal. lia.
Qed.

(** One round of the eviction loop. *)
Lemma evict_step pn c old L w fuel :
  cache_inv pn c -> usage_ c > capacity_ c -> lru_ c = old :: L ->
  exists h, heap c !! old = Some h /\
  if decide (pn old = 0) then
    forall w', deleter (hkey h) (value h) w = Ret tt w' ->
    exists c', evict_loop deleter (S fuel) (c, w) = evict_loop deleter fuel (c', w') /\
      cache_inv pn c' /\ heap c' = delete old (heap c) /\ lru_ c' = L /\
      capacity_ c' = capacity_ c
  else
    exists c', evict_loop deleter (S fuel) (c, w) = evict_loop deleter fuel (c', w) /\
      cache_inv pn c' /\ same_shape c c' /\ lru_ c' = L.
Proof.
  intros Hinv Hover HL.
  assert (old ∈ lru_ c) as Hin by (rewrite HL; by left).
  assert (filter (fun x => x <> old) (lru_ c) = L) as HF.
  { pose proof (ent_nodup _ _ (ci_entries _ _ Hinv)) as Hnd. rewrite HL in Hnd |- *.
    apply list.NoDup_cons in Hnd as [Hn _]. rewrite filter_cons_False by naive_solver.
    apply filter_id. intros x Hx ->. done. }
  destruct (ent_live _ _ (ci_entries _ _ Hinv) _ Hin) as (h & E & Hh).
  pose proof (table_Remove_spec (heap c) (table_ c) _ (hkey h) (ci_entries _ _ Hinv)
    (ci_table _ _ Hinv)) as Hrem.
  rewrite (proj2 (lru_find_Some (heap c) (hkey h) (lru_ c) old (ci_entries _ _ Hinv))) in Hrem
    by eauto.
  destruct Hrem as (t' & Hr & Ht').
  destruct (drop_spec pn c old t' w Hinv Hin Ht') as (h' & E' & Hd).
  rewrite E in E'. injection E' as <-.
  exists h. split; [done|].
  assert (forall r, Unref deleter old
      (with_table t' (with_lru (filter (fun x => x <> old) (lru_ c)) c), w) = r ->
    evict_loop deleter (S fuel) (c, w) =
      match r with Ret _ s => evict_loop deleter fuel s | Exit code s => Exit code s
                 | UB u => UB u end) as Hrun.
  { intros r Hrun. cbn [evict_loop]. unfold bind at 1. cbn.
    replace (usage_ c >? capacity_ c) with true by (symmetry; apply Z.gtb_lt; lia).
    rewrite HL. cbn. rewrite E. cbn. rewrite Hh, Hr. cbn. unfold bind. by rewrite Hrun. }
  rewrite HF in *. case_decide.
  - intros w' Hdel. destruct (Hd w' Hdel) as (c' & H1 & H2). exists c'. rewrite (Hrun _ H1). exact (conj eq_refl H2).
  - destruct Hd as (c' & H1 & H2). exists c'. rewrite (Hrun _ H1). exact (conj eq_refl H2).
Qed.
(** [Insert] up to its eviction loop, when the key is not cached yet. *)
Lemma insert_fresh pn c key v chg w :
  cache_inv pn c -> Z.of_nat (length (lru_ c)) < 2 ^ 31 -> cached c key = None ->
  exists t', cache_inv (pin (next_loc c) pn) (add_entry key v chg t' c) /\
    LRU_Insert deleter key (hashf key) v chg (c, w) =
      (evict_loop deleter (S (length (lru_ c ++ [next_loc c]))) ;;; ret (next_loc c))
        (add_entry key v chg t' c, w).
Proof.
  intros Hinv Hroom Hc. pose proof Hinv as [He Ht Hh Hr Hp Hd Hn Hu].
  pose proof (fresh_meta _ _ (new_entry key v chg) Hinv) as Hm.
  destruct (table_Insert_spec (<[next_loc c := new_entry key v chg]> (heap c)) (table_ c) (lru_ c)
              (next_loc c) (new_entry key v chg)) as (t' & Hins & Ht').
  - apply lookup_insert_eq.
  - done.
  - by eapply fresh_not_in_lru.
  - done.
  - by eapply entries_ok_meta.
  - by eapply table_ok_meta.
  - assert (lru_find (<[next_loc c := new_entry key v chg]> (heap c)) key (lru_ c) = None) as Hnone.
    { apply lru_find_None; [by eapply entries_ok_meta|]. intros l h Hl E.
      rewrite lookup_insert_ne in E by (intros <-; by eapply fresh_not_in_lru).
      unfold cached in Hc. rewrite lru_find_None in Hc by done. by eapply Hc. }
    simpl in Hins, Ht'. rewrite Hnone in Hins, Ht'.
    exists t'. split; [by apply inv_add|].
    unfold LRU_Insert. cbn. unfold new_entry in Hins. rewrite Hins. done.
Qed.

(** The run of [Insert] up to its eviction loop when the table returns [old]. *)
Lemma replace_run c w key v chg old t' c' w' : old <> next_loc c ->
  table_Insert (<[next_loc c := new_entry key v chg]> (heap c)) (table_ c) (next_loc c) = Some (Some old, t') ->
  Unref deleter old (add_entry key v chg t' (with_lru (filter (fun x => x <> old) (lru_ c)) c), w) = Ret tt (c', w') ->
  LRU_Insert deleter key (hashf key) v chg (c, w) =
    (evict_loop deleter (S (length (lru_ c'))) ;;; ret (next_loc c)) (c', w').
Proof.
  intros Hne Hins HU. unfold LRU_Insert. unfold new_entry in Hins. cbn. rewrite Hins.
  cbn [on_shard modify bind shard gets deref ret fst snd with_table]. unfold bind at 1.
  unfold bind at 1. cbn [LRU_Remove on_shard modify with_lru lru_ fst snd].
  match goal with |- context [Unref _ _ (?s, w)] =>
    assert (s = add_entry key v chg t' (with_lru (filter (fun x => x <> old) (lru_ c)) c)) as -> end; [|by rewrite HU].
  unfold add_entry, with_lru, with_table, with_usage. cbn.
  rewrite list.filter_app, (filter_cons_True _ _ []) by done. done.
Qed.

(** The cache with [old] unlinked and the new entry in its place. *)
Lemma replace_inv pn c key v chg old :
  cache_inv pn c -> Z.of_nat (length (lru_ c)) < 2 ^ 31 -> cached c key = Some old ->
  exists t', table_Insert (<[next_loc c := new_entry key v chg]> (heap c)) (table_ c) (next_loc c) = Some (Some old, t') /\
    cache_inv (pin (next_loc c) (pin old pn)) (add_entry key v chg t' (with_lru (filter (fun x => x <> old) (lru_ c)) c)).
Proof.
  intros Hinv Hroom Hc. pose proof Hinv as [He Ht _ _ _ _ _ _].
  pose proof (fresh_not_in_lru _ _ Hinv) as Hfresh. pose proof (fresh_meta _ _ (new_entry key v chg) Hinv) as Hm.
  pose proof Hc as Hc'. apply (cached_Some pn) in Hc' as (Hin & vold & Hlive); [|done].
  apply live_lookup in Hlive as (hold & Eold & Hkold & Hvold). assert (old <> next_loc c) as Hne by (intros ->; done).
  assert (entries_ok (<[next_loc c := new_entry key v chg]> (heap c)) (lru_ c)) as He' by by eapply entries_ok_meta.
  destruct (table_Insert_spec (<[next_loc c := new_entry key v chg]> (heap c)) (table_ c) (lru_ c)
              (next_loc c) (new_entry key v chg)) as (t' & Hins & Ht');
    [apply lookup_insert_eq|done|done|done|done|by eapply table_ok_meta|].
  assert (lru_find (<[next_loc c := new_entry key v chg]> (heap c)) key (lru_ c) = Some old) as Hs.
  { apply lru_find_Some; [done|]. split; [done|]. exists hold. by rewrite lookup_insert_ne. }
  simpl in Hins, Ht'. rewrite Hs in Hins, Ht'. exists t'. split; [done|].
  pose proof (table_Remove_spec (heap c) (table_ c) _ key He Ht) as Hrem.
  unfold cached in Hc. rewrite Hc in Hrem. destruct Hrem as (t0 & _ & Ht0).
  pose proof (inv_detach _ _ _ _ Hinv Hin Ht0) as Hinv0.
  apply (inv_add _ (with_table t0 (with_lru (filter (fun x => x <> old) (lru_ c)) c)) key v chg t' Hinv0); [|done].
  apply (cached_None _ _ _ Hinv0). intros l v' Hl (h & E & Hk & _)%live_lookup.
  simpl in Hl, E. apply list_elem_of_filter in Hl as [Hl1 Hl2]. apply Hl1.
  eapply (ent_unique _ _ He); [done|done|done|done|congruence].
Qed.

(** [Insert] up to its eviction loop, when it replaces the entry [old]. *)
Lemma insert_replace pn c key v chg w old :
  cache_inv pn c -> Z.of_nat (length (lru_ c)) < 2 ^ 31 -> cached c key = Some old ->
  exists vold c0, live c !! old = Some (key, vold) /\
    heap c0 = <[next_loc c := new_entry key v chg]> (heap c) /\
    lru_ c0 = filter (fun x => x <> old) (lru_ c) ++ [next_loc c] /\
    capacity_ c0 = capacity_ c /\
  if decide (pn old = 0) then
    forall w', deleter key vold w = Ret tt w' ->
    exists c1, cache_inv (pin (next_loc c) pn) c1 /\ heap c1 = delete old (heap c0) /\
      lru_ c1 = lru_ c0 /\ capacity_ c1 = capacity_ c /\
      LRU_Insert deleter key (hashf key) v chg (c, w) =
        (evict_loop deleter (S (length (lru_ c1))) ;;; ret (next_loc c)) (c1, w')
  else
    exists c1, cache_inv (pin (next_loc c) pn) c1 /\ same_shape c0 c1 /\ lru_ c1 = lru_ c0 /\
      LRU_Insert deleter key (hashf key) v chg (c, w) =
        (evict_loop deleter (S (length (lru_ c1))) ;;; ret (next_loc c)) (c1, w).
Proof.
  intros Hinv Hroom Hc. pose proof Hc as Hc'. apply (cached_Some pn) in Hc' as (Hin & vold & Hlive); [|done].
  pose proof Hlive as (hold & Eold & Hkold & Hvold)%live_lookup.
  assert (old <> next_loc c) as Hne by (intros ->; by apply (fresh_not_in_lru _ _ Hinv)).
  destruct (replace_inv pn c key v chg old Hinv Hroom Hc) as (t' & Hins & Hinv1).
  pose proof (replace_run c w key v chg old t') as Hrun.
  set (c0 := add_entry key v chg t' (with_lru (filter (fun x => x <> old) (lru_ c)) c)) in *.
  exists vold, c0. split; [done|]. do 3 (split; [done|]).
  assert (pin (next_loc c) (pin old pn) old = pn old + 1) as Hpold.
  { unfold pin. rewrite decide_False, decide_True by done. done. }
  assert (old ∉ lru_ c0) as Hnin.
  { simpl. rewrite elem_of_app, list_elem_of_filter, list_elem_of_singleton. naive_solver. }
  assert (forall c', cache_inv (unpin old (pin (next_loc c) (pin old pn))) c' ->
            cache_inv (pin (next_loc c) pn) c') as Hext.
  { intros c'. apply cache_inv_ext. intros x. unfold pin, unpin. repeat case_decide; lia. }
  destruct (Unref_spec _ _ old w Hinv1) as (h & E & HU).
  { rewrite Hpold. pose proof (ci_pins _ _ Hinv old). lia. }
  simpl in E. rewrite lookup_insert_ne in E by done. rewrite Eold in E. injection E as <-.
  rewrite Hkold, Hvold in HU.
  destruct (decide (pn old = 0)) as [Hz|Hz].
  - rewrite decide_True in HU by (split; [lia|done]). intros w' Hdel.
    destruct (HU w' Hdel) as (c1 & H1 & H2 & H3 & H4 & H5). exists c1.
    split; [auto|]. rewrite (Hrun _ _ Hne Hins H1). done.
  - rewrite decide_False in HU by lia.
    destruct HU as (c1 & H1 & H2 & H3 & H4 & H5 & H6). exists c1.
    split; [auto|]. rewrite (Hrun _ _ Hne Hins H1). done.
Qed.
(** *** Eviction with arbitrary charges *)

(** The entries of [L] that nobody uses, oldest first, with their keys and values. *)
Definition unused pn c L : list (bytes * V) := omap (fun l => live c !! l) (filter (fun l => pn l = 0) L).

Fixpoint run_deleters (es : list (bytes * V)) : prog W unit :=
  match es with
  | [] => ret tt
  | (k, v) :: es' => deleter k v ;;; run_deleters es'
  end.

(** The charges left when the [m] oldest entries are gone. *)
Definition sum_charges (cs : gmap nat Z) : Z := map_fold (fun _ x acc => x + acc) 0 cs.

Definition gone_after pn c (m l : nat) : Prop := l ∈ take m (lru_ c) /\ pn l = 0.

Definition charge_after pn c (m : nat) : Z :=
  sum_charges (filter (fun lx => ~ gone_after pn c m lx.1) (charge <$> heap c)).

(** [n] entries were evicted: the oldest ones, each of them because the charges
    exceeded the capacity; those nobody uses are freed after their deleters ran, in
    that order, and every other handle stays. *)
Record evicted pn c w (n : nat) c' w' : Prop := {
  ev_list : lru_ c' = drop n (lru_ c);
  ev_capacity : capacity_ c' = capacity_ c;
  ev_live : forall l, live c' !! l = if decide (gone_after pn c n l) then None else live c !! l;
  ev_deleted : run_deleters (unused pn c (take n (lru_ c))) w = Ret tt w';
  ev_needed : forall m, (m < n)%nat -> capacity_ c < u64 (charge_after pn c m)
}.

Lemma evicted_none pn c w : evicted pn c w 0 c w.
Proof.
  split; [done|done| |done|lia]. intros l. rewrite decide_False; [done|]. intros [H _].
  by apply not_elem_of_nil in H.
Qed.

Lemma total_charge_sum hp : total_charge hp = sum_charges (charge <$> hp).
Proof. unfold total_charge, sum_charges. by rewrite map_fold_fmap. Qed.

Lemma live_delete c c' l : heap c' = delete l (heap c) -> live c' = delete l (live c).
Proof. intros E. unfold live. by rewrite E, fmap_delete. Qed.

Lemma unused_ext pn c c' L : (forall l, l ∈ L -> live c' !! l = live c !! l) -> unused pn c' L = unused pn c L.
Proof.
  intros H. unfold unused. induction L as [|x L IH]; [done|].
  rewrite !filter_cons. case_decide; cbn [omap list_omap]; rewrite ?(H x) by (by left);
    by rewrite IH by (intros l Hl; apply H; by right).
Qed.

(** One round of the loop in front of a run of the others. *)
Lemma evicted_step pn c old L w c1 w1 n c' w' :
  cache_inv pn c -> capacity_ c < usage_ c -> lru_ c = old :: L -> old ∉ L -> lru_ c1 = L ->
  capacity_ c1 = capacity_ c ->
  (forall l, live c1 !! l = if decide (l = old /\ pn old = 0) then None else live c !! l) ->
  charge <$> heap c1 = filter (fun lx => ~ (lx.1 = old /\ pn old = 0)) (charge <$> heap c) ->
  run_deleters (unused pn c [old]) w = Ret tt w1 ->
  evicted pn c1 w1 n c' w' -> evicted pn c w (S n) c' w'.
Proof.
  intros Hinv Hover HL Hnin HL1 Hcap Hlive Hch Hdel [E1 E2 E3 E4 E5].
  assert (forall m l, gone_after pn c (S m) l <-> (l = old /\ pn old = 0) \/ gone_after pn c1 m l) as Hgone.
  { intros m l. unfold gone_after. rewrite HL, HL1. cbn [take]. rewrite elem_of_cons. naive_solver. }
  split.
  - by rewrite E1, HL1, HL.
  - by rewrite E2.
  - intros l. rewrite E3, Hlive. pose proof (Hgone n l) as Hg. repeat case_decide; naive_solver.
  - rewrite HL. cbn [take]. change (old :: take n L) with ([old] ++ take n L). unfold unused in *.
    rewrite list.filter_app, omap_app. revert Hdel. rewrite HL1 in E4.
    fold (unused pn c (take n L)). rewrite <- (unused_ext pn c c1) by (intros l Hl; rewrite Hlive, decide_False;
      [done|intros [-> _]; apply Hnin; by eapply elem_of_sublist; [apply sublist_take|exact Hl]]).
    generalize (omap (fun l => live c !! l) (filter (fun l => pn l = 0) [old])). intros es. revert w.
    induction es as [|[k v] es IH]; intros w Hrun; cbn [run_deleters app] in *.
    + injection Hrun as ->. exact E4.
    + apply bind_inv in Hrun as ([] & w2 & H1 & H2). erewrite bind_Ret by exact H1. by apply IH.
  - intros [|m] Hm.
    + unfold charge_after. rewrite map_filter_id.
      * rewrite <- total_charge_sum, <- (ci_usage _ _ Hinv). done.
      * intros i x _ [H _]. by apply not_elem_of_nil in H.
    + replace (charge_after pn c (S m)) with (charge_after pn c1 m); [rewrite <- Hcap; apply E5; lia|].
      unfold charge_after. rewrite Hch, map_filter_filter. f_equal. apply map_filter_ext.
      intros i x _. cbn. rewrite Hgone. naive_solver.
Qed.

Lemma evict_loop_spec pn c w w0 fuel :
  cache_inv pn c -> run_deleters (unused pn c (lru_ c)) w = Ret tt w0 -> (length (lru_ c) < fuel)%nat ->
  exists n c' w', evict_loop deleter fuel (c, w) = Ret tt (c', w') /\ cache_inv pn c' /\
    evicted pn c w n c' w' /\ (usage_ c' <= capacity_ c' \/ lru_ c' = []).
Proof.
  revert c w. induction fuel as [|fuel IH]; intros c w Hinv Hdel Hf; [lia|].
  destruct (Z.leb_spec (usage_ c) (capacity_ c)) as [Hle|Hgt].
  { exists 0%nat, c, w. split; [|split; [done|split; [apply evicted_none|by left]]].
    cbn. replace (usage_ c >? capacity_ c) with false; [done|]. symmetry. rewrite Z.gtb_ltb. apply Z.ltb_ge. lia. }
  destruct (lru_ c) as [|old L] eqn:HL.
  { exists 0%nat, c, w. split; [|split; [done|split; [apply evicted_none|by right]]].
    cbn. rewrite HL. by destruct (_ >? _). }
  destruct (evict_step pn c old L w fuel Hinv ltac:(lia) HL) as (h & E & Hstep).
  assert (old ∉ L) as Hnin.
  { pose proof (ent_nodup _ _ (ci_entries _ _ Hinv)) as Hnd. rewrite HL in Hnd.
    by apply list.NoDup_cons in Hnd as [? _]. }
  assert (live c !! old = Some (hkey h, value h)) as Hold by (unfold live; by rewrite lookup_fmap, E).
  assert (exists c1 w1, evict_loop deleter (S fuel) (c, w) = evict_loop deleter fuel (c1, w1) /\
    cache_inv pn c1 /\ lru_ c1 = L /\ capacity_ c1 = capacity_ c /\
    (forall l, live c1 !! l = if decide (l = old /\ pn old = 0) then None else live c !! l) /\
    charge <$> heap c1 = filter (fun lx => ~ (lx.1 = old /\ pn old = 0)) (charge <$> heap c) /\
    run_deleters (unused pn c [old]) w = Ret tt w1 /\ run_deleters (unused pn c L) w1 = Ret tt w0)
    as (c1 & w1 & Hrun & Hinv1 & HL1 & Hcap & Hlive & Hch & Hd1 & Hd2).
  { unfold unused in Hdel |- *. rewrite filter_cons in Hdel. rewrite filter_cons. cbn [filter list_filter].
    destruct (decide (pn old = 0)) as [Hz|Hz].
    - cbn [omap list_omap run_deleters] in *. rewrite Hold in *. cbn [run_deleters] in *.
      apply bind_inv in Hdel as ([] & w' & Hw' & Hdel).
      destruct (Hstep w' Hw') as (c1 & H1 & H2 & H3 & H4 & H5). exists c1, w'. split_and!; try done.
      + intros l. rewrite (live_delete _ _ _ H3). destruct (decide (l = old)) as [->|Hne].
        * by rewrite decide_True, lookup_delete_eq.
        * rewrite decide_False by naive_solver. by rewrite lookup_delete_ne.
      + rewrite H3, fmap_delete. apply map_eq. intros i. rewrite map_lookup_filter.
        destruct (decide (i = old)) as [->|Hne]; [rewrite lookup_delete_eq|rewrite lookup_delete_ne by done].
        * by destruct ((charge <$> heap c) !! old) as [x|]; cbn; [rewrite option_guard_False by naive_solver|].
        * by destruct ((charge <$> heap c) !! i) as [x|]; cbn; [rewrite option_guard_True by naive_solver|].
      + by erewrite bind_Ret by exact Hw'.
    - destruct Hstep as (c1 & H1 & H2 & (H3 & H4 & H5) & H6). exists c1, w. split_and!; try done.
      + intros l. rewrite decide_False by naive_solver. by rewrite H3.
      + rewrite H5. symmetry. apply map_filter_id. naive_solver. }
  destruct (IH c1 w1 Hinv1) as (n & c' & w' & Hrun' & Hinv' & Hev & Hfin).
  { rewrite HL1, (unused_ext pn c c1); [done|]. intros l Hl. rewrite Hlive, decide_False; [done|].
    intros [-> _]. done. }
  { rewrite HL1. simpl in Hf. lia. }
  exists (S n), c', w'. rewrite Hrun. split; [done|]. split; [done|]. split; [|done].
  by eapply (evicted_step pn c old L).
Qed.

(** *** Insertion with unit charges, as the inode cache uses it *)

Definition unit_charges c : Prop := forall l h, heap c !! l = Some h -> charge h = 1.

Lemma total_charge_unit hp :
  (forall l h, hp !! l = Some h -> charge h = 1) -> total_charge hp = Z.of_nat (size hp).
Proof.
  induction hp as [|l h hp Hl IH] using map_ind; intros Hu; [done|].
  rewrite total_charge_insert, map_size_insert_None by done.
  rewrite (Hu l h) by apply lookup_insert_eq. rewrite IH; [lia|].
  intros x hx Hx. apply (Hu x). rewrite lookup_insert_ne; [done|]. intros ->. congruence.
Qed.

(** The capacity bounds the handles alive; it keeps their number within the 32
    bits of [elems_]. *)
Definition bounded c : Prop :=
  unit_charges c /\ 1 < capacity_ c < 2 ^ 31 /\ Z.of_nat (size (heap c)) <= capacity_ c.

Lemma bounded_shape c c' : same_shape c c' -> bounded c -> bounded c'.
Proof.
  intros (Hl & Hc & Hch) (Hu & Hcap & Hsz). split; [|split].
  - intros l h' E. assert ((charge <$> heap c') !! l = Some (charge h')) as Ech
      by by rewrite lookup_fmap, E. rewrite Hch, lookup_fmap in Ech.
    destruct (heap c !! l) as [h|] eqn:Eh; [|done]. simpl in Ech.
    injection Ech as <-. by eapply Hu.
  - by rewrite Hc.
  - rewrite Hc. rewrite <- (map_size_fmap charge (heap c')), Hch, map_size_fmap. done.
Qed.

Lemma bounded_usage pn c : cache_inv pn c -> unit_charges c -> Z.of_nat (size (heap c)) < 2 ^ 64 ->
  usage_ c = Z.of_nat (size (heap c)).
Proof.
  intros Hinv Hu Hs. rewrite (ci_usage _ _ Hinv), total_charge_unit by done.
  apply u64_small. lia.
Qed.
(** Inserting will not push out an entry that is in use. *)
Definition evict_safe pn c : Prop :=
  Z.of_nat (size (heap c)) < capacity_ c \/ exists l L, lru_ c = l :: L /\ pn l = 0.

Lemma lru_length pn c : cache_inv pn c -> bounded c -> Z.of_nat (length (lru_ c)) < 2 ^ 31.
Proof.
  clear deleter. intros Hinv (_ & Hcap & Hsz).
  assert (length (lru_ c) <= size (heap c))%nat; [|lia].
  rewrite <- size_dom, <- (size_list_to_set (C := gset nat) (lru_ c)) by apply (ci_entries _ _ Hinv).
  apply subseteq_size. intros l Hl%elem_of_list_to_set. apply elem_of_dom.
  destruct (ent_live _ _ (ci_entries _ _ Hinv) l Hl) as (h & E & _). by exists h.
Qed.

Lemma evict_done c w fuel : usage_ c <= capacity_ c -> evict_loop deleter (S fuel) (c, w) = Ret tt (c, w).
Proof.
  intros Hle. cbn.
  replace (usage_ c >? capacity_ c) with false; [done|].
  symmetry. rewrite Z.gtb_ltb. apply Z.ltb_ge. lia.
Qed.

Lemma unit_charges_sub c c' :
  heap c' ⊆ heap c -> unit_charges c -> unit_charges c'.
Proof. intros Hs Hu l h E. eapply Hu. by eapply lookup_weaken. Qed.

Lemma unit_charges_add c key v t' : unit_charges c -> unit_charges (add_entry key v 1 t' c).
Proof. clear deleter. intros Hu l h. simpl. rewrite lookup_insert_Some. naive_solver. Qed.

(** The outcome of an insertion: nothing is dropped, or one entry [l] that no one
    uses is, after its deleter ran. *)
Definition inserted pn c key v w c' w' : Prop :=
  (cached c key = None /\ w' = w /\ live c' = <[next_loc c := (key, v)]> (live c) /\
   lru_ c' = lru_ c ++ [next_loc c]) \/
  (exists l k1 v1, (cached c key = None \/ cached c key = Some l) /\ l ∈ lru_ c /\ pn l = 0 /\
   live c !! l = Some (k1, v1) /\ deleter k1 v1 w = Ret tt w' /\
   live c' = <[next_loc c := (key, v)]> (delete l (live c)) /\
   lru_ c' = filter (fun x => x <> l) (lru_ c) ++ [next_loc c]).

Definition droppable pn c w : Prop :=
  forall l k1 v1, l ∈ lru_ c -> pn l = 0 -> live c !! l = Some (k1, v1) ->
    exists w', deleter k1 v1 w = Ret tt w'.

Lemma LRU_Insert_fresh pn c key v w :
  cache_inv pn c -> bounded c -> cached c key = None -> evict_safe pn c -> droppable pn c w ->
  exists c' w', LRU_Insert deleter key (hashf key) v 1 (c, w) = Ret (next_loc c) (c', w') /\
    cache_inv (pin (next_loc c) pn) c' /\ bounded c' /\ inserted pn c key v w c' w'.
Proof.
  intros Hinv Hbd Hc Hsafe Hdrop. pose proof Hbd as (Hu & Hcap & Hsz).
  destruct (insert_fresh pn c key v 1 w Hinv (lru_length _ _ Hinv Hbd) Hc) as (t' & Hinv1 & Hrun).
  set (c1 := add_entry key v 1 t' c) in *.
  assert (heap c !! next_loc c = None) as Hfree by (apply Hinv; lia).
  assert (size (heap c1) = S (size (heap c))) as Hs1 by by apply map_size_insert_None.
  assert (unit_charges c1) as Hu1 by by apply unit_charges_add.
  pose proof (bounded_usage _ _ Hinv1 Hu1 ltac:(lia)) as Hus.
  assert (live c1 = <[next_loc c := (key, v)]> (live c)) as Hl1
    by (unfold live; simpl; by rewrite fmap_insert).
  assert (capacity_ c1 = capacity_ c) as Hc1 by done.
  destruct (decide (Z.of_nat (size (heap c)) < capacity_ c)) as [Hlt|Hfull].
  - exists c1, w. rewrite Hrun. unfold bind. rewrite evict_done by lia.
    split; [done|]. split; [done|]. split; [|by left].
    split; [done|]. lia.
  - destruct Hsafe as [?|(old & L & HL & Hpn)]; [lia|].
    destruct (evict_step _ c1 old (L ++ [next_loc c]) w (S (length (L ++ [next_loc c]))) Hinv1)
      as (h & E & Hstep).
    { lia. }
    { simpl. by rewrite HL. }
    assert (old <> next_loc c) as Hne.
    { intros ->. apply (fresh_not_in_lru _ _ Hinv). rewrite HL. by left. }
    rewrite decide_True in Hstep by (unfold pin; by rewrite decide_False).
    simpl in E. rewrite lookup_insert_ne in E by done.
    assert (live c !! old = Some (hkey h, value h)) as Hlo by (apply live_lookup; eauto).
    destruct (Hdrop old (hkey h) (value h)) as [w' Hw']; [rewrite HL; by left|done|done|].
    destruct (Hstep w' Hw') as (c' & H1 & H2 & H3 & H4 & H5). exists c', w'.
    assert (size (heap c') = size (heap c)) as Hsz'.
    { rewrite H3, map_size_delete. simpl. rewrite lookup_insert_ne, E by done.
      rewrite map_size_insert_None by done. lia. }
    assert (unit_charges c') as Hu'.
    { eapply unit_charges_sub; [|exact Hu1]. rewrite H3. apply delete_subseteq. }
    assert (filter (fun x => x <> old) (lru_ c) = L) as HF.
    { pose proof (ent_nodup _ _ (ci_entries _ _ Hinv)) as Hnd. rewrite HL in Hnd |- *.
      apply list.NoDup_cons in Hnd as [Hn _]. rewrite filter_cons_False by naive_solver.
      apply filter_id. intros x Hx ->. done. }
    rewrite Hrun. rewrite HL. simpl length. unfold bind. rewrite H1, evict_done.
    + split; [done|]. split; [done|]. split.
      { split; [done|]. lia. }
      right. exists old, (hkey h), (value h). split; [by left|]. split; [rewrite HL; by left|].
      do 3 (split; [done|]). split; [|by rewrite HF].
      rewrite (live_delete _ _ _ H3), Hl1. by rewrite delete_insert_ne.
    + rewrite (bounded_usage _ _ H2 Hu') by lia. lia.
Qed.

Lemma LRU_Insert_replace pn c key v w old :
  cache_inv pn c -> bounded c -> cached c key = Some old -> pn old = 0 -> droppable pn c w ->
  exists c' w', LRU_Insert deleter key (hashf key) v 1 (c, w) = Ret (next_loc c) (c', w') /\
    cache_inv (pin (next_loc c) pn) c' /\ bounded c' /\ inserted pn c key v w c' w'.
Proof.
  intros Hinv Hbd Hc Hpn Hdrop. pose proof Hbd as (Hu & Hcap & Hsz).
  destruct (insert_replace pn c key v 1 w old Hinv (lru_length _ _ Hinv Hbd) Hc) as (vold & c0 & Hlive & Hh0 & HL0 & Hc0 & Hr).
  rewrite decide_True in Hr by done.
  pose proof Hc as Hc'. apply (cached_Some pn) in Hc' as [Hin _]; [|done].
  destruct (Hdrop old key vold Hin Hpn Hlive) as [w' Hw'].
  destruct (Hr w' Hw') as (c1 & Hinv1 & Hh1 & HL1 & Hcap1 & Hrun).
  assert (heap c !! next_loc c = None) as Hfree by (apply Hinv; lia).
  assert (old <> next_loc c) as Hne by (intros ->; by apply (fresh_not_in_lru _ _ Hinv)).
  apply live_lookup in Hlive as (h & E & Hk & Hv).
  assert (size (heap c1) = size (heap c)) as Hs1.
  { rewrite Hh1, Hh0, map_size_delete, lookup_insert_ne, E by done.
    rewrite map_size_insert_None by done. lia. }
  assert (unit_charges c1) as Hu1.
  { intros l hl. rewrite Hh1, Hh0, lookup_delete_Some, lookup_insert_Some. naive_solver. }
  exists c1, w'. rewrite Hrun. unfold bind.
  rewrite evict_done by (rewrite (bounded_usage _ _ Hinv1 Hu1) by lia; lia).
  split; [done|]. split; [done|]. split; [split; [done|lia]|].
  right. exists old, key, vold. split; [by right|]. split; [done|]. split; [done|].
  split; [apply live_lookup; eauto|]. split; [done|]. split; [|by rewrite HL1].
  rewrite (live_delete _ _ _ Hh1). unfold live. rewrite Hh0, fmap_insert.
  by rewrite delete_insert_ne.
Qed.
End shard_facts.

(** * Properties of the sharded cache *)

Section sharded_facts.
Context {V W : Type}.
Implicit Types (C : ShardedLRUCache V) (c : LRUCache V) (w : W) (PN : nat * nat -> Z).

(** A handle is identified by its shard and its location there. *)
Definition hid (h : Cache_Handle) : nat * nat := (Shard (ch_hash h), ch_loc h).

(** The client's view: which handles are alive, and which of them the cache
    would return from a lookup. *)
Definition clive C (id : nat * nat) : option (bytes * V) :=
  c ← shard_ C !! id.1; live c !! id.2.
Definition tabled C (id : nat * nat) : Prop :=
  exists c, shard_ C !! id.1 = Some c /\ id.2 ∈ lru_ c.

Definition shard_pins PN (i : nat) : nat -> Z := fun l => PN (i, l).

Record shard_inv PN (i : nat) c : Prop := {
  sh_inv : cache_inv HashSlice (shard_pins PN i) c;
  sh_bounded : bounded c;
  sh_keys : forall l k v, live c !! l = Some (k, v) -> Shard (HashSlice k) = i
}.

Record sharded_inv PN C : Prop := {
  si_len : length (shard_ C) = Z.to_nat kNumShards;
  si_shard : forall i c, shard_ C !! i = Some c -> shard_inv PN i c;
  si_out : forall i l, shard_ C !! i = None -> PN (i, l) = 0
}.

Lemma pins_dead PN C id : sharded_inv PN C -> clive C id = None -> PN id = 0.
Proof.
  intros [_ Hs Ho] E. destruct id as [i l]. unfold clive in E. cbn [fst snd] in E.
  destruct (shard_ C !! i) as [c|] eqn:Ec; [|by apply Ho]. destruct (Hs i c Ec) as [Hc _ _].
  apply (ci_dead _ _ _ Hc). cbn in E. unfold live in E. rewrite lookup_fmap in E. by destruct (heap c !! l).
Qed.

Definition Pin (id : nat * nat) PN : nat * nat -> Z :=
  fun x => if decide (x = id) then PN x + 1 else PN x.
Definition Unpin (id : nat * nat) PN : nat * nat -> Z :=
  fun x => if decide (x = id) then PN x - 1 else PN x.

Definition upd_shard (i : nat) c' C : ShardedLRUCache V :=
  mkSharded (<[i := c']> (shard_ C)) (last_id_ C).

(** The most recently used entry of its shard. *)
Definition newest C (id : nat * nat) : Prop :=
  exists c L, shard_ C !! id.1 = Some c /\ lru_ c = L ++ [id.2].

Definition csafe PN C (key : bytes) : Prop :=
  forall c, shard_ C !! Shard (HashSlice key) = Some c ->
    evict_safe (shard_pins PN (Shard (HashSlice key))) c.

Lemma Shard_lt key : (Shard (HashSlice key) < Z.to_nat kNumShards)%nat.
Proof.
  unfold Shard, HashSlice. pose proof (Hash_range key 0 ltac:(lia)) as Hr.
  change kNumShards with 16. change (32 - kNumShardBits) with 28.
  rewrite Z.shiftr_div_pow2 by lia.
  assert (0 <= Hash key 0 / 2 ^ 28 < 16); [|lia].
  split; [apply Z.div_pos; lia|]. apply Z.div_lt_upper_bound; lia.
Qed.

Lemma shard_of PN C key : sharded_inv PN C -> exists c,
  shard_ C !! Shard (HashSlice key) = Some c /\ shard_inv PN (Shard (HashSlice key)) c.
Proof.
  intros [Hlen Hs _]. destruct (shard_ C !! Shard (HashSlice key)) as [c|] eqn:E; [eauto|].
  apply lookup_ge_None in E. pose proof (Shard_lt key). lia.
Qed.

Lemma in_shard_Ret {A} i (m : prog (LRUCache V * W) A) C c w a c' w' :
  shard_ C !! i = Some c -> m (c, w) = Ret a (c', w') ->
  in_shard i m (C, w) = Ret a (upd_shard i c' C, w').
Proof. intros E Hm. unfold in_shard. simpl. by rewrite E, Hm. Qed.

Lemma clive_upd i c c' C id :
  shard_ C !! i = Some c ->
  clive (upd_shard i c' C) id = if decide (id.1 = i) then live c' !! id.2 else clive C id.
Proof.
  intros E. unfold clive, upd_shard. simpl. case_decide as Hi.
  - subst. rewrite list_lookup_insert_eq; [done|]. by eapply lookup_lt_Some.
  - by rewrite list_lookup_insert_ne.
Qed.

Lemma tabled_upd i c c' C id :
  shard_ C !! i = Some c ->
  tabled (upd_shard i c' C) id <-> if decide (id.1 = i) then id.2 ∈ lru_ c' else tabled C id.
Proof.
  intros E. unfold tabled, upd_shard. simpl. case_decide as Hi.
  - subst. rewrite list_lookup_insert_eq by by eapply lookup_lt_Some. naive_solver.
  - by rewrite list_lookup_insert_ne.
Qed.

Lemma tabled_iff C i c l : shard_ C !! i = Some c -> tabled C (i, l) <-> l ∈ lru_ c.
Proof. intros E. unfold tabled. cbn [fst snd]. rewrite E. naive_solver. Qed.

Lemma clive_iff C i c l : shard_ C !! i = Some c -> clive C (i, l) = live c !! l.
Proof. intros E. unfold clive. cbn [fst snd]. by rewrite E. Qed.

Lemma sharded_inv_upd PN PN' C i c c' :
  sharded_inv PN C -> shard_ C !! i = Some c -> shard_inv PN' i c' ->
  (forall j l, j <> i -> PN' (j, l) = PN (j, l)) -> sharded_inv PN' (upd_shard i c' C).
Proof.
  intros [Hlen Hs Ho] E Hc' HPN. split; simpl.
  - by rewrite length_insert.
  - intros j cj Hj. apply list_lookup_insert_Some in Hj as [(<- & <- & _)|[Hne Hj]]; [done|].
    destruct (Hs j cj Hj) as [Hinv Hb Hk]. split; [|done|done].
    eapply cache_inv_ext; [|exact Hinv]. intros l. symmetry. by apply HPN.
  - intros j l Hj. destruct (decide (j = i)) as [->|Hne].
    + rewrite list_lookup_insert_eq in Hj by by eapply lookup_lt_Some. done.
    + rewrite list_lookup_insert_ne in Hj by done. rewrite HPN by done. by apply Ho.
Qed.

(** Lookups find exactly the entry of the table with the key. *)
Definition ccached C (key : bytes) : option (nat * nat) :=
  let i := Shard (HashSlice key) in
  c ← shard_ C !! i; l ← cached c key; Some (i, l).

Lemma ccached_Some PN C key id :
  sharded_inv PN C ->
  ccached C key = Some id <-> tabled C id /\ exists v, clive C id = Some (key, v).
Proof.
  intros Hinv. destruct (shard_of _ _ key Hinv) as (c & E & [Hc Hb Hk]).
  unfold ccached. rewrite E. cbn [mbind option_bind]. destruct id as [i l]. split.
  - intros H. destruct (cached c key) as [l'|] eqn:Ec; [|done]. injection H as <- <-.
    apply (cached_Some HashSlice _ _ _ _ Hc) in Ec as [Hin [v Hv]].
    unfold tabled, clive. cbn [fst snd]. rewrite E. split; [by exists c|by exists v].
  - intros ((c' & E' & Hin) & v & Hv). unfold clive in Hv. cbn [fst snd] in *.
    rewrite E' in Hv. cbn in Hv.
    pose proof (sh_keys _ _ _ (si_shard _ _ Hinv i c' E') _ _ _ Hv) as Hi. subst i.
    rewrite E in E'. injection E' as <-.
    assert (cached c key = Some l) as ->; [|done].
    apply (cached_Some HashSlice _ _ _ _ Hc). split; [done|]. by exists v.
Qed.
Lemma pin_shard PN i l x : pin l (shard_pins PN i) x = shard_pins (Pin (i, l) PN) i x.
Proof. unfold pin, shard_pins, Pin. do 2 case_decide; naive_solver. Qed.

Lemma unpin_shard PN i l x : unpin l (shard_pins PN i) x = shard_pins (Unpin (i, l) PN) i x.
Proof. unfold unpin, shard_pins, Unpin. do 2 case_decide; naive_solver. Qed.

(** Nothing a client can see changed. *)
Definition same_view C C' : Prop :=
  (forall id, clive C' id = clive C id) /\ (forall id, tabled C' id <-> tabled C id).

Lemma same_view_upd C i c c' :
  shard_ C !! i = Some c -> live c' = live c -> (forall l, l ∈ lru_ c' <-> l ∈ lru_ c) ->
  same_view C (upd_shard i c' C).
Proof.
  intros E Hl Hin. split; intros [j l].
  - rewrite (clive_upd _ _ _ _ _ E). case_decide as Hj; [|done]. cbn in Hj. subst.
    unfold clive. cbn [fst snd]. by rewrite E, Hl.
  - rewrite (tabled_upd _ _ _ _ _ E). case_decide as Hj; [|done]. cbn in Hj. subst.
    unfold tabled. cbn [fst snd]. rewrite E, Hin. naive_solver.
Qed.

Lemma lru_rotate (l : nat) (L : list nat) :
  l ∈ L -> forall x, x ∈ filter (fun y => y <> l) L ++ [l] <-> x ∈ L.
Proof.
  intros Hl x. rewrite elem_of_app, list_elem_of_filter, list_elem_of_singleton.
  destruct (decide (x = l)); naive_solver.
Qed.

(** The 32-bit reference count of the entry a lookup finds has room for one more. *)
Definition ccountable PN C (key : bytes) : Prop := forall id, ccached C key = Some id -> PN id < 2 ^ 32 - 2.

Lemma Cache_Lookup_spec PN C key w :
  sharded_inv PN C -> ccountable PN C key ->
  match ccached C key with
  | None => Cache_Lookup key (C, w) = Ret None (C, w)
  | Some id => exists C', Cache_Lookup key (C, w) = Ret (Some (mkCH (HashSlice key) id.2)) (C', w) /\
      hid (mkCH (HashSlice key) id.2) = id /\ sharded_inv (Pin id PN) C' /\ same_view C C' /\
      newest C' id
  end.
Proof.
  intros Hinv Hcnt. destruct (shard_of _ _ key Hinv) as (c & E & [Hc Hb Hk]).
  unfold ccountable, ccached in *. rewrite E in *. cbn [mbind option_bind] in *.
  assert (countable_refs (shard_pins PN (Shard (HashSlice key))) c key) as Hcnt'
    by (intros l El; apply (Hcnt (_, l)); by rewrite El).
  pose proof (LRU_Lookup_spec _ _ _ key w Hc Hcnt') as Hspec.
  destruct (cached c key) as [l|] eqn:Ec; cbn [mbind option_bind snd].
  - destruct Hspec as (c' & Hrun & Hinv' & Hsh & HL). eexists.
    apply (cached_Some _ _ _ _ _ Hc) in Ec as [Hin _].
    split; [unfold Cache_Lookup, bind; by rewrite (in_shard_Ret _ _ _ _ _ _ _ _ E Hrun)|].
    split; [done|]. split.
    + apply (sharded_inv_upd PN _ _ _ c); [done|done| |].
      * split; [|by eapply bounded_shape|by destruct Hsh as (-> & _)].
        eapply cache_inv_ext; [|exact Hinv']. apply pin_shard.
      * intros j x Hj. unfold Pin. rewrite decide_False; [done|]. by intros [= ->].
    + split; [eapply same_view_upd; [done|by destruct Hsh|]; rewrite HL; by apply lru_rotate|].
      exists c', (filter (fun x => x <> l) (lru_ c)). split; [|done]. unfold upd_shard. cbn [shard_ fst].
      apply list_lookup_insert_eq. by eapply lookup_lt_Some.
  - unfold Cache_Lookup, bind. rewrite (in_shard_Ret _ _ _ _ _ _ _ _ E Hspec).
    unfold upd_shard. rewrite list_insert_id by done. by destruct C.
Qed.

Lemma Cache_Value_spec PN C h w k v :
  sharded_inv PN C -> clive C (hid h) = Some (k, v) ->
  Cache_Value h (C, w) = Ret v (C, w).
Proof.
  intros Hinv Hl. unfold clive, hid in Hl. cbn [fst snd] in Hl.
  destruct (shard_ C !! Shard (ch_hash h)) as [c|] eqn:E; [|done]. cbn in Hl.
  apply live_lookup in Hl as (e & Ee & _ & Hv). unfold Cache_Value.
  erewrite in_shard_Ret; [|exact E|cbn; rewrite Ee; cbn; by rewrite Hv].
  unfold upd_shard. rewrite list_insert_id by done. by destruct C.
Qed.

Context (deleter : bytes -> V -> prog W unit).

(** The handle [id] disappears. *)
Definition freed C C' (id : nat * nat) : Prop :=
  (forall x, clive C' x = if decide (x = id) then None else clive C x) /\
  (forall x, tabled C' x <-> x <> id /\ tabled C x).

Lemma freed_upd C i c c' l :
  shard_ C !! i = Some c -> live c' = delete l (live c) ->
  (forall x, x ∈ lru_ c' <-> x <> l /\ x ∈ lru_ c) ->
  freed C (upd_shard i c' C) (i, l).
Proof.
  intros E Hl Hin. split; intros [j x].
  - rewrite (clive_upd _ _ _ _ _ E). cbn [fst snd]. destruct (decide (j = i)) as [->|Hj].
    + rewrite Hl. unfold clive. cbn [fst snd]. rewrite E. cbn.
      case_decide as Hx; [injection Hx as ->; apply lookup_delete_eq|].
      apply lookup_delete_ne. naive_solver.
    + rewrite decide_False; [done|naive_solver].
  - rewrite (tabled_upd _ _ _ _ _ E). cbn [fst snd]. destruct (decide (j = i)) as [->|Hj].
    + rewrite Hin. unfold tabled. cbn [fst snd]. rewrite E. naive_solver.
    + naive_solver.
Qed.

Lemma bounded_delete c c' l :
  heap c' = delete l (heap c) -> capacity_ c' = capacity_ c -> bounded c -> bounded c'.
Proof.
  intros Hh Hc (Hu & Hcap & Hsz). split; [|split].
  - eapply unit_charges_sub; [|done]. rewrite Hh. apply delete_subseteq.
  - by rewrite Hc.
  - rewrite Hh, Hc, map_size_delete. destruct (heap c !! l); simpl; lia.
Qed.

Lemma Cache_Release_spec PN C h w :
  sharded_inv PN C -> 0 < PN (hid h) ->
  exists k v, clive C (hid h) = Some (k, v) /\
    (forall w', PN (hid h) = 1 -> ~ tabled C (hid h) -> deleter k v w = Ret tt w' ->
       exists C', Cache_Release deleter h (C, w) = Ret tt (C', w') /\
         sharded_inv (Unpin (hid h) PN) C' /\ freed C C' (hid h)) /\
    (1 < PN (hid h) \/ tabled C (hid h) ->
       exists C', Cache_Release deleter h (C, w) = Ret tt (C', w) /\
         sharded_inv (Unpin (hid h) PN) C' /\ same_view C C').
Proof.
  intros Hinv Hpos. unfold hid in *. set (i := Shard (ch_hash h)) in *. set (l := ch_loc h) in *.
  destruct (shard_ C !! i) as [c|] eqn:E; [|rewrite (si_out _ _ Hinv i l E) in Hpos; lia].
  destruct (si_shard _ _ Hinv i c E) as [Hc Hb Hk].
  destruct (Unref_spec _ deleter _ c l w Hc Hpos) as (e & Ee & Hu).
  exists (hkey e), (value e).
  pose proof (tabled_iff C i c l E) as Htab.
  assert (live c !! l = Some (hkey e, value e)) as Hle by (apply live_lookup; by exists e).
  split; [by rewrite (clive_iff _ _ _ _ E)|].
  assert (forall j x, j <> i -> Unpin (i, l) PN (j, x) = PN (j, x)) as Hne.
  { intros j x Hj. unfold Unpin. rewrite decide_False; [done|]. by intros [= ->]. }
  split.
  - intros w' Hone Hnt Hdel. rewrite decide_True in Hu by (split; [done|by rewrite <- Htab]).
    destruct (Hu w' Hdel) as (c' & Hrun & Hinv' & Hh & HL & Hcap).
    eexists. split; [exact (in_shard_Ret _ _ _ _ _ _ _ _ E Hrun)|]. split.
    + apply (sharded_inv_upd PN _ _ _ c); [done|done| |done]. split.
      * eapply cache_inv_ext; [|exact Hinv']. apply unpin_shard.
      * by eapply bounded_delete.
      * intros x k v. rewrite (live_delete _ _ _ Hh), lookup_delete_Some. intros [_ ?]. by eapply Hk.
    + eapply freed_upd; [done|by apply live_delete|]. intros x. rewrite HL.
      split; [|by intros [_ ?]]. intros Hx. split; [|done]. intros ->. by apply Hnt, Htab.
  - intros Hstay. rewrite decide_False in Hu.
    2: { rewrite <- Htab. unfold shard_pins. intros [? ?]. destruct Hstay; [lia|done]. }
    destruct Hu as (c' & Hrun & Hinv' & Hl & HL & Hcap & Hch).
    eexists. split; [exact (in_shard_Ret _ _ _ _ _ _ _ _ E Hrun)|]. split.
    + apply (sharded_inv_upd PN _ _ _ c); [done|done| |done]. split.
      * eapply cache_inv_ext; [|exact Hinv']. apply unpin_shard.
      * eapply bounded_shape; [|done]. by split.
      * by rewrite Hl.
    + eapply same_view_upd; [done|done|]. by rewrite HL.
Qed.
(** The handle [id] stays alive but is no longer found. *)
Definition untabled C C' (id : nat * nat) : Prop :=
  (forall x, clive C' x = clive C x) /\ (forall x, tabled C' x <-> x <> id /\ tabled C x).

Lemma untabled_upd C i c c' l :
  shard_ C !! i = Some c -> live c' = live c ->
  (forall x, x ∈ lru_ c' <-> x <> l /\ x ∈ lru_ c) ->
  untabled C (upd_shard i c' C) (i, l).
Proof.
  intros E Hl Hin. split; intros [j x].
  - rewrite (clive_upd _ _ _ _ _ E). cbn [fst snd]. case_decide as Hj; [|done]. subst.
    by rewrite (clive_iff _ _ _ _ E), Hl.
  - rewrite (tabled_upd _ _ _ _ _ E). cbn [fst snd]. destruct (decide (j = i)) as [->|Hj].
    + rewrite Hin, (tabled_iff _ _ _ _ E). naive_solver.
    + naive_solver.
Qed.

Lemma ccached_shard C key c :
  shard_ C !! Shard (HashSlice key) = Some c ->
  ccached C key = pair (Shard (HashSlice key)) <$> cached c key.
Proof. intros E. unfold ccached. rewrite E. cbn. by destruct (cached c key). Qed.

Lemma filter_ne_iff (l : nat) (L : list nat) x :
  x ∈ filter (fun y => y <> l) L <-> x <> l /\ x ∈ L.
Proof. clear deleter. exact (list_elem_of_filter (fun y => y <> l) L x). Qed.

Lemma Cache_Erase_spec PN C key w :
  sharded_inv PN C ->
  match ccached C key with
  | None => Cache_Erase deleter key (C, w) = Ret tt (C, w)
  | Some id => exists v, clive C id = Some (key, v) /\
      (forall w', PN id = 0 -> deleter key v w = Ret tt w' ->
         exists C', Cache_Erase deleter key (C, w) = Ret tt (C', w') /\
           sharded_inv PN C' /\ freed C C' id) /\
      (0 < PN id ->
         exists C', Cache_Erase deleter key (C, w) = Ret tt (C', w) /\
           sharded_inv PN C' /\ untabled C C' id)
  end.
Proof.
  intros Hinv. destruct (shard_of _ _ key Hinv) as (c & E & [Hc Hb Hk]).
  pose proof (LRU_Erase_spec _ deleter _ _ key w Hc) as Hspec.
  rewrite (ccached_shard _ _ _ E).
  destruct (cached c key) as [l|] eqn:Ec; cbn [fmap option_fmap option_map].
  - destruct Hspec as (v & Hl & Hspec). exists v. rewrite (clive_iff _ _ _ _ E).
    split; [done|]. split.
    + intros w' H0 Hdel. rewrite decide_True in Hspec by done.
      destruct (Hspec w' Hdel) as (c' & Hrun & Hinv' & Hh & HL & Hcap).
      eexists. split; [exact (in_shard_Ret _ _ _ _ _ _ _ _ E Hrun)|]. split.
      * apply (sharded_inv_upd PN _ _ _ c); [done|done| |done]. split; [done|by eapply bounded_delete|].
        intros x k1 v1. rewrite (live_delete _ _ _ Hh), lookup_delete_Some. intros [_ ?]. by eapply Hk.
      * eapply freed_upd; [done|by apply live_delete|]. intros x. rewrite HL. apply filter_ne_iff.
    + intros Hpos. rewrite decide_False in Hspec by (unfold shard_pins; lia).
      destruct Hspec as (c' & Hrun & Hinv' & Hsh & HL).
      eexists. split; [exact (in_shard_Ret _ _ _ _ _ _ _ _ E Hrun)|]. split.
      * apply (sharded_inv_upd PN _ _ _ c); [done|done| |done].
        split; [done|by eapply bounded_shape|by destruct Hsh as (-> & _)].
      * eapply untabled_upd; [done|by destruct Hsh|]. intros x. rewrite HL. apply filter_ne_iff.
  - unfold Cache_Erase. rewrite (in_shard_Ret _ _ _ _ _ _ _ _ E Hspec).
    unfold upd_shard. rewrite list_insert_id by done. by destruct C.
Qed.

(** A new handle [id] for [key], with at most one unused entry [gone] dropped. *)
Definition grown C C' (id : nat * nat) (key : bytes) (v : V) (gone : option (nat * nat)) : Prop :=
  clive C id = None /\
  (forall x, clive C' x = if decide (x = id) then Some (key, v)
             else if decide (gone = Some x) then None else clive C x) /\
  (forall x, tabled C' x <-> x = id \/ (gone <> Some x /\ tabled C x)).

(** The deleter succeeds on every entry nobody uses. *)
Definition cdroppable PN C w : Prop :=
  forall id k v, tabled C id -> PN id = 0 -> clive C id = Some (k, v) ->
    exists w', deleter k v w = Ret tt w'.

Lemma grown_upd C i c c' l key v gone :
  shard_ C !! i = Some c -> live c !! l = None -> (forall x, x ∈ lru_ c -> x <> l) ->
  live c' = <[l := (key, v)]> (match gone with Some g => delete g (live c) | None => live c end) ->
  (forall x, x ∈ lru_ c' <-> x = l \/ (gone <> Some x /\ x ∈ lru_ c)) ->
  grown C (upd_shard i c' C) (i, l) key v (pair i <$> gone).
Proof.
  clear deleter.
  intros E Hf Hfresh Hl Hin. split; [by rewrite (clive_iff _ _ _ _ E)|]. split; intros [j x].
  - rewrite (clive_upd _ _ _ _ _ E). cbn [fst snd]. destruct (decide (j = i)) as [->|Hj].
    + rewrite Hl, (clive_iff _ _ _ _ E).
      destruct (decide ((i, x) = (i, l))) as [[= ->]|Hx]; [apply lookup_insert_eq|].
      rewrite lookup_insert_ne by congruence. destruct gone as [g|]; cbn.
      * destruct (decide (Some (i, g) = Some (i, x))) as [[= ->]|Hg]; [apply lookup_delete_eq|].
        apply lookup_delete_ne. congruence.
      * done.
    + rewrite decide_False by congruence. rewrite decide_False; [done|]. destruct gone; cbn; congruence.
  - rewrite (tabled_upd _ _ _ _ _ E). cbn [fst snd]. destruct (decide (j = i)) as [->|Hj].
    + rewrite Hin, (tabled_iff _ _ _ _ E). destruct gone; cbn; naive_solver.
    + destruct gone; cbn; naive_solver.
Qed.

(** What an insertion into a shard does, by the entry it dropped, if any. *)
Lemma inserted_gone pn (c : LRUCache V) key v w c' (w' : W) :
  inserted deleter pn c key v w c' w' ->
  exists gone L, live c' = <[next_loc c := (key, v)]> (match gone with Some g => delete g (live c) | None => live c end) /\
    lru_ c' = L ++ [next_loc c] /\
    (forall x, x ∈ lru_ c' <-> x = next_loc c \/ (gone <> Some x /\ x ∈ lru_ c)) /\
    match gone with
    | None => cached c key = None /\ w' = w
    | Some g => (cached c key = None \/ cached c key = Some g) /\ g ∈ lru_ c /\ pn g = 0 /\
        exists k1 v1, live c !! g = Some (k1, v1) /\ deleter k1 v1 w = Ret tt w'
    end.
Proof.
  intros [(H1 & H2 & H3 & H4)|(g & k1 & v1 & H1 & H2 & H3 & H4 & H5 & H6 & H7)].
  - exists None. eexists. do 2 (split; [done|]). split; [|done]. intros x. rewrite H4, elem_of_app, list_elem_of_singleton.
    clear. naive_solver.
  - exists (Some g). eexists. do 2 (split; [done|]). split; [|by eauto 10]. intros x.
    rewrite H7, elem_of_app, list_elem_of_singleton, filter_ne_iff. clear. naive_solver.
Qed.

Lemma Cache_Insert_spec PN C key v w :
  sharded_inv PN C -> cdroppable PN C w ->
  (forall id, ccached C key = Some id -> PN id = 0) ->
  (ccached C key = None -> csafe PN C key) ->
  exists h C' w' gone, Cache_Insert deleter key v 1 (C, w) = Ret h (C', w') /\
    ch_hash h = HashSlice key /\
    sharded_inv (Pin (hid h) PN) C' /\ grown C C' (hid h) key v gone /\ newest C' (hid h) /\
    match gone with
    | None => ccached C key = None /\ w' = w
    | Some g => (ccached C key = None \/ ccached C key = Some g) /\ tabled C g /\ PN g = 0 /\
        exists k1 v1, clive C g = Some (k1, v1) /\ deleter k1 v1 w = Ret tt w'
    end.
Proof.
  intros Hinv Hdrop Hold Hsafe. destruct (shard_of _ _ key Hinv) as (c & E & [Hc Hb Hk]).
  rewrite (ccached_shard _ _ _ E) in *. unfold csafe in Hsafe.
  remember (Shard (HashSlice key)) as i eqn:Hi.
  assert (droppable deleter (shard_pins PN i) c w) as Hdrop'.
  { intros l k1 v1 Hl H0 Hlive. apply (Hdrop (i, l) k1); [|done|].
    - by apply (tabled_iff _ _ _ _ E).
    - by rewrite (clive_iff _ _ _ _ E). }
  assert (exists c' w', LRU_Insert deleter key (HashSlice key) v 1 (c, w) = Ret (next_loc c) (c', w') /\
    cache_inv HashSlice (pin (next_loc c) (shard_pins PN i)) c' /\ bounded c' /\
    inserted deleter (shard_pins PN i) c key v w c' w') as (c' & w' & Hrun & Hinv' & Hb' & Hins).
  { destruct (cached c key) as [old|] eqn:Ec; cbn in Hold, Hsafe.
    - eapply LRU_Insert_replace; eauto.
    - apply LRU_Insert_fresh; [done|done|done|by apply Hsafe|done]. }
  pose proof (fresh_not_in_lru _ _ _ Hc) as Hfresh.
  assert (live c !! next_loc c = None) as Hfree.
  { unfold live. rewrite lookup_fmap, (ci_next _ _ _ Hc) by done. done. }
  destruct (inserted_gone _ _ _ _ _ _ _ Hins) as (gone & Lnew & Hlive & HLnew & HL & Hgone).
  exists (mkCH (HashSlice key) (next_loc c)), (upd_shard i c' C), w', (pair i <$> gone).
  split; [unfold Cache_Insert, bind; rewrite <- Hi; by rewrite (in_shard_Ret _ _ _ _ _ _ _ _ E Hrun)|].
  split; [done|]. unfold hid. cbn [ch_hash ch_loc]. rewrite <- Hi. split; [|split; [|split]].
  - apply (sharded_inv_upd PN _ _ _ c); [done|done| |].
    + split; [|done|].
      * eapply cache_inv_ext; [|exact Hinv']. apply pin_shard.
      * intros l k1 v1. rewrite Hlive, lookup_insert_Some. intros [[_ [= <- _]]|[_ Hl]]; [done|].
        destruct gone; [apply lookup_delete_Some in Hl as [_ Hl]|]; by eapply Hk.
    + intros j x Hj. unfold Pin. rewrite decide_False; [done|]. congruence.
  - eapply grown_upd; eauto. intros x Hx ->. done.
  - exists c', Lnew. split; [|done]. unfold upd_shard. cbn [shard_ fst].
    apply list_lookup_insert_eq. by eapply lookup_lt_Some.
  - destruct gone as [g|]; cbn; [|by destruct Hgone as [-> ->]].
    destruct Hgone as (H1 & H2 & H3 & k1 & v1 & H4 & H5).
    split; [destruct H1 as [-> | ->]; cbn; eauto|].
    split; [by apply (tabled_iff _ _ _ _ E)|]. split; [done|].
    exists k1, v1. by rewrite (clive_iff _ _ _ _ E).
Qed.
(** *** The empty cache *)

Lemma LRU_new_inv hashf cap : @cache_inv V hashf (fun _ => 0) (LRU_new cap).
Proof.
  split; simpl; try done.
  - split; [apply NoDup_nil_2| |].
    + intros l Hl. by apply not_elem_of_nil in Hl.
    + intros l1 l2 h1 h2 Hl. by apply not_elem_of_nil in Hl.
  - split; simpl; try done. by exists 2.
Qed.

Lemma NewLRUCache_inv cap :
  16 < cap < 2 ^ 31 -> sharded_inv (fun _ => 0) (@NewLRUCache V cap) /\
  (forall id, clive (@NewLRUCache V cap) id = None) /\
  (forall id, ~ tabled (@NewLRUCache V cap) id).
Proof.
  intros Hcap. unfold NewLRUCache. change kNumShards with 16.
  assert (1 < (cap + (16 - 1)) / 16 < 2 ^ 31) as Hper.
  { split; [apply Z.lt_le_trans with 2; [lia|]; apply Z.div_le_lower_bound; lia|].
    apply Z.div_lt_upper_bound; lia. }
  revert Hper. generalize ((cap + (16 - 1)) / 16). intros per Hper. split; [|split].
  - split; cbn [shard_]; [by rewrite length_replicate| |done].
    intros i c [-> Hi]%lookup_replicate. split; [apply LRU_new_inv| |done].
    split; [done|]. cbn. change (size (∅ : gmap nat (LRUHandle V))) with 0%nat. lia.
  - intros [i l]. unfold clive. cbn [fst snd shard_].
    destruct (replicate _ _ !! i) as [c|] eqn:E; [|done]. by apply lookup_replicate in E as [-> _].
  - intros [i l] (c & E & Hin). cbn [fst snd shard_] in *. apply lookup_replicate in E as [-> _].
    by apply not_elem_of_nil in Hin.
Qed.
(** When every handle alive is in the table and only the newest entries of the
    shards are in use, the next insertion is safe. *)
Lemma csafe_newest PN C key :
  sharded_inv PN C -> (forall x, clive C x <> None -> tabled C x) ->
  (forall x, clive C x <> None -> PN x <> 0 -> newest C x) -> csafe PN C key.
Proof.
  clear deleter. intros Hinv Hall Hidle c E.
  remember (Shard (HashSlice key)) as i eqn:Hi. clear Hi.
  destruct (si_shard _ _ Hinv i c E) as [Hc (Hu & Hcap & Hsz) Hk].
  destruct (decide (Z.of_nat (size (heap c)) < capacity_ c)) as [Hlt|Hfull]; [by left|right].
  assert (dom (heap c) ⊆ list_to_set (lru_ c)) as Hsub.
  { intros l [h Hl]%elem_of_dom. apply elem_of_list_to_set.
    apply (tabled_iff C i c l E), Hall. rewrite (clive_iff _ _ _ _ E).
    unfold live. by rewrite lookup_fmap, Hl. }
  apply subseteq_size in Hsub. rewrite size_dom in Hsub.
  pose proof (ent_nodup _ _ _ (ci_entries _ _ _ Hc)) as Hnd.
  rewrite size_list_to_set in Hsub by done.
  destruct (lru_ c) as [|l [|l2 L2]] eqn:El; [simpl in Hsub; lia|simpl in Hsub; lia|].
  exists l, (l2 :: L2). split; [done|]. unfold shard_pins.
  destruct (decide (PN (i, l) = 0)) as [|Hpin]; [done|exfalso].
  destruct (Hidle (i, l)) as (cn & L & Hn & HL); [|done|].
  - rewrite (clive_iff _ _ _ _ E). intros HN. unfold live in HN. rewrite lookup_fmap in HN.
    destruct (ent_live _ _ _ (ci_entries _ _ _ Hc) l) as (h & Eh & _); [rewrite El; by left|].
    by rewrite Eh in HN.
  - cbn [fst snd] in *. rewrite E in Hn. injection Hn as <-. rewrite El in HL.
    destruct L as [|a L]; [done|]. injection HL as -> HL.
    apply list.NoDup_cons in Hnd as [Hni _]. apply Hni. rewrite HL. apply elem_of_app. right. by left.
Qed.
End sharded_facts.
