(* ===== verification/Kv.v ===== *)
(** The key-value interface below the file system: [src/adaptor/kv_wrapper.h]
    and [src/adaptor/statistics.cc].

    [KvWrapper] is the abstract class as a type class: the operations over the
    state [S] of a store and the type [It] of its iterators. [KvSpec] states what
    a healthy store promises to its clients, and [MemKv] is a store that keeps
    the promise, used to run the clients on concrete inputs. *)

From S2P Require Import Prelude Coding WriteBatch.

(** * Statistics *)

Inductive OperationType : Type := PUT | GET | DELETE | PSCAN.

Record Statistics : Type := mkStatistics {
  num_put : Z; num_get : Z; num_delete : Z; num_pscan : Z
}.

Definition Statistics_new : Statistics := mkStatistics 0 0 0 0.

Definition RecordKVOperations (op : OperationType) (s : Statistics) : Statistics :=
  match op with
  | PUT => mkStatistics (u64 (num_put s + 1)) (num_get s) (num_delete s) (num_pscan s)
  | GET => mkStatistics (num_put s) (u64 (num_get s + 1)) (num_delete s) (num_pscan s)
  | DELETE => mkStatistics (num_put s) (num_get s) (u64 (num_delete s + 1)) (num_pscan s)
  | PSCAN => mkStatistics (num_put s) (num_get s) (num_delete s) (u64 (num_pscan s + 1))
  end.

(** * The interface *)

Class KvWrapper (S It : Type) : Type := {
  kv_Init : prog S Z;
  kv_Cleanup : prog S unit;
  kv_Put : bytes -> bytes -> prog S Z;
  kv_Get : bytes -> prog S (Z * bytes);      (* return code and [result] *)
  kv_Delete : bytes -> prog S Z;
  kv_Write : bytes -> prog S Z;              (* the batch's [rep_] *)
  kv_Sync : prog S Z;
  kv_NewIterator : prog S It;
  kv_GetStat : bytes -> prog S (bool * bytes);
  kv_GetMetric : prog S (bool * bytes);
  it_Valid : It -> prog S bool;
  it_Seek : It -> bytes -> prog S It;
  it_Next : It -> prog S It;
  it_key : It -> prog S bytes;
  it_value : It -> prog S bytes
}.

(** [BytewiseComparator::Compare], as [<=]. *)
Fixpoint bytes_leb (a b : bytes) : bool :=
  match a, b with
  | [], _ => true
  | _ :: _, [] => false
  | x :: a', y :: b' => if x <? y then true else if y <? x then false else bytes_leb a' b'
  end.

(** Entries in the order of their keys. *)
Definition key_le (a b : bytes * bytes) : Prop := bytes_leb a.1 b.1 = true.
#[global] Instance key_le_dec : RelDecision key_le.
Proof. intros a b. unfold key_le. apply _. Defined.

(** The keys and values the file system stores. *)
Definition kv_key (k : bytes) : Prop := length k = 16%nat /\ bytes_ok k.

Definition apply_op (m : gmap bytes bytes) (op : batch_op) : gmap bytes bytes :=
  match op with BPut k v => <[k := v]> m | BDelete k => delete k m end.

Definition op_key (op : batch_op) : bytes := match op with BPut k _ => k | BDelete k => k end.

(** What an iterator positioned at [target] yields: first the entries with the
    8-byte prefix of the target, at least all of those that are not below it. *)
Definition scan_ok (m : gmap bytes bytes) (target : bytes) (L : list (bytes * bytes)) : Prop :=
  exists P R, L = P ++ R /\ NoDup P.*1 /\
    (forall k v, (k, v) ∈ P -> m !! k = Some v /\ take 8 k = take 8 target) /\
    (forall k v, m !! k = Some v -> take 8 k = take 8 target -> bytes_leb target k = true ->
       (k, v) ∈ P) /\
    (forall k v R', R = (k, v) :: R' -> take 8 k <> take 8 target /\ m !! k = Some v).

(** [kv_rep s m]: the store is open, healthy and holds the map [m]. *)
Class KvSpec (S It : Type) `{!KvWrapper S It} : Type := {
  kv_rep : S -> gmap bytes bytes -> Prop;
  it_rest : It -> list (bytes * bytes) -> Prop;
  kv_Put_spec s m k v : kv_rep s m -> kv_key k -> str_ok v ->
    exists s', kv_Put k v s = Ret 0 s' /\ kv_rep s' (<[k := v]> m);
  kv_Get_hit s m k v : kv_rep s m -> kv_key k -> m !! k = Some v ->
    exists s', kv_Get k s = Ret (1, v) s' /\ kv_rep s' m;
  kv_Get_miss s m k : kv_rep s m -> kv_key k -> m !! k = None ->
    exists r junk s', kv_Get k s = Ret (r, junk) s' /\ r <= 0 /\ kv_rep s' m;
  kv_Delete_spec s m k : kv_rep s m -> kv_key k ->
    exists r s', kv_Delete k s = Ret r s' /\ kv_rep s' (delete k m);
  kv_Write_spec s m ops : kv_rep s m -> Forall op_ok ops -> Forall (fun op => kv_key (op_key op)) ops ->
    Z.of_nat (length ops) < 2 ^ 31 ->
    exists r s', kv_Write (build ops) s = Ret r s' /\ kv_rep s' (foldl apply_op m ops);
  kv_Sync_spec s m : kv_rep s m ->
    exists r s' m', kv_Sync s = Ret r s' /\ kv_rep s' m' /\ forall k, kv_key k -> m' !! k = m !! k;
  kv_iter_spec s m target : kv_rep s m -> kv_key target -> exists s1 it0 s2 it1 L,
    kv_NewIterator s = Ret it0 s1 /\ it_Seek it0 target s1 = Ret it1 s2 /\
    kv_rep s1 m /\ kv_rep s2 m /\ it_rest it1 L /\ scan_ok m target L;
  it_Valid_spec s it L : it_rest it L -> it_Valid it s = Ret (bool_decide (L <> [])) s;
  it_key_spec s it k v L : it_rest it ((k, v) :: L) -> it_key it s = Ret k s;
  it_value_spec s it k v L : it_rest it ((k, v) :: L) -> it_value it s = Ret v s;
  it_Next_spec s it k v L : it_rest it ((k, v) :: L) ->
    exists it', it_Next it s = Ret it' s /\ it_rest it' L
}.

(** What a store must promise beyond [KvSpec] for its contents to survive:
    [kv_restart s] is the adaptor object a new process makes over what is left of
    the store [s]. *)
Class KvDurable (S It : Type) `{!KvWrapper S It, !KvSpec S It} : Type := {
  kv_restart : S -> S;
  kv_GetStat_spec s m x : kv_rep s m -> exists r s', kv_GetStat x s = Ret r s' /\ kv_rep s' m;
  kv_GetMetric_spec s m : kv_rep s m -> exists r s', kv_GetMetric s = Ret r s' /\ kv_rep s' m;
  kv_reopen s m : kv_rep s m -> exists s1 r s2, kv_Cleanup s = Ret tt s1 /\
    kv_Init (kv_restart s1) = Ret r s2 /\ 0 <= r /\ kv_rep s2 m
}.

(** * A store that keeps the promise *)

Abbreviation MemKv := (gmap bytes bytes).

Definition mem_scan (m : MemKv) (target : bytes) : list (bytes * bytes) :=
  filter (fun kv => take 8 kv.1 = take 8 target /\ bytes_leb target kv.1 = true) (map_to_list m).

#[global] Instance MemKv_ops : KvWrapper MemKv (list (bytes * bytes)) := {
  kv_Init := ret 0;
  kv_Cleanup := ret tt;
  kv_Put k v := modify (fun m => <[k := v]> m) ;;; ret 0;
  kv_Get k := gets (fun m => match m !! k with Some v => (1, v) | None => (0, []) end);
  kv_Delete k := modify (fun m => delete k m) ;;; ret 0;
  kv_Write batch :=
    modify (fun m => snd (Iterate (mkHandler (fun k v m => <[k := v]> m) (fun k m => delete k m))
                            batch m)) ;;; ret 0;
  kv_Sync := ret 0;
  kv_NewIterator := ret [];
  kv_GetStat _ := ret (true, []);
  kv_GetMetric := ret (true, []);
  it_Valid it := ret (bool_decide (it <> []));
  it_Seek _ target := gets (fun m => mem_scan m target);
  it_Next it := ret (tail it);
  it_key it := match it with kv :: _ => ret kv.1 | [] => undefined OutOfBounds end;
  it_value it := match it with kv :: _ => ret kv.2 | [] => undefined OutOfBounds end
}.

Lemma mem_scan_ok m target : scan_ok m target (mem_scan m target).
Proof.
  exists (mem_scan m target), []. unfold mem_scan. split; [by rewrite app_nil_r|].
  split; [|split; [|split]].
  - eapply NoDup_fmap_sublist; [apply sublist_filter|]. apply NoDup_fst_map_to_list.
  - intros k v [[Hp _] Hin]%list_elem_of_filter. by apply elem_of_map_to_list in Hin.
  - intros k v Hm Hp Hle. apply list_elem_of_filter. split; [done|]. by apply elem_of_map_to_list.
  - done.
Qed.

#[global] Program Instance MemKv_spec : KvSpec MemKv (list (bytes * bytes)) := {
  kv_rep s m := s = m;
  it_rest it L := it = L
}.
Next Obligation. intros s m k v -> _ _. by eexists. Qed.
Next Obligation.
  intros s m k v -> _ Hm. exists m. split; [|done].
  unfold kv_Get, MemKv_ops, gets. by rewrite Hm.
Qed.
Next Obligation.
  intros s m k -> _ Hm. exists 0, [], m. split; [|done].
  unfold kv_Get, MemKv_ops, gets. by rewrite Hm.
Qed.
Next Obligation. intros s m k -> _. by eexists _, _. Qed.
Next Obligation.
  intros s m ops -> Hok _ Hlen. eexists 0, _. split; [cbn; reflexivity|].
  rewrite Iterate_build by done. simpl. revert m. clear Hok Hlen.
  induction ops as [|[k v|k] ops IH]; intros m; simpl; done.
Qed.
Next Obligation. intros s m ->. by exists 0, m, m. Qed.
Next Obligation.
  intros s m target -> _. exists m, [], m, (mem_scan m target), (mem_scan m target).
  repeat split; try done. apply mem_scan_ok.
Qed.
Next Obligation. by intros s it L ->. Qed.
Next Obligation. by intros s it k v L ->. Qed.
Next Obligation. by intros s it k v L ->. Qed.
Next Obligation. intros s it k v L ->. by eexists. Qed.

#[global] Program Instance MemKv_durable : KvDurable MemKv (list (bytes * bytes)) := { kv_restart s := s }.
Next Obligation. intros s m x H. by eexists _, s. Qed.
Next Obligation. intros s m H. by eexists _, s. Qed.
Next Obligation. intros s m H. by exists s, 0, s. Qed.
