(* ===== verification/Engines.v ===== *)
(** What the adaptors of [src/adaptor] share: replaying a write batch on an
    engine, iterators over a vector of entries, and the engine behind the uTree,
    ROART and two-level-hash adaptors.

    The engines are git submodules and are parameters here: their operations are
    the methods the adaptors call. For an engine with ordered iterators the laws are
    in [SortedKv]; of the others nothing is assumed. *)

From Stdlib Require Import Sorting.Sorted.
From stdpp Require Import sorting.
From S2P Require Import Prelude Coding WriteBatch Kv.

Set Default Proof Using "Type".

(** * Batches

    Every adaptor replays a [leveldb::WriteBatch] through a subclass of
    [WriteBatch::Handler] that calls its engine. *)

Definition prog_handler {S} (put : bytes -> bytes -> prog S unit) (del : bytes -> prog S unit)
    : Handler (outcome S unit) :=
  let next (p : prog S unit) (o : outcome S unit) :=
    match o with Ret _ s => p s | Exit c s => Exit c s | UB w => UB w end in
  mkHandler (fun k v => next (put k v)) (fun k => next (del k)).

(** [batch.Iterate (&inserter)] *)
Definition run_batch {S} (put : bytes -> bytes -> prog S unit) (del : bytes -> prog S unit)
    (batch : bytes) : prog S Status := fun s =>
  let '(status, o) := Iterate (prog_handler put del) batch (Ret tt s) in
  match o with Ret _ s' => Ret status s' | Exit c s' => Exit c s' | UB w => UB w end.

(** The operations of a batch as calls, one after the other. *)
Fixpoint each_op {S} (put : bytes -> bytes -> prog S unit) (del : bytes -> prog S unit) (ops : list batch_op)
    : prog S unit :=
  match ops with
  | [] => ret tt
  | BPut k v :: ops' => put k v ;;; each_op put del ops'
  | BDelete k :: ops' => del k ;;; each_op put del ops'
  end.

Lemma run_ops_stop {S} (put : bytes -> bytes -> prog S unit) del ops (o : outcome S unit) :
  foldl (run_op (prog_handler put del)) o ops =
  match o with Ret _ s => foldl (run_op (prog_handler put del)) (Ret tt s) ops | _ => o end.
Proof. destruct o as [[] s|c s|w]; [done| |]; induction ops as [|[] ops IH]; done. Qed.

Lemma run_ops_each {S} (put : bytes -> bytes -> prog S unit) del ops (s : S) :
  foldl (run_op (prog_handler put del)) (Ret tt s) ops = each_op put del ops s.
Proof.
  revert s. induction ops as [|op ops IH]; intros s; [done|]. cbn [foldl]. rewrite run_ops_stop.
  destruct op as [k v|k]; cbn [each_op]; unfold bind; cbn [run_op prog_handler handler_Put handler_Delete].
  - destruct (put k v s); [apply IH|done|done].
  - destruct (del k s); [apply IH|done|done].
Qed.

(** Replaying a batch that was built from [ops] makes the calls of [ops], in order,
    up to one that does not return. *)
Lemma run_batch_ops {S} (put : bytes -> bytes -> prog S unit) del ops (r : Z) (s : S) :
  Forall op_ok ops -> Z.of_nat (length ops) < 2 ^ 31 ->
  (run_batch put del (build ops) ;;; ret r) s = (each_op put del ops ;;; ret r) s.
Proof.
  intros Hok Hlen. unfold bind, run_batch. rewrite Iterate_build by done. rewrite run_ops_each.
  by destruct (each_op put del ops s).
Qed.

(** * Iterators over a vector *)

(** [std::vector<...> dentry_; size_t cursor_] *)
Record vec_iter (E : Type) : Type := mkVec { dentry_ : list E; cursor_ : Z }.
Arguments mkVec {E} dentry_ cursor_.
Arguments dentry_ {E} v.
Arguments cursor_ {E} v.

Section vec.
Context {E : Type}.
Implicit Types it : vec_iter E.

Definition vec_new : vec_iter E := mkVec [] 0.
Definition vec_valid it : bool := cursor_ it <? Z.of_nat (length (dentry_ it)).

(** [cursor_++] counts vector entries, of which there are fewer than [2 ^ 64];
    [cursor_--] at 0 and the last entry of an empty vector wrap around. *)
Definition vec_next it : vec_iter E := mkVec (dentry_ it) (cursor_ it + 1).
Definition vec_prev it : vec_iter E := mkVec (dentry_ it) (u64 (cursor_ it - 1)).
Definition vec_first it : vec_iter E := mkVec (dentry_ it) 0.
Definition vec_last it : vec_iter E :=
  mkVec (dentry_ it) (u64 (Z.of_nat (length (dentry_ it)) - 1)).

(** [dentry_[cursor_]] *)
Definition vec_at {S} it : prog S E :=
  deref OutOfBounds (dentry_ it !! Z.to_nat (cursor_ it)).
End vec.

(** A client that walks from a key on to the end, as a directory listing without an
    end of its own would. *)
Section walk.
Context {S It : Type} `{!KvWrapper S It}.

Fixpoint walk (fuel : nat) (it : It) : prog S (list (bytes * bytes)) :=
  match fuel with
  | O => undefined Unfinished
  | Datatypes.S fuel' =>
      valid <- it_Valid it ;;
      if (valid : bool) then
        k <- it_key it ;;
        v <- it_value it ;;
        it' <- it_Next it ;;
        rest <- walk fuel' it' ;;
        ret ((k, v) :: rest)
      else ret []
  end.

Definition scan_from (fuel : nat) (target : bytes) : prog S (list (bytes * bytes)) :=
  it <- kv_NewIterator ;;
  it <- it_Seek it target ;;
  walk fuel it.
End walk.

(** Over a vector of entries, the walk shows the entries from the cursor on. *)
Lemma walk_vec {S} (K : KvWrapper S (vec_iter (bytes * bytes))) it (s : S) :
  it_Valid = (fun it => ret (vec_valid it)) -> it_Next = (fun it => ret (vec_next it)) ->
  it_key = (fun it => e <- vec_at it ;; ret e.1) -> it_value = (fun it => e <- vec_at it ;; ret e.2) ->
  0 <= cursor_ it -> forall fuel, (length (dentry_ it) - Z.to_nat (cursor_ it) < fuel)%nat ->
  walk fuel it s = Ret (drop (Z.to_nat (cursor_ it)) (dentry_ it)) s.
Proof.
  intros Hv Hn Hk Hval Hc fuel. revert it Hc. induction fuel as [|fuel IH]; intros it Hc Hf; cbn [walk].
  - lia.
  - rewrite Hv, bind_ret. unfold vec_valid. destruct (cursor_ it <? Z.of_nat (length (dentry_ it))) eqn:E; bool_to_prop.
    + destruct (lookup_lt_is_Some_2 (dentry_ it) (Z.to_nat (cursor_ it)) ltac:(lia)) as [[k v] He].
      assert (forall A (f : bytes * bytes -> A), (e <- vec_at it ;; ret (f e)) s = Ret (f (k, v)) s) as Hat
        by (intros A f; unfold vec_at; rewrite He; reflexivity).
      rewrite Hk. erewrite bind_Ret by apply (Hat _ fst). rewrite Hval. erewrite bind_Ret by apply (Hat _ snd).
      rewrite Hn, bind_ret. erewrite bind_Ret.
      2: { apply IH; cbn [cursor_ vec_next dentry_]; lia. }
      cbn [cursor_ vec_next dentry_ fst snd]. rewrite (drop_S _ _ _ He).
      replace (Z.to_nat (cursor_ it + 1)) with (Datatypes.S (Z.to_nat (cursor_ it))) by lia. reflexivity.
    + rewrite drop_ge by lia. reflexivity.
Qed.

(** * An engine of strings

    [treedb::TreeDB], [PART_ns::Tree] and [HybridHash]. [sd_Scan] gets the vector
    it fills. *)

Class StringDb (D : Type) : Type := {
  sd_Put : bytes -> bytes -> prog D bool;
  sd_Get : bytes -> prog D (bool * bytes);
  sd_Delete : bytes -> prog D unit;
  sd_Scan : bytes -> list (bytes * bytes) -> prog D (list (bytes * bytes))
}.

(** [std::unique_ptr<Engine> db_]: null until [Init]. *)
Record owned (D : Type) : Type := mkOwned { is_set : bool; pointee : D }.
Arguments mkOwned {D} is_set pointee.
Arguments is_set {D} o.
Arguments pointee {D} o.

Definition through {D A} (p : prog D A) : prog (owned D) A := fun w =>
  if is_set w then zoom pointee (fun d w => mkOwned (is_set w) d) p w else UB NullPointer.

(** [db_ = std::make_unique<Engine> (...)] *)
Definition make_unique {D} (init : prog D unit) : prog (owned D) unit := fun w =>
  match init (pointee w) with
  | Ret _ d => Ret tt (mkOwned true d)
  | Exit c d => Exit c (mkOwned (is_set w) d)
  | UB why => UB why
  end.

Definition owned_rep {D} (rep : D -> gmap bytes bytes -> Prop) (w : owned D) (m : gmap bytes bytes) : Prop :=
  is_set w = true /\ rep (pointee w) m.

Lemma through_Ret {D A} (p : prog D A) w a d :
  is_set w = true -> p (pointee w) = Ret a d -> through p w = Ret a (mkOwned true d).
Proof. intros Hs Hp. unfold through, zoom. by rewrite Hs, Hp. Qed.

(** * An engine *)

#[global] Instance MemDb : StringDb (gmap bytes bytes) := {
  sd_Put k v := modify (fun m => <[k := v]> m) ;;; ret true;
  sd_Get k := gets (fun m => match m !! k with Some v => (true, v) | None => (false, []) end);
  sd_Delete k := modify (fun m => delete k m);
  sd_Scan target _ := gets (fun m => mem_scan m target)
}.

(** * Entries in key order

    What the scan of an ordered engine visits from a start key on. *)

Definition ordered_from (m : gmap bytes bytes) (start : bytes) (L : list (bytes * bytes)) : Prop :=
  StronglySorted (fun a b => bytes_leb a.1 b.1 = true /\ a.1 <> b.1) L /\
  forall k v, (k, v) ∈ L <-> m !! k = Some v /\ bytes_leb start k = true.

Lemma bytes_leb_take n a b : bytes_leb a b = true -> bytes_leb (take n a) (take n b) = true.
Proof.
  revert a b. induction n as [|n IH]; intros [|x a] [|y b] H; simpl in *; try done.
  destruct (x <? y); [done|]. destruct (y <? x); [done|]. by apply IH.
Qed.

Lemma bytes_leb_antisym a b : bytes_leb a b = true -> bytes_leb b a = true -> a = b.
Proof.
  revert b. induction a as [|x a IH]; intros [|y b] H1 H2; simpl in *; try done.
  destruct (x <? y) eqn:E1, (y <? x) eqn:E2; try done; bool_to_prop; try lia.
  f_equal; [lia|]. by apply IH.
Qed.

(** The entries with the start's prefix come first. *)
Lemma ordered_split (p : bytes) (L : list (bytes * bytes)) :
  StronglySorted (fun a b => bytes_leb a.1 b.1 = true /\ a.1 <> b.1) L ->
  (forall k v, (k, v) ∈ L -> bytes_leb p (take 8 k) = true) ->
  exists P R, L = P ++ R /\ (forall k v, (k, v) ∈ P -> take 8 k = p) /\
    (forall k v, (k, v) ∈ R -> take 8 k <> p).
Proof.
  induction 1 as [|[k v] L HL IH Hall]; intros Hge.
  - exists [], []. split_and!; [done|intros ? ? H; by apply not_elem_of_nil in H..].
  - destruct (decide (take 8 k = p)) as [Hp|Hp].
    + destruct IH as (P & R & -> & HP & HR); [intros; eapply Hge; by right|].
      exists ((k, v) :: P), R. split_and!; [done| |done].
      intros k' v' [[= -> ->]|H]%elem_of_cons; [done|by eapply HP].
    + exists [], ((k, v) :: L). split_and!; [done|intros ? ? H; by apply not_elem_of_nil in H|].
      intros k' v' [[= -> ->]|H]%elem_of_cons; [done|]. intros Hk'. apply Hp.
      assert (bytes_leb k k' = true) as Hle
        by (rewrite list.Forall_forall in Hall; by apply (Hall (k', v') H)).
      apply bytes_leb_antisym; [|by eapply Hge; left]. rewrite <- Hk'. by apply bytes_leb_take.
Qed.

Lemma ordered_NoDup L :
  StronglySorted (fun a b : bytes * bytes => bytes_leb a.1 b.1 = true /\ a.1 <> b.1) L -> NoDup L.*1.
Proof.
  induction 1 as [|e L HL IH Hall]; [constructor|]. simpl. constructor; [|done].
  intros (e' & He & Hin)%list_elem_of_fmap. rewrite list.Forall_forall in Hall.
  by destruct (Hall e' Hin) as [_ Hne].
Qed.

Lemma ordered_scan m target L : ordered_from m target L -> scan_ok m target L.
Proof.
  intros [Hs Hin].
  destruct (ordered_split (take 8 target) L Hs) as (P & R & -> & HP & HR).
  { intros k v [_ Hle]%Hin. by apply bytes_leb_take. }
  pose proof (ordered_NoDup _ Hs) as Hnd. rewrite fmap_app in Hnd. apply list.NoDup_app in Hnd as (Hnd & _).
  exists P, R. split_and!; [done|done| | |].
  - intros k v H. split; [|by eapply HP]. by apply Hin, elem_of_app; left.
  - intros k v Hm Hp Hle. assert ((k, v) ∈ P ++ R) as [H|H]%elem_of_app by (by apply Hin); [done|].
    by destruct (HR k v H).
  - intros k v R' ->. split; [by eapply HR; left|]. by apply Hin, elem_of_app; right; left.
Qed.

(** The entries of a map in order. *)
Definition sorted_entries (m : gmap bytes bytes) (start : bytes) : list (bytes * bytes) :=
  filter (fun kv => bytes_leb start kv.1 = true)
    (merge_sort key_le (map_to_list m)).

Lemma bytes_leb_total a b : bytes_leb a b = true \/ bytes_leb b a = true.
Proof.
  revert b. induction a as [|x a IH]; intros [|y b]; simpl; auto.
  destruct (x <? y) eqn:E1, (y <? x) eqn:E2; auto.
Qed.

Lemma bytes_leb_trans a b c : bytes_leb a b = true -> bytes_leb b c = true -> bytes_leb a c = true.
Proof.
  revert b c. induction a as [|x a IH]; intros [|y b] [|z c] H1 H2; simpl in *; try done.
  destruct (x <? y) eqn:E1, (y <? x) eqn:E2, (y <? z) eqn:E3, (z <? y) eqn:E4; try done; bool_to_prop; try lia;
    destruct (x <? z) eqn:E5; try done; destruct (z <? x) eqn:E6; try done; bool_to_prop; try lia.
  by eapply IH.
Qed.

Lemma sorted_entries_ok m start : ordered_from m start (sorted_entries m start).
Proof.
  unfold sorted_entries. pose proof (merge_sort_Permutation key_le (map_to_list m)) as Hp. split.
  - assert (StronglySorted key_le (merge_sort key_le (map_to_list m))) as Hs.
    { apply StronglySorted_merge_sort; [intros ? ? ?; apply bytes_leb_trans|intros ? ?; apply bytes_leb_total]. }
    assert (NoDup (merge_sort key_le (map_to_list m)).*1) as Hn by (rewrite Hp; apply NoDup_fst_map_to_list).
    clear Hp. induction Hs as [|e L HL IH Hall]; simpl; [constructor|].
    simpl in Hn. apply list.NoDup_cons in Hn as [Hne Hn]. rewrite filter_cons. case_decide; [|by apply IH].
    constructor; [by apply IH|]. apply list.Forall_forall. intros e' [_ Hin]%list_elem_of_filter.
    rewrite list.Forall_forall in Hall. split; [by apply Hall|]. intros Heq. apply Hne. rewrite Heq.
    by apply list_elem_of_fmap_2.
  - intros k v. rewrite list_elem_of_filter, Hp, elem_of_map_to_list. simpl. tauto.
Qed.
