(* ===== verification/VecKv.v ===== *)
(** The adaptors over engines of strings: [src/adaptor/utree_wrapper.cc],
    [roart_wrapper.cc] and [tlhash_wrapper.cc], with their iterators.

    An adaptor is an instance of [KvWrapper]. *)

From S2P Require Import Prelude Coding WriteBatch Kv Engines.

Set Default Proof Using "Type".

(** [std::vector<std::pair<std::string, std::string>> dentry_] *)
Abbreviation str_iter := (vec_iter (bytes * bytes)%type).

(** * uTree *)

Section utree.
Context {D : Type} `{!StringDb D} (TreeDB : bytes -> Z -> prog D unit).

Definition log_path : bytes := str "/mnt/pmem/utree/log".
Definition log_size : Z := u64 (60 * 1024 * 1024 * 1024).

Definition uTree_Init : prog (owned D) Z := make_unique (TreeDB log_path log_size) ;;; ret 1.

Definition uTree_Cleanup : prog (owned D) unit := ret tt.

Definition uTree_Put (key value : bytes) : prog (owned D) Z :=
  res <- through (sd_Put key value) ;;
  if (res : bool) then ret 0 else ret (-1).

Definition uTree_Get (key : bytes) : prog (owned D) (Z * bytes) :=
  ' (res, result) <- through (sd_Get key) ;;
  if (res : bool) then ret (1, result) else ret (0, result).

Definition uTree_Delete (key : bytes) : prog (owned D) Z := through (sd_Delete key) ;;; ret 0.

(** [uTreeInserter] *)
Definition uTreeInserter_Put (key value : bytes) : prog (owned D) unit :=
  through (sd_Put key value) ;;; ret tt.
Definition uTreeInserter_Delete (key : bytes) : prog (owned D) unit := through (sd_Delete key).

Definition uTree_Write (batch : bytes) : prog (owned D) Z :=
  run_batch uTreeInserter_Put uTreeInserter_Delete batch ;;; ret 0.

(** [GetStat] and [GetMetric] leave the string as it was. *)
Definition uTree_GetMetric : prog (owned D) (bool * bytes) := ret (true, []).
Definition uTree_GetStat (stat : bytes) : prog (owned D) (bool * bytes) := ret (true, []).
Definition uTree_Sync : prog (owned D) Z := ret 0.

Definition uTree_NewIterator : prog (owned D) str_iter := ret vec_new.
Definition uTreeIterator_Valid (it : str_iter) : prog (owned D) bool := ret (vec_valid it).
Definition uTreeIterator_SeekToFirst (it : str_iter) : prog (owned D) str_iter := ret (vec_first it).
Definition uTreeIterator_SeekToLast (it : str_iter) : prog (owned D) str_iter := ret (vec_last it).

(** The cursor stays where it was. *)
Definition uTreeIterator_Seek (it : str_iter) (target : bytes) : prog (owned D) str_iter :=
  L <- through (sd_Scan target (dentry_ it)) ;; ret (mkVec L (cursor_ it)).

Definition uTreeIterator_Next (it : str_iter) : prog (owned D) str_iter := ret (vec_next it).
Definition uTreeIterator_Prev (it : str_iter) : prog (owned D) str_iter := ret (vec_prev it).
Definition uTreeIterator_key (it : str_iter) : prog (owned D) bytes := e <- vec_at it ;; ret e.1.
Definition uTreeIterator_value (it : str_iter) : prog (owned D) bytes := e <- vec_at it ;; ret e.2.

Definition uTreeWrapper : KvWrapper (owned D) str_iter := {|
  kv_Init := uTree_Init; kv_Cleanup := uTree_Cleanup; kv_Put := uTree_Put; kv_Get := uTree_Get;
  kv_Delete := uTree_Delete; kv_Write := uTree_Write; kv_Sync := uTree_Sync;
  kv_NewIterator := uTree_NewIterator; kv_GetStat := uTree_GetStat; kv_GetMetric := uTree_GetMetric;
  it_Valid := uTreeIterator_Valid; it_Seek := uTreeIterator_Seek; it_Next := uTreeIterator_Next;
  it_key := uTreeIterator_key; it_value := uTreeIterator_value |}.
End utree.

(** * ROART *)

Section roart.
Context {D : Type} `{!StringDb D} (Tree : prog D unit).

Definition Roart_Init : prog (owned D) Z := make_unique Tree ;;; ret 1.

Definition Roart_Cleanup : prog (owned D) unit := ret tt.

Definition Roart_Put (key value : bytes) : prog (owned D) Z :=
  res <- through (sd_Put key value) ;;
  if (res : bool) then ret 0 else ret (-1).

Definition Roart_Get (key : bytes) : prog (owned D) (Z * bytes) :=
  ' (res, result) <- through (sd_Get key) ;;
  if (res : bool) then ret (1, result) else ret (0, result).

Definition Roart_Delete (key : bytes) : prog (owned D) Z := through (sd_Delete key) ;;; ret 0.

(** [RoartInserter] *)
Definition RoartInserter_Put (key value : bytes) : prog (owned D) unit :=
  through (sd_Put key value) ;;; ret tt.
Definition RoartInserter_Delete (key : bytes) : prog (owned D) unit := through (sd_Delete key).

Definition Roart_Write (batch : bytes) : prog (owned D) Z :=
  run_batch RoartInserter_Put RoartInserter_Delete batch ;;; ret 0.

Definition Roart_GetMetric : prog (owned D) (bool * bytes) := ret (true, []).
Definition Roart_GetStat (stat : bytes) : prog (owned D) (bool * bytes) := ret (true, []).
Definition Roart_Sync : prog (owned D) Z := ret 0.

Definition Roart_NewIterator : prog (owned D) str_iter := ret vec_new.
Definition RoartIterator_Valid (it : str_iter) : prog (owned D) bool := ret (vec_valid it).
Definition RoartIterator_SeekToFirst (it : str_iter) : prog (owned D) str_iter := ret (vec_first it).
Definition RoartIterator_SeekToLast (it : str_iter) : prog (owned D) str_iter := ret (vec_last it).
Definition RoartIterator_Seek (it : str_iter) (target : bytes) : prog (owned D) str_iter :=
  L <- through (sd_Scan target (dentry_ it)) ;; ret (mkVec L (cursor_ it)).
Definition RoartIterator_Next (it : str_iter) : prog (owned D) str_iter := ret (vec_next it).
Definition RoartIterator_Prev (it : str_iter) : prog (owned D) str_iter := ret (vec_prev it).
Definition RoartIterator_key (it : str_iter) : prog (owned D) bytes := e <- vec_at it ;; ret e.1.
Definition RoartIterator_value (it : str_iter) : prog (owned D) bytes := e <- vec_at it ;; ret e.2.

Definition RoartWrappr : KvWrapper (owned D) str_iter := {|
  kv_Init := Roart_Init; kv_Cleanup := Roart_Cleanup; kv_Put := Roart_Put; kv_Get := Roart_Get;
  kv_Delete := Roart_Delete; kv_Write := Roart_Write; kv_Sync := Roart_Sync;
  kv_NewIterator := Roart_NewIterator; kv_GetStat := Roart_GetStat; kv_GetMetric := Roart_GetMetric;
  it_Valid := RoartIterator_Valid; it_Seek := RoartIterator_Seek; it_Next := RoartIterator_Next;
  it_key := RoartIterator_key; it_value := RoartIterator_value |}.
End roart.

(** * The two-level hash *)

Section tlhash.
Context {D : Type} `{!StringDb D} (HybridHash HybridHash_Init HybridHash_Exit : prog D unit).

Definition Tlhash_Init : prog (owned D) Z :=
  make_unique HybridHash ;;; through HybridHash_Init ;;; ret 1.

Definition Tlhash_Cleanup : prog (owned D) unit := through HybridHash_Exit.

(** What was stored is read back and compared by an [assert]. *)
Definition Tlhash_Put (key value : bytes) : prog (owned D) Z :=
  res <- through (sd_Put key value) ;;
  if (res : bool) then
    ' (check_res, check) <- through (sd_Get key) ;;
    if decide (value = check) then ret 0 else undefined AssertFailed
  else ret (-1).

Definition Tlhash_Get (key : bytes) : prog (owned D) (Z * bytes) :=
  ' (res, result) <- through (sd_Get key) ;;
  if (res : bool) then ret (1, result) else ret (0, result).

Definition Tlhash_Delete (key : bytes) : prog (owned D) Z := through (sd_Delete key) ;;; ret 0.

(** [TlhashInserter] *)
Definition TlhashInserter_Put (key value : bytes) : prog (owned D) unit :=
  through (sd_Put key value) ;;; ret tt.
Definition TlhashInserter_Delete (key : bytes) : prog (owned D) unit := through (sd_Delete key).

Definition Tlhash_Write (batch : bytes) : prog (owned D) Z :=
  run_batch TlhashInserter_Put TlhashInserter_Delete batch ;;; ret 0.

Definition Tlhash_GetMetric : prog (owned D) (bool * bytes) := ret (true, []).
Definition Tlhash_GetStat (stat : bytes) : prog (owned D) (bool * bytes) := ret (true, []).
Definition Tlhash_Sync : prog (owned D) Z := ret 0.

Definition Tlhash_NewIterator : prog (owned D) str_iter := ret vec_new.
Definition TlhashIterator_Valid (it : str_iter) : prog (owned D) bool := ret (vec_valid it).
Definition TlhashIterator_SeekToFirst (it : str_iter) : prog (owned D) str_iter := ret (vec_first it).
Definition TlhashIterator_SeekToLast (it : str_iter) : prog (owned D) str_iter := ret (vec_last it).
Definition TlhashIterator_Seek (it : str_iter) (target : bytes) : prog (owned D) str_iter :=
  L <- through (sd_Scan target (dentry_ it)) ;; ret (mkVec L (cursor_ it)).
Definition TlhashIterator_Next (it : str_iter) : prog (owned D) str_iter := ret (vec_next it).
Definition TlhashIterator_Prev (it : str_iter) : prog (owned D) str_iter := ret (vec_prev it).
Definition TlhashIterator_key (it : str_iter) : prog (owned D) bytes := e <- vec_at it ;; ret e.1.
Definition TlhashIterator_value (it : str_iter) : prog (owned D) bytes := e <- vec_at it ;; ret e.2.

Definition TlhashWrapper : KvWrapper (owned D) str_iter := {|
  kv_Init := Tlhash_Init; kv_Cleanup := Tlhash_Cleanup; kv_Put := Tlhash_Put; kv_Get := Tlhash_Get;
  kv_Delete := Tlhash_Delete; kv_Write := Tlhash_Write; kv_Sync := Tlhash_Sync;
  kv_NewIterator := Tlhash_NewIterator; kv_GetStat := Tlhash_GetStat; kv_GetMetric := Tlhash_GetMetric;
  it_Valid := TlhashIterator_Valid; it_Seek := TlhashIterator_Seek; it_Next := TlhashIterator_Next;
  it_key := TlhashIterator_key; it_value := TlhashIterator_value |}.
End tlhash.
