(* ===== verification/ICache.v ===== *)
(** The inode cache: [src/fs/icache.h], [src/fs/icache.cpp].

    An [InodeCacheHandle *] is a location of the heap [w_handles]. The world the
    cache's deleter acts on is the metadata store together with that heap. *)

From S2P Require Import Prelude Coding WriteBatch Inode Cache Kv.

Set Default Proof Using "Type".

Inductive InodeAccessMode : Type := INODE_READ | INODE_DELETE | INODE_WRITE.

#[global] Instance InodeAccessMode_eq_dec : EqDecision InodeAccessMode.
Proof. solve_decision. Defined.

(** The enumerators' values, which [Get] compares. *)
Definition mode_val (m : InodeAccessMode) : Z :=
  match m with INODE_READ => 0 | INODE_DELETE => 1 | INODE_WRITE => 2 end.

Record InodeCacheHandle : Type := mkICH {
  key_ : tfs_meta_key_t;
  value_ : bytes;
  mode_ : InodeAccessMode;
  pointer : option Cache_Handle   (* unset until the cache returns it *)
}.

Definition set_value_ (v : bytes) (h : InodeCacheHandle) : InodeCacheHandle :=
  mkICH (key_ h) v (mode_ h) (pointer h).
Definition set_mode_ (m : InodeAccessMode) (h : InodeCacheHandle) : InodeCacheHandle :=
  mkICH (key_ h) (value_ h) m (pointer h).
Definition set_pointer (p : Cache_Handle) (h : InodeCacheHandle) : InodeCacheHandle :=
  mkICH (key_ h) (value_ h) (mode_ h) (Some p).

Section icache.
Context {S It : Type} `{!KvWrapper S It}.

Record ic_world : Type := mkWorld {
  w_metadb : S;
  w_handles : gmap nat InodeCacheHandle;
  w_next : nat;
  object_count : Z
}.

Definition put_metadb (s : S) (w : ic_world) : ic_world :=
  mkWorld s (w_handles w) (w_next w) (object_count w).
Definition put_handles (hs : gmap nat InodeCacheHandle) (w : ic_world) : ic_world :=
  mkWorld (w_metadb w) hs (w_next w) (object_count w).

Definition on_metadb {A} (m : prog S A) : prog ic_world A := zoom w_metadb put_metadb m.

Definition new_handle (key : tfs_meta_key_t) (value : bytes) (mode : InodeAccessMode)
    : prog ic_world nat := fun w =>
  Ret (w_next w)
    (mkWorld (w_metadb w) (<[w_next w := mkICH key value mode None]> (w_handles w))
       (w_next w + 1)%nat (i32 (object_count w + 1))).

Definition delete_handle (o : nat) : prog ic_world unit := fun w =>
  Ret tt (mkWorld (w_metadb w) (delete o (w_handles w)) (w_next w) (i32 (object_count w - 1))).

Definition get_handle (o : nat) : prog ic_world InodeCacheHandle :=
  w <- get_state ;; deref UseAfterFree (w_handles w !! o).

Definition upd_handle (o : nat) (f : InodeCacheHandle -> InodeCacheHandle) : prog ic_world unit :=
  h <- get_handle o ;; modify (fun w => put_handles (<[o := f h]> (w_handles w)) w).

(** The deleter every handle is inserted with. *)
Definition CleanInodeHandle (key : bytes) (value : nat) : prog ic_world unit :=
  h <- get_handle value ;;
  (match mode_ h with
   | INODE_WRITE => on_metadb (kv_Put (ToSlice (key_ h)) (value_ h)) ;;; ret tt
   | INODE_DELETE => on_metadb (kv_Delete (ToSlice (key_ h))) ;;; ret tt
   | INODE_READ => ret tt
   end) ;;;
  delete_handle value.

Abbreviation ic_prog := (prog (ShardedLRUCache nat * ic_world)).

Definition in_world {A} (m : prog ic_world A) : ic_prog A := zoom snd (fun w st => (st.1, w)) m.

Definition InodeCache_new : ShardedLRUCache nat := NewLRUCache MAX_OPEN_FILES.

Definition InodeCache_Insert (key : tfs_meta_key_t) (value : bytes) : ic_prog nat :=
  handle <- in_world (new_handle key value INODE_WRITE) ;;
  ch <- Cache_Insert CleanInodeHandle (ToSlice key) handle 1 ;;
  in_world (upd_handle handle (set_pointer ch)) ;;;
  ret handle.

Definition InodeCache_Get (key : tfs_meta_key_t) (mode : InodeAccessMode) : ic_prog (option nat) :=
  ch <- Cache_Lookup (ToSlice key) ;;
  match ch with
  | None =>
      ' (r, value) <- in_world (on_metadb (kv_Get (ToSlice key))) ;;
      if r >? 0 then
        handle <- in_world (new_handle key value mode) ;;
        ch <- Cache_Insert CleanInodeHandle (ToSlice key) handle 1 ;;
        in_world (upd_handle handle (set_pointer ch)) ;;;
        ret (Some handle)
      else ret None
  | Some ch =>
      handle <- Cache_Value ch ;;
      (if mode_val mode >? mode_val INODE_READ
       then in_world (upd_handle handle (set_mode_ mode)) else ret tt) ;;;
      ret (Some handle)
  end.

Definition InodeCache_Release (handle : nat) : ic_prog unit :=
  h <- in_world (get_handle handle) ;;
  ch <- deref NullPointer (pointer h) ;;
  Cache_Release CleanInodeHandle ch.

Definition InodeCache_Evict (key : tfs_meta_key_t) : ic_prog unit :=
  Cache_Erase CleanInodeHandle (ToSlice key).

Definition InodeCache_WriteBack (handle : nat) : ic_prog unit :=
  h <- in_world (get_handle handle) ;;
  match mode_ h with
  | INODE_WRITE =>
      in_world (on_metadb (kv_Put (ToSlice (key_ h)) (value_ h))) ;;;
      in_world (upd_handle handle (set_mode_ INODE_READ))
  | INODE_DELETE =>
      in_world (on_metadb (kv_Delete (ToSlice (key_ h)))) ;;;
      InodeCache_Evict (key_ h)
  | INODE_READ => ret tt
  end.

(** One handle's contribution to the batch of [BatchCommit]. *)
Definition BatchCommit_add (handle : nat) (batch : bytes) : ic_prog bytes :=
  h <- in_world (get_handle handle) ;;
  match mode_ h with
  | INODE_WRITE =>
      let batch := WriteBatch_Put batch (ToSlice (key_ h)) (value_ h) in
      in_world (upd_handle handle (set_mode_ INODE_READ)) ;;;
      ret batch
  | INODE_DELETE =>
      let batch := WriteBatch_Delete batch (ToSlice (key_ h)) in
      InodeCache_Evict (key_ h) ;;;
      ret batch
  | INODE_READ => ret batch
  end.

Definition InodeCache_BatchCommit (handle1 handle2 : nat) : ic_prog unit :=
  let batch := WriteBatch_Clear in
  batch <- BatchCommit_add handle1 batch ;;
  batch <- BatchCommit_add handle2 batch ;;
  in_world (on_metadb (kv_Write batch)) ;;;
  ret tt.

(** [delete inode_cache] *)
Definition InodeCache_destroy : ic_prog unit := Cache_destroy CleanInodeHandle.
End icache.

Arguments ic_world : clear implicits.

(** * What the inode cache promises

    [T] is the logical metadata table a client of the cache sees, [m] the
    contents of the store, and [PO o] the number of references clients hold to
    the handle [o]. *)

Section icache_facts.
Context {S It : Type} `{!KvWrapper S It, !KvSpec S It}.
Abbreviation state := (ShardedLRUCache nat * ic_world S)%type.
Implicit Types (T : gmap tfs_meta_key_t bytes) (m : gmap bytes bytes) (PO : nat -> Z)
  (C : ShardedLRUCache nat) (w : ic_world S) (st : state).

Definition pins_of PO C (id : nat * nat) : Z :=
  match clive C id with Some (_, o) => PO o | None => 0 end.

(** A handle that still is in the table mirrors the logical table: read handles
    are clean, dirty handles carry the value the store does not have yet. A
    handle marked for deletion takes effect when it is dropped. [L] gives the
    handles the LRU cache keeps alive and [TB] those it can find. *)
Record handle_ok m T (L : nat * nat -> option (bytes * nat)) (TB : nat * nat -> Prop)
    (o : nat) (h : InodeCacheHandle) (ch : Cache_Handle) : Prop := {
  ho_key : key_ok (key_ h);
  ho_value : str_ok (value_ h);
  ho_pointer : pointer h = Some ch;
  ho_live : L (hid ch) = Some (ToSlice (key_ h), o);
  ho_mode : match mode_ h with
            | INODE_READ => TB (hid ch) ->
                T !! key_ h = Some (value_ h) /\ m !! ToSlice (key_ h) = Some (value_ h)
            | INODE_WRITE => TB (hid ch) /\ T !! key_ h = Some (value_ h)
            | INODE_DELETE => TB (hid ch) -> T !! key_ h = m !! ToSlice (key_ h)
            end
}.

Record ICv m T PO (L : nat * nat -> option (bytes * nat)) (TB : nat * nat -> Prop)
    (hs : gmap nat InodeCacheHandle) (nxt : nat) : Prop := {
  ic_live : forall id k o, L id = Some (k, o) ->
    exists h ch, hs !! o = Some h /\ pointer h = Some ch /\ hid ch = id;
  ic_handle : forall o h, hs !! o = Some h -> exists ch, handle_ok m T L TB o h ch;
  ic_uniq : forall id1 id2 k o1 o2, TB id1 -> TB id2 ->
    L id1 = Some (k, o1) -> L id2 = Some (k, o2) -> id1 = id2;
  ic_pins : forall o, 0 <= PO o;
  ic_dead : forall o, hs !! o = None -> PO o = 0;
  ic_next : forall o, (nxt <= o)%nat -> hs !! o = None;
  ic_store : forall k, key_ok k -> (forall id o, TB id -> L id <> Some (ToSlice k, o)) ->
    T !! k = m !! ToSlice k;
  ic_table : forall k v, T !! k = Some v -> key_ok k /\ str_ok v;
  ic_values : forall k v, m !! k = Some v -> str_ok v
}.

Record IC m T PO st : Prop := {
  ic_rep : kv_rep (w_metadb st.2) m;
  ic_cache : sharded_inv (pins_of PO st.1) st.1;
  ic_view : ICv m T PO (clive st.1) (tabled st.1) (w_handles st.2) (w_next st.2)
}.

Lemma sharded_inv_ext PN PN' C :
  (forall id, PN id = PN' id) -> sharded_inv PN C -> sharded_inv PN' C.
Proof.
  intros E [Hl Hs Ho]. split; [done| |].
  - intros i c Hc. destruct (Hs i c Hc) as [Hi Hb Hk]. split; [|done|done].
    eapply cache_inv_ext; [|exact Hi]. intros l. apply E.
  - intros i l Hi. rewrite <- E. by apply Ho.
Qed.

Lemma kv_key_ToSlice k : kv_key (ToSlice k).
Proof. split; [apply length_ToSlice|apply ToSlice_ok]. Qed.

Lemma ICv_ext m T PO L L' TB TB' hs nxt :
  (forall id, L' id = L id) -> (forall id, TB' id <-> TB id) ->
  ICv m T PO L TB hs nxt -> ICv m T PO L' TB' hs nxt.
Proof.
  intros HL HT [H1 H2 H3 H4 H5 H6 H7 H8 H9]. split; try done.
  - intros id k o. rewrite HL. apply H1.
  - intros o h Eh. destruct (H2 o h Eh) as [ch [Hk Hv Hp Hl Hm]]. exists ch. split; try done.
    + by rewrite HL.
    + destruct (mode_ h); by rewrite ?HT.
  - intros id1 id2 k o1 o2. rewrite !HT, !HL. apply H3.
  - intros k Hk Hn. apply H7; [done|]. intros id o Ht Hl. apply (Hn id o); [by apply HT|by rewrite HL].
Qed.

Section views.
Context {m : gmap bytes bytes} {T : gmap tfs_meta_key_t bytes} {PO : nat -> Z}
  {L : nat * nat -> option (bytes * nat)} {TB : nat * nat -> Prop}
  {hs : gmap nat InodeCacheHandle} {nxt : nat}.
Hypothesis HV : ICv m T PO L TB hs nxt.

(** A live handle and its location in the LRU cache determine each other. *)
Lemma live_handle id k o : L id = Some (k, o) -> exists h ch, hs !! o = Some h /\ hid ch = id /\
  handle_ok m T L TB o h ch /\ k = ToSlice (key_ h).
Proof using HV.
  intros Hl. destruct (ic_live _ _ _ _ _ _ _ HV _ _ _ Hl) as (h & ch & Eh & Ep & Hid).
  destruct (ic_handle _ _ _ _ _ _ _ HV _ _ Eh) as [ch' Hok].
  pose proof (ho_pointer _ _ _ _ _ _ _ Hok) as Ep'. rewrite Ep in Ep'. injection Ep' as <-.
  exists h, ch. pose proof (ho_live _ _ _ _ _ _ _ Hok) as Hl'. rewrite Hid, Hl in Hl'.
  do 3 (split; [done|]). congruence.
Qed.

Lemma live_id id1 id2 k1 k2 o : L id1 = Some (k1, o) -> L id2 = Some (k2, o) -> id1 = id2.
Proof using HV.
  intros H1 H2. destruct (live_handle _ _ _ H1) as (h & ch & E & <- & Hok & _).
  destruct (live_handle _ _ _ H2) as (h' & ch' & E' & <- & Hok' & _).
  rewrite E in E'. injection E' as <-.
  pose proof (ho_pointer _ _ _ _ _ _ _ Hok). pose proof (ho_pointer _ _ _ _ _ _ _ Hok').
  congruence.
Qed.

(** Two handles of one key are not both in the table. *)
Lemma tabled_once o1 o2 h1 h2 ch1 ch2 :
  handle_ok m T L TB o1 h1 ch1 -> handle_ok m T L TB o2 h2 ch2 ->
  TB (hid ch1) -> TB (hid ch2) -> key_ h1 = key_ h2 -> o1 = o2.
Proof using HV.
  intros H1 H2 T1 T2 Hk. pose proof (ho_live _ _ _ _ _ _ _ H1) as L1.
  pose proof (ho_live _ _ _ _ _ _ _ H2) as L2. rewrite <- Hk in L2.
  pose proof (ic_uniq _ _ _ _ _ _ _ HV _ _ _ _ _ T1 T2 L1 L2) as E. rewrite E in L1. congruence.
Qed.
End views.

(** *** Dropping a handle *)

(** What the store and the table become when a handle is dropped. *)
Definition drop_store (h : InodeCacheHandle) m : gmap bytes bytes :=
  match mode_ h with
  | INODE_READ => m
  | INODE_DELETE => delete (ToSlice (key_ h)) m
  | INODE_WRITE => <[ToSlice (key_ h) := value_ h]> m
  end.

Definition drop_table (h : InodeCacheHandle) T : gmap tfs_meta_key_t bytes :=
  match mode_ h with INODE_DELETE => delete (key_ h) T | _ => T end.

Lemma Clean_spec m w o h k :
  kv_rep (w_metadb w) m -> w_handles w !! o = Some h -> str_ok (value_ h) ->
  exists w', CleanInodeHandle k o w = Ret tt w' /\ kv_rep (w_metadb w') (drop_store h m) /\
    w_handles w' = delete o (w_handles w) /\ w_next w' = w_next w.
Proof.
  intros Hrep Eh Hv. unfold CleanInodeHandle, get_handle, drop_store. cbn. unfold bind at 1. cbn.
  rewrite Eh. cbn. destruct (mode_ h).
  - eexists. split; [reflexivity|]. done.
  - destruct (kv_Delete_spec _ _ (ToSlice (key_ h)) Hrep (kv_key_ToSlice _)) as (r & s' & Hd & Hr').
    eexists. unfold bind, on_metadb, zoom. rewrite Hd. split; [reflexivity|]. done.
  - destruct (kv_Put_spec _ _ (ToSlice (key_ h)) (value_ h) Hrep (kv_key_ToSlice _) Hv)
      as (s' & Hp & Hr').
    eexists. unfold bind, on_metadb, zoom. rewrite Hp. split; [reflexivity|]. done.
Qed.
Lemma ToSlice_ne k1 k2 : key_ok k1 -> key_ok k2 -> k1 <> k2 -> ToSlice k1 <> ToSlice k2.
Proof. intros H1 H2 Hne E. by apply Hne, ToSlice_inj. Qed.

Lemma drop_store_ne h m k : key_ok (key_ h) -> key_ok k -> k <> key_ h ->
  drop_store h m !! ToSlice k = m !! ToSlice k.
Proof.
  intros Hh Hk Hne. pose proof (ToSlice_ne _ _ Hh Hk (not_eq_sym Hne)). unfold drop_store.
  destruct (mode_ h); [done|by rewrite lookup_delete_ne|by rewrite lookup_insert_ne].
Qed.

Lemma drop_table_ne h T k : k <> key_ h -> drop_table h T !! k = T !! k.
Proof.
  intros Hne. unfold drop_table. destruct (mode_ h); [done|by rewrite lookup_delete_ne|done].
Qed.

(** *** Dropping a handle *)
Section drop.
Context m T PO L TB hs nxt o h ch (HV : ICv m T PO L TB hs nxt) (Eh : hs !! o = Some h)
  (Hok : handle_ok m T L TB o h ch).
Context (Hdel : mode_ h = INODE_DELETE -> forall id o', TB id -> L id = Some (ToSlice (key_ h), o') -> o' = o).

(** Only a clean handle can have another one of its key in the table. *)
Lemma free_shares_key o' h' ch' : o' <> o -> handle_ok m T L TB o' h' ch' -> TB (hid ch') -> key_ h' = key_ h ->
  mode_ h = INODE_READ.
Proof using HV Eh Hok Hdel.
  intros Hne Hok' Ht Hk. pose proof (ho_mode _ _ _ _ _ _ _ Hok) as Hmo. destruct (mode_ h) eqn:Em; [done| |].
  - exfalso. apply Hne. apply (Hdel eq_refl (hid ch')); [done|]. rewrite <- Hk. apply Hok'.
  - exfalso. apply Hne. eapply (tabled_once HV); eauto. by destruct Hmo.
Qed.

Lemma free_others o' h' ch' : o' <> o -> handle_ok m T L TB o' h' ch' -> TB (hid ch') ->
  drop_table h T !! key_ h' = T !! key_ h' /\ drop_store h m !! ToSlice (key_ h') = m !! ToSlice (key_ h').
Proof using HV Eh Hok Hdel.
  intros Hne Hok' Ht. destruct (decide (key_ h' = key_ h)) as [Hk|Hk].
  - unfold drop_table, drop_store. by rewrite (free_shares_key o' h' ch' Hne Hok' Ht Hk).
  - split; [by apply drop_table_ne|apply drop_store_ne; try done; apply Hok || apply Hok'].
Qed.

Lemma free_handles o' h' : o' <> o -> hs !! o' = Some h' ->
  exists ch', handle_ok (drop_store h m) (drop_table h T) (fun x => if decide (x = hid ch) then None else L x)
    (fun x => x <> hid ch /\ TB x) o' h' ch'.
Proof using HV Eh Hok Hdel.
  intros Hne E'. destruct (ic_handle _ _ _ _ _ _ _ HV o' h' E') as [ch' Hok']. exists ch'.
  assert (hid ch' <> hid ch) as Hid.
  { intros E. pose proof (ho_live _ _ _ _ _ _ _ Hok'). pose proof (ho_live _ _ _ _ _ _ _ Hok). congruence. }
  pose proof Hok' as [Hk' Hv' Hp' Hl' Hm']. split; [done|done|done|by rewrite decide_False|].
  pose proof (free_others o' h' ch' Hne Hok') as Hsame. destruct (mode_ h').
  - intros [_ Ht]. destruct (Hsame Ht) as [-> ->]. auto.
  - intros [_ Ht]. destruct (Hsame Ht) as [-> ->]. auto.
  - destruct Hm' as [Ht Hm']. destruct (Hsame Ht) as [-> _]. auto.
Qed.

Lemma free_store k : TB (hid ch) \/ ~ TB (hid ch) -> key_ok k ->
  (forall id o', id <> hid ch /\ TB id -> (if decide (id = hid ch) then None else L id) <> Some (ToSlice k, o')) ->
  drop_table h T !! k = drop_store h m !! ToSlice k.
Proof using HV Eh Hok.
  clear Hdel. intros Hdec Hk Hn. pose proof (ho_live _ _ _ _ _ _ _ Hok) as Hlo. pose proof (ho_mode _ _ _ _ _ _ _ Hok) as Hmo.
  pose proof (ho_key _ _ _ _ _ _ _ Hok) as Hko. pose proof (ic_store _ _ _ _ _ _ _ HV) as H7.
  destruct (decide (k = key_ h)) as [->|Hne].
  - unfold drop_table, drop_store. destruct (mode_ h) eqn:Em.
    + destruct Hdec as [Ht|Ht]; [by destruct (Hmo Ht) as [-> ->]|]. apply H7; [done|].
      intros id o' Htid Hl. assert (id <> hid ch) as Hne by by intros ->.
      apply (Hn id o'); [done|]. by rewrite decide_False.
    + by rewrite !lookup_delete_eq.
    + destruct Hmo as [_ ->]. by rewrite lookup_insert_eq.
  - rewrite drop_table_ne, drop_store_ne by done. apply H7; [done|]. intros id o' Ht Hl.
    assert (id <> hid ch) as Hid.
    { intros ->. apply (ToSlice_ne _ _ Hko Hk (not_eq_sym Hne)). congruence. }
    apply (Hn id o'); [done|]. by rewrite decide_False.
Qed.
End drop.

(** Dropping the handle [o], which no client uses any more. *)
Lemma V_free m T PO L TB hs nxt o h ch :
  ICv m T PO L TB hs nxt -> hs !! o = Some h -> handle_ok m T L TB o h ch -> PO o = 0 ->
  TB (hid ch) \/ ~ TB (hid ch) ->
  (mode_ h = INODE_DELETE -> forall id o', TB id -> L id = Some (ToSlice (key_ h), o') -> o' = o) ->
  ICv (drop_store h m) (drop_table h T) PO
    (fun x => if decide (x = hid ch) then None else L x) (fun x => x <> hid ch /\ TB x)
    (delete o hs) nxt.
Proof.
  intros HV Eh Hok HPO Hdec Hdel. pose proof HV as [H1 H2 H3 H4 H5 H6 H7 H8 H9].
  pose proof (ho_live _ _ _ _ _ _ _ Hok) as Hlo. split; try done.
  - intros id k o'. case_decide as Hid; [done|]. intros Hl.
    destruct (live_handle HV _ _ _ Hl) as (h' & ch' & E' & Hid' & Hok' & _).
    exists h', ch'. rewrite lookup_delete_ne; [split; [done|]; split; [apply Hok'|done]|].
    intros <-. apply Hid. eapply (live_id HV); eauto.
  - intros o' h'. rewrite lookup_delete_Some. intros [Hne E']. by eapply free_handles.
  - intros id1 id2 k o1 o2 [_ Ht1] [_ Ht2]. do 2 (case_decide; [done|]). by apply H3.
  - intros o'. rewrite lookup_delete_None. intros [<-|Hn]; [done|by apply H5].
  - intros o' Hn. rewrite lookup_delete_None. right. by apply H6.
  - intros k Hk Hn. by eapply free_store.
  - intros k v. unfold drop_table. destruct (mode_ h); [apply H8| |apply H8].
    rewrite lookup_delete_Some. intros [_ ?]. by apply H8.
  - intros k v. unfold drop_store. destruct (mode_ h); [apply H9| |].
    + rewrite lookup_delete_Some. intros [_ ?]. by eapply H9.
    + rewrite lookup_insert_Some. intros [[_ <-]|[_ ?]]; [apply Hok|by eapply H9].
Qed.

(** A client writes the value of a handle that is in the table. *)
Lemma V_write m T PO L TB hs nxt o h ch v :
  ICv m T PO L TB hs nxt -> hs !! o = Some h -> handle_ok m T L TB o h ch -> TB (hid ch) ->
  str_ok v ->
  ICv m (<[key_ h := v]> T) PO L TB (<[o := mkICH (key_ h) v INODE_WRITE (pointer h)]> hs) nxt.
Proof.
  intros HV Eh Hok Ht Hv. pose proof HV as [H1 H2 H3 H4 H5 H6 H7 H8 H9].
  pose proof Hok as [Hko Hvo Hpo Hlo Hmo].
  split; try done.
  - intros id k o' Hl. destruct (H1 id k o' Hl) as (h' & ch' & E' & Hp' & Hid).
    destruct (decide (o' = o)) as [->|Hne].
    + rewrite lookup_insert_eq. rewrite Eh in E'. injection E' as <-. by eexists _, _.
    + rewrite lookup_insert_ne by done. eauto.
  - intros o' h'. rewrite lookup_insert_Some. intros [[<- <-]|[Hne E']].
    + exists ch. split; simpl; try done. split; [done|]. by rewrite lookup_insert_eq.
    + destruct (H2 o' h' E') as [ch' Hok']. exists ch'.
      assert (TB (hid ch') -> key_ h' <> key_ h) as Hk.
      { intros Ht' Hk. apply Hne. symmetry. by eapply (tabled_once HV _ _ _ _ _ _ Hok' Hok). }
      pose proof Hok' as [Hk' Hv' Hp' Hl' Hm']. split; try done.
      destruct (mode_ h').
      * intros Ht'. rewrite lookup_insert_ne; [auto|]. by apply not_eq_sym, Hk.
      * intros Ht'. rewrite lookup_insert_ne; [auto|]. by apply not_eq_sym, Hk.
      * destruct Hm' as [Ht' Hm']. split; [done|]. rewrite lookup_insert_ne; [auto|].
        by apply not_eq_sym, Hk.
  - intros o'. rewrite lookup_insert_None. intros [Hn _]. by apply H5.
  - intros o' Hn. rewrite lookup_insert_None. split; [by apply H6|]. intros <-.
    rewrite (H6 o Hn) in Eh. done.
  - intros k Hk Hn. rewrite lookup_insert_ne; [by apply H7|]. intros <-. by apply (Hn (hid ch) o).
  - intros k v'. rewrite lookup_insert_Some. intros [[<- <-]|[_ ?]]; [done|by apply H8].
Qed.
(** Replacing one handle by another with the same key and location, when the
    store and the table change at that key only. *)
Lemma V_replace m m' T PO L TB hs nxt o h ch h' :
  ICv m T PO L TB hs nxt -> hs !! o = Some h -> handle_ok m T L TB o h ch ->
  TB (hid ch) -> key_ h' = key_ h -> pointer h' = pointer h -> handle_ok m' T L TB o h' ch ->
  (forall k, key_ok k -> k <> key_ h -> m' !! ToSlice k = m !! ToSlice k) ->
  (forall k v, m' !! k = Some v -> str_ok v) ->
  ICv m' T PO L TB (<[o := h']> hs) nxt.
Proof.
  intros HV Eh Hok Ht Hkey Hptr Hok1 Hm Hvals. pose proof HV as [H1 H2 H3 H4 H5 H6 H7 H8 H9].
  split; try done.
  - intros id k o' Hl. destruct (H1 id k o' Hl) as (h1 & ch' & E' & Hp' & Hid).
    destruct (decide (o' = o)) as [->|Hne].
    + rewrite lookup_insert_eq. rewrite Eh in E'. injection E' as <-.
      exists h', ch'. split; [done|]. split; [by rewrite Hptr|done].
    + rewrite lookup_insert_ne by done. eauto.
  - intros o' h1. rewrite lookup_insert_Some. intros [[<- <-]|[Hne E']]; [by exists ch|].
    destruct (H2 o' h1 E') as [ch' Hok']. exists ch'.
    assert (TB (hid ch') -> m' !! ToSlice (key_ h1) = m !! ToSlice (key_ h1)) as Hk.
    { intros Ht'. apply Hm; [apply Hok'|]. intros Hk. apply Hne. symmetry.
      by eapply (tabled_once HV _ _ _ _ _ _ Hok' Hok). }
    pose proof Hok' as [Hk' Hv' Hp' Hl' Hm']. split; try done.
    destruct (mode_ h1); [| |done]; intros Ht'; rewrite Hk by done; auto.
  - intros o'. rewrite lookup_insert_None. intros [Hn _]. by apply H5.
  - intros o' Hn. rewrite lookup_insert_None. split; [by apply H6|]. intros <-.
    rewrite (H6 o Hn) in Eh. done.
  - intros k Hk Hn. rewrite Hm; [by apply H7|done|]. intros ->.
    apply (Hn (hid ch) o); [done|apply Hok].
Qed.

(** Writing a dirty handle back. *)
Lemma V_clean m T PO L TB hs nxt o h ch :
  ICv m T PO L TB hs nxt -> hs !! o = Some h -> handle_ok m T L TB o h ch ->
  mode_ h = INODE_WRITE ->
  ICv (<[ToSlice (key_ h) := value_ h]> m) T PO L TB (<[o := set_mode_ INODE_READ h]> hs) nxt.
Proof.
  intros HV Eh Hok Hm. pose proof Hok as [Hk Hv Hp Hl Hmo]. rewrite Hm in Hmo.
  destruct Hmo as [Ht HT].
  eapply V_replace; [done|done|done|done|done|done| | |].
  - split; simpl; try done. intros _. by rewrite lookup_insert_eq.
  - intros k Hkk Hne. rewrite lookup_insert_ne; [done|]. apply not_eq_sym.
    by apply ToSlice_ne.
  - intros k v. rewrite lookup_insert_Some. intros [[_ <-]|[_ ?]]; [done|].
    by eapply (ic_values _ _ _ _ _ _ _ HV).
Qed.

(** Marking a clean handle for deletion. *)
Lemma V_mark m T PO L TB hs nxt o h ch :
  ICv m T PO L TB hs nxt -> hs !! o = Some h -> handle_ok m T L TB o h ch -> TB (hid ch) ->
  mode_ h <> INODE_WRITE -> ICv m T PO L TB (<[o := set_mode_ INODE_DELETE h]> hs) nxt.
Proof.
  intros HV Eh Hok Ht Hm. pose proof Hok as [Hk Hv Hp Hl Hmo].
  eapply V_replace; [done|done|done|done|done|done| |done|apply (ic_values _ _ _ _ _ _ _ HV)].
  split; simpl; try done. intros _. destruct (mode_ h); [|auto|done].
  destruct (Hmo Ht) as [-> ->]. done.
Qed.

(** The cache forgets a handle that a client still uses. *)
Lemma V_untab m T PO L TB hs nxt o h ch :
  ICv m T PO L TB hs nxt -> hs !! o = Some h -> handle_ok m T L TB o h ch -> TB (hid ch) ->
  mode_ h <> INODE_WRITE -> ICv m T PO L (fun x => x <> hid ch /\ TB x) hs nxt.
Proof.
  intros HV Eh Hok Ht Hm. pose proof HV as [H1 H2 H3 H4 H5 H6 H7 H8 H9].
  split; try done.
  - intros o' h' E'. destruct (H2 o' h' E') as [ch' Hok']. exists ch'.
    pose proof Hok' as [Hk' Hv' Hp' Hl' Hm']. split; try done.
    destruct (mode_ h') eqn:Em.
    + intros [_ ?]. auto.
    + intros [_ ?]. auto.
    + destruct Hm' as [Ht' HT']. split; [|done]. split; [|done]. intros Hid.
      rewrite Hid in Hl'. rewrite (ho_live _ _ _ _ _ _ _ Hok) in Hl'.
      assert (o = o') as <- by congruence. rewrite Eh in E'. by injection E' as <-.
  - intros id1 id2 k o1 o2 [_ ?] [_ ?]. by apply H3.
  - intros k Hk Hn. destruct (decide (k = key_ h)) as [->|Hne].
    + pose proof (ho_mode _ _ _ _ _ _ _ Hok) as Hmo. destruct (mode_ h); [|auto|done].
      destruct (Hmo Ht) as [-> ->]. done.
    + apply H7; [done|]. intros id o' Htid Hl. apply (Hn id o'); [|done]. split; [|done].
      intros ->. rewrite (ho_live _ _ _ _ _ _ _ Hok) in Hl.
      apply (ToSlice_ne _ _ (ho_key _ _ _ _ _ _ _ Hok) Hk (not_eq_sym Hne)). congruence.
Qed.

(** A new handle, loaded from the store or carrying a value of its own. *)
Lemma V_add m T PO L TB hs nxt k v mode ch :
  ICv m T PO L TB hs nxt -> key_ok k -> str_ok v -> L (hid ch) = None ->
  (forall id o, TB id -> L id <> Some (ToSlice k, o)) ->
  (mode <> INODE_WRITE -> m !! ToSlice k = Some v) ->
  ICv m (if decide (mode = INODE_WRITE) then <[k := v]> T else T)
    (fun o => if decide (o = nxt) then 1 else PO o)
    (fun x => if decide (x = hid ch) then Some (ToSlice k, nxt) else L x)
    (fun x => x = hid ch \/ TB x)
    (<[nxt := mkICH k v mode (Some ch)]> hs) (nxt + 1).
Proof.
  intros HV Hk Hv Hfree Hnew Hload. pose proof HV as [H1 H2 H3 H4 H5 H6 H7 H8 H9].
  assert (hs !! nxt = None) as Hnone by by apply H6.
  assert (T !! k = m !! ToSlice k) as HTk by by apply H7.
  set (T' := if decide (mode = INODE_WRITE) then <[k := v]> T else T).
  assert (forall k', k' <> k -> T' !! k' = T !! k') as HTne.
  { intros k' Hne. unfold T'. case_decide; [|done]. by rewrite lookup_insert_ne. }
  assert (T' !! k = Some v) as HTv.
  { unfold T'. case_decide; [by rewrite lookup_insert_eq|]. rewrite HTk. auto. }
  assert (forall k' v', T' !! k' = Some v' -> key_ok k' /\ str_ok v') as HT8.
  { intros k' v' E. destruct (decide (k' = k)) as [->|Hne]; [|rewrite HTne in E by done; by apply H8].
    rewrite HTv in E. by injection E as <-. }
  clearbody T'.
  split.
  - intros id k' o. case_decide as Hid.
    + intros [= _ <-]. rewrite lookup_insert_eq. by eexists _, _.
    + intros Hl. destruct (H1 id k' o Hl) as (h' & ch' & E' & ? & ?). exists h', ch'.
      rewrite lookup_insert_ne; [done|]. intros <-. congruence.
  - intros o h. rewrite lookup_insert_Some. intros [[<- <-]|[Hne E]].
    + exists ch. split; cbn [key_ value_ mode_ pointer]; [done|done|done|by rewrite decide_True|].
      rewrite HTv. destruct mode; [intros _; by rewrite Hload|intros _; by rewrite Hload|].
      split; [by left|done].
    + destruct (H2 o h E) as [ch' Hok']. exists ch'. pose proof Hok' as [Hk' Hv' Hp' Hl' Hm'].
      assert (hid ch' <> hid ch) as Hid by (intros Hid; rewrite Hid in Hl'; congruence).
      assert (TB (hid ch') -> key_ h <> k) as Hkne.
      { intros Ht Hkk. rewrite Hkk in Hl'. by apply (Hnew (hid ch') o). }
      split; try done; [by rewrite decide_False|].
      destruct (mode_ h).
      * intros [?|Ht]; [done|]. rewrite HTne by auto. auto.
      * intros [?|Ht]; [done|]. rewrite HTne by auto. auto.
      * destruct Hm' as [Ht HT]. split; [by right|]. rewrite HTne by auto. auto.
  - intros id1 id2 k' o1 o2 Ht1 Ht2. do 2 case_decide; subst; [done| | |].
    + intros Ha Hl. assert (ToSlice k = k') as <- by congruence. destruct Ht2 as [?|Ht2]; [done|]. exfalso. by eapply Hnew.
    + intros Hl Ha. assert (ToSlice k = k') as <- by congruence. destruct Ht1 as [?|Ht1]; [done|]. exfalso. by eapply Hnew.
    + destruct Ht1 as [?|Ht1]; [done|]. destruct Ht2 as [?|Ht2]; [done|]. by apply H3.
  - intros o. case_decide; [lia|apply H4].
  - intros o. rewrite lookup_insert_None. intros [E Hne]. rewrite decide_False by done. by apply H5.
  - intros o Ho. rewrite lookup_insert_None. split; [apply H6; lia|lia].
  - intros k' Hk' Hn. assert (k' <> k) as Hne.
    { intros ->. apply (Hn (hid ch) nxt); [by left|]. by rewrite decide_True. }
    rewrite HTne by done. apply H7; [done|]. intros id o Ht Hl.
    apply (Hn id o); [by right|]. rewrite decide_False; [done|]. intros ->. congruence.
  - done.
  - done.
Qed.
(** *** References held by clients *)

Definition hold (o : nat) PO : nat -> Z := fun x => if decide (x = o) then PO x + 1 else PO x.
Definition unhold (o : nat) PO : nat -> Z := fun x => if decide (x = o) then PO x - 1 else PO x.

Lemma V_pins m T PO PO' L TB hs nxt :
  (forall o, 0 <= PO' o) -> (forall o, hs !! o = None -> PO' o = 0) ->
  ICv m T PO L TB hs nxt -> ICv m T PO' L TB hs nxt.
Proof. intros Hp Hd [H1 H2 H3 H4 H5 H6 H7 H8 H9]. by split. Qed.

Lemma V_hold m T PO L TB hs nxt o h :
  hs !! o = Some h -> ICv m T PO L TB hs nxt -> ICv m T (hold o PO) L TB hs nxt.
Proof.
  intros Eh HV. eapply V_pins; [| |done]; intros x; unfold hold.
  - pose proof (ic_pins _ _ _ _ _ _ _ HV x). case_decide; lia.
  - intros Hx. case_decide; [congruence|]. by apply (ic_dead _ _ _ _ _ _ _ HV).
Qed.

Lemma V_unhold m T PO L TB hs nxt o h :
  hs !! o = Some h -> 0 < PO o -> ICv m T PO L TB hs nxt -> ICv m T (unhold o PO) L TB hs nxt.
Proof.
  intros Eh Ho HV. eapply V_pins; [| |done]; intros x; unfold unhold.
  - pose proof (ic_pins _ _ _ _ _ _ _ HV x). case_decide; [subst; lia|done].
  - intros Hx. case_decide; [congruence|]. by apply (ic_dead _ _ _ _ _ _ _ HV).
Qed.

Section pins.
Context m T PO C (hs : gmap nat InodeCacheHandle) (nxt : nat) (id : nat * nat) (k : bytes) (o : nat).
Hypotheses (HV : ICv m T PO (clive C) (tabled C) hs nxt) (Hl : clive C id = Some (k, o)).

Lemma pins_hold x : Pin id (pins_of PO C) x = pins_of (hold o PO) C x.
Proof using HV Hl.
  unfold Pin, pins_of, hold. destruct (decide (x = id)) as [->|Hne].
  - rewrite Hl. by rewrite decide_True.
  - destruct (clive C x) as [[k' o']|] eqn:Hx; [|done]. rewrite decide_False; [done|].
    intros ->. apply Hne. by eapply (live_id HV).
Qed.

Lemma pins_unhold x : Unpin id (pins_of PO C) x = pins_of (unhold o PO) C x.
Proof using HV Hl.
  unfold Unpin, pins_of, unhold. destruct (decide (x = id)) as [->|Hne].
  - rewrite Hl. by rewrite decide_True.
  - destruct (clive C x) as [[k' o']|] eqn:Hx; [|done]. rewrite decide_False; [done|].
    intros ->. apply Hne. by eapply (live_id HV).
Qed.

Lemma pins_at : pins_of PO C id = PO o.
Proof using Hl. unfold pins_of. by rewrite Hl. Qed.
End pins.

Lemma pins_view PO C C' x : clive C' x = clive C x -> pins_of PO C' x = pins_of PO C x.
Proof. intros E. unfold pins_of. by rewrite E. Qed.

(** *** Programs on the parts of the state *)

Lemma in_world_Ret {A} (p : prog (ic_world S) A) C w a w' :
  p w = Ret a w' -> in_world p (C, w) = Ret a (C, w').
Proof. apply (zoom_Ret snd (fun w st => (st.1, w)) p (C, w)). Qed.

Lemma metadb_Ret {A} (p : prog S A) w a s' :
  p (w_metadb w) = Ret a s' -> on_metadb p w = Ret a (put_metadb s' w).
Proof. apply zoom_Ret. Qed.

Lemma get_handle_Ret w o h : w_handles w !! o = Some h -> get_handle o w = Ret h w.
Proof. intros E. unfold get_handle, bind, get_state. by rewrite E. Qed.

Lemma upd_handle_Ret w o h f : w_handles w !! o = Some h ->
  upd_handle o f w = Ret tt (put_handles (<[o := f h]> (w_handles w)) w).
Proof. intros E. unfold upd_handle. by rewrite (bind_Ret _ _ _ _ _ (get_handle_Ret _ _ _ E)). Qed.

(** Nobody else holds a reference: the entry is clean. *)
Definition settled PO (hs : gmap nat InodeCacheHandle) : Prop :=
  forall o h, hs !! o = Some h -> PO o = 0 -> mode_ h = INODE_READ.

(** Loading the inode of [k] pushes out none that is in use, and there is room for
    one more reference to it. *)
Definition ic_safe PO C (k : tfs_meta_key_t) : Prop :=
  csafe (pins_of PO C) C (ToSlice k) /\ ccountable (pins_of PO C) C (ToSlice k).

(** The handles of [k] are not marked for deletion, and not in use if they are
    about to be. *)
Definition getable PO (hs : gmap nat InodeCacheHandle) (k : tfs_meta_key_t) (mode : InodeAccessMode)
    : Prop :=
  forall o h, hs !! o = Some h -> key_ h = k ->
    mode_ h <> INODE_DELETE /\ (mode = INODE_DELETE -> PO o = 0).

(** The handles in use are the same. *)
Definition keeps PO (hs hs' : gmap nat InodeCacheHandle) : Prop :=
  forall o, 0 < PO o -> hs' !! o = hs !! o.
Lemma tabled_dec C id : tabled C id \/ ~ tabled C id.
Proof.
  unfold tabled. destruct (shard_ C !! id.1) as [c|]; [|right; naive_solver].
  destruct (decide (id.2 ∈ lru_ c)); [left; eauto|right; naive_solver].
Qed.

(** Every entry nobody uses can be dropped, whatever else is on the heap. *)
Lemma entries_droppable m T PO C w w1 :
  IC m T PO (C, w) -> w_handles w ⊆ w_handles w1 -> kv_rep (w_metadb w1) m ->
  cdroppable CleanInodeHandle (pins_of PO C) C w1.
Proof.
  intros [Hrep Hc HV] Hsub Hrep1 id k o Ht Hp Hl.
  destruct (live_handle HV _ _ _ Hl) as (h & ch & Eh & Hid & Hok & ->).
  destruct (Clean_spec m w1 o h (ToSlice (key_ h)) Hrep1) as (w' & Hrun & _).
  - by eapply lookup_weaken.
  - apply Hok.
  - by exists w'.
Qed.

Definition insert_handle (k : tfs_meta_key_t) (v : bytes) (mode : InodeAccessMode)
    : prog (ShardedLRUCache nat * ic_world S) nat :=
  handle <- in_world (new_handle k v mode) ;;
  ch <- Cache_Insert CleanInodeHandle (ToSlice k) handle 1 ;;
  in_world (upd_handle handle (set_pointer ch)) ;;;
  ret handle.

(** The view after one clean entry [g] was dropped. *)
Lemma V_gone m T PO C (hs : gmap nat InodeCacheHandle) nxt g k1 o1 :
  ICv m T PO (clive C) (tabled C) hs nxt -> settled PO hs -> pins_of PO C g = 0 ->
  clive C g = Some (k1, o1) ->
  ICv m T PO (fun x => if decide (x = g) then None else clive C x) (fun x => x <> g /\ tabled C x)
    (delete o1 hs) nxt.
Proof.
  intros HV Hset Hp Hl. destruct (live_handle HV _ _ _ Hl) as (h & ch & Eh & Hid & Hok & ->).
  rewrite (pins_at PO C g (ToSlice (key_ h)) o1 Hl) in Hp.
  pose proof (Hset o1 h Eh Hp) as Hm.
  pose proof (V_free _ _ _ _ _ _ _ _ _ _ HV Eh Hok Hp (tabled_dec _ _)) as HF.
  unfold drop_store, drop_table in HF. rewrite Hm, Hid in HF. by apply HF.
Qed.

(** The state between the eviction of the victim and the registration of the new
    handle. *)
Lemma insert_victim m T PO C w w1 w' k gone h0 :
  IC m T PO (C, w) -> settled PO (w_handles w) ->
  w_handles w !! w_next w = None ->
  w1 = mkWorld (w_metadb w) (<[w_next w := h0]> (w_handles w)) (w_next w + 1)
         (i32 (object_count w + 1)) ->
  match gone with
  | None => ccached C (ToSlice k) = None /\ w' = w1
  | Some g => (ccached C (ToSlice k) = None \/ ccached C (ToSlice k) = Some g) /\ tabled C g /\
      pins_of PO C g = 0 /\
      exists k1 o1, clive C g = Some (k1, o1) /\ CleanInodeHandle k1 o1 w1 = Ret tt w'
  end ->
  exists hs1, w_handles w' = <[w_next w := h0]> hs1 /\ kv_rep (w_metadb w') m /\
    w_next w' = (w_next w + 1)%nat /\ keeps PO (w_handles w) hs1 /\ hs1 ⊆ w_handles w /\
    ICv m T PO (fun x => if decide (gone = Some x) then None else clive C x)
      (fun x => gone <> Some x /\ tabled C x) hs1 (w_next w) /\
    (forall id x, gone <> Some id -> tabled C id -> clive C id <> Some (ToSlice k, x)).
Proof.
  intros [Hrep Hc HV] Hset Hfresh -> Hgone. simpl in Hrep, Hc, HV.
  assert (forall id x, tabled C id -> clive C id = Some (ToSlice k, x) ->
            ccached C (ToSlice k) = Some id) as Hcc.
  { intros id x Ht Hl. apply (ccached_Some _ _ _ _ Hc). eauto. }
  destruct gone as [g|].
  - destruct Hgone as (Hwhich & Htg & Hpg & k1 & o1 & Hlg & Hclean).
    destruct (live_handle HV _ _ _ Hlg) as (h1 & ch1 & E1 & Hid1 & Hok1 & ->).
    assert (o1 <> w_next w) as Hne by congruence.
    pose proof Hpg as Hp0. rewrite (pins_at PO C g _ o1 Hlg) in Hp0.
    pose proof (Hset o1 h1 E1 Hp0) as Hm1.
    destruct (Clean_spec m (mkWorld (w_metadb w) (<[w_next w := h0]> (w_handles w)) (w_next w + 1)
      (i32 (object_count w + 1))) o1 h1 (ToSlice (key_ h1))) as (w2 & Hrun & Hrep2 & Hhs2 & Hn2).
    { done. } { cbn. by rewrite lookup_insert_ne. } { apply Hok1. }
    rewrite Hclean in Hrun. injection Hrun as <-. unfold drop_store in Hrep2. rewrite Hm1 in Hrep2.
    cbn in Hhs2. rewrite delete_insert_ne in Hhs2 by done.
    exists (delete o1 (w_handles w)). split; [done|]. split; [done|]. split; [done|].
    split; [|split; [apply delete_subseteq|split]].
    + intros x Hx. rewrite lookup_delete_ne; [done|]. intros ->. lia.
    + pose proof (V_gone m T PO C (w_handles w) (w_next w) g _ o1 HV Hset Hpg Hlg) as HG.
      eapply ICv_ext; [| |exact HG]; intros x.
      * destruct (decide (x = g)) as [->|Hx]; [by rewrite !decide_True by done|].
        rewrite !decide_False by congruence. done.
      * split; intros [Hx ?]; (split; [congruence|done]).
    + intros id x Hne' Ht Hl. rewrite (Hcc _ _ Ht Hl) in Hwhich. naive_solver.
  - destruct Hgone as [Hnone ->]. exists (w_handles w). do 4 (split; [done|]). split; [done|].
    split.
    + eapply ICv_ext; [| |exact HV]; intros x; [done|]. naive_solver.
    + intros id x _ Ht Hl. rewrite (Hcc _ _ Ht Hl) in Hnone. done.
Qed.

Definition in_table st (h : InodeCacheHandle) : Prop :=
  exists ch, pointer h = Some ch /\ tabled st.1 (hid ch).

(** Every handle but [o] was there before, and stays in the table if it was. *)
Definition others_kept st o st' : Prop :=
  forall x h, w_handles st'.2 !! x = Some h -> x <> o ->
    w_handles st.2 !! x = Some h /\ (in_table st h -> in_table st' h).

(** The references to the entries once the new one is held. *)
Lemma pins_grown m T PO C C' (hs : gmap nat InodeCacheHandle) nxt k o id gone x :
  ICv m T PO (clive C) (tabled C) hs nxt -> hs !! o = None -> grown C C' id k o gone ->
  (forall g, gone = Some g -> pins_of PO C g = 0) -> Pin id (pins_of PO C) x = pins_of (hold o PO) C' x.
Proof.
  intros HV Hfresh (Hfree & Hlive' & _) Hgone. pose proof (ic_dead _ _ _ _ _ _ _ HV o Hfresh) as HPO.
  unfold Pin, pins_of, hold. rewrite Hlive'. destruct (decide (x = id)) as [->|Hx].
  { rewrite Hfree. rewrite decide_True by done. lia. }
  destruct (decide (gone = Some x)) as [->|Hg]; [by apply Hgone|].
  destruct (clive C x) as [[k' o']|] eqn:El; [|done]. rewrite decide_False; [done|].
  intros ->. destruct (live_handle HV _ _ _ El) as (h' & _ & E' & _). congruence.
Qed.

(** The other handles that are left were there and stay in the table. *)
Lemma others_grown m T PO C C' w w' k o id gone hs1 h0 nxt :
  ICv m T PO (fun x => if decide (gone = Some x) then None else clive C x) (fun x => gone <> Some x /\ tabled C x) hs1 nxt ->
  grown C C' id k o gone -> hs1 ⊆ w_handles w -> w_handles w' = <[o := h0]> hs1 -> others_kept (C, w) o (C', w').
Proof.
  intros HV1 (_ & _ & Htab') Hsub Hhs x h. cbn [fst snd]. rewrite Hhs, lookup_insert_Some.
  intros [[-> _]|[_ Ex]] Hne; [done|]. split; [by eapply lookup_weaken|].
  intros (ch' & Hp' & Ht'). exists ch'. split; [done|]. apply Htab'. right. split; [|done].
  destruct (ic_handle _ _ _ _ _ _ _ HV1 x h Ex) as [ch2 Hok2].
  pose proof (ho_pointer _ _ _ _ _ _ _ Hok2). assert (ch2 = ch') as -> by congruence.
  pose proof (ho_live _ _ _ _ _ _ _ Hok2) as Hl2. cbv beta in Hl2. intros Hg. by rewrite decide_True in Hl2 by done.
Qed.

Lemma insert_handle_spec m T PO C w k v mode :
  IC m T PO (C, w) -> key_ok k -> str_ok v -> settled PO (w_handles w) ->
  (forall id, ccached C (ToSlice k) = Some id -> pins_of PO C id = 0 /\ mode = INODE_WRITE) ->
  (ccached C (ToSlice k) = None -> csafe (pins_of PO C) C (ToSlice k)) ->
  (mode <> INODE_WRITE -> m !! ToSlice k = Some v) ->
  exists o ch st', insert_handle k v mode (C, w) = Ret o st' /\
    IC m (if decide (mode = INODE_WRITE) then <[k := v]> T else T) (hold o PO) st' /\
    w_handles st'.2 !! o = Some (mkICH k v mode (Some ch)) /\ w_handles w !! o = None /\
    tabled st'.1 (hid ch) /\ keeps PO (w_handles w) (w_handles st'.2) /\
    settled (hold o PO) (w_handles st'.2) /\ others_kept (C, w) o st' /\ newest st'.1 (hid ch).
Proof.
  intros HI Hk Hv Hset Hold Hsafe Hload. pose proof HI as [Hrep Hc HV]. simpl in Hrep, Hc, HV.
  set (o := w_next w). set (w1 := mkWorld (w_metadb w) (<[o := mkICH k v mode None]> (w_handles w))
    (o + 1) (i32 (object_count w + 1))).
  assert (w_handles w !! o = None) as Hfresh by by apply (ic_next _ _ _ _ _ _ _ HV).
  assert (PO o = 0) as HPO by by apply (ic_dead _ _ _ _ _ _ _ HV).
  assert (w_handles w ⊆ w_handles w1) as Hsub by by apply insert_subseteq.
  destruct (Cache_Insert_spec CleanInodeHandle (pins_of PO C) C (ToSlice k) o w1)
    as (ch & C' & w' & gone & Hrun & Hch & Hinv' & Hgrown & Hnewest & Hgone).
  - done.
  - by eapply entries_droppable.
  - intros id Hid. by destruct (Hold id Hid).
  - done.
  - pose proof Hgrown as (Hfree & Hlive' & Htab').
    destruct (insert_victim m T PO C w w1 w' k gone (mkICH k v mode None) HI Hset Hfresh eq_refl Hgone)
      as (hs1 & Hhs & Hrep' & Hnxt & Hkeep & Hsub1 & HV1 & Hnokey).
    set (st' := (C', put_handles (<[o := mkICH k v mode (Some ch)]> hs1) w')).
    pose proof (V_add _ _ _ _ _ _ _ k v mode ch HV1 Hk Hv) as HA.
    exists o, ch, st'. split.
    { unfold insert_handle. erewrite bind_Ret by (apply in_world_Ret; reflexivity). fold o w1.
      erewrite bind_Ret by exact Hrun.
      assert (w_handles w' !! o = Some (mkICH k v mode None)) as Eo
        by (rewrite Hhs; apply lookup_insert_eq).
      erewrite bind_Ret by (apply in_world_Ret, upd_handle_Ret, Eo).
      unfold ret, st', set_pointer. cbn. by rewrite Hhs, insert_insert_eq. }
    subst st'. unfold put_handles. cbn [fst snd w_handles w_metadb w_next].
    split; [split; cbn [fst snd w_handles w_metadb w_next]|].
    + done.
    + eapply sharded_inv_ext; [|exact Hinv']. intros x. eapply pins_grown; [exact HV|done|exact Hgrown|].
      intros g ->. by destruct Hgone as (_ & _ & Hpg & _).
    + rewrite Hnxt. eapply V_pins; [| |eapply ICv_ext; [| |apply HA]].
      * intros x. unfold hold. pose proof (ic_pins _ _ _ _ _ _ _ HV x). destruct (decide (x = o)); lia.
      * intros x. rewrite lookup_insert_None. intros [Hx1 Hx2]. unfold hold.
        rewrite decide_False by done. by apply (ic_dead _ _ _ _ _ _ _ HV1).
      * intros x. rewrite Hlive'. done.
      * intros x. by rewrite Htab'.
      * destruct (decide (gone = Some (hid ch))); [done|exact Hfree].
      * intros id x [Hg Ht]. rewrite decide_False by done. by apply Hnokey.
      * done.
    + split; [apply lookup_insert_eq|]. split; [done|]. split; [apply Htab'; by left|].
      split; [|split; [|split; [|done]]].
      * intros x Hx. rewrite lookup_insert_ne by (intros <-; lia). by apply Hkeep.
      * intros x h. rewrite lookup_insert_Some. unfold hold. intros [[<- _]|[Hne Ex]].
        { rewrite decide_True by done. lia. }
        rewrite decide_False by done. apply Hset. by eapply lookup_weaken.
      * by eapply others_grown.
Qed.
(** *** [Get] *)

(** The outcome of a successful [Get]: a reference to a handle in the table that
    carries the value of the logical table. *)
Record got m T PO st (k : tfs_meta_key_t) (v : bytes) (mode : InodeAccessMode) (o : nat)
    (h : InodeCacheHandle) st' : Prop := {
  got_ic : IC m T (hold o PO) st';
  got_h : w_handles st'.2 !! o = Some h;
  got_key : key_ h = k;
  got_value : value_ h = v;
  got_mode : mode <> INODE_READ -> mode_ h = mode;
  got_read : mode = INODE_READ -> mode_ h <> INODE_DELETE;
  got_tab : in_table st' h;
  got_same : forall h0, w_handles st.2 !! o = Some h0 -> mode = INODE_READ -> h = h0;
  got_fresh : w_handles st.2 !! o = None -> mode_ h = mode;
  got_prev : forall h0, w_handles st.2 !! o = Some h0 -> key_ h0 = k /\ pointer h0 = pointer h;
  got_keeps : forall x, x <> o -> 0 < PO x -> w_handles st'.2 !! x = w_handles st.2 !! x;
  got_settled : settled (hold o PO) (w_handles st'.2);
  got_others : others_kept st o st';
  got_newest : exists ch, pointer h = Some ch /\ newest st'.1 (hid ch)
}.

Lemma settled_hold PO (hs : gmap nat InodeCacheHandle) o h' :
  (forall x, 0 <= PO x) -> settled PO hs -> settled (hold o PO) (<[o := h']> hs).
Proof.
  intros Hp Hs x h. rewrite lookup_insert_Some. unfold hold. intros [[<- _]|[Hne Ex]].
  - rewrite decide_True by done. specialize (Hp o). lia.
  - rewrite decide_False by done. by apply Hs.
Qed.

(** The handle [Get] leaves when the inode is cached. *)
Definition with_mode (mode : InodeAccessMode) (h : InodeCacheHandle) : InodeCacheHandle :=
  match mode with INODE_READ => h | _ => set_mode_ mode h end.

Lemma Get_cached_run C C' w k mode ch o h :
  Cache_Lookup (ToSlice k) (C, w) = Ret (Some ch) (C', w) -> Cache_Value ch (C', w) = Ret o (C', w) ->
  w_handles w !! o = Some h ->
  InodeCache_Get k mode (C, w) = Ret (Some o) (C', put_handles (<[o := with_mode mode h]> (w_handles w)) w).
Proof.
  intros Hrun Hval Eh. unfold InodeCache_Get. erewrite bind_Ret by exact Hrun. cbn.
  erewrite bind_Ret by exact Hval. destruct mode; cbn [mode_val with_mode].
  - change (0 >? 0) with false. cbn. rewrite insert_id by done. by destruct w.
  - change (1 >? 0) with true. cbn [bind]. by erewrite bind_Ret by (apply in_world_Ret, upd_handle_Ret, Eh).
  - change (2 >? 0) with true. by erewrite bind_Ret by (apply in_world_Ret, upd_handle_Ret, Eh).
Qed.

Lemma V_with_mode m T PO L TB hs nxt o h ch mode :
  ICv m T PO L TB hs nxt -> hs !! o = Some h -> handle_ok m T L TB o h ch -> TB (hid ch) ->
  T !! key_ h = Some (value_ h) -> (mode = INODE_DELETE -> mode_ h <> INODE_WRITE) ->
  ICv m T PO L TB (<[o := with_mode mode h]> hs) nxt.
Proof.
  intros HV Eh Hok Ht HT Hm. destruct mode; cbn [with_mode].
  - by rewrite insert_id.
  - eapply V_mark; [done|done|exact Hok|done|by apply Hm].
  - pose proof (V_write _ _ _ _ _ _ _ _ _ _ (value_ h) HV Eh Hok Ht (ho_value _ _ _ _ _ _ _ Hok)) as HW.
    by rewrite insert_id in HW.
Qed.

Lemma Get_hit m T PO C w k mode id :
  IC m T PO (C, w) -> key_ok k -> settled PO (w_handles w) -> getable PO (w_handles w) k mode ->
  ccached C (ToSlice k) = Some id -> ic_safe PO C k ->
  exists v o h st', T !! k = Some v /\ InodeCache_Get k mode (C, w) = Ret (Some o) st' /\
    got m T PO (C, w) k v mode o h st'.
Proof.
  intros HI Hk Hset Hget Hcc [_ Hcnt]. pose proof HI as [Hrep Hc HV]. cbn [fst snd] in Hrep, Hc, HV.
  pose proof Hcc as Hcc'. apply (ccached_Some _ _ _ _ Hc) in Hcc' as [Ht [o Hl]].
  destruct (live_handle HV _ _ _ Hl) as (h & ch & Eh & Hid & Hok & Hkey).
  assert (key_ h = k) as Hkh by (symmetry; apply ToSlice_inj; [done|apply Hok|done]). destruct (Hget o h Eh Hkh) as [Hnd Hfree].
  assert (T !! key_ h = Some (value_ h)) as HT.
  { pose proof (ho_mode _ _ _ _ _ _ _ Hok) as Hm. rewrite Hid in Hm. destruct (mode_ h); [by apply Hm|done|by apply Hm]. }
  pose proof (Cache_Lookup_spec (W := ic_world S) _ C (ToSlice k) w Hc Hcnt) as Hlook.
  rewrite Hcc in Hlook. destruct Hlook as (C' & Hrun & Hhid & Hinv' & [Hlive' Htab'] & Hnew').
  assert (ICv m T (hold o PO) (clive C') (tabled C') (w_handles w) (w_next w)) as HV'
    by (eapply ICv_ext; [exact Hlive'|exact Htab'|]; by eapply V_hold).
  assert (handle_ok m T (clive C') (tabled C') o h ch) as Hok'.
  { destruct (ic_handle _ _ _ _ _ _ _ HV' o h Eh) as [ch' Hok']. pose proof (ho_pointer _ _ _ _ _ _ _ Hok').
    pose proof (ho_pointer _ _ _ _ _ _ _ Hok). by replace ch with ch' by congruence. }
  assert (tabled C' (hid ch)) as Ht' by by apply Htab'; rewrite Hid.
  assert (pointer (with_mode mode h) = Some ch) as Hptr' by (pose proof (ho_pointer _ _ _ _ _ _ _ Hok); by destruct mode).
  exists (value_ h), o, (with_mode mode h), (C', put_handles (<[o := with_mode mode h]> (w_handles w)) w).
  split; [by rewrite <- Hkh|]. split.
  { eapply Get_cached_run; [exact Hrun| |done]. eapply Cache_Value_spec; [exact Hinv'|]. rewrite Hhid, Hlive'. exact Hl. }
  split; cbn [fst snd put_handles w_handles]; try (by destruct mode); try (intros; congruence).
  - split; cbn [fst snd w_metadb w_handles w_next]; [done| |].
    + eapply sharded_inv_ext; [|exact Hinv']. intros x. rewrite (pins_hold _ _ _ _ _ _ _ _ _ HV Hl). symmetry. by apply pins_view.
    + eapply V_with_mode; [done..|]. intros ->. rewrite (Hset o h Eh); [done|by apply Hfree].
  - apply lookup_insert_eq.
  - exists ch. done.
  - intros h0 E0 ->. cbn. congruence.
  - intros h0 E0. assert (h0 = h) as -> by congruence. split; [done|]. rewrite Hptr'. apply Hok.
  - intros x Hx _. by rewrite lookup_insert_ne.
  - apply settled_hold; [|done]. apply (ic_pins _ _ _ _ _ _ _ HV).
  - intros x hx. cbn [fst snd put_handles w_handles]. intros Ex Hx. rewrite lookup_insert_ne in Ex by done.
    split; [done|]. intros (cx & Hpx & Htx). exists cx. split; [done|]. by apply Htab'.
  - exists ch. split; [done|]. by rewrite Hid.
Qed.
Lemma Get_spec m T PO C w k mode :
  IC m T PO (C, w) -> key_ok k -> settled PO (w_handles w) -> getable PO (w_handles w) k mode ->
  ic_safe PO C k ->
  match T !! k with
  | Some v => exists o h st', InodeCache_Get k mode (C, w) = Ret (Some o) st' /\
      got m T PO (C, w) k v mode o h st'
  | None => exists s', InodeCache_Get k mode (C, w) = Ret None (C, put_metadb s' w) /\
      IC m T PO (C, put_metadb s' w)
  end.
Proof.
  intros HI Hk Hset Hget Hsafe. pose proof Hsafe as [Hsf Hcnt]. pose proof HI as [Hrep Hc HV]. cbn [fst snd] in Hrep, Hc, HV.
  destruct (ccached C (ToSlice k)) as [id|] eqn:Hcc.
  { destruct (Get_hit m T PO C w k mode id HI Hk Hset Hget Hcc Hsafe) as (v & o & h & st' & -> & Hrun & Hgot).
    eauto. }
  assert (T !! k = m !! ToSlice k) as HT.
  { apply (ic_store _ _ _ _ _ _ _ HV); [done|]. intros id o Ht Hl.
    assert (ccached C (ToSlice k) = Some id) by (apply (ccached_Some _ _ _ _ Hc); eauto). congruence. }
  pose proof (Cache_Lookup_spec (W := ic_world S) _ C (ToSlice k) w Hc Hcnt) as Hlook.
  rewrite Hcc in Hlook. rewrite HT.
  assert (forall s', kv_rep s' m -> IC m T PO (C, put_metadb s' w)) as Hput by (intros s' Hs; by split).
  destruct (m !! ToSlice k) as [v|] eqn:Em.
  - destruct (kv_Get_hit _ _ _ _ Hrep (kv_key_ToSlice k) Em) as (s' & Hg & Hrep').
    destruct (insert_handle_spec m T PO C (put_metadb s' w) k v mode)
      as (o & ch & st' & Hrun & HI' & Eh & Hnew & Ht & Hkeep & Hset' & Hothers & Hnewest).
    + by apply Hput.
    + done.
    + by eapply (ic_values _ _ _ _ _ _ _ HV).
    + done.
    + congruence.
    + done.
    + done.
    + exists o, (mkICH k v mode (Some ch)), st'. split.
      { unfold InodeCache_Get. erewrite bind_Ret by exact Hlook. cbv iota.
        erewrite bind_Ret by (apply in_world_Ret, metadb_Ret, Hg). cbv iota.
        change (1 >? 0) with true. cbv iota.
        unfold insert_handle in Hrun.
        apply bind_inv in Hrun as (o1 & st1 & H1 & Hrun). erewrite bind_Ret by exact H1.
        apply bind_inv in Hrun as (ch1 & st2 & H2 & Hrun). erewrite bind_Ret by exact H2.
        apply bind_inv in Hrun as ([] & st3 & H3 & Hrun). erewrite bind_Ret by exact H3.
        unfold ret in *. congruence. }
      cbn [fst snd put_metadb w_handles] in *.
      split; cbn [fst snd key_ value_ mode_ pointer]; try done.
      * replace T with (if decide (mode = INODE_WRITE) then <[k := v]> T else T); [done|].
        case_decide; [|done]. by apply insert_id.
      * by intros ->.
      * by exists ch.
      * intros h0 E0. congruence.
      * intros h0 E0. congruence.
      * intros x _. apply Hkeep.
      * by exists ch.
  - destruct (kv_Get_miss _ _ _ Hrep (kv_key_ToSlice k) Em) as (r & junk & s' & Hg & Hr & Hrep').
    exists s'. split; [|by apply Hput].
    unfold InodeCache_Get. erewrite bind_Ret by exact Hlook. cbv iota.
    erewrite bind_Ret by (apply in_world_Ret, metadb_Ret, Hg). cbv iota.
    replace (r >? 0) with false; [done|]. symmetry. rewrite Z.gtb_ltb. apply Z.ltb_ge. lia.
Qed.

(** *** [Release] *)

Lemma Release_spec m T PO st o h :
  IC m T PO st -> w_handles st.2 !! o = Some h -> 0 < PO o -> in_table st h ->
  exists C', InodeCache_Release o st = Ret tt (C', st.2) /\ IC m T (unhold o PO) (C', st.2) /\
    same_view st.1 C'.
Proof.
  destruct st as [C w]. cbn [fst snd]. intros HI Eh Hpo (ch & Hptr & Ht).
  cbn [fst] in Ht. pose proof HI as [Hrep Hc HV]. cbn [fst snd] in *.
  destruct (ic_handle _ _ _ _ _ _ _ HV o h Eh) as [ch' Hok].
  pose proof (ho_pointer _ _ _ _ _ _ _ Hok) as Hp'. assert (ch' = ch) as -> by congruence.
  pose proof (ho_live _ _ _ _ _ _ _ Hok) as Hl.
  pose proof (pins_at PO C _ _ o Hl) as Hpin.
  destruct (Cache_Release_spec CleanInodeHandle (pins_of PO C) C ch w Hc) as (k1 & v1 & Hl1 & _ & Hstay).
  { by rewrite Hpin. }
  destruct Hstay as (C' & Hrun & Hinv' & Hview); [by right|]. exists C'. split; [|split; [|done]].
  - unfold InodeCache_Release. erewrite bind_Ret by (apply in_world_Ret, get_handle_Ret, Eh).
    rewrite Hptr. cbn. exact Hrun.
  - destruct Hview as [Hlive' Htab']. split; cbn [fst snd]; [done| |].
    + eapply sharded_inv_ext; [|exact Hinv']. intros x.
      rewrite (pins_unhold _ _ _ _ _ _ _ _ _ HV Hl). symmetry. by apply pins_view.
    + eapply ICv_ext; [exact Hlive'|exact Htab'|]. by eapply V_unhold.
Qed.

(** Releasing the last reference to a handle the table has forgotten. *)
Lemma Release_orphan m T PO st o h :
  IC m T PO st -> w_handles st.2 !! o = Some h -> PO o = 1 -> ~ in_table st h ->
  (mode_ h = INODE_DELETE -> forall id o', tabled st.1 id ->
     clive st.1 id <> Some (ToSlice (key_ h), o')) ->
  exists st', InodeCache_Release o st = Ret tt st' /\
    IC (drop_store h m) (drop_table h T) (unhold o PO) st' /\
    w_handles st'.2 = delete o (w_handles st.2) /\
    (forall x, tabled st'.1 x <-> tabled st.1 x).
Proof.
  destruct st as [C w]. cbn [fst snd]. intros HI Eh Hpo Hnt Hdel.
  pose proof HI as [Hrep Hc HV]. cbn [fst snd] in *.
  destruct (ic_handle _ _ _ _ _ _ _ HV o h Eh) as [ch Hok].
  pose proof (ho_pointer _ _ _ _ _ _ _ Hok) as Hptr.
  pose proof (ho_live _ _ _ _ _ _ _ Hok) as Hl.
  assert (~ tabled C (hid ch)) as Hnt' by (intros Ht; apply Hnt; by exists ch).
  pose proof (pins_at PO C _ _ o Hl) as Hpin.
  destruct (Clean_spec m w o h (ToSlice (key_ h)) Hrep Eh (ho_value _ _ _ _ _ _ _ Hok))
    as (w' & Hclean & Hrep' & Hhs' & Hnxt').
  destruct (Cache_Release_spec CleanInodeHandle (pins_of PO C) C ch w Hc) as (k1 & v1 & Hl1 & Hlast & _).
  { rewrite Hpin. lia. }
  rewrite Hl in Hl1. assert (k1 = ToSlice (key_ h)) as -> by congruence.
  assert (v1 = o) as -> by congruence.
  destruct (Hlast w' ltac:(by rewrite Hpin) Hnt' Hclean) as (C' & Hrun & Hinv' & [Hlive' Htab']).
  exists (C', w'). cbn [fst snd]. split; [|split; [|split; [done|]]].
  - unfold InodeCache_Release. erewrite bind_Ret by (apply in_world_Ret, get_handle_Ret, Eh).
    rewrite Hptr. cbn. exact Hrun.
  - split; cbn [fst snd]; [done| |].
    + eapply sharded_inv_ext; [|exact Hinv']. intros x.
      rewrite (pins_unhold _ _ _ _ _ _ _ _ _ HV Hl). unfold pins_of. rewrite Hlive'.
      case_decide as Hx; [|done]. subst x. rewrite Hl. unfold unhold. rewrite decide_True by done. lia.
    + rewrite Hhs', Hnxt'. eapply ICv_ext; [exact Hlive'|exact Htab'|].
      eapply V_free; [|done| |unfold unhold; rewrite decide_True by done; lia|by right|].
      * eapply V_unhold; [done|lia|done].
      * done.
      * intros Hm id o' Ht Hlid. exfalso. by eapply Hdel.
  - intros x. rewrite Htab'. split; [by intros [_ ?]|]. intros Ht. split; [|done]. by intros ->.
Qed.
(** *** [Evict] *)

Lemma in_table_cached m T PO st o h :
  IC m T PO st -> w_handles st.2 !! o = Some h -> in_table st h ->
  exists ch, handle_ok m T (clive st.1) (tabled st.1) o h ch /\ tabled st.1 (hid ch) /\
    ccached st.1 (ToSlice (key_ h)) = Some (hid ch).
Proof.
  intros [Hrep Hc HV] Eh (ch & Hptr & Ht).
  destruct (ic_handle _ _ _ _ _ _ _ HV o h Eh) as [ch' Hok].
  pose proof (ho_pointer _ _ _ _ _ _ _ Hok) as Hp'. assert (ch' = ch) as -> by congruence.
  exists ch. split; [done|]. split; [done|]. apply (ccached_Some _ _ _ _ Hc).
  split; [done|]. exists o. apply Hok.
Qed.

Lemma Evict_absent m T PO st k :
  IC m T PO st -> key_ok k ->
  (forall o h, w_handles st.2 !! o = Some h -> key_ h = k -> ~ in_table st h) ->
  InodeCache_Evict k st = Ret tt st.
Proof.
  destruct st as [C w]. intros [Hrep Hc HV] Hk Hno. cbn [fst snd] in *.
  pose proof (Cache_Erase_spec CleanInodeHandle _ C (ToSlice k) w Hc) as He.
  destruct (ccached C (ToSlice k)) as [id|] eqn:Hcc; [|exact He].
  apply (ccached_Some _ _ _ _ Hc) in Hcc as [Ht [o Hl]].
  destruct (live_handle HV _ _ _ Hl) as (h & ch & Eh & <- & Hok & Hkey).
  exfalso. apply (Hno o h Eh).
  - symmetry. apply ToSlice_inj; [done|apply Hok|done].
  - exists ch. split; [apply Hok|done].
Qed.

Lemma Evict_unused m T PO st o h :
  IC m T PO st -> w_handles st.2 !! o = Some h -> PO o = 0 -> in_table st h ->
  exists st', InodeCache_Evict (key_ h) st = Ret tt st' /\
    IC (drop_store h m) (drop_table h T) PO st' /\
    w_handles st'.2 = delete o (w_handles st.2) /\
    (forall o' h', w_handles st.2 !! o' = Some h' -> o' <> o -> in_table st h' -> in_table st' h').
Proof.
  destruct st as [C w]. intros HI Eh Hpo Htab. pose proof HI as [Hrep Hc HV]. cbn [fst snd] in *.
  destruct (in_table_cached _ _ _ _ _ _ HI Eh Htab) as (ch & Hok & Ht & Hcc). cbn [fst snd] in *.
  pose proof (ho_live _ _ _ _ _ _ _ Hok) as Hl. pose proof (pins_at PO C _ _ o Hl) as Hpin.
  pose proof (Cache_Erase_spec CleanInodeHandle _ C (ToSlice (key_ h)) w Hc) as He.
  rewrite Hcc in He. destruct He as (v & Hv & Hunused & _).
  assert (v = o) as -> by congruence.
  destruct (Clean_spec m w o h (ToSlice (key_ h)) Hrep Eh (ho_value _ _ _ _ _ _ _ Hok))
    as (w' & Hclean & Hrep' & Hhs' & Hnxt').
  destruct (Hunused w' ltac:(by rewrite Hpin) Hclean) as (C' & Hrun & Hinv' & [Hlive' Htab']).
  exists (C', w'). cbn [fst snd]. split; [done|]. split; [|split; [done|]].
  - split; cbn [fst snd]; [done| |].
    + eapply sharded_inv_ext; [|exact Hinv']. intros x. unfold pins_of. rewrite Hlive'.
      destruct (decide (x = hid ch)) as [->|Hx]; [|done]. by rewrite Hl.
    + rewrite Hhs', Hnxt'. eapply ICv_ext; [exact Hlive'|exact Htab'|].
      eapply V_free; [done|done|done|done|by left|].
      intros _ id o' Htid Hlid. pose proof (ic_uniq _ _ _ _ _ _ _ HV _ _ _ _ _ Htid Ht Hlid Hl) as ->.
      congruence.
  - intros o' h' Eh' Hne (ch' & Hp' & Ht'). exists ch'. split; [done|]. apply Htab'. split; [|done].
    intros Hid. destruct (ic_handle _ _ _ _ _ _ _ HV o' h' Eh') as [ch2 Hok2].
    pose proof (ho_pointer _ _ _ _ _ _ _ Hok2). assert (ch2 = ch') as -> by congruence.
    pose proof (ho_live _ _ _ _ _ _ _ Hok2). rewrite Hid in *. congruence.
Qed.

Lemma Evict_used m T PO st o h :
  IC m T PO st -> w_handles st.2 !! o = Some h -> 0 < PO o -> in_table st h ->
  mode_ h <> INODE_WRITE ->
  exists C', InodeCache_Evict (key_ h) st = Ret tt (C', st.2) /\ IC m T PO (C', st.2) /\
    ~ in_table (C', st.2) h /\ (forall h', in_table (C', st.2) h' -> in_table st h') /\
    (forall o' h', w_handles st.2 !! o' = Some h' -> o' <> o -> in_table st h' ->
       in_table (C', st.2) h').
Proof.
  destruct st as [C w]. intros HI Eh Hpo Htab Hm. pose proof HI as [Hrep Hc HV]. cbn [fst snd] in *.
  destruct (in_table_cached _ _ _ _ _ _ HI Eh Htab) as (ch & Hok & Ht & Hcc). cbn [fst snd] in *.
  pose proof (ho_live _ _ _ _ _ _ _ Hok) as Hl. pose proof (pins_at PO C _ _ o Hl) as Hpin.
  pose proof (Cache_Erase_spec CleanInodeHandle _ C (ToSlice (key_ h)) w Hc) as He.
  rewrite Hcc in He. destruct He as (v & Hv & _ & Hused).
  destruct Hused as (C' & Hrun & Hinv' & [Hlive' Htab']); [by rewrite Hpin|].
  exists C'. split; [done|]. split; [|split; [|split]].
  - split; cbn [fst snd]; [done| |].
    + eapply sharded_inv_ext; [|exact Hinv']. intros x. symmetry. by apply pins_view.
    + eapply ICv_ext; [exact Hlive'|exact Htab'|]. by eapply V_untab.
  - intros (ch' & Hp' & Ht'). pose proof (ho_pointer _ _ _ _ _ _ _ Hok).
    assert (ch' = ch) as -> by congruence. by apply Htab' in Ht' as [? _].
  - intros h' (ch' & Hp' & Ht'). exists ch'. split; [done|]. by apply Htab' in Ht' as [_ ?].
  - intros o' h' Eh' Hne (ch' & Hp' & Ht'). exists ch'. split; [done|]. apply Htab'. split; [|done].
    intros Hid. destruct (ic_handle _ _ _ _ _ _ _ HV o' h' Eh') as [ch2 Hok2].
    pose proof (ho_pointer _ _ _ _ _ _ _ Hok2). assert (ch2 = ch') as -> by congruence.
    pose proof (ho_live _ _ _ _ _ _ _ Hok2). rewrite Hid in *. congruence.
Qed.

(** *** [WriteBack] *)

Lemma WriteBack_dirty m T PO C w o h :
  IC m T PO (C, w) -> w_handles w !! o = Some h -> mode_ h = INODE_WRITE ->
  exists s', InodeCache_WriteBack o (C, w) =
      Ret tt (C, put_handles (<[o := set_mode_ INODE_READ h]> (w_handles w)) (put_metadb s' w)) /\
    IC (<[ToSlice (key_ h) := value_ h]> m) T PO
      (C, put_handles (<[o := set_mode_ INODE_READ h]> (w_handles w)) (put_metadb s' w)).
Proof.
  intros HI Eh Hm. pose proof HI as [Hrep Hc HV]. cbn [fst snd] in *.
  destruct (ic_handle _ _ _ _ _ _ _ HV o h Eh) as [ch Hok].
  destruct (kv_Put_spec _ _ (ToSlice (key_ h)) (value_ h) Hrep (kv_key_ToSlice _)
    (ho_value _ _ _ _ _ _ _ Hok)) as (s' & Hput & Hrep').
  exists s'. split.
  - unfold InodeCache_WriteBack. erewrite bind_Ret by (apply in_world_Ret, get_handle_Ret, Eh).
    rewrite Hm. erewrite bind_Ret by (apply in_world_Ret, metadb_Ret, Hput).
    by rewrite (in_world_Ret _ _ _ _ _ (upd_handle_Ret (put_metadb s' w) o h _ Eh)).
  - split; cbn [fst snd]; [done|done|]. by eapply V_clean.
Qed.

(** A client changes the value of a dirty handle it holds. *)
Lemma set_value_spec m T PO C w o h v :
  IC m T PO (C, w) -> w_handles w !! o = Some h -> in_table (C, w) h -> mode_ h = INODE_WRITE ->
  str_ok v ->
  IC m (<[key_ h := v]> T) PO (C, put_handles (<[o := set_value_ v h]> (w_handles w)) w).
Proof.
  intros HI Eh Htab Hm Hv. pose proof HI as [Hrep Hc HV]. cbn [fst snd] in *.
  destruct (in_table_cached _ _ _ _ _ _ HI Eh Htab) as (ch & Hok & Ht & _). cbn [fst snd] in *.
  split; cbn [fst snd]; [done|done|].
  pose proof (V_write _ _ _ _ _ _ _ _ _ _ v HV Eh Hok Ht Hv) as HW.
  unfold set_value_. by rewrite Hm.
Qed.
(** *** [BatchCommit] *)

(** Deleting a key that no handle of the table has. *)
Lemma V_purge m T PO L TB hs nxt k :
  ICv m T PO L TB hs nxt -> key_ok k -> (forall id o, TB id -> L id <> Some (ToSlice k, o)) ->
  ICv (delete (ToSlice k) m) (delete k T) PO L TB hs nxt.
Proof.
  intros HV Hk Hno. pose proof HV as [H1 H2 H3 H4 H5 H6 H7 H8 H9]. split; try done.
  - intros o h Eh. destruct (H2 o h Eh) as [ch Hok]. exists ch.
    pose proof Hok as [Hk' Hv' Hp' Hl' Hm'].
    assert (TB (hid ch) -> key_ h <> k) as Hne.
    { intros Ht E. rewrite E in Hl'. by apply (Hno (hid ch) o). }
    assert (TB (hid ch) -> delete k T !! key_ h = T !! key_ h /\
      delete (ToSlice k) m !! ToSlice (key_ h) = m !! ToSlice (key_ h)) as Hsame.
    { intros Ht. pose proof (not_eq_sym (Hne Ht)) as Hn.
      by rewrite !lookup_delete_ne by (try done; by apply ToSlice_ne). }
    split; try done. destruct (mode_ h).
    + intros Ht. destruct (Hsame Ht) as [-> ->]. auto.
    + intros Ht. destruct (Hsame Ht) as [-> ->]. auto.
    + destruct Hm' as [Ht HT]. destruct (Hsame Ht) as [-> _]. auto.
  - intros k' Hk' Hn. destruct (decide (k' = k)) as [->|Hne]; [by rewrite !lookup_delete_eq|].
    rewrite !lookup_delete_ne by (try done; apply ToSlice_ne; done). by apply H7.
  - intros k' v. rewrite lookup_delete_Some. intros [_ ?]. by apply H8.
  - intros k' v. rewrite lookup_delete_Some. intros [_ ?]. by eapply H9.
Qed.

Lemma str_ok_ToSlice k : str_ok (ToSlice k).
Proof. split; [apply ToSlice_ok|]. rewrite length_ToSlice. lia. Qed.

Lemma BatchCommit_spec m T PO st o1 o2 h1 h2 :
  IC m T PO st -> w_handles st.2 !! o1 = Some h1 -> w_handles st.2 !! o2 = Some h2 ->
  0 < PO o1 -> in_table st h1 -> in_table st h2 -> mode_ h1 = INODE_DELETE ->
  mode_ h2 = INODE_WRITE -> key_ h1 <> key_ h2 ->
  exists C' s', let w' := put_handles (<[o2 := set_mode_ INODE_READ h2]> (w_handles st.2))
                            (put_metadb s' st.2) in
    InodeCache_BatchCommit o1 o2 st = Ret tt (C', w') /\
    IC (<[ToSlice (key_ h2) := value_ h2]> (delete (ToSlice (key_ h1)) m)) (delete (key_ h1) T) PO
      (C', w') /\
    ~ in_table (C', w') h1 /\ (forall h', in_table (C', w') h' -> in_table st h') /\
    (forall o' h', w_handles st.2 !! o' = Some h' -> o' <> o1 -> in_table st h' -> in_table (C', w') h').
Proof.
  destruct st as [C w]. cbn [fst snd]. intros HI E1 E2 Hpo Ht1 Ht2 Hm1 Hm2 Hne.
  assert (o1 <> o2) as Ho by congruence.
  destruct (Evict_used m T PO (C, w) o1 h1 HI E1 Hpo Ht1) as (C' & Hev & HI' & Hno & Hsub & Hsup);
    [congruence|]. cbn [fst snd] in *.
  pose proof HI' as [Hrep Hc HV]. cbn [fst snd] in *.
  destruct (ic_handle _ _ _ _ _ _ _ HV o1 h1 E1) as [ch1 Hok1].
  destruct (ic_handle _ _ _ _ _ _ _ HV o2 h2 E2) as [ch2 Hok2].
  pose proof (ho_value _ _ _ _ _ _ _ Hok2) as Hv2.
  set (ops := [BDelete (ToSlice (key_ h1)); BPut (ToSlice (key_ h2)) (value_ h2)]).
  destruct (kv_Write_spec _ _ ops Hrep) as (r & s' & Hwrite & Hrep').
  - apply Forall_cons_2; [apply str_ok_ToSlice|]. apply Forall_singleton.
    split; [apply str_ok_ToSlice|done].
  - apply Forall_cons_2; [apply kv_key_ToSlice|]. apply Forall_singleton, kv_key_ToSlice.
  - simpl. lia.
  - exists C', s'. cbn zeta. split; [|split; [|split; [|split]]].
    + unfold InodeCache_BatchCommit, BatchCommit_add. rewrite bind_assoc.
      erewrite bind_Ret by (apply in_world_Ret, get_handle_Ret, E1). rewrite Hm1. cbv iota zeta.
      rewrite bind_assoc. erewrite bind_Ret by exact Hev. rewrite bind_ret, bind_assoc.
      erewrite bind_Ret by (apply in_world_Ret, get_handle_Ret, E2). rewrite Hm2. cbv iota zeta.
      rewrite bind_assoc. erewrite bind_Ret by (apply in_world_Ret, upd_handle_Ret, E2).
      rewrite bind_ret.
      erewrite bind_Ret by (apply in_world_Ret, metadb_Ret; exact Hwrite). done.
    + split; cbn [fst snd]; [done|done|].
      pose proof (V_clean _ _ _ _ _ _ _ _ _ _ HV E2 Hok2 Hm2) as HVc.
      replace (<[ToSlice (key_ h2) := value_ h2]> (delete (ToSlice (key_ h1)) m))
        with (delete (ToSlice (key_ h1)) (<[ToSlice (key_ h2) := value_ h2]> m)).
      * apply V_purge; [done|apply Hok1|]. intros id o Ht Hl.
        destruct (live_handle HVc _ _ _ Hl) as (h & ch & Eh & <- & Hok & Hkey).
        assert (o = o1) as ->.
        { assert (key_ h1 = key_ h) as Hk by (apply ToSlice_inj; [apply Hok1|apply Hok|done]).
          destruct (decide (o = o1)) as [|Hoo]; [done|exfalso].
          assert (o <> o2) as Hoo2.
          { intros ->. rewrite lookup_insert_eq in Eh. injection Eh as <-. by apply Hne. }
          rewrite lookup_insert_ne in Eh by done.
          apply Hoo. cbn [fst snd] in *.
          assert (in_table (C, w) h) as Hh by (apply Hsub; exists ch; split; [apply Hok|done]).
          destruct (in_table_cached _ _ _ _ _ _ HI Eh Hh) as (c1 & K1 & T1 & _).
          destruct (in_table_cached _ _ _ _ _ _ HI E1 Ht1) as (c2 & K2 & T2 & _).
          eapply (tabled_once (ic_view _ _ _ _ HI)); eauto. }
        rewrite lookup_insert_ne in Eh by done. apply Hno. exists ch. split; [|done].
        assert (h = h1) as <- by congruence. apply Hok.
      * apply delete_insert_ne. apply ToSlice_ne; [apply Hok1|apply Hok2|done].
    + done.
    + done.
    + done.
Qed.
(** A value put in the store behind the cache's back, at a key it does not have. *)
Lemma V_put m T PO L TB hs nxt k v :
  ICv m T PO L TB hs nxt -> key_ok k -> str_ok v ->
  (forall id o, TB id -> L id <> Some (ToSlice k, o)) ->
  ICv (<[ToSlice k := v]> m) (<[k := v]> T) PO L TB hs nxt.
Proof.
  intros HV Hk Hv Hno. pose proof HV as [H1 H2 H3 H4 H5 H6 H7 H8 H9]. split; try done.
  - intros o h Eh. destruct (H2 o h Eh) as [ch Hok]. exists ch.
    pose proof Hok as [Hk' Hv' Hp' Hl' Hm'].
    assert (TB (hid ch) -> <[k := v]> T !! key_ h = T !! key_ h /\
      <[ToSlice k := v]> m !! ToSlice (key_ h) = m !! ToSlice (key_ h)) as Hsame.
    { intros Ht. assert (k <> key_ h) as Hn.
      { intros E. rewrite <- E in Hl'. by apply (Hno (hid ch) o). }
      by rewrite !lookup_insert_ne by (try done; by apply ToSlice_ne). }
    split; try done. destruct (mode_ h).
    + intros Ht. destruct (Hsame Ht) as [-> ->]. auto.
    + intros Ht. destruct (Hsame Ht) as [-> ->]. auto.
    + destruct Hm' as [Ht HT]. destruct (Hsame Ht) as [-> _]. auto.
  - intros k' Hk' Hn. destruct (decide (k' = k)) as [->|Hne]; [by rewrite !lookup_insert_eq|].
    rewrite !lookup_insert_ne by (try done; apply ToSlice_ne; done). by apply H7.
  - intros k' v'. rewrite lookup_insert_Some. intros [[<- <-]|[_ ?]]; [done|by apply H8].
  - intros k' v'. rewrite lookup_insert_Some. intros [[_ <-]|[_ ?]]; [done|by eapply H9].
Qed.
End icache_facts.
