(* ===== verification/Teardown.v ===== *)
(** Deleting the caches: [~LRUCache], [~ShardedLRUCache] and [~InodeCache].

    Deleting a cache that nobody uses calls the deleter exactly once on every
    entry, shard by shard, and nothing else; for the inode cache this frees every
    handle and, since a handle nobody uses has been written back, leaves the store
    as it is. *)

From S2P Require Import Prelude Hashes Coding WriteBatch Inode Cache Kv ICache.

Set Default Proof Using "Type".

(** * One shard *)

Section shard.
Context {V W : Type} (deleter : bytes -> V -> prog W unit).
Implicit Types (c : LRUCache V) (C : ShardedLRUCache V) (L : list nat) (w : W).

(** Specification: the deleter runs on the entries, in order. *)
Fixpoint clean_all (es : list (bytes * V)) : prog W unit :=
  match es with
  | [] => ret tt
  | (k, v) :: es' => deleter k v ;;; clean_all es'
  end.

Lemma clean_all_app es1 es2 w w1 w2 :
  clean_all es1 w = Ret tt w1 -> clean_all es2 w1 = Ret tt w2 -> clean_all (es1 ++ es2) w = Ret tt w2.
Proof.
  revert w. induction es1 as [|[k v] es IH]; intros w H1 H2; cbn in *; [by injection H1 as ->|].
  unfold bind in *. destruct (deleter k v w) as [[] w'| |]; [by apply IH|done|done].
Qed.

Lemma clean_all_app_inv es1 es2 w w2 :
  clean_all (es1 ++ es2) w = Ret tt w2 -> exists w1, clean_all es1 w = Ret tt w1 /\ clean_all es2 w1 = Ret tt w2.
Proof.
  revert w. induction es1 as [|[k v] es IH]; intros w H; cbn in *; [by exists w|].
  unfold bind in *. destruct (deleter k v w) as [[] w'| |]; [by apply IH|done|done].
Qed.

(** The last reference is the cache's own. *)
Definition unused c (l : nat) : Prop := exists h, heap c !! l = Some h /\ refs h = 1.

Definition entries c L : list (bytes * V) := omap (fun l => live c !! l) L.

Lemma entries_ext c c' L : (forall l, l ∈ L -> heap c' !! l = heap c !! l) -> entries c' L = entries c L.
Proof.
  intros H. unfold entries. induction L as [|l L IH]; [done|]. cbn. unfold live. rewrite !lookup_fmap.
  rewrite (H l) by by left. destruct (heap c !! l); cbn; [f_equal|]; apply IH; intros; apply H; by right.
Qed.

Lemma LRU_destroy_loop_spec L c w w' :
  NoDup L -> (forall l, l ∈ L -> unused c l) -> clean_all (entries c L) w = Ret tt w' ->
  exists c', LRU_destroy_loop deleter L (c, w) = Ret tt (c', w') /\ forall l, l ∈ L -> heap c' !! l = None.
Proof.
  cut (NoDup L -> (forall l, l ∈ L -> unused c l) -> clean_all (entries c L) w = Ret tt w' ->
    exists c', LRU_destroy_loop deleter L (c, w) = Ret tt (c', w') /\
      (forall l, l ∈ L -> heap c' !! l = None) /\ forall l, heap c !! l = None -> heap c' !! l = None).
  { intros H H1 H2 H3. destruct (H H1 H2 H3) as (c' & ? & ? & _). eauto. }
  revert c w. induction L as [|l L IH]; intros c w Hnd Hun Hrun.
  { exists c. cbn in *. injection Hrun as ->. split; [done|]. split; [|done]. intros l Hl. by apply not_elem_of_nil in Hl. }
  apply list.NoDup_cons in Hnd as [Hl Hnd]. destruct (Hun l) as (h & Eh & Hr); [by left|].
  cbn in Hrun. unfold live in Hrun. rewrite lookup_fmap, Eh in Hrun. cbn in Hrun.
  unfold bind at 1 in Hrun. destruct (deleter (hkey h) (value h) w) as [[] w1| |] eqn:Ed; [|done|done].
  change (clean_all (entries c L) w1 = Ret tt w') in Hrun.
  set (c1 := with_heap (delete l (heap c)) (with_usage (u64 (usage_ c - charge h)) c)).
  destruct (IH c1 w1 Hnd) as (c' & Hrun' & Hgone & Hkeep).
  - intros x Hx. destruct (Hun x) as (hx & Ex & Hrx); [by right|]. exists hx. split; [|done].
    cbn. rewrite lookup_delete_ne; [done|]. by intros ->.
  - rewrite (entries_ext c); [done|]. intros x Hx. cbn. apply lookup_delete_ne. by intros ->.
  - exists c'. split; [|split].
    + cbn [LRU_destroy_loop]. erewrite bind_Ret by reflexivity. cbn [fst]. rewrite Eh.
      erewrite bind_Ret by reflexivity. rewrite Hr. change (negb (1 =? 1)) with false. cbv iota.
      rewrite bind_Ret with (a := tt) (s' := (c1, w1)); [done|].
      unfold Unref. erewrite bind_Ret by reflexivity. cbn [fst]. rewrite Eh.
      erewrite bind_Ret by reflexivity. rewrite Hr. change (negb (1 >? 0)) with false. change (1 - 1 <=? 0) with true. cbv iota zeta.
      erewrite bind_Ret by reflexivity. erewrite bind_Ret by (unfold zoom; cbn [snd]; rewrite Ed; reflexivity). done.
    + intros x [->|Hx]%elem_of_cons; [|by apply Hgone]. apply Hkeep. apply lookup_delete_eq.
    + intros x Hx. apply Hkeep. cbn. by rewrite lookup_delete_None; right.
Qed.

(** * All shards *)

(** The entries of the shards [ns], as (shard, location) pairs, in the order in
    which they are deleted. *)
Fixpoint cached_ids C (ns : list nat) : list (nat * nat) :=
  match ns with
  | [] => []
  | i :: ns' => cached_ids C ns' ++ (pair i <$> default [] (lru_ <$> shard_ C !! i))
  end.

Definition shard_unused C (i : nat) : Prop :=
  exists c, shard_ C !! i = Some c /\ NoDup (lru_ c) /\ forall l, l ∈ lru_ c -> unused c l.

Lemma cached_ids_elem C ns i l :
  (i, l) ∈ cached_ids C ns <-> i ∈ ns /\ exists c, shard_ C !! i = Some c /\ l ∈ lru_ c.
Proof.
  induction ns as [|j ns IH]; cbn; [split; [by intros ?%not_elem_of_nil|by intros [?%not_elem_of_nil _]]|].
  rewrite elem_of_app, IH, elem_of_cons, list_elem_of_fmap. split.
  - intros [[? ?]|(x & [= -> ->] & Hx)]; [by eauto|]. split; [by left|].
    destruct (shard_ C !! j) as [c|] eqn:E; [by eauto|by apply not_elem_of_nil in Hx].
  - intros [[->|Hi] (c & E & Hl)]; [|by left; eauto]. right. exists l. by rewrite E.
Qed.

Lemma NoDup_cached_ids C ns : NoDup ns -> (forall i, i ∈ ns -> shard_unused C i) -> NoDup (cached_ids C ns).
Proof.
  induction ns as [|j ns IH]; intros Hnd Hun; cbn; [constructor|]. apply list.NoDup_cons in Hnd as [Hj Hnd].
  destruct (Hun j) as (c & E & Hc & _); [by left|]. rewrite E. cbn. apply list.NoDup_app. split_and!.
  - apply IH; [done|]. intros i Hi. apply Hun. by right.
  - intros [i l] [Hi _]%cached_ids_elem (x & [= -> _] & _)%list_elem_of_fmap. done.
  - by apply list.NoDup_fmap_2; [intros ? ? [=]|].
Qed.

Lemma entries_clive C i c : shard_ C !! i = Some c -> omap (clive C) (pair i <$> lru_ c) = entries c (lru_ c).
Proof.
  intros E. unfold entries. induction (lru_ c) as [|l L IH]; [done|]. cbn. unfold clive at 1. cbn. rewrite E. cbn.
  destruct (live c !! l); [f_equal|]; apply IH.
Qed.

(** Deleting shards runs the deleter on their entries. *)
Lemma destroy_shards_spec ns C w w' :
  NoDup ns -> (forall i, i ∈ ns -> shard_unused C i) ->
  clean_all (omap (clive C) (cached_ids C ns)) w = Ret tt w' ->
  exists C', fold_right (fun i m => m ;;; in_shard i (LRU_destroy deleter)) (ret tt) ns (C, w) = Ret tt (C', w') /\
    forall i, i ∉ ns -> shard_ C' !! i = shard_ C !! i.
Proof.
  revert w'. induction ns as [|i ns IH]; intros w' Hnd Hun Hrun; cbn in *.
  { injection Hrun as ->. by exists C. }
  apply list.NoDup_cons in Hnd as [Hi Hnd]. destruct (Hun i) as (c & E & Hc & Hunc); [by left|].
  rewrite E in Hrun. cbn in Hrun. rewrite omap_app, (entries_clive C i c E) in Hrun.
  apply clean_all_app_inv in Hrun as (w1 & Hrun1 & Hrun2).
  destruct (IH w1 Hnd) as (C1 & H1 & Hsame); [intros j Hj; apply Hun; by right|done|].
  destruct (LRU_destroy_loop_spec (lru_ c) c w1 w' Hc Hunc Hrun2) as (c' & H2 & _).
  eexists. split.
  - erewrite bind_Ret by exact H1. unfold in_shard. cbn [fst snd]. rewrite Hsame, E by done.
    unfold LRU_destroy. erewrite bind_Ret by reflexivity. cbn [fst]. rewrite H2. reflexivity.
  - intros j [Hne Hj]%not_elem_of_cons. cbn. rewrite list_lookup_insert_ne by done. by apply Hsame.
Qed.

Lemma unused_shards C i : sharded_inv (fun _ => 0) C -> i ∈ seq 0 (Z.to_nat kNumShards) -> shard_unused C i.
Proof.
  intros [Hlen Hsh _] Hi%elem_of_seq.
  destruct (shard_ C !! i) as [c|] eqn:E; [|apply lookup_ge_None in E; lia].
  destruct (sh_inv _ _ _ (Hsh i c E)) as [He _ _ Hr _ _ _ _]. exists c. split; [done|].
  split; [apply He|]. intros l Hl. destruct (ent_live _ _ _ He l Hl) as (h & Eh & _). exists h. split; [done|].
  destruct (Hr l h Eh) as [-> _]. unfold shard_pins, in_lru. by rewrite decide_True.
Qed.

(** The entries of a cache nobody uses are all in the lists. *)
Lemma unused_listed C id e :
  sharded_inv (fun _ => 0) C -> clive C id = Some e -> id ∈ cached_ids C (seq 0 (Z.to_nat kNumShards)).
Proof.
  intros [Hlen Hsh _] Hl. destruct id as [i l]. unfold clive in Hl. cbn in Hl.
  apply bind_Some in Hl as (c & E & Hl). destruct e as [k v]. apply live_lookup in Hl as (h & Eh & _).
  destruct (sh_inv _ _ _ (Hsh i c E)) as [_ _ _ Hr _ _ _ _]. destruct (Hr l h Eh) as [Hrefs Hpos].
  apply cached_ids_elem. split; [apply elem_of_seq; apply lookup_lt_Some in E; lia|]. exists c. split; [done|].
  unfold shard_pins, in_lru in Hrefs. case_decide; [done|lia].
Qed.

(** [delete cache], when nobody holds a handle. *)
Lemma Cache_destroy_spec C w w' :
  sharded_inv (fun _ => 0) C ->
  clean_all (omap (clive C) (cached_ids C (seq 0 (Z.to_nat kNumShards)))) w = Ret tt w' ->
  exists C', Cache_destroy deleter (C, w) = Ret tt (C', w').
Proof.
  intros Hinv Hrun.
  destruct (destroy_shards_spec (seq 0 (Z.to_nat kNumShards)) C w w') as (C' & H & _); [apply NoDup_seq| |done|by exists C'].
  intros i Hi. by apply unused_shards.
Qed.
End shard.

(** * The inode cache *)

Lemma NoDup_omap_snd {A B C : Type} (f : A -> option (B * C)) (L : list A) :
  NoDup L -> (forall x y b b' c, f x = Some (b, c) -> f y = Some (b', c) -> x = y) -> NoDup (omap f L).*2.
Proof.
  intros Hnd Hinj. induction L as [|x L IH]; [constructor|]. apply list.NoDup_cons in Hnd as [Hx Hnd]. cbn.
  destruct (f x) as [[b c]|] eqn:E; [|by apply IH]. cbn. apply list.NoDup_cons. split; [|by apply IH].
  intros ([b' c'] & -> & (y & Hy & Ey)%list_elem_of_omap)%list_elem_of_fmap. by rewrite (Hinj _ _ _ _ _ E Ey) in Hx.
Qed.

Section icache.
Context {S It : Type} `{!KvWrapper S It, !KvSpec S It}.
Implicit Types (T : gmap tfs_meta_key_t bytes) (m : gmap bytes bytes) (w : ic_world S).

Definition clean_handle w (o : nat) : Prop := exists h, w_handles w !! o = Some h /\ mode_ h = INODE_READ.

(** Dropping clean handles frees them and leaves the store alone. *)
Lemma clean_all_handles es w :
  NoDup es.*2 -> (forall o, o ∈ es.*2 -> clean_handle w o) ->
  exists w', clean_all CleanInodeHandle es w = Ret tt w' /\ w_metadb w' = w_metadb w /\
    forall o, w_handles w' !! o = if decide (o ∈ es.*2) then None else w_handles w !! o.
Proof.
  revert w. induction es as [|[k o] es IH]; intros w Hnd Hcl; cbn in *.
  { exists w. split; [done|]. split; [done|]. intros o. rewrite decide_False; [done|]. by apply not_elem_of_nil. }
  apply list.NoDup_cons in Hnd as [Ho Hnd]. destruct (Hcl o) as (h & Eh & Hm); [by left|].
  set (w1 := mkWorld (w_metadb w) (delete o (w_handles w)) (w_next w) (i32 (object_count w - 1))).
  destruct (IH w1 Hnd) as (w' & Hrun & Hdb & Hhs).
  - intros x Hx. destruct (Hcl x) as (hx & Ex & Hmx); [by right|]. exists hx. split; [|done]. cbn.
    rewrite lookup_delete_ne; [done|]. by intros ->.
  - exists w'. split; [|split; [done|]].
    + rewrite bind_Ret with (a := tt) (s' := w1); [done|]. unfold CleanInodeHandle, get_handle.
      erewrite bind_Ret by (erewrite bind_Ret by reflexivity; rewrite Eh; reflexivity). rewrite Hm.
      erewrite bind_Ret by reflexivity. reflexivity.
    + intros x. rewrite Hhs. cbn. destruct (decide (x = o)) as [->|Hne].
      * rewrite decide_False, decide_True, lookup_delete_eq by (try done; by left). done.
      * rewrite lookup_delete_ne by done. apply decide_ext. rewrite elem_of_cons. naive_solver.
Qed.

(** [delete inode_cache], when no inode is in use. *)
Lemma InodeCache_destroy_spec m T st :
  IC m T (fun _ => 0) st -> settled (fun _ => 0) (w_handles st.2) ->
  exists C w, InodeCache_destroy st = Ret tt (C, w) /\ w_metadb w = w_metadb st.2 /\ w_handles w = ∅.
Proof.
  destruct st as [C w]. intros [Hrep Hinv HV] Hset. cbn [fst snd] in *.
  assert (sharded_inv (fun _ => 0) C) as Hinv0.
  { eapply sharded_inv_ext; [|exact Hinv]. intros id. unfold pins_of. by destruct (clive C id) as [[]|]. }
  set (ids := cached_ids C (seq 0 (Z.to_nat kNumShards))).
  assert (forall o, o ∈ (omap (clive C) ids).*2 -> exists id k, clive C id = Some (k, o)) as Hel.
  { intros o ([k o'] & -> & (id & _ & Hid)%list_elem_of_omap)%list_elem_of_fmap. by exists id, k. }
  destruct (clean_all_handles (omap (clive C) ids) w) as (w' & Hrun & Hdb & Hhs).
  - apply NoDup_omap_snd; [|by intros; eapply (live_id HV)].
    apply NoDup_cached_ids; [apply NoDup_seq|]. intros i. by apply unused_shards.
  - intros o (id & k & Hid)%Hel. destruct (live_handle HV _ _ _ Hid) as (h & _ & Eh & _). exists h. split; [done|].
    by apply (Hset o h).
  - destruct (Cache_destroy_spec CleanInodeHandle C w w' Hinv0 Hrun) as (C' & H). exists C', w'. split; [done|].
    split; [done|]. apply map_eq. intros o. rewrite Hhs, lookup_empty. case_decide as Ho; [done|].
    destruct (w_handles w !! o) as [h|] eqn:Eh; [|done]. exfalso. apply Ho.
    destruct (ic_handle _ _ _ _ _ _ _ HV o h Eh) as [ch Hok].
    apply list_elem_of_fmap. exists (ToSlice (key_ h), o). split; [done|]. apply list_elem_of_omap.
    exists (hid ch). split; [|apply Hok]. eapply unused_listed; [done|apply Hok].
Qed.
End icache.
