(* ===== verification/Posix.v ===== *)
(** The operating system below the file system: the POSIX calls [fs/tablefs.cpp]
    and [fs/tfs_state.cpp] make, and the [printf] conversions they use.

    A name of the data directory refers to a vnode; an open descriptor keeps its
    vnode after the name is gone. The process runs with the rights to every file
    of its data directory; calls fail for the reasons the arguments give rise to
    (no such name, no such directory, bad descriptor, wrong access mode). Linux
    values and behaviour are used where POSIX leaves a choice. *)

From S2P Require Import Prelude.

(** * Constants *)

Definition ENOENT : Z := 2.
Definition EBADF : Z := 9.
Definition EEXIST : Z := 17.
Definition EINVAL : Z := 22.

Definition O_RDONLY : Z := 0.
Definition O_WRONLY : Z := 1.
Definition O_RDWR : Z := 2.
Definition O_ACCMODE : Z := 3.
Definition O_CREAT : Z := 64.
Definition O_TRUNC : Z := 512.
Definition O_APPEND : Z := 1024.

Definition has_flag (flags f : Z) : bool := negb (Z.land flags f =? 0).
Definition readable (flags : Z) : bool := negb (Z.land flags O_ACCMODE =? O_WRONLY).
Definition writable (flags : Z) : bool := negb (Z.land flags O_ACCMODE =? O_RDONLY).

(** * State *)

Record os : Type := mkOs {
  os_names : gmap bytes nat;             (* name -> vnode *)
  os_data : gmap nat bytes;              (* contents of the vnodes *)
  os_dirs : gset bytes;
  os_fds : gmap Z (nat * Z);             (* descriptor -> vnode, flags *)
  os_next : nat;
  os_errno : Z;
  os_clock : list Z                      (* the readings [time] will return *)
}.

Definition with_names (x : gmap bytes nat) (s : os) : os :=
  mkOs x (os_data s) (os_dirs s) (os_fds s) (os_next s) (os_errno s) (os_clock s).
Definition with_data (x : gmap nat bytes) (s : os) : os :=
  mkOs (os_names s) x (os_dirs s) (os_fds s) (os_next s) (os_errno s) (os_clock s).
Definition with_dirs (x : gset bytes) (s : os) : os :=
  mkOs (os_names s) (os_data s) x (os_fds s) (os_next s) (os_errno s) (os_clock s).
Definition with_fds (x : gmap Z (nat * Z)) (s : os) : os :=
  mkOs (os_names s) (os_data s) (os_dirs s) x (os_next s) (os_errno s) (os_clock s).
Definition with_errno (x : Z) (s : os) : os :=
  mkOs (os_names s) (os_data s) (os_dirs s) (os_fds s) (os_next s) x (os_clock s).

Definition data_of (s : os) (v : nat) : bytes := default [] (os_data s !! v).

(** * Calls *)

Definition fail {A} (e : Z) (r : A) : prog os A := modify (with_errno e) ;;; ret r.

Fixpoint drop_until (c : Z) (l : bytes) : bytes :=
  match l with
  | [] => []
  | x :: l' => if x =? c then l' else drop_until c l'
  end.

(** The directory part of a name. *)
Definition dirname (path : bytes) : bytes := reverse (drop_until 47 (reverse path)).

(** The lowest descriptor from [n] on that is not in use. *)
Fixpoint find_fd (fuel : nat) (n : Z) (fds : gmap Z (nat * Z)) : Z :=
  match fuel with
  | O => n
  | S fuel' => if decide (fds !! n = None) then n else find_fd fuel' (n + 1) fds
  end.
Definition fresh_fd (fds : gmap Z (nat * Z)) : Z := find_fd (size fds) 3 fds.

Definition os_open (path : bytes) (flags : Z) : prog os Z :=
  s <- get_state ;;
  match os_names s !! path with
  | Some v =>
      let fd := fresh_fd (os_fds s) in
      (if has_flag flags O_TRUNC && writable flags
       then modify (fun s => with_data (<[v := []]> (os_data s)) s) else ret tt)%bool ;;;
      modify (fun s => with_fds (<[fd := (v, flags)]> (os_fds s)) s) ;;;
      ret fd
  | None =>
      if negb (has_flag flags O_CREAT) then fail ENOENT (-1) else
      if decide (dirname path ∉ os_dirs s) then fail ENOENT (-1) else
      let v := os_next s in
      let fd := fresh_fd (os_fds s) in
      modify (fun s => mkOs (<[path := v]> (os_names s)) (<[v := []]> (os_data s)) (os_dirs s)
                         (<[fd := (v, flags)]> (os_fds s)) (v + 1) (os_errno s) (os_clock s)) ;;;
      ret fd
  end.

Definition os_close (fd : Z) : prog os Z :=
  s <- get_state ;;
  match os_fds s !! fd with
  | Some _ => modify (fun s => with_fds (delete fd (os_fds s)) s) ;;; ret 0
  | None => fail EBADF (-1)
  end.

(** [pread]: the count and the bytes put in the buffer. *)
Definition os_pread (fd size off : Z) : prog os (Z * bytes) :=
  s <- get_state ;;
  match os_fds s !! fd with
  | Some (v, flags) =>
      if negb (readable flags) then fail EBADF (-1, []) else
      if off <? 0 then fail EINVAL (-1, []) else
      let data := slice (Z.to_nat off) (Z.to_nat size) (data_of s v) in
      ret (Z.of_nat (length data), data)
  | None => fail EBADF (-1, [])
  end.

(** [pwrite]; with [O_APPEND] Linux appends whatever the offset. Writing no bytes
    has no effect on the file, not even past its end. *)
Definition os_pwrite (fd : Z) (buf : bytes) (off : Z) : prog os Z :=
  s <- get_state ;;
  match os_fds s !! fd with
  | Some (v, flags) =>
      if negb (writable flags) then fail EBADF (-1) else
      if off <? 0 then fail EINVAL (-1) else
      if decide (buf = []) then ret 0 else
      let off := if has_flag flags O_APPEND then length (data_of s v) else Z.to_nat off in
      modify (fun s => with_data (<[v := write_at (data_of s v) off buf]> (os_data s)) s) ;;;
      ret (Z.of_nat (length buf))
  | None => fail EBADF (-1)
  end.

Definition os_ftruncate (fd len : Z) : prog os Z :=
  s <- get_state ;;
  match os_fds s !! fd with
  | Some (v, flags) =>
      if negb (writable flags) || (len <? 0) then fail EINVAL (-1) else
      modify (fun s => with_data (<[v := str_resize (data_of s v) (Z.to_nat len)]> (os_data s)) s) ;;;
      ret 0
  | None => fail EBADF (-1)
  end%bool.

Definition os_truncate (path : bytes) (len : Z) : prog os Z :=
  s <- get_state ;;
  match os_names s !! path with
  | Some v =>
      if len <? 0 then fail EINVAL (-1) else
      modify (fun s => with_data (<[v := str_resize (data_of s v) (Z.to_nat len)]> (os_data s)) s) ;;;
      ret 0
  | None => fail ENOENT (-1)
  end.

Definition os_unlink (path : bytes) : prog os Z :=
  s <- get_state ;;
  match os_names s !! path with
  | Some _ => modify (fun s => with_names (delete path (os_names s)) s) ;;; ret 0
  | None => fail ENOENT (-1)
  end.

Definition os_fsync (fd : Z) : prog os Z :=
  s <- get_state ;;
  match os_fds s !! fd with Some _ => ret 0 | None => fail EBADF (-1) end.

Definition os_mkdir (path : bytes) : prog os Z :=
  s <- get_state ;;
  if decide (path ∈ os_dirs s) then fail EEXIST (-1) else
  if decide (dirname path ∉ os_dirs s) then fail ENOENT (-1) else
  modify (fun s => with_dirs ({[path]} ∪ os_dirs s) s) ;;; ret 0.

(** [time(NULL)]: the next reading of the clock. *)
Definition os_time : prog os Z := fun s =>
  Ret (default 0 (head (os_clock s)))
    (mkOs (os_names s) (os_data s) (os_dirs s) (os_fds s) (os_next s) (os_errno s)
       (tail (os_clock s))).

(** Reading and replacing a whole file through [FILE *]. *)
Definition os_read_file (path : bytes) : prog os (option bytes) :=
  gets (fun s => data_of s <$> os_names s !! path).

Definition os_write_file (path contents : bytes) : prog os bool :=
  s <- get_state ;;
  match os_names s !! path with
  | Some v => modify (fun s => with_data (<[v := contents]> (os_data s)) s) ;;; ret true
  | None =>
      if decide (dirname path ∉ os_dirs s) then fail ENOENT false else
      let v := os_next s in
      modify (fun s => mkOs (<[path := v]> (os_names s)) (<[v := contents]> (os_data s))
                         (os_dirs s) (os_fds s) (v + 1) (os_errno s) (os_clock s)) ;;;
      ret true
  end.

(** * Decimal conversions *)

(** The digits of [n], with as many rounds as a 64-bit number needs. *)
Fixpoint dec_digits (fuel : nat) (n : Z) (acc : bytes) : bytes :=
  match fuel with
  | O => acc
  | S fuel' =>
      let acc := (48 + n mod 10) :: acc in
      if n / 10 =? 0 then acc else dec_digits fuel' (n / 10) acc
  end.

Definition fmt_u (n : Z) : bytes := dec_digits 20 (u32 n) [].
Definition fmt_d (n : Z) : bytes := if n <? 0 then 45 :: dec_digits 20 (- n) [] else dec_digits 20 n [].

Definition is_digit (b : Z) : bool := (48 <=? b) && (b <=? 57).

Fixpoint scan_digits (l : bytes) (acc : Z) : Z :=
  match l with
  | b :: l' => if is_digit b then scan_digits l' (acc * 10 + (b - 48)) else acc
  | [] => acc
  end.

(** White space, and an optional sign. *)
Definition is_space (b : Z) : bool := (b =? 32) || ((9 <=? b) && (b <=? 13)).

Fixpoint skip_spaces (l : bytes) : bytes :=
  match l with
  | b :: l' => if is_space b then skip_spaces l' else l
  | [] => []
  end.

Definition read_sign (l : bytes) : bool * bytes :=
  match l with
  | b :: l' => if b =? 45 then (true, l') else if b =? 43 then (false, l') else (false, l)
  | [] => (false, [])
  end.

(** [strtoul] and [strtol] on digits of value [v]: out of range saturates. *)
Definition strtoul_val (neg : bool) (v : Z) : Z :=
  if 2 ^ 64 - 1 <? v then 2 ^ 64 - 1 else u64 (if neg then - v else v).

Definition strtol_val (neg : bool) (v : Z) : Z :=
  Z.max (- 2 ^ 63) (Z.min (2 ^ 63 - 1) (if neg then - v else v)).

(** [fscanf ("%u")] into an [unsigned]: the converted value, no conversion, or
    the end of the input before there was anything to convert. *)
Inductive scanned : Type := Converted (v : Z) | NoConversion | EndOfInput.

Definition scan_u (l : bytes) : scanned :=
  match skip_spaces l with
  | [] => EndOfInput
  | l' =>
      let '(neg, d) := read_sign l' in
      match d with
      | b :: _ => if is_digit b then Converted (u32 (strtoul_val neg (scan_digits d 0))) else NoConversion
      | [] => NoConversion
      end
  end.

(** * Lemmas *)

Lemma find_fd_range fuel n fds : n <= find_fd fuel n fds.
Proof.
  revert n. induction fuel as [|fuel IH]; intros n; simpl; [lia|].
  case_decide; [lia|]. specialize (IH (n + 1)). lia.
Qed.

(** A search that fails has seen as many descriptors as it had rounds. *)
Lemma find_fd_spec fuel n fds :
  fds !! find_fd fuel n fds = None \/
  (find_fd fuel n fds = n + Z.of_nat fuel /\
   forall i, n <= i < n + Z.of_nat fuel -> is_Some (fds !! i)).
Proof.
  revert n. induction fuel as [|fuel IH]; intros n; simpl.
  - right. split; [lia|]. intros i Hi. lia.
  - case_decide as Hn; [by left|]. destruct (IH (n + 1)) as [H|[H1 H2]]; [by left|].
    right. split; [lia|]. intros i Hi. destruct (decide (i = n)) as [->|Hne].
    + by apply not_eq_None_Some.
    + apply H2. lia.
Qed.

Lemma fresh_fd_spec fds : fds !! fresh_fd fds = None /\ 3 <= fresh_fd fds.
Proof.
  unfold fresh_fd. split; [|apply find_fd_range].
  destruct (find_fd_spec (size fds) 3 fds) as [H|[H1 H2]]; [done|]. rewrite H1.
  destruct (fds !! (3 + Z.of_nat (size fds))) as [x|] eqn:E; [|done]. exfalso.
  set (l := (fun i : nat => 3 + Z.of_nat i) <$> seq 0 (S (size fds))).
  assert (NoDup l) as Hnd.
  { apply NoDup_fmap_2; [|apply NoDup_ListNoDup, seq_NoDup]. intros i j Hij. lia. }
  assert (list_to_set l ⊆ dom fds) as Hsub.
  { intros z Hz. apply elem_of_list_to_set in Hz. apply list_elem_of_fmap in Hz as (i & -> & Hi).
    apply elem_of_dom. apply list_elem_of_In, in_seq in Hi.
    destruct (decide (i = size fds)) as [->|Hne]; [by rewrite E|]. apply H2. lia. }
  apply subseteq_size in Hsub. rewrite size_dom, size_list_to_set in Hsub by done.
  unfold l in Hsub. rewrite length_fmap, length_seq in Hsub. lia.
Qed.

(** ** Files *)

(** The contents of the file a name refers to. *)
Definition file_at (o : os) (path : bytes) : option bytes := data_of o <$> os_names o !! path.

(** Names refer to distinct vnodes, and new vnodes are unused. *)
Record os_wf (o : os) : Prop := {
  ow_inj : forall p q v, os_names o !! p = Some v -> os_names o !! q = Some v -> p = q;
  ow_names : forall p v, os_names o !! p = Some v -> (v < os_next o)%nat;
  ow_fds : forall fd v fl, os_fds o !! fd = Some (v, fl) -> (v < os_next o)%nat
}.

(** Everything but the file [path] and the descriptors is the same. *)
Record only_file (path : bytes) (o o' : os) : Prop := {
  of_others : forall q, q <> path -> file_at o' q = file_at o q;
  of_dirs : os_dirs o' = os_dirs o;
  of_clock : os_clock o' = os_clock o
}.

Lemma only_file_refl path o : only_file path o o.
Proof. by split. Qed.

Lemma only_file_trans path o1 o2 o3 : only_file path o1 o2 -> only_file path o2 o3 -> only_file path o1 o3.
Proof.
  intros [H1 H2 H3] [H4 H5 H6]. split; [|congruence|congruence]. intros q Hq. rewrite H4, H1; done.
Qed.

Lemma only_file_same path o o' :
  os_names o' = os_names o -> os_data o' = os_data o -> os_dirs o' = os_dirs o -> os_clock o' = os_clock o ->
  only_file path o o'.
Proof. intros H1 H2 H3 H4. split; [|done|done]. intros q _. unfold file_at, data_of. by rewrite H1, H2. Qed.

Lemma data_of_insert o v d w :
  data_of (with_data (<[v := d]> (os_data o)) o) w = if decide (w = v) then d else data_of o w.
Proof.
  unfold data_of. cbn. case_decide as H; [by rewrite H, lookup_insert_eq|by rewrite lookup_insert_ne by congruence].
Qed.

Lemma with_data_spec o path v d :
  os_wf o -> os_names o !! path = Some v ->
  let o' := with_data (<[v := d]> (os_data o)) o in
  os_wf o' /\ only_file path o o' /\ file_at o' path = Some d.
Proof.
  intros [Hi Hn Hf] Hv o'. split; [by split|]. split.
  - split; [|done|done]. intros q Hq. unfold file_at. cbn [o' with_data os_names].
    destruct (os_names o !! q) as [w|] eqn:E; [|done]. cbn. f_equal. unfold o'. rewrite data_of_insert.
    case_decide as Hw; [|done]. subst w. destruct Hq. by eapply Hi.
  - unfold file_at. cbn [o' with_data os_names]. rewrite Hv. cbn. f_equal. unfold o'.
    rewrite data_of_insert. by rewrite decide_True.
Qed.

(** [open] with [O_CREAT] in a directory that exists. *)
Lemma os_open_spec path flags o :
  os_wf o -> dirname path ∈ os_dirs o -> has_flag flags O_CREAT = true ->
  exists fd v o', os_open path flags o = Ret fd o' /\ 3 <= fd /\ os_fds o !! fd = None /\
    os_fds o' = <[fd := (v, flags)]> (os_fds o) /\ os_names o' !! path = Some v /\ os_wf o' /\
    only_file path o o' /\
    file_at o' path = Some (if has_flag flags O_TRUNC && writable flags then [] else default [] (file_at o path)).
Proof.
  intros Hwf Hdir Hc. destruct (fresh_fd_spec (os_fds o)) as [Hfree Hge].
  set (fd := fresh_fd (os_fds o)) in *. unfold os_open, bind at 1, get_state at 1.
  destruct (os_names o !! path) as [v|] eqn:Ev.
  - assert (exists o1, (if has_flag flags O_TRUNC && writable flags
              then modify (fun s => with_data (<[v := []]> (os_data s)) s) else ret tt) o = Ret tt o1 /\
              os_wf o1 /\ only_file path o o1 /\ os_names o1 = os_names o /\ os_fds o1 = os_fds o /\
              os_next o1 = os_next o /\
              file_at o1 path = Some (if has_flag flags O_TRUNC && writable flags then []
                                      else default [] (file_at o path)))
      as (o1 & Hrun & Hwf1 & Hof1 & Hnm1 & Hfd1 & Hnx1 & Hfa1).
    { destruct (has_flag flags O_TRUNC && writable flags).
      - destruct (with_data_spec o path v [] Hwf Ev) as (W1 & W2 & W3). by eexists.
      - exists o. split; [done|]. split; [done|]. split; [apply only_file_refl|]. repeat (split; [done|]).
        unfold file_at. by rewrite Ev. }
    exists fd, v, (with_fds (<[fd := (v, flags)]> (os_fds o1)) o1). cbv zeta. fold fd.
    split; [by erewrite bind_Ret by exact Hrun|]. rewrite Hfd1. split; [done|]. split; [done|]. split; [done|].
    split; [by cbn; rewrite Hnm1|]. split; [|split; [|done]].
    + destruct Hwf1 as [A1 A2 A3]. split; [done|done|]. cbn. intros fd' v' fl.
      rewrite lookup_insert_Some. intros [[_ [= <- <-]]|[_ E]]; [by eapply A2; rewrite Hnm1|].
      rewrite <- Hfd1 in E. by eapply A3.
    + eapply only_file_trans; [exact Hof1|]. by apply only_file_same.
  - rewrite Hc. cbn [negb]. rewrite decide_False by (intros Hn; by apply Hn). cbv zeta. fold fd.
    eexists fd, (os_next o), _. split; [reflexivity|]. cbn. split; [done|]. split; [done|]. split; [done|].
    split; [apply lookup_insert_eq|]. destruct Hwf as [Hi Hn Hf]. split; [|split].
    + split; cbn.
      * intros p q v. rewrite !lookup_insert_Some.
        intros [[<- <-]|[_ E1]] [[<- E2]|[_ E2]]; [done| | |by eapply Hi].
        -- apply Hn in E2. lia.
        -- subst v. apply Hn in E1. lia.
      * intros p v. rewrite lookup_insert_Some. intros [[_ <-]|[_ E]]; [lia|]. apply Hn in E. lia.
      * intros x v fl. rewrite lookup_insert_Some. intros [[_ [= <- _]]|[_ E]]; [lia|]. apply Hf in E. lia.
    + split; [|done|done]. intros q Hq. unfold file_at, data_of. cbn. rewrite lookup_insert_ne by done.
      destruct (os_names o !! q) as [w|] eqn:Ew; [|done]. cbn. f_equal. f_equal.
      apply Hn in Ew. by rewrite lookup_insert_ne by lia.
    + unfold file_at, data_of. cbn. rewrite Ev, lookup_insert_eq. cbn. rewrite lookup_insert_eq. by destruct (_ && _)%bool.
Qed.

Lemma os_pwrite_spec fd v fl buf off o :
  os_fds o !! fd = Some (v, fl) -> writable fl = true -> has_flag fl O_APPEND = false -> 0 <= off ->
  os_pwrite fd buf off o =
  Ret (Z.of_nat (length buf))
    (if decide (buf = []) then o
     else with_data (<[v := write_at (data_of o v) (Z.to_nat off) buf]> (os_data o)) o).
Proof.
  intros E Hw Ha Ho. unfold os_pwrite, bind, get_state. rewrite E, Hw, Ha. cbn [negb].
  replace (off <? 0) with false by (symmetry; lia). destruct (decide (buf = [])) as [->|]; done.
Qed.

Lemma os_pread_spec fd v fl size off o :
  os_fds o !! fd = Some (v, fl) -> readable fl = true -> 0 <= off ->
  os_pread fd size off o =
  (let data := slice (Z.to_nat off) (Z.to_nat size) (data_of o v) in Ret (Z.of_nat (length data), data) o).
Proof.
  intros E Hr Ho. unfold os_pread, bind, get_state. rewrite E, Hr. cbn [negb].
  by replace (off <? 0) with false by (symmetry; lia).
Qed.

Lemma os_close_spec fd x o :
  os_fds o !! fd = Some x -> os_close fd o = Ret 0 (with_fds (delete fd (os_fds o)) o).
Proof. intros E. unfold os_close, bind, get_state. by rewrite E. Qed.

(** ** Conversions *)

Lemma dec_digits_app fuel n acc : dec_digits fuel n acc = dec_digits fuel n [] ++ acc.
Proof.
  revert n acc. induction fuel as [|fuel IH]; intros n acc; simpl; [done|].
  case_bool; [done|]. rewrite IH, (IH _ [_]). by rewrite <- app_assoc.
Qed.

Lemma dec_digits_step fuel n :
  dec_digits (S fuel) n [] =
  (if n / 10 =? 0 then [] else dec_digits fuel (n / 10) []) ++ [48 + n mod 10].
Proof. simpl. case_bool; [done|]. apply dec_digits_app. Qed.

Lemma scan_digits_dec fuel n a rest :
  0 <= n < 10 ^ Z.of_nat fuel -> exists b, 0 <= b /\
  scan_digits (dec_digits fuel n [] ++ rest) a = scan_digits rest (a * b + n).
Proof.
  revert n a rest. induction fuel as [|fuel IH]; intros n a rest Hn.
  { exists 1. simpl in *. split; [lia|]. f_equal. lia. }
  rewrite dec_digits_step, <- app_assoc.
  pose proof (Z.mod_pos_bound n 10 ltac:(lia)) as Hm. pose proof (Z.div_mod n 10 ltac:(lia)) as Hdm.
  assert (forall x, scan_digits ([48 + n mod 10] ++ rest) x = scan_digits rest (x * 10 + n mod 10)) as Hlast.
  { intros x. simpl. unfold is_digit. replace (48 <=? 48 + n mod 10) with true by (symmetry; lia).
    replace (48 + n mod 10 <=? 57) with true by (symmetry; lia). simpl. f_equal. lia. }
  case_bool; bool_to_prop.
  - exists 10. split; [lia|]. rewrite app_nil_l, Hlast. f_equal. lia.
  - assert (10 ^ Z.of_nat (S fuel) = 10 * 10 ^ Z.of_nat fuel) as Hpow.
    { rewrite Nat2Z.inj_succ, Z.pow_succ_r; lia. }
    destruct (IH (n / 10) a ([48 + n mod 10] ++ rest)) as (b & Hb & ->).
    { split; [apply Z.div_pos; lia|]. apply Z.div_lt_upper_bound; lia. }
    exists (b * 10). split; [lia|]. rewrite Hlast. f_equal. lia.
Qed.

Lemma dec_digits_head fuel n : 0 <= n -> exists b l, dec_digits (S fuel) n [] = b :: l /\ is_digit b = true.
Proof.
  revert n. induction fuel as [|fuel IH]; intros n Hn; rewrite dec_digits_step;
    pose proof (Z.mod_pos_bound n 10 ltac:(lia)) as Hm.
  - eexists _, _. split; [by destruct (_ =? _)|]. unfold is_digit. apply andb_true_iff. lia.
  - destruct (n / 10 =? 0).
    + eexists _, _. split; [done|]. unfold is_digit. apply andb_true_iff. lia.
    + destruct (IH (n / 10)) as (b & l & -> & Hb); [apply Z.div_pos; lia|].
      by eexists _, _.
Qed.

(** A digit is neither a space nor a sign. *)
Lemma digit_start b l : is_digit b = true -> skip_spaces (b :: l) = b :: l /\ read_sign (b :: l) = (false, b :: l).
Proof.
  unfold is_digit. intros Hb. apply andb_true_iff in Hb as [H1 H2]. bool_to_prop. split.
  - simpl. unfold is_space. replace (b =? 32) with false by (symmetry; lia).
    replace (b <=? 13) with false by (symmetry; lia). by rewrite andb_false_r.
  - simpl. replace (b =? 45) with false by (symmetry; lia). by replace (b =? 43) with false by (symmetry; lia).
Qed.

(** Reading back what [%u] printed gives the low 32 bits. *)
Lemma scan_fmt_u n : scan_u (fmt_u n ++ [10]) = Converted (u32 n).
Proof.
  unfold fmt_u. pose proof (u32_range n) as Hr.
  destruct (dec_digits_head 19 (u32 n)) as (b & l & E & Hb); [lia|].
  unfold scan_u. rewrite E. cbn [app]. destruct (digit_start b (l ++ [10]) Hb) as [-> ->]. rewrite Hb.
  change (b :: l ++ [10]) with ((b :: l) ++ [10]). rewrite <- E.
  destruct (scan_digits_dec 20 (u32 n) 0 [10]) as (x & _ & ->).
  { split; [lia|]. apply Z.lt_le_trans with (2 ^ 32); [lia|]. by vm_compute. }
  rewrite Z.mul_0_l, Z.add_0_l. simpl. f_equal. unfold strtoul_val.
  replace (_ <? u32 n) with false by (symmetry; apply Z.ltb_ge; lia).
  rewrite u64_small by lia. by apply u32_small.
Qed.

(** Distinct non-negative integers print differently. *)
Lemma fmt_d_inj x y l1 l2 :
  0 <= x < 2 ^ 32 -> 0 <= y < 2 ^ 32 ->
  (match l1 with b :: _ => is_digit b = false | [] => True end) ->
  (match l2 with b :: _ => is_digit b = false | [] => True end) ->
  fmt_d x ++ l1 = fmt_d y ++ l2 -> x = y.
Proof.
  intros Hx Hy H1 H2 E. unfold fmt_d in E.
  replace (x <? 0) with false in E by (symmetry; lia). replace (y <? 0) with false in E by (symmetry; lia).
  assert (2 ^ 32 <= 10 ^ Z.of_nat 20) as Hp by by vm_compute.
  destruct (scan_digits_dec 20 x 0 l1) as (a & _ & Ex); [lia|].
  destruct (scan_digits_dec 20 y 0 l2) as (b & _ & Ey); [lia|].
  rewrite E, Ey in Ex.
  assert (forall l z, (match l with c :: _ => is_digit c = false | [] => True end) -> scan_digits l z = z)
    as Hstop by (intros [|c l] z Hc; simpl; [done|by rewrite Hc]).
  rewrite !Hstop in Ex by done. lia.
Qed.

#[global] Arguments fmt_d : simpl never.
#[global] Arguments fmt_u : simpl never.
