(* ===== verification/Properties.v ===== *)
(** Configuration properties: [src/util/properties.cpp].

    A [Properties] object is the map [plist] from names to strings. *)

From stdpp Require Import sorting.
From S2P Require Import Prelude Coding WriteBatch Kv Posix.

Abbreviation Properties := (gmap bytes bytes).

Definition setProperty (key value : bytes) (p : Properties) : Properties := <[key := value]> p.

Definition setPropertyInt (key : bytes) (value : Z) (p : Properties) : Properties :=
  <[key := fmt_d value]> p.

(** [getProperty (key)], whose default is ["/"]. *)
Definition getProperty1 (key : bytes) (p : Properties) : bytes :=
  match p !! key with Some v => v | None => str "/" end.

Definition getProperty (key defaultVal : bytes) (p : Properties) : bytes :=
  match p !! key with Some v => v | None => defaultVal end.

(** [atoi], which is [(int) strtol]. *)
Definition atoi (s : bytes) : Z :=
  let '(neg, d) := read_sign (skip_spaces s) in i32 (strtol_val neg (scan_digits d 0)).

Definition getPropertyInt (key : bytes) (defaultVal : Z) (p : Properties) : Z :=
  match p !! key with Some v => atoi v | None => defaultVal end.

Definition getPropertyBool (key : bytes) (defaultVal : bool) (p : Properties) : bool :=
  match p !! key with
  | Some v => if decide (v = str "true") then true else false
  | None => defaultVal
  end.

(** [is.getline (line, 1024)]: the line, the rest of the stream, and whether the
    stream is still good: it is not at the end of the file, nor when the line
    does not fit. *)
Fixpoint getline (n : nat) (s : bytes) : bytes * bytes * bool :=
  match s with
  | [] => ([], [], false)
  | b :: s' =>
      if b =? 10 then ([], s', true) else
      match n with
      | O => ([], s, false)
      | S n' => let '(line, rest, good) := getline n' s' in (b :: line, rest, good)
      end
  end.

(** [strchr (line, '=')] as the two parts around it. *)
Fixpoint split_eq (l : bytes) : option (bytes * bytes) :=
  match l with
  | [] => None
  | b :: l' => if b =? 61 then Some ([], l') else '(k, v) ← split_eq l'; Some (b :: k, v)
  end.

Definition load_line (line : bytes) (p : Properties) : Properties :=
  match split_eq (c_str line) with Some (key, val) => <[key := val]> p | None => p end.

(** The loop of [load]; every good [getline] consumes at least a newline, so the
    size of the file bounds the number of rounds. *)
Fixpoint load_loop (fuel : nat) (s : bytes) (p : Properties) : Properties :=
  match fuel with
  | O => p
  | S fuel' =>
      let '(line, rest, good) := getline 1023 s in
      let p := load_line line p in
      if (good : bool) then load_loop fuel' rest p else p
  end.

Definition load (contents : bytes) (p : Properties) : Properties :=
  load_loop (S (length contents)) contents p.

(** The entries in the order of [std::map]. *)
Definition entries (p : Properties) : list (bytes * bytes) := merge_sort key_le (map_to_list p).

Definition print_entry (kv : bytes * bytes) : bytes := kv.1 ++ [61] ++ kv.2 ++ [10].

Definition store (p : Properties) : bytes := mjoin (print_entry <$> entries p).

(** [parseOpts (argc, argv)]; a trailing option reads [argv[argc]], which is
    [NULL]. *)
Fixpoint parseOpts (argv : list bytes) (p : Properties) : option Properties :=
  match argv with
  | [] => Some p
  | (45 :: key) :: argv' =>
      match argv' with
      | val :: argv'' => parseOpts argv'' (<[key := val]> p)
      | [] => None
      end
  | _ :: argv' => parseOpts argv' p
  end.

(** * Round trip through a file *)

(** A property that survives [store] and [load]: no separator in the name, no
    line break in either part, and a line that fits the buffer. *)
Definition no_byte (c : Z) (l : bytes) : Prop := Forall (fun b => b <> c) l.

Definition entry_ok (kv : bytes * bytes) : Prop :=
  no_byte 61 kv.1 /\ no_byte 10 kv.1 /\ no_byte 0 kv.1 /\ no_byte 10 kv.2 /\ no_byte 0 kv.2 /\
  (length kv.1 + length kv.2 < 1023)%nat.

Lemma getline_line n l rest :
  no_byte 10 l -> (length l <= n)%nat -> getline n (l ++ 10 :: rest) = (l, rest, true).
Proof.
  revert n. induction l as [|b l IH]; intros n Hl Hn; [by destruct n|].
  apply Forall_cons_1 in Hl as [Hb Hl]. simpl in Hn. destruct n as [|n]; [lia|]. cbn [app getline].
  replace (b =? 10) with false by (symmetry; by apply Z.eqb_neq).
  by rewrite (IH n Hl) by lia.
Qed.

Lemma split_eq_line k v : no_byte 61 k -> split_eq (k ++ 61 :: v) = Some (k, v).
Proof.
  induction k as [|b k IH]; intros Hk; simpl; [done|].
  apply Forall_cons_1 in Hk as [Hb Hk].
  replace (b =? 61) with false by (symmetry; by apply Z.eqb_neq). by rewrite IH.
Qed.

Lemma c_str_id l : no_byte 0 l -> c_str l = l.
Proof.
  induction l as [|b l IH]; intros Hl; simpl; [done|]. apply Forall_cons_1 in Hl as [Hb Hl].
  replace (b =? 0) with false by (symmetry; by apply Z.eqb_neq). by rewrite IH.
Qed.

Lemma load_line_entry kv p : entry_ok kv -> load_line (kv.1 ++ 61 :: kv.2) p = <[kv.1 := kv.2]> p.
Proof.
  intros (H1 & H2 & H3 & H4 & H5 & H6). unfold load_line. rewrite c_str_id.
  - by rewrite split_eq_line.
  - apply Forall_app. split; [done|]. by constructor.
Qed.

Lemma load_loop_entries kvs p fuel :
  Forall entry_ok kvs -> (length kvs < fuel)%nat ->
  load_loop fuel (mjoin (print_entry <$> kvs)) p = foldl (fun p kv => <[kv.1 := kv.2]> p) p kvs.
Proof.
  revert p fuel. induction kvs as [|kv kvs IH]; intros p fuel Hok Hf; simpl in Hf.
  - by destruct fuel as [|fuel]; [lia|].
  - destruct fuel as [|fuel]; [lia|]. apply Forall_cons_1 in Hok as [Hkv Hok].
    pose proof Hkv as (H1 & H2 & H3 & H4 & H5 & H6).
    change (mjoin (print_entry <$> kv :: kvs)) with (print_entry kv ++ mjoin (print_entry <$> kvs)).
    unfold print_entry at 1. cbn [load_loop].
    replace ((kv.1 ++ [61] ++ kv.2 ++ [10]) ++ mjoin (print_entry <$> kvs))
      with ((kv.1 ++ 61 :: kv.2) ++ 10 :: mjoin (print_entry <$> kvs))
      by (rewrite <- !app_assoc; simpl; rewrite <- ?app_assoc; done).
    rewrite getline_line; [| |rewrite length_app; simpl; lia].
    + rewrite load_line_entry by done. by apply IH; [|lia].
    + apply Forall_app. split; [done|]. by constructor.
Qed.

Lemma foldl_insert_list_to_map (kvs : list (bytes * bytes)) (p : Properties) :
  foldl (fun p kv => <[kv.1 := kv.2]> p) p kvs = list_to_map (reverse kvs) ∪ p.
Proof.
  revert p. induction kvs as [|[k v] kvs IH]; intros p; simpl.
  - by rewrite map_empty_union.
  - rewrite IH, reverse_cons, list_to_map_app. simpl.
    rewrite <- map_union_assoc. f_equal. by rewrite insert_union_singleton_l.
Qed.

Lemma load_store (p : Properties) : map_Forall (fun k v => entry_ok (k, v)) p -> load (store p) ∅ = p.
Proof.
  intros Hok. unfold load, store.
  pose proof (merge_sort_Permutation key_le (map_to_list p)) as Hperm. fold (entries p) in Hperm.
  rewrite load_loop_entries.
  - rewrite foldl_insert_list_to_map, map_union_empty.
    rewrite (list_to_map_proper (reverse (entries p)) (map_to_list p)).
    + apply list_to_map_to_list.
    + rewrite reverse_Permutation, Hperm. apply NoDup_fst_map_to_list.
    + by rewrite reverse_Permutation, Hperm.
  - rewrite Hperm. apply list.Forall_forall. intros [k v] Hin. apply elem_of_map_to_list in Hin.
    by apply (Hok k v).
  - apply le_n_S. clear. induction (entries p) as [|kv l IH]; [simpl; lia|].
    assert (1 <= length (print_entry kv))%nat by (unfold print_entry; rewrite !length_app; simpl; lia).
    change (mjoin (print_entry <$> kv :: l)) with (print_entry kv ++ mjoin (print_entry <$> l)).
    rewrite length_app. simpl. lia.
Qed.
