(* ===== verification/Allocator.v ===== *)
(** The arena behind the traces of the benchmark: [src/util/allocator.h],
    [src/util/allocator.cpp].

    A [char *] into a block is the index of the block in [blocks] and an offset;
    [blocks] holds the sizes of the blocks. The pages of the constructor come
    from [posix_memalign] and [mlock], which may fail. *)

From S2P Require Import Prelude.

Local Open Scope tfs_scope.

Definition MemoryPageSize : Z := 128 * 1024 * 1024.

Record Allocator : Type := mkAllocator {
  blocks : list Z;
  remaining_bytes : Z;
  current_block : Z;
  flag_using_lock_memory : bool
}.

Definition push_block (size : Z) (a : Allocator) : Allocator :=
  mkAllocator (blocks a ++ [size]) (remaining_bytes a) (current_block a) (flag_using_lock_memory a).
Definition set_position (block rest : Z) (a : Allocator) : Allocator :=
  mkAllocator (blocks a) rest block (flag_using_lock_memory a).

(** The page loop of the constructor. *)
Fixpoint lock_pages (memalign_ok mlock_ok : nat -> bool) (i n : nat) : prog Allocator unit :=
  match n with
  | O => ret tt
  | S n' =>
      if negb (memalign_ok i) then exit 1 else
      if negb (mlock_ok i) then exit 1 else
      modify (push_block MemoryPageSize) ;;;
      lock_pages memalign_ok mlock_ok (S i) n'
  end.

(** [Allocator::Allocator (lock_size)], [lock_size] in megabytes; the members are
    not initialised before. *)
Definition Allocator_init (memalign_ok mlock_ok : nat -> bool) (lock_size : Z) : prog Allocator unit :=
  modify (fun a => mkAllocator [] (remaining_bytes a) (current_block a) (flag_using_lock_memory a)) ;;;
  if lock_size >? 0 then
    let num_memory_pages := i32 (u64 (u64 (lock_size * 1024 * 1024 - 1) / MemoryPageSize + 1)) in
    lock_pages memalign_ok mlock_ok 0 (Z.to_nat num_memory_pages) ;;;
    modify (fun a => mkAllocator (blocks a) MemoryPageSize 0 true)
  else modify (fun a => mkAllocator (blocks a) 0 0 false).

(** [new char[bytes]], appended to the blocks. *)
Definition new_block (bytes : Z) : prog Allocator (Z * Z) :=
  a <- get_state ;;
  modify (push_block bytes) ;;;
  ret (Z.of_nat (length (blocks a)), 0).

(** [blocks[current_block] + (MemoryPageSize - remaining_bytes)], and the bytes
    taken off the rest of the page. *)
Definition take_bytes (bytes : Z) : prog Allocator (Z * Z) :=
  a <- get_state ;;
  deref OutOfBounds (blocks a !! Z.to_nat (current_block a)) ;;;
  modify (set_position (current_block a) (u64 (remaining_bytes a - bytes))) ;;;
  ret (current_block a, MemoryPageSize - remaining_bytes a).

Definition Allocate (bytes : Z) : prog Allocator (Z * Z) :=
  if bytes >? MemoryPageSize then exit 1 else
  a <- get_state ;;
  if flag_using_lock_memory a then
    if remaining_bytes a <? bytes then
      if u64 (current_block a + 1) <? Z.of_nat (length (blocks a)) then
        modify (set_position (u64 (current_block a + 1)) MemoryPageSize) ;;;
        take_bytes bytes
      else
        p <- new_block bytes ;;
        modify (set_position (current_block a) 0) ;;;
        ret p
    else take_bytes bytes
  else new_block bytes.

Fixpoint Allocates (sizes : list Z) : prog Allocator (list (Z * Z)) :=
  match sizes with
  | [] => ret []
  | n :: sizes' => p <- Allocate n ;; ps <- Allocates sizes' ;; ret (p :: ps)
  end.

(** ** Regions *)

(** A region: where it starts and its size. *)
Definition region : Type := (Z * Z) * Z.

Definition inside_block (bs : list Z) (r : region) : Prop :=
  exists size, bs !! Z.to_nat r.1.1 = Some size /\ 0 <= r.1.1 /\ 0 <= r.1.2 /\ r.1.2 + r.2 <= size.

Definition apart (r s : region) : Prop :=
  r.1.1 <> s.1.1 \/ r.1.2 + r.2 <= s.1.2 \/ s.1.2 + s.2 <= r.1.2.

(** An allocator whose bytes in front of the position may be in use. *)
Definition before (a : Allocator) (r : region) : Prop :=
  if flag_using_lock_memory a then
    r.1.1 < current_block a \/ (r.1.1 = current_block a /\ r.1.2 + r.2 <= MemoryPageSize - remaining_bytes a)
  else r.1.1 < Z.of_nat (length (blocks a)).

(** The position is in a block; with locked pages every block is a page. *)
Definition in_range (a : Allocator) : Prop :=
  flag_using_lock_memory a = true ->
  0 <= remaining_bytes a <= MemoryPageSize /\ 0 <= current_block a < Z.of_nat (length (blocks a)).
Definition all_pages (a : Allocator) : Prop :=
  flag_using_lock_memory a = true -> Forall (fun size => size = MemoryPageSize) (blocks a).

(** No block beyond the locked pages was needed between [a] and [a']. *)
Definition in_pages (a a' : Allocator) : Prop :=
  flag_using_lock_memory a = true -> length (blocks a') = length (blocks a).

Lemma lock_pages_run mk ml i n a :
  (forall j, (i <= j < i + n)%nat -> mk j = true /\ ml j = true) ->
  lock_pages mk ml i n a =
  Ret tt (mkAllocator (blocks a ++ replicate n MemoryPageSize) (remaining_bytes a) (current_block a) (flag_using_lock_memory a)).
Proof.
  revert i a. induction n as [|n IH]; intros i a H; cbn [lock_pages].
  - rewrite app_nil_r. by destruct a.
  - destruct (H i ltac:(lia)) as [-> ->]. cbn [negb]. erewrite bind_Ret by reflexivity.
    rewrite IH by (intros j Hj; apply H; lia). cbn. by rewrite <- app_assoc.
Qed.

(** What an allocation of [n] bytes at [p] promises. *)
Definition allocated (a : Allocator) (n : Z) (p : Z * Z) (a' : Allocator) : Prop :=
  all_pages a' /\ inside_block (blocks a') (p, n) /\ before a' (p, n) /\
  forall r, 0 <= r.2 -> before a r -> before a' r /\ apart r (p, n).

Lemma take_bytes_spec bs rest cur n :
  let a := mkAllocator bs rest cur true in
  in_range a -> 0 <= n <= rest ->
  exists p a', take_bytes n a = Ret p a' /\ blocks a' = bs /\ flag_using_lock_memory a' = true /\ in_range a' /\
    (all_pages a -> allocated a n p a').
Proof.
  intros a Hok Hn. destruct (Hok eq_refl) as (Hr & Hc). cbn in Hr, Hc.
  destruct (lookup_lt_is_Some_2 bs (Z.to_nat cur)) as [size Hs]; [lia|].
  assert (MemoryPageSize < 2 ^ 64) as HP by done.
  exists (cur, MemoryPageSize - rest), (mkAllocator bs (rest - n) cur true).
  split; [|split; [done|split; [done|split]]].
  - unfold take_bytes, a. unfold bind at 1. cbn [get_state blocks current_block remaining_bytes]. rewrite Hs. cbn [deref].
    rewrite bind_ret. unfold bind, modify, ret, set_position. cbn. by rewrite u64_small by lia.
  - intros _. cbn. lia.
  - intros Hall. pose proof (Forall_lookup_1 _ _ _ _ (Hall eq_refl) Hs) as ->. split; [done|]. split; [|split].
    + exists MemoryPageSize. cbn. split; [done|]. lia.
    + right. cbn. lia.
    + intros [[b o] m] Hm Hb. unfold before, apart in *. cbn in *. lia.
Qed.

Lemma Allocate_spec a n :
  in_range a -> 0 <= n <= MemoryPageSize -> Z.of_nat (length (blocks a)) < 2 ^ 63 ->
  exists p a', Allocate n a = Ret p a' /\ blocks a `prefix_of` blocks a' /\
    (length (blocks a') <= length (blocks a) + 1)%nat /\
    flag_using_lock_memory a' = flag_using_lock_memory a /\ in_range a' /\
    (all_pages a -> in_pages a a' -> allocated a n p a').
Proof.
  intros Hok Hn Hlen. unfold Allocate. replace (n >? MemoryPageSize) with false by (symmetry; lia).
  unfold bind at 1. cbn [get_state].
  destruct a as [bs rest cur [|]]; cbn [flag_using_lock_memory remaining_bytes current_block blocks] in *.
  - destruct (Hok eq_refl) as (Hr & Hc). cbn in Hr, Hc. rewrite !u64_small by lia.
    destruct (rest <? n) eqn:E1; bool_to_prop; [destruct (cur + 1 <? Z.of_nat (length bs)) eqn:E2; bool_to_prop|].
    + destruct (take_bytes_spec bs MemoryPageSize (cur + 1) n) as (p & a' & Hrun & Hbs & Hfl & Hok' & H);
        [intros _; cbn; lia|lia|].
      exists p, a'. split; [by erewrite bind_Ret by reflexivity|]. rewrite Hbs. split_and!; try done; [lia|].
      intros Hall _. destruct (H Hall) as (H1 & H2 & H3 & H4). split_and!; try done.
      intros r Hr0 Hb. apply H4; [done|]. unfold before in *. cbn in *. lia.
    + eexists _, _. split; [reflexivity|]. cbn. split; [by eexists|]. rewrite length_app. cbn. split; [lia|]. split; [done|].
      split; [intros _; cbn; rewrite length_app; cbn; lia|].
      intros _ Hin. specialize (Hin eq_refl). cbn in Hin. rewrite length_app in Hin. cbn in Hin. lia.
    + destruct (take_bytes_spec bs rest cur n) as (p & a' & Hrun & Hbs & Hfl & Hok' & H); [done|lia|].
      exists p, a'. rewrite Hbs. split_and!; try done; [lia|]. intros Hall _. by apply H.
  - eexists _, _. split; [reflexivity|]. cbn. split; [by eexists|]. rewrite length_app. cbn. split; [lia|]. split; [done|].
    split; [by intros ?|]. intros _ _. split; [by intros ?|]. split; [|split].
    + exists n. cbn. rewrite Nat2Z.id, lookup_app_r, Nat.sub_diag by lia. split; [done|]. lia.
    + unfold before. cbn. rewrite length_app. cbn. lia.
    + intros r Hr Hb. unfold before, apart in *. cbn in *. rewrite length_app. cbn. lia.
Qed.

Lemma inside_prefix bs bs' r : bs `prefix_of` bs' -> inside_block bs r -> inside_block bs' r.
Proof. intros Hp (size & H & Hr). exists size. split; [by eapply prefix_lookup_Some|done]. Qed.

Lemma Allocates_spec sizes a :
  in_range a -> Forall (fun n => 0 <= n <= MemoryPageSize) sizes ->
  Z.of_nat (length (blocks a)) + Z.of_nat (length sizes) < 2 ^ 63 ->
  exists ps a', Allocates sizes a = Ret ps a' /\ length ps = length sizes /\ blocks a `prefix_of` blocks a' /\
    flag_using_lock_memory a' = flag_using_lock_memory a /\
    (all_pages a -> in_pages a a' ->
       Forall (inside_block (blocks a')) (zip ps sizes) /\ ForallOrdPairs apart (zip ps sizes) /\
       forall r, 0 <= r.2 -> before a r -> Forall (apart r) (zip ps sizes)).
Proof.
  revert a. induction sizes as [|n sizes IH]; intros a Hok Hs Hlen; cbn [Allocates].
  - exists [], a. split_and!; try done. intros _ _. split; [constructor|]. split; constructor.
  - apply Forall_cons_1 in Hs as [Hn Hs]. cbn [length] in Hlen.
    destruct (Allocate_spec a n Hok Hn ltac:(lia)) as (p & a1 & Hrun & Hp1 & Hl1 & Hf1 & Hok1 & H1).
    destruct (IH a1 Hok1 Hs ltac:(lia)) as (ps & a2 & Hruns & Hlp & Hp2 & Hf2 & H2).
    exists (p :: ps), a2. split; [erewrite bind_Ret by exact Hrun; by erewrite bind_Ret by exact Hruns|].
    split; [cbn; lia|]. split; [by etrans|]. split; [congruence|]. intros Hall Hin.
    assert (in_pages a a1 /\ in_pages a1 a2) as [Hin1 Hin2].
    { pose proof (prefix_length _ _ Hp1). pose proof (prefix_length _ _ Hp2). unfold in_pages in *. rewrite Hf1.
      split; intros Hf; specialize (Hin Hf); lia. }
    destruct (H1 Hall Hin1) as (Hall1 & Hi & Hb & Hr). destruct (H2 Hall1 Hin2) as (F1 & F2 & F3).
    cbn [zip zip_with]. split; [|split].
    + constructor; [by eapply inside_prefix|done].
    + constructor; [|done]. apply F3; [cbn; lia|done].
    + intros r Hr0 Hbr. destruct (Hr r Hr0 Hbr) as [Hb1 Ha]. constructor; [done|]. by apply F3.
Qed.

(** The constructor locks as many pages as the megabytes asked for need. *)
Lemma Allocator_init_run mk ml lock_size a :
  0 <= lock_size < 2 ^ 37 -> (forall i, mk i = true /\ ml i = true) ->
  exists a', Allocator_init mk ml lock_size a = Ret tt a' /\ in_range a' /\ all_pages a' /\
    Z.of_nat (length (blocks a')) = (lock_size + 127) / 128 /\
    flag_using_lock_memory a' = (lock_size >? 0).
Proof.
  intros Hl Hok. unfold Allocator_init. erewrite bind_Ret by reflexivity.
  destruct (lock_size >? 0) eqn:E; bool_to_prop.
  - assert (0 < (lock_size + 127) / 128 < 2 ^ 30 + 1) as Hpos.
    { split; [apply Z.div_str_pos; lia|apply Z.div_lt_upper_bound; lia]. }
    assert (i32 (u64 (u64 (lock_size * 1024 * 1024 - 1) / MemoryPageSize + 1)) = (lock_size + 127) / 128) as ->.
    { unfold MemoryPageSize. rewrite (u64_small (_ - 1)) by lia.
      assert ((lock_size * 1024 * 1024 - 1) / (128 * 1024 * 1024) + 1 = (lock_size + 127) / 128) as ->
        by (Z.to_euclidean_division_equations; lia).
      rewrite u64_small, i32_small by lia. done. }
    eexists. split; [cbv zeta; erewrite bind_Ret by (apply lock_pages_run; auto); reflexivity|].
    cbn [blocks flag_using_lock_memory app]. rewrite length_replicate. split_and!; try done; [|..|lia].
    + intros _. cbn [blocks remaining_bytes current_block app]. rewrite length_replicate. unfold MemoryPageSize. lia.
    + intros _. by apply Forall_replicate.
  - assert (lock_size = 0) as -> by lia. eexists. split; [reflexivity|]. by split_and!.
Qed.

(** C40: with its memory available, the allocator serves every request of at most a
    page; and as long as the locked pages are enough, or when there are none, the
    regions it hands out lie inside their blocks and do not overlap. *)
Theorem allocations_do_not_overlap mk ml lock_size a0 sizes :
  0 <= lock_size < 2 ^ 37 -> (forall i, mk i = true /\ ml i = true) ->
  Forall (fun n => 0 <= n <= MemoryPageSize) sizes -> Z.of_nat (length sizes) < 2 ^ 62 ->
  exists a ps a', Allocator_init mk ml lock_size a0 = Ret tt a /\ Allocates sizes a = Ret ps a' /\
    Z.of_nat (length (blocks a)) = (lock_size + 127) / 128 /\ length ps = length sizes /\
    (in_pages a a' -> Forall (inside_block (blocks a')) (zip ps sizes) /\ ForallOrdPairs apart (zip ps sizes)).
Proof.
  intros Hl Hok Hs Hn. destruct (Allocator_init_run mk ml lock_size a0 Hl Hok) as (a & Hinit & Hr & Hall & Hlen & _).
  destruct (Allocates_spec sizes a Hr Hs) as (ps & a' & Hrun & Hlp & _ & _ & H).
  { rewrite Hlen. pose proof (Z.div_le_upper_bound (lock_size + 127) 128 (2 ^ 37) ltac:(lia) ltac:(lia)). lia. }
  exists a, ps, a'. split_and!; try done. intros Hin. by destruct (H Hall Hin) as (H1 & H2 & _).
Qed.

Definition ready_memory : nat -> bool := fun _ => true.
Definition raw_allocator : Allocator := mkAllocator [] 0 0 false.

Lemma allocations_do_not_overlap_witness :
  exists a ps a', Allocator_init ready_memory ready_memory 256 raw_allocator = Ret tt a /\
    Allocates [100; MemoryPageSize; 0] a = Ret ps a' /\ ForallOrdPairs apart (zip ps [100; MemoryPageSize; 0]).
Proof.
  destruct (allocations_do_not_overlap ready_memory ready_memory 256 raw_allocator [100; MemoryPageSize; 0])
    as (a & ps & a' & Hinit & Hrun & _ & _ & H).
  - lia.
  - done.
  - repeat constructor; unfold MemoryPageSize; lia.
  - cbn. lia.
  - exists a, ps, a'. split; [exact Hinit|]. split; [exact Hrun|]. apply H. injection Hinit as <-.
    injection Hrun as <- <-. done.
Defined.

(** Beyond the locked pages the blocks do overlap: the block added for a request
    becomes the current block of the next one, as if it were a fresh page. *)
Lemma overflow_blocks_overlap :
  (Allocator_init ready_memory ready_memory 1 ;;; Allocates [MemoryPageSize; 16; 8]) raw_allocator =
  Ret [(0, 0); (1, 0); (1, 0)] (mkAllocator [MemoryPageSize; 16] (MemoryPageSize - 8) 1 true).
Proof. vm_compute. reflexivity. Qed.
