(* ===== verification/Trace.v ===== *)
(** The traces of the benchmark: [src/util/traceloader.h],
    [src/util/traceloader.cpp].

    A trace file begins with the number of paths and how many of them are files,
    and has a line for each path: the path, a separator and a letter for its type.
    [LoadTrace] keeps the paths, the pointers to them and the types in memory of
    the arena. A cell of that memory holds a byte, or the pointer that starts
    there; writing outside of a block is undefined. *)

From S2P Require Import Prelude Coding WriteBatch Kv Posix Allocator.

Set Default Proof Using "Type".

Local Open Scope tfs_scope.

Definition addr : Type := Z * Z.
Definition shift (p : addr) (n : Z) : addr := (p.1, p.2 + n).

Inductive cell : Type := CByte (b : Z) | CPtr (p : addr).
Abbreviation memory := (gmap addr cell).

Record TraceLoader : Type := mkLoader {
  allocator_ : Allocator;
  tl_memory : memory;
  tl_paths : option addr;
  filetypes : option addr;
  num_paths : Z;
  num_dir_paths : Z;
  num_file_paths : Z
}.

(** The constructor: two of the counts are not set. *)
Definition TraceLoader_new (a : Allocator) (m : memory) (dirs files : Z) : TraceLoader :=
  mkLoader a m None None 0 dirs files.

Abbreviation loader_prog := (prog TraceLoader).

Definition put_allocator (a : Allocator) (l : TraceLoader) : TraceLoader :=
  mkLoader a (tl_memory l) (tl_paths l) (filetypes l) (num_paths l) (num_dir_paths l) (num_file_paths l).
Definition put_memory (m : memory) (l : TraceLoader) : TraceLoader :=
  mkLoader (allocator_ l) m (tl_paths l) (filetypes l) (num_paths l) (num_dir_paths l) (num_file_paths l).
Definition put_arrays (p t : option addr) (l : TraceLoader) : TraceLoader :=
  mkLoader (allocator_ l) (tl_memory l) p t (num_paths l) (num_dir_paths l) (num_file_paths l).
Definition put_counts (n d f : Z) (l : TraceLoader) : TraceLoader :=
  mkLoader (allocator_ l) (tl_memory l) (tl_paths l) (filetypes l) n d f.

Definition allocate (n : Z) : loader_prog addr := zoom allocator_ put_allocator (Allocate (u64 n)).

(** ** Memory *)

Definition in_block (a : Allocator) (p : addr) (n : Z) : bool :=
  (0 <=? p.1) && (0 <=? p.2) &&
  match blocks a !! Z.to_nat p.1 with Some size => p.2 + n <=? size | None => false end.

Fixpoint write_bytes (p : addr) (l : bytes) (m : memory) : memory :=
  match l with
  | [] => m
  | b :: l' => write_bytes (shift p 1) l' (<[p := CByte b]> m)
  end.

Definition mem_write (p : addr) (l : bytes) : loader_prog unit :=
  s <- get_state ;;
  if in_block (allocator_ s) p (Z.of_nat (length l)) then modify (put_memory (write_bytes p l (tl_memory s)))
  else undefined OutOfBounds.

(** Pointers have eight bytes. *)
Definition mem_write_ptr (p q : addr) : loader_prog unit :=
  s <- get_state ;;
  if in_block (allocator_ s) p 8 then modify (put_memory (<[p := CPtr q]> (tl_memory s)))
  else undefined OutOfBounds.

Definition read_ptr (p : addr) : loader_prog addr :=
  s <- get_state ;;
  match tl_memory s !! p with Some (CPtr q) => ret q | _ => undefined OutOfBounds end.

Definition read_byte (p : addr) : loader_prog Z :=
  s <- get_state ;;
  match tl_memory s !! p with Some (CByte b) => ret b | _ => undefined OutOfBounds end.

(** The string at [p], of less than [fuel] bytes. *)
Fixpoint string_at (fuel : nat) (p : addr) (m : memory) : option bytes :=
  match fuel with
  | O => None
  | S fuel' =>
      match m !! p with
      | Some (CByte b) => if b =? 0 then Some [] else (cons b) <$> string_at fuel' (shift p 1) m
      | _ => None
      end
  end.

(** ** Reading the file *)

(** What is behind the digits. *)
Fixpoint skip_digits (l : bytes) : bytes :=
  match l with
  | b :: l' => if is_digit b then skip_digits l' else l
  | [] => []
  end.

(** [%ld] of [fscanf]: the value and the rest of the input. *)
Definition scan_ld (l : bytes) : option (Z * bytes) :=
  let '(neg, d) := read_sign (skip_spaces l) in
  match d with
  | b :: _ => if is_digit b then Some (strtol_val neg (scan_digits d 0), skip_digits d) else None
  | [] => None
  end.

(** The loop over [fgetc] into [pathname], of which [buf] is filled: the bytes
    read, whether the last one was taken for the end of the file, and the rest of
    the file; [None] when the array is full. [c] is a [char], so the byte 255 is
    equal to [EOF]. *)
Fixpoint read_line (s buf : bytes) : option (bytes * bool * bytes) :=
  if Nat.leb 4096 (length buf) then None else
  match s with
  | [] => Some (buf ++ [255], true, [])
  | b :: s' =>
      if b =? 255 then Some (buf ++ [255], true, s')
      else if b =? 10 then Some (buf ++ [10], false, s')
      else read_line s' (buf ++ [b])
  end.

(** [strncpy]: the string and zeros up to the size. *)
Definition strncpy_bytes (l : bytes) (size : nat) : bytes :=
  let s := take size (c_str l) in s ++ replicate (size - length s) 0.

Definition AddEntry (filename : bytes) (size : nat) : loader_prog addr :=
  new_path <- allocate (Z.of_nat size) ;;
  mem_write new_path (strncpy_bytes filename size) ;;;
  ret new_path.

(** The loop of [LoadTrace]; every round but the last reads a byte at least, so
    the size of the file bounds the rounds. *)
Fixpoint load_lines (fuel : nat) (i : Z) (s : bytes) : loader_prog unit :=
  l <- get_state ;;
  if i <? num_paths l then
    match fuel with
    | O => undefined Unfinished
    | S fuel' =>
        match read_line s [] with
        | None => undefined OutOfBounds
        | Some (pathname, eof, s') =>
            if (eof : bool) then ret tt else
            let len := length pathname in
            if Nat.ltb len 3 then undefined OutOfBounds else
            let pathname := <[(len - 3)%nat := 0]> pathname in
            types <- deref NullPointer (filetypes l) ;;
            mem_write (shift types i) [nth (len - 2) pathname 0] ;;;
            p <- AddEntry pathname (len + 1) ;;
            ps <- deref NullPointer (tl_paths l) ;;
            mem_write_ptr (shift ps (8 * i)) p ;;;
            load_lines fuel' (i + 1) s'
        end
    end
  else ret tt.

(** [file] is what the file holds, if it can be opened. *)
Definition LoadTrace (file : option bytes) : loader_prog unit :=
  match file with
  | None => ret tt
  | Some s =>
      l <- get_state ;;
      match scan_ld s with
      | None => ret tt
      | Some (n, s1) =>
          modify (put_counts (u64 n) (num_dir_paths l) (num_file_paths l)) ;;;
          match scan_ld s1 with
          | None => ret tt
          | Some (f, s2) =>
              modify (put_counts (u64 n) (num_dir_paths l) (u64 f)) ;;;
              p <- allocate (u64 n * 8) ;;
              t <- allocate (u64 n) ;;
              modify (put_arrays (Some p) (Some t)) ;;;
              load_lines (Datatypes.S (length s)) 0 (skip_spaces s2) ;;;
              modify (fun l => put_counts (num_paths l) (u64 (num_paths l - num_file_paths l)) (num_file_paths l) l)
          end
      end
  end.

Definition GetNumPaths : loader_prog Z := gets (fun l => i32 (num_paths l)).
Definition GetNumFilePaths : loader_prog Z := gets (fun l => i32 (num_file_paths l)).
Definition GetNumDirectoryPaths : loader_prog Z := gets (fun l => i32 (u64 (num_paths l - num_file_paths l))).

(** [paths[index]] *)
Definition path_at (index : Z) : loader_prog addr :=
  l <- get_state ;;
  ps <- deref NullPointer (tl_paths l) ;;
  read_ptr (shift ps (8 * index)).

(** [GetPath (index, filetype)]: the path and the type, which is not set otherwise. *)
Definition GetPath_type (index : Z) : loader_prog (option (addr * Z)) :=
  l <- get_state ;;
  if u64 index <? num_paths l then
    types <- deref NullPointer (filetypes l) ;;
    t <- read_byte (shift types index) ;;
    p <- path_at index ;;
    ret (Some (p, t))
  else ret None.

Definition GetPath (index : Z) : loader_prog (option addr) :=
  l <- get_state ;;
  if u64 index <? num_paths l then p <- path_at index ;; ret (Some p) else ret None.

Definition GetDirPath (dindex : Z) : loader_prog (option addr) :=
  l <- get_state ;;
  if (0 <=? dindex) && (dindex <? num_dir_paths l) then p <- path_at dindex ;; ret (Some p) else ret None.

Definition GetFilePath (findex : Z) : loader_prog (option addr) :=
  l <- get_state ;;
  if (0 <=? findex) && (findex <? num_file_paths l) then p <- path_at (findex + i32 (num_dir_paths l)) ;; ret (Some p)
  else ret None.

(** * Properties *)

(** ** Memory *)

Definition stores (m : memory) (p : addr) (l : bytes) : Prop :=
  forall k b, l !! k = Some b -> m !! shift p (Z.of_nat k) = Some (CByte b).

(** [q] is not one of the [n] bytes from [p] on. *)
Definition outside (p : addr) (n : Z) (q : addr) : Prop := q.1 <> p.1 \/ q.2 < p.2 \/ p.2 + n <= q.2.

Lemma shift_shift p a b : shift (shift p a) b = shift p (a + b).
Proof. unfold shift. cbn. f_equal. lia. Qed.

Lemma shift_0 p : shift p 0 = p.
Proof. destruct p. unfold shift. cbn. f_equal. lia. Qed.

Lemma write_bytes_other l p m q : outside p (Z.of_nat (length l)) q -> write_bytes p l m !! q = m !! q.
Proof.
  revert p m. induction l as [|b l IH]; intros p m Hq; [done|]. cbn [write_bytes length] in *. rewrite IH.
  - apply lookup_insert_ne. intros ->. unfold outside in Hq. lia.
  - unfold outside, shift in *. cbn. lia.
Qed.

Lemma write_bytes_stores l p m : stores (write_bytes p l m) p l.
Proof.
  revert p m. induction l as [|b l IH]; intros p m k c Hk; [done|]. destruct k as [|k]; cbn [write_bytes] in *.
  - injection Hk as ->. rewrite write_bytes_other; [|unfold outside, shift; cbn; lia].
    change (Z.of_nat 0) with 0. rewrite shift_0. apply lookup_insert_eq.
  - rewrite Nat2Z.inj_succ. replace (shift p (Z.succ (Z.of_nat k))) with (shift (shift p 1) (Z.of_nat k))
      by (rewrite shift_shift; f_equal; lia). by apply IH.
Qed.

Lemma stores_prefix m p l l' : stores m p (l ++ l') -> stores m p l.
Proof. intros H k b Hk. apply H. by apply lookup_app_l_Some. Qed.

Lemma stores_same m m' p l :
  (forall k, (k < length l)%nat -> m' !! shift p (Z.of_nat k) = m !! shift p (Z.of_nat k)) -> stores m p l -> stores m' p l.
Proof. intros Heq H k b Hk. rewrite Heq; [by apply H|by eapply lookup_lt_Some]. Qed.

Lemma string_at_stores s fuel p m : stores m p (s ++ [0]) -> Forall (fun b => b <> 0) s -> (length s < fuel)%nat ->
  string_at fuel p m = Some s.
Proof.
  revert p fuel. induction s as [|b s IH]; intros p [|fuel] Hs Hn Hf; cbn [string_at length] in *; try lia.
  - pose proof (Hs 0%nat 0 eq_refl) as H. change (Z.of_nat 0) with 0 in H. rewrite shift_0 in H. by rewrite H.
  - pose proof (Hs 0%nat b eq_refl) as H. change (Z.of_nat 0) with 0 in H. rewrite shift_0 in H. rewrite H.
    apply Forall_cons_iff in Hn as [Hb Hn]. replace (b =? 0) with false by (symmetry; lia).
    rewrite IH; [done| |done|lia]. intros k c Hk. specialize (Hs (Datatypes.S k) c Hk).
    rewrite shift_shift. by replace (1 + Z.of_nat k) with (Z.of_nat (Datatypes.S k)) by lia.
Qed.

(** ** Lines *)

(** A byte that [fgetc] gives back as itself and that does not end a line. *)
Definition plain (b : Z) : Prop := b <> 10 /\ b <> 255.

Lemma read_line_line l rest buf : Forall plain l -> (length buf + length l < 4096)%nat ->
  read_line (l ++ 10 :: rest) buf = Some (buf ++ l ++ [10], false, rest).
Proof.
  revert buf. induction l as [|b l IH]; intros buf Hl Hlen; cbn [app read_line].
  - destruct (Nat.leb 4096 (length buf)) eqn:E; [apply Nat.leb_le in E; cbn in Hlen; lia|done].
  - apply Forall_cons_iff in Hl as [[H1 H2] Hl]. cbn [length] in Hlen.
    destruct (Nat.leb 4096 (length buf)) eqn:E; [apply Nat.leb_le in E; lia|].
    replace (b =? 255) with false by (symmetry; lia). replace (b =? 10) with false by (symmetry; lia).
    rewrite IH; [|done|rewrite length_app; cbn; lia]. by rewrite <- app_assoc.
Qed.

Lemma skip_digits_dec fuel n b rest : 0 <= n -> is_digit b = false -> skip_digits (dec_digits fuel n [] ++ b :: rest) = b :: rest.
Proof.
  intros Hn Hb. assert (H : Forall (fun c => is_digit c = true) (dec_digits fuel n [])).
  { revert n Hn. induction fuel as [|fuel IH]; intros n Hn; [constructor|]. rewrite dec_digits_step. apply Forall_app. split.
    - destruct (n / 10 =? 0); [constructor|]. apply IH. apply Z.div_pos; lia.
    - constructor; [|constructor]. unfold is_digit. pose proof (Z.mod_pos_bound n 10 ltac:(lia)). apply andb_true_iff. lia. }
  induction H as [|c l Hc _ IH]; cbn; [by rewrite Hb|]. by rewrite Hc.
Qed.

(** [%ld] reads back what [%d] printed. *)
Lemma scan_ld_fmt n b rest : 0 <= n < 2 ^ 63 -> is_digit b = false -> scan_ld (fmt_d n ++ b :: rest) = Some (n, b :: rest).
Proof.
  intros Hn Hb. unfold fmt_d. replace (n <? 0) with false by (symmetry; lia).
  destruct (dec_digits_head 19 n) as (c & l & E & Hc); [lia|].
  unfold scan_ld. rewrite E. cbn [app]. destruct (digit_start c (l ++ b :: rest) Hc) as [-> ->]. rewrite Hc.
  change (c :: l ++ b :: rest) with ((c :: l) ++ b :: rest). rewrite <- E. rewrite skip_digits_dec by (done || lia).
  destruct (scan_digits_dec 20 n 0 (b :: rest)) as (x & _ & ->).
  { split; [lia|]. apply Z.lt_le_trans with (2 ^ 63); [lia|by vm_compute]. }
  cbn [scan_digits]. rewrite Hb. rewrite Z.mul_0_l, Z.add_0_l. unfold strtol_val. do 2 f_equal. lia.
Qed.

(** ** Loading *)

(** An entry of a trace: a path and its type. *)
Abbreviation entry := (bytes * Z)%type.

Definition print_line (sep : Z) (e : entry) : bytes := e.1 ++ [sep; e.2; 10].

Definition print_trace (sep : Z) (es : list entry) (files : Z) : bytes :=
  fmt_d (Z.of_nat (length es)) ++ 32 :: fmt_d files ++ 10 :: mjoin (print_line sep <$> es).

(** A path that can stand on a line and fits into [pathname]. *)
Definition entry_ok (e : entry) : Prop :=
  Forall (fun b => plain b /\ b <> 0) e.1 /\ plain e.2 /\ (length e.1 + 3 <= 4096)%nat.

Definition entry_size (e : entry) : Z := Z.of_nat (length e.1) + 4.

(** Entry [i] is in memory, in a part of the arena that is in use. *)
Definition loaded (l : TraceLoader) (ps ts : addr) (i : nat) (e : entry) : Prop :=
  exists q n, tl_memory l !! shift ps (8 * Z.of_nat i) = Some (CPtr q) /\
    tl_memory l !! shift ts (Z.of_nat i) = Some (CByte e.2) /\
    stores (tl_memory l) q (e.1 ++ [0]) /\ before (allocator_ l) (q, n) /\ Z.of_nat (length e.1) + 1 <= n /\
    apart (ps, 8 * num_paths l) (q, n) /\ apart (ts, num_paths l) (q, n).

(** The arrays are in use and lie in their blocks. *)
Record arrays (l : TraceLoader) (ps ts : addr) (n : Z) : Prop := {
  ar_paths : tl_paths l = Some ps;
  ar_types : filetypes l = Some ts;
  ar_num : num_paths l = n;
  ar_before_paths : before (allocator_ l) (ps, 8 * n);
  ar_before_types : before (allocator_ l) (ts, n);
  ar_in_paths : inside_block (blocks (allocator_ l)) (ps, 8 * n);
  ar_in_types : inside_block (blocks (allocator_ l)) (ts, n);
  ar_apart : apart (ps, 8 * n) (ts, n)
}.

Lemma in_block_inside a p n k m : inside_block (blocks a) (p, n) -> 0 <= k -> k + m <= n -> in_block a (shift p k) m = true.
Proof.
  intros (size & Hs & H1 & H2 & H3) Hk Hm. unfold in_block, shift. cbn in *. rewrite Hs.
  apply andb_true_iff. split; [apply andb_true_iff|]; lia.
Qed.

Lemma mem_write_run l p bs : in_block (allocator_ l) p (Z.of_nat (length bs)) = true ->
  mem_write p bs l = Ret tt (put_memory (write_bytes p bs (tl_memory l)) l).
Proof. intros H. unfold mem_write, bind, get_state. by rewrite H. Qed.

Lemma mem_write_ptr_run l p q : in_block (allocator_ l) p 8 = true ->
  mem_write_ptr p q l = Ret tt (put_memory (<[p := CPtr q]> (tl_memory l)) l).
Proof. intros H. unfold mem_write_ptr, bind, get_state. by rewrite H. Qed.

(** The string that [AddEntry] is given: the line, cut at the separator. *)
Lemma cut_line sep (e : entry) : Forall (fun b => plain b /\ b <> 0) e.1 ->
  let len := length (print_line sep e) in
  strncpy_bytes (<[(len - 3)%nat := 0]> (print_line sep e)) (len + 1) = (e.1 ++ [0]) ++ [0; 0; 0] /\
  nth (len - 2) (<[(len - 3)%nat := 0]> (print_line sep e)) 0 = e.2 /\ len = (length e.1 + 3)%nat.
Proof.
  intros He len. assert (Hlen : len = (length e.1 + 3)%nat) by (unfold len, print_line; by rewrite length_app).
  assert (Hcut : <[(len - 3)%nat := 0]> (print_line sep e) = e.1 ++ [0; e.2; 10]).
  { rewrite Hlen. unfold print_line. replace (length e.1 + 3 - 3)%nat with (length e.1 + 0)%nat by lia. by rewrite insert_app_r. }
  rewrite Hcut. split; [|split; [|done]].
  - unfold strncpy_bytes. rewrite c_str_no_nul by (eapply Forall_impl; [|exact He]; by intros b [_ ?]).
    rewrite take_ge by lia. rewrite <- app_assoc. f_equal. by replace (len + 1 - length e.1)%nat with 4%nat by lia.
  - rewrite app_nth2 by lia. by replace (len - 2 - length e.1)%nat with 1%nat by lia.
Qed.

Lemma apart_left p n q m k : apart (p, n) (q, m) -> 0 <= k < n -> outside q m (shift p k).
Proof. unfold apart, outside, shift. cbn. lia. Qed.

Lemma apart_right p n q m k : apart (p, n) (q, m) -> 0 <= k < m -> outside p n (shift q k).
Proof. unfold apart, outside, shift. cbn. lia. Qed.

Lemma outside_ne p n k q : outside p n q -> 0 <= k < n -> shift p k <> q.
Proof. unfold outside, shift. intros H Hk <-. cbn in H. lia. Qed.

Lemma outside_smaller p n k m q : outside p n q -> 0 <= k -> k + m <= n -> outside (shift p k) m q.
Proof. unfold outside, shift. cbn. lia. Qed.

(** The memory after entry [i] is written, and what of it is as before. *)
Definition entry_memory (ps ts q : addr) (i : nat) (e : entry) (m : memory) : memory :=
  <[shift ps (8 * Z.of_nat i) := CPtr q]>
    (write_bytes q ((e.1 ++ [0]) ++ [0; 0; 0]) (write_bytes (shift ts (Z.of_nat i)) [e.2] m)).

Lemma entry_memory_other ps ts q i e m x :
  x <> shift ps (8 * Z.of_nat i) -> outside q (entry_size e) x -> x <> shift ts (Z.of_nat i) ->
  entry_memory ps ts q i e m !! x = m !! x.
Proof.
  intros H1 H2 H3. unfold entry_memory. rewrite lookup_insert_ne by done. rewrite write_bytes_other.
  - apply write_bytes_other. unfold outside, shift in *. cbn in *. destruct x, ts. cbn in *.
    destruct (decide (z = z1)); [right|by left]. assert (z0 <> z2 + Z.of_nat i) by (intros ->; apply H3; by subst). lia.
  - rewrite !length_app. unfold entry_size in H2. cbn. by replace (Z.of_nat (length e.1 + 1 + 3)) with (Z.of_nat (length e.1) + 4) by lia.
Qed.

Section entry.
Context (ps ts q : addr) (n : Z) (i : nat) (e : entry) (m : memory).
Context (Harr : apart (ps, 8 * n) (ts, n)) (Hps : apart (ps, 8 * n) (q, entry_size e)) (Hts : apart (ts, n) (q, entry_size e)).
Context (Hi : Z.of_nat i < n).

Lemma entry_memory_paths j : Z.of_nat j < n -> j <> i ->
  entry_memory ps ts q i e m !! shift ps (8 * Z.of_nat j) = m !! shift ps (8 * Z.of_nat j).
Proof using Harr Hps Hi.
  intros Hj Hne. apply entry_memory_other.
  - intros [=]. lia.
  - eapply apart_left; [exact Hps|lia].
  - intros H. symmetry in H. revert H. eapply outside_ne; [eapply apart_left; [exact Harr|lia]|lia].
Qed.

Lemma entry_memory_types j : Z.of_nat j < n -> j <> i ->
  entry_memory ps ts q i e m !! shift ts (Z.of_nat j) = m !! shift ts (Z.of_nat j).
Proof using Harr Hts Hi.
  intros Hj Hne. apply entry_memory_other.
  - intros H. symmetry in H. revert H. eapply outside_ne; [eapply apart_right; [exact Harr|lia]|lia].
  - eapply apart_left; [exact Hts|lia].
  - intros [=]. lia.
Qed.

Lemma entry_memory_string p k l : stores m p l -> Z.of_nat (length l) <= k ->
  apart (ps, 8 * n) (p, k) -> apart (ts, n) (p, k) -> apart (p, k) (q, entry_size e) ->
  stores (entry_memory ps ts q i e m) p l.
Proof using Hi.
  intros Hst Hk H1 H2 H3. eapply stores_same; [|exact Hst]. intros x Hx. apply entry_memory_other.
  - intros H. symmetry in H. revert H. eapply outside_ne; [eapply apart_right; [exact H1|lia]|lia].
  - eapply apart_left; [exact H3|lia].
  - intros H. symmetry in H. revert H. eapply outside_ne; [eapply apart_right; [exact H2|lia]|lia].
Qed.

Lemma entry_memory_new : entry_memory ps ts q i e m !! shift ps (8 * Z.of_nat i) = Some (CPtr q) /\
  entry_memory ps ts q i e m !! shift ts (Z.of_nat i) = Some (CByte e.2) /\
  stores (entry_memory ps ts q i e m) q (e.1 ++ [0]).
Proof using All.
  unfold entry_memory. split; [apply lookup_insert_eq|split].
  - rewrite lookup_insert_ne; [|eapply outside_ne; [eapply apart_right; [exact Harr|lia]|lia]].
    rewrite write_bytes_other.
    + pose proof (write_bytes_stores [e.2] (shift ts (Z.of_nat i)) m 0%nat e.2 eq_refl) as H. by rewrite shift_shift, Z.add_0_r in H.
    + rewrite !length_app. cbn. replace (Z.of_nat (length e.1 + 1 + 3)) with (entry_size e) by (unfold entry_size; lia).
      eapply apart_left; [exact Hts|lia].
  - apply (stores_same (write_bytes q ((e.1 ++ [0]) ++ [0; 0; 0]) (write_bytes (shift ts (Z.of_nat i)) [e.2] m))).
    + intros k Hk. rewrite length_app in Hk. cbn in Hk. apply lookup_insert_ne.
      eapply outside_ne; [eapply apart_right; [exact Hps|unfold entry_size; lia]|lia].
    + eapply stores_prefix, write_bytes_stores.
Qed.
End entry.

(** An arena that has served its requests within its pages. *)
Definition arena_ok (a : Allocator) : Prop := in_range a /\ all_pages a /\ Z.of_nat (length (blocks a)) < 2 ^ 62.

(** One round of the loop. *)
Lemma load_line_run sep l ps ts n i (e : entry) q a1 fuel rest :
  arrays l ps ts n -> arena_ok (allocator_ l) -> entry_ok e -> plain sep -> Z.of_nat i < n -> n < 2 ^ 62 ->
  Allocate (entry_size e) (allocator_ l) = Ret q a1 -> in_pages (allocator_ l) a1 ->
  exists l1, load_lines (Datatypes.S fuel) (Z.of_nat i) (print_line sep e ++ rest) l =
      load_lines fuel (Z.of_nat (Datatypes.S i)) rest l1 /\
    l1 = put_memory (entry_memory ps ts q i e (tl_memory l)) (put_allocator a1 l) /\
    arrays l1 ps ts n /\ loaded l1 ps ts i e /\
    forall j e', j <> i -> Z.of_nat j < n -> loaded l ps ts j e' -> loaded l1 ps ts j e'.
Proof.
  intros [] (Hrange & Hpages & Hlen) (He & Ht & Hsz) Hsep Hi Hn Hrun Hin.
  assert (Hsize : 0 <= entry_size e <= MemoryPageSize) by (unfold entry_size, MemoryPageSize; lia).
  destruct (Allocate_spec (allocator_ l) (entry_size e) Hrange Hsize ltac:(lia)) as (q' & a' & Hrun' & Hpre & _ & _ & _ & Hal).
  rewrite Hrun in Hrun'. injection Hrun' as <- <-. destruct (Hal Hpages Hin) as (_ & Hinq & Hbq & Hap).
  destruct (Hap (ps, 8 * n) ltac:(cbn; lia) ar_before_paths0) as [Hb1 Hp1]. destruct (Hap (ts, n) ltac:(cbn; lia) ar_before_types0) as [Hb2 Hp2].
  destruct (cut_line sep e He) as (Hcut & Hty & Hll). eexists. split; [|split; [reflexivity|]].
  - cbn [load_lines]. erewrite bind_Ret by reflexivity. rewrite ar_num0. replace (Z.of_nat i <? n) with true by (symmetry; lia).
    assert (Hline : read_line (print_line sep e ++ rest) [] = Some (print_line sep e, false, rest)).
    { unfold print_line. change [sep; e.2; 10] with ([sep; e.2] ++ [10]). rewrite app_assoc, <- (app_assoc _ [10] rest).
      cbn [app]. rewrite read_line_line.
      - done.
      - apply Forall_app. split; [eapply Forall_impl; [|exact He]; by intros b [? _]|]. by repeat constructor; apply Hsep || apply Ht.
      - rewrite length_app. cbn. lia. }
    rewrite Hline. cbv zeta. rewrite Hll. replace (Nat.ltb (length e.1 + 3) 3) with false by (symmetry; apply Nat.ltb_ge; lia).
    rewrite Hll in Hcut, Hty. rewrite ar_types0, ar_paths0. cbn [deref]. rewrite bind_ret, Hty.
    erewrite bind_Ret by (apply mem_write_run; eapply in_block_inside; [exact ar_in_types0|lia|cbn; lia]).
    unfold AddEntry. rewrite Hcut.
    replace (Z.of_nat (length e.1 + 3 + 1)) with (entry_size e) by (unfold entry_size; lia).
    erewrite bind_Ret.
    2: { erewrite bind_Ret.
         2: { unfold allocate, zoom. rewrite u64_small by (unfold MemoryPageSize in Hsize; lia). cbn [allocator_ put_memory]. by rewrite Hrun. }
         erewrite bind_Ret; [reflexivity|]. apply mem_write_run. cbn [allocator_ put_allocator put_memory].
         rewrite <- (shift_0 q). eapply in_block_inside; [exact Hinq|lia|]. rewrite !length_app. unfold entry_size. cbn. lia. }
    rewrite bind_ret. erewrite bind_Ret.
    2: { apply mem_write_ptr_run. cbn [allocator_ put_allocator put_memory].
         eapply in_block_inside; [eapply inside_prefix; [exact Hpre|exact ar_in_paths0]|lia|lia]. }
    replace (Z.of_nat i + 1) with (Z.of_nat (Datatypes.S i)) by lia. reflexivity.
  - assert (Hbef : forall p k, 0 <= k -> before (allocator_ l) (p, k) -> before a1 (p, k) /\ apart (p, k) (q, entry_size e)).
    { intros p k Hk Hb. by apply (Hap (p, k)). }
    split; [by split; try done; eapply inside_prefix|]. split.
    + destruct (entry_memory_new ps ts q n i e (tl_memory l) ar_apart0 Hp1 Hp2 Hi) as (H1 & H2 & H3).
      exists q, (entry_size e). cbn [tl_memory allocator_ num_paths put_memory put_allocator]. rewrite ar_num0.
      split_and!; try done. unfold entry_size. lia.
    + intros j e' Hji Hj (q' & k & H1 & H2 & H3 & H4 & H5 & H6 & H7). rewrite ar_num0 in *. exists q', k.
      cbn [tl_memory allocator_ num_paths put_memory put_allocator]. rewrite ar_num0.
      destruct (Hbef q' k ltac:(lia) H4) as [Hb' Ha'].
      rewrite (entry_memory_paths ps ts q n i e _ ar_apart0 Hp1 Hi j Hj Hji), (entry_memory_types ps ts q n i e _ ar_apart0 Hp2 Hi j Hj Hji).
      split_and!; try done. apply (entry_memory_string ps ts q n i e _ Hi q' k); try done. rewrite length_app. cbn. lia.
Qed.

(** What is left of a run of requests when the first is served. *)
Lemma Allocates_cons k sizes a ps a' : in_range a -> all_pages a -> Z.of_nat (length (blocks a)) + Z.of_nat (length sizes) + 1 < 2 ^ 62 ->
  0 <= k <= MemoryPageSize -> Forall (fun n => 0 <= n <= MemoryPageSize) sizes ->
  Allocates (k :: sizes) a = Ret ps a' -> in_pages a a' ->
  exists q a1 ps', Allocate k a = Ret q a1 /\ ps = q :: ps' /\ Allocates sizes a1 = Ret ps' a' /\ in_pages a a1 /\ in_pages a1 a' /\
    in_range a1 /\ allocated a k q a1 /\ blocks a `prefix_of` blocks a1 /\
    Z.of_nat (length (blocks a1)) <= Z.of_nat (length (blocks a)) + 1.
Proof.
  intros Hr Hp Hl Hk Hs Hrun Hin. destruct (Allocate_spec a k Hr Hk ltac:(lia)) as (q & a1 & Hq & Hpre & Hle & Hf & Hr1 & Hal).
  destruct (Allocates_spec sizes a1 Hr1 Hs ltac:(lia)) as (ps' & a2 & Hrest & _ & Hpre2 & Hf2 & _).
  cbn [Allocates] in Hrun. rewrite (bind_Ret _ _ _ _ _ Hq), (bind_Ret _ _ _ _ _ Hrest) in Hrun. injection Hrun as <- <-.
  assert (in_pages a a1 /\ in_pages a1 a2) as [Hin1 Hin2].
  { pose proof (prefix_length _ _ Hpre). pose proof (prefix_length _ _ Hpre2). unfold in_pages in *. rewrite Hf.
    split; intros Hfl; specialize (Hin Hfl); lia. }
  exists q, a1, ps'. split_and!; try done; [by apply Hal|lia].
Qed.

Lemma entry_size_ok e : entry_ok e -> 0 <= entry_size e <= MemoryPageSize.
Proof. intros (_ & _ & He). unfold entry_size, MemoryPageSize. lia. Qed.

Lemma entry_sizes_ok es : Forall entry_ok es -> Forall (fun n => 0 <= n <= MemoryPageSize) (entry_size <$> es).
Proof. intros H. rewrite Forall_fmap. eapply Forall_impl; [|exact H]. intros e. apply entry_size_ok. Qed.

Lemma load_lines_run sep es : plain sep -> Forall entry_ok es -> forall l ps ts n i fuel addrs a',
  arrays l ps ts n -> in_range (allocator_ l) -> all_pages (allocator_ l) ->
  Z.of_nat (length (blocks (allocator_ l))) + Z.of_nat (length es) < 2 ^ 62 ->
  Z.of_nat i + Z.of_nat (length es) = n -> n < 2 ^ 62 -> (length es <= fuel)%nat ->
  Allocates (entry_size <$> es) (allocator_ l) = Ret addrs a' -> in_pages (allocator_ l) a' ->
  exists l', load_lines fuel (Z.of_nat i) (mjoin (print_line sep <$> es)) l = Ret tt l' /\ arrays l' ps ts n /\
    num_file_paths l' = num_file_paths l /\ num_dir_paths l' = num_dir_paths l /\
    (forall j e, es !! j = Some e -> loaded l' ps ts (i + j) e) /\
    (forall j e, (j < i)%nat -> loaded l ps ts j e -> loaded l' ps ts j e).
Proof.
  intros Hsep Hes. induction Hes as [|e es He Hes IH]; intros l ps ts n i fuel addrs a' Harr Hr Hp Hbl Hn Hn62 Hfuel Hrun Hin.
  - exists l. split_and!; try done. cbn in Hn. destruct fuel; cbn [load_lines]; (erewrite bind_Ret by reflexivity);
      rewrite (ar_num _ _ _ _ Harr); by replace (Z.of_nat i <? n) with false by (symmetry; lia).
  - destruct fuel as [|fuel]; [cbn in Hfuel; lia|]. cbn [fmap list_fmap] in Hrun. cbn [length] in *.
    destruct (Allocates_cons (entry_size e) (entry_size <$> es) (allocator_ l) addrs a')
      as (q & a1 & ps' & Hq & -> & Hrest & Hin1 & Hin2 & Hr1 & Hal & Hpre & Hl1); try done.
    { rewrite length_fmap. lia. } { by apply entry_size_ok. } { by apply entry_sizes_ok. }
    destruct (load_line_run sep l ps ts n i e q a1 fuel (mjoin (print_line sep <$> es))) as (l1 & Hstep & Hl1eq & Harr1 & Hnew & Hold); try done;
      [split_and!; [done|done|lia]|lia|].
    assert (Ha1 : allocator_ l1 = a1) by by rewrite Hl1eq.
    destruct (IH l1 ps ts n (Datatypes.S i) fuel ps' a') as (l' & Hl' & Harr' & Hf' & Hd' & Hall & Hkeep);
      rewrite ?Ha1; try done; [apply Hal|lia|lia|lia|].
    exists l'. change (mjoin (print_line sep <$> e :: es)) with (print_line sep e ++ mjoin (print_line sep <$> es)).
    split; [rewrite Hstep; exact Hl'|].
    split; [done|]. split; [by rewrite Hf', Hl1eq|]. split; [by rewrite Hd', Hl1eq|]. split.
    + intros [|j] e' Hj.
      * injection Hj as <-. rewrite Nat.add_0_r. apply Hkeep; [lia|done].
      * replace (i + Datatypes.S j)%nat with (Datatypes.S i + j)%nat by lia. by apply Hall.
    + intros j e' Hj Hlo. apply Hkeep; [lia|]. apply Hold; [lia|lia|done].
Qed.

(** What the lookups of the loader return for a trace that is loaded. *)
Definition trace_loaded (l : TraceLoader) (es : list entry) (files : Z) : Prop :=
  num_paths l = Z.of_nat (length es) /\ num_file_paths l = files /\ num_dir_paths l = Z.of_nat (length es) - files /\
  forall i e, es !! i = Some e -> exists q,
    GetPath_type (Z.of_nat i) l = Ret (Some (q, e.2)) l /\ GetPath (Z.of_nat i) l = Ret (Some q) l /\
    (Z.of_nat i < Z.of_nat (length es) - files -> GetDirPath (Z.of_nat i) l = Ret (Some q) l) /\
    (Z.of_nat (length es) - files <= Z.of_nat i ->
       GetFilePath (Z.of_nat i - (Z.of_nat (length es) - files)) l = Ret (Some q) l) /\
    string_at 4096 q (tl_memory l) = Some e.1.

Lemma path_at_run l ps ts i (e : entry) : tl_paths l = Some ps -> loaded l ps ts i e ->
  exists q, path_at (Z.of_nat i) l = Ret q l /\ stores (tl_memory l) q (e.1 ++ [0]).
Proof.
  intros Hps (q & n & H1 & _ & H3 & _). exists q. split; [|done]. unfold path_at. erewrite bind_Ret by reflexivity.
  rewrite Hps. cbn [deref]. rewrite bind_ret. unfold read_ptr, bind, get_state. by rewrite H1.
Qed.

Lemma loaded_lookups l ps ts es files : arrays l ps ts (Z.of_nat (length es)) -> Forall entry_ok es ->
  0 <= files <= Z.of_nat (length es) -> Z.of_nat (length es) < 2 ^ 31 ->
  num_file_paths l = files -> num_dir_paths l = Z.of_nat (length es) - files ->
  (forall i e, es !! i = Some e -> loaded l ps ts i e) -> trace_loaded l es files.
Proof.
  intros Harr Hes Hf Hn Hnf Hnd Hall. pose proof (ar_num _ _ _ _ Harr) as Hnum. split_and!; try done. intros i e Hi.
  assert (Hlt : (i < length es)%nat) by by eapply lookup_lt_Some.
  pose proof (Hall i e Hi) as Hlo. destruct (path_at_run l ps ts i e (ar_paths _ _ _ _ Harr) Hlo) as (q & Hq & Hs).
  destruct Hlo as (_ & _ & _ & Ht & _). rewrite Forall_lookup in Hes. destruct (Hes i e Hi) as (He & _ & Hsz).
  assert (Hget : (u64 (Z.of_nat i) <? num_paths l) = true) by (rewrite u64_small, Hnum by lia; lia).
  exists q. split_and!.
  - unfold GetPath_type. erewrite bind_Ret by reflexivity. rewrite Hget, (ar_types _ _ _ _ Harr). cbn [deref]. rewrite bind_ret.
    erewrite bind_Ret; [by erewrite bind_Ret by exact Hq|]. unfold read_byte, bind, get_state. by rewrite Ht.
  - unfold GetPath. erewrite bind_Ret by reflexivity. rewrite Hget. by erewrite bind_Ret by exact Hq.
  - intros Hd. unfold GetDirPath. erewrite bind_Ret by reflexivity. rewrite Hnd.
    replace ((0 <=? Z.of_nat i) && (Z.of_nat i <? _)) with true by (symmetry; apply andb_true_iff; lia). by erewrite bind_Ret by exact Hq.
  - intros Hd. unfold GetFilePath. erewrite bind_Ret by reflexivity. rewrite Hnf, Hnd, i32_small by lia.
    replace ((0 <=? _) && (_ <? files)) with true by (symmetry; apply andb_true_iff; lia).
    replace (Z.of_nat i - (Z.of_nat (length es) - files) + (Z.of_nat (length es) - files)) with (Z.of_nat i) by lia.
    by erewrite bind_Ret by exact Hq.
  - apply string_at_stores; [done| |lia]. eapply Forall_impl; [|exact He]. by intros b [_ ?].
Qed.

(** The requests that loading a trace makes. *)
Definition trace_sizes (es : list entry) : list Z :=
  8 * Z.of_nat (length es) :: Z.of_nat (length es) :: (entry_size <$> es).

(** The first path does not begin with white space, which [fscanf] would skip. *)
Definition starts_plain (es : list entry) : Prop :=
  match es with
  | [] => True
  | ([], _) :: _ => False
  | (b :: _, _) :: _ => is_space b = false
  end.

Lemma skip_before_lines sep es : starts_plain es ->
  skip_spaces (10 :: mjoin (print_line sep <$> es)) = mjoin (print_line sep <$> es).
Proof. destruct es as [|[[|b p] t] es]; intros H; [done|done|]. cbn in *. by rewrite H. Qed.

Lemma length_lines sep es : (length es <= length (mjoin (print_line sep <$> es)))%nat.
Proof.
  induction es as [|e es IH]; [done|].
  change (mjoin (print_line sep <$> e :: es)) with (print_line sep e ++ mjoin (print_line sep <$> es)).
  rewrite length_app. unfold print_line at 1. rewrite length_app. cbn. lia.
Qed.

(** The two arrays are allocated one after the other. *)
Lemma arrays_allocated l0 l a1 a2 ps ts n : 0 <= n ->
  allocated l0 (8 * n) ps a1 -> allocated a1 n ts a2 -> blocks a1 `prefix_of` blocks a2 -> allocator_ l = a2 ->
  tl_paths l = Some ps -> filetypes l = Some ts -> num_paths l = n -> arrays l ps ts n.
Proof.
  intros Hn (_ & Hi1 & Hb1 & _) (_ & Hi2 & Hb2 & Hap) Hpre <- Hps Hts Hnum.
  destruct (Hap (ps, 8 * n) ltac:(cbn; lia) Hb1) as [Hb1' Ha]. split; try done. by eapply inside_prefix.
Qed.

Lemma LoadTrace_loads (sep : Z) (es : list (bytes * Z)) (files : Z) (l : TraceLoader) addrs a' :
  plain sep -> Forall entry_ok es -> starts_plain es ->
  0 <= files <= Z.of_nat (length es) -> 8 * Z.of_nat (length es) <= MemoryPageSize ->
  in_range (allocator_ l) -> all_pages (allocator_ l) -> Z.of_nat (length (blocks (allocator_ l))) < 2 ^ 61 ->
  Allocates (trace_sizes es) (allocator_ l) = Ret addrs a' -> in_pages (allocator_ l) a' ->
  exists l', LoadTrace (Some (print_trace sep es files)) l = Ret tt l' /\ trace_loaded l' es files.
Proof.
  intros Hsep Hes Hstart Hf Hn Hr Hp Hbl Hal Hin. pose proof (entry_sizes_ok es Hes) as Hsz.
  assert (Hn24 : Z.of_nat (length es) < 2 ^ 25) by (unfold MemoryPageSize in Hn; lia).
  assert (HM : MemoryPageSize < 2 ^ 64) by done.
  destruct (Allocates_cons (8 * Z.of_nat (length es)) (Z.of_nat (length es) :: (entry_size <$> es)) (allocator_ l) addrs a')
    as (ps & a1 & ps1 & Hq1 & -> & Hrest1 & Hin1 & Hin1' & Hr1 & Hal1 & Hpre1 & Hl1); try done;
    [cbn; rewrite length_fmap; lia|lia|constructor; [lia|done]|].
  destruct (Allocates_cons (Z.of_nat (length es)) (entry_size <$> es) a1 ps1 a')
    as (ts & a2 & ps2 & Hq2 & -> & Hrest2 & Hin2 & Hin2' & Hr2 & Hal2 & Hpre2 & Hl2); try done;
    [apply Hal1|rewrite length_fmap; lia|lia|].
  set (l2 := put_arrays (Some ps) (Some ts) (put_allocator a2 (put_counts (Z.of_nat (length es)) (num_dir_paths l) files l))).
  assert (Harr : arrays l2 ps ts (Z.of_nat (length es))) by (by eapply arrays_allocated; [lia|exact Hal1|exact Hal2|..]).
  destruct (load_lines_run sep es Hsep Hes l2 ps ts (Z.of_nat (length es)) 0 (Datatypes.S (length (print_trace sep es files))) ps2 a')
    as (l3 & Hload & Harr3 & Hnf & Hnd & Hall & _); try done; [apply Hal2|cbn [allocator_ l2 put_arrays put_allocator]; lia|lia| |].
  { pose proof (length_lines sep es). unfold print_trace. rewrite length_app. cbn [length]. rewrite length_app. cbn [length]. lia. }
  eexists. split.
  - unfold LoadTrace. erewrite bind_Ret by reflexivity. unfold print_trace at 1. rewrite scan_ld_fmt by (done || lia).
    erewrite bind_Ret by reflexivity.
    change (scan_ld (32 :: ?x)) with (scan_ld x). rewrite scan_ld_fmt by (done || lia).
    erewrite bind_Ret by reflexivity.
    rewrite !(u64_small (Z.of_nat (length es))), (u64_small files) by lia. unfold allocate.
    erewrite bind_Ret; [|unfold zoom; rewrite u64_small by lia; cbn [allocator_ put_counts];
      replace (Z.of_nat (length es) * 8) with (8 * Z.of_nat (length es)) by lia; by rewrite Hq1].
    erewrite bind_Ret; [|unfold zoom; rewrite u64_small by lia; cbn [allocator_ put_counts put_allocator]; by rewrite Hq2].
    erewrite bind_Ret by reflexivity. rewrite skip_before_lines by done. erewrite bind_Ret by exact Hload. reflexivity.
  - assert (Hdirs : u64 (num_paths l3 - num_file_paths l3) = Z.of_nat (length es) - files).
    { rewrite (ar_num _ _ _ _ Harr3), Hnf. cbn. rewrite u64_small by lia. done. }
    apply (loaded_lookups _ ps ts); try done; [destruct Harr3; by split|lia].
Qed.

(** C37: loading a trace file that was printed from a list of paths with their types
    gives these paths and types back: every lookup finds its path as a string in
    memory, directories first and files behind them; no write leaves its block and
    no string is overwritten by a later one, as long as the arena serves the
    requests from its pages, or from blocks of their own. *)
Theorem trace_roundtrip (sep : Z) (es : list (bytes * Z)) (files : Z) (l : TraceLoader) addrs a' :
  plain sep -> Forall entry_ok es -> starts_plain es ->
  0 <= files <= Z.of_nat (length es) -> 8 * Z.of_nat (length es) <= MemoryPageSize ->
  in_range (allocator_ l) -> all_pages (allocator_ l) -> Z.of_nat (length (blocks (allocator_ l))) < 2 ^ 61 ->
  Allocates (trace_sizes es) (allocator_ l) = Ret addrs a' -> in_pages (allocator_ l) a' ->
  exists l', LoadTrace (Some (print_trace sep es files)) l = Ret tt l' /\ trace_loaded l' es files.
Proof. apply LoadTrace_loads. Qed.

(** A directory and two files in it. *)
Definition trace0 : list (bytes * Z) := [(str "a", 100); (str "a/f", 102); (str "a/g", 102)].
Definition loader0 : TraceLoader := TraceLoader_new (mkAllocator [] 0 0 false) ∅ 7 7.

Lemma trace0_ok : Forall entry_ok trace0.
Proof. repeat constructor; try done; cbn; lia. Qed.

Lemma trace_roundtrip_witness : exists l', LoadTrace (Some (print_trace 32 trace0 2)) loader0 = Ret tt l' /\
  exists q, GetFilePath 1 l' = Ret (Some q) l' /\ string_at 4096 q (tl_memory l') = Some (str "a/g").
Proof.
  destruct (trace_roundtrip 32 trace0 2 loader0 [(0, 0); (1, 0); (2, 0); (3, 0); (4, 0)] (mkAllocator [24; 3; 5; 7; 7] 0 0 false))
    as (l' & Hload & _ & _ & _ & H).
  - done.
  - exact trace0_ok.
  - done.
  - cbn. lia.
  - done.
  - done.
  - done.
  - done.
  - reflexivity.
  - done.
  - exists l'. split; [exact Hload|]. destruct (H 2%nat (str "a/g", 102) eq_refl) as (q & _ & _ & _ & Hf & Hs).
    exists q. split; [apply Hf; cbn; lia|exact Hs].
Defined.

(** [fgetc] into a [char]: a path with a byte 255 ends the trace, and the lookups
    of it and of all paths behind it read pointers that were never set. *)
Lemma byte_255_ends_trace : exists l', LoadTrace (Some (print_trace 32 [(str "a", 102); ([97; 255], 102); (str "b", 102)] 3)) loader0 = Ret tt l' /\
  GetPath 1 l' = UB OutOfBounds /\ GetPath 2 l' = UB OutOfBounds.
Proof. eexists. split; [vm_compute; reflexivity|]. split; reflexivity. Qed.
