(* ===== verification/Metrics.v ===== *)
(** The metrics of [src/util/monitor.h] and [src/util/monitor.cpp], with the counters
    of [OperationStat] in [src/fsbench.cpp] and of [TableFSWrapperStat] in
    [src/fs/fswrapper.h].

    A monitor keeps a time series per metric; [DoMonitor] asks each of its sources,
    which read files of the kernel with [fscanf]. Reading a string longer than its
    array is out of bounds. *)

From stdpp Require Import sorting.
From S2P Require Import Prelude Kv Posix Properties Allocator Trace.

Set Default Proof Using "Type".

(** ** Series *)

Abbreviation TSeries := (list (Z * Z)).
Abbreviation TMetList := (gmap bytes TSeries).

Definition AddMetric (name : bytes) (ts val : Z) (metlist : TMetList) : TMetList :=
  <[name := default [] (metlist !! name) ++ [(ts, val)]]> metlist.

(** ** Input *)

(** An open file: what is not read yet, and [feof]. *)
Record input : Type := mkInput { in_rest : bytes; in_eof : bool }.

Definition at_end (l : bytes) : bool := match l with [] => true | _ => false end.
Definition rest_input (l : bytes) : input := mkInput l (at_end l).

(** The bytes up to the next white space, and what is behind them. *)
Fixpoint span_token (l : bytes) : bytes * bytes :=
  match l with
  | [] => ([], [])
  | b :: l' => if is_space b then ([], l) else let '(t, r) := span_token l' in (b :: t, r)
  end.

(** A call of [GetMetric] works on a file and on the list of metrics. *)
Record source : Type := mkSource { s_in : input; s_met : TMetList }.
Abbreviation source_prog := (prog source).

Definition put_input (f : input) (s : source) : source := mkSource f (s_met s).
Definition add_metric (name : bytes) (ts val : Z) : source_prog unit :=
  modify (fun s => mkSource (s_in s) (AddMetric name ts val (s_met s))).

(** [feof] *)
Definition feof : source_prog bool := gets (fun s => in_eof (s_in s)).

(** [%s] into an array of [size] bytes; [None] at the end of the file. *)
Definition scan_s (size : nat) : source_prog (option bytes) :=
  s <- get_state ;;
  match skip_spaces (in_rest (s_in s)) with
  | [] => modify (put_input (mkInput [] true)) ;;; ret None
  | l =>
      let '(t, r) := span_token l in
      if Nat.ltb (length t) size
      then modify (put_input (rest_input r)) ;;; ret (Some t)
      else undefined OutOfBounds
  end.

(** [%lld]; a sign without digits is consumed. *)
Definition scan_lld : source_prog (option Z) :=
  s <- get_state ;;
  let l := in_rest (s_in s) in
  match scan_ld l with
  | Some (v, r) => modify (put_input (rest_input r)) ;;; ret (Some v)
  | None => modify (put_input (rest_input (read_sign (skip_spaces l)).2)) ;;; ret None
  end.

(** The loop over [getc] to the end of the line; [c] is a [char]. *)
Fixpoint line_rest (l : bytes) : input :=
  match l with
  | [] => mkInput [] true
  | b :: l' => if (b =? 10) || (b =? 255) then mkInput l' false else line_rest l'
  end.

Definition skip_line : source_prog unit := modify (fun s => put_input (line_rest (in_rest (s_in s))) s).

(** ** The disk *)

Definition diskmetric : list bytes :=
  [str "read_requests"; str "read_merged"; str "read_sectors"; str "msec_read"; str "write_requests";
   str "write_merged"; str "write_sectors"; str "msec_write"; str "ios_in_progress"; str "msec_total";
   str "msec_weighted_total"].

(** [fscanf] with [n] times [%lld]: the values, or [None] when it converts fewer. *)
Fixpoint scan_llds (n : nat) : source_prog (option (list Z)) :=
  match n with
  | O => ret (Some [])
  | S n' =>
      v <- scan_lld ;;
      match v with
      | None => ret None
      | Some v =>
          vs <- scan_llds n' ;;
          match vs with None => ret None | Some vs => ret (Some (v :: vs)) end
      end
  end.

Fixpoint add_metrics (prefix : bytes) (names : list bytes) (now : Z) (vals : list Z) : source_prog unit :=
  match names, vals with
  | name :: names', v :: vals' => add_metric (prefix ++ str "." ++ name) now v ;;; add_metrics prefix names' now vals'
  | _, _ => ret tt
  end.

(** [fscanf (f, "%s %s %s", device, device, device)] *)
Definition scan_device : source_prog (option bytes) :=
  d1 <- scan_s 20 ;;
  match d1 with
  | None => ret None
  | Some _ =>
      d2 <- scan_s 20 ;;
      match d2 with None => ret None | Some _ => scan_s 20 end
  end.

(** The loop of [IOStat::GetMetric]. Every round but the last reads a byte at
    least. *)
Fixpoint io_loop (fuel : nat) (devname : bytes) (now : Z) : source_prog unit :=
  e <- feof ;;
  if (e : bool) then ret tt else
  match fuel with
  | O => undefined Unfinished
  | S fuel' =>
      device <- scan_device ;;
      match device with
      | None => ret tt
      | Some device =>
          if decide (devname = c_str device) then
            metric <- scan_llds 11 ;;
            match metric with
            | None => ret tt
            | Some metric => add_metrics devname diskmetric now metric ;;; io_loop fuel' devname now
            end
          else skip_line ;;; io_loop fuel' devname now
      end
  end.

(** A source that reads a file, if it can be opened. *)
Definition with_file (file : option bytes) (p : nat -> source_prog unit) (met : TMetList) : outcome TMetList unit :=
  match file with
  | None => Ret tt met
  | Some l =>
      match p (Datatypes.S (length l)) (mkSource (mkInput l false) met) with
      | Ret _ s => Ret tt (s_met s)
      | Exit c s => Exit c (s_met s)
      | UB w => UB w
      end
  end.

Definition IOStat_GetMetric (devname : bytes) (diskstats : option bytes) (now : Z) : prog TMetList unit :=
  with_file diskstats (fun fuel => io_loop fuel devname now).

(** ** The slab allocator *)

Definition slabmetric : list bytes := [str "active_objs"; str "num_objs"; str "objsize"].
Definition slabobjname : list bytes := [str "dentry"; str "inode_cache"].

(** [strncmp (a, b, length a) == 0] for a string [a] *)
Definition starts_with (a b : bytes) : bool := bool_decide (take (length a) (c_str b) = c_str a).

(** The values one by one: what was converted before a failure is kept. *)
Fixpoint slab_values (name : bytes) (metrics : list bytes) (now : Z) : source_prog unit :=
  match metrics with
  | [] => ret tt
  | m :: metrics' =>
      v <- scan_lld ;;
      match v with
      | None => ret tt
      | Some v => add_metric (name ++ str "." ++ m) now v ;;; slab_values name metrics' now
      end
  end.

(** The loop over [slabobjname]. *)
Fixpoint slab_object (names : list bytes) (objname : bytes) (now : Z) : source_prog unit :=
  match names with
  | [] => ret tt
  | n :: names' => if starts_with n objname then slab_values n slabmetric now else slab_object names' objname now
  end.

Fixpoint slab_loop (fuel : nat) (fsname : bytes) (now : Z) : source_prog unit :=
  e <- feof ;;
  if (e : bool) then ret tt else
  match fuel with
  | O => undefined Unfinished
  | S fuel' =>
      objname <- scan_s 256 ;;
      match objname with
      | None => ret tt
      | Some objname =>
          (if starts_with fsname objname then slab_values (c_str objname) slabmetric now
           else slab_object slabobjname objname now) ;;;
          skip_line ;;;
          slab_loop fuel' fsname now
      end
  end.

(** The heading takes 204 bytes. *)
Definition SlabStat_GetMetric (fsname : bytes) (slabinfo : option bytes) (now : Z) : prog TMetList unit :=
  with_file slabinfo (fun fuel =>
    s <- get_state ;;
    let l := in_rest (s_in s) in
    if Nat.ltb (length l) 204 then ret tt else
    modify (put_input (mkInput (drop 204 l) false)) ;;;
    slab_loop fuel fsname now).

(** ** Memory *)

Fixpoint mem_loop (rounds : nat) (now : Z) : source_prog unit :=
  match rounds with
  | O => ret tt
  | S rounds' =>
      metname <- scan_s 256 ;;
      match metname with
      | None => ret tt
      | Some metname =>
          metric <- scan_lld ;;
          match metric with
          | None => ret tt
          | Some metric =>
              junk <- scan_s 256 ;;
              match junk with
              | None => ret tt
              | Some _ => add_metric (c_str metname) now metric ;;; mem_loop rounds' now
              end
          end
      end
  end.

Definition MemStat_GetMetric (meminfo : option bytes) (now : Z) : prog TMetList unit :=
  with_file meminfo (fun _ => mem_loop 30 now).

(** ** Latency *)

Definition LatencyStat_GetMetric (lasttime now : Z) : prog TMetList unit :=
  modify (AddMetric (str "latency") now (now - lasttime)).

(** ** The counters of the benchmark *)

(** [targs] as the counts of the threads it points to. [sent] is what was given to
    [SendMetric], [printed] what went to the terminal. *)
Record OperationStat : Type := mkOpStat { os_targs : list Z; os_enabled : bool; os_last : Z; os_sent : list bytes; os_printed : list bytes }.

Definition OperationStat_new : OperationStat := mkOpStat [] false 0 [] [].

(** [num_threads] is the length of [args]. *)
Definition SetThreadArgs (args : list Z) (o : OperationStat) : OperationStat :=
  mkOpStat args true (os_last o) (os_sent o) (os_printed o).
Definition Disable (o : OperationStat) : OperationStat :=
  mkOpStat [] false (os_last o) (os_sent o) (os_printed o).

(** [%08d] of a thread's number *)
Definition fmt_08d (n : Z) : bytes := let d := fmt_d n in replicate (8 - length d) 48 ++ d.

(** An addition of two values of type [int]. *)
Definition int_add {S} (x y : Z) : prog S Z :=
  if (- 2 ^ 31 <=? x + y) && (x + y <? 2 ^ 31) then ret (x + y) else undefined SignedOverflow.

(** The loop over the threads. *)
Fixpoint op_counts (targs : list Z) (i tot_count now : Z) : prog TMetList Z :=
  match targs with
  | [] => ret tot_count
  | op_count :: targs' =>
      tot_count <- int_add tot_count op_count ;;
      modify (AddMetric (str "Opcount_thread_" ++ fmt_08d i) now op_count) ;;;
      op_counts targs' (i + 1) tot_count now
  end.

(** The result is the object afterwards. *)
Definition OperationStat_GetMetric (now : Z) (o : OperationStat) : prog TMetList OperationStat :=
  if os_enabled o then
    tot_count <- op_counts (os_targs o) 0 0 now ;;
    let o :=
      if now - os_last o >? 5 then
        mkOpStat (os_targs o) true now
          (os_sent o ++ [str "fsbench.opcount " ++ fmt_d (i32 now) ++ [32] ++ fmt_d tot_count ++ [10]])
          (os_printed o ++ [str "opcount " ++ fmt_d tot_count ++ [10]])
      else o in
    modify (AddMetric (str "Opcount") now tot_count) ;;;
    ret o
  else ret o.

(** ** The counters of the store *)

Definition wrapper_metnames : list bytes :=
  [str "leveldb.num_files"; str "leveldb.num_size"; str "leveldb.num_compact"; str "leveldb.tot_comp_time";
   str "leveldb.tot_comp_read"; str "leveldb.tot_comp_write"; str "leveldb.num_write_op"; str "leveldb.num_get_op";
   str "leveldb.filterhit"; str "leveldb.minor_count"; str "leveldb.log_writes"; str "leveldb.log_syncs";
   str "leveldb.desc_syncs"].

(** [ssmetric >> r[i]] on a stream that is good or not: without digits the value is
    0 and out of range the nearest [int], and both fail the stream; reading to the
    end leaves it at its end; a stream that is not good leaves [r[i]] as it was. *)
Definition extract_int (old : Z) (s : bytes * bool) : Z * (bytes * bool) :=
  let '(l, good) := s in
  if negb (good : bool) then (old, s) else
  match skip_spaces l with
  | [] => (old, ([], false))
  | l' =>
      let '(neg, d) := read_sign l' in
      match d with
      | b :: _ =>
          if is_digit b then
            let v := let x := scan_digits d 0 in if (neg : bool) then - x else x in
            let r := skip_digits d in
            let c := Z.max (- 2 ^ 31) (Z.min (2 ^ 31 - 1) v) in
            (c, (r, (c =? v) && negb (at_end r)))
          else (0, (d, false))
      | [] => (0, ([], false))
      end
  end.

(** [r] is not initialised. *)
Fixpoint extract_ints (r : list Z) (s : bytes * bool) : list Z :=
  match r with
  | [] => []
  | old :: r' => let '(v, s') := extract_int old s in v :: extract_ints r' s'
  end.

Fixpoint add_all (names : list bytes) (now : Z) (vals : list Z) (metlist : TMetList) : TMetList :=
  match names, vals with
  | name :: names', v :: vals' => add_all names' now vals' (AddMetric name now v metlist)
  | _, _ => metlist
  end.

(** [stats] is what [GetStat] gave; the time is read again, as an [int]. *)
Definition WrapperStat_GetMetric (stats : option bytes) (mem : list Z) (time : Z) (metlist : TMetList) : TMetList :=
  match stats with
  | None => metlist
  | Some value => add_all wrapper_metnames (i32 time) (extract_ints (take 13 mem) (value, true)) metlist
  end.

(** ** The monitor *)

Inductive MetricStat : Type :=
| IOStat (devname : bytes)
| SlabStat (fsname : bytes)
| MemStat
| LatencyStat (lasttime : Z)
| OpStat (o : OperationStat)
| TableFSWrapperStat.

(** What the sources read outside of the monitor; [o_time] is the clock when the
    counters of the store are read. *)
Record outside_world : Type := mkOutside {
  o_diskstats : option bytes;
  o_slabinfo : option bytes;
  o_meminfo : option bytes;
  o_stats : option bytes;
  o_mem : list Z;
  o_time : Z
}.

Record Monitor : Type := mkMonitor { metlist : TMetList; statlist : list MetricStat }.

Definition Monitor_new : Monitor := mkMonitor ∅ [].
Definition Monitor_part (part : bytes) : Monitor := mkMonitor ∅ [IOStat part].

(** [None] for a null pointer. *)
Definition AddMetricStat (mstat : option MetricStat) (m : Monitor) : Monitor :=
  match mstat with Some s => mkMonitor (metlist m) (statlist m ++ [s]) | None => m end.

Definition Monitor_AddMetric (name : bytes) (ts val : Z) (m : Monitor) : Monitor :=
  mkMonitor (AddMetric name ts val (metlist m)) (statlist m).

(** The virtual call: the object afterwards is the result. *)
Definition GetMetric (w : outside_world) (now : Z) (s : MetricStat) : prog TMetList MetricStat :=
  match s with
  | IOStat devname => IOStat_GetMetric devname (o_diskstats w) now ;;; ret s
  | SlabStat fsname => SlabStat_GetMetric fsname (o_slabinfo w) now ;;; ret s
  | MemStat => MemStat_GetMetric (o_meminfo w) now ;;; ret s
  | LatencyStat lasttime => LatencyStat_GetMetric lasttime now ;;; ret s
  | OpStat o => o' <- OperationStat_GetMetric now o ;; ret (OpStat o')
  | TableFSWrapperStat => modify (WrapperStat_GetMetric (o_stats w) (o_mem w) (o_time w)) ;;; ret s
  end.

Fixpoint get_metrics (w : outside_world) (now : Z) (l : list MetricStat) : prog TMetList (list MetricStat) :=
  match l with
  | [] => ret []
  | s :: l' => s' <- GetMetric w now s ;; l'' <- get_metrics w now l' ;; ret (s' :: l'')
  end.

(** [now] is [time (NULL)]. *)
Definition DoMonitor (w : outside_world) (now : Z) : prog Monitor unit :=
  fun m =>
    match get_metrics w now (statlist m) (metlist m) with
    | Ret l met => Ret tt (mkMonitor met l)
    | Exit c met => Exit c (mkMonitor met (statlist m))
    | UB why => UB why
    end.

(** ** The report *)

(** [" %ld %lld"] *)
Definition print_point (p : Z * Z) : bytes := [32] ++ fmt_d p.1 ++ [32] ++ fmt_d p.2.
Definition print_series (s : bytes * TSeries) : bytes := c_str s.1 ++ mjoin (print_point <$> s.2) ++ [10].

(** A [std::map] is in the order of its keys. *)
Definition series_le (x y : bytes * TSeries) : Prop := bytes_leb x.1 y.1 = true.
#[global] Instance series_le_dec : RelDecision series_le.
Proof. intros x y. unfold series_le. apply _. Defined.

Definition report_order (met : TMetList) : list (bytes * TSeries) := merge_sort series_le (map_to_list met).

Definition Report (met : TMetList) : bytes := mjoin (print_series <$> report_order met).

(** * Reading tokens *)















(** * The table of the disks *)

















Section rows.
Context (devname : bytes) (now : Z) (Hdev : Exists (fun c => is_digit c = false) devname).









End rows.

(** * Series only grow *)

Definition series (met : TMetList) (name : bytes) : TSeries := default [] (met !! name).

Lemma series_AddMetric met name ts v x :
  series (AddMetric name ts v met) x = if decide (x = name) then series met x ++ [(ts, v)] else series met x.
Proof.
  unfold series, AddMetric. case_decide as E; [subst; by rewrite lookup_insert_eq|by rewrite lookup_insert_ne].
Qed.


(** What a look at time [now] does to the series. *)
Definition extends (now : Z) (met met' : TMetList) : Prop :=
  forall name, exists new, series met' name = series met name ++ new /\ Forall (fun p => p.1 = now) new.

#[global] Instance extends_preorder now : PreOrder (extends now).
Proof.
  split.
  - intros met name. exists []. by rewrite app_nil_r.
  - intros a b c H1 H2 name. destruct (H1 name) as (l1 & E1 & F1), (H2 name) as (l2 & E2 & F2).
    exists (l1 ++ l2). rewrite E2, E1, <- app_assoc. split; [done|]. by apply Forall_app.
Qed.

Lemma extends_add now name v met : extends now met (AddMetric name now v met).
Proof.
  intros x. rewrite series_AddMetric. case_decide; [|exists []; by rewrite app_nil_r].
  exists [(now, v)]. split; [done|]. by constructor.
Qed.

Lemma extends_add_all now names vals met : extends now met (add_all names now vals met).
Proof.
  revert vals met. induction names as [|n names IH]; intros [|v vals] met; try reflexivity. cbn [add_all].
  etrans; [apply extends_add|apply IH].
Qed.

(** ** Words that fit *)

(** No run of [size] bytes without white space: wherever the reading stands, the next
    [%s] fits into an array of [size] bytes with its terminator. *)
Fixpoint fits (size : nat) (l : bytes) : bool :=
  Nat.ltb (length (span_token l).1) size && match l with [] => true | _ :: l' => fits size l' end.

Lemma fits_token size l : fits size l = true -> (length (span_token l).1 < size)%nat.
Proof. destruct l; cbn [fits]; intros [H _]%andb_true_iff; by apply Nat.ltb_lt. Qed.

Lemma fits_suffix size l l' : fits size l = true -> l' `suffix_of` l -> fits size l' = true.
Proof.
  intros H [k ->]. induction k as [|b k IH]; [done|]. apply IH. cbn [app fits] in H. by apply andb_true_iff in H as [_ H].
Qed.

Lemma skip_spaces_suffix l : skip_spaces l `suffix_of` l.
Proof. induction l as [|b l IH]; cbn; [done|]. destruct (is_space b); [by apply suffix_cons_r|done]. Qed.

Lemma skip_digits_suffix l : skip_digits l `suffix_of` l.
Proof. induction l as [|b l IH]; cbn; [done|]. destruct (is_digit b); [by apply suffix_cons_r|done]. Qed.

Lemma read_sign_suffix l : (read_sign l).2 `suffix_of` l.
Proof. destruct l as [|b l]; cbn; [done|]. destruct (b =? 45), (b =? 43); cbn; try done; by apply suffix_cons_r. Qed.

Lemma span_token_split l : l = (span_token l).1 ++ (span_token l).2.
Proof. induction l as [|b l IH]; cbn; [done|]. destruct (is_space b); [done|]. destruct (span_token l). cbn in *. by rewrite IH. Qed.

Lemma line_rest_suffix l : in_rest (line_rest l) `suffix_of` l.
Proof. induction l as [|b l IH]; cbn; [done|]. destruct ((b =? 10) || (b =? 255)); cbn; by apply suffix_cons_r. Qed.

Lemma scan_ld_suffix l v r : scan_ld l = Some (v, r) -> r `suffix_of` l.
Proof.
  unfold scan_ld. pose proof (read_sign_suffix (skip_spaces l)) as H.
  destruct (read_sign (skip_spaces l)) as [n [|b d]]; [done|]. destruct (is_digit b); [|done]. intros [=]. subst. cbn [snd] in H.
  etrans; [|etrans; [exact H|apply skip_spaces_suffix]]. apply (skip_digits_suffix (b :: d)).
Qed.

Lemma skip_spaces_head l b r : skip_spaces l = b :: r -> is_space b = false.
Proof. induction l as [|c l IH]; cbn; [done|]. destruct (is_space c) eqn:E; [done|]. intros [= <- _]. done. Qed.

(** ** Sources get through their files *)

Definition unread (s : source) : bytes := in_rest (s_in s).

(** A part of a source: on a file whose words fit into [size] bytes it returns, reads
    on and adds entries of this time. *)
Definition tame {A} (size : nat) (now : Z) (p : source_prog A) (Q : A -> nat -> nat -> Prop) : Prop :=
  forall s, fits size (unread s) = true ->
    exists a s', p s = Ret a s' /\ extends now (s_met s) (s_met s') /\ unread s' `suffix_of` unread s /\
      Q a (length (unread s)) (length (unread s')).

Definition anyhow {A} : A -> nat -> nat -> Prop := fun _ _ _ => True.
Definition consumes {A} : option A -> nat -> nat -> Prop := fun a n n' => is_Some a -> (n' < n)%nat.

Section tame.
Context (size : nat) (now : Z).

Lemma tame_bind {A B} (p : source_prog A) (k : A -> source_prog B) Q :
  tame size now p Q -> (forall a, tame size now (k a) anyhow) -> tame size now (bind p k) anyhow.
Proof.
  intros Hp Hk s Hs. destruct (Hp s Hs) as (a & s1 & E1 & X1 & L1 & _).
  destruct (Hk a s1 (fits_suffix _ _ _ Hs L1)) as (b & s2 & E2 & X2 & L2 & _).
  exists b, s2. unfold bind. rewrite E1. split_and!; [done|by etrans|by etrans|done].
Qed.

Lemma tame_ret {A} (a : A) : tame size now (ret a) anyhow.
Proof. intros s _. exists a, s. by split_and!. Qed.

Lemma tame_any {A} (p : source_prog A) Q : tame size now p Q -> tame size now p anyhow.
Proof. intros H s Hs. destruct (H s Hs) as (a & s' & ? & ? & ? & _). exists a, s'. by split_and!. Qed.

Lemma tame_add name v : tame size now (add_metric name now v) anyhow.
Proof. intros s _. eexists _, _. split_and!; [done|apply extends_add|done|done]. Qed.

Lemma tame_feof : tame size now feof anyhow.
Proof. intros s _. eexists _, s. by split_and!. Qed.

(** A string takes a byte at least. *)
Lemma tame_scan_s : tame size now (scan_s size) consumes.
Proof.
  intros [[l e] met] Hs. unfold unread, consumes, scan_s, bind, get_state in *. cbn [s_in in_rest] in *.
  pose proof (skip_spaces_suffix l) as Hl. destruct (skip_spaces l) as [|b r] eqn:E.
  { eexists None, _. split_and!; [done|done|apply suffix_nil|by intros [??]]. }
  pose proof (fits_token _ _ (fits_suffix _ _ _ Hs Hl)) as Hlt. pose proof (span_token_split (b :: r)) as Ht.
  assert (H0 : (0 < length (span_token (b :: r)).1)%nat)
    by (cbn; rewrite (skip_spaces_head l b r E); destruct (span_token r); cbn; lia).
  destruct (span_token (b :: r)) as [t r']. cbn [fst snd] in *. rewrite (proj2 (Nat.ltb_lt _ _) Hlt).
  rewrite Ht in Hl. eexists (Some t), _. split_and!; [done|done|cbn; transitivity (t ++ r'); [by eexists|exact Hl]|].
  intros _. apply suffix_length in Hl. rewrite length_app in Hl. cbn. lia.
Qed.

Lemma tame_scan_lld : tame size now scan_lld anyhow.
Proof.
  intros [[l e] met] _. unfold scan_lld, unread, bind, get_state. cbn [s_in in_rest].
  destruct (scan_ld l) as [[v r]|] eqn:E; eexists _, _; (split_and!; [done|done| |done]); cbn.
  - by eapply scan_ld_suffix.
  - etrans; [apply read_sign_suffix|apply skip_spaces_suffix].
Qed.

Lemma tame_skip_line : tame size now skip_line anyhow.
Proof. intros s _. eexists _, _. split_and!; [done|done|apply line_rest_suffix|done]. Qed.
End tame.

Create HintDb tame.
#[export] Hint Resolve tame_ret tame_add tame_feof tame_scan_lld tame_skip_line : tame.

(** Through the statements of a part that has no loop over the file. *)
Ltac tame_tac :=
  repeat match goal with
  | |- tame _ _ (bind (scan_s _) _) _ => eapply tame_bind; [apply tame_scan_s|intros ?]
  | |- tame _ _ (bind _ _) _ => eapply tame_bind; [eapply tame_any; eauto with tame|intros ?]
  | |- tame _ _ (match ?x with _ => _ end) _ => destruct x
  end; eauto with tame.

Lemma tame_scan_llds size now n : tame size now (scan_llds n) anyhow.
Proof. induction n as [|n IH]; cbn [scan_llds]; tame_tac. Qed.

Lemma tame_add_metrics size now p names vals : tame size now (add_metrics p names now vals) anyhow.
Proof. revert vals. induction names as [|n names IH]; intros [|v vals]; cbn [add_metrics]; tame_tac. Qed.

Lemma tame_slab_values size now name l : tame size now (slab_values name l now) anyhow.
Proof. induction l as [|m l IH]; cbn [slab_values]; tame_tac. Qed.
#[export] Hint Resolve tame_scan_llds tame_add_metrics tame_slab_values : tame.

Lemma tame_slab_object size now names objname : tame size now (slab_object names objname now) anyhow.
Proof. induction names as [|n names IH]; cbn [slab_object]; tame_tac. Qed.

Lemma tame_mem_loop now rounds : tame 256 now (mem_loop rounds now) anyhow.
Proof. induction rounds as [|n IH]; cbn [mem_loop]; tame_tac. Qed.
#[export] Hint Resolve tame_slab_object tame_mem_loop : tame.

(** The three strings of a device, too, take a byte at least. *)
Lemma tame_scan_device now : tame 20 now scan_device consumes.
Proof.
  intros s Hs. unfold scan_device, bind. destruct (tame_scan_s 20 now s Hs) as (d1 & s1 & -> & X1 & L1 & Q1).
  destruct d1 as [d1|]; [|exists None, s1; split_and!; [done|done|done|by intros [??]]].
  destruct (tame_scan_s 20 now s1 (fits_suffix _ _ _ Hs L1)) as (d2 & s2 & -> & X2 & L2 & Q2).
  destruct d2 as [d2|]; [|exists None, s2; split_and!; [done|by etrans|by etrans|by intros [??]]].
  destruct (tame_scan_s 20 now s2 (fits_suffix _ _ _ (fits_suffix _ _ _ Hs L1) L2)) as (d3 & s3 & -> & X3 & L3 & Q3).
  exists d3, s3. split_and!; [done|by etrans; [etrans|]|by etrans; [|etrans]|]. intros _.
  specialize (Q1 ltac:(done)). apply suffix_length in L2, L3. lia.
Qed.

(** The same of a loop, when fewer than [n] bytes are left. *)
Definition settles (size : nat) (now : Z) (n : nat) (p : source_prog unit) : Prop :=
  forall s, fits size (unread s) = true -> (length (unread s) < n)%nat ->
    exists s', p s = Ret tt s' /\ extends now (s_met s) (s_met s').

Section settles.
Context (size : nat) (now : Z).

Lemma settles_tame n p Q : tame size now p Q -> settles size now n p.
Proof. intros H s Hs _. destruct (H s Hs) as ([] & s' & ? & ? & _). by exists s'. Qed.

Lemma settles_bind {A} n (p : source_prog A) k Q :
  tame size now p Q -> (forall a, settles size now n (k a)) -> settles size now n (bind p k).
Proof.
  intros Hp Hk s Hs Hn. destruct (Hp s Hs) as (a & s1 & E1 & X1 & L1 & _). pose proof (suffix_length _ _ L1).
  destruct (Hk a s1 (fits_suffix _ _ _ Hs L1) ltac:(lia)) as (s2 & E2 & X2).
  exists s2. unfold bind. rewrite E1. split; [done|by etrans].
Qed.

(** A string that is read takes a byte, so there is one round less to go. *)
Lemma settles_token {A} n (p : source_prog (option A)) k :
  tame size now p consumes -> settles size now (Datatypes.S n) (k None) ->
  (forall a, settles size now n (k (Some a))) -> settles size now (Datatypes.S n) (bind p k).
Proof.
  intros Hp Hno Hyes s Hs Hn. destruct (Hp s Hs) as (a & s1 & E1 & X1 & L1 & Q1). pose proof (suffix_length _ _ L1).
  assert (exists s2, k a s1 = Ret tt s2 /\ extends now (s_met s1) (s_met s2)) as (s2 & E2 & X2).
  { destruct a as [a|]; [specialize (Q1 ltac:(done)); apply Hyes|apply Hno]; first [by eapply fits_suffix|lia]. }
  exists s2. unfold bind. rewrite E1. split; [done|by etrans].
Qed.
End settles.

Ltac settles_tac :=
  repeat match goal with
  | |- settles _ _ _ (bind _ _) => eapply settles_bind; [eapply tame_any; eauto with tame|intros ?]
  | |- settles _ _ _ (match ?x with _ => _ end) => destruct x
  end; eauto using settles_tame, tame_ret.

Lemma io_loop_settles now fuel devname : settles 20 now fuel (io_loop fuel devname now).
Proof.
  induction fuel as [|fuel IH]; [intros s _ Hn; lia|]. cbn [io_loop].
  eapply settles_bind; [apply tame_feof|intros []]; [eapply settles_tame, tame_ret|].
  apply settles_token; [apply tame_scan_device|eapply settles_tame, tame_ret|intros a]. settles_tac.
Qed.

Lemma slab_loop_settles now fuel fsname : settles 256 now fuel (slab_loop fuel fsname now).
Proof.
  induction fuel as [|fuel IH]; [intros s _ Hn; lia|]. cbn [slab_loop].
  eapply settles_bind; [apply tame_feof|intros []]; [eapply settles_tame, tame_ret|].
  apply settles_token; [apply tame_scan_s|eapply settles_tame, tame_ret|intros a].
  eapply settles_bind with (Q := anyhow); [destruct (starts_with _ _); eauto with tame|intros ?]. settles_tac.
Qed.

(** The words of a file, if there is one, fit. *)
Definition file_fits (size : nat) (file : option bytes) : bool :=
  match file with Some l => fits size l | None => true end.

Lemma with_file_settles size now file p met :
  (forall fuel, settles size now fuel (p fuel)) -> file_fits size file = true ->
  exists met', with_file file p met = Ret tt met' /\ extends now met met'.
Proof.
  intros Hp Hf. destruct file as [l|]; cbn [with_file file_fits] in *; [|by exists met].
  destruct (Hp _ (mkSource (mkInput l false) met) Hf (Nat.lt_succ_diag_r _)) as (s' & E & X).
  cbn [unread s_in in_rest] in E. rewrite E. by exists (s_met s').
Qed.

Lemma SlabStat_settles now fsname fuel :
  settles 256 now fuel (s <- get_state ;;
    let l := in_rest (s_in s) in
    if Nat.ltb (length l) 204 then ret tt else
    modify (put_input (mkInput (drop 204 l) false)) ;;; slab_loop fuel fsname now).
Proof.
  intros s Hs Hn. unfold bind, get_state. cbv zeta. destruct (Nat.ltb _ _); [by exists s|].
  unfold modify. apply (slab_loop_settles now fuel fsname (put_input (mkInput (drop 204 (in_rest (s_in s))) false) s));
    unfold unread in *; cbn [s_in put_input in_rest].
  - eapply fits_suffix; [exact Hs|apply suffix_drop].
  - rewrite length_drop. lia.
Qed.

(** Counts whose sum is an [int]. *)
Definition counts_fit (l : list Z) : Prop := Forall (fun c => 0 <= c) l /\ foldr Z.add 0 l < 2 ^ 31.
#[global] Instance counts_fit_dec l : Decision (counts_fit l) := and_dec _ _.

Lemma counts_nonneg l : Forall (fun c => 0 <= c) l -> 0 <= foldr Z.add 0 l.
Proof. induction 1; cbn; lia. Qed.

Lemma op_counts_settles targs i tot now met : Forall (fun c => 0 <= c) targs -> 0 <= tot -> tot + foldr Z.add 0 targs < 2 ^ 31 ->
  exists met', op_counts targs i tot now met = Ret (tot + foldr Z.add 0 targs) met' /\ extends now met met'.
Proof.
  intros Hc. revert i tot met. induction Hc as [|c targs H0 Hc IH]; intros i tot met Ht Hs; cbn [op_counts foldr] in *.
  { exists met. by rewrite Z.add_0_r. }
  pose proof (counts_nonneg targs Hc). unfold int_add, bind, modify.
  rewrite (proj2 (Z.leb_le _ _)), (proj2 (Z.ltb_lt _ _)) by lia. cbn [andb].
  edestruct (IH (i + 1) (tot + c)) as (met' & E & X); [lia|lia|]. rewrite Z.add_assoc. unfold ret.
  exists met'. split; [exact E|]. etrans; [apply extends_add|exact X].
Qed.

Lemma OperationStat_settles now o met : counts_fit (os_targs o) ->
  exists o' met', OperationStat_GetMetric now o met = Ret o' met' /\ extends now met met' /\ os_targs o' = os_targs o.
Proof.
  intros [H0 Hs]. unfold OperationStat_GetMetric. destruct (os_enabled o); [|by exists o, met].
  destruct (op_counts_settles (os_targs o) 0 0 now met H0 ltac:(lia) Hs) as (met1 & E & X). unfold bind. rewrite E.
  eexists _, _. split_and!; [done|etrans; [exact X|apply extends_add]|]. by destruct (_ >? 5).
Qed.

(** What the sources need: words that fit into their arrays, and a number of operations
    that is an [int]. *)
Definition readable (w : outside_world) (s : MetricStat) : Prop :=
  match s with
  | IOStat _ => file_fits 20 (o_diskstats w) = true
  | SlabStat _ => file_fits 256 (o_slabinfo w) = true
  | MemStat => file_fits 256 (o_meminfo w) = true
  | OpStat o => counts_fit (os_targs o)
  | LatencyStat _ | TableFSWrapperStat => True
  end.

Lemma GetMetric_settles w now s met : 0 <= now < 2 ^ 31 -> o_time w = now -> readable w s ->
  exists s' met', GetMetric w now s met = Ret s' met' /\ extends now met met' /\ forall w', readable w' s -> readable w' s'.
Proof.
  intros Hnow Ht Hr. destruct s as [devname|fsname| |lasttime|o|]; cbn [GetMetric readable] in *; unfold bind.
  - destruct (with_file_settles 20 now (o_diskstats w) _ met (fun fuel => io_loop_settles now fuel devname) Hr) as (met' & E & X).
    change (IOStat_GetMetric devname (o_diskstats w) now met = Ret tt met') in E. rewrite E. by eexists _, met'.
  - destruct (with_file_settles 256 now (o_slabinfo w) _ met (SlabStat_settles now fsname) Hr) as (met' & E & X).
    change (SlabStat_GetMetric fsname (o_slabinfo w) now met = Ret tt met') in E. rewrite E. by eexists _, met'.
  - destruct (with_file_settles 256 now (o_meminfo w) _ met (fun fuel => settles_tame 256 now fuel _ _ (tame_mem_loop now 30)) Hr) as (met' & E & X).
    change (MemStat_GetMetric (o_meminfo w) now met = Ret tt met') in E. rewrite E. by eexists _, met'.
  - eexists _, _. split_and!; [done|apply extends_add|done].
  - destruct (OperationStat_settles now o met Hr) as (o' & met' & E & X & T). rewrite E. exists (OpStat o'), met'.
    split_and!; [done|done|]. intros w'. cbn. by rewrite T.
  - eexists _, _. split_and!; [done| |done]. unfold WrapperStat_GetMetric. destruct (o_stats w); [|done].
    rewrite Ht, i32_small by lia. apply extends_add_all.
Qed.

Lemma get_metrics_settles w now l met : 0 <= now < 2 ^ 31 -> o_time w = now -> Forall (readable w) l ->
  exists l' met', get_metrics w now l met = Ret l' met' /\ extends now met met' /\
    forall w', Forall (readable w') l -> Forall (readable w') l'.
Proof.
  intros Hnow Ht Hr. revert met. induction Hr as [|s l Hs _ IH]; intros met; cbn [get_metrics]; [by exists [], met|].
  destruct (GetMetric_settles w now s met Hnow Ht Hs) as (s' & met1 & E1 & X1 & R1).
  destruct (IH met1) as (l' & met2 & E2 & X2 & R2). unfold bind. rewrite E1, E2.
  exists (s' :: l'), met2. split_and!; [done|by etrans|]. intros w' [H1 H2]%Forall_cons_iff. constructor; auto.
Qed.

Lemma DoMonitor_settles w now m : 0 <= now < 2 ^ 31 -> o_time w = now -> Forall (readable w) (statlist m) ->
  exists m', DoMonitor w now m = Ret tt m' /\ extends now (metlist m) (metlist m') /\
    forall w', Forall (readable w') (statlist m) -> Forall (readable w') (statlist m').
Proof.
  intros Hnow Ht Hr. destruct (get_metrics_settles w now (statlist m) (metlist m) Hnow Ht Hr) as (l' & met' & E & X & R).
  unfold DoMonitor. rewrite E. by eexists.
Qed.

(** Oldest entry first. *)
Definition in_order (s : TSeries) : Prop := Sorted Z.le s.*1.

Lemma in_order_extend now s new : in_order s -> Forall (fun p => p.1 <= now) s -> Forall (fun p => p.1 = now) new ->
  in_order (s ++ new) /\ Forall (fun p => p.1 <= now) (s ++ new).
Proof.
  unfold in_order. intros Hs Hle Hnew. split.
  - rewrite fmap_app. apply StronglySorted_Sorted. apply Sorted_StronglySorted in Hs; [|intros ???; lia].
    induction s as [|p s IH]; cbn.
    + clear -Hnew. induction Hnew as [|p new Hp Hn IH]; cbn; constructor; [done|].
      apply list.Forall_forall. intros x (q & -> & Hq)%list_elem_of_fmap. rewrite list.Forall_forall in Hn.
      rewrite Hp, (Hn q Hq). lia.
    + inversion Hs as [|? ? Hss Hall]; subst. apply Forall_cons_iff in Hle as [Hp Hle]. constructor; [by apply IH|].
      apply Forall_app. split; [done|]. apply list.Forall_forall. intros x (q & -> & Hq)%list_elem_of_fmap.
      rewrite list.Forall_forall in Hnew. rewrite (Hnew q Hq). done.
  - apply Forall_app. split; [done|]. eapply Forall_impl; [|exact Hnew]. cbn. lia.
Qed.



(** A monitor that is asked again and again. *)
Fixpoint looks (l : list (outside_world * Z)) : prog Monitor unit :=
  match l with
  | [] => ret tt
  | (w, now) :: l' => DoMonitor w now ;;; looks l'
  end.

(** The series are in order and their entries not younger than [t]. *)
Definition dated (t : Z) (met : TMetList) : Prop :=
  forall name, in_order (series met name) /\ Forall (fun p => p.1 <= t) (series met name).

Lemma dated_extends t now met met' : dated t met -> t <= now -> extends now met met' -> dated now met'.
Proof.
  intros Hm Hle H name. destruct (H name) as (new & -> & Hn). destruct (Hm name) as [Ho Hl]. apply in_order_extend; [done| |done].
  eapply Forall_impl; [|exact Hl]. cbn. lia.
Qed.

Definition last_time (t : Z) (l : list (outside_world * Z)) : Z := foldl (fun _ x => x.2) t l.

(** C38: however often a monitor is asked, it gets through all of its sources: each
    look returns when the words of the files of the kernel fit into the arrays they are
    read into ([fits]: no word of 20 bytes in the table of the disks, none of 256 in the
    other two) and the sum of the operations counted is an [int]. No entry of a series
    is lost or changed, and if the clock does not go back, nor tick during a look,
    every series stays in the order of time. *)
Theorem series_stay_in_order (m : Monitor) (t : Z) (l : list (outside_world * Z)) :
  dated t (metlist m) -> Sorted Z.le (t :: l.*2) -> Forall (fun x => 0 <= x.2 < 2 ^ 31 /\ o_time x.1 = x.2) l ->
  Forall (fun x => Forall (readable x.1) (statlist m)) l ->
  exists m', looks l m = Ret tt m' /\ dated (last_time t l) (metlist m') /\
    forall name, series (metlist m) name `prefix_of` series (metlist m') name.
Proof.
  revert m t. induction l as [|[w now] l IH]; intros m t Hm Hs Hr Hf; cbn [looks]; [by exists m|].
  cbn in Hs, Hr. apply Forall_cons_iff in Hr as [[Hnow Ht] Hr]. apply Forall_cons_iff in Hf as [Hw Hf]. cbn in Hnow, Ht, Hw.
  apply Sorted_inv in Hs as [Hs Hhd]. apply HdRel_inv in Hhd.
  destruct (DoMonitor_settles w now m Hnow Ht Hw) as (m1 & E1 & X1 & R1).
  destruct (IH m1 now (dated_extends _ _ _ _ Hm Hhd X1) Hs Hr) as (m' & E & D & P).
  { eapply Forall_impl; [|exact Hf]. intros x. apply R1. }
  exists m'. unfold bind. rewrite E1. split_and!; [done|done|].
  intros name. destruct (X1 name) as (new & En & _). etrans; [|exact (P name)]. rewrite En. by apply prefix_app_r.
Qed.

Definition disk_text : bytes :=
  str "   8       0 sda 1 2 3 4 5 6 7 8 9 10 11" ++ [10] ++ str "   8       1 sda1 11 12 13 14 15 16 17 18 19 20 21 22 23 24 25" ++ [10].

Definition mem_text : bytes := str "MemTotal:       64 kB" ++ [10] ++ str "MemFree:        17 kB" ++ [10].

Definition outside0 (t : Z) : outside_world := mkOutside (Some disk_text) None (Some mem_text) (Some (str "3 4 5")) (replicate 13 7) t.

Lemma dated_empty : dated 0 (∅ : TMetList).
Proof. intros name. unfold series. rewrite lookup_empty. split; constructor. Qed.

(** A monitor of a disk, of the memory, of the store and of two threads. *)
Definition monitor0 : Monitor :=
  mkMonitor ∅ [IOStat (str "sda1"); MemStat; TableFSWrapperStat; OpStat (SetThreadArgs [3; 4] OperationStat_new)].

Lemma series_stay_in_order_witness :
  exists m', looks [(outside0 5, 5); (outside0 9, 9)] monitor0 = Ret tt m' /\
    dated 9 (metlist m') /\ series (metlist m') (str "sda1.msec_read") = [(5, 14); (9, 14)] /\
    series (metlist m') (str "MemFree:") = [(5, 17); (9, 17)] /\
    series (metlist m') (str "leveldb.num_size") = [(5, 4); (9, 4)] /\
    series (metlist m') (str "Opcount") = [(5, 7); (9, 7)].
Proof.
  destruct (series_stay_in_order monitor0 0 [(outside0 5, 5); (outside0 9, 9)] dated_empty) as (m' & E & D & _).
  - repeat constructor; cbn; lia.
  - repeat constructor; cbn; lia.
  - repeat constructor; vm_compute; congruence.
  - exists m'. split; [exact E|]. split; [exact D|]. revert E. vm_compute. intros [= <-]. repeat split; reflexivity.
Defined.

(** A device name of twenty bytes does not fit with its terminator. *)
Definition long_name_text : bytes := str "   8       0 " ++ replicate 20 100 ++ str " 1 2 3 4 5 6 7 8 9 10 11" ++ [10].

(** What [fits] excludes does happen: a table of disks in which a name is too long
    is read beyond the array, whichever device is asked for. *)
Lemma long_device_name_overflows devname now met :
  IOStat_GetMetric devname (Some long_name_text) now met = UB OutOfBounds /\ fits 20 long_name_text = false.
Proof. split; reflexivity. Qed.




