(* ===== verification/Random.v ===== *)
(** Random numbers: [leveldb::Random] of [src/lib/leveldb/util/random.h] and the
    [RandomPicker] of [src/fsbench.cpp].

    The state of a generator is its 32-bit seed. *)

From S2P Require Import Prelude.

Set Default Proof Using "Type".

Definition Random_M : Z := 2147483647.
Definition Random_A : Z := 16807.

Definition Random_new (s : Z) : Z := Z.land s (2 ^ 31 - 1).

(** [Next]: the new seed, which is also the value. *)
Definition Random_Next (seed : Z) : Z :=
  let product := u64 (seed * Random_A) in
  let seed := u32 (Z.shiftr product 31 + Z.land product Random_M) in
  if seed >? Random_M then u32 (seed - Random_M) else seed.

(** The value and the new seed. *)
Definition Uniform (n seed : Z) : Z * Z := let s := Random_Next seed in (s mod u32 n, s).
Definition OneIn (n seed : Z) : bool * Z := let s := Random_Next seed in (s mod u32 n =? 0, s).
Definition Skewed (max_log seed : Z) : Z * Z :=
  let '(base, s) := Uniform (i32 (max_log + 1)) seed in
  Uniform (i32 (Z.shiftl 1 base)) s.

(** ** [RandomPicker] *)

Inductive picker_mode : Type := PickUniform | PickSkewed.

Record RandomPicker : Type := mkPicker {
  pk_seed : Z;
  pk_mode : picker_mode;
  pk_range : Z;
  pk_max_log : Z
}.

(** The loop that looks for the logarithm of the range; [max_exp] doubles in 32
    bits. 32 rounds are enough for a range up to [2 ^ 31]; beyond, the loop of the
    code does not end. *)
Fixpoint picker_log (fuel : nat) (range max_log max_exp : Z) : Z :=
  match fuel with
  | O => max_log
  | S fuel' => if max_exp <? u32 range then picker_log fuel' range (max_log + 1) (u32 (Z.shiftl max_exp 1)) else max_log
  end.

Definition RandomPicker_new (seed : Z) (mode : bytes) (range : Z) : RandomPicker :=
  if decide (mode = str "skewed") then mkPicker (Random_new seed) PickSkewed range (picker_log 32 range 0 1)
  else mkPicker (Random_new seed) PickUniform range 0.

Definition Picker_Next (p : RandomPicker) : Z * RandomPicker :=
  let '(v, s) :=
    match pk_mode p with
    | PickUniform => Uniform (pk_range p) (pk_seed p)
    | PickSkewed => let '(v, s) := Skewed (pk_max_log p) (pk_seed p) in (v mod u32 (pk_range p), s)
    end in
  (v, mkPicker s (pk_mode p) (pk_range p) (pk_max_log p)).

(** * Properties *)

Lemma Random_new_range s : 0 <= Random_new s < 2 ^ 31.
Proof. unfold Random_new. change (2 ^ 31 - 1) with (Z.ones 31). rewrite Z.land_ones by lia. apply Z.mod_pos_bound. lia. Qed.

(** The sum of the high and the low part of a product, reduced once. *)
Lemma Random_Next_fold seed : 0 <= seed < 2 ^ 31 ->
  let h := seed * Random_A / 2 ^ 31 in let l := (seed * Random_A) mod 2 ^ 31 in
  Random_Next seed = (if h + l >? Random_M then h + l - Random_M else h + l) /\ 0 <= h < Random_A /\ 0 <= l < 2 ^ 31.
Proof.
  intros Hs h l. assert (0 <= h < Random_A) as Hh.
  { unfold h, Random_A. split; [apply Z.div_pos; lia|]. apply Z.div_lt_upper_bound; lia. }
  assert (0 <= l < 2 ^ 31) as Hl by (apply Z.mod_pos_bound; lia).
  split; [|done]. unfold Random_Next. unfold Random_A in *. rewrite u64_small by lia.
  rewrite Z.shiftr_div_pow2 by lia. change Random_M with (Z.ones 31). rewrite Z.land_ones by lia. fold h l. fold Random_A in *.
  change (Z.ones 31) with Random_M. unfold Random_M, Random_A in *. rewrite (u32_small (h + l)) by lia.
  destruct (h + l >? 2147483647) eqn:E; [|done]. bool_to_prop. rewrite u32_small by lia. done.
Qed.

(** The multiplier has no factor in common with the modulus. *)
Lemma lehmer_nonzero seed : 0 < seed < Random_M -> (Random_A * seed) mod Random_M <> 0.
Proof.
  intros Hs H. apply Z.mod_divide in H; [|done]. apply Z.gauss in H; [|by vm_compute].
  apply Z.divide_pos_le in H; lia.
Qed.

Lemma Random_Next_lehmer seed : 0 < seed < Random_M ->
  Random_Next seed = (Random_A * seed) mod Random_M /\ 0 < Random_Next seed < Random_M.
Proof.
  intros Hs. pose proof (lehmer_nonzero seed Hs) as Hnz.
  destruct (Random_Next_fold seed) as (Heq & Hh & Hl); [unfold Random_M in Hs; lia|]. cbv zeta in *.
  set (h := seed * Random_A / 2 ^ 31) in *. set (l := (seed * Random_A) mod 2 ^ 31) in *.
  assert (Hmod : (Random_A * seed) mod Random_M = (h + l) mod Random_M).
  { rewrite (Z.mul_comm Random_A), (Z.div_mod (seed * Random_A) (2 ^ 31)) by lia. fold h l.
    replace (2 ^ 31 * h + l) with (h + l + h * Random_M) by (unfold Random_M; lia). by rewrite Z.mod_add. }
  assert (Hval : Random_Next seed = (h + l) mod Random_M).
  { rewrite Heq, Hmod in *. unfold Random_M, Random_A in *. destruct (h + l >? 2147483647) eqn:E; bool_to_prop.
    - apply Z.mod_unique_pos with 1; lia.
    - destruct (decide (h + l = 2147483647)) as [Hm|]; [rewrite Hm in Hnz; by destruct Hnz|]. symmetry. apply Z.mod_small. lia. }
  rewrite Hval, <- Hmod. split; [done|]. pose proof (Z.mod_pos_bound (Random_A * seed) Random_M ltac:(done)). lia.
Qed.

Fixpoint nth_random (k : nat) (seed : Z) : Z :=
  match k with O => seed | S k' => Random_Next (nth_random k' seed) end.

(** The generator of LevelDB, which replaces the division by shifts and one
    conditional subtraction, computes the Lehmer sequence: its [k]th value is
    [16807 ^ k * seed] modulo [2 ^ 31 - 1], and it is never 0 nor the modulus. *)
Theorem random_is_lehmer (k : nat) (seed : Z) : 0 < seed < Random_M ->
  nth_random k seed = (Random_A ^ Z.of_nat k * seed) mod Random_M /\ 0 < nth_random k seed < Random_M.
Proof.
  intros Hs. induction k as [|k [IH Hr]]; [cbn [nth_random]; rewrite Z.mul_1_l, Z.mod_small by lia; lia|].
  cbn [nth_random]. destruct (Random_Next_lehmer _ Hr) as [Hn Hb]. split; [|done].
  rewrite Hn, IH, Z.mul_mod_idemp_r by done. f_equal. rewrite Nat2Z.inj_succ, Z.pow_succ_r by lia. lia.
Qed.

Lemma random_is_lehmer_witness : nth_random 5 1 = 1144108930.
Proof.
  destruct (random_is_lehmer 5 1) as [-> _]; [unfold Random_M; lia|]. vm_compute. reflexivity.
Defined.

Lemma Uniform_range n seed : 0 < n < 2 ^ 31 -> 0 <= (Uniform n seed).1 < n.
Proof. intros Hn. unfold Uniform. cbn. rewrite u32_small by lia. apply Z.mod_pos_bound. lia. Qed.

(** A picker's values are indexes of its range. *)
Lemma Picker_Next_range p : 0 < pk_range p < 2 ^ 31 -> 0 <= (Picker_Next p).1 < pk_range p.
Proof.
  intros Hn. unfold Picker_Next. destruct (pk_mode p).
  - pose proof (Uniform_range (pk_range p) (pk_seed p) Hn). by destruct (Uniform _ _).
  - destruct (Skewed _ _). cbn. rewrite u32_small by lia. apply Z.mod_pos_bound. lia.
Qed.
