(* ===== verification/DbFormat.v ===== *)
(** Internal keys: [src/lib/leveldb/db/dbformat.h] and [dbformat.cc].

    An internal key is a user key followed by eight bytes that hold a sequence number
    and a type; keys of one user key are ordered by decreasing sequence number. That
    an internal key has eight bytes at least, which [ExtractUserKey] asserts, is part
    of the domain [internal_ok] of the comparator. *)

From S2P Require Import Prelude Coding WriteBatch Comparator Bloom.

Set Default Proof Using "Type".

Definition kValueTypeForSeek : Z := kTypeValue.
Definition kMaxSequenceNumber : Z := Z.shiftl 1 56 - 1.

Record ParsedInternalKey : Type := mkParsed { pk_user_key : bytes; pk_sequence : Z; pk_type : Z }.

Definition InternalKeyEncodingLength (k : ParsedInternalKey) : Z := Z.of_nat (length (pk_user_key k)) + 8.

Definition PackSequenceAndType {S} (seq t : Z) : prog S Z :=
  assert_ (seq <=? kMaxSequenceNumber) ;;;
  assert_ (t <=? kValueTypeForSeek) ;;;
  ret (Z.lor (u64 (Z.shiftl seq 8)) t).

(** On the string that is appended to. *)
Definition AppendInternalKey (k : ParsedInternalKey) : prog bytes unit :=
  modify (fun result => result ++ pk_user_key k) ;;;
  n <- PackSequenceAndType (pk_sequence k) (pk_type k) ;;
  modify (fun result => PutFixed64 result n).

Definition ExtractUserKey (internal_key : bytes) : bytes := take (length internal_key - 8) internal_key.

(** The eight bytes behind the user key. *)
Definition tag_bytes (internal_key : bytes) : bytes := drop (length internal_key - 8) internal_key.

Definition ExtractValueType (internal_key : bytes) : Z :=
  Z.land (DecodeFixed64 (tag_bytes internal_key)) 255.

Definition ParseInternalKey (internal_key : bytes) : option ParsedInternalKey :=
  if (length internal_key <? 8)%nat then None
  else
    let num := DecodeFixed64 (tag_bytes internal_key) in
    let c := Z.land num 255 in
    if c <=? kTypeValue then Some (mkParsed (ExtractUserKey internal_key) (Z.shiftr num 8) c) else None.

(** ** The comparator of internal keys *)

Definition internal_compare (user : Comparator) (akey bkey : bytes) : Z :=
  let r := Compare user (ExtractUserKey akey) (ExtractUserKey bkey) in
  if r =? 0 then
    let anum := DecodeFixed64 (tag_bytes akey) in
    let bnum := DecodeFixed64 (tag_bytes bkey) in
    if anum >? bnum then -1 else if anum <? bnum then 1 else r
  else r.

(** A call that changes a copy of a string: the copy afterwards. *)
Definition on_copy {S} (tmp : bytes) (m : prog bytes unit) : prog S bytes := fun s =>
  match m tmp with
  | Ret _ tmp' => Ret tmp' s
  | Exit n _ => Exit n s
  | UB w => UB w
  end.

Definition internal_separator (user : Comparator) (limit : bytes) : prog bytes unit :=
  start <- get_state ;;
  assert_ (8 <=? length start)%nat ;;;
  assert_ (8 <=? length limit)%nat ;;;
  let user_start := ExtractUserKey start in
  let user_limit := ExtractUserKey limit in
  tmp <- on_copy user_start (FindShortestSeparator user user_limit) ;;
  if (length tmp <? length user_start)%nat && (Compare user user_start tmp <? 0) then
    n <- PackSequenceAndType kMaxSequenceNumber kValueTypeForSeek ;;
    let tmp := PutFixed64 tmp n in
    assert_ (internal_compare user start tmp <? 0) ;;;
    assert_ (internal_compare user tmp limit <? 0) ;;;
    modify (fun _ => tmp)
  else ret tt.

Definition internal_successor (user : Comparator) : prog bytes unit :=
  key <- get_state ;;
  assert_ (8 <=? length key)%nat ;;;
  let user_key := ExtractUserKey key in
  tmp <- on_copy user_key (FindShortSuccessor user) ;;
  if (length tmp <? length user_key)%nat && (Compare user user_key tmp <? 0) then
    n <- PackSequenceAndType kMaxSequenceNumber kValueTypeForSeek ;;
    let tmp := PutFixed64 tmp n in
    assert_ (internal_compare user key tmp <? 0) ;;;
    modify (fun _ => tmp)
  else ret tt.

Definition InternalKeyComparator (user : Comparator) : Comparator :=
  mkComparator (internal_compare user) (internal_separator user) (internal_successor user).

(** ** The filter policy of internal keys, over the Bloom filter *)

Definition internal_CreateFilter (p : BloomFilterPolicy) (keys : list bytes) (dst : bytes) : bytes :=
  CreateFilter p (ExtractUserKey <$> keys) dst.

Definition internal_KeyMayMatch (key f : bytes) : prog Z bool := KeyMayMatch (ExtractUserKey key) f.

(** ** Keys for lookups

    [start_], and where [kstart_] lies in it. *)

Record LookupKey : Type := mkLookup { lk_start : bytes; lk_kstart : nat }.

Definition LookupKey_new {S} (user_key : bytes) (s : Z) : prog S LookupKey :=
  let klength := EncodeVarint32 (u32 (Z.of_nat (length user_key + 8))) in
  tag <- PackSequenceAndType s kValueTypeForSeek ;;
  ret (mkLookup (klength ++ user_key ++ EncodeFixed64 tag) (length klength)).

Definition memtable_key (k : LookupKey) : bytes := lk_start k.
Definition internal_key (k : LookupKey) : bytes := drop (lk_kstart k) (lk_start k).
Definition user_key (k : LookupKey) : bytes :=
  slice (lk_kstart k) (length (lk_start k) - lk_kstart k - 8) (lk_start k).

(** ** Tags *)

Definition tag_of (seq t : Z) : Z := seq * 256 + t.

Definition seq_ok (seq : Z) : Prop := 0 <= seq < 2 ^ 56.
Definition type_ok (t : Z) : Prop := 0 <= t <= 1.

Lemma tag_of_lor seq t : 0 <= seq -> 0 <= t < 256 -> Z.lor (Z.shiftl seq 8) t = tag_of seq t.
Proof.
  intros Hs Ht. assert (Z.land (Z.shiftl seq 8) t = 0) as Hd.
  { apply Z.bits_inj'. intros i Hi. rewrite Z.land_spec, Z.bits_0. destruct (Z.ltb_spec i 8).
    - by rewrite Z.shiftl_spec_low.
    - rewrite (bits_above 8 t) by lia. apply andb_false_r. }
  pose proof (Z.add_lor_land (Z.shiftl seq 8) t) as E. rewrite Hd, Z.shiftl_mul_pow2 in * by lia. unfold tag_of. lia.
Qed.

Lemma pack_run {S} seq t (s : S) :
  seq_ok seq -> type_ok t -> PackSequenceAndType seq t s = Ret (tag_of seq t) s.
Proof.
  intros Hs Ht. unfold seq_ok, type_ok in *. unfold PackSequenceAndType, bind, kMaxSequenceNumber.
  change (Z.shiftl 1 56) with (2 ^ 56). rewrite (proj2 (Z.leb_le _ _)) by lia. simpl assert_. unfold ret.
  unfold kValueTypeForSeek, kTypeValue. rewrite (proj2 (Z.leb_le t 1)) by lia. simpl assert_. unfold ret.
  rewrite u64_small by (rewrite Z.shiftl_mul_pow2; lia). by rewrite tag_of_lor by lia.
Qed.

Lemma pack_seek {S} (s : S) :
  PackSequenceAndType kMaxSequenceNumber kValueTypeForSeek s = Ret (tag_of kMaxSequenceNumber kValueTypeForSeek) s.
Proof. apply pack_run; split; by vm_compute. Qed.

Lemma tag_of_inj seq t seq' t' : type_ok t -> type_ok t' -> tag_of seq t = tag_of seq' t' -> seq = seq' /\ t = t'.
Proof. unfold tag_of, type_ok. lia. Qed.

Lemma tag_range seq t : seq_ok seq -> type_ok t -> 0 <= tag_of seq t < 2 ^ 64.
Proof. unfold tag_of, seq_ok, type_ok. lia. Qed.

Lemma DecodeFixed64_encode x rest : 0 <= x < 2 ^ 64 -> DecodeFixed64 (EncodeFixed64 x ++ rest) = x.
Proof.
  intros Hx. unfold DecodeFixed64, EncodeFixed64. rewrite take_app_length' by (by rewrite length_le_bytes).
  rewrite le_val_bytes. by apply Z.mod_small.
Qed.

(** An internal key from its parts. *)
Definition internal (u : bytes) (tag : Z) : bytes := u ++ EncodeFixed64 tag.

Lemma length_internal u tag : length (internal u tag) = (length u + 8)%nat.
Proof. unfold internal, EncodeFixed64. by rewrite length_app, length_le_bytes. Qed.

Lemma user_internal u tag : ExtractUserKey (internal u tag) = u.
Proof.
  unfold ExtractUserKey. rewrite length_internal, Nat.add_sub. unfold internal. by rewrite take_app_length.
Qed.

Lemma tag_internal u tag : 0 <= tag < 2 ^ 64 -> DecodeFixed64 (tag_bytes (internal u tag)) = tag.
Proof.
  intros Ht. unfold tag_bytes. rewrite length_internal, Nat.add_sub. unfold internal. rewrite drop_app_length.
  rewrite <- (app_nil_r (EncodeFixed64 tag)). by apply DecodeFixed64_encode.
Qed.

Lemma tag_type seq t : type_ok t -> Z.land (tag_of seq t) 255 = t.
Proof.
  intros Ht. change 255 with (Z.ones 8). rewrite Z.land_ones by lia. unfold tag_of, type_ok in *.
  symmetry. apply (Zmod_unique _ _ seq); lia.
Qed.

(** What [AppendInternalKey] writes, [ParseInternalKey] reads. *)
Lemma parse_append k :
  seq_ok (pk_sequence k) -> type_ok (pk_type k) ->
  exists r, AppendInternalKey k [] = Ret tt r /\ ParseInternalKey r = Some k.
Proof.
  intros Hs Ht. exists (internal (pk_user_key k) (tag_of (pk_sequence k) (pk_type k))). split.
  - unfold AppendInternalKey, bind, modify. rewrite pack_run by done. done.
  - unfold ParseInternalKey. rewrite length_internal, user_internal, tag_internal by (by apply tag_range).
    destruct (Nat.ltb_spec (length (pk_user_key k) + 8) 8); [lia|].
    rewrite tag_type by done.
    assert (Z.shiftr (tag_of (pk_sequence k) (pk_type k)) 8 = pk_sequence k) as ->.
    { rewrite Z.shiftr_div_pow2 by lia. unfold tag_of, type_ok in *. symmetry. apply (Z.div_unique _ _ _ (pk_type k)); lia. }
    unfold kTypeValue, type_ok in *. destruct (Z.leb_spec (pk_type k) 1); [|lia]. by destruct k.
Qed.

(** ** The order of internal keys *)

Section order.
Context (user : Comparator) (dom : bytes -> Prop) {Hc : ComparatorOk user dom}.

Record internal_ok (k : bytes) : Prop := {
  ik_length : (8 <= length k)%nat;
  ik_user : dom (ExtractUserKey k);
  ik_tag : bytes_ok (tag_bytes k) }.

#[local] Abbreviation u_ k := (ExtractUserKey k).
#[local] Abbreviation t_ k := (DecodeFixed64 (tag_bytes k)).

Lemma internal_split k : (8 <= length k)%nat -> k = u_ k ++ tag_bytes k /\ length (tag_bytes k) = 8%nat.
Proof using Type.
  intros Hk. unfold ExtractUserKey, tag_bytes. rewrite take_drop, length_drop. split; [done|lia].
Qed.

Lemma internal_eq a b : internal_ok a -> internal_ok b -> u_ a = u_ b -> t_ a = t_ b -> a = b.
Proof using Type.
  intros [La _ Ta] [Lb _ Tb] Hu Ht. destruct (internal_split a La) as [Sa Ea], (internal_split b Lb) as [Sb Eb].
  rewrite Sa, Sb.
  f_equal; [done|]. unfold DecodeFixed64 in Ht. rewrite !take_ge in Ht by lia.
  rewrite <- (le_bytes_val _ 8 Ea Ta), <- (le_bytes_val _ 8 Eb Tb). by f_equal.
Qed.

(** The order: by user key, then by decreasing tag. *)
Lemma internal_lt a b :
  dom (u_ a) -> dom (u_ b) ->
  internal_compare user a b < 0 <-> Compare user (u_ a) (u_ b) < 0 \/ (u_ a = u_ b /\ t_ b < t_ a).
Proof using Hc.
  intros Ha Hb. unfold internal_compare. pose proof (cmp_eq (c:=user) (u_ a) (u_ b) Ha Hb) as He.
  destruct (Z.eqb_spec (Compare user (u_ a) (u_ b)) 0) as [E|E].
  - apply He in E as E'. rewrite Z.gtb_ltb. destruct (Z.ltb_spec (t_ b) (t_ a)).
    + split; [by right|lia].
    + split; [split_tests|intros [|[]]; lia].
  - split; [by left|]. intros [|[Hu _]]; [done|]. apply He in Hu. lia.
Qed.

Lemma internal_ge a b :
  dom (u_ a) -> dom (u_ b) -> 0 < internal_compare user b a <-> internal_compare user a b < 0.
Proof using Hc.
  intros Ha Hb. unfold internal_compare. pose proof (cmp_eq (c:=user) (u_ a) (u_ b) Ha Hb) as He.
  pose proof (cmp_eq (c:=user) (u_ b) (u_ a) Hb Ha) as He'. pose proof (cmp_flip (c:=user) (u_ a) (u_ b) Ha Hb).
  destruct (Z.eqb_spec (Compare user (u_ a) (u_ b)) 0) as [E|E], (Z.eqb_spec (Compare user (u_ b) (u_ a)) 0) as [E'|E'].
  - split_tests; lia.
  - apply He in E. symmetry in E. by apply He' in E.
  - apply He' in E'. symmetry in E'. by apply He in E'.
  - lia.
Qed.

Lemma internal_trans a b c :
  internal_ok a -> internal_ok b -> internal_ok c ->
  internal_compare user a b < 0 -> internal_compare user b c < 0 -> internal_compare user a c < 0.
Proof using Hc.
  intros [_ Ha _] [_ Hb _] [_ Hd _]. rewrite !internal_lt by done. intros [H1|[H1 T1]] [H2|[H2 T2]].
  - left. by eapply cmp_trans; [..|exact H1|exact H2].
  - left. by rewrite <- H2.
  - left. by rewrite H1.
  - right. split; [congruence|lia].
Qed.

Lemma internal_zero a b : internal_ok a -> internal_ok b -> internal_compare user a b = 0 <-> a = b.
Proof using Hc.
  intros Ha Hb. pose proof (ik_user _ Ha) as Ua. pose proof (ik_user _ Hb) as Ub. split.
  - intros H. pose proof (internal_lt a b Ua Ub) as H1. pose proof (internal_lt b a Ub Ua) as H2.
    pose proof (internal_ge a b Ua Ub). pose proof (internal_ge b a Ub Ua).
    assert (Compare user (u_ a) (u_ b) = 0) as E.
    { pose proof (cmp_flip (c:=user) (u_ a) (u_ b) Ua Ub). pose proof (cmp_flip (c:=user) (u_ b) (u_ a) Ub Ua).
      destruct (Z.lt_trichotomy (Compare user (u_ a) (u_ b)) 0) as [|[|]]; [|done|]; exfalso.
      - assert (internal_compare user a b < 0) by (apply H1; by left). lia.
      - assert (internal_compare user b a < 0) by (apply H2; left; lia). lia. }
    apply cmp_eq in E; [|done..]. apply internal_eq; [done..|].
    destruct (Z.lt_trichotomy (t_ a) (t_ b)) as [|[|]]; [|done|]; exfalso.
    + assert (internal_compare user b a < 0) by (apply H2; right; split; [done|lia]). lia.
    + assert (internal_compare user a b < 0) by (apply H1; right; split; [done|lia]). lia.
  - intros <-. unfold internal_compare. rewrite (cmp_refl user dom _ Ua). simpl.
    split_tests; done.
Qed.

(** A shortened user key gets the tag that comes first. *)
Definition with_seek_tag (u : bytes) : bytes := internal u (tag_of kMaxSequenceNumber kValueTypeForSeek).

Lemma seek_tag_ok u : dom u -> internal_ok (with_seek_tag u).
Proof using Type.
  intros Hu. unfold with_seek_tag. split.
  - rewrite length_internal. lia.
  - by rewrite user_internal.
  - unfold tag_bytes. rewrite length_internal, Nat.add_sub. unfold internal. rewrite drop_app_length. apply le_bytes_ok.
Qed.

Lemma internal_separator_run start limit :
  internal_ok start -> internal_ok limit -> internal_compare user start limit < 0 ->
  exists s, internal_separator user limit start = Ret tt s /\ internal_ok s /\
    internal_compare user start s <= 0 /\ internal_compare user s limit < 0.
Proof using Hc.
  intros Hs Hl Hlt. assert (internal_compare user start start = 0) as Hr by (by apply internal_zero).
  destruct (Hs) as [Ls Us _], (Hl) as [Ll Ul _]. unfold internal_separator, bind, get_state.
  rewrite !(proj2 (Nat.leb_le _ _)) by done. simpl assert_. unfold ret, on_copy.
  destruct (Z.lt_ge_cases (Compare user (u_ start) (u_ limit)) 0) as [Hu|Hu].
  2: { rewrite (cmp_no_separator _ _ Us Ul Hu), Nat.ltb_irrefl. simpl. exists start. split_and!; [done..|lia|done]. }
  destruct (cmp_separator _ _ Us Ul Hu) as (tmp & -> & Ht & H1 & H2).
  destruct (_ && _) eqn:E; [|exists start; split_and!; [done..|lia|done]]. apply andb_true_iff in E as [_ E%Z.ltb_lt].
  rewrite pack_seek.
  change (PutFixed64 tmp (tag_of kMaxSequenceNumber kValueTypeForSeek)) with (with_seek_tag tmp).
  pose proof (seek_tag_ok tmp Ht) as Hk. pose proof (ik_user _ Hk) as Uk.
  assert (u_ (with_seek_tag tmp) = tmp) as Eu by apply user_internal.
  assert (internal_compare user start (with_seek_tag tmp) < 0) as L1 by (apply internal_lt; [done..|left; by rewrite Eu]).
  assert (internal_compare user (with_seek_tag tmp) limit < 0) as L2 by (apply internal_lt; [done..|left; by rewrite Eu]).
  rewrite !(proj2 (Z.ltb_lt _ _)) by done. simpl assert_. unfold ret, modify.
  eexists. split_and!; [done..|lia|done].
Qed.

Lemma internal_no_separator start limit :
  internal_ok start -> internal_ok limit -> 0 <= internal_compare user start limit ->
  internal_separator user limit start = Ret tt start.
Proof using Hc.
  intros [Ls Us _] [Ll Ul _] Hge. unfold internal_separator, bind, get_state.
  rewrite !(proj2 (Nat.leb_le _ _)) by done. simpl assert_. unfold ret, on_copy.
  rewrite (cmp_no_separator _ _ Us Ul); [by rewrite Nat.ltb_irrefl|].
  destruct (Z.lt_ge_cases (Compare user (u_ start) (u_ limit)) 0) as [Hu|Hu]; [|done].
  assert (internal_compare user start limit < 0); [|lia]. apply internal_lt; [done..|by left].
Qed.

Lemma internal_successor_run key :
  internal_ok key -> exists s, internal_successor user key = Ret tt s /\ internal_ok s /\ internal_compare user key s <= 0.
Proof using Hc.
  intros Hk. assert (internal_compare user key key = 0) as Hr by (by apply internal_zero).
  destruct (Hk) as [Lk Uk _]. unfold internal_successor, bind, get_state.
  rewrite (proj2 (Nat.leb_le _ _)) by done. simpl assert_. unfold ret, on_copy.
  destruct (cmp_successor _ Uk) as (tmp & -> & Ht & H1).
  destruct (_ && _) eqn:E; [|exists key; split_and!; [done..|lia]]. apply andb_true_iff in E as [_ E%Z.ltb_lt].
  rewrite pack_seek.
  change (PutFixed64 tmp (tag_of kMaxSequenceNumber kValueTypeForSeek)) with (with_seek_tag tmp).
  pose proof (seek_tag_ok tmp Ht) as Hs. pose proof (ik_user _ Hs) as Us.
  assert (u_ (with_seek_tag tmp) = tmp) as Eu by apply user_internal.
  assert (internal_compare user key (with_seek_tag tmp) < 0) as L1 by (apply internal_lt; [done..|left; by rewrite Eu]).
  rewrite (proj2 (Z.ltb_lt _ _)) by done. simpl assert_. unfold ret, modify.
  eexists. split_and!; [done..|lia].
Qed.

(** The comparator of internal keys keeps the contract when that of user keys does. *)
#[global] Instance InternalKeyComparator_ok : ComparatorOk (InternalKeyComparator user) internal_ok.
Proof using Hc.
  split; cbn.
  - apply internal_zero.
  - intros a b [_ Ha _] [_ Hb _]. symmetry. by apply internal_ge.
  - apply internal_trans.
  - apply internal_separator_run.
  - apply internal_no_separator.
  - apply internal_successor_run.
Qed.
End order.
