(* ===== verification/SkipList.v ===== *)
(** The skip list behind the memtable: [src/lib/leveldb/db/skiplist.h].

    Nodes are never freed, so the arena is the list of the nodes allocated and a
    pointer an index into it; the head is node 0. A link is uninitialised until it is
    set. The operations of one writer are modelled, where the barriers of the links
    play no part. Levels are between 0 and 12 and kept as [nat]. *)

From stdpp Require Import sorting.
From S2P Require Import Prelude Random.

Set Default Proof Using "Type".

Definition kMaxHeight : nat := 12.
Definition kBranching : Z := 4.

Section skiplist.
Context {Key : Type} (compare_ : Key -> Key -> Z).

(** The head has no key. *)
Record Node : Type := mkNode { n_key : option Key; next_ : list (option (option nat)) }.

Record SkipList : Type := mkSkipList { nodes : list Node; max_height_ : nat; rnd_ : Z }.
Abbreviation sl_prog := (prog SkipList).

Definition head_ : nat := 0.

Definition put_nodes (ns : list Node) (s : SkipList) : SkipList := mkSkipList ns (max_height_ s) (rnd_ s).
Definition put_height (h : nat) (s : SkipList) : SkipList := mkSkipList (nodes s) h (rnd_ s).
Definition put_rnd (r : Z) (s : SkipList) : SkipList := mkSkipList (nodes s) (max_height_ s) r.

Definition node_at (x : nat) : sl_prog Node := s <- get_state ;; deref NullPointer (nodes s !! x).
Definition node_key (x : nat) : sl_prog Key := n <- node_at x ;; deref NullPointer (n_key n).

Definition node_Next (x n : nat) : sl_prog (option nat) :=
  nd <- node_at x ;; deref OutOfBounds (mjoin (next_ nd !! n)).

Definition node_SetNext (x n : nat) (y : option nat) : sl_prog unit :=
  nd <- node_at x ;;
  if (n <? length (next_ nd))%nat then
    modify (fun s => put_nodes (<[x := mkNode (n_key nd) (<[n := Some y]> (next_ nd))]> (nodes s)) s)
  else undefined OutOfBounds.

Definition GetMaxHeight : sl_prog nat := gets max_height_.

Definition NewNode (key : option Key) (height : nat) : sl_prog nat :=
  s <- get_state ;;
  modify (put_nodes (nodes s ++ [mkNode key (replicate height None)])) ;;;
  ret (length (nodes s)).

(** The loop of [RandomHeight]: at most [kMaxHeight] rounds. *)
Fixpoint random_height (fuel height : nat) : sl_prog nat :=
  match fuel with
  | O => undefined Unfinished
  | S fuel' =>
      if (height <? kMaxHeight)%nat then
        s <- get_state ;;
        let v := Random_Next (rnd_ s) in
        modify (put_rnd v) ;;;
        if v mod kBranching =? 0 then random_height fuel' (S height) else ret height
      else ret height
  end.

Definition RandomHeight : sl_prog nat :=
  height <- random_height kMaxHeight 1 ;;
  assert_ (0 <? height)%nat ;;;
  assert_ (height <=? kMaxHeight)%nat ;;;
  ret height.

Definition Equal (a b : Key) : bool := compare_ a b =? 0.

Definition KeyIsAfterNode (key : Key) (n : option nat) : sl_prog bool :=
  match n with
  | None => ret false
  | Some y => k <- node_key y ;; ret (compare_ k key <? 0)
  end.

(** The fuel of the searches: each round goes to another node or to a lower level. *)
Definition search_fuel (s : SkipList) : nat := length (nodes s) + kMaxHeight.

(** The array [prev] is filled also for the callers that pass none. *)
Fixpoint find_ge (fuel : nat) (key : Key) (x level : nat) (prev : list (option nat)) :
    sl_prog (option nat * list (option nat)) :=
  match fuel with
  | O => undefined Unfinished
  | S fuel' =>
      next <- node_Next x level ;;
      after <- KeyIsAfterNode key next ;;
      match (if (after : bool) then next else None) with
      | Some y => find_ge fuel' key y level prev
      | None =>
          let prev := <[level := Some x]> prev in
          match level with
          | O => ret (next, prev)
          | S level' => find_ge fuel' key x level' prev
          end
      end
  end.

Definition FindGreaterOrEqual (key : Key) : sl_prog (option nat * list (option nat)) :=
  s <- get_state ;;
  h <- GetMaxHeight ;;
  find_ge (search_fuel s) key head_ (h - 1) (replicate kMaxHeight None).

Fixpoint find_less (fuel : nat) (key : Key) (x level : nat) : sl_prog nat :=
  match fuel with
  | O => undefined Unfinished
  | S fuel' =>
      (if (x =? head_)%nat then ret tt else k <- node_key x ;; assert_ (compare_ k key <? 0)) ;;;
      next <- node_Next x level ;;
      stop <- (match next with None => ret true | Some y => k <- node_key y ;; ret (compare_ k key >=? 0) end) ;;
      match (if (stop : bool) then None else next) with
      | Some y => find_less fuel' key y level
      | None => match level with O => ret x | S level' => find_less fuel' key x level' end
      end
  end.

Definition FindLessThan (key : Key) : sl_prog nat :=
  s <- get_state ;;
  h <- GetMaxHeight ;;
  find_less (search_fuel s) key head_ (h - 1).

Fixpoint find_last (fuel : nat) (x level : nat) : sl_prog nat :=
  match fuel with
  | O => undefined Unfinished
  | S fuel' =>
      next <- node_Next x level ;;
      match next with
      | None => match level with O => ret x | S level' => find_last fuel' x level' end
      | Some y => find_last fuel' y level
      end
  end.

Definition FindLast : sl_prog nat :=
  s <- get_state ;;
  h <- GetMaxHeight ;;
  find_last (search_fuel s) head_ (h - 1).

(** The constructor. *)
Definition SkipList_new : SkipList :=
  mkSkipList [mkNode None (replicate kMaxHeight (Some None))] 1 (Random_new 0xdeadbeef).

(** The loop of [Insert] over the levels of the new node. *)
Fixpoint link (x : nat) (prev : list (option nat)) (n i : nat) : sl_prog unit :=
  match n with
  | O => ret tt
  | S n' =>
      p <- deref NullPointer (mjoin (prev !! i)) ;;
      y <- node_Next p i ;;
      node_SetNext x i y ;;;
      node_SetNext p i (Some x) ;;;
      link x prev n' (S i)
  end.

(** [prev[i] = head_] for [i] from the height of the list to that of the node *)
Definition fill_prev (prev : list (option nat)) (from to_ : nat) : list (option nat) :=
  foldl (fun p i => <[i := Some head_]> p) prev (seq from (to_ - from)).

Definition Insert (key : Key) : sl_prog unit :=
  ' (x, prev) <- FindGreaterOrEqual key ;;
  (match x with
   | None => ret tt
   | Some y => k <- node_key y ;; assert_ (negb (Equal key k))
   end) ;;;
  height <- RandomHeight ;;
  h <- GetMaxHeight ;;
  prev <- (if (h <? height)%nat then modify (put_height height) ;;; ret (fill_prev prev h height) else ret prev) ;;
  x <- NewNode (Some key) height ;;
  link x prev height 0.

Definition Contains (key : Key) : sl_prog bool :=
  ' (x, _) <- FindGreaterOrEqual key ;;
  match x with
  | None => ret false
  | Some y => k <- node_key y ;; ret (Equal key k)
  end.

(** ** The iterator: [node_] is its state *)

Definition iter_Valid (node : option nat) : bool := bool_decide (is_Some node).
Definition iter_key (node : option nat) : sl_prog Key :=
  x <- deref AssertFailed node ;; node_key x.
Definition iter_Next (node : option nat) : sl_prog (option nat) :=
  x <- deref AssertFailed node ;; node_Next x 0.
Definition iter_Prev (node : option nat) : sl_prog (option nat) :=
  x <- deref AssertFailed node ;;
  k <- node_key x ;;
  y <- FindLessThan k ;;
  ret (if (y =? head_)%nat then None else Some y).
Definition iter_Seek (target : Key) : sl_prog (option nat) :=
  ' (x, _) <- FindGreaterOrEqual target ;; ret x.
Definition iter_SeekToFirst : sl_prog (option nat) := node_Next head_ 0.
Definition iter_SeekToLast : sl_prog (option nat) :=
  y <- FindLast ;; ret (if (y =? head_)%nat then None else Some y).
End skiplist.
