(* ===== verification/SkipListOk.v ===== *)
(** The skip list of [SkipList] keeps its keys sorted: the links of every level are the
    nodes of that height in order, and the operations do what they would on the sorted
    list of the keys. *)

From stdpp Require Import sorting.
From S2P Require Import Prelude Random SkipList.

Set Default Proof Using "Type".

(** What the list asks of the order of its keys. *)
Class KeyOrder {Key : Type} (compare_ : Key -> Key -> Z) (dom : Key -> Prop) : Prop := {
  ko_flip a b : dom a -> dom b -> (compare_ a b < 0 <-> 0 < compare_ b a);
  ko_trans a b c : dom a -> dom b -> dom c -> compare_ a b < 0 -> compare_ b c < 0 -> compare_ a c < 0 }.

(** ** Chains of links *)

Section chain.
Context (f : nat -> option (option nat)).

(** The links lead from each element to the next and from the last to NULL. *)
Fixpoint seg (xs : list nat) : Prop :=
  match xs with
  | [] => True
  | x :: r => f x = Some (head r) /\ seg r
  end.

(** The links lead through [xs] to [y]. *)
Fixpoint path (xs : list nat) (y : nat) : Prop :=
  match xs with
  | [] => True
  | x :: r => f x = Some (Some (default y (head r))) /\ path r y
  end.

Lemma seg_app xs y r : seg (xs ++ y :: r) <-> path xs y /\ seg (y :: r).
Proof.
  induction xs as [|x xs IH]; simpl; [tauto|]. simpl in IH. rewrite IH.
  destruct xs; simpl; tauto.
Qed.
End chain.

Lemma seg_ext f g xs : (forall x, x ∈ xs -> f x = g x) -> seg f xs -> seg g xs.
Proof.
  induction xs as [|x xs IH]; simpl; [done|]. intros He [H1 H2]. split; [rewrite <- He by (by left); done|].
  apply IH; [|done]. intros y Hy. apply He. by right.
Qed.

Lemma path_ext f g xs y : (forall x, x ∈ xs -> f x = g x) -> path f xs y -> path g xs y.
Proof.
  induction xs as [|x xs IH]; simpl; [done|]. intros He [H1 H2]. split; [rewrite <- He by (by left); done|].
  apply IH; [|done]. intros z Hz. apply He. by right.
Qed.

Lemma sorted_mono {A} (R R' : A -> A -> Prop) xs :
  (forall x y, x ∈ xs -> y ∈ xs -> R x y -> R' x y) -> StronglySorted R xs -> StronglySorted R' xs.
Proof.
  intros H Hs. induction Hs as [|x xs Hs IH Hx]; [constructor|]. rewrite list.Forall_forall in Hx.
  apply StronglySorted_cons. split.
  - apply list.Forall_forall. intros y Hy. apply H; [by left|by right|by apply Hx].
  - apply IH. intros y z Hy Hz. apply H; by right.
Qed.

Section proofs.
Context {Key : Type} (compare_ : Key -> Key -> Z) (dom : Key -> Prop) {HK : KeyOrder compare_ dom}.

Abbreviation heap := (list (@Node Key)).

Definition link_at (ns : heap) (l x : nat) : option (option nat) := n ← ns !! x; mjoin (next_ n !! l).
Definition height (ns : heap) (x : nat) : nat := default 0%nat ((fun n => length (next_ n)) <$> ns !! x).
Definition key_at (ns : heap) (x : nat) : option Key := ns !! x ≫= n_key.

(** The nodes of a list of nodes that reach a level. *)
Definition level (ns : heap) (l : nat) (ids : list nat) : list nat := filter (fun x => (l < height ns x)%nat) ids.

Lemma level_app ns l xs ys : level ns l (xs ++ ys) = level ns l xs ++ level ns l ys.
Proof. apply list.filter_app. Qed.

Lemma level_cons ns l x xs : (l < height ns x)%nat -> level ns l (x :: xs) = x :: level ns l xs.
Proof. intros H. unfold level. by rewrite filter_cons_True. Qed.

Definition klt (ns : heap) (x y : nat) : Prop :=
  forall a b, key_at ns x = Some a -> key_at ns y = Some b -> compare_ a b < 0.

(** The list holds the nodes [ids], in this order. *)
Record skip (ids : list nat) (s : @SkipList Key) : Prop := {
  s_head : height (nodes s) 0 = kMaxHeight;
  s_nodup : NoDup (0%nat :: ids);
  s_node x : x ∈ ids -> exists k, key_at (nodes s) x = Some k /\ dom k;
  s_tall x : x ∈ ids -> (1 <= height (nodes s) x <= max_height_ s)%nat;
  s_sorted : StronglySorted (klt (nodes s)) ids;
  s_max : (1 <= max_height_ s <= kMaxHeight)%nat;
  s_chain l : (l < kMaxHeight)%nat -> seg (link_at (nodes s) l) (0%nat :: level (nodes s) l ids) }.

(** The keys of the list. *)
Definition keys (s : @SkipList Key) (ids : list nat) : list Key := omap (key_at (nodes s)) ids.

(** ** Basic steps *)

Lemma node_Next_run s x l y : link_at (nodes s) l x = Some y -> node_Next x l s = Ret y s.
Proof.
  unfold link_at, node_Next, node_at, bind, get_state. intros H.
  destruct (nodes s !! x) as [n|]; simpl in *; [|done]. by rewrite H.
Qed.

Lemma node_key_run s x k : key_at (nodes s) x = Some k -> node_key x s = Ret k s.
Proof.
  unfold key_at, node_key, node_at, bind, get_state. intros H.
  destruct (nodes s !! x) as [n|]; simpl in *; [|done]. by rewrite H.
Qed.

(** ** Searching *)

Section search.
Context (s : @SkipList Key) (lo hi : list nat) (S0 : skip (lo ++ hi) s).
#[local] Abbreviation ns := (nodes s).

(** [x] is the head or a node of [lo], and [q] what follows it there. *)
Definition at_pos (x : nat) (q : list nat) : Prop := (x = 0%nat /\ q = lo) \/ exists p, lo = p ++ x :: q.

Lemma at_pos_len x q : at_pos x q -> (length q <= length lo)%nat.
Proof. intros [[_ ->]|[p E]]; [done|]. rewrite E, length_app. simpl. lia. Qed.

Lemma at_pos_seg x q l :
  at_pos x q -> (l < kMaxHeight)%nat -> (l < height ns x)%nat -> seg (link_at ns l) (x :: level ns l (q ++ hi)).
Proof using S0.
  intros Hx Hl Hh. pose proof (s_chain _ _ S0 l Hl) as Hc. destruct Hx as [[-> ->]|[p ->]]; [done|].
  rewrite <- app_assoc, level_app in Hc. simpl (_ ++ _) in Hc. rewrite level_cons in Hc by done.
  by apply (seg_app _ (0%nat :: level ns l p)) in Hc as [_ Hc].
Qed.

Lemma level_split l q y r : level ns l q = y :: r -> exists a b, q = a ++ y :: b /\ (l < height ns y)%nat.
Proof.
  intros H. assert (y ∈ level ns l q) as Hy by (rewrite H; by left).
  apply list_elem_of_filter in Hy as [Hh Hy]. apply list_elem_of_split in Hy as (a & b & ->). eauto.
Qed.

(** One round of a search: the next node is in [lo], or there is none left there. *)
Lemma step x q l :
  at_pos x q -> (l < kMaxHeight)%nat -> (l < height ns x)%nat ->
  exists next, node_Next x l s = Ret next s /\
    ((exists y q', next = Some y /\ y ∈ lo /\ at_pos y q' /\ (l < height ns y)%nat /\ (length q' < length q)%nat) \/
     (level ns l q = [] /\ next = head (level ns l hi))).
Proof using S0.
  intros Hx Hl Hh. pose proof (at_pos_seg x q l Hx Hl Hh) as [Hs _]. exists (head (level ns l (q ++ hi))).
  split; [by apply node_Next_run|]. rewrite level_app. destruct (level ns l q) as [|y r] eqn:E; [by right|left].
  destruct (level_split l q y r E) as (a & b & -> & Hy). exists y, b. simpl.
  assert (exists p, lo = p ++ y :: b) as [p Hp].
  { destruct Hx as [[_ E']|[p E']]; [by exists a|]. exists (p ++ x :: a). rewrite E'. by rewrite <- app_assoc. }
  split_and!; [done| |by right; exists p|done|rewrite length_app; simpl; lia].
  rewrite Hp. apply elem_of_app. right. by left.
Qed.

(** The last node of a level in [lo]. *)
Definition pred_at (l x : nat) : Prop := exists q, at_pos x q /\ level ns l q = [] /\ (l < height ns x)%nat.

Lemma level0 xs : xs ⊆ lo ++ hi -> level ns 0 xs = xs.
Proof using S0.
  intros Hs. apply filter_id. intros x Hx. pose proof (s_tall _ _ S0 x (Hs x Hx)). lia.
Qed.

Lemma at_pos_sub x q : at_pos x q -> q ⊆ lo ++ hi.
Proof.
  intros H z Hz. apply elem_of_app. left. destruct H as [[_ E]|[p E]]; [by rewrite <- E|].
  rewrite E. apply elem_of_app. right. by right.
Qed.

(** The keys of [lo] are below the target, those of [hi] are not. *)
Definition below (key : Key) (x : nat) : Prop := exists k, key_at ns x = Some k /\ compare_ k key < 0.
Definition not_below (key : Key) (x : nat) : Prop := exists k, key_at ns x = Some k /\ 0 <= compare_ k key.

Lemma head_level l x xs : head (level ns l xs) = Some x -> x ∈ xs.
Proof.
  intros H. destruct (level ns l xs) as [|y r] eqn:E; [done|]. simpl in H. simplify_eq.
  assert (x ∈ level ns l xs) as Hy by (rewrite E; by left). by apply list_elem_of_filter in Hy as [_ ?].
Qed.

Lemma after_run key next :
  (forall y, next = Some y -> below key y) -> next <> None -> KeyIsAfterNode compare_ key next s = Ret true s.
Proof.
  intros H Hn. destruct next as [y|]; [|done]. destruct (H y eq_refl) as (k & Hk & Hlt).
  unfold KeyIsAfterNode, bind. rewrite (node_key_run s y k Hk). unfold ret. by rewrite (proj2 (Z.ltb_lt _ _) Hlt).
Qed.

Lemma not_after_run key next :
  (forall y, next = Some y -> not_below key y) -> KeyIsAfterNode compare_ key next s = Ret false s.
Proof.
  intros H. destruct next as [y|]; [|done]. destruct (H y eq_refl) as (k & Hk & Hge).
  unfold KeyIsAfterNode, bind. rewrite (node_key_run s y k Hk). unfold ret. by rewrite (proj2 (Z.ltb_ge _ _) Hge).
Qed.

Lemma find_ge_run key : forall fuel x q l prev,
  (forall y, y ∈ lo -> below key y) -> (forall y, y ∈ hi -> not_below key y) ->
  at_pos x q -> (l < kMaxHeight)%nat -> (l < height ns x)%nat -> (length q + l < fuel)%nat ->
  length prev = kMaxHeight ->
  exists prev', find_ge compare_ fuel key x l prev s = Ret (head hi, prev') s /\ length prev' = kMaxHeight /\
    (forall i, (i <= l)%nat -> exists y, prev' !! i = Some (Some y) /\ pred_at i y) /\
    (forall i, (l < i)%nat -> prev' !! i = prev !! i).
Proof using S0.
  intros fuel. induction fuel as [|fuel IH]; intros x q l prev Hlo Hhi Hx Hl Hh Hf Hp; [lia|].
  cbn [find_ge]. unfold bind. destruct (step x q l Hx Hl Hh) as (next & -> & [(y & q' & -> & Hy & Hy' & Hhy & Hq)|[Hq Hn]]).
  - rewrite after_run; [|intros ? [= <-]; by apply Hlo|done]. apply (IH y q'); [done..|lia|done].
  - rewrite not_after_run by (intros y Hy; apply Hhi; rewrite Hn in Hy; by eapply head_level).
    assert (pred_at l x) as Hpred by (by exists q).
    destruct l as [|l].
    + exists (<[0%nat := Some x]> prev). rewrite length_insert. split_and!; [|done| |].
      * unfold ret. rewrite Hn, level0; [done|intros z Hz; apply elem_of_app; by right].
      * intros i Hi. replace i with 0%nat by lia. exists x. rewrite list_lookup_insert_eq by (rewrite Hp; unfold kMaxHeight; lia). done.
      * intros i Hi. by rewrite list_lookup_insert_ne by lia.
    + destruct (IH x q l (<[S l := Some x]> prev)) as (prev' & -> & Hlen & H1 & H2); [done|done|done|lia|lia|lia|by rewrite length_insert|].
      exists prev'. split_and!; [done|done| |].
      * intros i Hi. destruct (decide (i = S l)) as [->|]; [|apply H1; lia].
        exists x. rewrite H2, list_lookup_insert_eq by lia. done.
      * intros i Hi. rewrite H2, list_lookup_insert_ne by lia. done.
Qed.

(** The last node of [lo], or the head. *)
Definition last_of (xs : list nat) : nat := default 0%nat (list.last xs).

Lemma at_pos_last x q : at_pos x q -> q = [] -> x = last_of lo.
Proof.
  unfold last_of. intros [[-> ->]|[p E]] Eq; [by rewrite Eq|]. rewrite E, Eq, last_snoc. done.
Qed.

Lemma find_less_run key : forall fuel x q l,
  (forall y, y ∈ lo -> below key y) -> (forall y, y ∈ hi -> not_below key y) ->
  at_pos x q -> (l < kMaxHeight)%nat -> (l < height ns x)%nat -> (length q + l < fuel)%nat ->
  find_less compare_ fuel key x l s = Ret (last_of lo) s.
Proof using S0.
  intros fuel. induction fuel as [|fuel IH]; intros x q l Hlo Hhi Hx Hl Hh Hf; [lia|].
  cbn [find_less]. unfold bind at 1.
  assert ((if (x =? head_)%nat then ret tt else k <- node_key x ;; assert_ (compare_ k key <? 0)) s = Ret tt s) as ->.
  { unfold head_. destruct (Nat.eqb_spec x 0) as [|Hne]; [done|]. destruct Hx as [[-> _]|[p E]]; [done|].
    destruct (Hlo x) as (k & Hk & Hlt); [rewrite E; apply elem_of_app; right; by left|].
    unfold bind. by rewrite (node_key_run s x k Hk), (proj2 (Z.ltb_lt _ _) Hlt). }
  unfold bind. destruct (step x q l Hx Hl Hh) as (next & -> & [(y & q' & -> & Hy & Hy' & Hhy & Hq)|[Hq Hn]]).
  - destruct (Hlo y Hy) as (k & Hk & Hlt). rewrite (node_key_run s y k Hk). unfold ret.
    rewrite Z.geb_leb, (proj2 (Z.leb_gt _ _) Hlt). apply (IH y q'); [done..|lia].
  - assert ((match next with None => ret true | Some y => k <- node_key y ;; ret (compare_ k key >=? 0) end) s = Ret true s) as Hst.
    { destruct next as [y|]; [|done]. destruct (Hhi y) as (k & Hk & Hge); [by eapply head_level; symmetry|].
      unfold bind. rewrite (node_key_run s y k Hk), Z.geb_leb. unfold ret. by rewrite (proj2 (Z.leb_le _ _) Hge). }
    unfold bind, ret in Hst. unfold ret. rewrite Hst. destruct l as [|l]; [|apply (IH x q); [done|done|done|lia..]].
    f_equal. apply (at_pos_last x q Hx). rewrite <- Hq. symmetry. apply level0. by eapply at_pos_sub.
Qed.

Lemma find_last_run : forall fuel x q l,
  hi = [] -> at_pos x q -> (l < kMaxHeight)%nat -> (l < height ns x)%nat -> (length q + l < fuel)%nat ->
  find_last fuel x l s = Ret (last_of lo) s.
Proof using S0.
  intros fuel. induction fuel as [|fuel IH]; intros x q l Hhi Hx Hl Hh Hf; [lia|].
  cbn [find_last]. unfold bind. destruct (step x q l Hx Hl Hh) as (next & -> & [(y & q' & -> & Hy & Hy' & Hhy & Hq)|[Hq Hn]]).
  - apply (IH y q'); [done..|lia].
  - rewrite Hhi in Hn. simpl in Hn. rewrite Hn. destruct l as [|l]; [|apply (IH x q); [done|done|lia..]].
    unfold ret. f_equal. apply (at_pos_last x q Hx). rewrite <- Hq. symmetry. apply level0. by eapply at_pos_sub.
Qed.
End search.

Lemma ids_small ids s : skip ids s -> (length ids < length (nodes s))%nat.
Proof.
  intros H. assert (length (0%nat :: ids) <= length (seq 0 (length (nodes s))))%nat as Hl.
  { apply submseteq_length, NoDup_submseteq; [apply H|]. intros x Hx. apply elem_of_seq. split; [lia|].
    apply elem_of_cons in Hx as [->|Hx].
    - pose proof (s_head _ _ H) as Hh. unfold height in Hh. destruct (nodes s); simpl in *; [done|lia].
    - destruct (s_node _ _ H x Hx) as (k & Hk & _). unfold key_at in Hk.
      destruct (nodes s !! x) eqn:E; [|done]. apply lookup_lt_Some in E. lia. }
  rewrite length_seq in Hl. simpl in Hl. lia.
Qed.

(** A target cuts the list in two. *)
Lemma cut ids s key :
  skip ids s -> dom key ->
  exists lo hi, ids = lo ++ hi /\ (forall y, y ∈ lo -> below s key y) /\ (forall y, y ∈ hi -> not_below s key y).
Proof using HK.
  intros H Hd. pose proof (s_sorted _ _ H) as Hs. pose proof (s_node _ _ H) as Hn. clear H.
  induction Hs as [|x ids Hs IH Hx]; [exists [], []; split_and!; [done|set_solver|set_solver]|].
  destruct (Hn x) as (k & Hk & Hdk); [by left|].
  destruct (Z.lt_ge_cases (compare_ k key) 0) as [Hlt|Hge].
  - destruct IH as (lo & hi & -> & H1 & H2); [intros y Hy; apply Hn; by right|].
    exists (x :: lo), hi. split_and!; [done| |done]. intros y Hy. apply elem_of_cons in Hy as [->|Hy]; [by exists k|by apply H1].
  - exists [], (x :: ids). split_and!; [done|set_solver|]. intros y Hy. apply elem_of_cons in Hy as [->|Hy]; [by exists k|].
    destruct (Hn y) as (k' & Hk' & Hdk'); [by right|]. exists k'. split; [done|].
    destruct (Z.lt_ge_cases (compare_ k' key) 0) as [Hlt|]; [|done].
    rewrite list.Forall_forall in Hx. pose proof (Hx y Hy k k' Hk Hk') as Hkk.
    pose proof (ko_trans k k' key Hdk Hdk' Hd Hkk Hlt). lia.
Qed.

Lemma FindGreaterOrEqual_run lo hi s key :
  skip (lo ++ hi) s -> (forall y, y ∈ lo -> below s key y) -> (forall y, y ∈ hi -> not_below s key y) ->
  exists prev, FindGreaterOrEqual compare_ key s = Ret (head hi, prev) s /\ length prev = kMaxHeight /\
    forall i, (i < max_height_ s)%nat -> exists y, prev !! i = Some (Some y) /\ pred_at s lo i y.
Proof using Type.
  intros H Hlo Hhi. pose proof (s_max _ _ H) as Hm. pose proof (ids_small _ _ H) as Hl. rewrite length_app in Hl.
  destruct (find_ge_run s lo hi H key (search_fuel s) 0 lo (max_height_ s - 1) (replicate kMaxHeight None)) as (prev & Hr & Hp & H1 & _);
    [done|done|by left|unfold kMaxHeight in *; lia|rewrite (s_head _ _ H); lia|unfold search_fuel; lia|done|].
  exists prev. split_and!; [done|done|]. intros i Hi. apply H1. lia.
Qed.

(** ** Inserting *)

(** The same nodes with the same heights and keys. *)
Definition shape (ns ns' : heap) : Prop := (forall x, height ns' x = height ns x) /\ forall x, key_at ns' x = key_at ns x.

Lemma level_shape ns ns' l xs : shape ns ns' -> level ns' l xs = level ns l xs.
Proof. intros [Hh _]. unfold level. apply list_filter_iff. intros x. by rewrite Hh. Qed.

Lemma SetNext_run s x n y :
  (n < height (nodes s) x)%nat ->
  exists ns', node_SetNext x n y s = Ret tt (put_nodes ns' s) /\ shape (nodes s) ns' /\
    forall l z, link_at ns' l z = if decide (l = n /\ z = x) then Some y else link_at (nodes s) l z.
Proof.
  unfold height. destruct (nodes s !! x) as [nd|] eqn:E; simpl; [|lia]. intros Hn.
  exists (<[x := mkNode (n_key nd) (<[n := Some y]> (next_ nd))]> (nodes s)). pose proof (lookup_lt_Some _ _ _ E) as Hx.
  split_and!; [|split|].
  - unfold node_SetNext, node_at, bind, get_state. rewrite E. simpl. unfold ret.
    destruct (Nat.ltb_spec n (length (next_ nd))); [done|lia].
  - intros z. unfold height. destruct (decide (z = x)) as [->|].
    + rewrite list_lookup_insert_eq, E by done. simpl. by rewrite length_insert.
    + by rewrite list_lookup_insert_ne.
  - intros z. unfold key_at. destruct (decide (z = x)) as [->|]; [|by rewrite list_lookup_insert_ne].
    by rewrite list_lookup_insert_eq, E.
  - intros l z. unfold link_at. destruct (decide (z = x)) as [->|]; [|by rewrite list_lookup_insert_ne, decide_False by (done || by intros [])].
    rewrite list_lookup_insert_eq, E by done. simpl. destruct (decide (l = n)) as [->|].
    + rewrite decide_True, list_lookup_insert_eq by done. done.
    + by rewrite decide_False, list_lookup_insert_ne by (done || by intros []).
Qed.

Section insert.
Context (lo hi : list nat) (x : nat) (ns : heap).
Context (Hnd : NoDup (0%nat :: lo ++ x :: hi)).

(** The links of level [l] before and after the new node is put there. *)
Definition old_level (l : nat) (ns' : heap) : Prop := seg (link_at ns' l) (0%nat :: level ns l lo ++ level ns l hi).
Definition new_level (l : nat) (ns' : heap) : Prop := seg (link_at ns' l) (0%nat :: level ns l lo ++ x :: level ns l hi).

Definition pred_of (l p : nat) : Prop :=
  ((p = 0%nat /\ level ns l lo = []) \/ exists a q, lo = a ++ p :: q /\ level ns l q = []) /\ (l < height ns p)%nat.

Lemma pred_split l p : pred_of l p -> exists a, 0%nat :: level ns l lo = a ++ [p].
Proof.
  intros [[[-> E]|(a & q & E & Hq)] Hh]; [exists []; by rewrite E|].
  exists (0%nat :: level ns l a). rewrite E, level_app, level_cons, Hq by done. done.
Qed.

Lemma level_sub l xs y : y ∈ level ns l xs -> y ∈ xs.
Proof. intros H. by apply list_elem_of_filter in H as [_ ?]. Qed.

(** One round of the linking loop. *)
Lemma link_level l p s :
  shape ns (nodes s) -> pred_of l p -> (l < height ns x)%nat -> old_level l (nodes s) ->
  exists y ns', link_at (nodes s) l p = Some y /\
    (node_SetNext x l y ;;; node_SetNext p l (Some x)) s = Ret tt (put_nodes ns' s) /\
    shape ns ns' /\ new_level l ns' /\ forall l' z, l' <> l -> link_at ns' l' z = link_at (nodes s) l' z.
Proof using Hnd.
  intros [Sh Sk] Hp Hx Hold. unfold old_level, new_level in *. destruct (pred_split l p Hp) as [a Ha].
  change (0%nat :: level ns l lo ++ level ns l hi) with ((0%nat :: level ns l lo) ++ level ns l hi) in Hold.
  change (0%nat :: level ns l lo ++ x :: level ns l hi) with ((0%nat :: level ns l lo) ++ x :: level ns l hi).
  rewrite Ha, <- app_assoc in *. simpl in *. apply seg_app in Hold as [Hpath [Hlink Hseg]].
  assert (NoDup (a ++ p :: x :: level ns l hi)) as Hnd'.
  { change (a ++ p :: x :: level ns l hi) with (a ++ [p] ++ x :: level ns l hi). rewrite app_assoc, <- Ha.
    eapply sublist_NoDup; [exact Hnd|]. simpl. apply sublist_skip, sublist_app; [apply sublist_filter|].
    apply sublist_skip, sublist_filter. }
  exists (head (level ns l hi)).
  destruct (SetNext_run s x l (head (level ns l hi))) as (ns1 & Hs1 & [Sh1 Sk1] & L1); [by rewrite Sh|].
  destruct (SetNext_run (put_nodes ns1 s) p l (Some x)) as (ns2 & Hs2 & [Sh2 Sk2] & L2); [simpl; rewrite Sh1, Sh; apply Hp|].
  exists ns2. simpl in *. split_and!; [done| | | |].
  - unfold bind. by rewrite Hs1, Hs2.
  - split; intros z; [by rewrite Sh2, Sh1|by rewrite Sk2, Sk1].
  - assert (forall z, z <> p -> z <> x -> link_at ns2 l z = link_at (nodes s) l z) as Hz
      by (intros z H1 H2; by rewrite L2, decide_False, L1, decide_False by (by intros [])).
    apply list.NoDup_app in Hnd' as (_ & Hd & Hn2). apply list.NoDup_cons in Hn2 as [Hpn Hn2]. apply list.NoDup_cons in Hn2 as [Hxn _].
    apply seg_app. split; [|split; [|split]].
    + eapply path_ext; [|exact Hpath]. intros z Hza. symmetry. apply Hz; intros ->; apply (Hd _ Hza); [by left|right; by left].
    + rewrite L2, decide_True by done. done.
    + rewrite L2, decide_False, L1, decide_True; [done|done|]. intros [_ ->]. apply Hpn. by left.
    + eapply seg_ext; [|exact Hseg]. intros z Hzh. symmetry. apply Hz; intros ->; [apply Hpn; by right|done].
  - intros l' z Hne. by rewrite L2, decide_False, L1, decide_False by (by intros []).
Qed.

(** The loop puts the node into the levels from [i] on. *)
Lemma link_run prev n : forall i s,
  (forall j, (i <= j < i + n)%nat -> exists p, prev !! j = Some (Some p) /\ pred_of j p) ->
  (i + n <= height ns x)%nat -> shape ns (nodes s) ->
  (forall l, (l < i)%nat -> new_level l (nodes s)) ->
  (forall l, (i <= l < kMaxHeight)%nat -> old_level l (nodes s)) -> (i + n <= kMaxHeight)%nat ->
  exists ns', link x prev n i s = Ret tt (put_nodes ns' s) /\ shape ns ns' /\
    (forall l, (l < i + n)%nat -> new_level l ns') /\ forall l, (i + n <= l < kMaxHeight)%nat -> old_level l ns'.
Proof using Hnd.
  induction n as [|n IH]; intros i s Hprev Hh Hsh Hnew Hold Hk.
  { exists (nodes s). rewrite Nat.add_0_r. split; [by destruct s|done]. }
  destruct (Hprev i) as (p & Hpi & Hp); [lia|].
  destruct (link_level i p s Hsh Hp) as (y & ns1 & Hy & H1 & Hsh1 & Hn1 & Hf1); [lia|apply Hold; lia|].
  destruct (IH (S i) (put_nodes ns1 s)) as (ns2 & H2 & Hsh2 & Hn2 & Ho2).
  - intros j Hj. apply Hprev. lia.
  - lia.
  - done.
  - intros l Hl. destruct (decide (l = i)) as [->|]; [done|]. simpl.
    eapply seg_ext; [|apply Hnew; lia]. intros z _. symmetry. by apply Hf1.
  - intros l Hl. simpl. eapply seg_ext; [|apply Hold; lia]. intros z _. symmetry. apply Hf1. lia.
  - lia.
  - exists ns2. replace (i + S n)%nat with (S i + n)%nat by lia. split_and!; [|done|done|done].
    cbn [link]. unfold bind at 1. rewrite Hpi. simpl mjoin. simpl deref. unfold ret. unfold bind at 1.
    rewrite (node_Next_run s p i y Hy). rewrite <- bind_assoc. unfold bind at 1. rewrite H1. exact H2.
Qed.
End insert.

Lemma random_height_run fuel h (s : @SkipList Key) :
  (1 <= h <= kMaxHeight)%nat -> (kMaxHeight < fuel + h)%nat ->
  exists h' r, random_height fuel h s = Ret h' (put_rnd r s) /\ (1 <= h' <= kMaxHeight)%nat.
Proof.
  revert h s. induction fuel as [|fuel IH]; intros h s Hh Hf; [lia|]. cbn [random_height].
  assert (s = put_rnd (rnd_ s) s) as Es by (by destruct s).
  destruct (Nat.ltb_spec h kMaxHeight); [|exists h, (rnd_ s); by rewrite <- Es].
  unfold bind, get_state, modify, ret. destruct (_ =? 0); [|by eexists h, _].
  destruct (IH (S h) (put_rnd (Random_Next (rnd_ s)) s)) as (h' & r & -> & Hh'); [lia..|]. by exists h', r.
Qed.

Lemma RandomHeight_run (s : @SkipList Key) :
  exists h r, RandomHeight s = Ret h (put_rnd r s) /\ (1 <= h <= kMaxHeight)%nat.
Proof.
  destruct (random_height_run kMaxHeight 1 s) as (h & r & H & Hh); [unfold kMaxHeight; lia..|].
  exists h, r. split; [|done]. unfold RandomHeight, bind. rewrite H.
  destruct (Nat.ltb_spec 0 h); [|lia]. simpl assert_. unfold ret.
  destruct (Nat.leb_spec h kMaxHeight); [done|lia].
Qed.

Lemma fill_prev_lookup prev from to_ i :
  (to_ <= length prev)%nat ->
  fill_prev prev from to_ !! i = if decide (from <= i < to_)%nat then Some (Some head_) else prev !! i.
Proof.
  unfold fill_prev. remember (to_ - from)%nat as n eqn:En. revert prev from En.
  induction n as [|n IH]; intros prev from En Hl; simpl; [by rewrite decide_False by lia|].
  rewrite IH by (rewrite ?length_insert; lia). destruct (decide (i = from)) as [->|].
  - rewrite decide_False, decide_True, list_lookup_insert_eq by lia. done.
  - rewrite list_lookup_insert_ne by done. repeat case_decide; try done; lia.
Qed.

(** *** The new node *)

Section newnode.
Context (s : @SkipList Key) (lo hi : list nat) (key : Key) (h : nat).
Context (S0 : skip (lo ++ hi) s).
#[local] Abbreviation x := (length (nodes s)).
#[local] Abbreviation ns1 := (nodes s ++ [mkNode (Some key) (replicate h None)]).

Lemma id_lt z : z ∈ 0%nat :: lo ++ hi -> (z < x)%nat.
Proof using S0.
  intros Hz. apply elem_of_cons in Hz as [->|Hz].
  - pose proof (ids_small _ _ S0). lia.
  - destruct (s_node _ _ S0 z Hz) as (k & Hk & _). unfold key_at in Hk.
    destruct (nodes s !! z) eqn:E; [|done]. by apply lookup_lt_Some in E.
Qed.

Lemma old_node z : z ∈ 0%nat :: lo ++ hi -> ns1 !! z = nodes s !! z.
Proof using S0. intros Hz. apply lookup_app_l, id_lt, Hz. Qed.

Lemma new_node : ns1 !! x = Some (mkNode (Some key) (replicate h None)).
Proof. by apply list_lookup_middle. Qed.

Lemma old_height z : z ∈ 0%nat :: lo ++ hi -> height ns1 z = height (nodes s) z.
Proof using S0. intros Hz. unfold height. by rewrite old_node. Qed.

Lemma old_key z : z ∈ lo ++ hi -> key_at ns1 z = key_at (nodes s) z.
Proof using S0. intros Hz. unfold key_at. rewrite old_node; [done|by right]. Qed.

Lemma new_height : height ns1 x = h.
Proof. unfold height. rewrite new_node. simpl. apply length_replicate. Qed.

Lemma new_key : key_at ns1 x = Some key.
Proof. unfold key_at. by rewrite new_node. Qed.

Lemma old_level_eq l xs : xs ⊆ lo ++ hi -> level ns1 l xs = level (nodes s) l xs.
Proof using S0.
  intros Hs. unfold level. induction xs as [|z xs IH]; [done|].
  assert (height ns1 z = height (nodes s) z) as E by (apply old_height; right; apply Hs; by left).
  rewrite !filter_cons, E, IH; [done|]. intros y Hy. apply Hs. by right.
Qed.

Lemma sub_lo : lo ⊆ lo ++ hi.
Proof. intros z Hz. apply elem_of_app. by left. Qed.
Lemma sub_hi : hi ⊆ lo ++ hi.
Proof. intros z Hz. apply elem_of_app. by right. Qed.

Lemma new_nodup : NoDup (0%nat :: lo ++ x :: hi).
Proof using S0.
  assert ((0%nat :: lo ++ x :: hi) ≡ₚ x :: 0%nat :: lo ++ hi) as ->.
  { rewrite <- Permutation_middle. apply Permutation_swap. }
  apply list.NoDup_cons. split; [|apply S0]. intros Hx%id_lt. lia.
Qed.

Lemma old_levels l : (l < kMaxHeight)%nat -> old_level lo hi ns1 l ns1.
Proof using S0.
  intros Hl. unfold old_level. rewrite !old_level_eq by (apply sub_lo || apply sub_hi).
  rewrite <- level_app. eapply seg_ext; [|by apply S0].
  intros z Hz. unfold link_at. rewrite old_node; [done|].
  apply elem_of_cons in Hz as [->|Hz]; [by left|]. right. by eapply level_sub.
Qed.

Lemma pred_new l p : pred_at s lo l p -> pred_of lo ns1 l p.
Proof using S0.
  intros (q & Hp & Hq & Hh). destruct Hp as [[-> Eq]|[a E]].
  - split; [left; split; [done|]; rewrite old_level_eq by apply sub_lo; by rewrite <- Eq|by rewrite old_height by (by left)].
  - split; [right; exists a, q; split; [done|]|].
    + rewrite old_level_eq; [done|]. intros z Hz. rewrite E. apply elem_of_app. left. apply elem_of_app. right. by right.
    + rewrite old_height; [done|]. right. rewrite E. apply elem_of_app. left. apply elem_of_app. right. by left.
Qed.

(** Above the height of the list the head comes before the new node. *)
Lemma pred_head l : (max_height_ s <= l < kMaxHeight)%nat -> pred_of lo ns1 l 0.
Proof using S0.
  intros Hl. split; [left; split; [done|]|rewrite old_height, (s_head _ _ S0) by (by left); lia].
  rewrite old_level_eq by apply sub_lo. unfold level.
  assert (forall xs, xs ⊆ lo ++ hi -> filter (fun z => (l < height (nodes s) z)%nat) xs = []) as H.
  { intros xs. induction xs as [|z xs IH]; intros Hs; [done|].
    rewrite filter_cons_False; [apply IH; intros y Hy; apply Hs; by right|].
    pose proof (s_tall _ _ S0 z (Hs z ltac:(by left))). lia. }
  apply H, sub_lo.
Qed.

(** The list with the node linked in. *)
Lemma skip_insert ns2 r :
  dom key -> (forall y, y ∈ lo -> below s key y) -> (forall y, y ∈ hi -> not_below s key y) ->
  (forall y k, y ∈ hi -> key_at (nodes s) y = Some k -> compare_ key k <> 0) ->
  (1 <= h <= kMaxHeight)%nat -> shape ns1 ns2 ->
  (forall l, (l < h)%nat -> new_level lo hi x ns1 l ns2) ->
  (forall l, (h <= l < kMaxHeight)%nat -> old_level lo hi ns1 l ns2) ->
  skip (lo ++ x :: hi) (mkSkipList ns2 (Nat.max (max_height_ s) h) r).
Proof using HK S0.
  intros Hd Hlo Hhi Hne Hh Hsh Hnew Hold. pose proof (s_max _ _ S0) as Hm. destruct (Hsh) as [Sh Sk].
  split; simpl.
  - rewrite Sh, old_height by (by left). apply S0.
  - apply new_nodup.
  - intros z Hz. rewrite Sk. apply elem_of_app in Hz as [Hz|Hz%elem_of_cons]; [|destruct Hz as [->|Hz]].
    + rewrite old_key by (by apply sub_lo). apply (s_node _ _ S0), sub_lo, Hz.
    + exists key. by rewrite new_key.
    + rewrite old_key by (by apply sub_hi). apply (s_node _ _ S0), sub_hi, Hz.
  - intros z Hz. rewrite Sh. apply elem_of_app in Hz as [Hz|Hz%elem_of_cons]; [|destruct Hz as [->|Hz]].
    + rewrite old_height by (right; by apply sub_lo). pose proof (s_tall _ _ S0 z (sub_lo z Hz)). lia.
    + rewrite new_height. lia.
    + rewrite old_height by (right; by apply sub_hi). pose proof (s_tall _ _ S0 z (sub_hi z Hz)). lia.
  - pose proof (s_sorted _ _ S0) as Hs. apply StronglySorted_app in Hs as (Hlh & Hl & Hr).
    assert (forall z w, z ∈ lo ++ hi -> w ∈ lo ++ hi -> klt (nodes s) z w -> klt ns2 z w) as Hk.
    { intros z w Hz Hw H a b. rewrite !Sk, !old_key by done. apply H. }
    assert (forall z, z ∈ lo -> klt ns2 z x) as Hlx.
    { intros z Hz a b. rewrite !Sk, new_key, old_key by (by apply sub_lo). intros Ha [= <-].
      destruct (Hlo z Hz) as (k & Hk' & Hlt). by simplify_eq. }
    assert (forall z, z ∈ hi -> klt ns2 x z) as Hxh.
    { intros z Hz a b. rewrite !Sk, new_key, old_key by (by apply sub_hi). intros [= <-] Hb.
      destruct (Hhi z Hz) as (k & Hk' & Hge). destruct (s_node _ _ S0 z (sub_hi z Hz)) as (k2 & Hk2 & Hdk).
      simplify_eq. pose proof (Hne z b Hz Hb).
      pose proof (ko_flip b key Hdk Hd). lia. }
    apply StronglySorted_app. split_and!.
    + intros z w Hz [->|Hw]%elem_of_cons; [by apply Hlx|]. apply Hk; [by apply sub_lo|by apply sub_hi|by apply Hlh].
    + eapply sorted_mono; [|exact Hl]. intros z w Hz Hw. apply Hk; by apply sub_lo.
    + apply StronglySorted_cons. split; [by apply list.Forall_forall|].
      eapply sorted_mono; [|exact Hr]. intros z w Hz Hw. apply Hk; by apply sub_hi.
  - lia.
  - intros l Hl. rewrite (level_shape ns1) by done. rewrite level_app.
    destruct (decide (l < h)%nat) as [Hlh|Hlh].
    + rewrite level_cons by (rewrite new_height; lia). by apply Hnew.
    + assert (level ns1 l (x :: hi) = level ns1 l hi) as ->.
      { unfold level. rewrite filter_cons_False; [done|]. rewrite new_height. lia. }
      apply Hold. lia.
Qed.
End newnode.

(** ** The operations on the keys *)

Lemma keys_app s xs ys : keys s (xs ++ ys) = keys s xs ++ keys s ys.
Proof. apply omap_app. Qed.

Lemma keys_ext s s' xs : (forall x, x ∈ xs -> key_at (nodes s') x = key_at (nodes s) x) -> keys s' xs = keys s xs.
Proof.
  intros H. unfold keys. induction xs as [|x xs IH]; [done|]. csimpl.
  rewrite H by (by left). rewrite IH; [done|]. intros y Hy. apply H. by right.
Qed.

Lemma keys_reverse s xs : keys s (reverse xs) = reverse (keys s xs).
Proof.
  induction xs as [|x xs IH]; [done|]. rewrite reverse_cons, keys_app, IH. unfold keys. csimpl.
  destruct (key_at (nodes s) x); [by rewrite reverse_cons|by rewrite app_nil_r].
Qed.

Lemma elem_of_keys s ids k : k ∈ keys s ids <-> exists x, x ∈ ids /\ key_at (nodes s) x = Some k.
Proof. apply list_elem_of_omap. Qed.

Lemma Insert_run ids s key :
  skip ids s -> dom key -> (forall k, k ∈ keys s ids -> compare_ key k <> 0) ->
  exists lo hi ids' s', ids = lo ++ hi /\ Insert compare_ key s = Ret tt s' /\ skip ids' s' /\
    keys s' ids' = keys s lo ++ key :: keys s hi.
Proof using HK.
  intros H Hd Hne. destruct (cut ids s key H Hd) as (lo & hi & -> & Hlo & Hhi).
  destruct (FindGreaterOrEqual_run lo hi s key H Hlo Hhi) as (prev & Hf & Hlen & Hprev).
  destruct (RandomHeight_run s) as (h & r & Hr & Hh). pose proof (s_max _ _ H) as Hm.
  set (prev' := if (max_height_ s <? h)%nat then fill_prev prev (max_height_ s) h else prev).
  set (s2 := mkSkipList (nodes s ++ [mkNode (Some key) (replicate h None)]) (Nat.max (max_height_ s) h) r).
  assert (forall y k, y ∈ hi -> key_at (nodes s) y = Some k -> compare_ key k <> 0) as Hne'.
  { intros y k Hy Hk. apply Hne, elem_of_keys. exists y. split; [apply elem_of_app; by right|done]. }
  destruct (link_run lo hi (length (nodes s)) (nodes s2) (new_nodup s lo hi H) prev' h 0 s2) as (ns2 & Hl & Hsh & Hnew & Hold).
  - intros j Hj. simpl in Hj. unfold prev'. destruct (Nat.ltb_spec (max_height_ s) h).
    + rewrite fill_prev_lookup by (rewrite Hlen; lia). case_decide.
      * exists 0%nat. split; [done|]. apply (pred_head s lo hi key h H). lia.
      * destruct (Hprev j) as (p & Hp & Hpr); [lia|]. exists p. split; [done|]. by apply (pred_new s lo hi key h H).
    + destruct (Hprev j) as (p & Hp & Hpr); [lia|]. exists p. split; [done|]. by apply (pred_new s lo hi key h H).
  - simpl. by rewrite new_height.
  - done.
  - lia.
  - intros l Hl. simpl. apply (old_levels s lo hi key h H). lia.
  - simpl. lia.
  - exists lo, hi, (lo ++ length (nodes s) :: hi), (put_nodes ns2 s2). split_and!; [done| | |].
    + unfold Insert, bind at 1. rewrite Hf. unfold bind at 1.
      assert ((match head hi with None => ret tt | Some y => k <- node_key y ;; assert_ (negb (Equal compare_ key k)) end) s = Ret tt s) as ->.
      { destruct hi as [|y hi']; [done|]. simpl. destruct (s_node _ _ H y) as (k & Hk & _); [apply elem_of_app; right; by left|].
        unfold bind. rewrite (node_key_run s y k Hk). unfold Equal.
        destruct (Z.eqb_spec (compare_ key k) 0) as [E|]; [|done]. exfalso. by apply (Hne' y k); [left| |]. }
      unfold bind at 1. rewrite Hr. unfold bind at 1, GetMaxHeight, gets. simpl max_height_. unfold bind at 1.
      assert ((if (max_height_ s <? h)%nat then modify (put_height h) ;;; ret (fill_prev prev (max_height_ s) h) else ret prev)
        (put_rnd r s) = Ret prev' (mkSkipList (nodes s) (Nat.max (max_height_ s) h) r)) as ->.
      { unfold prev', bind, modify, ret. destruct (Nat.ltb_spec (max_height_ s) h); [by rewrite Nat.max_r by lia|by rewrite Nat.max_l by lia]. }
      unfold NewNode, bind, get_state, modify, ret. exact Hl.
    + by apply (skip_insert s lo hi key h H ns2 r).
    + rewrite keys_app. change (length (nodes s) :: hi) with ([length (nodes s)] ++ hi). rewrite keys_app.
      destruct Hsh as [_ Sk]. simpl in Sk.
      rewrite (keys_ext s (put_nodes ns2 s2) lo), (keys_ext s (put_nodes ns2 s2) hi).
      * simpl. unfold keys at 2. simpl. rewrite Sk, new_key. done.
      * intros z Hz. simpl. rewrite Sk. apply (old_key s lo hi key h H), elem_of_app. by right.
      * intros z Hz. simpl. rewrite Sk. apply (old_key s lo hi key h H), elem_of_app. by left.
Qed.

(** [Seek] stops at the first key that is not below the target. *)
Lemma skip_Seek_run ids s key :
  skip ids s -> dom key ->
  exists lo hi, ids = lo ++ hi /\ iter_Seek compare_ key s = Ret (head hi) s /\
    (forall y, y ∈ lo -> below s key y) /\ (forall y, y ∈ hi -> not_below s key y).
Proof using HK.
  intros H Hd. destruct (cut ids s key H Hd) as (lo & hi & -> & Hlo & Hhi).
  destruct (FindGreaterOrEqual_run lo hi s key H Hlo Hhi) as (prev & Hf & _).
  exists lo, hi. split_and!; [done| |done..]. unfold iter_Seek, bind. by rewrite Hf.
Qed.

Lemma Contains_run ids s key :
  skip ids s -> dom key ->
  exists b, Contains compare_ key s = Ret b s /\ (b = true <-> exists k, k ∈ keys s ids /\ compare_ key k = 0).
Proof using HK.
  intros H Hd. destruct (cut ids s key H Hd) as (lo & hi & -> & Hlo & Hhi).
  destruct (FindGreaterOrEqual_run lo hi s key H Hlo Hhi) as (prev & Hf & _).
  unfold Contains, bind. rewrite Hf.
  assert (forall k, (exists y, y ∈ lo /\ key_at (nodes s) y = Some k) -> compare_ key k <> 0) as Hl.
  { intros k (y & Hy & Hk). destruct (Hlo y Hy) as (k' & Hk' & Hlt).
    destruct (s_node _ _ H y) as (k2 & Hk2 & Hdk); [apply elem_of_app; by left|].
    rewrite Hk in Hk', Hk2. injection Hk' as <-. injection Hk2 as <-. apply (ko_flip k key Hdk Hd) in Hlt. lia. }
  destruct hi as [|y hi']; simpl.
  { exists false. split; [done|]. split; [done|]. intros (k & Hk & E). apply elem_of_keys in Hk as (x & Hx & Hk).
    rewrite app_nil_r in Hx. by destruct (Hl k ltac:(eauto)). }
  destruct (s_node _ _ H y) as (ky & Hky & Hdy); [apply elem_of_app; right; by left|].
  rewrite (node_key_run s y ky Hky). exists (Equal compare_ key ky). split; [done|]. unfold Equal. rewrite Z.eqb_eq. split.
  - intros E. exists ky. split; [|done]. apply elem_of_keys. exists y. split; [apply elem_of_app; right; by left|done].
  - intros (k & Hk & E). apply elem_of_keys in Hk as (x & [Hx|Hx]%elem_of_app & Hk); [by destruct (Hl k ltac:(eauto))|].
    apply elem_of_cons in Hx as [->|Hx]; [by simplify_eq|].
    pose proof (s_sorted _ _ H) as Hs. apply StronglySorted_app_1_r, StronglySorted_cons in Hs as [Hall _].
    rewrite list.Forall_forall in Hall. pose proof (Hall x Hx ky k Hky Hk) as Hlt.
    destruct (s_node _ _ H x) as (k2 & Hk2 & Hdk); [apply elem_of_app; right; by right|].
    destruct (Hhi y) as (k' & Hk' & Hge); [by left|].
    rewrite Hk in Hk2. rewrite Hky in Hk'. injection Hk2 as <-. injection Hk' as <-.
    destruct (Z.lt_trichotomy (compare_ key ky) 0) as [Hlt'|[|Hgt]]; [|done|].
    + pose proof (ko_trans key ky k Hd Hdy Hdk Hlt' Hlt). lia.
    + apply (ko_flip ky key Hdy Hd) in Hgt. lia.
Qed.

(** Walking forwards and backwards. *)
Fixpoint walk (fuel : nat) (next : option nat -> prog (@SkipList Key) (option nat)) (node : option nat) :
    prog (@SkipList Key) (list Key) :=
  match fuel with
  | O => undefined Unfinished
  | S fuel' =>
      if iter_Valid node then
        k <- iter_key node ;;
        node <- next node ;;
        ks <- walk fuel' next node ;;
        ret (k :: ks)
      else ret []
  end.

Lemma walk_run next s ids fuel :
  (length ids < fuel)%nat -> (forall x, x ∈ ids -> exists k, key_at (nodes s) x = Some k) ->
  (forall a x b, ids = a ++ x :: b -> next (Some x) s = Ret (head b) s) ->
  walk fuel next (head ids) s = Ret (keys s ids) s.
Proof.
  revert fuel. induction ids as [|x ids IH]; intros [|fuel] Hf Hn Hx; simpl in Hf; try lia; [done|].
  destruct (Hn x) as [k Hk]; [by left|]. cbn [walk head]. change (iter_Valid (Some x)) with true. cbv iota.
  assert (iter_key (Some x) s = Ret k s) as Hik by (unfold iter_key, bind; simpl; by rewrite (node_key_run s x k Hk)).
  unfold bind. rewrite Hik.
  rewrite (Hx [] x ids) by done. rewrite IH.
  - unfold ret, keys. csimpl. by rewrite Hk.
  - lia.
  - intros y Hy. apply Hn. by right.
  - intros a y b ->. by apply (Hx (x :: a)).
Qed.

Lemma iter_Next_run ids s a x b :
  skip ids s -> ids = a ++ x :: b -> iter_Next (Some x) s = Ret (head b) s.
Proof.
  intros H ->. unfold iter_Next, bind. simpl deref. unfold ret. apply node_Next_run.
  pose proof (s_chain _ _ H 0%nat ltac:(unfold kMaxHeight; lia)) as Hc.
  rewrite <- (app_nil_l (a ++ x :: b)) in H, Hc. rewrite (level0 s [] (a ++ x :: b) H) in Hc by done.
  apply (seg_app _ (0%nat :: a)) in Hc as [_ [Hc _]]. done.
Qed.

Lemma skip_SeekToFirst_run ids s : skip ids s -> iter_SeekToFirst s = Ret (head ids) s.
Proof.
  intros H. apply node_Next_run. pose proof (s_chain _ _ H 0%nat ltac:(unfold kMaxHeight; lia)) as [Hc _].
  rewrite <- (app_nil_l ids) in H, Hc. by rewrite (level0 s [] ids H) in Hc by done.
Qed.

(** A walk from the node after [lo]. *)
Lemma forward_walk lo hi s fuel :
  skip (lo ++ hi) s -> (length hi < fuel)%nat -> walk fuel iter_Next (head hi) s = Ret (keys s hi) s.
Proof.
  intros H Hf. apply walk_run; [done| |].
  - intros x Hx. destruct (s_node _ _ H x) as (k & Hk & _); [apply elem_of_app; by right|]. eauto.
  - intros a x b ->. eapply (iter_Next_run _ s (lo ++ a)); [exact H|]. by rewrite <- app_assoc.
Qed.

Lemma last_of_node ids s xs ys :
  skip ids s -> ids = xs ++ ys -> (if (last_of xs =? head_)%nat then None else Some (last_of xs)) = list.last xs.
Proof.
  intros H ->. unfold last_of. destruct (list.last xs) as [x|] eqn:E; [|done]. simpl.
  unfold head_. destruct (Nat.eqb_spec x 0) as [->|]; [|done].
  pose proof (s_nodup _ _ H) as Hnd. apply list.NoDup_cons in Hnd as [Hn _]. destruct Hn.
  apply elem_of_app. left. by apply last_Some_elem_of.
Qed.

Lemma iter_Prev_run ids s a x b :
  skip ids s -> ids = a ++ x :: b -> iter_Prev compare_ (Some x) s = Ret (list.last a) s.
Proof using HK.
  intros H E. destruct (s_node _ _ H x) as (k & Hk & Hd); [rewrite E; apply elem_of_app; right; by left|].
  pose proof (s_sorted _ _ H) as Hs. pose proof (ids_small _ _ H) as Hl. rewrite E in Hs, Hl. rewrite length_app in Hl.
  assert (forall y, y ∈ a -> below s k y) as Hlo.
  { intros y Hy. destruct (s_node _ _ H y) as (k' & Hk' & Hd'); [rewrite E; apply elem_of_app; by left|].
    exists k'. split; [done|]. eapply (StronglySorted_app_1_elem_of _ _ _ y x Hs Hy); [by left|done|done]. }
  assert (forall y, y ∈ x :: b -> not_below s k y) as Hhi.
  { intros y Hy. destruct (s_node _ _ H y) as (k' & Hk' & Hd'); [rewrite E; apply elem_of_app; by right|].
    exists k'. split; [done|]. apply elem_of_cons in Hy as [->|Hy]; [rewrite Hk in Hk'; injection Hk' as <-; pose proof (ko_flip k k Hd Hd); lia|].
    apply StronglySorted_app_1_r, StronglySorted_cons in Hs as [Hall _]. rewrite list.Forall_forall in Hall.
    pose proof (Hall y Hy k k' Hk Hk') as Hlt. apply (ko_flip k k' Hd Hd') in Hlt. lia. }
  unfold iter_Prev, bind. simpl deref. unfold ret at 1. rewrite (node_key_run s x k Hk).
  unfold FindLessThan, bind, get_state, GetMaxHeight, gets. pose proof (s_max _ _ H).
  rewrite (find_less_run s a (x :: b) ltac:(by rewrite <- E) k _ 0 a (max_height_ s - 1) Hlo Hhi);
    [|by left|unfold kMaxHeight in *; lia|rewrite (s_head _ _ H); lia|unfold search_fuel; lia].
  unfold ret. f_equal. by apply (last_of_node ids s a (x :: b)).
Qed.

Lemma skip_SeekToLast_run ids s : skip ids s -> iter_SeekToLast s = Ret (list.last ids) s.
Proof.
  intros H. pose proof (s_max _ _ H). pose proof (ids_small _ _ H).
  unfold iter_SeekToLast, FindLast, bind, get_state, GetMaxHeight, gets. pose proof H as H'. rewrite <- (app_nil_r ids) in H'.
  rewrite (find_last_run s ids [] H' _ 0 ids (max_height_ s - 1)); [|done|by left|unfold kMaxHeight in *; lia|rewrite (s_head _ _ H); lia|unfold search_fuel; lia].
  unfold ret. f_equal. apply (last_of_node ids s ids []); [done|by rewrite app_nil_r].
Qed.

Lemma backward_walk ids s fuel :
  skip ids s -> (length ids < fuel)%nat ->
  (node <- iter_SeekToLast ;; walk fuel (iter_Prev compare_) node) s = Ret (reverse (keys s ids)) s.
Proof using HK.
  intros H Hf. unfold bind. rewrite (skip_SeekToLast_run ids s H), <- (head_reverse ids).
  rewrite <- keys_reverse.
  apply walk_run.
  - by rewrite length_reverse.
  - intros x Hx. rewrite elem_of_reverse in Hx. destruct (s_node _ _ H x Hx) as (k & Hk & _). eauto.
  - intros a x b E. rewrite <- last_reverse. apply (iter_Prev_run ids s (reverse b) x (reverse a) H).
    rewrite <- (reverse_involutive ids), E, reverse_app, reverse_cons, <- app_assoc. done.
Qed.

(** ** A skip list is a sorted set *)

Fixpoint insert_all (ks : list Key) : prog (@SkipList Key) unit :=
  match ks with
  | [] => ret tt
  | k :: ks' => Insert compare_ k ;;; insert_all ks'
  end.

Lemma skip_new : skip [] (SkipList_new : @SkipList Key).
Proof.
  split; try done.
  - apply list.NoDup_singleton.
  - intros x Hx. by apply elem_of_nil in Hx.
  - intros x Hx. by apply elem_of_nil in Hx.
  - constructor.
  - simpl. unfold kMaxHeight. lia.
  - intros l Hl. unfold kMaxHeight in Hl. split; [|done]. do 12 (destruct l as [|l]; [done|]). lia.
Qed.

Lemma length_keys ids s : skip ids s -> length (keys s ids) = length ids.
Proof.
  intros H. pose proof (s_node _ _ H) as Hn. clear H. induction ids as [|x ids IH]; [done|].
  destruct (Hn x) as (k & Hk & _); [by left|]. unfold keys in *. csimpl. rewrite Hk. simpl. f_equal.
  apply IH. intros y Hy. apply Hn. by right.
Qed.

Lemma filter_keys lo hi s key :
  (forall y, y ∈ lo -> below s key y) -> (forall y, y ∈ hi -> not_below s key y) ->
  filter (fun k => 0 <= compare_ k key) (keys s (lo ++ hi)) = keys s hi.
Proof.
  intros Hlo Hhi. rewrite keys_app, list.filter_app.
  assert (filter (fun k => 0 <= compare_ k key) (keys s lo) = []) as ->.
  { clear Hhi. induction lo as [|x lo IH]; [done|]. destruct (Hlo x) as (k & Hk & Hlt); [by left|].
    unfold keys in *. csimpl. rewrite Hk, filter_cons_False by lia. apply IH. intros y Hy. apply Hlo. by right. }
  apply filter_id. intros k Hk. apply elem_of_keys in Hk as (y & Hy & Hk).
  destruct (Hhi y Hy) as (k' & Hk' & Hge). by simplify_eq.
Qed.

(** The keys are in order. *)
Lemma keys_sorted ids s : skip ids s -> StronglySorted (fun a b => compare_ a b < 0) (keys s ids).
Proof.
  intros H. pose proof (s_sorted _ _ H) as Hs. clear H. induction Hs as [|x xs Hs IH Hx]; [constructor|].
  unfold keys. csimpl. destruct (key_at (nodes s) x) as [k|] eqn:E; [|done].
  apply StronglySorted_cons. split; [|done]. apply list.Forall_forall. intros k' Hk'.
  apply elem_of_keys in Hk' as (y & Hy & Hk'). rewrite list.Forall_forall in Hx. by eapply (Hx y Hy).
Qed.

Definition distinct (ks : list Key) : Prop := ForallOrdPairs (fun a b => compare_ b a <> 0) ks.

Lemma insert_all_run ks : forall ids s,
  skip ids s -> Forall dom ks -> distinct ks -> (forall k k', k ∈ ks -> k' ∈ keys s ids -> compare_ k k' <> 0) ->
  exists ids' s', insert_all ks s = Ret tt s' /\ skip ids' s' /\ keys s' ids' ≡ₚ ks ++ keys s ids.
Proof using HK.
  induction ks as [|k ks IH]; intros ids s H Hd Hdis Hne; [by exists ids, s|].
  apply Forall_cons_1 in Hd as [Hdk Hd]. inversion Hdis as [|? ? Hk Hdis']; subst.
  destruct (Insert_run ids s k H Hdk) as (lo & hi & ids1 & s1 & -> & Hi & H1 & Hk1); [intros k' Hk'; by apply Hne; [left|]|].
  assert (keys s1 ids1 ≡ₚ k :: keys s (lo ++ hi)) as Hp by (rewrite Hk1, keys_app; symmetry; apply Permutation_middle).
  destruct (IH ids1 s1 H1 Hd Hdis') as (ids' & s' & Hr & H' & Hp').
  - intros a b Ha Hb. rewrite Hp in Hb. apply elem_of_cons in Hb as [->|Hb]; [|by apply Hne; [right|]].
    rewrite list.Forall_forall in Hk. by apply Hk.
  - exists ids', s'. split_and!; [|done|].
    + simpl. unfold bind. by rewrite Hi.
    + rewrite Hp', Hp. simpl. symmetry. apply Permutation_middle.
Qed.
End proofs.

(** C29: A skip list into which keys that compare different were inserted one after the
    other, whatever heights the random numbers gave their nodes, is the sorted list of
    these keys: no assertion fails, [Contains] tells whether an equal key was inserted,
    [Seek] stops at the first key that is not below its target, a walk with
    [SeekToFirst] and [Next] gives the keys in order and a walk with [SeekToLast] and
    [Prev] in reverse. *)
Theorem skiplist_is_sorted_list {Key} (compare_ : Key -> Key -> Z) (dom : Key -> Prop) {HK : KeyOrder compare_ dom} (ks : list Key) :
  Forall dom ks -> distinct compare_ ks ->
  exists s sorted,
    insert_all compare_ ks SkipList_new = Ret tt s /\
    sorted ≡ₚ ks /\ StronglySorted (fun a b => compare_ a b < 0) sorted /\
    (forall key, dom key -> exists b, Contains compare_ key s = Ret b s /\ (b = true <-> exists k, k ∈ ks /\ compare_ key k = 0)) /\
    (forall key, dom key -> exists node, iter_Seek compare_ key s = Ret node s /\
       walk (S (length ks)) iter_Next node s = Ret (filter (fun k => 0 <= compare_ k key) sorted) s) /\
    (node <- iter_SeekToFirst ;; walk (S (length ks)) iter_Next node) s = Ret sorted s /\
    (node <- iter_SeekToLast ;; walk (S (length ks)) (iter_Prev compare_) node) s = Ret (reverse sorted) s.
Proof.
  intros Hd Hdis. destruct (insert_all_run compare_ dom ks [] SkipList_new (skip_new compare_ dom) Hd Hdis) as (ids & s & Hi & H & Hp).
  { intros k k' _ Hk'. by apply elem_of_nil in Hk'. }
  rewrite app_nil_r in Hp.
  assert (length ids = length ks) as Hl by (rewrite <- Hp; symmetry; by apply (length_keys compare_ dom)).
  exists s, (keys s ids). split_and!; [done|done|by eapply keys_sorted| | | |].
  - intros key Hkey. destruct (Contains_run compare_ dom ids s key H Hkey) as (b & Hb & Hiff). exists b. split; [done|].
    rewrite Hiff. setoid_rewrite Hp. done.
  - intros key Hkey. destruct (skip_Seek_run compare_ dom ids s key H Hkey) as (lo & hi & -> & Hs & Hlo & Hhi).
    exists (head hi). split; [done|]. rewrite (forward_walk compare_ dom lo hi) by (rewrite length_app in Hl; done || lia).
    f_equal. symmetry. by apply (filter_keys compare_).
  - unfold bind. rewrite (skip_SeekToFirst_run compare_ dom ids s H). rewrite (forward_walk compare_ dom [] ids s); [done..|lia].
  - apply (backward_walk compare_ dom); [done|lia].
Qed.

#[global] Instance Z_key_order : KeyOrder Z.sub (fun _ => True).
Proof. split; lia. Qed.

Lemma skiplist_is_sorted_list_witness :
  exists s sorted, insert_all Z.sub [5; 3; 9; 1] SkipList_new = Ret tt s /\ sorted ≡ₚ [5; 3; 9; 1] /\
    (node <- iter_SeekToLast ;; walk 5 (iter_Prev Z.sub) node) s = Ret (reverse sorted) s.
Proof.
  destruct (skiplist_is_sorted_list Z.sub (fun _ => True) [5; 3; 9; 1]) as (s & sorted & H1 & H2 & _ & _ & _ & _ & H3).
  - by repeat constructor.
  - repeat constructor; lia.
  - exists s, sorted. exact (conj H1 (conj H2 H3)).
Defined.
