(* ===== verification/MemTable.v ===== *)
(** The memtable: [src/lib/leveldb/db/memtable.cc] and [memtable.h], with the handler of
    [write_batch.cc] that applies a batch to it.

    A key of the skip list is a pointer to an entry in the arena; entries do not change,
    so the key is the bytes from there on. What [GetVarint32Ptr] would return as NULL,
    which the code takes not to happen, has length 0 here; the domain of the order,
    [mem_key_ok], excludes it. The size of the arena is left out. *)

From stdpp Require Import sorting.
From S2P Require Import Prelude Coding WriteBatch Comparator DbFormat SkipList SkipListOk.

Set Default Proof Using "Type".

(** [GetLengthPrefixedSlice (data)] and what follows the slice. *)
Definition prefixed (data : bytes) : bytes * bytes :=
  match GetVarint32Ptr (take 5 data) with
  | Some (len, rest) =>
      let p := drop (length (take 5 data) - length rest) data in
      (take (Z.to_nat len) p, drop (Z.to_nat len) p)
  | None => ([], [])
  end.

Section memtable.
Context (user : Comparator).    (* of [comparator_.comparator] *)

Definition KeyComparator (aptr bptr : bytes) : Z :=
  Compare (InternalKeyComparator user) (fst (prefixed aptr)) (fst (prefixed bptr)).

Record MemTable : Type := mkMemTable { refs_ : Z; table_ : @SkipList bytes }.
Abbreviation mem_prog := (prog MemTable).

Definition MemTable_new : MemTable := mkMemTable 0 SkipList_new.

Definition Ref : mem_prog unit := modify (fun m => mkMemTable (refs_ m + 1) (table_ m)).

(** [Unref]: whether the memtable was deleted. *)
Definition Unref : mem_prog bool :=
  modify (fun m => mkMemTable (refs_ m - 1) (table_ m)) ;;;
  m <- get_state ;;
  assert_ (refs_ m >=? 0) ;;;
  ret (refs_ m <=? 0).

Definition on_table {A} (p : prog (@SkipList bytes) A) : mem_prog A :=
  zoom table_ (fun t m => mkMemTable (refs_ m) t) p.

Definition EncodeKey (target : bytes) : bytes := PutVarint32 [] (u32 (Z.of_nat (length target))) ++ target.

(** The bytes of an entry. *)
Definition entry_buf (s type : Z) (key value : bytes) : bytes :=
  EncodeVarint32 (u32 (Z.of_nat (length key + 8))) ++ key ++
  EncodeFixed64 (Z.lor (u64 (Z.shiftl s 8)) type) ++
  EncodeVarint32 (u32 (Z.of_nat (length value))) ++ value.

Definition MemTable_Add (s type : Z) (key value : bytes) : mem_prog unit :=
  let internal_key_size := Z.of_nat (length key + 8) in
  let val_size := Z.of_nat (length value) in
  let encoded_len := VarintLength internal_key_size + internal_key_size + VarintLength val_size + val_size in
  let buf := entry_buf s type key value in
  assert_ (Z.of_nat (length buf) =? encoded_len) ;;;
  on_table (Insert KeyComparator buf).

(** [false], or [true] with the value or with a NotFound status *)
Definition MemTable_Get (key : LookupKey) : mem_prog (option (option bytes)) :=
  node <- on_table (iter_Seek KeyComparator (memtable_key key)) ;;
  if iter_Valid node then
    entry <- on_table (iter_key node) ;;
    let '(ikey, rest) := prefixed entry in
    if Compare user (take (length ikey - 8) ikey) (DbFormat.user_key key) =? 0 then
      let tag := DecodeFixed64 (drop (length ikey - 8) ikey) in
      let t := Z.land tag 255 in
      if t =? kTypeValue then ret (Some (Some (fst (prefixed rest))))
      else if t =? kTypeDeletion then ret (Some None)
      else ret None
    else ret None
  else ret None.

(** ** The iterator *)

Definition mem_Seek (k : bytes) : mem_prog (option nat) := on_table (iter_Seek KeyComparator (EncodeKey k)).
Definition mem_SeekToFirst : mem_prog (option nat) := on_table iter_SeekToFirst.
Definition mem_SeekToLast : mem_prog (option nat) := on_table iter_SeekToLast.
Definition mem_Next (node : option nat) : mem_prog (option nat) := on_table (iter_Next node).
Definition mem_Prev (node : option nat) : mem_prog (option nat) := on_table (iter_Prev KeyComparator node).
Definition mem_key (node : option nat) : mem_prog bytes :=
  k <- on_table (iter_key node) ;; ret (fst (prefixed k)).
Definition mem_value (node : option nat) : mem_prog bytes :=
  k <- on_table (iter_key node) ;; ret (fst (prefixed (snd (prefixed k)))).

(** ** Applying a batch: [MemTableInserter]

    The state of the handler is the sequence number and the memtable, or the failure of
    an earlier call. *)

Definition inserter_add (type : Z) (key value : bytes) (st : outcome (Z * MemTable) unit) : outcome (Z * MemTable) unit :=
  match st with
  | Ret _ (sequence, mem) =>
      match MemTable_Add sequence type key value mem with
      | Ret _ mem' => Ret tt (u64 (sequence + 1), mem')
      | Exit n mem' => Exit n (sequence, mem')
      | UB w => UB w
      end
  | failed => failed
  end.

Definition MemTableInserter : Handler (outcome (Z * MemTable) unit) :=
  mkHandler (fun key value => inserter_add kTypeValue key value) (fun key => inserter_add kTypeDeletion key []).

Definition InsertInto (rep : bytes) : mem_prog Status := fun mem =>
  let '(status, st) := Iterate MemTableInserter rep (Ret tt (Sequence rep, mem)) in
  match st with
  | Ret _ (_, mem') => Ret status mem'
  | Exit n (_, mem') => Exit n mem'
  | UB w => UB w
  end.
End memtable.
