(* ===== verification/MemTableOk.v ===== *)
(** What the memtable of [MemTable] holds: a lookup at a snapshot finds the entry of the
    key that was added last before it, and a batch applied to it is the sequence of its
    operations. *)

From stdpp Require Import sorting.
From S2P Require Import Prelude Coding WriteBatch Comparator DbFormat SkipList SkipListOk MemTable.

Set Default Proof Using "Type".

(** ** Entries *)

Record add : Type := mkAdd { a_seq : Z; a_type : Z; a_key : bytes; a_value : bytes }.

Definition entry_of (a : add) : bytes := entry_buf (a_seq a) (a_type a) (a_key a) (a_value a).
Definition ikey_of (a : add) : bytes := internal (a_key a) (tag_of (a_seq a) (a_type a)).

(** A string that begins with a length-prefixed string. *)
Definition prefix_string (ik rest : bytes) : bytes := EncodeVarint32 (Z.of_nat (length ik)) ++ ik ++ rest.

Lemma length_varint32 v : (1 <= length (EncodeVarint32 v) <= 5)%nat.
Proof. unfold EncodeVarint32. repeat case_bool; simpl; lia. Qed.

Lemma prefixed_string ik rest :
  Z.of_nat (length ik) < 2 ^ 32 -> bytes_ok ik -> bytes_ok rest -> prefixed (prefix_string ik rest) = (ik, rest).
Proof.
  intros Hl Hi Hr. unfold prefixed, prefix_string. set (e := EncodeVarint32 _).
  assert (1 <= length e <= 5)%nat as He by apply length_varint32.
  rewrite take_app_ge by lia.
  pose proof (GetVarint32_encode (Z.of_nat (length ik)) (take (5 - length e) (ik ++ rest))) as Hg.
  unfold GetVarint32 in Hg. fold e in Hg. rewrite Hg by (lia || (apply bytes_ok_take, bytes_ok_app; done)).
  rewrite length_app, Nat.add_sub, drop_app_length, Nat2Z.id, take_app_length, drop_app_length. done.
Qed.

Lemma EncodeVarint64_loop_more n m v :
  0 <= v < 2 ^ (7 * Z.of_nat n) -> (0 < n <= m)%nat -> EncodeVarint64_loop m v = EncodeVarint64_loop n v.
Proof.
  revert m v. induction n as [|n IH]; intros m v Hv Hm; [lia|]. destruct m as [|m]; [lia|].
  cbn [EncodeVarint64_loop]. rewrite Z.geb_leb. destruct (Z.leb_spec 128 v); [|done]. f_equal.
  destruct n as [|n]; [simpl in Hv; lia|]. apply IH; [|lia]. apply shiftr_lt; [lia| |lia].
  replace (7 * Z.of_nat (S n) + 7) with (7 * Z.of_nat (S (S n))) by lia. done.
Qed.

Lemma EncodeVarint32_64 v : 0 <= v < 2 ^ 32 -> EncodeVarint32 v = EncodeVarint64 v.
Proof.
  intros Hv. rewrite EncodeVarint32_loop by done. symmetry. apply EncodeVarint64_loop_more; [|lia].
  change (7 * Z.of_nat 5) with 35. lia.
Qed.

Section ok.
Context (user : Comparator) (dom : bytes -> Prop) {Hc : ComparatorOk user dom}.

#[local] Abbreviation cmp := (KeyComparator user).

(** Keys of the skip list, entries and lookup keys. *)
Definition mem_key_ok (k : bytes) : Prop :=
  exists ik rest, k = prefix_string ik rest /\ internal_ok dom ik /\ Z.of_nat (length ik) < 2 ^ 32 /\ bytes_ok ik /\ bytes_ok rest.

Lemma mem_key_prefix k : mem_key_ok k -> internal_ok dom (fst (prefixed k)).
Proof using Type. intros (ik & rest & -> & Hi & Hl & Hb & Hr). by rewrite prefixed_string. Qed.

#[global] Instance mem_key_order : KeyOrder cmp mem_key_ok.
Proof using Hc.
  split; unfold KeyComparator.
  - intros a b Ha%mem_key_prefix Hb%mem_key_prefix. by apply (cmp_flip (c:=InternalKeyComparator user) (dom:=internal_ok dom)).
  - intros a b c Ha%mem_key_prefix Hb%mem_key_prefix Hd%mem_key_prefix.
    by apply (cmp_trans (c:=InternalKeyComparator user) (dom:=internal_ok dom)).
Qed.

Record add_ok (a : add) : Prop := {
  ao_seq : seq_ok (a_seq a);
  ao_type : type_ok (a_type a);
  ao_key : bytes_ok (a_key a);
  ao_dom : dom (a_key a);
  ao_value : bytes_ok (a_value a);
  ao_klen : Z.of_nat (length (a_key a) + 8) < 2 ^ 32;
  ao_vlen : Z.of_nat (length (a_value a)) < 2 ^ 32 }.

Lemma entry_prefix a :
  add_ok a -> entry_of a = prefix_string (ikey_of a) (prefix_string (a_value a) []).
Proof using Type.
  intros [Hs Ht _ _ _ Hk Hv]. unfold entry_of, entry_buf, prefix_string, ikey_of. rewrite length_internal, app_nil_r.
  rewrite !u32_small by lia. unfold internal. unfold seq_ok, type_ok in *.
  rewrite u64_small by (rewrite Z.shiftl_mul_pow2; lia). rewrite tag_of_lor by lia. by rewrite <- !app_assoc.
Qed.

Lemma ikey_internal_ok a : add_ok a -> internal_ok dom (ikey_of a).
Proof using Type.
  intros H. unfold ikey_of. split.
  - rewrite length_internal. lia.
  - rewrite user_internal. apply H.
  - unfold tag_bytes. rewrite length_internal, Nat.add_sub. unfold internal. rewrite drop_app_length. apply le_bytes_ok.
Qed.

Lemma ikey_bytes_ok u tag : bytes_ok u -> bytes_ok (internal u tag).
Proof using Type. intros Hu. apply bytes_ok_app. split; [done|apply le_bytes_ok]. Qed.

Lemma value_prefix_ok a : add_ok a -> bytes_ok (prefix_string (a_value a) []).
Proof using Type.
  intros H. unfold prefix_string. rewrite !bytes_ok_app. split_and!; [|apply H|constructor].
  apply EncodeVarint32_ok. pose proof (ao_vlen _ H). lia.
Qed.

Lemma entry_prefixed a : add_ok a -> prefixed (entry_of a) = (ikey_of a, prefix_string (a_value a) []).
Proof using Type.
  intros H. rewrite entry_prefix by done. apply prefixed_string.
  - unfold ikey_of. rewrite length_internal. apply H.
  - apply ikey_bytes_ok, H.
  - by apply value_prefix_ok.
Qed.

Lemma entry_mem_ok a : add_ok a -> mem_key_ok (entry_of a).
Proof using Type.
  intros H. exists (ikey_of a), (prefix_string (a_value a) []). split_and!.
  - by apply entry_prefix.
  - by apply ikey_internal_ok.
  - unfold ikey_of. rewrite length_internal. apply H.
  - apply ikey_bytes_ok, H.
  - by apply value_prefix_ok.
Qed.

(** The order of two entries. *)
Lemma entry_lt a k :
  add_ok a -> mem_key_ok k ->
  cmp (entry_of a) k < 0 <->
  Compare user (a_key a) (ExtractUserKey (fst (prefixed k))) < 0 \/
  (a_key a = ExtractUserKey (fst (prefixed k)) /\ DecodeFixed64 (tag_bytes (fst (prefixed k))) < tag_of (a_seq a) (a_type a)).
Proof using Hc.
  intros Ha Hk. unfold KeyComparator. cbn [Compare InternalKeyComparator]. rewrite (entry_prefixed a Ha). cbn [fst].
  rewrite (internal_lt user dom); [|apply (ik_user _ _ (ikey_internal_ok a Ha))|apply (ik_user _ _ (mem_key_prefix k Hk))].
  unfold ikey_of. rewrite user_internal, tag_internal by (apply tag_range; apply Ha). done.
Qed.

Lemma entry_user a : add_ok a -> ExtractUserKey (fst (prefixed (entry_of a))) = a_key a.
Proof using Type. intros H. rewrite entry_prefixed by done. apply user_internal. Qed.

Lemma entry_tag a : add_ok a -> DecodeFixed64 (tag_bytes (fst (prefixed (entry_of a)))) = tag_of (a_seq a) (a_type a).
Proof using Type. intros H. rewrite entry_prefixed by done. apply tag_internal, tag_range; apply H. Qed.

Lemma entry_equal a b : add_ok a -> add_ok b -> cmp (entry_of a) (entry_of b) = 0 -> a_key a = a_key b /\ a_seq a = a_seq b.
Proof using Hc.
  intros Ha Hb H. unfold KeyComparator in H.
  apply (cmp_eq (c:=InternalKeyComparator user) (dom:=internal_ok dom)) in H; [|by apply mem_key_prefix, entry_mem_ok..].
  rewrite !entry_prefixed in H by done. simpl in H.
  pose proof (f_equal ExtractUserKey H) as Hu. pose proof (f_equal (fun k => DecodeFixed64 (tag_bytes k)) H) as Ht.
  unfold ikey_of in Hu, Ht. simpl in Ht. rewrite !user_internal in Hu.
  rewrite !tag_internal in Ht by (apply tag_range; first [apply Ha|apply Hb]).
  split; [done|]. by apply tag_of_inj in Ht as [? _]; [|apply Ha|apply Hb].
Qed.

(** An entry that does not come after another of the same key is as new. *)
Lemma after_user a b :
  add_ok a -> add_ok b -> cmp (entry_of a) (entry_of b) <= 0 ->
  Compare user (a_key a) (a_key b) < 0 \/ a_key a = a_key b.
Proof using Hc.
  intros Ha Hb Hle. destruct (Z.eq_dec (cmp (entry_of a) (entry_of b)) 0) as [E|].
  - right. by apply entry_equal in E as [? _].
  - assert (cmp (entry_of a) (entry_of b) < 0) as H by lia. apply entry_lt in H; [|done|by apply entry_mem_ok].
    rewrite entry_user in H by done. destruct H as [H|[H _]]; [by left|by right].
Qed.

Lemma after_seq a b :
  add_ok a -> add_ok b -> a_key a = a_key b -> cmp (entry_of a) (entry_of b) <= 0 -> a_seq b <= a_seq a.
Proof using Hc.
  intros Ha Hb Hk Hle. destruct (Z.eq_dec (cmp (entry_of a) (entry_of b)) 0) as [E|].
  - apply entry_equal in E as [_ ->]; done.
  - assert (cmp (entry_of a) (entry_of b) < 0) as H by lia. apply entry_lt in H; [|done|by apply entry_mem_ok].
    rewrite entry_user, entry_tag in H by done. destruct H as [H|[_ H]].
    + rewrite Hk, (cmp_refl user dom _ (ao_dom _ Hb)) in H. lia.
    + pose proof (ao_type _ Ha). pose proof (ao_type _ Hb). unfold tag_of, type_ok in *. lia.
Qed.

(** ** What a memtable holds *)

Definition holds (adds : list add) (m : MemTable) : Prop :=
  exists ids, skip cmp mem_key_ok ids (table_ m) /\ keys (table_ m) ids ≡ₚ entry_of <$> adds.

Lemma holds_new : holds [] MemTable_new.
Proof using Type. exists []. split; [apply skip_new|done]. Qed.

Lemma entry_length a :
  add_ok a ->
  Z.of_nat (length (entry_of a)) =
  VarintLength (Z.of_nat (length (a_key a) + 8)) + Z.of_nat (length (a_key a) + 8) +
  VarintLength (Z.of_nat (length (a_value a))) + Z.of_nat (length (a_value a)).
Proof using Type.
  intros [_ _ _ _ _ Hk Hv]. rewrite !VarintLength_correct by lia. unfold entry_of, entry_buf.
  rewrite !u32_small by lia. rewrite !length_app, !EncodeVarint32_64 by lia. unfold EncodeFixed64. rewrite length_le_bytes. lia.
Qed.

Lemma mem_Add_run adds a m :
  holds adds m -> Forall add_ok adds -> add_ok a ->
  (forall b, b ∈ adds -> a_key b = a_key a -> a_seq b <> a_seq a) ->
  exists m', MemTable_Add user (a_seq a) (a_type a) (a_key a) (a_value a) m = Ret tt m' /\
    holds (adds ++ [a]) m' /\ refs_ m' = refs_ m.
Proof using Hc.
  intros (ids & Hs & Hk) Hok Ha Hne. rewrite list.Forall_forall in Hok.
  destruct (Insert_run cmp mem_key_ok ids (table_ m) (entry_of a) Hs (entry_mem_ok a Ha)) as (lo & hi & ids' & t' & -> & Hi & Hs' & Hk').
  { intros k Hin E. rewrite Hk in Hin. apply list_elem_of_fmap in Hin as (b & -> & Hb).
    apply entry_equal in E as [E1 E2]; [|done|by apply Hok]. by apply (Hne b Hb). }
  exists (mkMemTable (refs_ m) t'). split_and!; [| |done].
  - unfold MemTable_Add, bind. change (entry_buf (a_seq a) (a_type a) (a_key a) (a_value a)) with (entry_of a).
    rewrite entry_length, Z.eqb_refl by done. simpl assert_. unfold ret, on_table. by apply (zoom_Ret table_ (fun t m => mkMemTable (refs_ m) t) _ m tt t').
  - exists ids'. split; [done|]. simpl. rewrite Hk', fmap_app. simpl. rewrite <- Hk, keys_app.
    rewrite <- Permutation_middle. rewrite <- Permutation_cons_append. done.
Qed.

(** ** Lookups *)

Lemma LookupKey_run {S} k s (st : S) :
  Z.of_nat (length k + 8) < 2 ^ 32 -> seq_ok s ->
  exists lk, LookupKey_new k s st = Ret lk st /\
    memtable_key lk = prefix_string (internal k (tag_of s kValueTypeForSeek)) [] /\ DbFormat.user_key lk = k.
Proof using Type.
  intros Hk Hs. unfold LookupKey_new, bind. rewrite pack_run by (done || (split; by vm_compute)).
  eexists. split; [reflexivity|]. rewrite u32_small by lia. split.
  - unfold memtable_key, prefix_string. rewrite length_internal. simpl. by rewrite app_nil_r.
  - unfold DbFormat.user_key, slice. cbn [lk_start lk_kstart]. rewrite drop_app_length, !length_app.
    unfold EncodeFixed64. rewrite length_le_bytes.
    replace (_ - _ - 8)%nat with (length k) by lia. by rewrite take_app_length.
Qed.

(** The entry of the key that was added last up to [s]. *)
Definition is_latest (k : bytes) (s : Z) (adds : list add) (a : add) : Prop :=
  a ∈ adds /\ a_key a = k /\ a_seq a <= s /\ forall b, b ∈ adds -> a_key b = k -> a_seq b <= s -> a_seq b <= a_seq a.

Definition visible (a : add) : option bytes := if a_type a =? kTypeValue then Some (a_value a) else None.

Lemma lookup_mem_ok k s :
  dom k -> bytes_ok k -> Z.of_nat (length k + 8) < 2 ^ 32 -> seq_ok s ->
  let target := prefix_string (internal k (tag_of s kValueTypeForSeek)) [] in
  mem_key_ok target /\ ExtractUserKey (fst (prefixed target)) = k /\
  DecodeFixed64 (tag_bytes (fst (prefixed target))) = tag_of s kValueTypeForSeek.
Proof using Type.
  intros Hd Hb Hl Hs target.
  assert (prefixed target = (internal k (tag_of s kValueTypeForSeek), [])) as E.
  { apply prefixed_string; [by rewrite length_internal|by apply ikey_bytes_ok|constructor]. }
  rewrite E. cbn [fst]. rewrite user_internal, tag_internal by (apply tag_range; [done|split; by vm_compute]).
  split_and!; [|done|done]. eexists _, _. split; [reflexivity|].
  split_and!; [|by rewrite length_internal|by apply ikey_bytes_ok|constructor].
  split; [rewrite length_internal; lia|by rewrite user_internal|].
  unfold tag_bytes. rewrite length_internal, Nat.add_sub. unfold internal. rewrite drop_app_length. apply le_bytes_ok.
Qed.

(** The entries below the lookup key are those before the key and the newer ones of it. *)
Lemma below_target a k s :
  add_ok a -> dom k -> bytes_ok k -> Z.of_nat (length k + 8) < 2 ^ 32 -> seq_ok s ->
  cmp (entry_of a) (prefix_string (internal k (tag_of s kValueTypeForSeek)) []) < 0 <->
  Compare user (a_key a) k < 0 \/ (a_key a = k /\ s < a_seq a).
Proof using Hc.
  intros Ha Hd Hb Hl Hs. destruct (lookup_mem_ok k s Hd Hb Hl Hs) as (Hm & Hu & Ht).
  rewrite (entry_lt a _ Ha Hm), Hu, Ht. pose proof (ao_type _ Ha) as Hty. unfold tag_of, type_ok in *.
  change kValueTypeForSeek with 1. assert (s * 256 + 1 < a_seq a * 256 + a_type a <-> s < a_seq a) as -> by lia. done.
Qed.

Lemma on_table_read {A} (p : prog (@SkipList bytes) A) m a :
  p (table_ m) = Ret a (table_ m) -> on_table p m = Ret a m.
Proof using Type. intros H. unfold on_table, zoom. rewrite H. by destruct m. Qed.

(** What [Get] does with the entry it stops at. *)
Lemma Get_entry lk m x e :
  iter_Seek cmp (memtable_key lk) (table_ m) = Ret (Some x) (table_ m) ->
  key_at (nodes (table_ m)) x = Some (entry_of e) -> add_ok e ->
  MemTable_Get user lk m =
    Ret (if Compare user (a_key e) (DbFormat.user_key lk) =? 0 then Some (visible e) else None) m.
Proof using Type.
  intros Hseek Hx He. unfold MemTable_Get, bind. rewrite (on_table_read _ _ _ Hseek).
  change (iter_Valid (Some x)) with true. cbv beta iota.
  assert (iter_key (Some x) (table_ m) = Ret (entry_of e) (table_ m)) as Hik
    by (unfold iter_key, bind; simpl; by rewrite (node_key_run _ x _ Hx)).
  rewrite (on_table_read _ _ _ Hik), (entry_prefixed e He).
  change (take (length (ikey_of e) - 8) (ikey_of e)) with (ExtractUserKey (ikey_of e)).
  change (drop (length (ikey_of e) - 8) (ikey_of e)) with (tag_bytes (ikey_of e)).
  assert (DecodeFixed64 (tag_bytes (ikey_of e)) = tag_of (a_seq e) (a_type e)) as ->
    by (apply tag_internal, tag_range; apply He).
  assert (ExtractUserKey (ikey_of e) = a_key e) as -> by apply user_internal. rewrite tag_type by apply He.
  destruct (_ =? 0); [|done]. unfold visible. destruct (ao_type _ He) as [H0 H1].
  unfold kTypeValue, kTypeDeletion. destruct (Z.eqb_spec (a_type e) 1) as [_|].
  - unfold ret. rewrite prefixed_string by first [apply He|constructor]. done.
  - destruct (Z.eqb_spec (a_type e) 0); [done|lia].
Qed.

Lemma Get_run adds m lk k s :
  holds adds m -> Forall add_ok adds -> dom k -> bytes_ok k -> Z.of_nat (length k + 8) < 2 ^ 32 -> seq_ok s ->
  memtable_key lk = prefix_string (internal k (tag_of s kValueTypeForSeek)) [] -> DbFormat.user_key lk = k ->
  (exists a, is_latest k s adds a /\ MemTable_Get user lk m = Ret (Some (visible a)) m) \/
  ((forall a, a ∈ adds -> a_key a = k -> s < a_seq a) /\ MemTable_Get user lk m = Ret None m).
Proof using Hc.
  intros (ids & Hs & Hkeys) Hok Hd Hb Hl Hsq Hmk Huk. rewrite list.Forall_forall in Hok.
  destruct (lookup_mem_ok k s Hd Hb Hl Hsq) as (Hm & _).
  destruct (skip_Seek_run cmp mem_key_ok ids (table_ m) _ Hs Hm) as (lo & hi & -> & Hseek & Hlo & Hhi). rewrite <- Hmk in Hseek.
  assert (forall a, a ∈ adds -> exists y, y ∈ lo ++ hi /\ key_at (nodes (table_ m)) y = Some (entry_of a)) as Hfind.
  { intros a Ha. apply elem_of_keys. rewrite Hkeys. apply list_elem_of_fmap. by exists a. }
  assert (forall y, y ∈ lo ++ hi -> exists e, e ∈ adds /\ key_at (nodes (table_ m)) y = Some (entry_of e)) as Hent.
  { intros y Hy. destruct (s_node _ _ _ _ Hs y Hy) as (ky & Hky & _).
    assert (ky ∈ keys (table_ m) (lo ++ hi)) as Hin by (apply elem_of_keys; eauto).
    rewrite Hkeys in Hin. apply list_elem_of_fmap in Hin as (e & -> & He). eauto. }
  assert (forall a y, a ∈ adds -> a_key a = k -> a_seq a <= s -> key_at (nodes (table_ m)) y = Some (entry_of a) -> y ∉ lo) as Hnlo.
  { intros a y Ha Hak Hsa Hy Hin. destruct (Hlo y Hin) as (k' & Hk' & Hlt). rewrite Hy in Hk'. injection Hk' as <-.
    apply (below_target a k s (Hok a Ha) Hd Hb Hl Hsq) in Hlt as [Hlt|[_ Hlt]]; [|lia].
    rewrite Hak, (cmp_refl user dom k Hd) in Hlt. lia. }
  destruct hi as [|y hi']; simpl in Hseek.
  { right. split.
    - intros a Ha Hak. destruct (Z.lt_ge_cases s (a_seq a)) as [|Hge]; [done|]. destruct (Hfind a Ha) as (y & Hy & Hky).
      rewrite app_nil_r in Hy. by destruct (Hnlo a y Ha Hak Hge Hky).
    - unfold MemTable_Get, bind. by rewrite (on_table_read _ _ _ Hseek). }
  destruct (Hent y) as (e & He & Hy); [apply elem_of_app; right; by left|]. pose proof (Hok e He) as Heok.
  assert (~ (Compare user (a_key e) k < 0 \/ (a_key e = k /\ s < a_seq e))) as Hnb.
  { rewrite <- (below_target e k s Heok Hd Hb Hl Hsq). destruct (Hhi y) as (k' & Hk' & Hge); [by left|].
    rewrite Hy in Hk'. injection Hk' as <-. lia. }
  (* every other entry of the key up to [s] comes after [e] *)
  assert (forall b, b ∈ adds -> a_key b = k -> a_seq b <= s -> cmp (entry_of e) (entry_of b) <= 0) as Hafter.
  { intros b Hbin Hbk Hbs. destruct (Hfind b Hbin) as (z & Hz & Hkz).
    apply elem_of_app in Hz as [Hz|[->|Hz]%elem_of_cons]; [by destruct (Hnlo b z Hbin Hbk Hbs Hkz)| |].
    - rewrite Hy in Hkz. injection Hkz as <-. pose proof (entry_mem_ok e Heok) as Hme.
      pose proof (ko_flip (entry_of e) (entry_of e) Hme Hme). lia.
    - pose proof (s_sorted _ _ _ _ Hs) as Hsort. apply StronglySorted_app_1_r, StronglySorted_cons in Hsort as [Hall _].
      rewrite list.Forall_forall in Hall. pose proof (Hall z Hz _ _ Hy Hkz). lia. }
  rewrite (Get_entry lk m y e Hseek Hy Heok), Huk.
  destruct (Z.eqb_spec (Compare user (a_key e) k) 0) as [E|E].
  - left. exists e. split; [|done]. apply (cmp_eq _ _ (ao_dom _ Heok) Hd) in E.
    split_and!; [done|done|destruct (Z.lt_ge_cases s (a_seq e)); [|done]; destruct Hnb; by right|].
    intros b Hbin Hbk Hbs. pose proof (Hafter b Hbin Hbk Hbs) as Hle.
    by apply (after_seq e b Heok (Hok b Hbin)); [congruence|].
  - right. split; [|done]. intros b Hbin Hbk. destruct (Z.lt_ge_cases s (a_seq b)) as [|Hbs]; [done|].
    pose proof (Hafter b Hbin Hbk Hbs) as Hle. exfalso. apply Hnb. left.
    destruct (after_user e b Heok (Hok b Hbin) Hle) as [|Hu]; [by rewrite <- Hbk|].
    rewrite Hu, Hbk, (cmp_refl user dom k Hd) in E. done.
Qed.

(** ** Batches *)

Definition add_of (seq : Z) (op : batch_op) : add :=
  match op with
  | BPut k v => mkAdd seq kTypeValue k v
  | BDelete k => mkAdd seq kTypeDeletion k []
  end.

(** The operations with their sequence numbers, from [seq] on. *)
Fixpoint numbered (seq : Z) (ops : list batch_op) : list add :=
  match ops with
  | [] => []
  | op :: ops' => add_of seq op :: numbered (seq + 1) ops'
  end.

Definition op_key (op : batch_op) : bytes := match op with BPut k _ => k | BDelete k => k end.

Definition mem_op_ok (op : batch_op) : Prop :=
  op_ok op /\ dom (op_key op) /\ Z.of_nat (length (op_key op) + 8) < 2 ^ 32.

Lemma add_of_ok seq op : seq_ok seq -> mem_op_ok op -> add_ok (add_of seq op).
Proof using Type.
  intros Hs (Ho & Hd & Hl). destruct op as [k v|k]; simpl in *; split; simpl; try done;
    unfold type_ok, kTypeValue, kTypeDeletion; try lia; try apply Ho; try constructor.
Qed.

Lemma numbered_app seq ops ops' :
  numbered seq (ops ++ ops') = numbered seq ops ++ numbered (seq + Z.of_nat (length ops)) ops'.
Proof using Type.
  revert seq. induction ops as [|op ops IH]; intros seq; simpl; [by rewrite Z.add_0_r|]. rewrite IH. do 3 f_equal. lia.
Qed.

Lemma length_numbered seq ops : length (numbered seq ops) = length ops.
Proof using Type. revert seq. induction ops as [|op ops IH]; intros seq; simpl; [done|]. by rewrite IH. Qed.

Lemma numbered_seq seq ops a : a ∈ numbered seq ops -> seq <= a_seq a < seq + Z.of_nat (length ops).
Proof using Type.
  revert seq. induction ops as [|op ops IH]; intros seq; [by intros ?%elem_of_nil|].
  intros [->|Ha]%elem_of_cons; simpl length; [destruct op; simpl; lia|]. apply IH in Ha. lia.
Qed.

Lemma numbered_ok seq ops :
  0 <= seq -> seq + Z.of_nat (length ops) <= 2 ^ 56 -> Forall mem_op_ok ops -> Forall add_ok (numbered seq ops).
Proof using Type.
  intros Hs Hl Hops. revert seq Hs Hl. induction Hops as [|op ops Hop Hops IH]; intros seq Hs Hl; [constructor|].
  simpl length in Hl. constructor; [apply add_of_ok; [unfold seq_ok; lia|done]|]. apply IH; lia.
Qed.

Lemma inserter_run ops : forall adds seq m,
  holds adds m -> Forall add_ok adds -> (forall a, a ∈ adds -> a_seq a < seq) ->
  0 <= seq -> seq + Z.of_nat (length ops) <= 2 ^ 56 -> Forall mem_op_ok ops ->
  exists m', foldl (run_op (MemTableInserter user)) (Ret tt (seq, m)) ops = Ret tt (seq + Z.of_nat (length ops), m') /\
    holds (adds ++ numbered seq ops) m' /\ refs_ m' = refs_ m.
Proof using Hc.
  induction ops as [|op ops IH]; intros adds seq m Hm Hok Hlt Hs Hl Hops.
  { exists m. simpl. rewrite Z.add_0_r, app_nil_r. done. }
  apply Forall_cons_1 in Hops as [Hop Hops]. simpl length in *.
  assert (add_ok (add_of seq op)) as Ha by (apply add_of_ok; [unfold seq_ok; lia|done]).
  assert (a_seq (add_of seq op) = seq) as Hsq by (by destruct op).
  destruct (mem_Add_run adds (add_of seq op) m Hm Hok Ha) as (m1 & H1 & Hm1 & Hr1).
  { intros b Hb _. rewrite Hsq. apply Hlt in Hb. lia. }
  destruct (IH (adds ++ [add_of seq op]) (seq + 1) m1) as (m' & H2 & Hm2 & Hr2); [done| | |lia|lia|done|].
  - apply list.Forall_app. split; [done|]. constructor; [done|constructor].
  - intros a [Hin|[->|[]%elem_of_nil]%elem_of_cons]%elem_of_app; [apply Hlt in Hin|]; lia.
  - exists m'. split_and!; [|by rewrite <- app_assoc in Hm2|congruence].
    cbn [foldl]. replace (run_op (MemTableInserter user) (Ret tt (seq, m)) op) with (@Ret (Z * MemTable) unit tt (seq + 1, m1)).
    + rewrite H2. do 2 f_equal. lia.
    + destruct op as [k v|k]; simpl in *; rewrite H1, u64_small by lia; done.
Qed.

(** The batch with its sequence number. *)
Lemma batch_with_seq ops seq :
  Z.of_nat (length ops) < 2 ^ 31 -> 0 <= seq < 2 ^ 64 ->
  let rep := SetSequence (WriteBatch.build ops) seq in
  rep = EncodeFixed64 seq ++ EncodeFixed32 (Z.of_nat (length ops)) ++ enc_ops ops /\
  Sequence rep = seq /\ Count rep = Z.of_nat (length ops).
Proof using Type.
  intros Hl Hs rep.
  assert (rep = EncodeFixed64 seq ++ EncodeFixed32 (Z.of_nat (length ops)) ++ enc_ops ops) as E.
  { unfold rep. rewrite build_rep by done. unfold SetSequence, str_replace, batch_rep. rewrite take_0. simpl (_ ++ _).
    f_equal. }
  split; [done|]. rewrite E. split.
  - unfold Sequence. by apply DecodeFixed64_encode.
  - unfold Count. rewrite drop_app_length' by (unfold EncodeFixed64; by rewrite length_le_bytes).
    unfold DecodeFixed32, EncodeFixed32. rewrite take_app_length' by (by rewrite length_le_bytes).
    rewrite le_val_bytes, Z.mod_small by (change (2 ^ (8 * Z.of_nat 4)) with (2 ^ 32); lia). apply i32_small. lia.
Qed.

Lemma InsertInto_run ops adds seq m :
  holds adds m -> Forall add_ok adds -> (forall a, a ∈ adds -> a_seq a < seq) ->
  0 <= seq -> seq + Z.of_nat (length ops) <= 2 ^ 56 -> Forall mem_op_ok ops -> Z.of_nat (length ops) < 2 ^ 31 ->
  exists m', InsertInto user (SetSequence (WriteBatch.build ops) seq) m = Ret Status_OK m' /\
    holds (adds ++ numbered seq ops) m' /\ refs_ m' = refs_ m.
Proof using Hc.
  intros Hm Hok Hlt Hs Hl Hops Hn. destruct (batch_with_seq ops seq Hn) as (E & Es & Ec); [lia|].
  destruct (inserter_run ops adds seq m Hm Hok Hlt Hs Hl Hops) as (m' & Hr & Hm' & Hrf). exists m'. split; [|done].
  unfold InsertInto, Iterate. rewrite Es, Ec, decide_False.
  2: { rewrite E, !length_app. unfold EncodeFixed64, EncodeFixed32. rewrite !length_le_bytes. unfold kHeader. lia. }
  assert (drop kHeader (SetSequence (WriteBatch.build ops) seq) = enc_ops ops) as ->.
  { rewrite E, app_assoc. apply drop_app_length'. rewrite length_app. unfold EncodeFixed64, EncodeFixed32. by rewrite !length_le_bytes. }
  rewrite Iterate_loop_ops; [|eapply Forall_impl; [|exact Hops]; intros ? [? _]; done|done|lia]. by rewrite Hr.
Qed.
End ok.
