(* ===== verification/Durability.v ===== *)
(** The write path of the database and its recovery: the core of [DBImpl::Write] and
    [DBImpl::RecoverLogFile] of [src/lib/leveldb/db/db_impl.cc], over the log, batches
    and the memtable.

    [Write] is the path of a writer that is alone in the queue, after
    [MakeRoomForWrite] made room in the memtable. What is done with a memtable that is
    written to a table of level 0 is left out: the memtables written are kept in
    order. *)

From stdpp Require Import sorting.
From S2P Require Import Prelude Coding WriteBatch Comparator DbFormat SkipList SkipListOk MemTable MemTableOk Crc32c Log.

Set Default Proof Using "Type".

Record DB : Type := mkDB {
  log_ : Writer;
  mem_ : MemTable;
  last_sequence_ : Z;
  bytes_written : Z;
  num_syncs : Z }.
Abbreviation db_prog := (prog DB).

Definition on_log {A} (p : writer_prog A) : db_prog A :=
  zoom log_ (fun w db => mkDB w (mem_ db) (last_sequence_ db) (bytes_written db) (num_syncs db)) p.
Definition on_mem {A} (p : prog MemTable A) : db_prog A :=
  zoom mem_ (fun m db => mkDB (log_ db) m (last_sequence_ db) (bytes_written db) (num_syncs db)) p.
Definition put_sequence (s : Z) (db : DB) : DB := mkDB (log_ db) (mem_ db) s (bytes_written db) (num_syncs db).
Definition count_bytes (n : Z) (db : DB) : DB :=
  mkDB (log_ db) (mem_ db) (last_sequence_ db) (bytes_written db + n) (num_syncs db).
Definition count_sync (db : DB) : DB :=
  mkDB (log_ db) (mem_ db) (last_sequence_ db) (bytes_written db) (num_syncs db + 1).

(** [logfile_->Sync()] uses up an outcome like [Flush]. *)
Definition DB_Write (user : Comparator) (o : WriteOptions) (my_batch : bytes) : db_prog Status :=
  db <- get_state ;;
  let last_sequence := last_sequence_ db in
  let updates := SetSequence my_batch (u64 (last_sequence + 1)) in
  let last_sequence := u64 (last_sequence + Count updates) in
  ok <- (if wo_writeahead o then
           ok <- on_log (AddRecord updates) ;;
           modify (count_bytes (Z.of_nat (length updates))) ;;;
           if ok && wo_sync o then
             ok <- on_log wf_Flush ;;
             modify count_sync ;;;
             ret ok
           else ret ok
         else ret true) ;;
  status <- (if (ok : bool) then on_mem (InsertInto user updates) else ret Status_IOError) ;;
  modify (put_sequence last_sequence) ;;;
  ret status.

(** ** Recovery of one log file *)

Section recover.
Context (user : Comparator).
Context (paranoid_checks : bool) (full : MemTable -> bool) (level0_ok : MemTable -> bool).
(* [options_.paranoid_checks], [ApproximateMemoryUsage () > write_buffer_size], whether
   [WriteLevel0Table] succeeds *)

Record recovery : Type := mkRecovery {
  r_mem : option MemTable;
  r_tables : list MemTable;      (* written to level 0 *)
  r_max_sequence : Z;
  r_status : Status }.

Definition put_mem (m : option MemTable) (r : recovery) : recovery :=
  mkRecovery m (r_tables r) (r_max_sequence r) (r_status r).
Definition put_max (s : Z) (r : recovery) : recovery :=
  mkRecovery (r_mem r) (r_tables r) s (r_status r).
Definition put_status (s : Status) (r : recovery) : recovery :=
  mkRecovery (r_mem r) (r_tables r) (r_max_sequence r) s.

Definition MaybeIgnoreError (s : Status) : Status :=
  if Status_ok s || paranoid_checks then s else Status_OK.

(** [LogReporter::Corruption] *)
Definition log_Corruption : prog recovery unit :=
  modify (fun r => if paranoid_checks && Status_ok (r_status r) then put_status (Status_Corruption "log") r else r).

Definition WriteLevel0Table (m : MemTable) : prog recovery Status :=
  if level0_ok m then
    modify (fun r => mkRecovery (r_mem r) (r_tables r ++ [m]) (r_max_sequence r) (r_status r)) ;;;
    ret Status_OK
  else ret Status_IOError.

(** [InsertInto] on the memtable of the recovery, made first if there is none. *)
Definition insert_record (batch : bytes) : prog recovery (MemTable * Status) := fun r =>
  let mem := match r_mem r with
             | Some m => Ret tt m
             | None => Ref MemTable_new
             end in
  match mem with
  | Ret _ m =>
      match InsertInto user batch m with
      | Ret s m' => Ret (m', s) (put_mem (Some m') r)
      | Exit n m' => Exit n (put_mem (Some m') r)
      | UB w => UB w
      end
  | Exit n m => Exit n r
  | UB w => UB w
  end.

(** [mem->Unref()], after which the memtable is not used *)
Definition unref {S} (m : MemTable) : prog S unit := fun s =>
  match Unref m with Ret _ _ => Ret tt s | Exit n _ => Exit n s | UB w => UB w end.

(** The body of the loop: whether to go on. *)
Definition recover_record (record : bytes) : prog recovery bool :=
  if (length record <? 12)%nat then log_Corruption ;;; ret true
  else
    assert_ (kHeader <=? length record)%nat ;;;
    let batch := record in
    ' (mem, status) <- insert_record batch ;;
    let status := MaybeIgnoreError status in
    modify (put_status status) ;;;
    if negb (Status_ok status) then ret false
    else
      let last_seq := u64 (Sequence batch + Count batch - 1) in
      modify (fun r => if last_seq >? r_max_sequence r then put_max last_seq r else r) ;;;
      if full mem then
        status <- WriteLevel0Table mem ;;
        modify (put_status status) ;;;
        if negb (Status_ok status) then ret false
        else
          unref mem ;;;
          modify (put_mem None) ;;;
          ret true
      else ret true.

(** The loop over the records; the reader reports what it drops to the reporter. *)
Fixpoint recover_loop (fuel : nat) : prog (Reader * recovery) unit :=
  match fuel with
  | O => undefined Unfinished
  | S fuel' =>
      before <- gets (fun st => length (reports (fst st))) ;;
      rec <- zoom fst (fun rd st => (rd, snd st)) ReadRecord ;;
      after <- gets (fun st => length (reports (fst st))) ;;
      (if (before <? after)%nat then zoom snd (fun r st => (fst st, r)) log_Corruption else ret tt) ;;;
      status <- gets (fun st => r_status (snd st)) ;;
      match rec with
      | Some record =>
          if Status_ok status then
            go <- zoom snd (fun r st => (fst st, r)) (recover_record record) ;;
            if (go : bool) then recover_loop fuel' else ret tt
          else ret tt
      | None => ret tt
      end
  end.

(** The file could be opened; a record takes a byte at least. *)
Definition RecoverLogFile (file : bytes) (max_sequence : Z) : prog unit (Status * list MemTable * Z) := fun u =>
  let start := (Reader_new (mkRfile file []) true true 0, mkRecovery None [] max_sequence Status_OK) in
  match recover_loop (S (length file)) start with
  | Ret _ (_, r) =>
      match ((match r_mem r with
              | Some m =>
                  (if Status_ok (r_status r) then s <- WriteLevel0Table m ;; modify (put_status s) else ret tt) ;;;
                  unref m
              | None => ret tt
              end) ;;; get_state) r with
      | Ret r _ => Ret (r_status r, r_tables r, r_max_sequence r) u
      | Exit n _ => Exit n u
      | UB w => UB w
      end
  | Exit n _ => Exit n u
  | UB w => UB w
  end.
End recover.
