(* ===== verification/DurabilityOk.v ===== *)
(** Batches written through [Durability] can be read back at every snapshot, and after a
    crash the recovery of the log gives back what a prefix of the batches wrote. *)

From stdpp Require Import sorting.
From S2P Require Import Prelude Coding WriteBatch Comparator DbFormat SkipList SkipListOk MemTable MemTableOk Crc32c Log Durability.

Set Default Proof Using "Type".

(** ** The specification: a map *)

(** A deleted key is bound to [None]. *)
Definition apply_op (st : gmap bytes (option bytes)) (op : batch_op) : gmap bytes (option bytes) :=
  match op with
  | BPut k v => <[k := Some v]> st
  | BDelete k => <[k := None]> st
  end.

Definition state_after (ops : list batch_op) : gmap bytes (option bytes) := foldl apply_op ∅ ops.

Lemma state_snoc ops op k :
  state_after (ops ++ [op]) !! k =
  if decide (op_key op = k) then Some (visible (add_of (Z.of_nat (length ops) + 1) op)) else state_after ops !! k.
Proof.
  unfold state_after. rewrite foldl_app. simpl. destruct op as [k' v|k']; simpl; case_decide as E.
  - subst. by rewrite lookup_insert_eq.
  - by rewrite lookup_insert_ne.
  - subst. by rewrite lookup_insert_eq.
  - by rewrite lookup_insert_ne.
Qed.

(** The map after some operations tells the last one of each key. *)
Lemma state_lookup ops k :
  (exists a, is_latest k (Z.of_nat (length ops)) (numbered 1 ops) a /\ state_after ops !! k = Some (visible a)) \/
  ((forall a, a ∈ numbered 1 ops -> a_key a <> k) /\ state_after ops !! k = None).
Proof.
  induction ops as [|op ops IH] using rev_ind; [right; split; [by intros a ?%elem_of_nil|done]|].
  rewrite state_snoc, numbered_app, length_app. simpl numbered. simpl length.
  replace (1 + Z.of_nat (length ops)) with (Z.of_nat (length ops) + 1) by lia.
  set (a := add_of (Z.of_nat (length ops) + 1) op).
  assert (a_key a = op_key op /\ a_seq a = Z.of_nat (length ops) + 1) as [Hk Hs] by (by destruct op).
  assert (forall b, b ∈ numbered 1 ops -> a_seq b < a_seq a) as Hlt by (intros b Hb%numbered_seq; lia).
  case_decide as E; [|destruct IH as [(b & (Hb & Hbk & Hbs & Hmax) & Hst)|[Hno Hst]]].
  - left. exists a. split; [|done]. split_and!; [apply elem_of_app; right; by left|congruence|lia|].
    intros b [Hb|[->|[]%elem_of_nil]%elem_of_cons]%elem_of_app; [apply Hlt in Hb; lia|lia].
  - left. exists b. split; [|done]. split_and!; [apply elem_of_app; by left|done|lia|].
    intros d [Hd|[->|[]%elem_of_nil]%elem_of_cons]%elem_of_app Hdk Hds; [|congruence].
    apply Hmax; [done|done|]. apply numbered_seq in Hd. lia.
  - right. split; [|done]. intros d [Hd|[->|[]%elem_of_nil]%elem_of_cons]%elem_of_app; [by apply Hno|congruence].
Qed.

Lemma numbered_inj seq ops a b : a ∈ numbered seq ops -> b ∈ numbered seq ops -> a_seq a = a_seq b -> a = b.
Proof.
  revert seq. induction ops as [|op ops IH]; intros seq; [by intros ?%elem_of_nil|].
  assert (a_seq (add_of seq op) = seq) as Hs by (by destruct op).
  intros [->|Ha]%elem_of_cons [->|Hb]%elem_of_cons E; [done| | |by eapply IH].
  - apply numbered_seq in Hb. lia.
  - apply numbered_seq in Ha. lia.
Qed.

(** The entries up to a snapshot are those of the first operations. *)
Lemma numbered_take ops n a :
  a ∈ numbered 1 ops -> a_seq a <= Z.of_nat n -> a ∈ numbered 1 (take n ops).
Proof.
  intros Ha Hs. rewrite <- (take_drop n ops), numbered_app in Ha. apply elem_of_app in Ha as [|Ha]; [done|].
  destruct (decide (n < length ops)%nat) as [Hlt|]; [|rewrite drop_ge in Ha by lia; by apply elem_of_nil in Ha].
  apply numbered_seq in Ha. rewrite length_take in Ha. lia.
Qed.

Lemma take_numbered ops n a : a ∈ numbered 1 (take n ops) -> a ∈ numbered 1 ops.
Proof.
  intros Ha. rewrite <- (take_drop n ops), numbered_app. apply elem_of_app. by left.
Qed.

(** What a lookup at snapshot [n] should find. *)
Lemma snapshot_lookup ops k n (r : option (option bytes)) :
  (n <= length ops)%nat ->
  (exists a, is_latest k (Z.of_nat n) (numbered 1 ops) a /\ r = Some (visible a)) \/
  ((forall a, a ∈ numbered 1 ops -> a_key a = k -> Z.of_nat n < a_seq a) /\ r = None) ->
  r = state_after (take n ops) !! k.
Proof.
  intros Hn Hr. destruct (state_lookup (take n ops) k) as [(b & (Hb & Hbk & Hbs & Hmax) & ->)|[Hno ->]];
    rewrite ?length_take_le in * by done.
  - destruct Hr as [(a & (Ha & Hak & Has & Hamax) & ->)|[Hno _]].
    + do 2 f_equal. apply (numbered_inj 1 ops); [done|by eapply take_numbered|].
      pose proof (Hamax b (take_numbered _ _ _ Hb) Hbk Hbs).
      pose proof (Hmax a (numbered_take _ _ _ Ha Has) Hak Has). lia.
    + pose proof (Hno b (take_numbered _ _ _ Hb) Hbk). lia.
  - destruct Hr as [(a & (Ha & Hak & Has & _) & ->)|[_ ->]]; [|done].
    by destruct (Hno a (numbered_take _ _ _ Ha Has)).
Qed.

(** ** Writing *)

Definition DB_new : DB := mkDB (Writer_new (mkWfile [] [])) MemTable_new 0 0 0.

Section writing.
Context (user : Comparator) (dom : bytes -> Prop) {Hc : ComparatorOk user dom}.

Fixpoint write_all (o : WriteOptions) (batches : list (list batch_op)) : db_prog Status :=
  match batches with
  | [] => ret Status_OK
  | ops :: batches' =>
      s <- DB_Write user o (WriteBatch.build ops) ;;
      if Status_ok s then write_all o batches' else ret s
  end.

(** The records that are added to the log. *)
Fixpoint records (last : Z) (batches : list (list batch_op)) : list bytes :=
  match batches with
  | [] => []
  | ops :: batches' => SetSequence (WriteBatch.build ops) (last + 1) :: records (last + Z.of_nat (length ops)) batches'
  end.

Definition batch_ok (ops : list batch_op) : Prop := Forall (mem_op_ok dom) ops /\ Z.of_nat (length ops) < 2 ^ 31.

Definition total (batches : list (list batch_op)) : Z := Z.of_nat (length (mjoin batches)).

Lemma total_cons ops batches : total (ops :: batches) = Z.of_nat (length ops) + total batches.
Proof using Type. unfold total. change (mjoin (ops :: batches)) with (ops ++ mjoin batches). rewrite length_app. lia. Qed.

(** The database holds these entries and its log can be written. *)
Record db_holds (adds : list add) (db : DB) : Prop := {
  dh_mem : holds user dom adds (mem_ db);
  dh_ok : Forall (add_ok dom) adds;
  dh_seq a : a ∈ adds -> a_seq a <= last_sequence_ db;
  dh_last : 0 <= last_sequence_ db;
  dh_log : exists c off, log_ db = mkWriter (mkWfile c []) off /\ off_ok off }.

Lemma DB_Write_run o ops db adds :
  db_holds adds db -> batch_ok ops -> last_sequence_ db + Z.of_nat (length ops) < 2 ^ 56 ->
  exists db', DB_Write user o (WriteBatch.build ops) db = Ret Status_OK db' /\
    last_sequence_ db' = last_sequence_ db + Z.of_nat (length ops) /\
    db_holds (adds ++ numbered (last_sequence_ db + 1) ops) db' /\
    if wo_writeahead o then AddRecord (SetSequence (WriteBatch.build ops) (last_sequence_ db + 1)) (log_ db) = Ret true (log_ db')
    else log_ db' = log_ db.
Proof using Hc.
  intros [Hm Hok Hseq Hlast (c & off & Hlog & Hoff)] [Hops Hl] Hsum.
  destruct (batch_with_seq ops (last_sequence_ db + 1) Hl) as (E & Es & Ec); [lia|].
  set (rep := SetSequence (WriteBatch.build ops) (last_sequence_ db + 1)) in *.
  destruct (InsertInto_run user dom ops adds (last_sequence_ db + 1) (mem_ db) Hm Hok) as (m' & Hi & Hm' & _);
    [intros a Ha; apply Hseq in Ha; lia|lia|lia|done|done|]. fold rep in Hi.
  destruct (AddRecord_written off rep c Hoff) as (out & off' & _ & Hoff' & Ha). rewrite <- Hlog in Ha.
  set (w' := if wo_writeahead o then mkWriter (mkWfile (c ++ out) []) off' else log_ db).
  assert (exists n1 n2, DB_Write user o (WriteBatch.build ops) db =
    Ret Status_OK (mkDB w' m' (last_sequence_ db + Z.of_nat (length ops)) n1 n2)) as (n1 & n2 & Hrun).
  { unfold DB_Write, bind at 1, get_state. rewrite u64_small by lia. fold rep. rewrite Ec, u64_small by lia.
    unfold w'. destruct (wo_writeahead o).
    - unfold bind, on_log at 1, zoom at 1. rewrite Ha. unfold modify at 1. cbn [andb].
      destruct (wo_sync o); unfold on_log, on_mem, zoom, ret, modify; cbn [log_ mem_ count_bytes count_sync wf_Flush dest_ wf_contents wf_fails];
        [cbn [tail head negb default block_offset_]|]; cbn [mem_ count_sync]; rewrite Hi; eauto.
    - unfold bind, on_mem, zoom, ret, modify. rewrite Hi. eauto. }
  eexists. split; [exact Hrun|]. cbn [last_sequence_ log_ mem_]. split_and!; [done| |].
  - split; cbn [last_sequence_ log_ mem_]; [done| | |lia|].
    + apply list.Forall_app. split; [done|]. by apply numbered_ok; [lia..|].
    + intros a [Hin|Hin]%elem_of_app; [apply Hseq in Hin; lia|apply numbered_seq in Hin; lia].
    + unfold w'. destruct (wo_writeahead o); eauto.
  - unfold w'. destruct (wo_writeahead o); [exact Ha|done].
Qed.

Lemma write_all_run o batches : forall db adds,
  db_holds adds db -> Forall batch_ok batches -> last_sequence_ db + total batches < 2 ^ 56 ->
  exists db', write_all o batches db = Ret Status_OK db' /\
    last_sequence_ db' = last_sequence_ db + total batches /\
    db_holds (adds ++ numbered (last_sequence_ db + 1) (mjoin batches)) db' /\
    (wo_writeahead o = true -> AddRecords (records (last_sequence_ db) batches) (log_ db) = Ret true (log_ db')).
Proof using Hc.
  induction batches as [|ops batches IH]; intros db adds Hdb Hb Hsum.
  { exists db. change (mjoin []) with (@nil batch_op). cbn. rewrite app_nil_r, Z.add_0_r. done. }
  apply Forall_cons_1 in Hb as [Hop Hb]. rewrite total_cons in *. assert (0 <= total batches) by (unfold total; lia).
  destruct (DB_Write_run o ops db adds Hdb Hop) as (db1 & H1 & Hl1 & Hd1 & Hlog1); [lia|].
  destruct (IH db1 _ Hd1 Hb) as (db' & H2 & Hl2 & Hd2 & Hlog2); [lia|].
  exists db'. split_and!.
  - cbn [write_all]. unfold bind. rewrite H1. exact H2.
  - lia.
  - change (mjoin (ops :: batches)) with (ops ++ mjoin batches). rewrite numbered_app, app_assoc, <- Z.add_assoc, (Z.add_comm 1), Z.add_assoc, <- Hl1. done.
  - intros Hw. rewrite Hw in Hlog1. cbn [records AddRecords]. erewrite bind_Ret by exact Hlog1. cbv iota. rewrite <- Hl1. by apply Hlog2.
Qed.

Lemma db_new_holds : db_holds [] DB_new.
Proof using Type.
  split; cbn; [apply holds_new|constructor|by intros a ?%elem_of_nil|lia|].
  exists [], 0. split; [done|]. unfold off_ok, kBlockSize. lia.
Qed.

(** A read: [DBImpl::Get] looks in the memtable first. *)
Definition read_at (k : bytes) (s : Z) : prog MemTable (option (option bytes)) :=
  lk <- LookupKey_new k s ;; MemTable_Get user lk.

Definition key_ok (k : bytes) : Prop := dom k /\ bytes_ok k /\ Z.of_nat (length k + 8) < 2 ^ 32.

Lemma read_at_run adds m k s :
  holds user dom adds m -> Forall (add_ok dom) adds -> key_ok k -> seq_ok s ->
  (exists a, is_latest k s adds a /\ read_at k s m = Ret (Some (visible a)) m) \/
  ((forall a, a ∈ adds -> a_key a = k -> s < a_seq a) /\ read_at k s m = Ret None m).
Proof using Hc.
  intros Hm Hok (Hd & Hb & Hl) Hs. destruct (LookupKey_run k s m Hl Hs) as (lk & Hlk & Hmk & Huk).
  unfold read_at, bind. rewrite Hlk. by apply (Get_run user dom).
Qed.
End writing.

(** ** Recovering *)

Section recovering.
Context (user : Comparator) (dom : bytes -> Prop) {Hc : ComparatorOk user dom}.
Context (full level0_ok : MemTable -> bool) (Hlevel0 : forall m, level0_ok m = true).

(** The tables written and the current memtable hold [adds], in order. *)
Record recovered (adds : list add) (r : recovery) : Prop := {
  rc_parts : exists parts cur, Forall2 (holds user dom) parts (r_tables r) /\ mjoin parts ++ cur = adds /\
    match r_mem r with
    | Some m => holds user dom cur m /\ refs_ m = 1
    | None => cur = []
    end;
  rc_ok : Forall (add_ok dom) adds;
  rc_max : r_max_sequence r = Z.of_nat (length adds);
  rc_seq a : a ∈ adds -> 1 <= a_seq a <= Z.of_nat (length adds);
  rc_status : r_status r = Status_OK }.

Lemma recovered_mem adds r :
  recovered adds r ->
  exists parts cur m, Forall2 (holds user dom) parts (r_tables r) /\ mjoin parts ++ cur = adds /\
    (match r_mem r with Some m => Ret tt m | None => Ref MemTable_new end) = Ret tt m /\
    holds user dom cur m /\ refs_ m = 1.
Proof using Type.
  intros [(parts & cur & Hp & He & Hm) _ _ _ _]. exists parts, cur. destruct (r_mem r) as [m|].
  - exists m. by destruct Hm.
  - exists (mkMemTable 1 SkipList_new). split_and!; try done. subst cur. apply holds_new.
Qed.

Lemma record_run adds r ops :
  recovered adds r -> batch_ok dom ops -> Z.of_nat (length adds) + Z.of_nat (length ops) < 2 ^ 56 ->
  exists r', recover_record user false full level0_ok (SetSequence (WriteBatch.build ops) (Z.of_nat (length adds) + 1)) r = Ret true r' /\
    recovered (adds ++ numbered (Z.of_nat (length adds) + 1) ops) r'.
Proof using Hc Hlevel0.
  intros R [Hops Hl] Hsum. destruct (recovered_mem adds r R) as (parts & cur & m & Hp & He & Hmem & Hm & Hrf).
  destruct R as [_ Hok Hmax Hseq Hst]. set (n := Z.of_nat (length adds)) in *.
  destruct (batch_with_seq ops (n + 1) Hl) as (E & Es & Ec); [lia|]. set (rep := SetSequence _ _) in *.
  assert (forall a, a ∈ cur -> a_seq a < n + 1) as Hcur.
  { intros a Ha. assert (a ∈ adds) as Hin by (rewrite <- He; apply elem_of_app; by right). apply Hseq in Hin. lia. }
  assert (Forall (add_ok dom) cur) as Hokc by (rewrite <- He in Hok; by apply list.Forall_app in Hok as [_ ?]).
  destruct (InsertInto_run user dom ops cur (n + 1) m Hm Hokc Hcur) as (m' & Hi & Hm' & Hrf'); [lia|lia|done|done|]. fold rep in Hi.
  assert (12 <= length rep)%nat as Hlen by (rewrite E, !length_app; unfold EncodeFixed64, EncodeFixed32; rewrite !length_le_bytes; lia).
  assert (forall a, a ∈ adds ++ numbered (n + 1) ops -> 1 <= a_seq a <= Z.of_nat (length (adds ++ numbered (n + 1) ops))) as Hseq'.
  { rewrite length_app, length_numbered. intros a [Ha|Ha]%elem_of_app; [apply Hseq in Ha|apply numbered_seq in Ha]; lia. }
  assert (Forall (add_ok dom) (adds ++ numbered (n + 1) ops)) as Hok'.
  { apply list.Forall_app. split; [done|]. by apply numbered_ok; [lia..|]. }
  assert (Z.max (r_max_sequence r) (u64 (n + 1 + Z.of_nat (length ops) - 1)) = Z.of_nat (length (adds ++ numbered (n + 1) ops))) as Hmax'.
  { rewrite length_app, length_numbered, u64_small; lia. }
  set (r1 := mkRecovery (Some m') (r_tables r) (Z.max (r_max_sequence r) (u64 (n + 1 + Z.of_nat (length ops) - 1))) Status_OK).
  assert (recover_record user false full level0_ok rep r =
    (if full m' then
       status <- WriteLevel0Table level0_ok m' ;; modify (put_status status) ;;;
       if negb (Status_ok status) then ret false else unref m' ;;; modify (put_mem None) ;;; ret true
     else ret true) r1) as ->.
  { unfold recover_record. destruct (Nat.ltb_spec (length rep) 12); [lia|].
    unfold bind at 1. rewrite (proj2 (Nat.leb_le _ _) Hlen : (kHeader <=? length rep)%nat = true). simpl assert_. unfold ret at 1.
    unfold bind at 1, insert_record. rewrite Hmem, Hi. cbn [MaybeIgnoreError Status_ok]. rewrite Es, Ec.
    unfold bind at 1, modify at 1. change (negb (Status_ok (MaybeIgnoreError false Status_OK))) with false. cbv iota.
    unfold bind at 1, modify at 1. f_equal. unfold r1. cbn. rewrite Z.gtb_ltb.
    destruct (Z.ltb_spec (r_max_sequence r) (u64 (n + 1 + Z.of_nat (length ops) - 1)));
      [rewrite Z.max_r by lia|rewrite Z.max_l by lia]; done. }
  destruct (full m').
  - unfold WriteLevel0Table, bind, modify, ret. rewrite Hlevel0. change (negb (Status_ok Status_OK)) with false. cbv iota.
    unfold unref, Unref, bind, modify, get_state, assert_, ret. cbn. rewrite Hrf', Hrf. cbn.
    eexists. split; [reflexivity|]. split; cbn; try done.
    exists (parts ++ [cur ++ numbered (n + 1) ops]), []. split_and!; [|by rewrite join_app, app_nil_r; cbn; rewrite app_nil_r, <- He, app_assoc|done].
    apply Forall2_app; [done|]. by constructor.
  - exists r1. split; [done|]. split; cbn; try done.
    exists parts, (cur ++ numbered (n + 1) ops). split_and!; [done|by rewrite <- He, app_assoc|done|congruence].
Qed.

(** Without paranoid checks a report changes nothing. *)
Lemma loop_run fuel rd r rd' rec :
  ReadRecord rd = Ret rec rd' ->
  recover_loop user false full level0_ok (S fuel) (rd, r) =
  match rec with
  | Some record =>
      if Status_ok (r_status r) then
        go <- zoom snd (fun r st => (fst st, r)) (recover_record user false full level0_ok record) ;;
        if (go : bool) then recover_loop user false full level0_ok fuel else ret tt
      else ret tt
  | None => ret tt
  end (rd', r).
Proof using Type.
  intros Hread. cbn [recover_loop]. erewrite bind_Ret by reflexivity.
  erewrite bind_Ret by (apply (zoom_Ret fst); exact Hread). erewrite bind_Ret by reflexivity.
  assert (forall b : bool, (if b then zoom snd (fun r st => (fst st, r)) (log_Corruption false) else ret tt) (rd', r) = Ret tt (rd', r)) as Hrep
    by (by intros []).
  erewrite bind_Ret by apply Hrep. by erewrite bind_Ret by reflexivity.
Qed.

Lemma records_run batches : forall adds r,
  recovered adds r -> Forall (batch_ok dom) batches -> Z.of_nat (length adds) + total batches < 2 ^ 56 ->
  forall rd rd' fuel fuel', read_all fuel rd = Ret (records (Z.of_nat (length adds)) batches) rd' -> (length batches < fuel')%nat ->
  exists r', recover_loop user false full level0_ok fuel' (rd, r) = Ret tt (rd', r') /\
    recovered (adds ++ numbered (Z.of_nat (length adds) + 1) (mjoin batches)) r'.
Proof using Hc Hlevel0.
  induction batches as [|ops batches IH]; intros adds r R Hb Hsum rd rd' fuel fuel' Hrd Hf; (destruct fuel' as [|fuel']; [simpl in Hf; lia|]).
  - destruct fuel as [|fuel]; [done|]. cbn [read_all records] in Hrd. apply bind_inv in Hrd as (rec & rd1 & Hread & Hrest).
    destruct rec as [rec|]; [by apply bind_inv in Hrest as (? & ? & _ & ?)|]. injection Hrest as <-.
    exists r. split; [|by change (mjoin []) with (@nil batch_op); rewrite app_nil_r].
    by rewrite (loop_run fuel' rd r rd1 None Hread).
  - apply Forall_cons_1 in Hb as [Hop Hb]. rewrite total_cons in Hsum. assert (0 <= total batches) by (unfold total; lia).
    destruct fuel as [|fuel]; [done|]. cbn [read_all records] in Hrd. apply bind_inv in Hrd as (rec & rd1 & Hread & Hrest).
    destruct rec as [rec|]; [|done]. apply bind_inv in Hrest as (recs & rd2 & Hrest & E). injection E as -> -> ->.
    destruct (record_run adds r ops R Hop) as (r1 & Hr1 & R1); [lia|].
    assert (Z.of_nat (length adds) + Z.of_nat (length ops) = Z.of_nat (length (adds ++ numbered (Z.of_nat (length adds) + 1) ops))) as Hlen
      by (rewrite length_app, length_numbered; lia).
    rewrite Hlen in Hrest.
    destruct (IH _ r1 R1 Hb ltac:(lia) rd1 rd' fuel fuel' Hrest ltac:(simpl in Hf; lia)) as (r' & Hloop & R').
    exists r'. split.
    + rewrite (loop_run fuel' rd r rd1 (Some (SetSequence (WriteBatch.build ops) (Z.of_nat (length adds) + 1))) Hread), (rc_status _ _ R).
      change (Status_ok Status_OK) with true. cbv iota. erewrite bind_Ret by (apply zoom_Ret; exact Hr1). exact Hloop.
    + rewrite <- app_assoc in R'. change (mjoin (ops :: batches)) with (ops ++ mjoin batches). rewrite numbered_app.
      replace (Z.of_nat (length adds) + 1 + Z.of_nat (length ops)) with (Z.of_nat (length (adds ++ numbered (Z.of_nat (length adds) + 1) ops)) + 1) by lia.
      done.
Qed.

(** ** Reading from the recovered tables, the newest first *)

Fixpoint tables_get (k : bytes) (s : Z) (tables : list MemTable) : option (option bytes) :=
  match tables with
  | [] => None
  | t :: tables' =>
      match read_at user k s t with
      | Ret (Some v) _ => Some v
      | _ => tables_get k s tables'
      end
  end.

Lemma tables_get_run k s parts tables :
  Forall2 (holds user dom) parts tables -> Forall (Forall (add_ok dom)) parts -> key_ok dom k -> seq_ok s ->
  (forall i j p q a b, (i < j)%nat -> parts !! i = Some p -> parts !! j = Some q -> a ∈ p -> b ∈ q -> a_seq b < a_seq a) ->
  (exists a, is_latest k s (mjoin parts) a /\ tables_get k s tables = Some (visible a)) \/
  ((forall a, a ∈ mjoin parts -> a_key a = k -> s < a_seq a) /\ tables_get k s tables = None).
Proof using Hc.
  intros H Hok Hk Hs. revert Hok. induction H as [|p t parts tables Hpt Hrest IH]; intros Hok Hord.
  { right. split; [by intros a ?%elem_of_nil|done]. }
  apply Forall_cons_1 in Hok as [Hp Hok]. change (mjoin (p :: parts)) with (p ++ mjoin parts). cbn [tables_get].
  assert (forall a b, a ∈ p -> b ∈ mjoin parts -> a_seq b < a_seq a) as Hnew.
  { intros a b Ha Hb. apply list_elem_of_join in Hb as (q & Hb & Hq). apply list_elem_of_lookup in Hq as [j Hj].
    by apply (Hord 0%nat (S j) p q a b); [lia|..]. }
  destruct (read_at_run user dom p t k s Hpt Hp Hk Hs) as [(a & (Ha & Hak & Has & Hmax) & ->)|[Hno ->]].
  - left. exists a. split; [|done]. split_and!; [apply elem_of_app; by left|done|done|].
    intros b [Hb|Hb]%elem_of_app Hbk Hbs; [by apply Hmax|]. pose proof (Hnew a b Ha Hb). lia.
  - destruct IH as [(a & (Ha & Hak & Has & Hmax) & ->)|[Hno' ->]]; [done|intros i j q q' a b Hij Hi Hj; by apply (Hord (S i) (S j) q q'); [lia|..]| |].
    + left. exists a. split; [|done]. split_and!; [apply elem_of_app; by right|done|done|].
      intros b [Hb|Hb]%elem_of_app Hbk Hbs; [pose proof (Hno b Hb Hbk); lia|by apply Hmax].
    + right. split; [|done]. intros a [Ha|Ha]%elem_of_app Hak; [by apply Hno|by apply Hno'].
Qed.
End recovering.

(** ** The theorems *)

Lemma numbered_sorted seq ops : StronglySorted (fun a b => a_seq a < a_seq b) (numbered seq ops).
Proof.
  revert seq. induction ops as [|op ops IH]; intros seq; [constructor|]. simpl. apply StronglySorted_cons. split; [|done].
  apply list.Forall_forall. intros a Ha%numbered_seq. destruct op; simpl; lia.
Qed.

Lemma parts_ordered (parts : list (list add)) i j p q a b :
  StronglySorted (fun a b => a_seq a < a_seq b) (mjoin parts) ->
  (i < j)%nat -> parts !! i = Some p -> parts !! j = Some q -> a ∈ p -> b ∈ q -> a_seq a < a_seq b.
Proof.
  intros Hs Hij Hi Hj Ha Hb. rewrite <- (take_drop_middle parts j q Hj), join_app in Hs.
  apply (StronglySorted_app_1_elem_of _ _ _ a b Hs).
  - apply list_elem_of_join. exists p. split; [done|]. apply list_elem_of_lookup. exists i. by rewrite lookup_take_lt.
  - apply elem_of_app. by left.
Qed.

Lemma join_reverse_elem {A} (parts : list (list A)) x : x ∈ mjoin (reverse parts) <-> x ∈ mjoin parts.
Proof. rewrite !list_elem_of_join. by setoid_rewrite elem_of_reverse. Qed.

Lemma parts_ok dom (parts : list (list add)) : Forall (add_ok dom) (mjoin parts) -> Forall (Forall (add_ok dom)) parts.
Proof.
  induction parts as [|p parts IH]; [constructor|]. change (mjoin (p :: parts)) with (p ++ mjoin parts).
  intros [Hp Hr]%list.Forall_app. constructor; auto.
Qed.

Lemma all_ops_ok dom batches : Forall (batch_ok dom) batches -> Forall (mem_op_ok dom) (mjoin batches).
Proof.
  induction 1 as [|ops batches [Ho _] Hb IH]; [constructor|]. change (mjoin (ops :: batches)) with (ops ++ mjoin batches).
  apply list.Forall_app. auto.
Qed.

Lemma records_take k batches : forall last, records last (take k batches) = take k (records last batches).
Proof. revert k. induction batches as [|ops batches IH]; intros [|k] last; simpl; [done..|]. by rewrite IH. Qed.

Lemma length_records batches : forall last, length (records last batches) = length batches.
Proof. induction batches as [|ops batches IH]; intros last; simpl; [done|]. by rewrite IH. Qed.

Lemma records_ok dom batches : forall last,
  Forall (batch_ok dom) batches -> 0 <= last -> last + total batches < 2 ^ 56 -> Forall bytes_ok (records last batches).
Proof.
  induction batches as [|ops batches IH]; intros last Hb Hl Hs; [constructor|].
  apply Forall_cons_1 in Hb as [[Hops Hn] Hb]. rewrite total_cons in Hs. assert (0 <= total batches) by (unfold total; lia).
  constructor; [|apply IH; [done|lia|lia]]. destruct (batch_with_seq ops (last + 1) Hn) as (-> & _ & _); [lia|].
  rewrite !bytes_ok_app. split_and!; [apply le_bytes_ok..|]. apply enc_ops_ok.
  eapply Forall_impl; [|exact Hops]. intros ? [? _]. done.
Qed.

(** C25: For every sequence of batches, with or without the write-ahead log, the
    database writes them without failing, counts their operations as sequence numbers,
    and a lookup of any key at the snapshot of any sequence number finds in the
    memtable what the operations up to that number left there: the value of the last
    put, that the key was deleted, or nothing. *)
Theorem db_reads_snapshots (user : Comparator) (dom : bytes -> Prop) {Hc : ComparatorOk user dom}
    (o : WriteOptions) (batches : list (list batch_op)) :
  Forall (batch_ok dom) batches -> total batches < 2 ^ 56 ->
  exists db, write_all user o batches DB_new = Ret Status_OK db /\ last_sequence_ db = total batches /\
    forall k n, key_ok dom k -> (n <= length (mjoin batches))%nat ->
      read_at user k (Z.of_nat n) (mem_ db) = Ret (state_after (take n (mjoin batches)) !! k) (mem_ db).
Proof.
  intros Hb Ht. destruct (write_all_run user dom o batches DB_new [] (db_new_holds user dom) Hb) as (db & Hw & Hl & Hd & _); [done|].
  exists db. split_and!; [done|done|]. intros k n Hk Hn. cbn [app last_sequence_ DB_new] in Hd.
  assert (seq_ok (Z.of_nat n)) as Hs by (unfold seq_ok, total in *; lia).
  destruct (read_at_run user dom _ _ k (Z.of_nat n) (dh_mem _ _ _ _ Hd) (dh_ok _ _ _ _ Hd) Hk Hs) as [(a & Ha & ->)|[Hno ->]];
    f_equal; apply snapshot_lookup; eauto.
Qed.

Definition batches0 : list (list batch_op) :=
  [[BPut (str "k") (str "1"); BPut (str "l") (str "2")]; [BDelete (str "k"); BPut (str "k") (str "3")]].

Lemma batches0_ok : Forall (batch_ok bytes_ok) batches0.
Proof. repeat constructor; cbn; unfold byte_ok; lia. Qed.

Lemma db_reads_snapshots_witness :
  exists db, write_all BytewiseComparator (mkWriteOptions true true) batches0 DB_new = Ret Status_OK db /\
    read_at BytewiseComparator (str "k") 2 (mem_ db) = Ret (Some (Some (str "1"))) (mem_ db) /\
    read_at BytewiseComparator (str "k") 3 (mem_ db) = Ret (Some None) (mem_ db).
Proof.
  destruct (db_reads_snapshots BytewiseComparator bytes_ok (mkWriteOptions true true) batches0) as (db & Hw & _ & Hr).
  - exact batches0_ok.
  - done.
  - exists db. split; [exact Hw|]. assert (key_ok bytes_ok (str "k")) as Hk by (repeat constructor; cbn; unfold byte_ok; lia).
    split; [exact (Hr (str "k") 2%nat Hk ltac:(cbn; lia))|exact (Hr (str "k") 3%nat Hk ltac:(cbn; lia))].
Defined.

(** The last memtable is written to a table when the log is at its end. *)
Lemma recover_file user dom {Hc : ComparatorOk user dom} full level0_ok batches file rd' fuel :
  (forall m, level0_ok m = true) -> Forall (batch_ok dom) batches -> total batches < 2 ^ 56 ->
  read_all fuel (Reader_new (mkRfile file []) true true 0) = Ret (records 0 batches) rd' -> (length batches <= length file)%nat ->
  exists tables parts, RecoverLogFile user false full level0_ok file 0 tt = Ret (Status_OK, tables, total batches) tt /\
    Forall2 (holds user dom) parts tables /\ mjoin parts = numbered 1 (mjoin batches).
Proof.
  intros Hl0 Hb Ht Hrd Hlen. set (r0 := mkRecovery None [] 0 Status_OK).
  assert (recovered user dom [] r0) as R0.
  { split; cbn; try done; [|by intros a ?%elem_of_nil]. exists [], []. by split_and!; [constructor|..]. }
  destruct (records_run user dom full level0_ok Hl0 batches [] r0 R0 Hb) with (rd := Reader_new (mkRfile file []) true true 0)
    (rd' := rd') (fuel := fuel) (fuel' := S (length file)) as (r & Hr & R); [done|done|lia|].
  cbn [app length Z.of_nat Z.add] in R. destruct R as [(parts & cur & Hp & He & Hm) _ Hmax _ Hst].
  rewrite length_numbered in Hmax. unfold RecoverLogFile. fold r0. rewrite Hr. destruct (r_mem r) as [m|].
  - destruct Hm as [Hm Hrf]. exists (r_tables r ++ [m]), (parts ++ [cur]). split_and!.
    + unfold bind. rewrite Hst. change (Status_ok Status_OK) with true. cbv iota. unfold WriteLevel0Table, bind. rewrite Hl0.
      unfold modify, ret, unref, Unref, bind, get_state, assert_, modify. cbn. rewrite Hrf. cbn. by rewrite Hmax.
    + apply Forall2_app; [done|]. by repeat constructor.
    + rewrite join_app. cbn. by rewrite app_nil_r.
  - subst cur. rewrite app_nil_r in He. exists (r_tables r), parts. split_and!; [|done|done].
    unfold bind, ret, get_state. by rewrite Hst, Hmax.
Qed.

(** C24: When the database wrote batches through its log and a crash cut the log file off
    at any byte, recovering the file succeeds and gives back the batches whose records
    were written in full, all of them and in one piece each: its highest sequence number
    is that of the last of them, and a lookup at any snapshot up to there, in the tables
    the recovered memtables were written to, the newest first, finds what these batches
    left. It does not matter after which records a memtable was full. *)
Theorem db_recovers_prefix (user : Comparator) (dom : bytes -> Prop) {Hc : ComparatorOk user dom}
    (sync : bool) (full level0_ok : MemTable -> bool) (batches : list (list batch_op)) (n k : nat) :
  (forall m, level0_ok m = true) ->
  Forall (batch_ok dom) batches -> total batches < 2 ^ 56 -> (k <= length batches)%nat ->
  (length (log_of (records 0 (take k batches))) <= n)%nat ->
  ((k < length batches)%nat -> (n < length (log_of (records 0 (take (S k) batches))))%nat) ->
  exists db, write_all user (mkWriteOptions sync true) batches DB_new = Ret Status_OK db /\
  exists tables,
    RecoverLogFile user false full level0_ok (take n (wf_contents (dest_ (log_ db)))) 0 tt =
      Ret (Status_OK, tables, total (take k batches)) tt /\
    forall key s, key_ok dom key -> (s <= length (mjoin (take k batches)))%nat ->
      tables_get user key (Z.of_nat s) (reverse tables) = state_after (take s (mjoin (take k batches))) !! key.
Proof.
  intros Hl0 Hb Ht Hk Hle Hgt.
  destruct (write_all_run user dom (mkWriteOptions sync true) batches DB_new [] (db_new_holds user dom) Hb) as (db & Hw & _ & _ & Hlog); [done|].
  exists db. split; [done|]. specialize (Hlog eq_refl). cbn [last_sequence_ DB_new log_] in Hlog.
  rewrite !records_take in Hle, Hgt.
  destruct (read_log (records 0 batches) n k true true) as ((off & Hadd) & rd' & Hread & _);
    [apply (records_ok dom); [done|lia|lia]|by rewrite length_records|done|by rewrite length_records|].
  assert (wf_contents (dest_ (log_ db)) = log_of (records 0 batches)) as -> by (by rewrite Hadd in Hlog; injection Hlog as <-).
  rewrite <- records_take in Hread. assert (Forall (batch_ok dom) (take k batches)) as Hbk by by apply list.Forall_take.
  assert (total (take k batches) < 2 ^ 56) as Htk.
  { rewrite <- (take_drop k batches) in Ht. unfold total in *. rewrite join_app, length_app in Ht. lia. }
  destruct (recover_file user dom full level0_ok (take k batches) (take n (log_of (records 0 batches))) rd' _ Hl0 Hbk Htk Hread)
    as (tables & parts & Hrec & Hparts & Hjoin).
  { pose proof (log_length (take k (records 0 batches))) as Hll. rewrite length_take_le in Hll by (by rewrite length_records).
    pose proof (log_take_length (records 0 batches) k). rewrite length_take_le, length_take by done. lia. }
  exists tables. split; [done|]. intros key s Hkey Hs.
  assert (seq_ok (Z.of_nat s)) as Hso by (unfold seq_ok, total in *; lia).
  destruct (tables_get_run user dom key (Z.of_nat s) (reverse parts) (reverse tables)) as [(a & (Ha & Hak & Has & Hmx) & ->)|[Hno ->]].
  - by apply Forall2_reverse.
  - apply list.Forall_reverse. apply (parts_ok dom). rewrite Hjoin. by apply numbered_ok; [lia|unfold total in *; lia|apply all_ops_ok].
  - done.
  - done.
  - intros i j p q a b Hij Hi Hj Hap Hbq.
    pose proof (lookup_lt_Some _ _ _ Hj) as Hjl. rewrite length_reverse in Hjl.
    rewrite reverse_lookup in Hi, Hj by lia. eapply (parts_ordered parts); [|..|exact Hj|exact Hi|done|done]; [|lia].
    rewrite Hjoin. apply numbered_sorted.
  - apply snapshot_lookup; [done|]. left. exists a. split; [|done]. rewrite <- Hjoin.
    split_and!; [by apply join_reverse_elem|done|done|]. intros b Hb'%join_reverse_elem. by apply Hmx.
  - apply snapshot_lookup; [done|]. right. split; [|done]. rewrite <- Hjoin. intros a Ha%join_reverse_elem. by apply Hno.
Qed.

(** The second batch is cut off. *)
Lemma db_recovers_prefix_witness :
  exists db, write_all BytewiseComparator (mkWriteOptions false true) batches0 DB_new = Ret Status_OK db /\
  exists tables,
    RecoverLogFile BytewiseComparator false (fun _ => true) (fun _ => true) (take 40 (wf_contents (dest_ (log_ db)))) 0 tt =
      Ret (Status_OK, tables, 2) tt /\
    tables_get BytewiseComparator (str "k") 2 (reverse tables) = Some (Some (str "1")).
Proof.
  destruct (db_recovers_prefix BytewiseComparator bytes_ok false (fun _ => true) (fun _ => true) batches0 40 1) as (db & Hw & tables & Hr & Hget).
  - done.
  - exact batches0_ok.
  - done.
  - cbn. lia.
  - vm_compute. lia.
  - intros _. vm_compute. lia.
  - exists db. split; [exact Hw|]. exists tables. split; [exact Hr|].
    assert (key_ok bytes_ok (str "k")) as Hk by (repeat constructor; cbn; unfold byte_ok; lia).
    exact (Hget (str "k") 2%nat Hk ltac:(cbn; lia)).
Defined.
