(* ===== verification/Merger.v ===== *)
(** The merging iterator: [src/lib/leveldb/table/merger.cc] with
    [table/iterator_wrapper.h], which keeps the promise of iterators when its children
    do: it is a position in the sorted list of all their entries.

    The children are of one class here; [current_] is the index of a child. The
    iterator of a wrapper is never NULL: a wrapper that the constructor has still to
    set holds its iterator already and is not valid. *)

From stdpp Require Import sorting.
From S2P Require Import Prelude Comparator Iterators.

Set Default Proof Using "Type".

Section merger.
Context {S : Type} (I : IteratorOps S) (comparator_ : Comparator).

(** ** The wrapper *)

Record IteratorWrapper : Type := mkWrapper { w_iter : S; w_valid : bool; w_key : bytes }.
Abbreviation wrapper_prog := (prog IteratorWrapper).

Definition on_w_iter {A} (p : prog S A) : wrapper_prog A :=
  zoom w_iter (fun s w => mkWrapper s (w_valid w) (w_key w)) p.

Definition Update : wrapper_prog unit :=
  v <- on_w_iter (it_Valid I) ;;
  modify (fun w => mkWrapper (w_iter w) v (w_key w)) ;;;
  if (v : bool) then
    k <- on_w_iter (it_key I) ;;
    modify (fun w => mkWrapper (w_iter w) (w_valid w) k)
  else ret tt.

Definition wrapper_Set (iter : S) : wrapper_prog unit :=
  modify (fun w => mkWrapper iter (w_valid w) (w_key w)) ;;; Update.

Definition wrapper_key : wrapper_prog bytes := w <- get_state ;; assert_ (w_valid w) ;;; ret (w_key w).
Definition wrapper_value : wrapper_prog bytes := w <- get_state ;; assert_ (w_valid w) ;;; on_w_iter (it_value I).
Definition wrapper_status : wrapper_prog bool := on_w_iter (it_status I).
Definition wrapper_Next : wrapper_prog unit := on_w_iter (it_Next I) ;;; Update.
Definition wrapper_Prev : wrapper_prog unit := on_w_iter (it_Prev I) ;;; Update.
Definition wrapper_Seek (k : bytes) : wrapper_prog unit := on_w_iter (it_Seek I k) ;;; Update.
Definition wrapper_SeekToFirst : wrapper_prog unit := on_w_iter (it_SeekToFirst I) ;;; Update.
Definition wrapper_SeekToLast : wrapper_prog unit := on_w_iter (it_SeekToLast I) ;;; Update.

(** ** The iterator *)

Record MergingIterator : Type := mkMerging {
  children_ : list IteratorWrapper;
  current_ : option nat;
  forward_ : bool }.    (* [direction_ == kForward] *)
Abbreviation merging_prog := (prog MergingIterator).

Definition set_child (i : nat) (w : IteratorWrapper) (m : MergingIterator) : MergingIterator :=
  mkMerging (<[i := w]> (children_ m)) (current_ m) (forward_ m).
Definition set_current (c : option nat) : merging_prog unit := modify (fun m => mkMerging (children_ m) c (forward_ m)).
Definition set_forward (b : bool) : merging_prog unit := modify (fun m => mkMerging (children_ m) (current_ m) b).

(** A call on [children_[i]]. *)
Definition on_child {A} (i : nat) (p : wrapper_prog A) : merging_prog A := fun m =>
  match children_ m !! i with
  | None => UB OutOfBounds
  | Some w =>
      match p w with
      | Ret a w' => Ret a (set_child i w' m)
      | Exit n w' => Exit n (set_child i w' m)
      | UB why => UB why
      end
  end.

(** A loop over the children with these indices. *)
Fixpoint for_each (idx : list nat) (body : nat -> merging_prog unit) : merging_prog unit :=
  match idx with
  | [] => ret tt
  | i :: idx' => body i ;;; for_each idx' body
  end.

Definition indices (m : MergingIterator) : list nat := seq 0 (length (children_ m)).

Definition MergingIterator_new (children : list S) : prog unit MergingIterator := fun u =>
  let start := mkMerging ((fun s => mkWrapper s false []) <$> children) None true in
  match for_each (indices start) (fun i =>
          w <- gets (fun m => children_ m !! i) ;;
          w <- deref OutOfBounds w ;;
          on_child i (wrapper_Set (w_iter w))) start with
  | Ret _ m => Ret m u
  | Exit n _ => Exit n u
  | UB w => UB w
  end.

Definition Merging_Valid : merging_prog bool := gets (fun m => bool_decide (is_Some (current_ m))).

(** The loops of [FindSmallest] and [FindLargest]: the child whose key is better. *)
Fixpoint pick (better : bytes -> bytes -> bool) (idx : list nat) (best : option nat) : merging_prog (option nat) :=
  match idx with
  | [] => ret best
  | i :: idx' =>
      w <- gets (fun m => children_ m !! i) ;;
      w <- deref OutOfBounds w ;;
      if w_valid w then
        match best with
        | None => pick better idx' (Some i)
        | Some b =>
            k <- on_child i wrapper_key ;;
            kb <- on_child b wrapper_key ;;
            pick better idx' (if better k kb then Some i else best)
        end
      else pick better idx' best
  end.

Definition FindSmallest : merging_prog unit :=
  idx <- gets indices ;;
  smallest <- pick (fun k kb => Compare comparator_ k kb <? 0) idx None ;;
  set_current smallest.

Definition FindLargest : merging_prog unit :=
  idx <- gets indices ;;
  largest <- pick (fun k kb => Compare comparator_ k kb >? 0) (reverse idx) None ;;
  set_current largest.

Definition Merging_SeekToFirst : merging_prog unit :=
  idx <- gets indices ;;
  for_each idx (fun i => on_child i wrapper_SeekToFirst) ;;;
  FindSmallest ;;;
  set_forward true.

Definition Merging_SeekToLast : merging_prog unit :=
  idx <- gets indices ;;
  for_each idx (fun i => on_child i wrapper_SeekToLast) ;;;
  FindLargest ;;;
  set_forward false.

Definition Merging_Seek (target : bytes) : merging_prog unit :=
  idx <- gets indices ;;
  for_each idx (fun i => on_child i (wrapper_Seek target)) ;;;
  FindSmallest ;;;
  set_forward true.

(** [assert (Valid ())], [current_] *)
Definition the_current : merging_prog nat := c <- gets current_ ;; deref AssertFailed c.

Definition Merging_key : merging_prog bytes := c <- the_current ;; on_child c wrapper_key.
Definition Merging_value : merging_prog bytes := c <- the_current ;; on_child c wrapper_value.

(** The child goes behind the key, or before it. *)
Definition after_key (k : bytes) : wrapper_prog unit :=
  wrapper_Seek k ;;;
  w <- get_state ;;
  if w_valid w then
    k' <- wrapper_key ;;
    if Compare comparator_ k k' =? 0 then wrapper_Next else ret tt
  else ret tt.

Definition before_key (k : bytes) : wrapper_prog unit :=
  wrapper_Seek k ;;;
  w <- get_state ;;
  if w_valid w then wrapper_Prev else wrapper_SeekToLast.

(** When the direction changes, every other child is put behind the key, or before it. *)
Definition turn_forward (c : nat) : merging_prog unit :=
  fwd <- gets forward_ ;;
  if negb fwd then
    idx <- gets indices ;;
    for_each idx (fun i => if (i =? c)%nat then ret tt else k <- Merging_key ;; on_child i (after_key k)) ;;;
    set_forward true
  else ret tt.

Definition turn_backward (c : nat) : merging_prog unit :=
  fwd <- gets forward_ ;;
  if (fwd : bool) then
    idx <- gets indices ;;
    for_each idx (fun i => if (i =? c)%nat then ret tt else k <- Merging_key ;; on_child i (before_key k)) ;;;
    set_forward false
  else ret tt.

Definition Merging_Next : merging_prog unit :=
  c <- the_current ;;
  turn_forward c ;;;
  on_child c wrapper_Next ;;;
  FindSmallest.

Definition Merging_Prev : merging_prog unit :=
  c <- the_current ;;
  turn_backward c ;;;
  on_child c wrapper_Prev ;;;
  FindLargest.

(** The first status that is not ok. *)
Fixpoint status_of (idx : list nat) : merging_prog bool :=
  match idx with
  | [] => ret true
  | i :: idx' => s <- on_child i wrapper_status ;; if (s : bool) then status_of idx' else ret false
  end.

Definition Merging_status : merging_prog bool := idx <- gets indices ;; status_of idx.

Definition Merging : IteratorOps MergingIterator :=
  mkIteratorOps Merging_Valid Merging_SeekToFirst Merging_SeekToLast Merging_Seek Merging_Next Merging_Prev
    Merging_key Merging_value Merging_status.

(** ** Which iterator is made *)

Inductive merged : Type :=
| MergedEmpty (status : bool)
| MergedChild (child : S)
| MergedMerging (m : MergingIterator).

Definition NewMergingIterator (list : list S) : prog unit merged :=
  match list with
  | [] => ret (MergedEmpty true)
  | [child] => ret (MergedChild child)
  | _ => m <- MergingIterator_new list ;; ret (MergedMerging m)
  end.
End merger.
