(* ===== verification/MergerOk.v ===== *)
(** The merging iterator of [Merger] over children that keep the promise of iterators,
    whose entries have different keys, keeps it for the sorted list of all entries. *)

From stdpp Require Import sorting.
From S2P Require Import Prelude Comparator Iterators Merger.

Set Default Proof Using "Type".

(** ** Cutting a sorted list *)

(** The number of entries before the first that has the property. *)
Fixpoint cut (P : bytes -> bool) (L : list (bytes * bytes)) : nat :=
  match L with
  | [] => 0
  | kv :: L' => if P (fst kv) then 0 else S (cut P L')
  end.

Lemma cut_ext P Q L : (forall x, x ∈ L -> P (fst x) = Q (fst x)) -> cut P L = cut Q L.
Proof.
  induction L as [|x L IH]; intros H; [done|]. simpl. rewrite (H x) by (by left). destruct (Q _); [done|].
  f_equal. apply IH. intros y Hy. apply H. by right.
Qed.

Lemma cut_length P L : (cut P L <= length L)%nat.
Proof. induction L as [|x L IH]; simpl; [lia|]. destruct (P _); lia. Qed.

Lemma cut_none L : cut (fun _ => false) L = length L.
Proof. induction L as [|x L IH]; simpl; [done|]. by f_equal. Qed.

Lemma cut_hit P L x : L !! cut P L = Some x -> P (fst x) = true.
Proof. induction L as [|y L IH]; simpl; [done|]. destruct (P (fst y)) eqn:E; simpl; [by intros [= <-]|done]. Qed.

Lemma cut_below P L j x : L !! j = Some x -> (j < cut P L)%nat -> P (fst x) = false.
Proof.
  revert j. induction L as [|y L IH]; intros j; simpl; [done|]. destruct (P (fst y)) eqn:E; [lia|].
  destruct j as [|j]; simpl; [by intros [= <-]|]. intros. eapply IH; [done|lia].
Qed.

Section order.
Context (c : Comparator) (dom : bytes -> Prop) {Hc : ComparatorOk c dom}.

Definition klt (x y : bytes * bytes) : Prop := Compare c (fst x) (fst y) < 0.
Definition ge (k k' : bytes) : bool := 0 <=? Compare c k' k.
Definition gt (k k' : bytes) : bool := 0 <? Compare c k' k.

Lemma find_cut target L :
  fst <$> list_find (fun kv => 0 <= Compare c (fst kv) target) L = position L (cut (ge target) L).
Proof using Type.
  pose proof (cut_length (ge target) L) as Hl. rewrite <- (take_drop (cut (ge target) L) L) at 1.
  rewrite find_position, take_drop, length_take, Nat.min_l; [done|done| |].
  - intros x (j & Hj & Hlt)%elem_of_take. pose proof (cut_below _ _ _ _ Hj Hlt) as H. unfold ge in H. apply Z.leb_gt in H. lia.
  - intros x. rewrite head_lookup, lookup_drop, Nat.add_0_r. intros H%cut_hit. by apply Z.leb_le.
Qed.

(** Keys of the entries of [kvs]. *)
Context (kvs : list (bytes * bytes)) (Hsort : StronglySorted klt kvs) (Hdom : Forall (fun kv => dom (fst kv)) kvs).

Lemma kvs_dom x : x ∈ kvs -> dom (fst x).
Proof using Hdom. rewrite list.Forall_forall in Hdom. apply Hdom. Qed.

Lemma sorted_lookup L i j x y : StronglySorted klt L -> L !! i = Some x -> L !! j = Some y -> (i < j)%nat -> klt x y.
Proof using Type.
  intros Hs Hi Hj Hlt. rewrite <- (take_drop_middle L j y Hj) in Hs.
  eapply (StronglySorted_app_1_elem_of _ _ _ x y Hs); [|by left].
  apply elem_of_take. by exists i.
Qed.

Lemma klt_irrefl x : x ∈ kvs -> ~ klt x x.
Proof using Hc Hdom. intros H%kvs_dom. unfold klt. rewrite (cmp_refl c dom) by done. lia. Qed.

Lemma klt_trans x y z : x ∈ kvs -> y ∈ kvs -> z ∈ kvs -> klt x y -> klt y z -> klt x z.
Proof using Hc Hdom. intros Hx%kvs_dom Hy%kvs_dom Hz%kvs_dom. unfold klt. by apply cmp_trans. Qed.

Lemma same_entry x y : x ∈ kvs -> y ∈ kvs -> Compare c (fst x) (fst y) = 0 -> x = y.
Proof using Hc Hdom Hsort.
  intros Hx Hy E. apply (cmp_eq (c:=c)) in E; [|by apply kvs_dom..].
  pose proof (klt_irrefl x Hx) as Hir. apply list_elem_of_lookup in Hx as [i Hi]. apply list_elem_of_lookup in Hy as [j Hj].
  destruct (Nat.lt_trichotomy i j) as [H|[->|H]]; [|congruence|].
  - pose proof (sorted_lookup kvs i j x y Hsort Hi Hj H) as Hl. unfold klt in *. by rewrite <- E in Hl.
  - pose proof (sorted_lookup kvs j i y x Hsort Hj Hi H) as Hl. unfold klt in *. by rewrite <- E in Hl.
Qed.

Lemma ge_klt x y : x ∈ kvs -> y ∈ kvs -> ge (fst x) (fst y) = true <-> x = y \/ klt x y.
Proof using Hc Hdom Hsort.
  intros Hx Hy. unfold ge, klt. rewrite Z.leb_le.
  pose proof (cmp_flip (c:=c) _ _ (kvs_dom x Hx) (kvs_dom y Hy)). split.
  - intros H1. destruct (Z.eq_dec (Compare c (fst y) (fst x)) 0) as [E|]; [|right; lia]. left. symmetry. by apply same_entry.
  - intros [->|]; [|lia]. by rewrite (cmp_refl c dom) by (by apply kvs_dom).
Qed.

Lemma gt_klt x y : x ∈ kvs -> y ∈ kvs -> gt (fst x) (fst y) = true <-> klt x y.
Proof using Hc Hdom.
  intros Hx Hy. unfold gt, klt. rewrite Z.ltb_lt. pose proof (cmp_flip (c:=c) _ _ (kvs_dom x Hx) (kvs_dom y Hy)). lia.
Qed.

(** The property holds from some key on. *)
Definition upward (P : bytes -> bool) : Prop :=
  forall x y, x ∈ kvs -> y ∈ kvs -> klt x y -> P (fst x) = true -> P (fst y) = true.

Lemma upward_ge_any k : dom k -> upward (ge k).
Proof using Hc Hdom.
  intros Hk x y Hx%kvs_dom Hy%kvs_dom. unfold klt, ge. rewrite !Z.leb_le. intros Hlt Hge.
  pose proof (cmp_flip (c:=c) _ _ Hk Hx). pose proof (cmp_flip (c:=c) _ _ Hy Hk). pose proof (cmp_flip (c:=c) _ _ Hx Hk).
  destruct (Z.lt_ge_cases (Compare c (fst y) k) 0) as [Hb|]; [|done].
  pose proof (cmp_trans _ _ _ Hx Hy Hk Hlt Hb). lia.
Qed.

Lemma upward_gt x : x ∈ kvs -> upward (gt (fst x)).
Proof using Hc Hdom. intros Hx y z Hy Hz. rewrite !gt_klt by done. intros. by apply (klt_trans x y z). Qed.

Lemma cut_spec P L j x :
  upward P -> (forall y, y ∈ L -> y ∈ kvs) -> StronglySorted klt L -> L !! j = Some x ->
  P (fst x) = true <-> (cut P L <= j)%nat.
Proof using Type.
  intros HP Hin Hs Hx. split.
  - intros H. destruct (Nat.lt_ge_cases j (cut P L)) as [Hlt|]; [|done]. by rewrite (cut_below P L j x Hx Hlt) in H.
  - intros Hle. destruct (lookup_lt_is_Some_2 L (cut P L)) as [y Hy].
    { pose proof (lookup_lt_Some _ _ _ Hx). lia. }
    pose proof (cut_hit P L y Hy) as HPy. destruct (decide (cut P L = j)) as [E|]; [rewrite E in Hy; congruence|].
    eapply (HP y x); [by eapply Hin, list_elem_of_lookup_2..| |done]. apply (sorted_lookup L (cut P L) j y x Hs Hy Hx). lia.
Qed.
End order.

(** ** The children *)

Section children.
Context {S : Type} (I : IteratorOps S) (c : Comparator) (dom : bytes -> Prop).
Context (Ls : list (list (bytes * bytes))) (at_ : nat -> option nat -> S -> Prop).
Context (HI : forall i L, Ls !! i = Some L -> IteratorOk I c dom L (at_ i)).

(** The wrapper of a child at a position. *)
Record w_at (i : nat) (p : option nat) (w : @IteratorWrapper S) : Prop := {
  wa_iter : at_ i p (w_iter w);
  wa_valid : w_valid w = bool_decide (is_Some p);
  wa_key L j kv : Ls !! i = Some L -> p = Some j -> L !! j = Some kv -> w_key w = fst kv }.

Lemma Update_run i L p (w : @IteratorWrapper S) :
  Ls !! i = Some L -> at_ i p (w_iter w) -> exists w', Update I w = Ret tt w' /\ w_at i p w'.
Proof using HI.
  intros HL H. pose proof (HI i L HL) as Hi. destruct w as [x v k]. cbn in H.
  unfold Update, on_w_iter, zoom, bind, modify. cbn. rewrite (io_valid p x H). destruct p as [j|]; cbn.
  - destruct (io_entry j x H) as (k' & v' & Hj & -> & _). eexists. split; [done|]. split; [done|done|].
    intros L' j' kv HL' [= <-] Hkv. rewrite HL in HL'. injection HL' as <-. rewrite Hj in Hkv. by injection Hkv as <-.
  - eexists. split; [done|]. by split.
Qed.

(** A move of a child. *)
Definition wrapper_move (op : iter_op) : prog (@IteratorWrapper S) unit := on_w_iter (move I op) ;;; Update I.

Lemma wrapper_move_run op i L p p' w :
  Ls !! i = Some L -> w_at i p w -> target_in dom op -> spec_op c L op p = Ret tt p' ->
  exists w', wrapper_move op w = Ret tt w' /\ w_at i p' w'.
Proof using HI.
  intros HL [Hat _ _] Ht Hop. pose proof (HI i L HL) as Hi. pose proof (io_move op p (w_iter w) Hat Ht) as Hm. rewrite Hop in Hm.
  destruct Hm as (x & Hx & Hatx). unfold wrapper_move, on_w_iter, zoom, bind. rewrite Hx. by apply (Update_run i L).
Qed.

(** The positions of all children. *)
Record kids (ps : nat -> option nat) (m : @MergingIterator S) : Prop := {
  ki_length : length (children_ m) = length Ls;
  ki_child i w : children_ m !! i = Some w -> w_at i (ps i) w }.

Definition upd (ps : nat -> option nat) (i : nat) (p : option nat) : nat -> option nat := fun j => if decide (j = i) then p else ps j.

Lemma kids_get ps m i : kids ps m -> (i < length Ls)%nat ->
  exists L w, Ls !! i = Some L /\ children_ m !! i = Some w /\ w_at i (ps i) w.
Proof using Type.
  intros [Hl Hk] Hi. destruct (lookup_lt_is_Some_2 Ls i Hi) as [L HL].
  destruct (lookup_lt_is_Some_2 (children_ m) i) as [w Hw]; [lia|]. exists L, w. auto.
Qed.

Lemma kids_ext ps ps' m : kids ps m -> (forall i, (i < length Ls)%nat -> ps i = ps' i) -> kids ps' m.
Proof using Type.
  intros [Hl Hk] E. split; [done|]. intros i w Hw. rewrite <- E; [by apply Hk|]. apply lookup_lt_Some in Hw. lia.
Qed.

Lemma kids_same ps m m' : children_ m' = children_ m -> kids ps m -> kids ps m'.
Proof using Type. intros E [Hl Hk]. split; rewrite E; done. Qed.

Lemma on_child_run {A} ps m i (p : prog IteratorWrapper A) p' :
  kids ps m -> (i < length Ls)%nat ->
  (forall L w, Ls !! i = Some L -> w_at i (ps i) w -> exists a w', p w = Ret a w' /\ w_at i p' w') ->
  exists a w', on_child i p m = Ret a (set_child i w' m) /\ kids (upd ps i p') (set_child i w' m).
Proof using Type.
  intros Hk Hi Hp. destruct (kids_get ps m i Hk Hi) as (L & w & HL & Hw & Hat). destruct (Hp L w HL Hat) as (a & w' & Hr & Hat').
  exists a, w'. unfold on_child. rewrite Hw, Hr. split; [done|]. destruct Hk as [Hl Hk]. split; [simpl; by rewrite length_insert|].
  intros j x. simpl. unfold upd. destruct (decide (j = i)) as [->|].
  - rewrite list_lookup_insert_eq by lia. by intros [= <-].
  - rewrite list_lookup_insert_ne by done. apply Hk.
Qed.

Lemma on_child_read {A} m i (p : prog (@IteratorWrapper S) A) w a :
  children_ m !! i = Some w -> p w = Ret a w -> on_child i p m = Ret a m.
Proof using Type.
  intros Hw Hr. unfold on_child. rewrite Hw, Hr. unfold set_child. rewrite list_insert_id by done. by destruct m.
Qed.

(** The entry that a child shows. *)
Definition shown (ps : nat -> option nat) (i : nat) (kv : bytes * bytes) : Prop :=
  exists L j, Ls !! i = Some L /\ ps i = Some j /\ L !! j = Some kv.

Lemma shown_key ps m i kv : kids ps m -> shown ps i kv -> on_child i wrapper_key m = Ret (fst kv) m.
Proof using Type.
  intros Hk (L & j & HL & Hp & Hkv). destruct (kids_get ps m i Hk) as (L' & w & HL' & Hw & Hat); [by eapply lookup_lt_Some|].
  apply (on_child_read m i wrapper_key w); [done|]. unfold wrapper_key, bind, get_state. rewrite (wa_valid _ _ _ Hat), Hp. cbn.
  by rewrite (wa_key _ _ _ Hat L j kv HL Hp Hkv).
Qed.

Lemma shown_value ps m i kv : kids ps m -> shown ps i kv -> on_child i (wrapper_value I) m = Ret (snd kv) m.
Proof using HI.
  intros Hk (L & j & HL & Hp & Hkv). destruct (kids_get ps m i Hk) as (L' & w & HL' & Hw & Hat); [by eapply lookup_lt_Some|].
  apply (on_child_read m i _ w); [done|]. unfold wrapper_value, bind, get_state, on_w_iter, zoom. rewrite (wa_valid _ _ _ Hat), Hp. cbn.
  pose proof (HI i L HL) as Hi. pose proof (wa_iter _ _ _ Hat) as Hx. rewrite Hp in Hx.
  destruct (io_entry j (w_iter w) Hx) as (k & v & E & _ & ->). rewrite Hkv in E. simplify_eq. by destruct w.
Qed.

Lemma valid_shown ps m i : kids ps m -> is_Some (ps i) -> (i < length Ls)%nat -> exists kv, shown ps i kv.
Proof using HI.
  intros Hk [j Hj] Hi. destruct (kids_get ps m i Hk Hi) as (L & w & HL & Hw & Hat). pose proof (HI i L HL) as HiL.
  pose proof (wa_iter _ _ _ Hat) as Hx. rewrite Hj in Hx. destruct (io_entry j (w_iter w) Hx) as (k & v & E & _). by exists (k, v), L, j.
Qed.

(** *** Loops *)

Lemma for_each_run (ps' : nat -> option nat) (body : nat -> prog MergingIterator unit) (Inv : @MergingIterator S -> Prop) idx : forall m ps,
  NoDup idx -> (forall i, i ∈ idx -> (i < length Ls)%nat) -> kids ps m -> Inv m ->
  (forall i m ps0, i ∈ idx -> kids ps0 m -> Inv m -> ps0 i = ps i -> (forall j, ps0 j = ps j \/ ps0 j = ps' j) ->
    exists m', body i m = Ret tt m' /\ kids (upd ps0 i (ps' i)) m' /\ Inv m') ->
  exists m', for_each idx body m = Ret tt m' /\ Inv m' /\ kids (fun j => if decide (j ∈ idx) then ps' j else ps j) m'.
Proof using Type.
  assert (forall m ps0 ps, NoDup idx -> (forall i, i ∈ idx -> (i < length Ls)%nat) -> kids ps0 m -> Inv m ->
    (forall i, i ∈ idx -> ps0 i = ps i) -> (forall j, ps0 j = ps j \/ ps0 j = ps' j) ->
    (forall i m ps0, i ∈ idx -> kids ps0 m -> Inv m -> ps0 i = ps i -> (forall j, ps0 j = ps j \/ ps0 j = ps' j) ->
      exists m', body i m = Ret tt m' /\ kids (upd ps0 i (ps' i)) m' /\ Inv m') ->
    exists m', for_each idx body m = Ret tt m' /\ Inv m' /\ kids (fun j => if decide (j ∈ idx) then ps' j else ps0 j) m') as H.
  { induction idx as [|i idx IH]; intros m ps0 ps Hnd Hlt Hk Hi Hsame Hor Hb; [by exists m|].
    apply list.NoDup_cons in Hnd as [Hni Hnd].
    destruct (Hb i m ps0) as (m1 & Hr & Hk1 & Hi1); [by left|done|done|apply Hsame; by left|done|].
    destruct (IH m1 (upd ps0 i (ps' i)) ps) as (m2 & Hr2 & Hi2 & Hk2); [done|intros j Hj; apply Hlt; by right|done|done| | | |].
    - intros j Hj. unfold upd. rewrite decide_False by (intros ->; done). apply Hsame. by right.
    - intros j. unfold upd. case_decide as E; [right; by rewrite E|apply Hor].
    - intros j m' ps1 Hj. apply Hb. by right.
    - exists m2. simpl. unfold bind. rewrite Hr. split_and!; [done|done|]. eapply kids_ext; [exact Hk2|]. intros j _. cbn.
      unfold upd. destruct (decide (j ∈ idx)) as [Hj|Hj], (decide (j = i)) as [E|E], (decide (j ∈ i :: idx)) as [Hj'|Hj'];
        rewrite elem_of_cons in Hj'; first [done|tauto|by rewrite E]. }
  intros m ps Hnd Hlt Hk Hi Hb. apply (H m ps ps); auto.
Qed.
End children.

(** ** The merged list *)

Section merging.
Context {S : Type} (I : IteratorOps S) (c : Comparator) (dom tdom : bytes -> Prop) {Hc : ComparatorOk c dom}.
Context (Ls : list (list (bytes * bytes))) (at_ : nat -> option nat -> S -> Prop).
Context (HI : forall i L, Ls !! i = Some L -> IteratorOk I c tdom L (at_ i)) (Htd : forall k, tdom k -> dom k).
Context (kvs : list (bytes * bytes)) (Hsort : StronglySorted (klt c) kvs) (Hdom : Forall (fun kv => dom (fst kv)) kvs).
Context (Hkeys : forall x, x ∈ kvs -> tdom (fst x)).
Context (Hperm : kvs ≡ₚ mjoin Ls) (Hsorts : forall i L, Ls !! i = Some L -> StronglySorted (klt c) L).

#[local] Abbreviation kids_ := (kids Ls at_).
#[local] Abbreviation shown_ := (shown Ls).
#[local] Abbreviation lt_ := (klt c).
#[local] Abbreviation up := (upward c kvs).

Lemma in_kvs i L x : Ls !! i = Some L -> x ∈ L -> x ∈ kvs.
Proof using Hperm. intros HL Hx. rewrite Hperm. apply list_elem_of_join. exists L. split; [done|]. by eapply list_elem_of_lookup_2. Qed.

Lemma in_child x : x ∈ kvs -> exists i L, Ls !! i = Some L /\ x ∈ L.
Proof using Hperm.
  rewrite Hperm. intros (L & Hx & HL)%list_elem_of_join. apply list_elem_of_lookup in HL as [i Hi]. eauto.
Qed.

(** An entry is in one child. *)
Lemma one_child i j L L' x : Ls !! i = Some L -> Ls !! j = Some L' -> x ∈ L -> x ∈ L' -> i = j.
Proof using Hc Hsort Hdom Hperm.
  intros Hi Hj Hx Hx'.
  assert (NoDup (mjoin Ls)) as Hnd.
  { rewrite <- Hperm. clear -Hc Hsort Hdom. induction Hsort as [|y l Hl IH Hy]; [constructor|]. apply Forall_cons_1 in Hdom as [Hd Hdl].
    apply list.NoDup_cons. split; [|by apply IH]. intros Hin. rewrite list.Forall_forall in Hy. specialize (Hy y Hin).
    unfold klt in Hy. rewrite (cmp_refl c dom) in Hy by done. lia. }
  clear -Hnd Hi Hj Hx Hx'. revert i j Hi Hj. induction Ls as [|M Ms IH]; intros [|i] [|j] Hi Hj; simpl in *; simplify_eq; try done;
    apply list.NoDup_app in Hnd as (_ & Hn & Hnd).
  - destruct (Hn x Hx). apply list_elem_of_join. exists L'. split; [done|]. by eapply list_elem_of_lookup_2.
  - destruct (Hn x Hx'). apply list_elem_of_join. exists L. split; [done|]. by eapply list_elem_of_lookup_2.
  - f_equal. by apply IH.
Qed.

(** The children at the first entries with a property, and at the last without it. *)
Definition fwd_pos (P : bytes -> bool) (i : nat) : option nat :=
  match Ls !! i with Some L => position L (cut P L) | None => None end.
Definition rev_pos (P : bytes -> bool) (i : nat) : option nat :=
  match Ls !! i with Some L => before (cut P L) | None => None end.

Lemma position_lookup (L : list (bytes * bytes)) i j : position L i = Some j -> i = j.
Proof using Type. unfold position. case_bool; [by intros [= ->]|done]. Qed.

Lemma fwd_shown P i kv : shown_ (fwd_pos P) i kv <-> exists L, Ls !! i = Some L /\ L !! cut P L = Some kv.
Proof using Type.
  unfold shown, fwd_pos. split.
  - intros (L & j & HL & Hp & Hkv). exists L. rewrite HL in Hp. apply position_lookup in Hp as ->. done.
  - intros (L & HL & Hkv). exists L, (cut P L). rewrite HL. split_and!; [done| |done]. unfold position.
    by rewrite (proj2 (Nat.ltb_lt _ _)) by (by eapply lookup_lt_Some).
Qed.

Lemma rev_shown P i kv : shown_ (rev_pos P) i kv <-> exists L j, Ls !! i = Some L /\ cut P L = Datatypes.S j /\ L !! j = Some kv.
Proof using Type.
  unfold shown, rev_pos. split.
  - intros (L & j & HL & Hp & Hkv). exists L, j. rewrite HL in Hp. destruct (cut P L); simpl in Hp; [done|]. by injection Hp as ->.
  - intros (L & j & HL & Hp & Hkv). exists L, j. rewrite HL, Hp. done.
Qed.

(** *** Picking a child *)

Lemma shown_in ps i kv : shown_ ps i kv -> kv ∈ kvs.
Proof using Hperm. intros (L & j & HL & _ & Hkv). eapply in_kvs; [done|]. by eapply list_elem_of_lookup_2. Qed.

Lemma shown_fun ps i kv kv' : shown_ ps i kv -> shown_ ps i kv' -> kv = kv'.
Proof using Type.
  intros (L & j & HL & Hj & Hkv) (L' & j' & HL' & Hj' & Hkv'). rewrite HL in HL'. injection HL' as <-.
  rewrite Hj in Hj'. injection Hj' as <-. congruence.
Qed.

(** The order that [pick] looks for, on the entries. *)
Class Better (better : bytes -> bytes -> bool) : Prop := {
  be_asym x y : x ∈ kvs -> y ∈ kvs -> better (fst x) (fst y) = true -> better (fst y) (fst x) = false;
  be_trans x y z : x ∈ kvs -> y ∈ kvs -> z ∈ kvs ->
    better (fst z) (fst y) = false -> better (fst y) (fst x) = false -> better (fst z) (fst x) = false }.

Lemma be_irrefl better x : Better better -> x ∈ kvs -> better (fst x) (fst x) = false.
Proof using Type. intros HB Hx. destruct (better _ _) eqn:E; [|done]. pose proof (be_asym x x Hx Hx E). congruence. Qed.

(** No child of [from] shows a better entry than the child [b] does. *)
Definition best_among better ps (b : nat) (from : nat -> Prop) : Prop :=
  exists kv, shown_ ps b kv /\ forall i kv', from i -> shown_ ps i kv' -> better (fst kv') (fst kv) = false.

Lemma best_trans better ps b b' from from' :
  Better better -> best_among better ps b from -> best_among better ps b' from' -> from' b ->
  best_among better ps b' (fun i => from i \/ from' i).
Proof using Hperm.
  intros HB (kv & Hs & Hm) (kv1 & Hs1 & Hm1) Hb. exists kv1. split; [done|]. intros i kv' [Hi|Hi] Hs'; [|by eapply Hm1].
  apply (be_trans kv1 kv kv'); [by eapply shown_in..| |by eapply Hm1]. by eapply Hm.
Qed.

Lemma pick_step better ps m i idx best :
  Better better -> kids_ ps m -> (i < length Ls)%nat -> (forall b, best = Some b -> exists kv, shown_ ps b kv) ->
  exists best', pick better (i :: idx) best m = pick better idx best' m /\
    match best' with
    | None => best = None /\ ps i = None
    | Some b => best_among better ps b (fun j => j = i \/ best = Some j)
    end.
Proof using HI Hperm.
  intros HB Hk Hi Hbest. destruct (kids_get Ls at_ ps m i Hk Hi) as (L & w & HL & Hw & Hat).
  cbn [pick]. unfold bind at 1 2, gets. rewrite Hw. cbn [deref]. unfold ret at 1. rewrite (wa_valid _ _ _ _ _ Hat).
  assert (forall b kv, best = Some b -> shown_ ps b kv -> best_among better ps b (fun j => best = Some j)) as Hself.
  { intros b kv -> Hb. exists kv. split; [done|]. intros j kv' [= <-] Hs'. rewrite (shown_fun ps b kv' kv Hs' Hb).
    apply be_irrefl; [done|by eapply shown_in]. }
  destruct (bool_decide_reflect (is_Some (ps i))) as [Hsome|Hnone].
  2: { exists best. split; [done|]. assert (ps i = None) as Hn by (by apply eq_None_not_Some). destruct best as [b|]; [|done].
       destruct (Hbest b eq_refl) as (kv & Hb). destruct (Hself b kv eq_refl Hb) as (kv1 & Hs & Hm). exists kv1. split; [done|].
       intros j kv' [->|E] Hs'; [|by eapply Hm]. destruct Hs' as (? & ? & _ & E & _). congruence. }
  destruct (valid_shown I c tdom Ls at_ HI ps m i Hk Hsome Hi) as (kv & Hkv). pose proof (shown_in ps i kv Hkv) as Hin.
  destruct best as [b|].
  2: { exists (Some i). split; [done|]. exists kv. split; [done|]. intros j kv' [->|?] Hs'; [|done].
       rewrite (shown_fun ps i kv' kv Hs' Hkv). by apply be_irrefl. }
  destruct (Hbest b eq_refl) as (kvb & Hkvb). pose proof (shown_in ps b kvb Hkvb) as Hinb. unfold bind.
  rewrite (shown_key Ls at_ ps m i kv Hk Hkv), (shown_key Ls at_ ps m b kvb Hk Hkvb).
  destruct (better (fst kv) (fst kvb)) eqn:Hbt; eexists; (split; [done|]); [exists kv|exists kvb]; (split; [done|]);
    intros j kv' [->|[= <-]] Hs'.
  - rewrite (shown_fun ps i kv' kv Hs' Hkv). by apply be_irrefl.
  - rewrite (shown_fun ps b kv' kvb Hs' Hkvb). by apply be_asym.
  - by rewrite (shown_fun ps i kv' kv Hs' Hkv).
  - rewrite (shown_fun ps b kv' kvb Hs' Hkvb). by apply be_irrefl.
Qed.

Lemma pick_run better ps m idx :
  Better better -> kids_ ps m -> (forall i, i ∈ idx -> (i < length Ls)%nat) ->
  forall best, (forall b, best = Some b -> exists kv, shown_ ps b kv) ->
  exists r, pick better idx best m = Ret r m /\
    match r with
    | None => best = None /\ forall i, i ∈ idx -> ps i = None
    | Some b => best_among better ps b (fun j => j ∈ idx \/ best = Some j)
    end.
Proof using HI Hperm.
  intros HB Hk. induction idx as [|i idx IH]; intros Hlt best Hbest.
  { exists best. split; [done|]. destruct best as [b|]; [|split; [done|by intros i ?%elem_of_nil]].
    destruct (Hbest b eq_refl) as (kv & Hkv). exists kv. split; [done|]. intros i kv' [?%elem_of_nil|[= <-]] Hs; [done|].
    rewrite (shown_fun ps b kv' kv Hs Hkv). apply be_irrefl; [done|by eapply shown_in]. }
  destruct (pick_step better ps m i idx best HB Hk) as (best' & -> & Hb'); [apply Hlt; by left|done|].
  destruct (IH ltac:(intros; apply Hlt; by right) best') as (r & -> & Hr).
  { intros b ->. destruct Hb' as (kv & Hs & _). eauto. }
  exists r. split; [done|]. destruct best' as [b'|].
  - destruct r as [b|]; [|by destruct Hr]. destruct (best_trans better ps b' b _ _ HB Hb' Hr) as (kv & Hs & Hm); [by right|].
    exists kv. split; [done|]. intros j kv' Hj. apply Hm. rewrite elem_of_cons in Hj. naive_solver.
  - destruct Hb' as [-> Hn]. destruct r as [b|].
    + destruct Hr as (kv & Hs & Hm). exists kv. split; [done|]. intros j kv' [[->|Hj]%elem_of_cons|?] Hs'; [|by eauto|done].
      destruct Hs' as (? & ? & _ & E & _). congruence.
    + destruct Hr as [_ Hr]. split; [done|]. by intros j [->|Hj]%elem_of_cons; [|apply Hr].
Qed.

(** The merging iterator at a position. *)
Definition merging_at (p : option nat) (m : @MergingIterator S) : Prop :=
  match p with
  | None => current_ m = None /\ exists ps, kids_ ps m
  | Some n => exists kv b, kvs !! n = Some kv /\ current_ m = Some b /\
      let ps := if forward_ m then fwd_pos (ge c (fst kv)) else rev_pos (gt c (fst kv)) in
      kids_ ps m /\ shown_ ps b kv
  end.

Lemma total_order x y : x ∈ kvs -> y ∈ kvs -> lt_ x y \/ x = y \/ lt_ y x.
Proof using Hc Hsort Hdom.
  intros Hx Hy. pose proof (ge_klt c dom kvs Hsort Hdom x y Hx Hy) as H.
  destruct (ge c (fst x) (fst y)) eqn:E; [naive_solver|]. right. right. unfold ge in E. by apply Z.leb_gt in E.
Qed.

#[local] Instance smaller_better : Better (fun k kb => Compare c k kb <? 0).
Proof using Hc Hsort Hdom.
  split.
  - intros x y Hx Hy. rewrite Z.ltb_lt, Z.ltb_ge. intros H. pose proof (kvs_dom dom kvs Hdom x Hx) as Dx. pose proof (kvs_dom dom kvs Hdom y Hy) as Dy.
    apply (cmp_flip (c:=c) _ _ Dx Dy) in H. lia.
  - intros x y z Hx Hy Hz H1%Z.ltb_ge H2%Z.ltb_ge. apply Z.ltb_ge. destruct (Z.lt_ge_cases (Compare c (fst z) (fst x)) 0) as [H|]; [|done].
    destruct (total_order x y Hx Hy) as [Hl|[->|Hl]]; [|done|unfold klt in Hl; lia].
    pose proof (klt_trans c dom kvs Hdom z x y Hz Hx Hy H Hl) as Hzy. unfold klt in Hzy. lia.
Qed.

#[local] Instance larger_better : Better (fun k kb => Compare c k kb >? 0).
Proof using Hc Hsort Hdom.
  assert (forall x y, x ∈ kvs -> y ∈ kvs -> (Compare c (fst x) (fst y) >? 0) = true <-> lt_ y x) as H.
  { intros x y Hx Hy. rewrite Z.gtb_ltb, Z.ltb_lt. unfold klt.
    rewrite (cmp_flip (c:=c) (dom:=dom) (fst y) (fst x)); [done|by apply (kvs_dom dom kvs Hdom)..]. }
  split.
  - intros x y Hx Hy. rewrite (H x y Hx Hy). intros Hl. apply not_true_iff_false. rewrite (H y x Hy Hx).
    intros Hl'. apply (klt_irrefl c dom kvs Hdom x Hx). by apply (klt_trans c dom kvs Hdom x y x).
  - intros x y z Hx Hy Hz. rewrite <- !not_true_iff_false, !H by done. intros H1 H2 H3.
    destruct (total_order x y Hx Hy) as [Hl|[->|Hl]]; [done|done|]. by apply H1, (klt_trans c dom kvs Hdom y x z).
Qed.

Lemma indices_run ps m i : kids_ ps m -> i ∈ indices m <-> (i < length Ls)%nat.
Proof using Type. intros Hk. unfold indices. rewrite elem_of_seq, (ki_length _ _ _ _ Hk). lia. Qed.

(** The cut of a sorted part of the entries is at the first entry with the property. *)
Lemma cut_at P L n kv :
  (forall y, y ∈ L -> y ∈ kvs) -> StronglySorted lt_ L -> up P -> L !! n = Some kv -> P (fst kv) = true ->
  (forall x, x ∈ L -> P (fst x) = true -> x = kv \/ lt_ kv x) -> cut P L = n.
Proof using Hc Hdom.
  intros Hin Hs HP Hn Hkv Hmin. apply (cut_spec c kvs P L n kv HP Hin Hs Hn) in Hkv.
  destruct (decide (cut P L = n)) as [|Hne]; [done|]. destruct (lookup_lt_is_Some_2 L (cut P L)) as [y Hy].
  { apply lookup_lt_Some in Hn. lia. }
  assert (y ∈ kvs /\ kv ∈ kvs) as [Hyi Hkvi] by (split; by eapply Hin, list_elem_of_lookup_2).
  pose proof (sorted_lookup c L _ n y kv Hs Hy Hn ltac:(lia)) as Hlt.
  destruct (Hmin y ltac:(by eapply list_elem_of_lookup_2) (cut_hit P L y Hy)) as [->|H]; [by destruct (klt_irrefl c dom kvs Hdom kv Hkvi)|].
  destruct (klt_irrefl c dom kvs Hdom y Hyi). by apply (klt_trans c dom kvs Hdom y kv y).
Qed.

(** It is behind the last entry without it. *)
Lemma cut_after P L n kv :
  (forall y, y ∈ L -> y ∈ kvs) -> StronglySorted lt_ L -> up P -> L !! n = Some kv -> P (fst kv) = false ->
  (forall x, x ∈ L -> P (fst x) = false -> x = kv \/ lt_ x kv) -> cut P L = Datatypes.S n.
Proof using Hc Hdom.
  intros Hin Hs HP Hn Hkv Hmax. assert (n < cut P L)%nat as Hlt.
  { apply Nat.nle_gt. intros H. by rewrite <- (cut_spec c kvs P L n kv HP Hin Hs Hn), Hkv in H. }
  destruct (decide (cut P L = Datatypes.S n)) as [|Hne]; [done|]. pose proof (cut_length P L) as Hcl.
  destruct (lookup_lt_is_Some_2 L (Datatypes.S n)) as [y Hy]; [lia|].
  assert (y ∈ kvs /\ kv ∈ kvs) as [Hyi Hkvi] by (split; by eapply Hin, list_elem_of_lookup_2).
  pose proof (sorted_lookup c L n _ kv y Hs Hn Hy ltac:(lia)) as Hl.
  destruct (Hmax y ltac:(by eapply list_elem_of_lookup_2) (cut_below P L _ y Hy ltac:(lia))) as [->|H]; [by destruct (klt_irrefl c dom kvs Hdom kv Hkvi)|].
  destruct (klt_irrefl c dom kvs Hdom y Hyi). by apply (klt_trans c dom kvs Hdom y kv y).
Qed.

(** Where an entry with the property is, its child shows one that is not larger. *)
Lemma fwd_first P i L j x :
  up P -> Ls !! i = Some L -> L !! j = Some x -> P (fst x) = true -> exists y, shown_ (fwd_pos P) i y /\ (x = y \/ lt_ y x).
Proof using Hperm Hsorts.
  intros HP HL Hx HPx. assert (forall y, y ∈ L -> y ∈ kvs) as Hin by (intros y; by eapply in_kvs).
  apply (cut_spec c kvs P L j x HP Hin (Hsorts i L HL) Hx) in HPx.
  destruct (lookup_lt_is_Some_2 L (cut P L)) as [y Hy]; [apply lookup_lt_Some in Hx; lia|].
  exists y. split; [apply fwd_shown; eauto|]. destruct (decide (cut P L = j)) as [E|]; [left; rewrite E in Hy; congruence|right].
  apply (sorted_lookup c L (cut P L) j y x); [by eapply Hsorts|done|done|lia].
Qed.

Lemma FindSmallest_at P m :
  up P -> kids_ (fwd_pos P) m ->
  exists r, FindSmallest c m = Ret tt (mkMerging (children_ m) r (forward_ m)) /\
    merging_at (position kvs (cut P kvs)) (mkMerging (children_ m) r true).
Proof using Hc HI Hsort Hdom Hperm Hsorts.
  intros HP Hk. unfold FindSmallest, gets. unfold bind at 1.
  destruct (pick_run _ (fwd_pos P) m (indices m) smaller_better Hk) with (best := @None nat) as (r & Hp & Hr);
    [by intros i; rewrite (indices_run _ m i Hk)|done|].
  unfold bind. rewrite Hp. exists r. split; [done|]. destruct r as [b|].
  - destruct Hr as (kv & Hs & Hbest). pose proof (shown_in _ _ _ Hs) as Hkv.
    assert (P (fst kv) = true) as HPkv by (apply fwd_shown in Hs as (L & HL & Hcut); by eapply cut_hit).
    assert (forall x, x ∈ kvs -> P (fst x) = true -> x = kv \/ lt_ kv x) as Hmin.
    { intros x Hx HPx. destruct (in_child x Hx) as (i & L & HL & HxL). apply list_elem_of_lookup in HxL as [j Hj].
      destruct (fwd_first P i L j x HP HL Hj HPx) as (y & Hy & Hyx). pose proof (shown_in _ _ _ Hy) as Hyi.
      specialize (Hbest i y). rewrite (indices_run _ m i Hk) in Hbest. apply Z.ltb_ge in Hbest; [|left; by eapply lookup_lt_Some|done].
      destruct (total_order y kv Hyi Hkv) as [H|[->|H]]; [unfold klt in H; lia|destruct Hyx; auto|].
      destruct Hyx as [->|Hyx]; [by right|]. right. by apply (klt_trans c dom kvs Hdom kv y x). }
    pose proof Hkv as [n Hn]%list_elem_of_lookup. rewrite (cut_at P kvs n kv ltac:(done) Hsort HP Hn HPkv Hmin). unfold position.
    rewrite (proj2 (Nat.ltb_lt _ _)) by (by eapply lookup_lt_Some). exists kv, b. cbn.
    assert (forall i, fwd_pos P i = fwd_pos (ge c (fst kv)) i) as Hext.
    { intros i. unfold fwd_pos. destruct (Ls !! i) as [L|] eqn:HL; [|done]. f_equal. apply cut_ext. intros x Hx.
      assert (x ∈ kvs) as Hxk by (by eapply in_kvs). apply eq_true_iff_eq. rewrite (ge_klt c dom kvs Hsort Hdom kv x Hkv Hxk). split.
      - intros HPx. destruct (Hmin x Hxk HPx); auto.
      - intros [<-|Hl]; [done|]. by apply (HP kv x). }
    split_and!; [done|done| |].
    + apply (kids_same Ls at_ _ m); [done|]. by eapply kids_ext; [exact Hk|intros i _; apply Hext].
    + destruct Hs as (L & j & HL & Hj & Hkj). exists L, j. by rewrite <- Hext.
  - destruct Hr as [_ Hr]. assert (cut P kvs = length kvs) as ->.
    { pose proof (cut_length P kvs). destruct (Nat.lt_ge_cases (cut P kvs) (length kvs)) as [Hlt|]; [|lia].
      destruct (lookup_lt_is_Some_2 kvs _ Hlt) as [x Hx]. pose proof (cut_hit P kvs x Hx) as HPx.
      destruct (in_child x ltac:(by eapply list_elem_of_lookup_2)) as (i & L & HL & HxL). apply list_elem_of_lookup in HxL as [j Hj].
      destruct (fwd_first P i L j x HP HL Hj HPx) as (y & (? & ? & _ & E & _) & _).
      rewrite Hr in E; [done|]. apply (indices_run _ m i Hk). by eapply lookup_lt_Some. }
    unfold position. rewrite Nat.ltb_irrefl. split; [done|]. exists (fwd_pos P). by apply (kids_same Ls at_ _ m).
Qed.

(** The same backwards. *)
Lemma rev_last P i L j x :
  up P -> Ls !! i = Some L -> L !! j = Some x -> P (fst x) = false -> exists y, shown_ (rev_pos P) i y /\ (x = y \/ lt_ x y).
Proof using Hperm Hsorts.
  intros HP HL Hx HPx. assert (forall y, y ∈ L -> y ∈ kvs) as Hin by (intros y; by eapply in_kvs).
  assert (j < cut P L)%nat as Hlt.
  { apply Nat.nle_gt. intros H. by rewrite <- (cut_spec c kvs P L j x HP Hin (Hsorts i L HL) Hx), HPx in H. }
  destruct (cut P L) as [|n] eqn:Hcut; [lia|]. pose proof (cut_length P L).
  destruct (lookup_lt_is_Some_2 L n) as [y Hy]; [lia|].
  exists y. split; [apply rev_shown; eauto|]. destruct (decide (j = n)) as [->|]; [left; congruence|right].
  apply (sorted_lookup c L j n x y); [by eapply Hsorts|done|done|lia].
Qed.

Lemma FindLargest_at P m :
  up P -> kids_ (rev_pos P) m ->
  exists r, FindLargest c m = Ret tt (mkMerging (children_ m) r (forward_ m)) /\
    merging_at (before (cut P kvs)) (mkMerging (children_ m) r false).
Proof using Hc HI Hsort Hdom Hperm Hsorts.
  intros HP Hk. unfold FindLargest, gets. unfold bind at 1.
  destruct (pick_run _ (rev_pos P) m (reverse (indices m)) larger_better Hk) with (best := @None nat) as (r & Hp & Hr);
    [by intros i; rewrite elem_of_reverse, (indices_run _ m i Hk)|done|].
  unfold bind. rewrite Hp. exists r. split; [done|]. destruct r as [b|].
  - destruct Hr as (kv & Hs & Hbest). pose proof (shown_in _ _ _ Hs) as Hkv.
    assert (P (fst kv) = false) as HPkv by (apply rev_shown in Hs as (L & j & HL & Hcut & Hj); eapply cut_below; [done|lia]).
    assert (forall x, x ∈ kvs -> P (fst x) = false -> x = kv \/ lt_ x kv) as Hmax.
    { intros x Hx HPx. destruct (in_child x Hx) as (i & L & HL & HxL). apply list_elem_of_lookup in HxL as [j Hj].
      destruct (rev_last P i L j x HP HL Hj HPx) as (y & Hy & Hyx). pose proof (shown_in _ _ _ Hy) as Hyi.
      specialize (Hbest i y). rewrite elem_of_reverse, (indices_run _ m i Hk) in Hbest.
      rewrite Z.gtb_ltb in Hbest. apply Z.ltb_ge in Hbest; [|left; by eapply lookup_lt_Some|done].
      destruct (total_order kv y Hkv Hyi) as [H|[->|H]]; [|destruct Hyx; auto|].
      - unfold klt in H. apply (cmp_flip (c:=c) (dom:=dom)) in H; [lia|by apply (kvs_dom dom kvs Hdom)..].
      - destruct Hyx as [->|Hyx]; [by right|]. right. by apply (klt_trans c dom kvs Hdom x y kv). }
    pose proof Hkv as [n Hn]%list_elem_of_lookup. rewrite (cut_after P kvs n kv ltac:(done) Hsort HP Hn HPkv Hmax). exists kv, b. cbn.
    assert (forall i, rev_pos P i = rev_pos (gt c (fst kv)) i) as Hext.
    { intros i. unfold rev_pos. destruct (Ls !! i) as [L|] eqn:HL; [|done]. f_equal. apply cut_ext. intros x Hx.
      assert (x ∈ kvs) as Hxk by (by eapply in_kvs). apply eq_true_iff_eq. rewrite (gt_klt c dom kvs Hdom kv x Hkv Hxk). split.
      - intros HPx. destruct (total_order x kv Hxk Hkv) as [Hl|[->|Hl]]; [|congruence|done].
        pose proof (HP x kv Hxk Hkv Hl HPx). congruence.
      - intros Hl. destruct (P (fst x)) eqn:HPx; [done|]. destruct (Hmax x Hxk HPx) as [->|Hl'].
        + by destruct (klt_irrefl c dom kvs Hdom kv Hkv).
        + destruct (klt_irrefl c dom kvs Hdom kv Hkv). by apply (klt_trans c dom kvs Hdom kv x kv). }
    split_and!; [done|done| |].
    + apply (kids_same Ls at_ _ m); [done|]. by eapply kids_ext; [exact Hk|intros i _; apply Hext].
    + destruct Hs as (L & j & HL & Hj & Hkj). exists L, j. by rewrite <- Hext.
  - destruct Hr as [_ Hr]. assert (cut P kvs = 0%nat) as ->.
    { destruct (cut P kvs) as [|n] eqn:Hcut; [done|]. pose proof (cut_length P kvs).
      destruct (lookup_lt_is_Some_2 kvs n) as [x Hx]; [lia|]. pose proof (cut_below P kvs n x Hx ltac:(lia)) as HPx.
      destruct (in_child x ltac:(by eapply list_elem_of_lookup_2)) as (i & L & HL & HxL). apply list_elem_of_lookup in HxL as [j Hj].
      destruct (rev_last P i L j x HP HL Hj HPx) as (y & (? & ? & _ & E & _) & _).
      rewrite Hr in E; [done|]. apply elem_of_reverse, (indices_run _ m i Hk). by eapply lookup_lt_Some. }
    split; [done|]. exists (rev_pos P). by apply (kids_same Ls at_ _ m).
Qed.

(** *** Moves of all children *)

Definition same_state (m m' : @MergingIterator S) : Prop := current_ m' = current_ m /\ forward_ m' = forward_ m.

Lemma children_loop_run body ps ps' m :
  kids_ ps m ->
  (forall i L m1 ps0, Ls !! i = Some L -> kids_ ps0 m1 -> same_state m m1 -> ps0 i = ps i -> (forall j, ps0 j = ps j \/ ps0 j = ps' j) ->
    exists m', body i m1 = Ret tt m' /\ kids_ (upd ps0 i (ps' i)) m' /\ same_state m m') ->
  exists m', for_each (indices m) body m = Ret tt m' /\ kids_ ps' m' /\ same_state m m'.
Proof using Type.
  intros Hk Hb. destruct (for_each_run Ls at_ ps' body (same_state m) (indices m) m ps) as (m' & Hr & Hs & Hk').
  - apply NoDup_seq.
  - intros i. by rewrite (indices_run ps m i Hk).
  - done.
  - done.
  - intros i m1 ps0 Hi. rewrite (indices_run ps m i Hk) in Hi. destruct (lookup_lt_is_Some_2 Ls i Hi) as [L HL]. by apply (Hb i L).
  - exists m'. split_and!; [done| |done]. eapply kids_ext; [exact Hk'|]. intros i Hi. cbn.
    rewrite decide_True; [done|by apply (indices_run ps m i Hk)].
Qed.

Lemma child_run ps m i L (p : prog IteratorWrapper unit) p' :
  kids_ ps m -> Ls !! i = Some L -> (forall w, w_at Ls at_ i (ps i) w -> exists w', p w = Ret tt w' /\ w_at Ls at_ i p' w') ->
  exists m', on_child i p m = Ret tt m' /\ kids_ (upd ps i p') m' /\ same_state m m'.
Proof using Type.
  intros Hk HL Hp. destruct (on_child_run Ls at_ ps m i p p' Hk) as (a & w & Hr & Hk'); [by eapply lookup_lt_Some| |].
  - intros L' w _ Hw. destruct (Hp w Hw) as (w' & Hr & Hw'). eauto.
  - destruct a. exists (set_child i w m). split_and!; [done|done|by split].
Qed.

Lemma all_move op ps ps' m :
  kids_ ps m -> target_in tdom op -> (forall i L, Ls !! i = Some L -> spec_op c L op (ps i) = Ret tt (ps' i)) ->
  exists m', for_each (indices m) (fun i => on_child i (wrapper_move I op)) m = Ret tt m' /\ kids_ ps' m' /\ same_state m m'.
Proof using HI.
  intros Hk Ht Hop. apply (children_loop_run _ ps ps' m Hk). intros i L m1 ps0 HL Hk1 Hs Hpi _.
  destruct (child_run ps0 m1 i L (wrapper_move I op) (ps' i) Hk1 HL) as (m' & Hr & Hk' & Hs').
  - intros w Hw. eapply (wrapper_move_run I c tdom Ls at_ HI op i L); [done..|]. rewrite Hpi. by apply Hop.
  - exists m'. split_and!; [done|done|]. destruct Hs, Hs'. split; congruence.
Qed.

Lemma at_kids p m : merging_at p m -> exists ps, kids_ ps m.
Proof using Type. destruct p as [n|]; [|by intros [_ ?]]. intros (kv & b & _ & _ & H). cbn in H. destruct H as [H _]. eauto. Qed.

(** The seeks. *)
Lemma seek_smallest op P p m :
  merging_at p m -> target_in tdom op -> up P ->
  (forall L q, spec_op c L op q = Ret tt (position L (cut P L))) ->
  exists m', (idx <- gets indices ;; for_each idx (fun i => on_child i (wrapper_move I op)) ;;; FindSmallest c ;;; set_forward true) m = Ret tt m' /\
    merging_at (position kvs (cut P kvs)) m'.
Proof using Hc HI Hsort Hdom Hperm Hsorts.
  intros [ps Hk]%at_kids Ht HP Hop. unfold bind at 1, gets.
  destruct (all_move op ps (fwd_pos P) m Hk Ht) as (m1 & Hr & Hk1 & _).
  { intros i L HL. unfold fwd_pos. rewrite HL. apply Hop. }
  destruct (FindSmallest_at P m1 HP Hk1) as (r & Hf & Hat). unfold bind. rewrite Hr, Hf. by eexists.
Qed.

Lemma seek_largest op P p m :
  merging_at p m -> target_in tdom op -> up P ->
  (forall L q, spec_op c L op q = Ret tt (before (cut P L))) ->
  exists m', (idx <- gets indices ;; for_each idx (fun i => on_child i (wrapper_move I op)) ;;; FindLargest c ;;; set_forward false) m = Ret tt m' /\
    merging_at (before (cut P kvs)) m'.
Proof using Hc HI Hsort Hdom Hperm Hsorts.
  intros [ps Hk]%at_kids Ht HP Hop. unfold bind at 1, gets.
  destruct (all_move op ps (rev_pos P) m Hk Ht) as (m1 & Hr & Hk1 & _).
  { intros i L HL. unfold rev_pos. rewrite HL. apply Hop. }
  destruct (FindLargest_at P m1 HP Hk1) as (r & Hf & Hat). unfold bind. rewrite Hr, Hf. by eexists.
Qed.

(** *** Steps *)

(** The two cuts at an entry of a child. *)
Lemma own_cuts L j kv :
  (forall y, y ∈ L -> y ∈ kvs) -> StronglySorted lt_ L -> L !! j = Some kv ->
  cut (ge c (fst kv)) L = j /\ cut (gt c (fst kv)) L = Datatypes.S j.
Proof using Hc Hsort Hdom.
  intros Hin Hs Hj. assert (kv ∈ kvs) as Hkv by (by eapply Hin, list_elem_of_lookup_2).
  assert (dom (fst kv)) as Hd by (by apply (kvs_dom dom kvs Hdom)). split.
  - apply (cut_at (ge c (fst kv)) L j kv); try done; [by apply (upward_ge_any c dom)|by apply (ge_klt c dom kvs Hsort Hdom); [..|left]|].
    intros x Hx. rewrite (ge_klt c dom kvs Hsort Hdom kv x Hkv (Hin x Hx)). intros [->|]; auto.
  - apply (cut_after (gt c (fst kv)) L j kv); try done; [by apply (upward_gt c dom)| |].
    + apply not_true_iff_false. rewrite (gt_klt c dom kvs Hdom kv kv Hkv Hkv). by apply (klt_irrefl c dom kvs Hdom).
    + intros x Hx. rewrite <- not_true_iff_false, (gt_klt c dom kvs Hdom kv x Hkv (Hin x Hx)).
      destruct (total_order kv x Hkv (Hin x Hx)) as [|[->|]]; auto. done.
Qed.

(** Other children have no entry between them. *)
Lemma other_cuts i b L Lb kv :
  i <> b -> Ls !! i = Some L -> Ls !! b = Some Lb -> kv ∈ Lb -> cut (ge c (fst kv)) L = cut (gt c (fst kv)) L.
Proof using Hc Hsort Hdom Hperm.
  intros Hne HL HLb Hkv. assert (kv ∈ kvs) as Hk by (by apply (in_kvs b Lb)). apply cut_ext. intros x Hx.
  assert (x ∈ kvs) as Hxk by (by apply (in_kvs i L)). apply eq_true_iff_eq.
  rewrite (ge_klt c dom kvs Hsort Hdom kv x Hk Hxk), (gt_klt c dom kvs Hdom kv x Hk Hxk). split; [|by right].
  intros [<-|]; [|done]. destruct Hne. by apply (one_child i b L Lb kv).
Qed.

(** The position of the current child in either direction. *)
Lemma current_pos fwd b kv :
  let ps := if (fwd : bool) then fwd_pos (ge c (fst kv)) else rev_pos (gt c (fst kv)) in
  shown_ ps b kv -> exists L j, Ls !! b = Some L /\ L !! j = Some kv /\ ps b = Some j /\ kv ∈ kvs /\ kv ∈ L /\
    cut (ge c (fst kv)) L = j /\ cut (gt c (fst kv)) L = Datatypes.S j.
Proof using Hc Hsort Hdom Hperm Hsorts.
  intros ps Hs. pose proof (shown_in ps b kv Hs) as Hkv. destruct Hs as (L & j & HL & Hj & Hkj). exists L, j.
  assert (kv ∈ L) by (by eapply list_elem_of_lookup_2).
  split_and!; try done; apply own_cuts; try done; try (by eapply Hsorts); intros y; by eapply in_kvs.
Qed.

(** A child that is not the current one is moved relative to the key of the current one. *)
Lemma others_move fwd b kv L j (move_child : bytes -> prog IteratorWrapper unit) target m :
  (let ps := if (fwd : bool) then fwd_pos (ge c (fst kv)) else rev_pos (gt c (fst kv)) in kids_ ps m /\ shown_ ps b kv /\ ps b = Some j) ->
  Ls !! b = Some L -> current_ m = Some b ->
  (forall i L' w p, i <> b -> Ls !! i = Some L' -> w_at Ls at_ i p w -> exists w', move_child (fst kv) w = Ret tt w' /\ w_at Ls at_ i (target i) w') ->
  exists m', for_each (indices m) (fun i => if (i =? b)%nat then ret tt else k <- Merging_key ;; on_child i (move_child k)) m = Ret tt m' /\
    kids_ (upd target b (Some j)) m' /\ same_state m m'.
Proof using Type.
  intros H HL Hb Hmv. cbn zeta in H. set (ps := if fwd then _ else _) in H. destruct H as (Hk & Hs & Hpb).
  apply (children_loop_run _ ps _ m Hk). intros i L' m1 ps0 HL' Hk1 [Hc1 Hf1] Hpi Hor.
  destruct (Nat.eqb_spec i b) as [->|Hne].
  - exists m1. split_and!; [done| |done]. eapply kids_ext; [exact Hk1|]. intros i _. unfold upd.
    destruct (decide (i = b)) as [->|]; [|done]. rewrite decide_True by done. congruence.
  - assert (shown_ ps0 b kv) as Hs0.
    { destruct Hs as (L0 & j0 & HL0 & Hj0 & Hkv). exists L0, j0. split_and!; [done| |done].
      destruct (Hor b) as [-> | ->]; [done|]. unfold upd. rewrite decide_True by done. congruence. }
    unfold Merging_key, the_current, bind, gets. rewrite Hc1, Hb. cbn [deref]. unfold ret.
    rewrite (shown_key Ls at_ ps0 m1 b kv Hk1 Hs0).
    destruct (child_run ps0 m1 i L' (move_child (fst kv)) (target i) Hk1 HL') as (m' & Hr & Hk' & Hc' & Hf').
    { intros w Hw. by eapply Hmv. }
    exists m'. split_and!; [done| |split; congruence]. unfold upd at 2. rewrite (decide_False (P:=i = b)) by done. done.
Qed.

Lemma after_key_run i L b Lb kv p w :
  i <> b -> Ls !! i = Some L -> Ls !! b = Some Lb -> kv ∈ Lb -> w_at Ls at_ i p w ->
  exists w', after_key I c (fst kv) w = Ret tt w' /\ w_at Ls at_ i (fwd_pos (ge c (fst kv)) i) w'.
Proof using Hc HI Hsort Hdom Hkeys Hperm.
  intros Hne HL HLb Hkv Hw. assert (kv ∈ kvs) as Hk by (by apply (in_kvs b Lb)).
  destruct (wrapper_move_run I c tdom Ls at_ HI (OpSeek (fst kv)) i L p (position L (cut (ge c (fst kv)) L)) w) as (w1 & H1 & Hw1);
    [done|done|by apply Hkeys|cbn; unfold modify; by rewrite find_cut|].
  unfold fwd_pos. rewrite HL. exists w1. split; [|done].
  unfold after_key, bind at 1. change (wrapper_Seek I (fst kv) w) with (wrapper_move I (OpSeek (fst kv)) w). rewrite H1.
  unfold bind, get_state. rewrite (wa_valid _ _ _ _ _ Hw1). destruct (position L _) as [j|] eqn:Hp; [|done]. cbn.
  pose proof (HI i L HL) as HiL. destruct (io_entry j (w_iter w1) (wa_iter _ _ _ _ _ Hw1)) as (k & v & Hj & _).
  unfold wrapper_key, bind, get_state. rewrite (wa_valid _ _ _ _ _ Hw1). cbn. rewrite (wa_key _ _ _ _ _ Hw1 L j (k, v) HL eq_refl Hj). cbn.
  destruct (Z.eqb_spec (Compare c (fst kv) k) 0) as [E|]; [|done]. exfalso. apply Hne.
  assert ((k, v) ∈ L) as HxL by (by eapply list_elem_of_lookup_2).
  assert (kv = (k, v)) as -> by (apply (same_entry c dom kvs Hsort Hdom); [done|by apply (in_kvs i L)|done]).
  by apply (one_child i b L Lb (k, v)).
Qed.

Lemma before_key_run i L kv p w :
  Ls !! i = Some L -> kv ∈ kvs -> w_at Ls at_ i p w ->
  exists w', before_key I (fst kv) w = Ret tt w' /\ w_at Ls at_ i (rev_pos (ge c (fst kv)) i) w'.
Proof using HI Hkeys.
  intros HL Hk Hw. set (n := cut (ge c (fst kv)) L).
  destruct (wrapper_move_run I c tdom Ls at_ HI (OpSeek (fst kv)) i L p (position L n) w) as (w1 & H1 & Hw1);
    [done|done|by apply Hkeys|cbn; unfold modify; by rewrite find_cut|].
  unfold rev_pos. rewrite HL. fold n. unfold before_key, bind at 1.
  change (wrapper_Seek I (fst kv) w) with (wrapper_move I (OpSeek (fst kv)) w). rewrite H1.
  unfold bind at 1, get_state. rewrite (wa_valid _ _ _ _ _ Hw1). unfold position in *.
  destruct (Nat.ltb_spec n (length L)) as [Hlt|Hge].
  - apply (wrapper_move_run I c tdom Ls at_ HI OpPrev i L (Some n)); done.
  - assert (n = length L) as -> by (pose proof (cut_length (ge c (fst kv)) L); unfold n in *; lia).
    apply (wrapper_move_run I c tdom Ls at_ HI OpSeekToLast i L None); done.
Qed.

Lemma turn_forward_run b kv L j m :
  (let ps := if forward_ m then fwd_pos (ge c (fst kv)) else rev_pos (gt c (fst kv)) in kids_ ps m /\ shown_ ps b kv /\ ps b = Some j) ->
  Ls !! b = Some L -> kv ∈ L -> current_ m = Some b ->
  exists m', turn_forward I c b m = Ret tt m' /\ forward_ m' = true /\ kids_ (upd (fwd_pos (ge c (fst kv))) b (Some j)) m'.
Proof using Hc HI Hsort Hdom Hkeys Hperm.
  intros H HL HkL Hb. unfold turn_forward. rewrite (bind_Ret (gets forward_) _ m (forward_ m) m eq_refl). destruct (forward_ m) eqn:Hf; cbn [negb].
  - exists m. split_and!; [done|done|]. cbn zeta in H. destruct H as (Hk & _ & Hpb). eapply kids_ext; [exact Hk|]. intros i _. unfold upd.
    by destruct (decide (i = b)) as [->|].
  - destruct (others_move false b kv L j (after_key I c) (fwd_pos (ge c (fst kv))) m H HL Hb) as (m' & Hr & Hk' & _).
    { intros i L' w p Hne HL' Hw. by eapply (after_key_run i L' b L). }
    rewrite (bind_Ret (gets indices) _ m (indices m) m eq_refl), (bind_Ret _ _ _ _ _ Hr).
    eexists. split_and!; [done|done|]. by apply (kids_same Ls at_ _ m').
Qed.

Lemma turn_backward_run b kv L j m :
  (let ps := if forward_ m then fwd_pos (ge c (fst kv)) else rev_pos (gt c (fst kv)) in kids_ ps m /\ shown_ ps b kv /\ ps b = Some j) ->
  Ls !! b = Some L -> kv ∈ L -> current_ m = Some b ->
  exists m', turn_backward I b m = Ret tt m' /\ forward_ m' = false /\ kids_ (upd (rev_pos (ge c (fst kv))) b (Some j)) m'.
Proof using Hc HI Hsort Hdom Hkeys Hperm.
  intros H HL HkL Hb. unfold turn_backward. rewrite (bind_Ret (gets forward_) _ m (forward_ m) m eq_refl). destruct (forward_ m) eqn:Hf.
  - destruct (others_move true b kv L j (before_key I) (rev_pos (ge c (fst kv))) m H HL Hb) as (m' & Hr & Hk' & _).
    { intros i L' w p Hne HL' Hw. eapply (before_key_run i L'); [done|by apply (in_kvs b L)|done]. }
    rewrite (bind_Ret (gets indices) _ m (indices m) m eq_refl), (bind_Ret _ _ _ _ _ Hr).
    eexists. split_and!; [done|done|]. by apply (kids_same Ls at_ _ m').
  - exists m. split_and!; [done|done|]. cbn zeta in H. destruct H as (Hk & _ & Hpb). eapply kids_ext; [exact Hk|]. intros i _. unfold upd.
    destruct (decide (i = b)) as [->|]; [done|]. unfold rev_pos. destruct (Ls !! i) as [L'|] eqn:HL'; [|done]. f_equal.
    symmetry. by eapply (other_cuts i b).
Qed.

Lemma merging_Next n m :
  merging_at (Some n) m -> exists m', Merging_Next I c m = Ret tt m' /\ merging_at (position kvs (Datatypes.S n)) m'.
Proof using Hc HI Htd Hsort Hdom Hkeys Hperm Hsorts.
  intros (kv & b & Hn & Hb & Hk & Hs).
  destruct (current_pos _ b kv Hs) as (L & j & HL & Hj & Hpb & Hkv & HkL & Hge & Hgt).
  destruct (turn_forward_run b kv L j m) as (m1 & Hr1 & Hf1 & Hk1); [done..|].
  destruct (child_run _ m1 b L (wrapper_Next I) (position L (Datatypes.S j)) Hk1 HL) as (m2 & Hr2 & Hk2 & Hc2 & Hf2).
  { intros w Hw. unfold upd in Hw. rewrite decide_True in Hw by done.
    by apply (wrapper_move_run I c tdom Ls at_ HI OpNext b L (Some j)). }
  destruct (FindSmallest_at (gt c (fst kv)) m2) as (r & Hf & Hat).
  { by apply (upward_gt c dom). }
  { eapply kids_ext; [exact Hk2|]. intros i Hi. unfold upd, fwd_pos. destruct (decide (i = b)) as [->|Hne].
    - by rewrite HL, Hgt.
    - destruct (Ls !! i) as [L'|] eqn:HL'; [|done]. f_equal. by eapply (other_cuts i b). }
  unfold Merging_Next, the_current, gets, bind. rewrite Hb. cbn [deref]. unfold ret. rewrite Hr1, Hr2, Hf. eexists. split; [done|].
  rewrite Hf2, Hf1. destruct (own_cuts kvs n kv) as [_ E]; [done..|]. by rewrite E in Hat.
Qed.

Lemma merging_Prev n m :
  merging_at (Some n) m -> exists m', Merging_Prev I c m = Ret tt m' /\ merging_at (before n) m'.
Proof using Hc HI Htd Hsort Hdom Hkeys Hperm Hsorts.
  intros (kv & b & Hn & Hb & Hk & Hs).
  destruct (current_pos _ b kv Hs) as (L & j & HL & Hj & Hpb & Hkv & HkL & Hge & Hgt).
  destruct (turn_backward_run b kv L j m) as (m1 & Hr1 & Hf1 & Hk1); [done..|].
  destruct (child_run _ m1 b L (wrapper_Prev I) (before j) Hk1 HL) as (m2 & Hr2 & Hk2 & Hc2 & Hf2).
  { intros w Hw. unfold upd in Hw. rewrite decide_True in Hw by done.
    by apply (wrapper_move_run I c tdom Ls at_ HI OpPrev b L (Some j)). }
  destruct (FindLargest_at (ge c (fst kv)) m2) as (r & Hf & Hat).
  { apply (upward_ge_any c dom); [done|]. by apply (kvs_dom dom kvs Hdom). }
  { eapply kids_ext; [exact Hk2|]. intros i Hi. unfold upd, rev_pos. destruct (decide (i = b)) as [->|Hne]; [by rewrite HL, Hge|done]. }
  unfold Merging_Prev, the_current, gets, bind. rewrite Hb. cbn [deref]. unfold ret. rewrite Hr1, Hr2, Hf. eexists. split; [done|].
  rewrite Hf2, Hf1. destruct (own_cuts kvs n kv) as [E _]; [done..|]. by rewrite E in Hat.
Qed.

Lemma status_run ps m idx : kids_ ps m -> (forall i, i ∈ idx -> (i < length Ls)%nat) -> status_of I idx m = Ret true m.
Proof using HI.
  intros Hk. induction idx as [|i idx IH]; intros Hlt; [done|].
  destruct (kids_get Ls at_ ps m i Hk) as (L & w & HL & Hw & Hat); [apply Hlt; by left|]. pose proof (HI i L HL) as HiL.
  cbn [status_of]. unfold bind. rewrite (on_child_read m i (wrapper_status I) w true Hw).
  - apply IH. intros j Hj. apply Hlt. by right.
  - unfold wrapper_status, on_w_iter, zoom. rewrite (io_status (ps i) (w_iter w) (wa_iter _ _ _ _ _ Hat)). by destruct w.
Qed.

(** The merging iterator keeps the promise when its children do. *)
#[global] Instance Merging_ok : IteratorOk (Merging I c) c tdom kvs merging_at.
Proof using Hc HI Htd Hsort Hdom Hkeys Hperm Hsorts.
  split.
  - intros op p m H Ht. destruct op as [| |target| |]; cbn.
    + destruct (seek_smallest OpSeekToFirst (fun _ => true) p m H Ht) as (m' & Hr & Hat); [done|intros [|x L] q; done|].
      exists m'. split; [exact Hr|]. by destruct kvs.
    + destruct (seek_largest OpSeekToLast (fun _ => false) p m H Ht) as (m' & Hr & Hat); [done|intros L q; by rewrite cut_none|].
      exists m'. split; [exact Hr|]. by rewrite cut_none in Hat.
    + rewrite find_cut. apply (seek_smallest (OpSeek target) (ge c target) p m H Ht).
      * apply (upward_ge_any c dom); [done|]. by apply Htd.
      * intros L q. cbn. unfold modify. by rewrite find_cut.
    + unfold bind. destruct p as [n|]; cbn; [by apply merging_Next|]. unfold Merging_Next, the_current, bind, gets. by rewrite (proj1 H).
    + unfold bind. destruct p as [n|]; cbn; [by apply merging_Prev|]. unfold Merging_Prev, the_current, bind, gets. by rewrite (proj1 H).
  - intros p m H. cbn. unfold Merging_Valid, gets. do 2 f_equal. destruct p as [n|]; [|by rewrite (proj1 H)].
    destruct H as (kv & b & _ & -> & _). done.
  - intros n m (kv & b & Hn & Hb & Hk & Hs). exists (fst kv), (snd kv). cbn. unfold Merging_key, Merging_value, the_current, bind, gets.
    rewrite Hb. cbn [deref]. unfold ret. split_and!; [by destruct kv|by eapply shown_key|by eapply shown_value].
  - intros p m [ps Hk]%at_kids. cbn. unfold Merging_status, bind, gets. eapply status_run; [done|]. intros i. by rewrite (indices_run ps m i Hk).
Qed.

(** The constructor, on children that were not moved yet: those from [k] on are still to
    be set. *)
Lemma set_children_run (children : list S) n : forall k m,
  (k + n = length Ls)%nat -> length (children_ m) = length Ls -> current_ m = None ->
  (forall i w, children_ m !! i = Some w -> (i < k)%nat -> w_at Ls at_ i None w) ->
  (forall i w, children_ m !! i = Some w -> at_ i None (w_iter w)) ->
  exists m', for_each (seq k n) (fun i =>
      w <- gets (fun m => children_ m !! i) ;; w <- deref OutOfBounds w ;; on_child i (wrapper_Set I (w_iter w))) m = Ret tt m' /\
    merging_at None m'.
Proof using HI.
  induction n as [|n IH]; intros k m Hlen Hl Hc0 Hdone Hall.
  { exists m. split; [done|]. split; [done|]. exists (fun _ => None). split; [done|]. intros i w Hw.
    apply Hdone; [done|]. apply lookup_lt_Some in Hw. lia. }
  destruct (lookup_lt_is_Some_2 (children_ m) k) as [w Hw]; [lia|]. destruct (lookup_lt_is_Some_2 Ls k) as [L HL]; [lia|].
  destruct (Update_run I c tdom Ls at_ HI k L None (mkWrapper (w_iter w) (w_valid w) (w_key w)) HL (Hall k w Hw)) as (w' & Hu & Hw').
  assert (on_child k (wrapper_Set I (w_iter w)) m = Ret tt (set_child k w' m)) as Hr.
  { unfold on_child. rewrite Hw. unfold wrapper_Set, bind, modify. by rewrite Hu. }
  destruct (IH (Datatypes.S k) (set_child k w' m)) as (m' & Hr' & Hm'); [lia|simpl; by rewrite length_insert|done| | |].
  - intros i x. simpl. destruct (decide (i = k)) as [->|Hne].
    + rewrite list_lookup_insert_eq by lia. by intros [= <-].
    + rewrite list_lookup_insert_ne by done. intros Hx Hi. apply Hdone; [done|lia].
  - intros i x. simpl. destruct (decide (i = k)) as [->|Hne].
    + rewrite list_lookup_insert_eq by lia. intros [= <-]. apply Hw'.
    + rewrite list_lookup_insert_ne by done. apply Hall.
  - exists m'. split; [|done]. cbn [seq for_each]. unfold bind at 1 2 3, gets. rewrite Hw. cbn [deref]. unfold ret at 1. by rewrite Hr.
Qed.

Lemma Merging_new_run (children : list S) :
  length children = length Ls -> (forall i x, children !! i = Some x -> at_ i None x) ->
  exists m, MergingIterator_new I children tt = Ret m tt /\ merging_at None m.
Proof using HI.
  intros Hl Hat. set (m0 := mkMerging ((fun s => mkWrapper s false []) <$> children) None true).
  destruct (set_children_run children (length Ls) 0 m0) as (m & Hr & Hm); [lia|simpl; by rewrite length_fmap|done|lia| |].
  - intros i w. simpl. rewrite list_lookup_fmap. destruct (children !! i) as [x|] eqn:E; [|done]. intros [= <-]. by apply Hat.
  - exists m. split; [|done]. unfold MergingIterator_new. fold m0. unfold indices. simpl (children_ m0). by rewrite length_fmap, Hl, Hr.
Qed.
End merging.
