(* ===== verification/DbIter.v ===== *)
(** The iterator of the database: [src/lib/leveldb/db/db_iter.cc].

    It runs over an iterator of internal keys, of any class, and shows for a user key
    the value that is visible at a sequence number. [skip] is [saved_key_] at every call
    of [FindNextUserEntry], so the model writes it there. What the capacity of
    [saved_value_] decides is memory only. The loops get as many rounds as the
    parameter [rounds] says; the theorems ask for more than the iterator has entries. *)

From S2P Require Import Prelude WriteBatch Comparator DbFormat Iterators.

Set Default Proof Using "Type".

Inductive Direction : Type := kForward | kReverse.

Definition is_forward (d : Direction) : bool := match d with kForward => true | kReverse => false end.

Section dbiter.
Context {S : Type} (I : IteratorOps S) (user_comparator_ : Comparator) (sequence_ : Z) (rounds : nat).

(** [status_]: whether it is ok. *)
Record DBIter : Type := mkDBIter {
  iter_ : S;
  status_ : bool;
  saved_key_ : bytes;
  saved_value_ : bytes;
  direction_ : Direction;
  valid_ : bool }.
Abbreviation dbiter_prog := (prog DBIter).

Definition on_iter {A} (p : prog S A) : dbiter_prog A :=
  zoom iter_ (fun s d => mkDBIter s (status_ d) (saved_key_ d) (saved_value_ d) (direction_ d) (valid_ d)) p.
Definition SaveKey (k : bytes) : dbiter_prog unit :=
  modify (fun d => mkDBIter (iter_ d) (status_ d) k (saved_value_ d) (direction_ d) (valid_ d)).
Definition save_value (v : bytes) : dbiter_prog unit :=
  modify (fun d => mkDBIter (iter_ d) (status_ d) (saved_key_ d) v (direction_ d) (valid_ d)).
Definition set_direction (dir : Direction) : dbiter_prog unit :=
  modify (fun d => mkDBIter (iter_ d) (status_ d) (saved_key_ d) (saved_value_ d) dir (valid_ d)).
Definition set_valid (v : bool) : dbiter_prog unit :=
  modify (fun d => mkDBIter (iter_ d) (status_ d) (saved_key_ d) (saved_value_ d) (direction_ d) v).
Definition set_corrupt : dbiter_prog unit :=
  modify (fun d => mkDBIter (iter_ d) false (saved_key_ d) (saved_value_ d) (direction_ d) (valid_ d)).
Definition ClearSavedValue : dbiter_prog unit := save_value [].

Definition NewDBIterator (internal_iter : S) : DBIter := mkDBIter internal_iter true [] [] kForward false.

Definition ParseKey : dbiter_prog (option ParsedInternalKey) :=
  k <- on_iter (it_key I) ;;
  match ParseInternalKey k with
  | None => set_corrupt ;;; ret None
  | Some ikey => ret (Some ikey)
  end.

(** [ParseKey (&ikey) && ikey.sequence <= sequence_] *)
Definition visible_key : dbiter_prog (option ParsedInternalKey) :=
  ikey <- ParseKey ;;
  ret (match ikey with Some k => if pk_sequence k <=? sequence_ then Some k else None | None => None end).

(** ** Forwards *)

(** The loop, at an entry. *)
Fixpoint find_next (fuel : nat) (skipping : bool) : dbiter_prog unit :=
  match fuel with
  | O => undefined Unfinished
  | Datatypes.S fuel' =>
      ikey <- visible_key ;;
      ' (found, skipping) <-
        match ikey with
        | Some k =>
            if pk_type k =? kTypeDeletion then SaveKey (pk_user_key k) ;;; ret (false, true)
            else
              skip <- gets saved_key_ ;;
              ret (negb (skipping && (Compare user_comparator_ (pk_user_key k) skip <=? 0)), skipping)
        | None => ret (false, skipping)
        end ;;
      if found then set_valid true ;;; SaveKey []
      else
        on_iter (it_Next I) ;;;
        v <- on_iter (it_Valid I) ;;
        if (v : bool) then find_next fuel' skipping
        else SaveKey [] ;;; set_valid false
  end.

Definition FindNextUserEntry (skipping : bool) : dbiter_prog unit :=
  v <- on_iter (it_Valid I) ;;
  assert_ v ;;;
  d <- gets direction_ ;;
  assert_ (is_forward d) ;;;
  find_next rounds skipping.

(** The end of [Next]: skip the entries of the key that [iter_] is at. *)
Definition next_from_here : dbiter_prog unit :=
  k <- on_iter (it_key I) ;;
  SaveKey (ExtractUserKey k) ;;;
  FindNextUserEntry true.

Definition DBIter_Next : dbiter_prog unit :=
  v <- gets valid_ ;;
  assert_ v ;;;
  d <- gets direction_ ;;
  if is_forward d then next_from_here
  else
    set_direction kForward ;;;
    v <- on_iter (it_Valid I) ;;
    (if (v : bool) then on_iter (it_Next I) else on_iter (it_SeekToFirst I)) ;;;
    v <- on_iter (it_Valid I) ;;
    if (v : bool) then next_from_here
    else set_valid false ;;; SaveKey [].

(** ** Backwards *)

(** The loop of [FindPrevUserEntry], at an entry: the type it ends with. *)
Fixpoint find_prev (fuel : nat) (value_type : Z) : dbiter_prog Z :=
  match fuel with
  | O => undefined Unfinished
  | Datatypes.S fuel' =>
      ikey <- visible_key ;;
      saved <- gets saved_key_ ;;
      let stop := match ikey with
                  | Some k => negb (value_type =? kTypeDeletion) && (Compare user_comparator_ (pk_user_key k) saved <? 0)
                  | None => false
                  end in
      if stop then ret value_type
      else
        value_type <-
          match ikey with
          | Some k =>
              (if pk_type k =? kTypeDeletion then SaveKey [] ;;; ClearSavedValue
               else
                 raw_value <- on_iter (it_value I) ;;
                 key <- on_iter (it_key I) ;;
                 SaveKey (ExtractUserKey key) ;;;
                 save_value raw_value) ;;;
              ret (pk_type k)
          | None => ret value_type
          end ;;
        on_iter (it_Prev I) ;;;
        v <- on_iter (it_Valid I) ;;
        if (v : bool) then find_prev fuel' value_type else ret value_type
  end.

Definition FindPrevUserEntry : dbiter_prog unit :=
  d <- gets direction_ ;;
  assert_ (negb (is_forward d)) ;;;
  v <- on_iter (it_Valid I) ;;
  value_type <- (if (v : bool) then find_prev rounds kTypeDeletion else ret kTypeDeletion) ;;
  if value_type =? kTypeDeletion then
    set_valid false ;;; SaveKey [] ;;; ClearSavedValue ;;; set_direction kForward
  else set_valid true.

(** Back to the entries before those of [saved_key_]: whether there are any. *)
Fixpoint skip_back (fuel : nat) : dbiter_prog bool :=
  match fuel with
  | O => undefined Unfinished
  | Datatypes.S fuel' =>
      on_iter (it_Prev I) ;;;
      v <- on_iter (it_Valid I) ;;
      if (v : bool) then
        k <- on_iter (it_key I) ;;
        saved <- gets saved_key_ ;;
        if Compare user_comparator_ (ExtractUserKey k) saved <? 0 then ret true else skip_back fuel'
      else set_valid false ;;; SaveKey [] ;;; ClearSavedValue ;;; ret false
  end.

Definition DBIter_Prev : dbiter_prog unit :=
  v <- gets valid_ ;;
  assert_ v ;;;
  d <- gets direction_ ;;
  if is_forward d then
    v <- on_iter (it_Valid I) ;;
    assert_ v ;;;
    k <- on_iter (it_key I) ;;
    SaveKey (ExtractUserKey k) ;;;
    more <- skip_back rounds ;;
    if (more : bool) then set_direction kReverse ;;; FindPrevUserEntry else ret tt
  else FindPrevUserEntry.

(** ** Seeks *)

(** [AppendInternalKey] to [saved_key_] *)
Definition append_seek_key (target : bytes) : dbiter_prog unit :=
  zoom saved_key_ (fun k d => mkDBIter (iter_ d) (status_ d) k (saved_value_ d) (direction_ d) (valid_ d))
    (AppendInternalKey (mkParsed target sequence_ kValueTypeForSeek)).

(** The end of the two seeks that go forward. *)
Definition settle : dbiter_prog unit :=
  v <- on_iter (it_Valid I) ;;
  if (v : bool) then FindNextUserEntry false else set_valid false.

Definition DBIter_Seek (target : bytes) : dbiter_prog unit :=
  set_direction kForward ;;;
  ClearSavedValue ;;;
  SaveKey [] ;;;
  append_seek_key target ;;;
  k <- gets saved_key_ ;;
  on_iter (it_Seek I k) ;;;
  settle.

Definition DBIter_SeekToFirst : dbiter_prog unit :=
  set_direction kForward ;;;
  ClearSavedValue ;;;
  on_iter (it_SeekToFirst I) ;;;
  settle.

Definition DBIter_SeekToLast : dbiter_prog unit :=
  set_direction kReverse ;;;
  ClearSavedValue ;;;
  on_iter (it_SeekToLast I) ;;;
  FindPrevUserEntry.

(** ** What it shows *)

Definition DBIter_key : dbiter_prog bytes :=
  v <- gets valid_ ;;
  assert_ v ;;;
  d <- gets direction_ ;;
  if is_forward d then k <- on_iter (it_key I) ;; ret (ExtractUserKey k) else gets saved_key_.

Definition DBIter_value : dbiter_prog bytes :=
  v <- gets valid_ ;;
  assert_ v ;;;
  d <- gets direction_ ;;
  if is_forward d then on_iter (it_value I) else gets saved_value_.

Definition DBIter_status : dbiter_prog bool :=
  ok <- gets status_ ;;
  if (ok : bool) then on_iter (it_status I) else ret false.

Definition DBIterator : IteratorOps DBIter :=
  mkIteratorOps (gets valid_) DBIter_SeekToFirst DBIter_SeekToLast DBIter_Seek DBIter_Next DBIter_Prev
    DBIter_key DBIter_value DBIter_status.
End dbiter.
