(* ===== verification/DbIterOk.v ===== *)
(** What the iterator of [DbIter] shows: the values visible at its sequence number, in
    the order of the keys, in both directions; and where it goes wrong when it turns
    round. *)

From stdpp Require Import sorting.
From S2P Require Import Prelude Coding WriteBatch Comparator DbFormat Iterators SkipList SkipListOk MemTable MemTableOk DbIter.

Set Default Proof Using "Type".

(** ** The specification *)

Definition internal_entry (a : add) : bytes * bytes := (ikey_of a, a_value a).
Definition user_entry (a : add) : bytes * bytes := (a_key a, a_value a).

(** The entry is a value and the newest of its key up to [s]. *)
Definition live (s : Z) (es : list add) (a : add) : Prop :=
  a_seq a <= s /\ a_type a = kTypeValue /\
  Forall (fun b => a_key b = a_key a -> a_seq b <= s -> a_seq b <= a_seq a) es.

#[global] Instance live_dec s es a : Decision (live s es a).
Proof. unfold live. apply _. Defined.

Definition db_view (s : Z) (es : list add) : list (bytes * bytes) := user_entry <$> filter (live s es) es.

(** The order of the internal keys. *)
Definition add_lt (user : Comparator) (a b : add) : Prop :=
  Compare user (a_key a) (a_key b) < 0 \/ (a_key a = a_key b /\ a_seq b < a_seq a).

Section entries.
Context (user : Comparator) (dom : bytes -> Prop) {Hc : ComparatorOk user dom} (s : Z) (es : list add).
Context (Hok : Forall (add_ok dom) es) (Hsort : StronglySorted (add_lt user) es).

#[local] Abbreviation lives := (live s es).
#[local] Abbreviation lt_key a b := (Compare user (a_key a) (a_key b) < 0).

(** ** The entries *)

Lemma in_ok a : a ∈ es -> add_ok dom a.
Proof using Hok. intros H. rewrite list.Forall_forall in Hok. by apply Hok. Qed.

Lemma in_dom a : a ∈ es -> dom (a_key a).
Proof using Hok. intros H%in_ok. apply H. Qed.

Lemma key_irrefl a : a ∈ es -> ~ lt_key a a.
Proof using Hc Hok. intros H%in_dom. rewrite (cmp_refl user dom) by done. lia. Qed.

Lemma key_trans a b c : a ∈ es -> b ∈ es -> c ∈ es -> lt_key a b -> lt_key b c -> lt_key a c.
Proof using Hc Hok. intros Ha%in_dom Hb%in_dom Hd%in_dom. by apply cmp_trans. Qed.

Lemma key_asym a b : a ∈ es -> b ∈ es -> lt_key a b -> ~ lt_key b a.
Proof using Hc Hok. intros Ha Hb H H'. by apply (key_irrefl a Ha), (key_trans a b a). Qed.

(** Entries that come later have a key that is not smaller. *)
Lemma split_order pre suf x y :
  es = pre ++ suf -> x ∈ pre -> y ∈ suf -> add_lt user x y.
Proof using Hsort. intros E Hx Hy. rewrite E in Hsort. by eapply StronglySorted_app_1_elem_of. Qed.

Lemma split_key pre suf x y :
  es = pre ++ suf -> x ∈ pre -> y ∈ suf -> lt_key x y \/ a_key x = a_key y.
Proof using Hsort. intros E Hx Hy. destruct (split_order pre suf x y E Hx Hy) as [|[? _]]; auto. Qed.

Lemma add_eq a b : a ∈ es -> b ∈ es -> a_key a = a_key b -> a_seq a = a_seq b -> a = b.
Proof using Hc Hok Hsort.
  intros Ha Hb Hk Hq. pose proof (key_irrefl a Ha) as Hir.
  apply list_elem_of_split in Ha as (l1 & l2 & E). rewrite E in Hb.
  apply elem_of_app in Hb as [Hb|[->|Hb]%elem_of_cons]; [|done|].
  - destruct (split_order l1 (a :: l2) b a E Hb) as [H|[_ H]]; [by left| |lia]. by rewrite <- Hk in H.
  - rewrite (cons_middle a), app_assoc in E.
    destruct (split_order _ l2 a b E) as [H|[_ H]]; [apply elem_of_app; right; by left|done| |lia]. by rewrite <- Hk in H.
Qed.

Lemma live_newest a b : lives a -> b ∈ es -> a_key b = a_key a -> a_seq b <= s -> a_seq b <= a_seq a.
Proof using Type. intros (_ & _ & H). rewrite list.Forall_forall in H. apply H. Qed.

Lemma live_unique a b : a ∈ es -> b ∈ es -> lives a -> lives b -> a_key a = a_key b -> a = b.
Proof using Hc Hok Hsort.
  intros Ha Hb La Lb Hk. apply add_eq; [done..|].
  pose proof (live_newest a b La Hb (eq_sym Hk) (proj1 Lb)). pose proof (live_newest b a Lb Ha Hk (proj1 La)). lia.
Qed.

(** An entry behind a visible one of its key is not live. *)
Lemma behind_dead pre suf x y :
  es = pre ++ suf -> x ∈ pre -> y ∈ suf -> a_key x = a_key y -> a_seq x <= s -> ~ lives y.
Proof using Hc Hok Hsort.
  intros E Hx Hy Hk Hv L. assert (x ∈ es) as Hxe by (rewrite E; apply elem_of_app; by left).
  pose proof (live_newest y x L Hxe Hk Hv) as Hle. destruct (split_order pre suf x y E Hx Hy) as [H|[_ H]]; [|lia].
  rewrite Hk in H. apply (key_irrefl y); [rewrite E; apply elem_of_app; by right|done].
Qed.

(** The first visible entry of its key is live when it is a value. *)
Lemma first_live pre x suf :
  es = pre ++ x :: suf -> a_seq x <= s -> a_type x = kTypeValue ->
  (forall y, y ∈ pre -> a_key y = a_key x -> s < a_seq y) -> lives x.
Proof using Hc Hok Hsort.
  intros E Hv Ht Hp. split_and!; [done..|]. apply list.Forall_forall. intros b Hb Hk Hbs. rewrite E in Hb.
  apply elem_of_app in Hb as [Hb|[->|Hb]%elem_of_cons]; [specialize (Hp b Hb Hk); lia|done|].
  rewrite (cons_middle x), app_assoc in E.
  destruct (split_order _ suf x b E) as [H|[_ H]]; [apply elem_of_app; right; by left|done| |lia].
  rewrite Hk in H. destruct (key_irrefl x); [rewrite E, !elem_of_app; left; right; by left|done].
Qed.
End entries.

(** ** Walking *)

Section walking.
Context {S : Type} (I : IteratorOps S) (user : Comparator) (dom : bytes -> Prop) {Hc : ComparatorOk user dom}.
Context (s : Z) (es : list add) (idom tdom : bytes -> Prop) (at_ : option nat -> S -> Prop).
Context {HI : IteratorOk I (InternalKeyComparator user) idom (internal_entry <$> es) at_}.
Context (Hok : Forall (add_ok dom) es) (Hsort : StronglySorted (add_lt user) es).

#[local] Abbreviation lives := (live s es).
#[local] Abbreviation lt_key a b := (Compare user (a_key a) (a_key b) < 0).
#[local] Abbreviation put_iter x d := (mkDBIter x (status_ d) (saved_key_ d) (saved_value_ d) (direction_ d) (valid_ d)).

Lemma on_iter_read {A} (p : prog S A) d a : p (iter_ d) = Ret a (iter_ d) -> on_iter p d = Ret a d.
Proof using Type. intros H. unfold on_iter, zoom. rewrite H. by destruct d. Qed.

Lemma on_iter_run {A} (p : prog S A) d a x : p (iter_ d) = Ret a x -> on_iter p d = Ret a (put_iter x d).
Proof using Type. intros H. unfold on_iter, zoom. by rewrite H. Qed.

Lemma entry_run i a x :
  at_ (Some i) x -> es !! i = Some a -> it_key I x = Ret (ikey_of a) x /\ it_value I x = Ret (a_value a) x.
Proof using HI.
  intros H Ha. destruct (io_entry i x H) as (k & v & He & Hk & Hv). rewrite list_lookup_fmap, Ha in He.
  unfold internal_entry in He. simplify_eq/=. done.
Qed.

Lemma dbiter_key_run i a d :
  at_ (Some i) (iter_ d) -> es !! i = Some a -> on_iter (it_key I) d = Ret (ikey_of a) d.
Proof using HI. intros H Ha. apply on_iter_read. by apply (entry_run i a). Qed.

Lemma dbiter_valid_run p d : at_ p (iter_ d) -> on_iter (it_Valid I) d = Ret (bool_decide (is_Some p)) d.
Proof using HI. intros H. apply on_iter_read. by apply io_valid. Qed.

Lemma visible_run i a d :
  at_ (Some i) (iter_ d) -> es !! i = Some a ->
  visible_key I s d = Ret (if a_seq a <=? s then Some (mkParsed (a_key a) (a_seq a) (a_type a)) else None) d.
Proof using HI Hok.
  intros H Ha. assert (add_ok dom a) as Hao by (apply (in_ok dom es Hok); by eapply list_elem_of_lookup_2).
  unfold visible_key, ParseKey, bind. rewrite (dbiter_key_run i a d H Ha).
  destruct (parse_append (mkParsed (a_key a) (a_seq a) (a_type a)) (ao_seq _ _ Hao) (ao_type _ _ Hao)) as (r & Hr & Hp).
  unfold AppendInternalKey, bind, modify in Hr. rewrite pack_run in Hr by apply Hao. injection Hr as <-.
  change (PutFixed64 _ _) with (ikey_of a) in Hp. by rewrite Hp.
Qed.

(** The iterator shows an entry and goes forwards. *)
Record forward (a : add) (d : DBIter) : Prop := {
  fw_at : exists i, es !! i = Some a /\ at_ (Some i) (iter_ d);
  fw_dir : direction_ d = kForward;
  fw_valid : valid_ d = true;
  fw_status : status_ d = true }.

(** It shows nothing. *)
Record nowhere (d : DBIter) : Prop := {
  no_at : exists p, at_ p (iter_ d);
  no_valid : valid_ d = false;
  no_status : status_ d = true }.

(** It shows the first entry of the list, if there is one. *)
Definition landed (l : list add) (d : DBIter) : Prop :=
  match l with
  | [] => nowhere d
  | a :: _ => forward a d
  end.

(** The entries that the loop does not skip because of the saved key. *)
Definition wanted (skipping : bool) (skip : bytes) (a : add) : Prop := lives a /\ ~ (skipping = true /\ a_key a = skip).

#[global] Instance wanted_dec skipping skip a : Decision (wanted skipping skip a).
Proof using Type. unfold wanted. apply _. Defined.

(** One step forwards and one backwards. *)
Lemma advance pre x suf d :
  es = pre ++ x :: suf -> at_ (Some (length pre)) (iter_ d) ->
  exists x', on_iter (it_Next I) d = Ret tt (put_iter x' d) /\
    at_ (match suf with [] => None | _ => Some (length (pre ++ [x])) end) x'.
Proof using HI.
  intros E H. destruct (at_next I (InternalKeyComparator user) idom _ at_ _ _ H) as (x' & Hn & Hx').
  exists x'. split; [by apply on_iter_run|]. unfold position in Hx'. rewrite length_fmap, E, !length_app in Hx'.
  rewrite length_app. simpl length in *. rewrite Nat.add_1_r.
  destruct suf; simpl length in Hx'; revert Hx'; case_bool; rewrite ?Nat.ltb_lt, ?Nat.ltb_ge in *; done || lia.
Qed.

Lemma retreat n d :
  at_ (Some n) (iter_ d) -> exists x', on_iter (it_Prev I) d = Ret tt (put_iter x' d) /\ at_ (before n) x'.
Proof using HI.
  intros H. destruct (at_prev I (InternalKeyComparator user) idom _ at_ _ _ H) as (x' & Hn & Hx').
  exists x'. split; [by apply on_iter_run|done].
Qed.

Lemma middle_lookup pre (x : add) suf : es = pre ++ x :: suf -> es !! length pre = Some x.
Proof using Type. intros E. rewrite E. by apply list_lookup_middle. Qed.

(** The saved key is the one whose entries are skipped. *)
Lemma skip_test skipping (d : @DBIter S) x (l : list add) :
  x ∈ es -> x ∈ l ->
  (skipping = true -> dom (saved_key_ d) /\ forall z, z ∈ l -> 0 <= Compare user (a_key z) (saved_key_ d)) ->
  skipping && (Compare user (a_key x) (saved_key_ d) <=? 0) = true <-> skipping = true /\ a_key x = saved_key_ d.
Proof using Hc Hok.
  intros Hx Hl H3. destruct skipping; simpl; [|naive_solver]. destruct H3 as [Hd H3]; [done|].
  pose proof (H3 x Hl). pose proof (cmp_eq (c:=user) _ _ (in_dom dom es Hok x Hx) Hd) as He. rewrite Z.leb_le.
  split; [intros; split; [done|apply He; lia]|]. intros [_ E]. apply He in E. lia.
Qed.

(** What the loop needs to know of the entries before it and of the saved key. *)
Definition skips (skipping : bool) (skip : bytes) (pre suf : list add) : Prop :=
  (forall y z, y ∈ pre -> z ∈ suf -> a_key y = a_key z -> a_seq y <= s -> skipping = true /\ a_key z = skip) /\
  (skipping = true -> dom skip /\ forall z, z ∈ suf -> 0 <= Compare user (a_key z) skip).

Definition go_on (fuel : nat) (skipping : bool) : prog (@DBIter S) unit :=
  on_iter (it_Next I) ;;;
  v <- on_iter (it_Valid I) ;;
  if (v : bool) then find_next I user s fuel skipping else SaveKey [] ;;; set_valid false.

Lemma not_smaller pre x suf z : es = pre ++ x :: suf -> z ∈ suf -> 0 <= Compare user (a_key z) (a_key x).
Proof using Hc Hok Hsort.
  intros E Hz. assert (x ∈ es /\ z ∈ es) as [Hx Hze] by (rewrite E, !elem_of_app, !elem_of_cons; auto).
  rewrite (cons_middle x), app_assoc in E.
  destruct (split_key user es Hsort (pre ++ [x]) suf x z E) as [H|H]; [apply elem_of_app; right; by left|done| |].
  - apply (cmp_flip (c:=user) (dom:=dom)) in H; [lia|by apply (in_dom dom es Hok)..].
  - rewrite H, (cmp_refl user dom); [done|]. by apply (in_dom dom es Hok).
Qed.

Lemma skips_pass pre x suf skipping skip :
  skips skipping skip pre (x :: suf) -> (a_seq x <= s -> skipping = true /\ a_key x = skip) ->
  skips skipping skip (pre ++ [x]) suf.
Proof using Type.
  intros [H1 H3] Hx. split.
  - intros y z [Hy|[->|[]%elem_of_nil]%elem_of_cons]%elem_of_app Hz Hk Hv; [apply (H1 y z); [done|by right|done..]|].
    destruct (Hx Hv). split; [done|congruence].
  - intros Hsk. destruct (H3 Hsk) as [Hd H]. split; [done|]. intros z Hz. apply H. by right.
Qed.

Lemma skips_deletion pre x suf skipping skip :
  es = pre ++ x :: suf -> a_seq x <= s -> a_type x = kTypeDeletion -> skips skipping skip pre (x :: suf) ->
  skips true (a_key x) (pre ++ [x]) suf /\
  forall z, z ∈ suf -> wanted true (a_key x) z <-> wanted skipping skip z.
Proof using Hc Hok Hsort.
  intros E Hv Ht [H1 H3]. assert (x ∈ es) as Hx by (rewrite E, elem_of_app, elem_of_cons; auto).
  pose proof E as E'. rewrite (cons_middle x), app_assoc in E'. split; [split|].
  - intros y z Hy Hz Hk Hvy. split; [done|]. pose proof (not_smaller pre x suf z E Hz) as Hge.
    apply elem_of_app in Hy as [Hy|[->|[]%elem_of_nil]%elem_of_cons]; [|done].
    destruct (split_key user es Hsort pre (x :: suf) y x E Hy ltac:(by left)) as [H|H]; [rewrite Hk in H; lia|congruence].
  - intros _. split; [by apply (in_dom dom es Hok)|]. intros z Hz. by eapply not_smaller.
  - intros z Hz. unfold wanted. split; intros [L Hn]; split; try done; intros [Hsk Hzk].
    + apply Hn. split; [done|]. destruct (H3 Hsk) as [Hd Hge]. pose proof (Hge x ltac:(by left)) as Hgx.
      pose proof (not_smaller pre x suf z E Hz) as Hzx. rewrite Hzk in *.
      assert (dom (a_key x)) as Hdx by (by apply (in_dom dom es Hok)).
      pose proof (cmp_flip (c:=user) _ _ Hdx Hd). pose proof (cmp_flip (c:=user) _ _ Hd Hdx).
      symmetry. apply (cmp_eq (c:=user) _ _ Hdx Hd). lia.
    + revert L. eapply (behind_dead user dom s es Hok Hsort (pre ++ [x]) suf x z); [done|apply elem_of_app; right; by left|done..].
Qed.

Lemma find_next_step pre x suf fuel skipping d :
  es = pre ++ x :: suf -> at_ (Some (length pre)) (iter_ d) -> skips skipping (saved_key_ d) pre (x :: suf) ->
  (wanted skipping (saved_key_ d) x /\
   find_next I user s (Datatypes.S fuel) skipping d =
     Ret tt (mkDBIter (iter_ d) (status_ d) [] (saved_value_ d) (direction_ d) true)) \/
  (~ wanted skipping (saved_key_ d) x /\ exists skipping' skip',
   find_next I user s (Datatypes.S fuel) skipping d =
     go_on fuel skipping' (mkDBIter (iter_ d) (status_ d) skip' (saved_value_ d) (direction_ d) (valid_ d)) /\
   skips skipping' skip' (pre ++ [x]) suf /\
   forall z, z ∈ suf -> wanted skipping' skip' z <-> wanted skipping (saved_key_ d) z).
Proof using Hc HI Hok Hsort.
  intros E Hat Hsk. assert (x ∈ es) as Hx by (rewrite E, elem_of_app, elem_of_cons; auto).
  destruct d as [it st k v dir va]. simpl in *.
  pose proof (skip_test skipping (mkDBIter it st k v dir va) x (x :: suf) Hx ltac:(by left) (proj2 Hsk)) as Ht. simpl in Ht.
  pose proof (visible_run _ x (mkDBIter it st k v dir va) Hat (middle_lookup _ _ _ E)) as Hvis.
  cbn [find_next]. rewrite (bind_Ret _ _ _ _ _ Hvis). clear Hvis.
  pose proof (ao_type _ _ (in_ok dom es Hok x Hx)) as Hty. destruct (Z.leb_spec (a_seq x) s) as [Hv|Hv].
  - cbn [pk_type pk_user_key]. destruct (Z.eqb_spec (a_type x) kTypeDeletion) as [Hdel|Hdel].
    + right. split; [intros [(_ & Ht' & _) _]; rewrite Ht' in Hdel; done|].
      exists true, (a_key x). split; [done|]. by apply skips_deletion.
    + assert (a_type x = kTypeValue) as Hval by (unfold type_ok, kTypeDeletion, kTypeValue in *; lia).
      unfold bind at 1 2 7 8, gets, ret. cbn [saved_key_].
      destruct (skipping && (Compare user (a_key x) k <=? 0)) eqn:Hcov.
      * right. pose proof (proj1 Ht eq_refl) as Hc'. split; [by intros [_ Hn]|].
        exists skipping, k. split_and!; [done|by apply skips_pass|done].
      * left. split; [|done]. assert (~ (skipping = true /\ a_key x = k)) as Hn by (rewrite <- Ht; done).
        split; [|done]. apply (first_live user dom s es Hok Hsort pre x suf); [done..|].
        intros y Hy Hk. destruct (Z.lt_ge_cases s (a_seq y)) as [|Hvy]; [done|].
        destruct Hn. apply (proj1 Hsk y x); [done|by left|done|done].
  - right. split; [intros [[Hl _] _]; lia|]. exists skipping, k. split_and!; [done|apply skips_pass; [done|lia]|done].
Qed.

Lemma find_next_run suf : forall pre x fuel skipping d,
  es = pre ++ x :: suf -> at_ (Some (length pre)) (iter_ d) -> (length suf < fuel)%nat ->
  direction_ d = kForward -> status_ d = true -> skips skipping (saved_key_ d) pre (x :: suf) ->
  exists d', find_next I user s fuel skipping d = Ret tt d' /\
    landed (filter (wanted skipping (saved_key_ d)) (x :: suf)) d'.
Proof using Hc HI Hok Hsort.
  induction suf as [|x' suf IH]; intros pre x fuel skipping d E Hat Hf Hd Hst Hsk;
    (destruct fuel as [|fuel]; [simpl in Hf; lia|]);
    destruct (find_next_step pre x _ fuel skipping d E Hat Hsk) as [[Hw Hr]|(Hw & skipping' & skip' & Hr & Hsk' & Hext)];
    rewrite Hr.
  1, 3: eexists; split; [done|]; rewrite filter_cons_True by done; split; [exists (length pre); eauto using middle_lookup|done..].
  all: rewrite filter_cons_False by done; set (d1 := mkDBIter _ _ _ _ _ _);
    destruct (advance pre x _ d1 E Hat) as (y & Hy & Haty); unfold go_on, bind; rewrite Hy.
  - rewrite (dbiter_valid_run None) by done. eexists. split; [done|]. split; [by eexists|done..].
  - rewrite (dbiter_valid_run (Some (length (pre ++ [x])))) by done.
    destruct (IH (pre ++ [x]) x' fuel skipping' (put_iter y d1)) as (d' & Hd' & Hl).
    + by rewrite <- app_assoc.
    + done.
    + simpl in Hf. lia.
    + done.
    + done.
    + done.
    + exists d'. split; [done|]. cbn [saved_key_ d1] in Hl.
      by rewrite <- (filter_iff_in _ _ _ Hext).
Qed.

(** The entry shown, and that the internal iterator is before the entries of its key:
    the iterator goes backwards. [suf] begins with the first of these entries that is
    visible, or with later ones that are not. *)
Record backward (pre suf : list add) (a : add) (d : @DBIter S) : Prop := {
  bw_split : es = pre ++ suf;
  bw_live : exists rest, filter lives suf = a :: rest;
  bw_at : at_ (before (length pre)) (iter_ d);
  bw_key : saved_key_ d = a_key a;
  bw_value : saved_value_ d = a_value a;
  bw_before x : x ∈ pre -> lt_key x a;
  bw_behind y : y ∈ suf -> a_seq y <= s -> 0 <= Compare user (a_key y) (a_key a);
  bw_dir : direction_ d = kReverse;
  bw_valid : valid_ d = true;
  bw_status : status_ d = true }.

(** The position that the iterator shows. *)
Definition shows (p : option nat) (d : @DBIter S) : Prop :=
  match p with
  | None => nowhere d
  | Some n =>
      (exists a, filter lives es !! n = Some a /\ forward a d) \/
      (exists pre suf a, n = length (filter lives pre) /\ backward pre suf a d)
  end.

(** After a move forwards. *)
Definition settled (p : option nat) (d : @DBIter S) : Prop := shows p d /\ (valid_ d = true -> direction_ d = kForward).

Lemma landed_shows l l' d : filter lives es = l ++ l' -> landed l' d -> settled (position (db_view s es) (length l)) d.
Proof using Type.
  intros E H. split; [|intros Hv; destruct l' as [|a l']; destruct H as [_ Hd]; congruence]. unfold position, db_view. rewrite length_fmap, E, length_app.
  destruct l' as [|a l']; simpl in *.
  - by rewrite Nat.add_0_r, Nat.ltb_irrefl.
  - rewrite (proj2 (Nat.ltb_lt _ _)) by lia. left. exists a. split; [|done]. rewrite E. by apply list_lookup_middle.
Qed.

Lemma entries_nodup : NoDup es.
Proof using Hc Hok Hsort.
  clear -Hsort Hc Hok. induction Hsort as [|x l Hl IH Hx]; [constructor|].
  apply Forall_cons_1 in Hok as [Hxo Hlo]. apply list.NoDup_cons. split; [|by apply IH].
  intros Hin. rewrite list.Forall_forall in Hx. destruct (Hx x Hin) as [H|[_ H]]; [|lia].
  rewrite (cmp_refl user dom) in H; [lia|apply Hxo].
Qed.

Lemma lives_nodup : NoDup (filter lives es).
Proof using Hc Hok Hsort. apply list.NoDup_filter, entries_nodup. Qed.

Lemma lives_app pre suf : es = pre ++ suf -> filter lives es = filter lives pre ++ filter lives suf.
Proof using Type.
  assert (forall l, l = pre ++ suf -> filter lives l = filter lives pre ++ filter lives suf) as H by (intros l ->; apply list.filter_app).
  apply H.
Qed.

Lemma lives_middle pre a suf : es = pre ++ a :: suf -> lives a -> filter lives es = filter lives pre ++ a :: filter lives suf.
Proof using Type. intros E L. rewrite (lives_app _ _ E). by rewrite filter_cons_True by done. Qed.

(** The entries that are shown before and after one. *)
Lemma lives_split n a : filter lives es !! n = Some a -> exists pre suf,
  es = pre ++ a :: suf /\ n = length (filter lives pre) /\ lives a.
Proof using Hc Hok Hsort.
  intros Hn. pose proof (list_elem_of_lookup_2 _ _ _ Hn) as [L Hin]%list_elem_of_filter.
  apply list_elem_of_split in Hin as (pre & suf & E). exists pre, suf. split_and!; [done| |done].
  eapply (NoDup_lookup _ _ _ _ lives_nodup Hn). rewrite (lives_middle pre a suf E L).
  by apply list_lookup_middle.
Qed.

Context (rounds : nat) (Hrounds : (length es < rounds)%nat) (Hs : seq_ok s).
Context (Htd : forall target, tdom target -> dom target /\ idom (internal target (tag_of s kValueTypeForSeek))).

Lemma FindNext_run skipping pre x suf d :
  es = pre ++ x :: suf -> at_ (Some (length pre)) (iter_ d) ->
  direction_ d = kForward -> status_ d = true -> skips skipping (saved_key_ d) pre (x :: suf) ->
  exists d', FindNextUserEntry I user s rounds skipping d = Ret tt d' /\
    landed (filter (wanted skipping (saved_key_ d)) (x :: suf)) d'.
Proof using All.
  intros E Hat Hd Hst Hsk. unfold FindNextUserEntry, bind, gets. rewrite (dbiter_valid_run _ d Hat). cbn. rewrite Hd. cbn.
  apply (find_next_run suf pre); try done. rewrite E, length_app in Hrounds. simpl in Hrounds. lia.
Qed.


Lemma lives_wanted k (l : list add) : filter (wanted false k) l = filter lives l.
Proof using Type. apply filter_iff_in. intros x _. unfold wanted. split; [by intros []|]. intros L. split; [done|by intros [? _]]. Qed.

Lemma settle_run pre suf d :
  es = pre ++ suf -> at_ (match suf with [] => None | _ => Some (length pre) end) (iter_ d) ->
  direction_ d = kForward -> status_ d = true -> skips false (saved_key_ d) pre suf ->
  exists d', settle I user s rounds d = Ret tt d' /\ landed (filter lives suf) d'.
Proof using All.
  intros E Hat Hd Hst Hsk. unfold settle, bind. rewrite (dbiter_valid_run _ d Hat). destruct suf as [|x suf].
  - eexists. split; [done|]. split; [by eexists|done..].
  - cbn -[filter]. destruct (FindNext_run false pre x suf d E Hat Hd Hst Hsk) as (d' & Hr & Hl).
    exists d'. split; [done|]. by rewrite lives_wanted in Hl.
Qed.

Lemma SeekToFirst_shows p d :
  at_ p (iter_ d) -> status_ d = true ->
  exists d', DBIter_SeekToFirst I user s rounds d = Ret tt d' /\ settled (position (db_view s es) 0) d'.
Proof using All.
  intros Hat Hst. destruct (at_first I (InternalKeyComparator user) idom _ at_ _ _ Hat) as (x & Hx & Hatx).
  unfold DBIter_SeekToFirst, set_direction, ClearSavedValue, save_value, bind, modify.
  erewrite on_iter_run by exact Hx. set (d1 := mkDBIter _ _ _ _ _ _).
  assert (at_ (match es with [] => None | _ => Some (length (@nil add)) end) (iter_ d1)) as H1
    by (unfold position in Hatx; by destruct es).
  destruct (settle_run [] es d1 eq_refl H1) as (d' & Hr & Hl); [done|done| |].
  { split; [|done]. by intros y z ?%elem_of_nil. }
  exists d'. split; [done|]. by apply (landed_shows [] (filter lives es)).
Qed.

(** The internal key that [Seek] looks for. *)
Lemma below_seek a target :
  a ∈ es -> dom target ->
  internal_compare user (ikey_of a) (internal target (tag_of s kValueTypeForSeek)) < 0 <->
  Compare user (a_key a) target < 0 \/ (a_key a = target /\ s < a_seq a).
Proof using All.
  intros Ha%(in_ok dom es Hok) Hd. unfold ikey_of.
  rewrite (internal_lt user dom), !user_internal, !tag_internal; rewrite ?user_internal; try done; try apply Ha;
    try (apply tag_range; [done|split; by vm_compute]); try (apply tag_range; apply Ha).
  pose proof (ao_type _ _ Ha) as Hty. unfold tag_of, type_ok in *. change kValueTypeForSeek with 1.
  assert (s * 256 + 1 < a_seq a * 256 + a_type a <-> s < a_seq a) as -> by lia. done.
Qed.

Definition below_snapshot (target : bytes) (a : add) : Prop :=
  Compare user (a_key a) target < 0 \/ (a_key a = target /\ s < a_seq a).

Lemma below_closed target h a :
  h ∈ es -> a ∈ es -> dom target -> add_lt user h a -> below_snapshot target a -> below_snapshot target h.
Proof using All.
  intros Hh Ha Hd [H|[Hk H]] [Hb|[Hb Hq]]; unfold below_snapshot.
  - left. by apply (cmp_trans (c:=user) (dom:=dom) _ (a_key a)); [apply (in_dom dom es Hok)..| | |].
  - left. by rewrite <- Hb.
  - left. by rewrite Hk.
  - right. split; [congruence|lia].
Qed.

(** Where [Seek] of the internal iterator stops. *)
Lemma seek_split target :
  dom target ->
  exists pre suf, es = pre ++ suf /\ (forall a, a ∈ pre -> below_snapshot target a) /\
    (forall a, a ∈ suf -> ~ below_snapshot target a) /\
    fst <$> list_find (fun kv => 0 <= internal_compare user (fst kv) (internal target (tag_of s kValueTypeForSeek)))
      (internal_entry <$> es) = match suf with [] => None | _ => Some (length pre) end.
Proof using All.
  intros Hd. set (key := internal target (tag_of s kValueTypeForSeek)).
  destruct (find_split (fun a => 0 <= internal_compare user (ikey_of a) key) es) as (pre & suf & E & Hpre & Hsuf).
  exists pre, suf. split_and!; [done| | |].
  - intros a Ha. apply below_seek; [rewrite E; apply elem_of_app; by left|done|]. specialize (Hpre a Ha). fold key. lia.
  - destruct suf as [|h suf]; [by intros a ?%elem_of_nil|].
    assert (forall a, a ∈ h :: suf -> a ∈ es) as Hin by (intros a Ha; rewrite E; apply elem_of_app; by right).
    assert (~ below_snapshot target h) as Hh.
    { unfold below_snapshot. rewrite <- below_seek by (done || (apply Hin; by left)). fold key.
      specialize (Hsuf h eq_refl). simpl in Hsuf. lia. }
    intros a [->|Ha]%elem_of_cons Hb; [done|]. apply Hh. apply (below_closed target h a); try done; try (apply Hin; by constructor).
    rewrite (cons_middle h), app_assoc in E. apply (split_order user es Hsort _ suf h a E); [apply elem_of_app; right; by left|done].
  - assert (internal_entry <$> es = (internal_entry <$> pre) ++ (internal_entry <$> suf)) as -> by (by rewrite <- fmap_app, <- E).
    rewrite find_position, position_middle, length_fmap; [by destruct suf| |].
    + intros kv (a & -> & Ha)%list_elem_of_fmap. apply (Hpre a Ha).
    + intros kv. destruct suf as [|h suf]; simpl; intros [= <-]. by apply Hsuf.
Qed.

(** The entry of the snapshot that comes first from the target on. *)
Lemma view_find target pre suf :
  es = pre ++ suf -> (forall a, a ∈ pre -> below_snapshot target a) -> (forall a, a ∈ suf -> ~ below_snapshot target a) ->
  fst <$> list_find (fun kv => 0 <= Compare user (fst kv) target) (db_view s es) =
  position (db_view s es) (length (filter lives pre)).
Proof using All.
  intros E Hlo Hhi. unfold db_view. rewrite (lives_app _ _ E), fmap_app.
  rewrite find_position; [by rewrite length_fmap| |].
  - intros kv (a & -> & [L Ha]%list_elem_of_filter)%list_elem_of_fmap. simpl. destruct L as [Hv _].
    destruct (Hlo a Ha) as [|[_ ?]]; lia.
  - intros kv Hkv. apply head_Some_elem_of in Hkv. apply list_elem_of_fmap in Hkv as (a & -> & [L Ha]%list_elem_of_filter).
    simpl. specialize (Hhi a Ha). unfold below_snapshot in Hhi. lia.
Qed.

Lemma Seek_shows target p d :
  at_ p (iter_ d) -> status_ d = true -> tdom target ->
  exists d', DBIter_Seek I user s rounds target d = Ret tt d' /\
    settled (fst <$> list_find (fun kv => 0 <= Compare user (fst kv) target) (db_view s es)) d'.
Proof using All.
  intros Hat Hst [Hd Hko]%Htd. set (key := internal target (tag_of s kValueTypeForSeek)) in *.
  destruct (at_seek I (InternalKeyComparator user) idom _ at_ key _ _ Hat Hko) as (x & Hx & Hatx).
  destruct (seek_split target Hd) as (pre & suf & E & Hlo & Hhi & Hf). fold key in Hf. cbn [Compare InternalKeyComparator] in Hatx.
  rewrite Hf in Hatx. rewrite (view_find target pre suf E Hlo Hhi).
  unfold DBIter_Seek, set_direction, ClearSavedValue, save_value, SaveKey, append_seek_key, zoom, AppendInternalKey, bind, modify.
  cbn [saved_key_ pk_sequence pk_type]. rewrite pack_run by (done || (split; by vm_compute)). unfold gets. cbn [saved_key_].
  change (PutFixed64 _ _) with key. erewrite on_iter_run by exact Hx. set (d1 := mkDBIter _ _ _ _ _ _).
  destruct (settle_run pre suf d1 E Hatx) as (d' & Hr & Hl); [done|done| |].
  { split; [|done]. intros y z Hy Hz Hk Hv. exfalso. apply (Hhi z Hz). left. rewrite <- Hk. destruct (Hlo y Hy) as [|[_ ?]]; [done|lia]. }
  exists d'. split; [done|]. apply (landed_shows _ (filter lives suf)); [|done]. by apply lives_app.
Qed.

(** *** Next *)

Lemma next_from_here_run pre x suf d :
  es = pre ++ x :: suf -> at_ (Some (length pre)) (iter_ d) -> direction_ d = kForward -> status_ d = true ->
  exists d', next_from_here I user s rounds d = Ret tt d' /\ landed (filter (wanted true (a_key x)) (x :: suf)) d'.
Proof using All.
  intros E Hat Hd Hst. unfold next_from_here, bind. rewrite (dbiter_key_run _ x d Hat (middle_lookup _ _ _ E)).
  unfold SaveKey, modify, ikey_of. rewrite user_internal.
  assert (x ∈ es) as Hx by (rewrite E, elem_of_app, elem_of_cons; auto).
  assert (forall z, z ∈ x :: suf -> 0 <= Compare user (a_key z) (a_key x)) as Hge.
  { intros z [->|Hz]%elem_of_cons; [rewrite (cmp_refl user dom); [done|by apply (in_dom dom es Hok)]|by eapply not_smaller]. }
  destruct (FindNext_run true pre x suf (mkDBIter (iter_ d) (status_ d) (a_key x) (saved_value_ d) (direction_ d) (valid_ d)) E)
    as (d' & Hr & Hl); [done..| |by exists d']. split; [|split; [by apply (in_dom dom es Hok)|done]].
  intros y z Hy Hz Hk _. split; [done|]. cbn [saved_key_]. specialize (Hge z Hz).
  destruct (split_key user es Hsort pre (x :: suf) y x E Hy ltac:(by left)) as [H|H]; [rewrite Hk in H; lia|congruence].
Qed.

Lemma wanted_after pre a suf : es = pre ++ a :: suf -> lives a -> filter (wanted true (a_key a)) (a :: suf) = filter lives suf.
Proof using All.
  intros E L. rewrite filter_cons_False by (intros [_ H]; by apply H). apply filter_iff_in. intros z Hz. unfold wanted.
  split; [tauto|]. intros Lz. split; [done|]. intros [_ Hk]. revert Lz.
  rewrite (cons_middle a), app_assoc in E.
  apply (behind_dead user dom s es Hok Hsort (pre ++ [a]) suf a z E); [apply elem_of_app; right; by left|done|done|apply L].
Qed.

Lemma Next_forward n a d :
  filter lives es !! n = Some a -> forward a d ->
  exists d', DBIter_Next I user s rounds d = Ret tt d' /\ settled (position (db_view s es) (Datatypes.S n)) d'.
Proof using All.
  intros Hn [(i & Hi & Hat) Hd Hv Hst]. destruct (lives_split n a Hn) as (pre & suf & E & Hlen & L).
  assert (i = length pre) as Hip by (eapply (NoDup_lookup _ _ _ _ entries_nodup Hi); by eapply middle_lookup).
  rewrite Hip in Hat. unfold DBIter_Next, bind, gets. rewrite Hv. cbn. rewrite Hd. cbn.
  destruct (next_from_here_run pre a suf d E Hat Hd Hst) as (d' & Hr & Hl). exists d'. split; [done|].
  rewrite (wanted_after pre a suf E L) in Hl. replace (Datatypes.S n) with (length (filter lives pre ++ [a])) by (rewrite length_app; simpl; lia).
  apply (landed_shows _ (filter lives suf)); [|done]. rewrite (lives_middle pre a suf E L). by rewrite <- app_assoc.
Qed.

(** From just before an entry to it. *)
Lemma step_into pre h suf d :
  es = pre ++ h :: suf -> at_ (before (length pre)) (iter_ d) ->
  exists x, (v <- on_iter (it_Valid I) ;; if (v : bool) then on_iter (it_Next I) else on_iter (it_SeekToFirst I)) d =
    Ret tt (put_iter x d) /\ at_ (Some (length pre)) x.
Proof using All.
  intros E Hat. unfold bind. rewrite (dbiter_valid_run _ d Hat). destruct pre as [|x0 pre0 _] using rev_ind.
  - cbn. destruct (at_first I (InternalKeyComparator user) idom _ at_ _ _ Hat) as (x & Hx & Hatx).
    exists x. split; [by apply on_iter_run|]. unfold position in Hatx. by rewrite length_fmap, E in Hatx.
  - rewrite length_app, Nat.add_comm in *. cbn in *. rewrite <- app_assoc in E.
    destruct (advance _ _ _ d E Hat) as (x & Hx & Hatx). exists x. split; [done|]. cbn in Hatx. by rewrite length_app, Nat.add_comm in Hatx.
Qed.

(** The entry shown is the first that is live from here on, so it is the only one of its
    key. *)
Lemma wanted_rest pre suf a rest :
  es = pre ++ suf -> filter lives suf = a :: rest -> filter (wanted true (a_key a)) suf = rest.
Proof using All.
  intros E Hl. assert (lives a /\ a ∈ suf) as [L Ha] by (apply (list_elem_of_filter lives); rewrite Hl; by left).
  apply list_elem_of_split in Ha as (m & r & ->). rewrite list.filter_app, filter_cons_True in Hl by done.
  rewrite app_assoc in E.
  assert (filter lives m = []) as Hm.
  { pose proof (lives_nodup) as Hnd. rewrite (lives_middle (pre ++ m) a r E L), list.filter_app in Hnd.
    destruct (filter lives m) as [|b m'] eqn:Em; [done|]. injection Hl as -> _.
    rewrite <- app_assoc in Hnd. apply list.NoDup_app in Hnd as (_ & _ & Hnd). simpl in Hnd.
    apply list.NoDup_cons in Hnd as [Hn _]. destruct Hn. apply elem_of_app. right. by left. }
  rewrite Hm in Hl. injection Hl as Hl. rewrite list.filter_app, (wanted_after (pre ++ m) a r E L), Hl.
  assert (filter (wanted true (a_key a)) m = []) as ->; [|done].
  apply elem_of_nil_inv. intros z ([Lz _] & Hz)%list_elem_of_filter. by apply (filter_nil_not_elem_of lives m z Hm Lz).
Qed.

(** Turning round is right when every entry is visible: [iter_] is then just before the
    entries of the key. *)
Lemma Next_backward pre suf a d :
  (forall x, x ∈ es -> a_seq x <= s) -> backward pre suf a d ->
  exists d', DBIter_Next I user s rounds d = Ret tt d' /\
    settled (position (db_view s es) (Datatypes.S (length (filter lives pre)))) d'.
Proof using All.
  intros Hvis [E (rest & Hl) Hat Hk Hval Hbef Hbeh Hd Hv Hst].
  assert (lives a /\ a ∈ suf) as [L Ha] by (apply (list_elem_of_filter lives); rewrite Hl; by left).
  destruct suf as [|h suf]; [by apply elem_of_nil in Ha|].
  assert (forall y, y ∈ h :: suf -> y ∈ es) as Hin by (intros y Hy; rewrite E; apply elem_of_app; by right).
  assert (a_key h = a_key a) as Hh.
  { apply elem_of_cons in Ha as [->|Ha]; [done|]. pose proof (Hbeh h ltac:(by left) (Hvis h (Hin h ltac:(by left)))) as Hge.
    pose proof (not_smaller pre h suf a E Ha) as Hge'.
    assert (dom (a_key h) /\ dom (a_key a)) as [D1 D2] by (split; apply (in_dom dom es Hok), Hin; by constructor).
    apply (cmp_eq (c:=user) (dom:=dom)); [done..|]. pose proof (cmp_flip (c:=user) _ _ D1 D2). pose proof (cmp_flip (c:=user) _ _ D2 D1). lia. }
  pose proof (wanted_rest pre (h :: suf) a rest E Hl) as Hrest. rewrite <- Hh in Hrest.
  unfold DBIter_Next, gets. unfold bind at 1. rewrite Hv. unfold bind at 1. cbn [assert_ ret]. unfold bind at 1. rewrite Hd. cbn [is_forward].
  unfold bind at 1, set_direction, modify. set (d0 := mkDBIter _ _ _ _ _ _).
  destruct (step_into pre h suf d0 E Hat) as (x & Hx & Hatx). rewrite <- bind_assoc, (bind_Ret _ _ _ _ _ Hx).
  unfold bind. rewrite (dbiter_valid_run (Some (length pre))) by done. cbn.
  destruct (next_from_here_run pre h suf (put_iter x d0) E Hatx) as (d' & Hr & Hland); [done|done|].
  exists d'. split; [done|]. rewrite Hrest in Hland.
  replace (Datatypes.S (length (filter lives pre))) with (length (filter lives pre ++ [a])) by (rewrite length_app; simpl; lia).
  apply (landed_shows _ rest); [|done]. rewrite (lives_app _ _ E), Hl. by rewrite <- app_assoc.
Qed.

(** *** Prev *)

(** The state of the loop of [FindPrevUserEntry] that went back over [mid]. *)
Inductive candidate (vt : Z) (d : @DBIter S) (mid : list add) : Prop :=
| cand_none :
    vt = kTypeDeletion -> (forall z, z ∈ mid -> ~ lives z) -> candidate vt d mid
| cand_some newer a older :
    vt = kTypeValue -> mid = newer ++ a :: older -> (forall z, z ∈ newer -> s < a_seq z) ->
    a_seq a <= s -> a_type a = kTypeValue -> (forall z, z ∈ mid -> lives z -> z = a) ->
    saved_key_ d = a_key a -> saved_value_ d = a_value a -> candidate vt d mid.

Lemma candidate_iter vt (d d' : @DBIter S) mid :
  saved_key_ d' = saved_key_ d -> saved_value_ d' = saved_value_ d -> candidate vt d mid -> candidate vt d' mid.
Proof using Type.
  intros Hk Hv [Hvt Hno|newer a older]; [by apply cand_none|]. eapply cand_some; try done; congruence.
Qed.

Definition go_back (fuel : nat) (vt : Z) : prog (@DBIter S) Z :=
  on_iter (it_Prev I) ;;;
  v <- on_iter (it_Valid I) ;;
  if (v : bool) then find_prev I user s fuel vt else ret vt.

(** A visible entry of the same key as the candidate takes its place. *)
Lemma candidate_visible pre x mid suf vt (d : @DBIter S) z :
  es = pre ++ x :: mid ++ suf -> candidate vt d mid -> a_seq x <= s ->
  (vt = kTypeValue -> 0 <= Compare user (a_key x) (saved_key_ d)) -> z ∈ mid -> ~ lives z.
Proof using All.
  intros E Hcand Hv Hge Hz L. destruct Hcand as [Hvt Hno|newer a older Hvt Hmid Hnew Hav Hat Huniq Hk Hval]; [by destruct (Hno z Hz)|].
  pose proof (Huniq z Hz L) as ->. specialize (Hge Hvt). rewrite Hk in Hge.
  assert (a ∈ mid ++ suf) as Ha by (apply elem_of_app; by left).
  rewrite (cons_middle x), app_assoc in E. revert L.
  apply (behind_dead user dom s es Hok Hsort (pre ++ [x]) (mid ++ suf) x a E); [apply elem_of_app; right; by left|done| |done].
  destruct (split_key user es Hsort (pre ++ [x]) (mid ++ suf) x a E) as [H|H]; [apply elem_of_app; right; by left|done|lia|done].
Qed.

Lemma find_prev_step pre x mid suf fuel vt d :
  es = pre ++ x :: mid ++ suf -> at_ (Some (length pre)) (iter_ d) -> candidate vt d mid ->
  (vt = kTypeValue /\ a_seq x <= s /\ Compare user (a_key x) (saved_key_ d) < 0 /\
   find_prev I user s (Datatypes.S fuel) vt d = Ret vt d) \/
  (exists vt' k v, let d1 := mkDBIter (iter_ d) (status_ d) k v (direction_ d) (valid_ d) in
   find_prev I user s (Datatypes.S fuel) vt d = go_back fuel vt' d1 /\ candidate vt' d1 (x :: mid)).
Proof using All.
  intros E Hat Hcand. pose proof (middle_lookup _ _ _ E) as Hx. pose proof (visible_run _ x d Hat Hx) as Hvis.
  assert (x ∈ es) as Hxe by (by eapply list_elem_of_lookup_2).
  cbn [find_prev]. rewrite (bind_Ret _ _ _ _ _ Hvis), (bind_Ret (gets saved_key_) _ d (saved_key_ d) d eq_refl). clear Hvis.
  destruct d as [it st k v dir va]. cbn [saved_key_ iter_ status_ saved_value_ direction_ valid_] in *.
  destruct (Z.leb_spec (a_seq x) s) as [Hv|Hv].
  2: { right. exists vt, k, v. split; [done|]. destruct Hcand as [Hvt Hno|newer a older Hvt -> Hnew Hav Hty Huniq Hk Hval].
       - apply cand_none; [done|]. intros z [->|Hz]%elem_of_cons; [intros [Hl _]; lia|by apply Hno].
       - apply (cand_some _ _ _ (x :: newer) a older); try done; intros z [->|Hz]%elem_of_cons; [done|by apply Hnew|intros [Hl _]; lia|by apply Huniq]. }
  cbn [pk_user_key pk_type]. destruct (_ && _) eqn:Hstop.
  { left. apply andb_true_iff in Hstop as [Hvt Hlt%Z.ltb_lt]. apply negb_true_iff, Z.eqb_neq in Hvt.
    split_and!; [|done..]. by destruct Hcand. }
  right. assert (forall z, z ∈ mid -> ~ lives z) as Hno.
  { intros z. apply (candidate_visible pre x mid suf vt _ z E Hcand Hv). cbn. intros ->. cbn in Hstop. by apply Z.ltb_ge in Hstop. }
  pose proof (ao_type _ _ (in_ok dom es Hok x Hxe)) as Hty. destruct (Z.eqb_spec (a_type x) kTypeDeletion) as [Hdel|Hdel].
  - exists kTypeDeletion, [], []. split; [by rewrite Hdel|]. apply cand_none; [done|].
    intros z [->|Hz]%elem_of_cons; [|by apply Hno]. intros (_ & Hl & _). by rewrite Hl in Hdel.
  - assert (a_type x = kTypeValue) as Hval by (unfold type_ok, kTypeDeletion, kTypeValue in *; lia).
    exists kTypeValue, (a_key x), (a_value x). split.
    + unfold bind. rewrite (on_iter_read (it_value I) (mkDBIter it st k v dir va) (a_value x)) by (by apply (entry_run (length pre) x)).
      rewrite (on_iter_read (it_key I) (mkDBIter it st k v dir va) (ikey_of x)) by (by apply (entry_run (length pre) x)).
      rewrite Hval. unfold ikey_of. by rewrite user_internal.
    + apply (cand_some _ _ _ [] x mid); try done; [by intros z ?%elem_of_nil|].
      intros z [->|Hz]%elem_of_cons Lz; [done|by destruct (Hno z Hz)].
Qed.

(** Where the loop stops. *)
Lemma find_prev_run suf pre : forall x mid fuel vt d,
  es = pre ++ x :: mid ++ suf -> at_ (Some (length pre)) (iter_ d) -> (length pre < fuel)%nat -> candidate vt d mid ->
  exists vt' d' pre' mid', find_prev I user s fuel vt d = Ret vt' d' /\ pre ++ x :: mid = pre' ++ mid' /\
    at_ (before (length pre')) (iter_ d') /\ candidate vt' d' mid' /\
    direction_ d' = direction_ d /\ status_ d' = status_ d /\
    (pre' = [] \/ (vt' = kTypeValue /\ exists p y, pre' = p ++ [y] /\ Compare user (a_key y) (saved_key_ d') < 0)).
Proof using All.
  induction pre as [|x' pre IH] using rev_ind; intros x mid fuel vt d E Hat Hf Hcand; (destruct fuel as [|fuel]; [lia|]);
    destruct (find_prev_step _ x mid suf fuel vt d E Hat Hcand) as [(Hvt & Hv & Hlt & Hr)|(vt' & k & v & Hr & Hcand')]; rewrite Hr.
  - exists vt, d, [x], mid. split_and!; try done. right. split; [done|]. by exists [], x.
  - destruct (retreat _ (mkDBIter (iter_ d) (status_ d) k v (direction_ d) (valid_ d)) Hat) as (y & Hy & Haty).
    unfold go_back, bind. rewrite Hy, (dbiter_valid_run None) by done. cbn.
    eexists vt', _, [], (x :: mid). split_and!; try done; [eapply candidate_iter; [..|exact Hcand']; done|by left].
  - exists vt, d, ((pre ++ [x']) ++ [x]), mid. split_and!; try done; [by rewrite <- !app_assoc|by rewrite (length_app (pre ++ [x'])), Nat.add_comm|].
    right. split; [done|]. by exists (pre ++ [x']), x.
  - destruct (retreat _ (mkDBIter (iter_ d) (status_ d) k v (direction_ d) (valid_ d)) Hat) as (y & Hy & Haty).
    unfold go_back, bind. rewrite Hy. rewrite length_app, Nat.add_comm in Haty. cbn in Haty.
    rewrite (dbiter_valid_run (Some (length pre))) by done. cbn.
    rewrite length_app in Hf. simpl in Hf.
    edestruct (IH x' (x :: mid) fuel vt' (mkDBIter y (status_ d) k v (direction_ d) (valid_ d))) as (vt1 & d1 & pre1 & mid1 & H1 & H2 & H3); [|done|lia| |].
    + by rewrite <- app_assoc in E.
    + eapply candidate_iter; [..|exact Hcand']; done.
    + exists vt1, d1, pre1, mid1. split; [done|]. split; [by rewrite <- !app_assoc|done].
Qed.

(** The candidate at the end of the loop is the last entry before [suf] to be shown. *)
Lemma candidate_backward pre mid suf newer a older (d : @DBIter S) :
  es = pre ++ mid ++ suf -> mid = newer ++ a :: older -> (forall z, z ∈ newer -> s < a_seq z) ->
  a_seq a <= s -> a_type a = kTypeValue -> (forall x, x ∈ pre -> lt_key x a) -> (forall z, z ∈ mid -> lives z -> z = a) ->
  filter lives mid = [a] /\ (exists rest, filter lives (mid ++ suf) = a :: rest) /\
  forall y, y ∈ mid ++ suf -> a_seq y <= s -> 0 <= Compare user (a_key y) (a_key a).
Proof using All.
  intros E Hmid Hnew Hv Ht Hbef Huniq. assert (es = (pre ++ newer) ++ a :: older ++ suf) as E'
    by (rewrite E, Hmid; by rewrite <- !app_assoc).
  assert (a ∈ es) as Ha by (rewrite E'; apply elem_of_app; right; by left).
  assert (lives a) as L.
  { apply (first_live user dom s es Hok Hsort _ a _ E'); [done..|]. intros y [Hy|Hy]%elem_of_app Hk; [|by apply Hnew].
    specialize (Hbef y Hy). rewrite Hk in Hbef. by destruct (key_irrefl user dom es Hok a Ha). }
  assert (filter lives newer = []) as Hn.
  { apply elem_of_nil_inv. intros z [[Hl _] Hz]%list_elem_of_filter. specialize (Hnew z Hz). lia. }
  assert (filter lives older = []) as Hold.
  { apply elem_of_nil_inv. intros z [Lz Hz]%list_elem_of_filter.
    assert (z = a) as -> by (apply Huniq; [rewrite Hmid; apply elem_of_app; right; by right|done]).
    pose proof entries_nodup as Hnd. rewrite E' in Hnd. apply list.NoDup_app in Hnd as (_ & _ & Hnd).
    apply list.NoDup_cons in Hnd as [Hni _]. apply Hni, elem_of_app. by left. }
  assert (filter lives mid = [a]) as Hfm.
  { rewrite Hmid, list.filter_app, Hn. simpl (_ ++ _). by rewrite filter_cons_True, Hold by done. }
  split_and!; [done|rewrite list.filter_app, Hfm; by eexists|]. intros y Hy Hys. rewrite Hmid, <- app_assoc in Hy.
  apply elem_of_app in Hy as [Hy|[->|Hy]%elem_of_cons]; [specialize (Hnew y Hy); lia| |by eapply not_smaller].
  rewrite (cmp_refl user dom); [done|by apply (in_dom dom es Hok)].
Qed.

Lemma all_before pre y suf a k :
  es = (pre ++ [y]) ++ suf -> a ∈ suf -> a_key a = k -> Compare user (a_key y) k < 0 -> forall x, x ∈ pre ++ [y] -> lt_key x a.
Proof using All.
  intros E Ha Hk Hlt x Hx. rewrite Hk. assert (y ∈ es /\ x ∈ es /\ a ∈ es) as (Hy & Hxe & Hae).
  { rewrite E. rewrite !elem_of_app in *. split_and!; [left; right; by left|by left|by right]. }
  apply elem_of_app in Hx as [Hx|[->|[]%elem_of_nil]%elem_of_cons]; [|done]. rewrite <- app_assoc in E.
  destruct (split_key user es Hsort pre _ x y E Hx) as [H|H]; [by left| |by rewrite H].
  rewrite <- Hk in *. by apply (key_trans user dom es Hok x y a).
Qed.

Lemma FindPrev_run pre suf d :
  es = pre ++ suf -> at_ (before (length pre)) (iter_ d) -> direction_ d = kReverse -> status_ d = true ->
  exists d', FindPrevUserEntry I user s rounds d = Ret tt d' /\ shows (before (length (filter lives pre))) d'.
Proof using All.
  intros E Hat Hd Hst. unfold FindPrevUserEntry, bind, gets. rewrite Hd. cbn. rewrite (dbiter_valid_run _ d Hat).
  destruct pre as [|x pre _] using rev_ind.
  { eexists. split; [done|]. split; [by eexists|done..]. }
  rewrite length_app, Nat.add_comm in Hat. cbn in Hat. rewrite (length_app pre [x]), Nat.add_comm. cbn.
  rewrite <- app_assoc in E. cbn in E.
  assert (length pre < rounds)%nat as Hf by (rewrite E, length_app in Hrounds; lia).
  assert (candidate kTypeDeletion d []) as Hcand by (apply cand_none; [done|by intros z ?%elem_of_nil]).
  destruct (find_prev_run suf pre x [] rounds kTypeDeletion d E Hat Hf Hcand)
    as (vt & d1 & pre' & mid & -> & Esplit & Hat1 & Hc1 & Hd1 & Hst1 & Hend).
  rewrite Hd in Hd1. rewrite Hst in Hst1. rewrite Esplit.
  assert (es = pre' ++ mid ++ suf) as E1 by (rewrite app_assoc, <- Esplit, <- app_assoc; done).
  destruct Hc1 as [-> Hno|newer a older -> Hmid Hnew Hav Hty Huniq Hk Hval].
  - destruct Hend as [->|[? _]]; [|done]. rewrite app_nil_l. assert (filter lives mid = []) as ->.
    { apply elem_of_nil_inv. intros z [Lz Hz]%list_elem_of_filter. by apply (Hno z Hz). }
    eexists. split; [done|]. split; [by eexists|done..].
  - assert (forall x, x ∈ pre' -> lt_key x a) as Hbef.
    { destruct Hend as [->|(_ & p & y & -> & Hlt)]; [by intros z ?%elem_of_nil|].
      apply (all_before p y (mid ++ suf) a (saved_key_ d1) E1); [|done|done]. rewrite Hmid, !elem_of_app. left. right. by left. }
    destruct (candidate_backward pre' mid suf newer a older d1 E1 Hmid Hnew Hav Hty Hbef Huniq) as (Hfm & Hrest & Hbeh).
    eexists. split; [done|]. rewrite list.filter_app, Hfm, length_app, Nat.add_comm. cbn. right.
    exists pre', (mid ++ suf), a. split; [done|]. by split.
Qed.

Lemma SeekToLast_shows p d :
  at_ p (iter_ d) -> status_ d = true ->
  exists d', DBIter_SeekToLast I user s rounds d = Ret tt d' /\ shows (before (length (db_view s es))) d'.
Proof using All.
  intros Hat Hst. destruct (at_last I (InternalKeyComparator user) idom _ at_ _ _ Hat) as (x & Hx & Hatx).
  unfold DBIter_SeekToLast, set_direction, ClearSavedValue, save_value, bind, modify.
  erewrite on_iter_run by exact Hx. unfold db_view. rewrite length_fmap in *.
  apply (FindPrev_run es []); [by rewrite app_nil_r|done..].
Qed.

Lemma Prev_backward pre suf a d :
  backward pre suf a d ->
  exists d', DBIter_Prev I user s rounds d = Ret tt d' /\ shows (before (length (filter lives pre))) d'.
Proof using All.
  intros [E _ Hat _ _ _ _ Hd Hv Hst]. unfold DBIter_Prev, bind, gets. rewrite Hv. cbn. rewrite Hd. cbn. by apply (FindPrev_run pre suf).
Qed.

(** Back over the entries [group] that are not below the key. *)
Lemma skip_back_run pre : forall h suf fuel d,
  es = pre ++ h :: suf -> at_ (Some (length pre)) (iter_ d) -> (length pre < fuel)%nat -> status_ d = true ->
  exists b d' pre' group, skip_back I user fuel d = Ret b d' /\ pre = pre' ++ group /\
    (forall g, g ∈ group -> 0 <= Compare user (a_key g) (saved_key_ d)) /\
    if (b : bool) then at_ (before (length pre')) (iter_ d') /\ status_ d' = true
    else pre' = [] /\ nowhere d'.
Proof using All.
  induction pre as [|x pre IH] using rev_ind; intros h suf fuel d E Hat Hf Hst; (destruct fuel as [|fuel]; [lia|]);
    destruct (retreat _ d Hat) as (y & Hy & Haty); cbn [skip_back]; unfold bind; rewrite Hy.
  - rewrite (dbiter_valid_run None) by done. eexists false, _, [], []. split; [done|].
    split_and!; [done|by intros g ?%elem_of_nil|done|]. split; [by eexists|done..].
  - rewrite length_app, Nat.add_comm in Haty. cbn in Haty. rewrite (dbiter_valid_run (Some (length pre))) by done.
    change (bool_decide (is_Some (Some (length pre)))) with true. cbv beta iota.
    rewrite <- app_assoc in E. pose proof (middle_lookup _ _ _ E) as Hx.
    rewrite (dbiter_key_run (length pre) x (put_iter y d) Haty Hx). unfold ikey_of, gets. rewrite user_internal. cbn [saved_key_].
    destruct (Z.ltb_spec (Compare user (a_key x) (saved_key_ d)) 0) as [Hlt|Hge].
    + eexists true, _, (pre ++ [x]), []. split; [done|]. rewrite app_nil_r, (length_app pre [x]), Nat.add_comm.
      split_and!; [done|by intros g ?%elem_of_nil|done..].
    + rewrite length_app in Hf. simpl in Hf.
      destruct (IH x (h :: suf) fuel (put_iter y d) E Haty) as (b & d' & pre' & group & Hr & -> & Hg & Hb); [lia|done|].
      exists b, d', pre', (group ++ [x]). split_and!; [done|by rewrite app_assoc| |done].
      intros g [?|[->|[]%elem_of_nil]%elem_of_cons]%elem_of_app; [by apply Hg|done].
Qed.

Lemma Prev_forward n a d :
  filter lives es !! n = Some a -> forward a d ->
  exists d', DBIter_Prev I user s rounds d = Ret tt d' /\ shows (before n) d'.
Proof using All.
  intros Hn [(i & Hi & Hat) Hd Hv Hst]. destruct (lives_split n a Hn) as (pre & suf & E & Hlen & L).
  assert (i = length pre) as Hip by (eapply (NoDup_lookup _ _ _ _ entries_nodup Hi); by eapply middle_lookup).
  rewrite Hip in Hat, Hi. unfold DBIter_Prev, gets. unfold bind at 1. rewrite Hv. unfold bind at 1. cbn [assert_ ret].
  unfold bind at 1. rewrite Hd. cbn [is_forward]. unfold bind. rewrite (dbiter_valid_run _ d Hat). cbn.
  rewrite (dbiter_key_run _ a d Hat Hi). unfold ikey_of. rewrite user_internal.
  assert (length pre < rounds)%nat as Hf by (rewrite E, length_app in Hrounds; lia).
  destruct (skip_back_run pre a suf rounds (mkDBIter (iter_ d) (status_ d) (a_key a) (saved_value_ d) (direction_ d) (valid_ d)) E Hat Hf Hst)
    as (b & d1 & pre' & group & -> & Hpre & Hg & Hb). cbn [saved_key_] in Hg.
  assert (filter lives pre = filter lives pre') as Hl.
  { rewrite Hpre, list.filter_app. assert (filter lives group = []) as ->; [|by rewrite app_nil_r].
    apply elem_of_nil_inv. intros g [Lg Hgin]%list_elem_of_filter. revert L.
    apply (behind_dead user dom s es Hok Hsort pre (a :: suf) g a E); [rewrite Hpre; apply elem_of_app; by right|by left| |apply Lg].
    destruct (split_key user es Hsort pre (a :: suf) g a E) as [H|H]; [rewrite Hpre; apply elem_of_app; by right|by left| |done].
    specialize (Hg g Hgin). lia. }
  rewrite Hlen, Hl. destruct b.
  - destruct Hb as [Hat1 Hst1]. cbn.
    apply (FindPrev_run pre' (group ++ a :: suf) (mkDBIter (iter_ d1) (status_ d1) (saved_key_ d1) (saved_value_ d1) kReverse (valid_ d1)));
      [by rewrite E, Hpre, <- app_assoc|done..].
  - destruct Hb as [-> Hb]. by exists d1.
Qed.

(** ** Every move *)

(** [Next] turns round only when every entry is visible. *)
Definition may_move (op : iter_op) (d : @DBIter S) : Prop :=
  match op with
  | OpNext => (valid_ d = true -> direction_ d = kForward) \/ (forall x, x ∈ es -> a_seq x <= s)
  | _ => True
  end.

Definition goes_forward (op : iter_op) : bool :=
  match op with OpSeekToLast | OpPrev => false | _ => true end.

Lemma shows_at p d : shows p d -> (exists q, at_ q (iter_ d)) /\ status_ d = true.
Proof using Type.
  destruct p as [n|]; simpl; [|by intros []].
  intros [(a & _ & [(i & _ & ?) _ _ ?])|(pre & suf & a & _ & [])]; eauto.
Qed.

Lemma move_shows op p d :
  shows p d -> target_in tdom op -> may_move op d ->
  match spec_op user (db_view s es) op p with
  | Ret _ p' => exists d', move (DBIterator I user s rounds) op d = Ret tt d' /\
      if goes_forward op then settled p' d' else shows p' d'
  | Exit _ _ => False
  | UB w => move (DBIterator I user s rounds) op d = UB w
  end.
Proof using All.
  intros H Ht Hm. destruct (shows_at p d H) as [(q & Hat) Hst]. destruct op as [| |target| |]; cbn.
  - by eapply SeekToFirst_shows.
  - by eapply SeekToLast_shows.
  - by eapply Seek_shows.
  - unfold bind. destruct p as [n|]; cbn; [|unfold DBIter_Next, bind, gets; by rewrite (no_valid _ H)].
    destruct H as [(a & Hn & Hfw)|(pre & suf & a & -> & Hbw)]; [by eapply Next_forward|].
    destruct Hm as [Hd|Hvis]; [|by eapply Next_backward].
    specialize (Hd (bw_valid _ _ _ _ Hbw)). by rewrite (bw_dir _ _ _ _ Hbw) in Hd.
  - unfold bind. destruct p as [n|]; cbn; [|unfold DBIter_Prev, bind, gets; by rewrite (no_valid _ H)].
    destruct H as [(a & Hn & Hfw)|(pre & suf & a & -> & Hbw)]; [by eapply Prev_forward|by eapply Prev_backward].
Qed.

(** ** Histories *)

Lemma observe_shows p d : shows p d -> observe (DBIterator I user s rounds) d = Ret (p ≫= fun i => db_view s es !! i, true) d.
Proof using All.
  intros H. apply (observe_at (DBIterator I user s rounds) (db_view s es) shows); [| | |done]; clear p d H.
  - intros [n|] d; simpl; [|intros []; unfold gets; congruence].
    intros [(a & _ & [])|(pre & suf & a & _ & [])]; unfold gets; congruence.
  - intros n d [(a & Hn & [(i & Hi & Hat) Hd Hv _])|(pre & suf & a & -> & [E (rest & Hl) _ Hk Hval _ _ Hd Hv _])];
      exists (a_key a), (a_value a); cbn; unfold DBIter_key, DBIter_value, bind, gets; rewrite Hv; cbn; rewrite Hd; cbn.
    + rewrite (dbiter_key_run i a d Hat Hi). unfold ikey_of. rewrite user_internal.
      rewrite (on_iter_read (it_value I) d (a_value a)) by (by eapply entry_run).
      split_and!; [unfold db_view; by rewrite list_lookup_fmap, Hn|done..].
    + rewrite Hk, Hval. split_and!; [|done..]. unfold db_view. rewrite list_lookup_fmap, (lives_app _ _ E), Hl.
      by rewrite list_lookup_middle.
  - intros p d H. destruct (shows_at p d H) as [(q & Hat) Hst]. cbn. unfold DBIter_status, bind, gets. rewrite Hst.
    apply on_iter_read. by eapply io_status.
Qed.

(** The history never asks for the next entry after going backwards. *)
Fixpoint never_turns (fwd : bool) (ops : list iter_op) : Prop :=
  match ops with
  | [] => True
  | op :: ops' => (op = OpNext -> fwd = true) /\ never_turns (goes_forward op) ops'
  end.

Lemma dbiter_moves ops : forall (fwd : bool) p d,
  (if fwd then settled p d else shows p d) -> Forall (target_in tdom) ops ->
  never_turns fwd ops \/ (forall x, x ∈ es -> a_seq x <= s) ->
  result (moves (DBIterator I user s rounds) ops d) = result (spec_ops user (db_view s es) ops p).
Proof using All.
  induction ops as [|op ops IH]; intros fwd p d H Ht Hturn; [done|]. apply Forall_cons_1 in Ht as [Hop Ht].
  assert (shows p d) as Hsh by (destruct fwd; [apply H|done]).
  assert (may_move op d) as Hm.
  { destruct op; try done. destruct Hturn as [[Hf _]|]; [left|by right]. rewrite (Hf eq_refl) in H. apply H. }
  cbn [moves spec_ops]. pose proof (move_shows op p d Hsh Hop Hm) as Hmv. unfold bind at 1 4.
  destruct (spec_op user (db_view s es) op p) as [[] p'| |w]; [|done|by rewrite Hmv].
  destruct Hmv as (d' & -> & H'). unfold bind, gets, ret.
  assert (shows p' d') as Hsh' by (destruct (goes_forward op); [apply H'|done]). rewrite (observe_shows p' d' Hsh').
  assert (never_turns (goes_forward op) ops \/ (forall x, x ∈ es -> a_seq x <= s)) as Hturn' by (destruct Hturn as [[_ ?]|]; auto).
  specialize (IH (goes_forward op) p' d' H' Ht Hturn'). destruct (moves _ ops d'), (spec_ops _ _ ops p'); by simplify_eq/=.
Qed.
End walking.
