(* ===== verification/MemTableIter.v ===== *)
(** The iterator over a memtable, [MemTableIterator] of
    [src/lib/leveldb/db/memtable.cc], keeps the promise of iterators: it is a position
    in the entries of the memtable, in the order of their internal keys. *)

From stdpp Require Import sorting.
From S2P Require Import Prelude Coding WriteBatch Comparator DbFormat Iterators SkipList SkipListOk MemTable MemTableOk DbIter DbIterOk.

Set Default Proof Using "Type".

(** The state is the memtable, which the iterator does not change, and the node. *)
Section iterator.
Context (user : Comparator).

Definition with_node (p : option nat -> prog MemTable (option nat)) : prog (MemTable * option nat) unit :=
  fun st => (node <- zoom fst (fun m st => (m, snd st)) (p (snd st)) ;; modify (fun st => (fst st, node))) st.

Definition at_node {A} (p : option nat -> prog MemTable A) : prog (MemTable * option nat) A :=
  fun st => zoom fst (fun m st => (m, snd st)) (p (snd st)) st.

Definition MemTableIterator : IteratorOps (MemTable * option nat) :=
  mkIteratorOps (gets (fun st => iter_Valid (snd st)))
    (with_node (fun _ => mem_SeekToFirst)) (with_node (fun _ => mem_SeekToLast))
    (fun k => with_node (fun _ => mem_Seek user k))
    (with_node mem_Next) (with_node (mem_Prev user))
    (at_node mem_key) (at_node mem_value)
    (ret true).

Definition NewMemTableIterator (m : MemTable) : MemTable * option nat := (m, None).
End iterator.

Section ok.
Context (user : Comparator) (dom : bytes -> Prop) {Hc : ComparatorOk user dom} (m : MemTable) (ids : list nat) (es : list add).
Context (Hskip : skip (KeyComparator user) (mem_key_ok dom) ids (table_ m)) (Hkeys : keys (table_ m) ids = entry_of <$> es).
Context (Hok : Forall (add_ok dom) es).

#[local] Abbreviation cmp := (KeyComparator user).

(** Targets of [Seek]: their length is encoded in 32 bits. *)
Definition mem_target (k : bytes) : Prop := internal_ok dom k /\ bytes_ok k /\ Z.of_nat (length k) < 2 ^ 32.

Definition mem_at (p : option nat) (st : MemTable * option nat) : Prop :=
  fst st = m /\ snd st = p ≫= (fun i => ids !! i) /\ (forall i, p = Some i -> (i < length ids)%nat).

Lemma with_node_run p st node :
  fst st = m -> p (snd st) m = Ret node m -> with_node p st = Ret tt (m, node).
Proof using Type.
  intros Hm H. destruct st as [m' n]. cbn in *. subst m'. unfold with_node, bind, zoom. cbn. by rewrite H.
Qed.

Lemma at_node_run {A} (p : option nat -> prog MemTable A) st a : fst st = m -> p (snd st) m = Ret a m -> at_node p st = Ret a st.
Proof using Type.
  intros Hm H. destruct st as [m' n]. cbn in *. subst m'. unfold at_node, zoom. cbn. by rewrite H.
Qed.

Lemma length_ids : length ids = length es.
Proof using Hskip Hkeys.
  rewrite <- (length_keys cmp (mem_key_ok dom) ids (table_ m) Hskip), Hkeys. apply length_fmap.
Qed.

Lemma head_position lo hi : ids = lo ++ hi -> mem_at (position (internal_entry <$> es) (length lo)) (m, head hi).
Proof using Hskip Hkeys.
  intros E. unfold position. rewrite length_fmap, <- length_ids. split_and!; [done| |].
  - rewrite E, length_app. destruct hi as [|x hi]; simpl.
    + by rewrite Nat.add_0_r, Nat.ltb_irrefl.
    + rewrite (proj2 (Nat.ltb_lt _ _)) by lia. simpl. by rewrite list_lookup_middle.
  - intros i. case_bool; [|done]. intros [= <-]. by apply Nat.ltb_lt.
Qed.

Lemma last_position lo hi : ids = lo ++ hi -> mem_at (before (length lo)) (m, list.last lo).
Proof using Hskip Hkeys.
  intros E. split_and!; [done| |].
  - destruct lo as [|x lo _] using rev_ind; [done|]. rewrite length_app, Nat.add_comm, last_snoc. simpl.
    rewrite E, <- app_assoc. symmetry. by apply list_lookup_middle.
  - intros i Hi. rewrite E, length_app. destruct lo; simpl in *; simplify_eq. lia.
Qed.

(** The entry of a node. *)
Lemma node_entry i x : ids !! i = Some x -> exists a, es !! i = Some a /\ key_at (nodes (table_ m)) x = Some (entry_of a) /\ add_ok dom a.
Proof using Hskip Hkeys Hok.
  intros Hx. assert (keys (table_ m) ids !! i = key_at (nodes (table_ m)) x) as Hk.
  { clear Hkeys. pose proof (s_node _ _ _ _ Hskip) as Hn. clear Hskip. revert i Hx.
    induction ids as [|y l IH]; intros i Hx; [done|]. destruct (Hn y) as (k & Hk & _); [by left|].
    unfold keys. csimpl. rewrite Hk. destruct i as [|i]; simpl in Hx |- *; [by simplify_eq|].
    apply IH; [|done]. intros z Hz. apply Hn. by right. }
  destruct (s_node _ _ _ _ Hskip x (list_elem_of_lookup_2 _ _ _ Hx)) as (k & Hkx & _).
  rewrite Hkeys, list_lookup_fmap, Hkx in Hk. destruct (es !! i) as [a|] eqn:Ha; [|done]. simplify_eq/=.
  exists a. split_and!; [done|congruence|]. rewrite list.Forall_forall in Hok. apply Hok. by eapply list_elem_of_lookup_2.
Qed.

Lemma split_at i x : ids !! i = Some x -> exists lo hi, ids = lo ++ x :: hi /\ i = length lo.
Proof using Hskip Hkeys.
  intros Hx. exists (take i ids), (drop (S i) ids). rewrite take_drop_middle, length_take by done. split; [done|].
  apply lookup_lt_Some in Hx. lia.
Qed.

Lemma mem_Seek_at target :
  mem_target target ->
  exists node, mem_Seek user target m = Ret node m /\
    mem_at (fst <$> list_find (fun kv => 0 <= internal_compare user (fst kv) target) (internal_entry <$> es)) (m, node).
Proof using Hc Hskip Hkeys Hok.
  intros (Hi & Hb & Hl).
  assert (EncodeKey target = prefix_string target []) as Ek.
  { unfold EncodeKey, PutVarint32, prefix_string. rewrite u32_small, app_nil_r by lia. done. }
  assert (mem_key_ok dom (EncodeKey target)) as Hm.
  { rewrite Ek. exists target, []. split_and!; [done..|constructor]. }
  destruct (skip_Seek_run cmp (mem_key_ok dom) ids (table_ m) _ Hskip Hm) as (lo & hi & E & Hs & Hlo & Hhi).
  exists (head hi). split; [by apply on_table_read|].
  assert (forall i x a, ids !! i = Some x -> es !! i = Some a ->
    exists k, key_at (nodes (table_ m)) x = Some k /\ cmp k (EncodeKey target) = internal_compare user (ikey_of a) target) as Hcmp.
  { intros i x a Hx Ha. destruct (node_entry i x Hx) as (a' & Ha' & Hk & Hao). rewrite Ha in Ha'. simplify_eq.
    exists (entry_of a'). split; [done|]. unfold KeyComparator. rewrite (entry_prefixed dom a' Hao), Ek, prefixed_string; [done..|constructor]. }
  pose proof (head_position lo hi E) as Hpos. pose proof length_ids as Hlen. rewrite E, length_app in Hlen.
  rewrite <- (take_drop (length lo) es), fmap_app in Hpos |- *. rewrite find_position.
  - by rewrite length_fmap, length_take, Nat.min_l by lia.
  - intros kv (a & -> & (i & Ha)%list_elem_of_lookup)%list_elem_of_fmap. rewrite lookup_take_Some in Ha. destruct Ha as [Ha Hlt].
    destruct (ids !! i) as [x|] eqn:Hx; [|apply lookup_ge_None in Hx; rewrite E, length_app in Hx; lia].
    destruct (Hcmp i x a Hx Ha) as (k & Hk & Hcm). destruct (Hlo x) as (k' & Hk' & Hneg).
    { rewrite E, lookup_app_l in Hx by done. by eapply list_elem_of_lookup_2. }
    simpl. rewrite Hk in Hk'. simplify_eq. lia.
  - intros kv. rewrite head_lookup, list_lookup_fmap, lookup_drop, Nat.add_0_r.
    destruct (es !! length lo) as [a|] eqn:Ha; simpl; [|done]. intros [= <-].
    destruct hi as [|x hi]; [simpl in Hlen; apply lookup_lt_Some in Ha; lia|].
    assert (ids !! length lo = Some x) as Hx by (rewrite E; by apply list_lookup_middle).
    destruct (Hcmp _ x a Hx Ha) as (k & Hk & Hcm). destruct (Hhi x) as (k' & Hk' & Hneg); [by left|].
    simpl. rewrite Hk in Hk'. simplify_eq. lia.
Qed.

#[global] Instance MemTableIterator_ok :
  IteratorOk (MemTableIterator user) (InternalKeyComparator user) mem_target (internal_entry <$> es) mem_at.
Proof using Hc Hskip Hkeys Hok.
  split.
  - intros op p st (Hm & Hn & Hp) Ht. destruct op as [| |target| |]; cbn.
    + exists (m, head ids). split; [|by apply (head_position [])]. apply with_node_run; [done|].
      by apply on_table_read, (skip_SeekToFirst_run cmp (mem_key_ok dom)).
    + exists (m, list.last ids). split.
      * apply with_node_run; [done|]. by apply on_table_read, (skip_SeekToLast_run cmp (mem_key_ok dom)).
      * rewrite length_fmap, <- length_ids. apply (last_position ids []). by rewrite app_nil_r.
    + destruct (mem_Seek_at target Ht) as (node & Hs & Hat). exists (m, node). split; [by apply with_node_run|done].
    + unfold bind. destruct p as [i|]; cbn.
      * destruct (ids !! i) as [x|] eqn:Hx; [|apply lookup_ge_None in Hx; specialize (Hp i eq_refl); lia].
        destruct (split_at i x Hx) as (lo & hi & E & ->). cbn in Hn. rewrite Hx in Hn.
        exists (m, head hi). split.
        -- apply with_node_run; [done|]. rewrite Hn. apply on_table_read. by eapply (iter_Next_run cmp (mem_key_ok dom)).
        -- rewrite (cons_middle x), app_assoc in E. pose proof (head_position (lo ++ [x]) hi E) as Hat.
           by rewrite length_app, Nat.add_comm in Hat.
      * destruct st as [m' n']. cbn in *. by subst.
    + unfold bind. destruct p as [i|]; cbn.
      * destruct (ids !! i) as [x|] eqn:Hx; [|apply lookup_ge_None in Hx; specialize (Hp i eq_refl); lia].
        destruct (split_at i x Hx) as (lo & hi & E & ->). cbn in Hn. rewrite Hx in Hn.
        exists (m, list.last lo). split; [|by eapply last_position].
        apply with_node_run; [done|]. rewrite Hn. apply on_table_read. by eapply (iter_Prev_run cmp (mem_key_ok dom)).
      * destruct st as [m' n']. cbn in *. by subst.
  - intros p st (Hm & Hn & Hp). cbn. unfold gets. rewrite Hn. destruct p as [i|]; [|done]. cbn.
    destruct (lookup_lt_is_Some_2 ids i (Hp i eq_refl)) as [x Hx]. by rewrite Hx.
  - intros i st (Hm & Hn & Hp). destruct (lookup_lt_is_Some_2 ids i (Hp i eq_refl)) as [x Hx]. cbn in Hn. rewrite Hx in Hn.
    destruct (node_entry i x Hx) as (a & Ha & Hk & Hao). exists (ikey_of a), (a_value a).
    assert (iter_key (Some x) (table_ m) = Ret (entry_of a) (table_ m)) as Hik
      by (unfold iter_key, bind; simpl; by rewrite (node_key_run _ x _ Hk)).
    split_and!; [by rewrite list_lookup_fmap, Ha|..]; apply at_node_run; try done; rewrite Hn;
      unfold mem_key, mem_value, bind; rewrite (on_table_read _ _ _ Hik), (entry_prefixed dom a Hao); [done|].
    unfold ret. simpl. rewrite prefixed_string by first [apply Hao|constructor]. done.
  - done.
Qed.
End ok.
