(* ===== verification/DbScan.v ===== *)
(** Scans of the database: [DBIter] over the iterator of the memtable that
    [DBImpl::Write] filled shows the map of the snapshot; and a scan on which it turns
    round shows a key twice. *)

From stdpp Require Import sorting.
From S2P Require Import Prelude Coding WriteBatch Comparator DbFormat Iterators SkipList SkipListOk MemTable MemTableOk Log Durability DurabilityOk Merger MergerOk DbIter DbIterOk MemTableIter.

Set Default Proof Using "Type".

Lemma sorted_filter {A} (R : A -> A -> Prop) (P : A -> Prop) `{!forall x, Decision (P x)} l :
  StronglySorted R l -> StronglySorted R (filter P l).
Proof.
  induction 1 as [|a l Hl IH Ha]; [constructor|]. rewrite filter_cons. case_decide; [|done].
  apply StronglySorted_cons. split; [|done]. rewrite list.Forall_forall in Ha |- *.
  intros b [_ Hb]%list_elem_of_filter. by apply Ha.
Qed.

Section scan.
Context (user : Comparator) (dom : bytes -> Prop) {Hc : ComparatorOk user dom}.

(** The entries of a memtable in the order of the iterator. *)
Lemma holds_entries adds m :
  holds user dom adds m -> Forall (add_ok dom) adds ->
  (forall a b, a ∈ adds -> b ∈ adds -> a_key a = a_key b -> a_seq a = a_seq b -> a = b) -> NoDup adds ->
  exists ids es, skip (KeyComparator user) (mem_key_ok dom) ids (table_ m) /\ keys (table_ m) ids = entry_of <$> es /\
    es ≡ₚ adds /\ StronglySorted (add_lt user) es.
Proof using Hc.
  intros (ids & Hs & Hk) Hok Hinj Hnd. apply Permutation_map_inv in Hk as (es & Hk & Hp).
  exists ids, es. split_and!; [done|done|by symmetry|].
  pose proof (keys_sorted (KeyComparator user) (mem_key_ok dom) ids (table_ m) Hs) as Hsort. rewrite Hk in Hsort.
  assert (Forall (add_ok dom) es) as Hoe by (by rewrite <- Hp).
  assert (forall a b, a ∈ es -> b ∈ es -> a_key a = a_key b -> a_seq a = a_seq b -> a = b) as Hie
    by (intros a b Ha Hb; apply Hinj; by rewrite Hp).
  assert (NoDup es) as Hne by (by rewrite <- Hp). clear Hk Hp Hs Hok Hinj Hnd.
  induction es as [|a es IH]; [constructor|]. rewrite fmap_cons, StronglySorted_cons, Forall_fmap in Hsort. destruct Hsort as [Ha Hsort].
  apply Forall_cons_1 in Hoe as [Hoa Hoe]. apply list.NoDup_cons in Hne as [Hni Hne].
  apply StronglySorted_cons. split; [|apply IH; try done; intros x y Hx Hy; apply Hie; by right].
  rewrite list.Forall_forall in Ha, Hoe |- *. intros b Hb. specialize (Ha b Hb). simpl in Ha.
  apply (entry_lt user dom a (entry_of b) Hoa (entry_mem_ok dom b (Hoe b Hb))) in Ha.
  rewrite (entry_user dom b (Hoe b Hb)), (entry_tag dom b (Hoe b Hb)) in Ha. destruct Ha as [Ha|[Hkey Ht]]; [by left|right].
  split; [done|]. pose proof (ao_type _ _ Hoa). pose proof (ao_type _ _ (Hoe b Hb)). unfold tag_of, type_ok in *.
  destruct (Z.eq_dec (a_seq a) (a_seq b)) as [E|]; [|lia]. destruct Hni. by rewrite (Hie a b ltac:(by left) ltac:(by right) Hkey E).
Qed.

(** The view is in the order of the keys. *)
Lemma view_sorted s es :
  Forall (add_ok dom) es -> StronglySorted (add_lt user) es ->
  StronglySorted (fun x y => Compare user (fst x) (fst y) < 0) (db_view s es).
Proof using Hc.
  intros Hok Hs. unfold db_view.
  assert (forall l, StronglySorted (add_lt user) l -> (forall a, a ∈ l -> live s es a /\ a ∈ es) ->
    StronglySorted (fun x y => Compare user (fst x) (fst y) < 0) (user_entry <$> l)) as H.
  { induction 1 as [|a l Hl IH Ha]; intros Hin; [constructor|]. rewrite fmap_cons. apply StronglySorted_cons.
    split; [|apply IH; intros x Hx; apply Hin; by right]. rewrite Forall_fmap. rewrite list.Forall_forall in Ha |- *.
    intros b Hb. simpl. destruct (Ha b Hb) as [|[Hk Hq]]; [done|].
    destruct (Hin a) as [La Hae]; [by left|]. destruct (Hin b) as [Lb Hbe]; [by right|].
    assert (a = b) as ->; [by apply (live_unique user dom s es Hok Hs)|lia]. }
  apply H; [by apply sorted_filter|]. by intros a ?%list_elem_of_filter.
Qed.

Lemma view_lookup s es k v :
  (k, v) ∈ db_view s es <-> exists a, is_latest k s es a /\ visible a = Some v.
Proof using Type.
  unfold db_view. rewrite list_elem_of_fmap. split.
  - intros (a & E & [(Hs & Ht & Hf) Ha]%list_elem_of_filter). injection E as -> ->. rewrite list.Forall_forall in Hf.
    exists a. split; [|unfold visible; by rewrite Ht]. split_and!; [done..|]. intros b Hb Hk Hbs. by apply Hf.
  - intros (a & (Ha & Hk & Hs & Hmax) & Hv). exists a. unfold visible in Hv. destruct (Z.eqb_spec (a_type a) kTypeValue) as [Ht|]; [|done].
    split; [unfold user_entry; congruence|]. apply list_elem_of_filter. split; [|done]. split_and!; [done..|].
    apply list.Forall_forall. intros b Hb Hbk. apply Hmax; [done|congruence].
Qed.
End scan.

Lemma numbered_nodup seq ops : NoDup (numbered seq ops).
Proof.
  revert seq. induction ops as [|op ops IH]; intros seq; [constructor|]. simpl. apply list.NoDup_cons. split; [|done].
  intros H%numbered_seq. destruct op; simpl in H; lia.
Qed.

(** What [snapshot_lookup] says of the entries in any order. *)
Lemma latest_state ops n k v (es : list add) :
  (n <= length ops)%nat -> es ≡ₚ numbered 1 ops ->
  (exists a, is_latest k (Z.of_nat n) es a /\ visible a = Some v) <-> state_after (take n ops) !! k = Some (Some v).
Proof.
  intros Hn Hp. assert (forall a, is_latest k (Z.of_nat n) es a <-> is_latest k (Z.of_nat n) (numbered 1 ops) a) as Hiff.
  { intros a. unfold is_latest. rewrite Hp. by setoid_rewrite Hp. }
  setoid_rewrite Hiff. split.
  - intros (a & Ha & Hv). symmetry. apply snapshot_lookup; [done|]. left. exists a. by rewrite Hv.
  - intros Hst. destruct (state_lookup (take n ops) k) as [(a & (Ha & Hk & Hs & Hmax) & E)|[_ E]]; rewrite E in Hst; [|done].
    injection Hst as Hst. rewrite length_take_le in * by done. exists a. split; [|done].
    split_and!; [by eapply take_numbered|done..|]. intros b Hb Hbk Hbs. apply Hmax; [by apply numbered_take|done..].
Qed.

Lemma mem_target_seek dom s t : key_ok dom t -> dom t /\ mem_target dom (internal t (tag_of s kValueTypeForSeek)).
Proof.
  intros (Hd & Hb & Hl). split; [done|]. split_and!; [|by apply ikey_bytes_ok|by rewrite length_internal].
  split; [rewrite length_internal; lia|by rewrite user_internal|].
  unfold tag_bytes. rewrite length_internal, Nat.add_sub. unfold internal. rewrite drop_app_length. apply le_bytes_ok.
Qed.

Definition scan_from (user : Comparator) (n rounds : nat) (m : MemTable) (ops : list iter_op) :
    outcome unit (list (option (bytes * bytes) * bool)) :=
  result (moves (DBIterator (MemTableIterator user) user (Z.of_nat n) rounds) ops (NewDBIterator (NewMemTableIterator m))).

(** C26: Every history of moves of the database's iterator at the snapshot of any
    sequence number shows, after the batches were written, what a position in the
    sorted list of the keys and values of that snapshot would: deleted and overwritten
    entries and those of later writes do not show, forwards and backwards, and nothing
    but a move from nowhere fails. The history may turn from going backwards to going
    forwards only at the newest snapshot. *)
Theorem db_iterator_shows_snapshot (user : Comparator) (dom : bytes -> Prop) {Hc : ComparatorOk user dom}
    (o : WriteOptions) (batches : list (list batch_op)) (n rounds : nat) (ops : list iter_op) :
  Forall (batch_ok dom) batches -> total batches < 2 ^ 56 -> (n <= length (mjoin batches) < rounds)%nat ->
  Forall (target_in (key_ok dom)) ops -> never_turns true ops \/ n = length (mjoin batches) ->
  exists db view,
    write_all user o batches DB_new = Ret Status_OK db /\
    StronglySorted (fun x y => Compare user (fst x) (fst y) < 0) view /\
    (forall k v, (k, v) ∈ view <-> state_after (take n (mjoin batches)) !! k = Some (Some v)) /\
    scan_from user n rounds (mem_ db) ops = result (spec_ops user view ops None).
Proof.
  intros Hb Ht Hn Hops Hturn.
  destruct (write_all_run user dom o batches DB_new [] (db_new_holds user dom) Hb) as (db & Hw & _ & Hd & _); [done|].
  cbn [app last_sequence_ DB_new] in Hd. change (0 + 1) with 1 in Hd.
  destruct (holds_entries user dom _ _ (dh_mem _ _ _ _ Hd) (dh_ok _ _ _ _ Hd)) as (ids & es & Hs & Hk & Hp & Hsort).
  { intros a b Ha Hb' _. by apply (numbered_inj 1 (mjoin batches)). }
  { apply numbered_nodup. }
  assert (Forall (add_ok dom) es) as Hok by (rewrite Hp; apply Hd).
  exists db, (db_view (Z.of_nat n) es). split_and!; [done|by apply (view_sorted user dom)| |].
  { intros k v. rewrite view_lookup. apply latest_state; [lia|done]. }
  pose proof (MemTableIterator_ok user dom (mem_ db) ids es Hs Hk Hok) as HI.
  apply (dbiter_moves (MemTableIterator user) user dom (Z.of_nat n) es (mem_target dom) (key_ok dom) (mem_at (mem_ db) ids) Hok Hsort)
    with (fwd := true).
  - rewrite Hp, length_numbered. lia.
  - unfold seq_ok, total in *. lia.
  - intros t. apply mem_target_seek.
  - split; [|done]. split; [|done|done]. exists None. done.
  - done.
  - destruct Hturn as [|Hall]; [by left|right]. intros x Hx. rewrite Hall. rewrite Hp in Hx. apply numbered_seq in Hx. lia.
Qed.

Lemma db_iterator_shows_snapshot_witness :
  exists db view, write_all BytewiseComparator (mkWriteOptions true true) batches0 DB_new = Ret Status_OK db /\
    (forall k v, (k, v) ∈ view <-> state_after (take 2 (mjoin batches0)) !! k = Some (Some v)) /\
    scan_from BytewiseComparator 2 5 (mem_ db) [OpSeekToFirst; OpNext; OpSeek (str "k"); OpSeekToLast; OpPrev; OpPrev] =
    result (spec_ops BytewiseComparator view [OpSeekToFirst; OpNext; OpSeek (str "k"); OpSeekToLast; OpPrev; OpPrev] None).
Proof.
  destruct (db_iterator_shows_snapshot BytewiseComparator bytes_ok (mkWriteOptions true true) batches0 2 5
    [OpSeekToFirst; OpNext; OpSeek (str "k"); OpSeekToLast; OpPrev; OpPrev]) as (db & view & H1 & _ & H2 & H3).
  - exact batches0_ok.
  - done.
  - cbn. lia.
  - repeat constructor; cbn; unfold byte_ok; lia.
  - left. repeat split; discriminate.
  - exists db, view. exact (conj H1 (conj H2 H3)).
Defined.

(** ** Several memtables

    The internal iterator of the database merges the iterators of the memtables. *)

Section merged.
Context (user : Comparator) (dom : bytes -> Prop) {Hc : ComparatorOk user dom}.

(** No two entries of a key have the same sequence number. *)
Definition distinct_adds (adds : list add) : Prop :=
  NoDup adds /\ forall a b, a ∈ adds -> b ∈ adds -> a_key a = a_key b -> a_seq a = a_seq b -> a = b.

(** Entries can be put in order: a memtable does it. *)
Lemma sorted_adds adds :
  Forall (add_ok dom) adds -> distinct_adds adds -> exists es, es ≡ₚ adds /\ StronglySorted (add_lt user) es.
Proof using Hc.
  intros Hok [Hnd Hinj]. assert (exists m, holds user dom adds m) as [m Hm].
  { induction adds as [|a adds IH] using rev_ind; [by exists MemTable_new; apply holds_new|].
    apply list.Forall_app in Hok as [Hok Ha]. apply Forall_cons_1 in Ha as [Ha _]. apply list.NoDup_app in Hnd as (Hnd & Hni & _).
    destruct IH as [m Hm]; [done|done|intros x y Hx Hy; apply Hinj; apply elem_of_app; by left|].
    destruct (mem_Add_run user dom adds a m Hm Hok Ha) as (m' & _ & Hm' & _); [|by exists m'].
    intros b Hb Hk Hq. apply (Hni b Hb). rewrite (Hinj b a); [by left|apply elem_of_app; by left|apply elem_of_app; right; by left|done|done]. }
  destruct (holds_entries user dom adds m Hm Hok Hinj Hnd) as (ids & es & _ & _ & Hp & Hs). eauto.
Qed.

(** The nodes of a memtable and its entries, in order. *)
Record laid_out (m : MemTable) (x : list nat * list add) (part : list add) : Prop := {
  lo_skip : skip (KeyComparator user) (mem_key_ok dom) (fst x) (table_ m);
  lo_keys : keys (table_ m) (fst x) = entry_of <$> snd x;
  lo_ok : Forall (add_ok dom) (snd x);
  lo_perm : snd x ≡ₚ part;
  lo_sorted : StronglySorted (add_lt user) (snd x) }.

Lemma lay_out parts tables :
  Forall2 (holds user dom) parts tables -> Forall (add_ok dom) (mjoin parts) -> distinct_adds (mjoin parts) ->
  exists xs, Forall3 laid_out tables xs parts.
Proof using Hc.
  induction 1 as [|p m parts tables Hm _ IH]; [intros; exists []; constructor|].
  change (mjoin (p :: parts)) with (p ++ mjoin parts). intros [Hp Hok]%list.Forall_app [Hnd Hinj].
  apply list.NoDup_app in Hnd as (Hndp & _ & Hnd).
  destruct (holds_entries user dom p m Hm Hp) as (ids & es & Hs & Hk & Hpm & Hsort); [intros a b Ha Hb; apply Hinj; apply elem_of_app; by left|done|].
  destruct IH as [xs Hxs]; [done|split; [done|intros a b Ha Hb; apply Hinj; apply elem_of_app; by right]|].
  exists ((ids, es) :: xs). constructor; [|done]. split; try done. simpl. by rewrite Hpm.
Qed.

Lemma add_lt_klt a b : add_ok dom a -> add_ok dom b -> add_lt user a b -> klt (InternalKeyComparator user) (internal_entry a) (internal_entry b).
Proof using Hc.
  intros Ha Hb H. unfold klt. cbn [fst internal_entry Compare InternalKeyComparator].
  apply (internal_lt user dom); [by apply ik_user, ikey_internal_ok..|]. unfold ikey_of. rewrite !user_internal.
  rewrite !tag_internal by (apply tag_range; first [apply Ha|apply Hb]). destruct H as [H|[Hk H]]; [by left|right]. split; [done|].
  pose proof (ao_type _ _ Ha). pose proof (ao_type _ _ Hb). unfold tag_of, type_ok in *. lia.
Qed.

Lemma sorted_klt es :
  Forall (add_ok dom) es -> StronglySorted (add_lt user) es -> StronglySorted (klt (InternalKeyComparator user)) (internal_entry <$> es).
Proof using Hc.
  intros Hok Hs. induction Hs as [|a es Hs IH Ha]; [constructor|]. apply Forall_cons_1 in Hok as [Hoa Hok].
  rewrite fmap_cons. apply StronglySorted_cons. split; [|by apply IH]. rewrite Forall_fmap. rewrite list.Forall_forall in *.
  intros b Hb. apply add_lt_klt; auto.
Qed.

Lemma mem_target_key a : add_ok dom a -> mem_target dom (ikey_of a).
Proof using Type.
  intros Ha. split_and!; [by apply ikey_internal_ok|apply ikey_bytes_ok, Ha|]. unfold ikey_of. rewrite length_internal. apply Ha.
Qed.

(** The position of the iterator over one of the memtables. *)
Definition table_at (tables : list MemTable) (xs : list (list nat * list add)) (i : nat) (p : option nat) (st : MemTable * option nat) : Prop :=
  exists m x, tables !! i = Some m /\ xs !! i = Some x /\ mem_at m (fst x) p st.

Definition table_entries (x : list nat * list add) : list (bytes * bytes) := internal_entry <$> snd x.

Lemma table_at_ok tables xs parts i L :
  Forall3 laid_out tables xs parts -> (table_entries <$> xs) !! i = Some L ->
  IteratorOk (MemTableIterator user) (InternalKeyComparator user) (mem_target dom) L (table_at tables xs i).
Proof using Hc.
  intros Hx HL. rewrite list_lookup_fmap in HL. destruct (xs !! i) as [x|] eqn:Ex; [|done]. injection HL as <-.
  destruct (Forall3_lookup_m _ _ _ _ _ _ Hx Ex) as (m & p & Hm & Hp & [Hs Hk Ho _ _]).
  pose proof (MemTableIterator_ok user dom m (fst x) (snd x) Hs Hk Ho) as HI.
  assert (forall q st, table_at tables xs i q st <-> mem_at m (fst x) q st) as Hiff.
  { intros q st. split; [|by exists m, x]. intros (m' & x' & Hm' & Hx' & H). rewrite Hm in Hm'. rewrite Ex in Hx'. by simplify_eq. }
  split.
  - intros op q st H Ht. apply Hiff in H. pose proof (io_move op q st H Ht) as Hmv.
    destruct (spec_op _ _ op q) as [[] q'| |w]; [|done..]. destruct Hmv as (st' & ? & ?). exists st'. by rewrite Hiff.
  - intros q st H%Hiff. by apply io_valid.
  - intros j st H%Hiff. by apply io_entry.
  - intros q st H%Hiff. by eapply io_status.
Qed.

Lemma all_perm tables xs parts : Forall3 laid_out tables xs parts -> mjoin (snd <$> xs) ≡ₚ mjoin parts.
Proof using Type.
  induction 1 as [|m x p tables xs parts [_ _ _ Hp _] _ IH]; [done|]. cbn. change (mjoin (p :: parts)) with (p ++ mjoin parts). by rewrite Hp, IH.
Qed.

Lemma join_entries xs : mjoin (table_entries <$> xs) = internal_entry <$> mjoin (snd <$> xs).
Proof using Type. induction xs as [|x xs IH]; [done|]. cbn. rewrite fmap_app. f_equal. exact IH. Qed.
End merged.

Definition merged_scan (user : Comparator) (s : Z) (rounds : nat) (tables : list MemTable) (ops : list iter_op) :
    prog unit (list (option (bytes * bytes) * bool)) :=
  m <- MergingIterator_new (MemTableIterator user) (NewMemTableIterator <$> tables) ;;
  fun u => result (moves (DBIterator (Merging (MemTableIterator user) (InternalKeyComparator user)) user s rounds) ops (NewDBIterator m)).

(** C27: A scan of a database whose entries are spread over several memtables, merged by
    the merging iterator, shows what a position in the sorted list of the visible
    values would, whatever moves are made and in whatever memtable an entry, its
    overwriting and its deletion are; the history may turn from going backwards to
    going forwards only where every entry is visible. *)
Theorem merged_scan_shows_snapshot (user : Comparator) (dom : bytes -> Prop) {Hc : ComparatorOk user dom}
    (parts : list (list add)) (tables : list MemTable) (s : Z) (rounds : nat) (ops : list iter_op) :
  Forall2 (holds user dom) parts tables -> Forall (add_ok dom) (mjoin parts) -> distinct_adds (mjoin parts) ->
  seq_ok s -> (length (mjoin parts) < rounds)%nat -> Forall (target_in (key_ok dom)) ops ->
  never_turns true ops \/ (forall a, a ∈ mjoin parts -> a_seq a <= s) ->
  exists view,
    StronglySorted (fun x y => Compare user (fst x) (fst y) < 0) view /\
    (forall k v, (k, v) ∈ view <-> exists a, is_latest k s (mjoin parts) a /\ visible a = Some v) /\
    merged_scan user s rounds tables ops tt = result (spec_ops user view ops None).
Proof.
  intros Hh Hok Hdis Hs Hr Hops Hturn.
  destruct (sorted_adds user dom _ Hok Hdis) as (es & Hp & Hsort). destruct (lay_out user dom parts tables Hh Hok Hdis) as [xs Hxs].
  assert (Forall (add_ok dom) es) as Hoe by (by rewrite Hp).
  exists (db_view s es). split_and!; [by apply (view_sorted user dom)| |].
  { intros k v. rewrite view_lookup. unfold is_latest. setoid_rewrite Hp. done. }
  set (Ls := table_entries <$> xs).
  assert (forall x, x ∈ internal_entry <$> es -> mem_target dom (fst x)) as Hkeys.
  { intros kv (a & -> & Ha)%list_elem_of_fmap. rewrite list.Forall_forall in Hoe. by apply mem_target_key, Hoe. }
  assert (internal_entry <$> es ≡ₚ mjoin Ls) as Hperm.
  { unfold Ls. rewrite join_entries. f_equiv. by rewrite (all_perm user dom _ _ _ Hxs), Hp. }
  pose proof (fun i L => table_at_ok user dom tables xs parts i L Hxs) as HI.
  assert (Forall (fun kv => internal_ok dom (fst kv)) (internal_entry <$> es)) as Hdom.
  { apply list.Forall_forall. intros kv Hkv. by apply Hkeys. }
  assert (forall i L, Ls !! i = Some L -> StronglySorted (klt (InternalKeyComparator user)) L) as Hsorts.
  { intros i L HL. unfold Ls in HL. rewrite list_lookup_fmap in HL. destruct (xs !! i) as [x|] eqn:Ex; [|done]. injection HL as <-.
    destruct (Forall3_lookup_m _ _ _ _ _ _ Hxs Ex) as (m & p & _ & _ & [_ _ Ho _ Hso]). by apply (sorted_klt user dom). }
  pose proof (Merging_ok (MemTableIterator user) (InternalKeyComparator user) (internal_ok dom) (mem_target dom) Ls (table_at tables xs) HI
    (fun k H => proj1 H) (internal_entry <$> es) (sorted_klt user dom es Hoe Hsort) Hdom Hkeys Hperm Hsorts) as HM.
  destruct (Merging_new_run (MemTableIterator user) (InternalKeyComparator user) (mem_target dom) Ls (table_at tables xs) HI
    (internal_entry <$> es) (NewMemTableIterator <$> tables)) as (m & Hm & Hat).
  { unfold Ls. rewrite !length_fmap. by eapply Forall3_length_lm. }
  { intros i st. rewrite list_lookup_fmap. destruct (tables !! i) as [t|] eqn:Et; [|done]. intros [= <-].
    destruct (Forall3_lookup_l _ _ _ _ _ _ Hxs Et) as (x & p & Hx & _ & _). exists t, x. split_and!; [done|done|]. done. }
  unfold merged_scan, bind. rewrite Hm.
  apply (dbiter_moves _ user dom s es (mem_target dom) (key_ok dom) _ Hoe Hsort) with (fwd := true); [by rewrite Hp|done|..].
  - intros t. apply mem_target_seek.
  - split; [|done]. split; [by exists None|done..].
  - done.
  - destruct Hturn as [|Hall]; [by left|right]. intros x Hx. apply Hall. by rewrite <- Hp.
Qed.

Lemma distinct_numbered seq ops : distinct_adds (numbered seq ops).
Proof. split; [apply numbered_nodup|]. intros a b Ha Hb _. by apply (numbered_inj seq ops). Qed.

(** The operations of a batch in a memtable of their own. *)
Lemma batch_table user dom {Hc : ComparatorOk user dom} seq ops :
  0 <= seq -> seq + Z.of_nat (length ops) <= 2 ^ 56 -> Forall (mem_op_ok dom) ops -> Z.of_nat (length ops) < 2 ^ 31 ->
  exists m, InsertInto user (SetSequence (WriteBatch.build ops) seq) MemTable_new = Ret Status_OK m /\ holds user dom (numbered seq ops) m.
Proof.
  intros Hs Hl Hops Hn. destruct (InsertInto_run user dom ops [] seq MemTable_new) as (m & Hr & Hm & _); try done; [apply holds_new|by intros a ?%elem_of_nil|].
  by exists m.
Qed.

Definition ops0 : list batch_op := [BPut (str "k") (str "1"); BPut (str "l") (str "2")].
Definition ops1 : list batch_op := [BDelete (str "k"); BPut (str "m") (str "3")].

Lemma merged_scan_shows_snapshot_witness :
  exists m0 m1 view,
    InsertInto BytewiseComparator (SetSequence (WriteBatch.build ops0) 1) MemTable_new = Ret Status_OK m0 /\
    InsertInto BytewiseComparator (SetSequence (WriteBatch.build ops1) 3) MemTable_new = Ret Status_OK m1 /\
    (forall k v, (k, v) ∈ view <-> exists a, is_latest k 4 (numbered 1 (ops0 ++ ops1)) a /\ visible a = Some v) /\
    merged_scan BytewiseComparator 4 5 [m0; m1] [OpSeekToLast; OpPrev; OpNext; OpSeek (str "k"); OpNext] tt =
      result (spec_ops BytewiseComparator view [OpSeekToLast; OpPrev; OpNext; OpSeek (str "k"); OpNext] None).
Proof.
  destruct (batch_table BytewiseComparator bytes_ok 1 ops0) as (m0 & H0 & Hm0);
    [done|done|repeat constructor; cbn; unfold byte_ok; lia|done|].
  destruct (batch_table BytewiseComparator bytes_ok 3 ops1) as (m1 & H1 & Hm1);
    [done|done|repeat constructor; cbn; unfold byte_ok; lia|done|].
  destruct (merged_scan_shows_snapshot BytewiseComparator bytes_ok [numbered 1 ops0; numbered 3 ops1] [m0; m1] 4 5
    [OpSeekToLast; OpPrev; OpNext; OpSeek (str "k"); OpNext]) as (view & _ & Hv & Hr).
  - repeat constructor; done.
  - apply (numbered_ok bytes_ok 1 (ops0 ++ ops1)); [done|done|repeat constructor; cbn; unfold byte_ok; lia].
  - apply (distinct_numbered 1 (ops0 ++ ops1)).
  - split; done.
  - cbn. lia.
  - repeat constructor; cbn; unfold byte_ok; lia.
  - right. intros a Ha. apply (numbered_seq 1 (ops0 ++ ops1)) in Ha. cbn in Ha. lia.
  - exists m0, m1, view. exact (conj H0 (conj H1 (conj Hv Hr))).
Defined.

(** ** Turning round

    The first write puts "b", the second puts "a". At the snapshot between them the last
    key is "b" and there is no next one; but [Prev] goes back over the entry of "a",
    which is newer than the snapshot, and [Next] then skips the entries of "a" instead of
    those of "b": it shows "b" again. *)
Lemma dbiter_next_repeats :
  match write_all BytewiseComparator (mkWriteOptions true true)
      [[BPut (str "b") (str "1")]; [BPut (str "a") (str "2")]] DB_new with
  | Ret s db =>
      s = Status_OK /\
      scan_from BytewiseComparator 1 3 (mem_ db) [OpSeekToLast; OpNext] =
        Ret [(Some (str "b", str "1"), true); (Some (str "b", str "1"), true)] tt /\
      result (spec_ops BytewiseComparator [(str "b", str "1")] [OpSeekToLast; OpNext] None) =
        Ret [(Some (str "b", str "1"), true); (None, true)] tt
  | _ => False
  end.
Proof. vm_compute. by split_and!. Qed.
