(* ===== verification/Adaptor.v ===== *)
(** The members the configurable adaptors share ([LeveldbWrapper],
    [RocksdbWrapper], [MetaKVWrapper], [HikvWrapper]) and the code they repeat:
    the counters, the log and the decision when to sync a write.

    [KvWrapper] has private members [p_] and [logs_] that [SetProperties] and
    [SetLogging] fill; each adaptor declares members of the same names, which are
    the ones its methods read. The objects are made with [new Adaptor ()], which
    clears every member first. *)

From S2P Require Import Prelude Coding WriteBatch Kv Engines Posix Properties.

Set Default Proof Using "Type".

Record members : Type := mkMembers {
  base_p : Properties;        (* KvWrapper::p_ *)
  base_logs : bool;           (* KvWrapper::logs_ is set *)
  p_ : Properties;
  logs_ : bool;
  statistics : Statistics;
  db_name : bytes;
  logon : bool;
  writeahead : bool;
  last_sync_time : Z;
  sync_time_limit : Z;
  async_data_size : Z;
  sync_size_limit : Z;
  clock : list Z              (* the readings [time (nullptr)] returns *)
}.

Definition members_new (clock : list Z) : members :=
  mkMembers ∅ false ∅ false Statistics_new [] false false 0 0 0 0 clock.

Definition SetProperties (p : Properties) (x : members) : members :=
  mkMembers p (base_logs x) (p_ x) (logs_ x) (statistics x) (db_name x) (logon x) (writeahead x)
    (last_sync_time x) (sync_time_limit x) (async_data_size x) (sync_size_limit x) (clock x).

Definition SetLogging (x : members) : members :=
  mkMembers (base_p x) true (p_ x) (logs_ x) (statistics x) (db_name x) (logon x) (writeahead x)
    (last_sync_time x) (sync_time_limit x) (async_data_size x) (sync_size_limit x) (clock x).

Definition set_statistics (s : Statistics) (x : members) : members :=
  mkMembers (base_p x) (base_logs x) (p_ x) (logs_ x) s (db_name x) (logon x) (writeahead x)
    (last_sync_time x) (sync_time_limit x) (async_data_size x) (sync_size_limit x) (clock x).

Definition set_last_sync_time (t : Z) (x : members) : members :=
  mkMembers (base_p x) (base_logs x) (p_ x) (logs_ x) (statistics x) (db_name x) (logon x) (writeahead x)
    t (sync_time_limit x) (async_data_size x) (sync_size_limit x) (clock x).

Definition set_async_data_size (n : Z) (x : members) : members :=
  mkMembers (base_p x) (base_logs x) (p_ x) (logs_ x) (statistics x) (db_name x) (logon x) (writeahead x)
    (last_sync_time x) (sync_time_limit x) n (sync_size_limit x) (clock x).

Definition set_clock (c : list Z) (x : members) : members :=
  mkMembers (base_p x) (base_logs x) (p_ x) (logs_ x) (statistics x) (db_name x) (logon x) (writeahead x)
    (last_sync_time x) (sync_time_limit x) (async_data_size x) (sync_size_limit x) c.

(** The members [Init] reads from the properties. *)
Definition set_config (name : bytes) (wa lg : bool) (tl sl : Z) (x : members) : members :=
  mkMembers (base_p x) (base_logs x) (p_ x) (logs_ x) (statistics x) name lg wa
    (last_sync_time x) tl (async_data_size x) sl (clock x).

(** An adaptor: its members and its engine. *)
Record adaptor (D : Type) : Type := mkAdaptor { own : members; engine : D }.
Arguments mkAdaptor {D} own engine.
Arguments own {D} a.
Arguments engine {D} a.

Section adaptor.
Context {D : Type}.

Definition on_engine {A} (p : prog D A) : prog (adaptor D) A :=
  zoom engine (fun d a => mkAdaptor (own a) d) p.

Definition on_own (f : members -> members) : prog (adaptor D) unit :=
  modify (fun a => mkAdaptor (f (own a)) (engine a)).

(** [statistics.RecordKVOperations (op)] *)
Definition count (op : OperationType) : prog (adaptor D) unit :=
  on_own (fun x => set_statistics (RecordKVOperations op (statistics x)) x).

(** [time (nullptr)] *)
Definition now : prog (adaptor D) Z :=
  c <- gets (fun a => clock (own a)) ;;
  on_own (set_clock (tail c)) ;;;
  ret (default 0 (head c)).

(** The log line prints the first two words of [key.ToString ().data ()], through
    a pointer kept after the temporary string is gone. *)
Definition log_key : prog (adaptor D) unit :=
  x <- gets own ;;
  if logon x && logs_ x then undefined UseAfterFree else ret tt.

(** The write option [sync] that [Put] works out for a key and a value. *)
Definition plan_sync (key value : bytes) : prog (adaptor D) bool :=
  x <- gets own ;;
  if sync_size_limit x >? 0 then
    let n := i32 (u64 (async_data_size x + Z.of_nat (length key) + Z.of_nat (length value))) in
    if n >? sync_size_limit x then on_own (set_async_data_size 0) ;;; ret true
    else on_own (set_async_data_size n) ;;; ret false
  else if sync_time_limit x >? 0 then
    t <- now ;;
    if t - last_sync_time x >? sync_time_limit x then on_own (set_last_sync_time t) ;;; ret true
    else ret false
  else ret false.

(** The end of the [Init]s that sync. *)
Definition read_config (name : bytes) : prog (adaptor D) unit :=
  x <- gets own ;;
  let p := p_ x in
  on_own (set_config name (getPropertyBool (str "leveldb.writeahead") true p)
            (getPropertyBool (str "leveldb.logon") false p)
            (getPropertyInt (str "leveldb.sync.time.limit") 5 p)
            (getPropertyInt (str "leveldb.sync.size.limit") (-1) p)) ;;;
  t <- now ;;
  on_own (set_last_sync_time t) ;;;
  on_own (set_async_data_size 0).

(** What the laws of an adaptor need of its members: nothing is logged. *)
Definition quiet (a : adaptor D) : Prop := logon (own a) && logs_ (own a) = false.

Definition adaptor_rep (rep : D -> gmap bytes bytes -> Prop) (a : adaptor D) (m : gmap bytes bytes) : Prop :=
  quiet a /\ rep (engine a) m.

Lemma log_key_quiet a : quiet a -> log_key a = Ret tt a.
Proof. intros H. unfold log_key. erewrite bind_Ret by reflexivity. by rewrite H. Qed.

Lemma on_engine_Ret {A} (p : prog D A) a x d :
  p (engine a) = Ret x d -> on_engine p a = Ret x (mkAdaptor (own a) d).
Proof. intros H. unfold on_engine, zoom. by rewrite H. Qed.

(** Planning a sync moves only the members it owns. *)
Lemma plan_sync_quiet k v a :
  exists b a', plan_sync k v a = Ret b a' /\ engine a' = engine a /\ (quiet a -> quiet a').
Proof.
  unfold plan_sync. erewrite bind_Ret by reflexivity.
  destruct (_ >? 0).
  - destruct (i32 _ >? _); by eexists _, _.
  - destruct (sync_time_limit (own a) >? 0); [|by eexists _, _].
    unfold now. erewrite bind_Ret by reflexivity. cbv iota beta.
    destruct (_ - _ >? _); by eexists _, _.
Qed.
End adaptor.
