(* ===== verification/MetaKv.v ===== *)
(** The MetaKV adaptor: [src/adaptor/metakv_wrapper.h], [metakv_wrapper.cc]. A key is
    split into the directory and the hash of the name, and a directory is looked up
    by the 8-byte prefix of its keys.

    MetaKV is a git submodule: the engine, its [Slice], its coding functions and the
    records its scans return are parameters. The adaptor hands it objects with
    virtual methods, which are here records and one function per method; when the
    engine calls which is its own affair, and nothing is assumed about it. *)

From S2P Require Import Prelude Coding WriteBatch Inode Kv Engines Posix Properties Adaptor.

Set Default Proof Using "Type".

(** * Keys and values *)

(** [PutFixed64], [GetFixed64] and [Slice (const char * )] of MetaKV, and what a
    [Slice] holds that no one has set. *)
Class MetaCoding : Type := {
  mc_PutFixed64 : bytes -> Z -> bytes;
  mc_GetFixed64 : bytes -> Z * bytes;
  mc_Slice : bytes -> bytes;
  mc_unset : bytes
}.

(** With [buff_] and [internal_key_] of [MetaKey]. *)
Record tfsKey : Type := mkTfsKey {
  prefix_ : bytes; suffix_ : bytes; key_buff_ : bytes; internal_key_ : bytes
}.

(** With [buff_] and [internal_value_] of [MetaValue]. *)
Record tfsValue : Type := mkTfsValue { tfs_value : bytes; value_buff_ : bytes; internal_value_ : bytes }.

Section objects.
Context `{!MetaCoding}.

(** [tfsKey (leveldb::Slice key)] *)
Definition tfsKey_new {S} (key : bytes) : prog S tfsKey :=
  if decide (16 <= length key)%nat then ret (mkTfsKey (slice 0 8 key) (slice 8 8 key) [] mc_unset)
  else undefined OutOfBounds.

Definition tfsKey_EncodeSize (k : tfsKey) : Z :=
  u64 (Z.of_nat (length (prefix_ k)) + Z.of_nat (length (suffix_ k)) + 2 * 8).

Definition tfsKey_Encode (k : tfsKey) : tfsKey :=
  let buff := mc_PutFixed64 [] (Z.of_nat (length (prefix_ k))) in
  let buff := buff ++ prefix_ k in
  let buff := mc_PutFixed64 buff (Z.of_nat (length (suffix_ k))) in
  let buff := buff ++ suffix_ k in
  mkTfsKey (prefix_ k) (suffix_ k) buff buff.

(** The strings are read out of the bytes the slice points to, which have to be
    there. *)
Definition tfsKey_Decode {S} (k : tfsKey) : prog S tfsKey :=
  let '(prefix_size, temp) := mc_GetFixed64 (internal_key_ k) in
  if decide (Z.of_nat (length temp) < prefix_size) then undefined OutOfBounds else
  let prefix := take (Z.to_nat prefix_size) temp in
  let temp := mc_Slice (drop (Z.to_nat prefix_size) temp) in
  let '(suffix_size, temp) := mc_GetFixed64 temp in
  if decide (Z.of_nat (length temp) < suffix_size) then undefined OutOfBounds else
  ret (mkTfsKey prefix (take (Z.to_nat suffix_size) temp) (key_buff_ k) (internal_key_ k)).

Definition tfsKey_GetPrefix (k : tfsKey) : bytes := prefix_ k.
Definition tfsKey_GetSuffix (k : tfsKey) : bytes := suffix_ k.

Definition tfsValue_new (v : bytes) : tfsValue := mkTfsValue v [] mc_unset.
Definition tfsValue_GetValue (v : tfsValue) : bytes := internal_value_ v.
Definition tfsValue_Decode (v : tfsValue) : tfsValue :=
  mkTfsValue (internal_value_ v) (value_buff_ v) (internal_value_ v).
Definition tfsValue_Encode (v : tfsValue) : tfsValue := mkTfsValue (tfs_value v) (tfs_value v) (tfs_value v).
End objects.

(** * The adaptor *)

(** [MetaDB]. [md_record] is [LogEntryRecord]; its [key] and [value] are read when
    they are asked for, because they may refer to the engine's memory. *)
Class MetaDB (D : Type) : Type := {
  md_coding :: MetaCoding;
  md_record : Type;
  md_new : prog D unit;                               (* MetaDB{} *)
  md_Open : Z -> Z -> bytes -> prog D unit;           (* cceh_file_size, data_file_size, path *)
  md_Put : tfsKey -> tfsValue -> prog D bool;
  md_Get : tfsKey -> tfsValue -> prog D (bool * tfsValue);
  md_Delete : tfsKey -> prog D unit;
  md_Scan : bytes -> list md_record -> prog D (list md_record);
  md_record_key : md_record -> prog D bytes;
  md_record_value : md_record -> prog D bytes
}.

Section metakv.
Context {D : Type} `{!MetaDB D}.

Abbreviation mk_prog := (prog (adaptor D)).
Abbreviation mk_iter := (vec_iter md_record).

Definition MetaKV_Init : mk_prog Z :=
  let size := u64 (60 * 1024 * 1024 * 1024) in
  on_engine md_new ;;;
  x <- gets own ;;
  let path := getProperty (str "leveldb.db") (str "/mnt/pmem/metakv") (p_ x) in
  on_engine (md_Open size size path) ;;;
  on_own (set_config path (writeahead x) (getPropertyBool (str "leveldb.logon") false (p_ x))
            (getPropertyInt (str "leveldb.sync.time.limit") 5 (p_ x))
            (getPropertyInt (str "leveldb.sync.size.limit") (-1) (p_ x))) ;;;
  t <- now ;;
  on_own (set_last_sync_time t) ;;;
  on_own (set_async_data_size 0) ;;;
  ret 1.

Definition MetaKV_Cleanup : mk_prog unit := ret tt.

Definition MetaKV_Put (key value : bytes) : mk_prog Z :=
  log_key ;;;
  metakv_key <- tfsKey_new key ;;
  res <- on_engine (md_Put metakv_key (tfsValue_new value)) ;;
  if (res : bool) then ret 0 else ret (-1).

Definition MetaKV_Get (key : bytes) : mk_prog (Z * bytes) :=
  metakv_key <- tfsKey_new key ;;
  ' (res, metakv_value) <- on_engine (md_Get metakv_key (tfsValue_new [])) ;;
  log_key ;;;
  let result := tfsValue_GetValue metakv_value in
  if negb res then ret (0, result) else ret (1, result).

Definition MetaKV_Delete (key : bytes) : mk_prog Z :=
  log_key ;;;
  metakv_key <- tfsKey_new key ;;
  on_engine (md_Delete metakv_key) ;;;
  ret 0.

(** [MetaDBInserter] *)
Definition MetaDBInserter_Put (key value : bytes) : mk_prog unit :=
  metakv_key <- tfsKey_new key ;;
  on_engine (md_Put metakv_key (tfsValue_new value)) ;;; ret tt.
Definition MetaDBInserter_Delete (key : bytes) : mk_prog unit :=
  metakv_key <- tfsKey_new key ;;
  on_engine (md_Delete metakv_key).

Definition MetaKV_Write (batch : bytes) : mk_prog Z :=
  run_batch MetaDBInserter_Put MetaDBInserter_Delete batch ;;; ret 1.

Definition MetaKV_Sync : mk_prog Z := ret 1.
Definition MetaKV_NewIterator : mk_prog mk_iter := ret vec_new.
Definition MetaKV_GetStat (stat : bytes) : mk_prog (bool * bytes) := ret (true, []).
Definition MetaKV_GetMetric : mk_prog (bool * bytes) := ret (true, []).

Definition MetaKVIterator_Seek (it : mk_iter) (target : bytes) : mk_prog mk_iter :=
  metakv_key <- tfsKey_new target ;;
  L <- on_engine (md_Scan (tfsKey_GetPrefix metakv_key) (dentry_ it)) ;;
  ret (mkVec L (cursor_ it)).

Definition MetaKVIterator_SeekToFirst (it : mk_iter) : mk_prog mk_iter := ret (vec_first it).
Definition MetaKVIterator_SeekToLast (it : mk_iter) : mk_prog mk_iter := ret (vec_last it).
Definition MetaKVIterator_Next (it : mk_iter) : mk_prog mk_iter := ret (vec_next it).
Definition MetaKVIterator_Prev (it : mk_iter) : mk_prog mk_iter := ret (vec_prev it).
Definition MetaKVIterator_Valid (it : mk_iter) : mk_prog bool := ret (vec_valid it).
Definition MetaKVIterator_key (it : mk_iter) : mk_prog bytes :=
  e <- vec_at it ;; on_engine (md_record_key e).
Definition MetaKVIterator_value (it : mk_iter) : mk_prog bytes :=
  e <- vec_at it ;; on_engine (md_record_value e).

Definition MetaKVWrapper : KvWrapper (adaptor D) mk_iter := {|
  kv_Init := MetaKV_Init; kv_Cleanup := MetaKV_Cleanup; kv_Put := MetaKV_Put; kv_Get := MetaKV_Get;
  kv_Delete := MetaKV_Delete; kv_Write := MetaKV_Write; kv_Sync := MetaKV_Sync;
  kv_NewIterator := MetaKV_NewIterator; kv_GetStat := MetaKV_GetStat; kv_GetMetric := MetaKV_GetMetric;
  it_Valid := MetaKVIterator_Valid; it_Seek := MetaKVIterator_Seek; it_Next := MetaKVIterator_Next;
  it_key := MetaKVIterator_key; it_value := MetaKVIterator_value |}.
End metakv.

(** * An engine *)

#[global] Instance MemMetaDB : MetaDB (gmap bytes bytes) := {
  md_coding := {| mc_PutFixed64 b n := PutFixed64 b n; mc_GetFixed64 b := (DecodeFixed64 b, drop 8 b);
                  mc_Slice b := b; mc_unset := [] |};
  md_record := bytes * bytes;
  md_new := ret tt;
  md_Open _ _ _ := ret tt;
  md_Put k v := modify (fun m => <[prefix_ k ++ suffix_ k := tfs_value v]> m) ;;; ret true;
  md_Get k v := gets (fun m => match m !! (prefix_ k ++ suffix_ k) with
                               | Some x => (true, tfsValue_Encode (mkTfsValue x [] []))
                               | None => (false, v) end);
  md_Delete k := modify (fun m => delete (prefix_ k ++ suffix_ k) m);
  md_Scan p _ := gets (fun m => filter (fun kv => take 8 kv.1 = p) (map_to_list m));
  md_record_key e := ret e.1;
  md_record_value e := ret e.2
}.
