(* ===== verification/HiKv.v ===== *)
(** The HiKV adaptor: [src/adaptor/hikv_adaptor.cc].

    HiKV is a git submodule and a parameter. Its iterator keeps slices that point
    into the engine's memory, so its entries are read when a client asks for them;
    how long the engine keeps that memory is not assumed. *)

From S2P Require Import Prelude Coding WriteBatch Inode Kv Engines Posix Properties Adaptor.

Set Default Proof Using "Type".

(** The codes of [open_hikv::ErrorCode] that the adaptor tells apart. *)
Inductive ErrorCode : Type := kOk | kNotFound | kOtherError.

#[global] Instance ErrorCode_eq_dec : EqDecision ErrorCode.
Proof. solve_decision. Defined.

Record HiKVConfig : Type := mkHiKVConfig {
  pm_path_ : bytes; store_size : Z; shard_size : Z; shard_num : Z; message_queue_shard_num : Z;
  hk_log_path_ : bytes; hk_log_size_ : Z; cceh_path_ : bytes; cceh_size_ : Z
}.

(** [open_hikv::OpenHiKV]. [hk_Open] says whether it set the pointer it was given.
    [hk_slice] is a [HikvSlice] that the engine hands out, a pointer and a length,
    and [hk_bytes] reads what it points to at the time of the call. [Scan] calls
    back for one entry after the other, with what the callback has collected so
    far, until the callback returns [false]. *)
Class OpenHiKV (D : Type) : Type := {
  hk_slice : Type;
  hk_bytes : hk_slice -> prog D bytes;
  hk_Open : HiKVConfig -> prog D bool;
  hk_Set : bytes -> bytes -> prog D ErrorCode;
  hk_Get : bytes -> prog D (ErrorCode * hk_slice);
  hk_Del : bytes -> prog D ErrorCode;
  hk_Scan : forall {A : Type}, bytes -> (hk_slice -> hk_slice -> A -> prog D (bool * A)) -> A -> prog D A
}.

(** [s.find (needle) != std::string::npos] *)
Fixpoint starts_with (needle s : bytes) : bool :=
  match needle, s with
  | [], _ => true
  | x :: needle', y :: s' => (x =? y) && starts_with needle' s'
  | _ :: _, [] => false
  end.

Fixpoint str_find (needle s : bytes) : bool :=
  starts_with needle s || match s with [] => false | _ :: s' => str_find needle s' end.

Section hikv.
Context {D : Type} `{!OpenHiKV D}.

Abbreviation hk_prog := (prog (adaptor (owned D))).
Abbreviation hk_iter := (vec_iter (hk_slice * hk_slice)%type).

Definition hikv_config : HiKVConfig :=
  mkHiKVConfig (str "/mnt/pmem/hikv/") (1024 * 1024 * 1024) (625000 * 16 * 4) 256 1
    (str "/mnt/pmem/hikv/") (60 * 1024 * 1024 * 1024) (str "/mnt/pmem/hikv/") (40 * 1024 * 1024 * 1024).

(** A call through [db_]. *)
Definition hikv {A} (p : prog D A) : hk_prog A := on_engine (through p).

Definition Hikv_Init : hk_prog Z := fun a =>
  match hk_Open hikv_config (pointee (engine a)) with
  | Ret ok d => Ret 1 (mkAdaptor (own a) (mkOwned (if (ok : bool) then true else is_set (engine a)) d))
  | Exit c d => Exit c (mkAdaptor (own a) (mkOwned (is_set (engine a)) d))
  | UB w => UB w
  end.

Definition Hikv_Cleanup : hk_prog unit :=
  modify (fun a => mkAdaptor (own a) (mkOwned false (pointee (engine a)))).

Definition Hikv_Put (key value : bytes) : hk_prog Z :=
  log_key ;;;
  res <- hikv (hk_Set key value) ;;
  if decide (res = kOk) then ret 0 else ret (-1).

(** [result] is the caller's string unless the key was found. *)
Definition Hikv_Get (key : bytes) : hk_prog (Z * bytes) :=
  ' (res, value) <- hikv (hk_Get key) ;;
  log_key ;;;
  match res with
  | kOk => result <- hikv (hk_bytes value) ;; ret (1, result)
  | kNotFound => ret (0, [])
  | kOtherError => ret (-1, [])
  end.

Definition Hikv_Delete (key : bytes) : hk_prog Z :=
  log_key ;;;
  hikv (hk_Del key) ;;;
  ret 0.

(** [HikvInserter] collects the operations, which [Write] then applies. *)
Definition HikvInserter : Handler (list (bool * bytes * bytes)) :=
  mkHandler (fun key value kvp => kvp ++ [(true, key, value)]) (fun key kvp => kvp ++ [(false, key, [])]).

Fixpoint Hikv_apply (raw : list (bool * bytes * bytes)) : hk_prog unit :=
  match raw with
  | [] => ret tt
  | (is_put, key, value) :: raw' =>
      (if (is_put : bool) then hikv (hk_Set key value) ;;; ret tt else hikv (hk_Del key) ;;; ret tt) ;;;
      Hikv_apply raw'
  end.

Definition Hikv_Write (batch : bytes) : hk_prog Z :=
  let '(_, raw) := Iterate HikvInserter batch [] in
  Hikv_apply raw ;;;
  ret 1.

Definition Hikv_Sync : hk_prog Z := ret 1.
Definition Hikv_GetStat (stat : bytes) : hk_prog (bool * bytes) := ret (true, []).
Definition Hikv_GetMetric : hk_prog (bool * bytes) := ret (true, []).
Definition Hikv_NewIterator : hk_prog hk_iter := ret vec_new.

(** The callback of [Seek]: entries are taken while the prefix occurs in the key. The
    vector keeps the engine's slices, not the bytes. *)
Definition hikv_callback (prefix : bytes) (k v : hk_slice) (res : list (hk_slice * hk_slice))
    : prog D (bool * list (hk_slice * hk_slice)) :=
  s <- hk_bytes k ;;
  if str_find prefix s then ret (true, res ++ [(k, v)]) else ret (false, res).

Definition HikvIterator_Seek (it : hk_iter) (target : bytes) : hk_prog hk_iter :=
  if decide (length target < 8)%nat then undefined OutOfBounds else
  let prefix := slice 0 8 target in
  res <- hikv (hk_Scan prefix (hikv_callback prefix) []) ;;
  ret (mkVec res 0).

Definition HikvIterator_SeekToFirst (it : hk_iter) : hk_prog hk_iter := ret (vec_first it).
Definition HikvIterator_SeekToLast (it : hk_iter) : hk_prog hk_iter := ret (vec_last it).
Definition HikvIterator_Next (it : hk_iter) : hk_prog hk_iter := ret (vec_next it).
Definition HikvIterator_Prev (it : hk_iter) : hk_prog hk_iter := ret (vec_prev it).
Definition HikvIterator_Valid (it : hk_iter) : hk_prog bool := ret (vec_valid it).
Definition HikvIterator_key (it : hk_iter) : hk_prog bytes := e <- vec_at it ;; hikv (hk_bytes e.1).
Definition HikvIterator_value (it : hk_iter) : hk_prog bytes := e <- vec_at it ;; hikv (hk_bytes e.2).

Definition HikvWrapper : KvWrapper (adaptor (owned D)) hk_iter := {|
  kv_Init := Hikv_Init; kv_Cleanup := Hikv_Cleanup; kv_Put := Hikv_Put; kv_Get := Hikv_Get;
  kv_Delete := Hikv_Delete; kv_Write := Hikv_Write; kv_Sync := Hikv_Sync;
  kv_NewIterator := Hikv_NewIterator; kv_GetStat := Hikv_GetStat; kv_GetMetric := Hikv_GetMetric;
  it_Valid := HikvIterator_Valid; it_Seek := HikvIterator_Seek; it_Next := HikvIterator_Next;
  it_key := HikvIterator_key; it_value := HikvIterator_value |}.
End hikv.

(** A key of another directory passes the test of [Seek] when the prefix occurs
    anywhere in it. *)
Lemma starts_with_app p q : starts_with p (p ++ q) = true.
Proof. induction p as [|x p IH]; simpl; [done|]. by rewrite Z.eqb_refl, IH. Qed.

Lemma str_find_anywhere p a b : str_find p (a ++ p ++ b) = true.
Proof.
  induction a as [|x a IH]; cbn [app str_find].
  - pose proof (starts_with_app p b) as H. destruct (p ++ b); simpl in *; by rewrite H.
  - rewrite IH. apply orb_true_r.
Qed.

(** The operations a batch was built from, as [Write] applies them. *)
Section batches.
Context {D : Type} `{!OpenHiKV D}.

Definition raw_op (op : batch_op) : bool * bytes * bytes :=
  match op with BPut k v => (true, k, v) | BDelete k => (false, k, []) end.

Lemma HikvInserter_collects ops kvp : foldl (run_op HikvInserter) kvp ops = kvp ++ (raw_op <$> ops).
Proof.
  revert kvp. induction ops as [|op ops IH]; intros kvp; [by rewrite app_nil_r|].
  cbn [foldl]. rewrite IH. destruct op; simpl; by rewrite <- app_assoc.
Qed.

Lemma Hikv_apply_ops ops :
  Hikv_apply (D := D) (raw_op <$> ops) =
  each_op (fun k v => hikv (hk_Set k v) ;;; ret tt) (fun k => hikv (hk_Del k) ;;; ret tt) ops.
Proof.
  induction ops as [|op ops IH]; [done|].
  cbn [fmap list_fmap Hikv_apply]. destruct op as [k v|k]; cbn [raw_op each_op]; by rewrite <- IH.
Qed.
End batches.

(** * An engine *)

(** Its slices own their bytes. *)
#[global] Instance MemHiKV : OpenHiKV (gmap bytes bytes) := {
  hk_slice := bytes;
  hk_bytes s := ret s;
  hk_Open _ := ret true;
  hk_Set k v := modify (fun m => <[k := v]> m) ;;; ret kOk;
  hk_Get k := gets (fun m => match m !! k with Some v => (kOk, v) | None => (kNotFound, []) end);
  hk_Del k := modify (fun m => delete k m) ;;; ret kOk;
  hk_Scan A start f a := fun m =>
    (fix go (L : list (bytes * bytes)) (a : A) (m : gmap bytes bytes) : outcome (gmap bytes bytes) A :=
       match L with
       | [] => Ret a m
       | (k, v) :: L' =>
           match f k v a m with
           | Ret (true, a') m' => go L' a' m'
           | Ret (false, a') m' => Ret a' m'
           | Exit c m' => Exit c m'
           | UB w => UB w
           end
       end) (sorted_entries m start) a m
}.
