(* ===== verification/SortedKv.v ===== *)
(** The LevelDB and RocksDB adaptors: [src/adaptor/leveldb_wrapper.cc] and
    [rocksdb_wrapper.cc].

    The database is a parameter with the methods the adaptors call: [Opt] are the
    options [Open] gets, [Batch] its write batches, [I] its iterators and [St] its
    status values. *)

From Stdlib Require Import Sorting.Sorted.
From S2P Require Import Prelude Coding WriteBatch Kv Engines Posix Properties Adaptor.

Set Default Proof Using "Type".

Class SortedDb (Opt Batch D I St : Type) : Type := {
  db_Open : Opt -> bytes -> prog D St;
  db_Close : prog D unit;
  db_Put : WriteOptions -> bytes -> bytes -> prog D St;
  db_Get : bytes -> prog D (St * bytes);
  db_Delete : WriteOptions -> bytes -> prog D St;
  db_Write : WriteOptions -> Batch -> prog D St;
  db_NewIterator : prog D I;
  db_GetProperty : bytes -> prog D (bool * bytes);
  di_Valid : I -> prog D bool;
  di_SeekToFirst : I -> prog D I;
  di_SeekToLast : I -> prog D I;
  di_Seek : I -> bytes -> prog D I;
  di_Next : I -> prog D I;
  di_key : I -> prog D bytes;
  di_value : I -> prog D bytes;
  st_ok : St -> bool;
  st_IsNotFound : St -> bool;
  st_ToString : St -> bytes
}.

(** [leveldb::DB *db_] holds a database or is null. *)
Definition on_db {D A} (p : prog D A) : prog (adaptor (owned D)) A := on_engine (through p).

(** A call on an iterator, which has its own pointer into the database. *)
Definition on_iter {D A} (p : prog D A) : prog (adaptor (owned D)) A :=
  on_engine (zoom pointee (fun d w => mkOwned (is_set w) d) p).

(** [DB::Open (options, db_name, &db_)]: the pointer is set when it succeeds. *)
Definition open_db {Opt Batch D I St} `{!SortedDb Opt Batch D I St} (options : Opt) (name : bytes)
    : prog (adaptor (owned D)) St := fun a =>
  match db_Open options name (pointee (engine a)) with
  | Ret s d => Ret s (mkAdaptor (own a) (mkOwned (st_ok s) d))
  | Exit c d => Exit c (mkAdaptor (own a) (mkOwned (is_set (engine a)) d))
  | UB w => UB w
  end.

(** [delete db_; db_ = nullptr] *)
Definition delete_db {D} (close : prog D unit) : prog (adaptor (owned D)) unit :=
  set <- gets (fun a => is_set (engine a)) ;;
  (if (set : bool) then on_db close else ret tt) ;;;
  modify (fun a => mkAdaptor (own a) (mkOwned false (pointee (engine a)))).

(** * LevelDB *)

Record leveldb_options : Type := mkLeveldbOptions {
  lo_block_cache : option Z;          (* capacity of the block cache *)
  lo_create_if_missing : bool;
  lo_block_size : Z;
  lo_write_buffer_size : Z;
  lo_max_open_files : Z;
  lo_filter_bits : Z;
  lo_limit_sst_file_size : Z;
  lo_limit_level_zero : Z;
  lo_factor_level_files : Z
}.

Section leveldb.
Context {D I St : Type} `{!SortedDb leveldb_options bytes D I St}.

Abbreviation ldb_prog := (prog (adaptor (owned D))).

Definition leveldb_options_of (p : Properties) : leveldb_options :=
  let F_cache_size := getPropertyInt (str "leveldb.cache.size") (Z.shiftl 16 20) p in
  mkLeveldbOptions (if F_cache_size >=? 0 then Some F_cache_size else None)
    (getPropertyBool (str "leveldb.create.if.missing.db") true p)
    (u64 (getPropertyInt (str "leveldb_block_size") (Z.shiftl 4 10) p))
    (u64 (getPropertyInt (str "leveldb_write_buffer_size") (Z.shiftl 16 20) p))
    (getPropertyInt (str "leveldb.max.open.files") 800 p)
    12
    (u64 (getPropertyInt (str "leveldb_limit_sst_file_size") 2097152 p))
    (getPropertyInt (str "leveldb_limit_level_zero") 10 p)
    (getPropertyInt (str "leveldb_factor_level_files") 10 p).

Definition Leveldb_Init : ldb_prog Z :=
  set <- gets (fun a => is_set (engine a)) ;;
  if (set : bool) then undefined AssertFailed else
  x <- gets own ;;
  let name := getProperty (str "leveldb.db") (str "/mnt/pmem/db") (p_ x) in
  read_config name ;;;
  s <- open_db (leveldb_options_of (p_ x)) name ;;
  if negb (st_ok s) then ret (-1) else ret 0.

(** The report of the counters goes to a file of its own. *)
Definition Leveldb_Cleanup : ldb_prog unit := delete_db db_Close.

Definition Leveldb_Put (key value : bytes) : ldb_prog Z :=
  count PUT ;;;
  log_key ;;;
  sync <- plan_sync key value ;;
  x <- gets own ;;
  status <- on_db (db_Put (mkWriteOptions sync (writeahead x)) key value) ;;
  if st_ok status then ret 0 else ret (-1).

Definition Leveldb_Get (key : bytes) : ldb_prog (Z * bytes) :=
  count GET ;;;
  ' (s, result) <- on_db (db_Get key) ;;
  log_key ;;;
  if negb (st_ok s) then ret (-1, st_ToString s)
  else ret (if st_IsNotFound s then 0 else 1, result).

Definition Leveldb_Delete (key : bytes) : ldb_prog Z :=
  count DELETE ;;;
  log_key ;;;
  on_db (db_Delete WriteOptions_new key) ;;;
  ret 0.

Definition Leveldb_Write (batch : bytes) : ldb_prog Z :=
  count PUT ;;;
  count DELETE ;;;
  s <- on_db (db_Write WriteOptions_new batch) ;;
  if negb (st_ok s) then ret (-1) else ret 0.

Definition Leveldb_Sync : ldb_prog Z :=
  count PUT ;;;
  status <- on_db (db_Put (mkWriteOptions true (wo_writeahead WriteOptions_new)) (str "sync") []) ;;
  if st_ok status then ret 0 else ret (-1).

Definition Leveldb_NewIterator : ldb_prog I :=
  count PSCAN ;;;
  on_db db_NewIterator.

Definition Leveldb_GetStat (stat : bytes) : ldb_prog (bool * bytes) := on_db (db_GetProperty stat).
Definition Leveldb_GetMetric : ldb_prog (bool * bytes) := on_db (db_GetProperty (str "leveldb.stats")).

Definition LeveldbIterator_Valid (it : I) : ldb_prog bool := on_iter (di_Valid it).
Definition LeveldbIterator_SeekToFirst (it : I) : ldb_prog I := on_iter (di_SeekToFirst it).
Definition LeveldbIterator_SeekToLast (it : I) : ldb_prog I := on_iter (di_SeekToLast it).
Definition LeveldbIterator_Seek (it : I) (target : bytes) : ldb_prog I := on_iter (di_Seek it target).
Definition LeveldbIterator_Next (it : I) : ldb_prog I := on_iter (di_Next it).

(** [Prev] moves forward. *)
Definition LeveldbIterator_Prev (it : I) : ldb_prog I := on_iter (di_Next it).
Definition LeveldbIterator_key (it : I) : ldb_prog bytes := on_iter (di_key it).
Definition LeveldbIterator_value (it : I) : ldb_prog bytes := on_iter (di_value it).

Definition LeveldbWrapper : KvWrapper (adaptor (owned D)) I := {|
  kv_Init := Leveldb_Init; kv_Cleanup := Leveldb_Cleanup; kv_Put := Leveldb_Put; kv_Get := Leveldb_Get;
  kv_Delete := Leveldb_Delete; kv_Write := Leveldb_Write; kv_Sync := Leveldb_Sync;
  kv_NewIterator := Leveldb_NewIterator; kv_GetStat := Leveldb_GetStat; kv_GetMetric := Leveldb_GetMetric;
  it_Valid := LeveldbIterator_Valid; it_Seek := LeveldbIterator_Seek; it_Next := LeveldbIterator_Next;
  it_key := LeveldbIterator_key; it_value := LeveldbIterator_value |}.
End leveldb.

(** * RocksDB *)

Record rocksdb_options : Type := mkRocksdbOptions {
  ro_create_if_missing : bool;
  ro_block_cache : option Z;
  ro_filter_bits : Z;
  ro_block_size : Z;
  ro_write_buffer_size : Z;
  ro_max_open_files : Z;
  ro_max_bytes_for_level_base : Z;
  ro_max_bytes_for_level_multiplier : Z;
  ro_level0_file_num_compaction_trigger : Z;
  ro_max_background_jobs : Z;
  ro_dcpmm_path : bytes;
  ro_dcpmm_size : Z
}.

Section rocksdb.
Context {D I St : Type} `{!SortedDb rocksdb_options (list batch_op) D I St}.

(** The defaults of [rocksdb::Options ()], converted to [int]. *)
Context (level_base level_multiplier level0_trigger : Z).

Abbreviation rdb_prog := (prog (adaptor (owned D))).

Definition rocksdb_options_of (p : Properties) : rocksdb_options :=
  let F_cache_size := getPropertyInt (str "leveldb.cache.size") (Z.shiftl 16 20) p in
  mkRocksdbOptions (getPropertyBool (str "leveldb.create.if.missing.db") true p)
    (if F_cache_size >=? 0 then Some F_cache_size else None)
    12
    (u64 (getPropertyInt (str "leveldb_block_size") (Z.shiftl 4 10) p))
    (u64 (getPropertyInt (str "leveldb_write_buffer_size") (Z.shiftl 16 20) p))
    (getPropertyInt (str "leveldb.max.open.files") 800 p)
    (u64 (getPropertyInt (str "leveldb_limit_sst_file_size") level_base p))
    (getPropertyInt (str "leveldb_factor_level_files") level_multiplier p)
    (getPropertyInt (str "leveldb_factor_level_files") level0_trigger p)
    2 (str "/mnt/pmem/rocksdb") (40 * 1024 * 1024 * 1024).

Definition Rocksdb_Init : rdb_prog Z :=
  set <- gets (fun a => is_set (engine a)) ;;
  if (set : bool) then undefined AssertFailed else
  x <- gets own ;;
  let name := getProperty (str "leveldb.db") (str "/mnt/pmem/rocksdb") (p_ x) in
  read_config name ;;;
  s <- open_db (rocksdb_options_of (p_ x)) name ;;
  if negb (st_ok s) then ret (-1) else ret 0.

(** [db_->Close (); delete db_; db_ = nullptr] *)
Definition Rocksdb_Cleanup : rdb_prog unit :=
  on_db db_Close ;;;
  modify (fun a => mkAdaptor (own a) (mkOwned false (pointee (engine a)))).

(** The options with the planned [sync] are not the ones passed. *)
Definition Rocksdb_Put (key value : bytes) : rdb_prog Z :=
  count PUT ;;;
  log_key ;;;
  sync <- plan_sync key value ;;
  let opt := WriteOptions_new in
  status <- on_db (db_Put opt key value) ;;
  if st_ok status then ret 0 else ret (-1).

Definition Rocksdb_Get (key : bytes) : rdb_prog (Z * bytes) :=
  count GET ;;;
  ' (s, result) <- on_db (db_Get key) ;;
  log_key ;;;
  if st_IsNotFound s then ret (0, result)
  else if negb (st_ok s) then ret (-1, st_ToString s)
  else ret (1, result).

Definition Rocksdb_Delete (key : bytes) : rdb_prog Z :=
  count DELETE ;;;
  log_key ;;;
  on_db (db_Delete WriteOptions_new key) ;;;
  ret 0.

(** [RocksDBWriteBachHandler] copies the batch. *)
Definition RocksDBWriteBachHandler : Handler (list batch_op) :=
  mkHandler (fun key value batch => batch ++ [BPut key value]) (fun key batch => batch ++ [BDelete key]).

Definition Rocksdb_Write (batch : bytes) : rdb_prog Z :=
  count PUT ;;;
  count DELETE ;;;
  let '(_, rbatch) := Iterate RocksDBWriteBachHandler batch [] in
  s <- on_db (db_Write WriteOptions_new rbatch) ;;
  if negb (st_ok s) then ret (-1) else ret 0.

Definition Rocksdb_Sync : rdb_prog Z :=
  count PUT ;;;
  status <- on_db (db_Put (mkWriteOptions true (wo_writeahead WriteOptions_new)) (str "sync") []) ;;
  if st_ok status then ret 0 else ret (-1).

Definition Rocksdb_NewIterator : rdb_prog I :=
  count PSCAN ;;;
  on_db db_NewIterator.

Definition Rocksdb_GetStat (stat : bytes) : rdb_prog (bool * bytes) := ret (true, []).
Definition Rocksdb_GetMetric : rdb_prog (bool * bytes) := ret (true, []).

Definition RocksdbIterator_Valid (it : I) : rdb_prog bool := on_iter (di_Valid it).
Definition RocksdbIterator_SeekToFirst (it : I) : rdb_prog I := on_iter (di_SeekToFirst it).
Definition RocksdbIterator_SeekToLast (it : I) : rdb_prog I := on_iter (di_SeekToLast it).
Definition RocksdbIterator_Seek (it : I) (target : bytes) : rdb_prog I := on_iter (di_Seek it target).
Definition RocksdbIterator_Next (it : I) : rdb_prog I := on_iter (di_Next it).
Definition RocksdbIterator_Prev (it : I) : rdb_prog I := on_iter (di_Next it).
Definition RocksdbIterator_key (it : I) : rdb_prog bytes := on_iter (di_key it).
Definition RocksdbIterator_value (it : I) : rdb_prog bytes := on_iter (di_value it).

Definition RocksdbWrapper : KvWrapper (adaptor (owned D)) I := {|
  kv_Init := Rocksdb_Init; kv_Cleanup := Rocksdb_Cleanup; kv_Put := Rocksdb_Put; kv_Get := Rocksdb_Get;
  kv_Delete := Rocksdb_Delete; kv_Write := Rocksdb_Write; kv_Sync := Rocksdb_Sync;
  kv_NewIterator := Rocksdb_NewIterator; kv_GetStat := Rocksdb_GetStat; kv_GetMetric := Rocksdb_GetMetric;
  it_Valid := RocksdbIterator_Valid; it_Seek := RocksdbIterator_Seek; it_Next := RocksdbIterator_Next;
  it_key := RocksdbIterator_key; it_value := RocksdbIterator_value |}.
End rocksdb.

(** * What the adaptors rely on *)

Class SortedDbSpec (Opt Batch D I St : Type) `{!SortedDb Opt Batch D I St} (batch_of : list batch_op -> Batch) : Type := {
  db_rep : D -> gmap bytes bytes -> Prop;
  di_snapshot : I -> gmap bytes bytes -> Prop;
  di_rest : I -> list (bytes * bytes) -> Prop;
  st_ok_found s : st_ok s = true -> st_IsNotFound s = false;
  db_Put_ok d m o k v : db_rep d m ->
    exists s d', db_Put o k v d = Ret s d' /\ st_ok s = true /\ db_rep d' (<[k := v]> m);
  db_Get_hit d m k v : db_rep d m -> m !! k = Some v ->
    exists s d', db_Get k d = Ret (s, v) d' /\ st_ok s = true /\ db_rep d' m;
  db_Get_miss d m k : db_rep d m -> m !! k = None ->
    exists s junk d', db_Get k d = Ret (s, junk) d' /\ st_ok s = false /\ db_rep d' m;
  db_Delete_ok d m o k : db_rep d m -> exists s d', db_Delete o k d = Ret s d' /\ db_rep d' (delete k m);
  db_Write_ok d m o ops : db_rep d m -> Forall op_ok ops -> Z.of_nat (length ops) < 2 ^ 31 ->
    exists s d', db_Write o (batch_of ops) d = Ret s d' /\ db_rep d' (foldl apply_op m ops);
  db_NewIterator_ok d m : db_rep d m ->
    exists it d', db_NewIterator d = Ret it d' /\ db_rep d' m /\ di_snapshot it m;
  di_Seek_ok d m it target : db_rep d m -> di_snapshot it m ->
    exists it' d' L, di_Seek it target d = Ret it' d' /\ db_rep d' m /\ di_rest it' L /\ ordered_from m target L;
  di_Valid_ok d it L : di_rest it L -> di_Valid it d = Ret (bool_decide (L <> [])) d;
  di_key_ok d it k v L : di_rest it ((k, v) :: L) -> di_key it d = Ret k d;
  di_value_ok d it k v L : di_rest it ((k, v) :: L) -> di_value it d = Ret v d;
  di_Next_ok d it k v L : di_rest it ((k, v) :: L) ->
    exists it', di_Next it d = Ret it' d /\ di_rest it' L
}.

Section laws.
Context {Opt Batch D I St : Type} `{!SortedDb Opt Batch D I St} {batch_of : list batch_op -> Batch}
  `{!SortedDbSpec Opt Batch D I St batch_of}.

Abbreviation rep := (adaptor_rep (D := owned D) (owned_rep db_rep)).

Lemma count_run op (a : adaptor (owned D)) m : rep a m -> exists a', count op a = Ret tt a' /\ rep a' m.
Proof. intros [Hq Hr]. eexists. split; [reflexivity|by split]. Qed.

Lemma plan_run k v (a : adaptor (owned D)) m : rep a m -> exists b a', plan_sync k v a = Ret b a' /\ rep a' m.
Proof.
  intros [Hq Hr]. destruct (plan_sync_quiet k v a) as (b & a' & Hp & He & Hq').
  exists b, a'. split; [done|]. split; [by apply Hq'|by rewrite He].
Qed.

Lemma log_run (a : adaptor (owned D)) m : rep a m -> log_key a = Ret tt a.
Proof. intros [Hq _]. by apply log_key_quiet. Qed.

Lemma on_db_run {A} (p : prog D A) a m m' x d :
  rep a m -> p (pointee (engine a)) = Ret x d -> db_rep d m' ->
  exists a', on_db p a = Ret x a' /\ rep a' m'.
Proof.
  intros [Hq [Hs _]] Hp Hd. exists (mkAdaptor (own a) (mkOwned true d)).
  split; [|done]. apply on_engine_Ret. by apply through_Ret.
Qed.

Lemma on_iter_same {A} (p : prog D A) (a : adaptor (owned D)) x :
  p (pointee (engine a)) = Ret x (pointee (engine a)) -> on_iter p a = Ret x a.
Proof.
  intros Hp. unfold on_iter, on_engine, zoom. rewrite Hp. by destruct a as [x' [b d]].
Qed.

Lemma put_db o k v a m :
  rep a m -> exists s a', on_db (db_Put o k v) a = Ret s a' /\ st_ok s = true /\ rep a' (<[k := v]> m).
Proof.
  intros Hr. pose proof Hr as (_ & _ & Hd). destruct (db_Put_ok _ m o k v Hd) as (s & d & Hp & Hok & Hd').
  destruct (on_db_run (db_Put o k v) a m (<[k := v]> m) s d Hr Hp Hd') as (a' & H1 & H2). by exists s, a'.
Qed.

Lemma delete_db_run o k a m : rep a m -> exists s a', on_db (db_Delete o k) a = Ret s a' /\ rep a' (delete k m).
Proof.
  intros Hr. pose proof Hr as (_ & _ & Hd). destruct (db_Delete_ok _ m o k Hd) as (s & d & Hp & Hd').
  exists s. by eapply on_db_run.
Qed.

Lemma write_db o ops a m :
  rep a m -> Forall op_ok ops -> Z.of_nat (length ops) < 2 ^ 31 ->
  exists s a', on_db (db_Write o (batch_of ops)) a = Ret s a' /\ rep a' (foldl apply_op m ops).
Proof.
  intros Hr Hok Hl. pose proof Hr as (_ & _ & Hd).
  destruct (db_Write_ok _ m o ops Hd Hok Hl) as (s & d & Hp & Hd'). exists s. by eapply on_db_run.
Qed.

(** The key that [Sync] writes is not a key of the file system. *)
Lemma sync_key m k : kv_key k -> (<[str "sync" := []]> m : gmap bytes bytes) !! k = m !! k.
Proof. intros [Hl _]. apply lookup_insert_ne. intros <-. discriminate Hl. Qed.

(** Creating an iterator and seeking. *)
Lemma scan_db a m target :
  rep a m -> exists a1 it0 a2 it L,
    (count PSCAN ;;; on_db db_NewIterator : prog (adaptor (owned D)) I) a = Ret it0 a1 /\
    on_iter (di_Seek it0 target) a1 = Ret it a2 /\ rep a1 m /\ rep a2 m /\ di_rest it L /\ scan_ok m target L.
Proof.
  intros Hr. destruct (count_run PSCAN a m Hr) as (a' & Hc & Hr'). pose proof Hr' as (_ & _ & Hd).
  destruct (db_NewIterator_ok _ m Hd) as (it0 & d & Hn & Hd' & Hsn).
  destruct (on_db_run db_NewIterator a' m m it0 d Hr' Hn Hd') as (a1 & H1 & Hr1).
  pose proof Hr1 as (Hq1 & Hs1 & Hd1).
  destruct (di_Seek_ok _ m it0 target Hd1 Hsn) as (it & d2 & L & Hk & Hd2 & Hrest & Hord).
  exists a1, it0, (mkAdaptor (own a1) (mkOwned (is_set (engine a1)) d2)), it, L.
  split_and!; [by erewrite bind_Ret by exact Hc| |done| |done|by apply ordered_scan].
  - unfold on_iter. apply on_engine_Ret. unfold zoom. by rewrite Hk.
  - split; [done|]. by split.
Qed.
End laws.

Section leveldb_laws.
Context {D I St : Type} `{!SortedDb leveldb_options bytes D I St, !SortedDbSpec leveldb_options bytes D I St build}.

Abbreviation rep := (adaptor_rep (D := owned D) (owned_rep db_rep)).

Lemma Leveldb_Put_run a m k v : rep a m -> exists a', Leveldb_Put k v a = Ret 0 a' /\ rep a' (<[k := v]> m).
Proof.
  intros Hr. destruct (count_run PUT a m Hr) as (a1 & Hc & Hr1).
  destruct (plan_run k v a1 m Hr1) as (b & a2 & Hp & Hr2).
  destruct (put_db (mkWriteOptions b (writeahead (own a2))) k v a2 m Hr2) as (s & a3 & Hd & Hok & Hr3).
  exists a3. split; [|done]. unfold Leveldb_Put. erewrite bind_Ret by exact Hc.
  erewrite bind_Ret by (by eapply log_run). erewrite bind_Ret by exact Hp. erewrite bind_Ret by reflexivity.
  erewrite bind_Ret by exact Hd. by rewrite Hok.
Qed.

Lemma Leveldb_Get_hit a m k v :
  rep a m -> m !! k = Some v -> exists a', Leveldb_Get k a = Ret (1, v) a' /\ rep a' m.
Proof.
  intros Hr Hm. destruct (count_run GET a m Hr) as (a1 & Hc & Hr1). pose proof Hr1 as (_ & _ & Hd).
  destruct (db_Get_hit _ m k v Hd Hm) as (s & d & Hg & Hok & Hd').
  destruct (on_db_run (db_Get k) a1 m m (s, v) d Hr1 Hg Hd') as (a2 & Ho & Hr2).
  exists a2. split; [|done]. unfold Leveldb_Get. erewrite bind_Ret by exact Hc. erewrite bind_Ret by exact Ho.
  cbv iota beta. erewrite bind_Ret by (by eapply log_run). by rewrite Hok, (st_ok_found s Hok).
Qed.

Lemma Leveldb_Get_miss a m k : rep a m -> m !! k = None ->
  exists r junk a', Leveldb_Get k a = Ret (r, junk) a' /\ r <= 0 /\ rep a' m.
Proof.
  intros Hr Hm. destruct (count_run GET a m Hr) as (a1 & Hc & Hr1). pose proof Hr1 as (_ & _ & Hd).
  destruct (db_Get_miss _ m k Hd Hm) as (s & junk & d & Hg & Hok & Hd').
  destruct (on_db_run (db_Get k) a1 m m (s, junk) d Hr1 Hg Hd') as (a2 & Ho & Hr2).
  exists (-1), (st_ToString s), a2. split_and!; [|lia|done]. unfold Leveldb_Get. erewrite bind_Ret by exact Hc.
  erewrite bind_Ret by exact Ho. cbv iota beta. erewrite bind_Ret by (by eapply log_run). by rewrite Hok.
Qed.

Lemma Leveldb_Delete_run a m k : rep a m -> exists r a', Leveldb_Delete k a = Ret r a' /\ rep a' (delete k m).
Proof.
  intros Hr. destruct (count_run DELETE a m Hr) as (a1 & Hc & Hr1).
  destruct (delete_db_run WriteOptions_new k a1 m Hr1) as (s & a2 & Hd & Hr2). exists 0, a2. split; [|done].
  unfold Leveldb_Delete. erewrite bind_Ret by exact Hc. erewrite bind_Ret by (by eapply log_run).
  by erewrite bind_Ret by exact Hd.
Qed.

Lemma Leveldb_Write_run a m ops :
  rep a m -> Forall op_ok ops -> Z.of_nat (length ops) < 2 ^ 31 ->
  exists r a', Leveldb_Write (build ops) a = Ret r a' /\ rep a' (foldl apply_op m ops).
Proof.
  intros Hr Hok Hl. destruct (count_run PUT a m Hr) as (a1 & Hc & Hr1).
  destruct (count_run DELETE a1 m Hr1) as (a2 & Hc2 & Hr2).
  destruct (write_db WriteOptions_new ops a2 m Hr2 Hok Hl) as (s & a3 & Hw & Hr3).
  exists (if st_ok s then 0 else -1), a3. split; [|done]. unfold Leveldb_Write. erewrite bind_Ret by exact Hc.
  erewrite bind_Ret by exact Hc2. erewrite bind_Ret by exact Hw. by destruct (st_ok s).
Qed.

Lemma Leveldb_Sync_run a m :
  rep a m -> exists a', Leveldb_Sync a = Ret 0 a' /\ rep a' (<[str "sync" := []]> m).
Proof.
  intros Hr. destruct (count_run PUT a m Hr) as (a1 & Hc & Hr1).
  destruct (put_db (mkWriteOptions true true) (str "sync") [] a1 m Hr1) as (s & a2 & Hp & Hok & Hr2).
  exists a2. split; [|done]. unfold Leveldb_Sync. erewrite bind_Ret by exact Hc.
  erewrite bind_Ret by exact Hp. by rewrite Hok.
Qed.

Definition Leveldb_spec : @KvSpec (adaptor (owned D)) I LeveldbWrapper.
Proof using All.
  refine (@Build_KvSpec _ _ LeveldbWrapper (adaptor_rep (owned_rep db_rep)) di_rest _ _ _ _ _ _ _ _ _ _ _).
  - intros a m k v Hr _ _. by apply Leveldb_Put_run.
  - intros a m k v Hr _. by apply Leveldb_Get_hit.
  - intros a m k Hr _. by apply Leveldb_Get_miss.
  - intros a m k Hr _. by apply Leveldb_Delete_run.
  - intros a m ops Hr Hok _. by apply Leveldb_Write_run.
  - intros a m Hr. destruct (Leveldb_Sync_run a m Hr) as (a' & Hs & Hr').
    exists 0, a', (<[str "sync" := []]> m). split_and!; [done|done|by apply sync_key].
  - intros a m target Hr _. by apply scan_db.
  - intros a it L H. by apply on_iter_same, di_Valid_ok.
  - intros a it k v L H. by eapply on_iter_same, di_key_ok.
  - intros a it k v L H. by eapply on_iter_same, di_value_ok.
  - intros a it k v L H. destruct (di_Next_ok (pointee (engine a)) it k v L H) as (it' & Hn & Hr).
    exists it'. split; [|done]. by apply on_iter_same.
Defined.
End leveldb_laws.

Section rocksdb_laws.
Context {D I St : Type} `{!SortedDb rocksdb_options (list batch_op) D I St,
  !SortedDbSpec rocksdb_options (list batch_op) D I St (fun ops => ops)}.
Context (level_base level_multiplier level0_trigger : Z).

Abbreviation rep := (adaptor_rep (D := owned D) (owned_rep db_rep)).

Lemma Rocksdb_Put_run a m k v : rep a m -> exists a', Rocksdb_Put k v a = Ret 0 a' /\ rep a' (<[k := v]> m).
Proof.
  intros Hr. destruct (count_run PUT a m Hr) as (a1 & Hc & Hr1).
  destruct (plan_run k v a1 m Hr1) as (b & a2 & Hp & Hr2).
  destruct (put_db WriteOptions_new k v a2 m Hr2) as (s & a3 & Hd & Hok & Hr3).
  exists a3. split; [|done]. unfold Rocksdb_Put. erewrite bind_Ret by exact Hc.
  erewrite bind_Ret by (by eapply log_run). erewrite bind_Ret by exact Hp.
  erewrite bind_Ret by exact Hd. by rewrite Hok.
Qed.

Lemma Rocksdb_Get_hit a m k v :
  rep a m -> m !! k = Some v -> exists a', Rocksdb_Get k a = Ret (1, v) a' /\ rep a' m.
Proof.
  intros Hr Hm. destruct (count_run GET a m Hr) as (a1 & Hc & Hr1). pose proof Hr1 as (_ & _ & Hd).
  destruct (db_Get_hit _ m k v Hd Hm) as (s & d & Hg & Hok & Hd').
  destruct (on_db_run (db_Get k) a1 m m (s, v) d Hr1 Hg Hd') as (a2 & Ho & Hr2).
  exists a2. split; [|done]. unfold Rocksdb_Get. erewrite bind_Ret by exact Hc. erewrite bind_Ret by exact Ho.
  cbv iota beta. erewrite bind_Ret by (by eapply log_run). by rewrite (st_ok_found s Hok), Hok.
Qed.

Lemma Rocksdb_Get_miss a m k : rep a m -> m !! k = None ->
  exists r junk a', Rocksdb_Get k a = Ret (r, junk) a' /\ r <= 0 /\ rep a' m.
Proof.
  intros Hr Hm. destruct (count_run GET a m Hr) as (a1 & Hc & Hr1). pose proof Hr1 as (_ & _ & Hd).
  destruct (db_Get_miss _ m k Hd Hm) as (s & junk & d & Hg & Hok & Hd').
  destruct (on_db_run (db_Get k) a1 m m (s, junk) d Hr1 Hg Hd') as (a2 & Ho & Hr2).
  exists (if st_IsNotFound s then 0 else -1), (if st_IsNotFound s then junk else st_ToString s), a2.
  split_and!; [|by destruct (st_IsNotFound s)|done]. unfold Rocksdb_Get. erewrite bind_Ret by exact Hc.
  erewrite bind_Ret by exact Ho. cbv iota beta. erewrite bind_Ret by (by eapply log_run).
  rewrite Hok. by destruct (st_IsNotFound s).
Qed.

Lemma Rocksdb_Delete_run a m k : rep a m -> exists r a', Rocksdb_Delete k a = Ret r a' /\ rep a' (delete k m).
Proof.
  intros Hr. destruct (count_run DELETE a m Hr) as (a1 & Hc & Hr1).
  destruct (delete_db_run WriteOptions_new k a1 m Hr1) as (s & a2 & Hd & Hr2). exists 0, a2. split; [|done].
  unfold Rocksdb_Delete. erewrite bind_Ret by exact Hc. erewrite bind_Ret by (by eapply log_run).
  by erewrite bind_Ret by exact Hd.
Qed.

(** The handler copies a batch operation by operation. *)
Lemma RocksDBWriteBachHandler_copies ops batch : foldl (run_op RocksDBWriteBachHandler) batch ops = batch ++ ops.
Proof.
  revert batch. induction ops as [|op ops IH]; intros batch; [by rewrite app_nil_r|].
  cbn [foldl]. rewrite IH. destruct op; simpl; by rewrite <- app_assoc.
Qed.

Lemma Rocksdb_Write_run a m ops :
  rep a m -> Forall op_ok ops -> Z.of_nat (length ops) < 2 ^ 31 ->
  exists r a', Rocksdb_Write (build ops) a = Ret r a' /\ rep a' (foldl apply_op m ops).
Proof.
  intros Hr Hok Hl. destruct (count_run PUT a m Hr) as (a1 & Hc & Hr1).
  destruct (count_run DELETE a1 m Hr1) as (a2 & Hc2 & Hr2).
  destruct (write_db WriteOptions_new ops a2 m Hr2 Hok Hl) as (s & a3 & Hw & Hr3).
  exists (if st_ok s then 0 else -1), a3. split; [|done]. unfold Rocksdb_Write. erewrite bind_Ret by exact Hc.
  erewrite bind_Ret by exact Hc2. rewrite Iterate_build by done. rewrite RocksDBWriteBachHandler_copies. cbn [app].
  erewrite bind_Ret by exact Hw. by destruct (st_ok s).
Qed.

Lemma Rocksdb_Sync_run a m :
  rep a m -> exists a', Rocksdb_Sync a = Ret 0 a' /\ rep a' (<[str "sync" := []]> m).
Proof.
  intros Hr. destruct (count_run PUT a m Hr) as (a1 & Hc & Hr1).
  destruct (put_db (mkWriteOptions true true) (str "sync") [] a1 m Hr1) as (s & a2 & Hp & Hok & Hr2).
  exists a2. split; [|done]. unfold Rocksdb_Sync. erewrite bind_Ret by exact Hc.
  erewrite bind_Ret by exact Hp. by rewrite Hok.
Qed.

Definition Rocksdb_spec :
  @KvSpec (adaptor (owned D)) I (RocksdbWrapper level_base level_multiplier level0_trigger).
Proof using All.
  refine (@Build_KvSpec _ _ (RocksdbWrapper level_base level_multiplier level0_trigger)
    (adaptor_rep (owned_rep db_rep)) di_rest _ _ _ _ _ _ _ _ _ _ _).
  - intros a m k v Hr _ _. by apply Rocksdb_Put_run.
  - intros a m k v Hr _. by apply Rocksdb_Get_hit.
  - intros a m k Hr _. by apply Rocksdb_Get_miss.
  - intros a m k Hr _. by apply Rocksdb_Delete_run.
  - intros a m ops Hr Hok _. by apply Rocksdb_Write_run.
  - intros a m Hr. destruct (Rocksdb_Sync_run a m Hr) as (a' & Hs & Hr').
    exists 0, a', (<[str "sync" := []]> m). split_and!; [done|done|by apply sync_key].
  - intros a m target Hr _. by apply scan_db.
  - intros a it L H. by apply on_iter_same, di_Valid_ok.
  - intros a it k v L H. by eapply on_iter_same, di_key_ok.
  - intros a it k v L H. by eapply on_iter_same, di_value_ok.
  - intros a it k v L H. destruct (di_Next_ok (pointee (engine a)) it k v L H) as (it' & Hn & Hr).
    exists it'. split; [|done]. by apply on_iter_same.
Defined.
End rocksdb_laws.

(** * A database that keeps the laws *)

(** A map; an iterator is a snapshot with the entries that are left. *)
Definition MemSorted (Opt Batch : Type) (apply : Batch -> gmap bytes bytes -> gmap bytes bytes) :
    SortedDb Opt Batch (gmap bytes bytes) (gmap bytes bytes * list (bytes * bytes)) Status := {|
  db_Open _ _ := ret Status_OK;
  db_Close := ret tt;
  db_Put _ k v := modify (fun m => <[k := v]> m) ;;; ret Status_OK;
  db_Get k := gets (fun m => match m !! k with Some v => (Status_OK, v) | None => (Status_NotFound, []) end);
  db_Delete _ k := modify (fun m => delete k m) ;;; ret Status_OK;
  db_Write _ b := modify (apply b) ;;; ret Status_OK;
  db_NewIterator := gets (fun m => (m, []));
  db_GetProperty _ := ret (false, []);
  di_Valid it := ret (bool_decide (it.2 <> []));
  di_SeekToFirst it := ret (it.1, sorted_entries it.1 []);
  di_SeekToLast it := ret (it.1, drop (length (sorted_entries it.1 []) - 1) (sorted_entries it.1 []));
  di_Seek it target := ret (it.1, sorted_entries it.1 target);
  di_Next it := ret (it.1, tail it.2);
  di_key it := match it.2 with kv :: _ => ret kv.1 | [] => undefined OutOfBounds end;
  di_value it := match it.2 with kv :: _ => ret kv.2 | [] => undefined OutOfBounds end;
  st_ok := Status_ok;
  st_IsNotFound s := bool_decide (s = Status_NotFound);
  st_ToString _ := []
|}.

Definition MemSorted_spec Opt Batch apply (batch_of : list batch_op -> Batch) :
  (forall ops m, Forall op_ok ops -> Z.of_nat (length ops) < 2 ^ 31 ->
     apply (batch_of ops) m = foldl apply_op m ops) ->
  @SortedDbSpec Opt Batch _ _ _ (MemSorted Opt Batch apply) batch_of.
Proof.
  intros Happly.
  refine (@Build_SortedDbSpec Opt Batch _ _ _ (MemSorted Opt Batch apply) batch_of
    (fun d m => d = m) (fun it m => it.1 = m) (fun it L => it.2 = L) _ _ _ _ _ _ _ _ _ _ _ _).
  - by intros [] H.
  - intros d m o k v ->. by eexists _, _.
  - intros d m k v -> Hm. exists Status_OK, m. split_and!; [|done|done]. cbn. unfold gets. by rewrite Hm.
  - intros d m k -> Hm. exists Status_NotFound, [], m. split_and!; [|done|done]. cbn. unfold gets. by rewrite Hm.
  - intros d m o k ->. by eexists _, _.
  - intros d m o ops -> Hok Hl. eexists _, _. split; [cbn; reflexivity|]. by apply Happly.
  - intros d m ->. by eexists _, _.
  - intros d m it target -> <-. eexists _, _, _. split_and!; [done|done|done|apply sorted_entries_ok].
  - by intros d it L <-.
  - intros d it k v L H. cbn. by rewrite H.
  - intros d it k v L H. cbn. by rewrite H.
  - intros d it k v L H. eexists. split; [done|]. simpl. by rewrite H.
Defined.

(** ** Closing and opening again *)

(** What is assumed of a database opened with [options] under [name]: asking for a
    property changes nothing, and what was in it when it was closed is in it when
    it is opened again. *)
Class SortedDbDurable {Opt Batch D I St : Type} `{!SortedDb Opt Batch D I St} {batch_of : list batch_op -> Batch}
    (SP : SortedDbSpec Opt Batch D I St batch_of) (options : Opt) (name : bytes) : Prop := {
  db_GetProperty_ok d m x : db_rep d m -> exists r d', db_GetProperty x d = Ret r d' /\ db_rep d' m;
  db_reopens d m : db_rep d m -> exists d1 s d2, db_Close d = Ret tt d1 /\
    db_Open options name d1 = Ret s d2 /\ st_ok s = true /\ db_rep d2 m
}.

(** The adaptor [Setup] makes in a new process: [new Adaptor ()], [SetProperties]
    and [SetLogging]. *)
Definition new_adaptor {D : Type} (prop : Properties) (times : list Z) (a : adaptor (owned D)) : adaptor (owned D) :=
  mkAdaptor (SetLogging (SetProperties prop (members_new times))) (mkOwned false (pointee (engine a))).

Section durable.
Context {Opt Batch D I St : Type} `{!SortedDb Opt Batch D I St} {batch_of : list batch_op -> Batch}
  `{SP : !SortedDbSpec Opt Batch D I St batch_of}.

Lemma GetProperty_run options name x (a : adaptor (owned D)) m :
  SortedDbDurable SP options name -> adaptor_rep (owned_rep db_rep) a m ->
  exists r a', on_db (db_GetProperty x) a = Ret r a' /\ adaptor_rep (owned_rep db_rep) a' m.
Proof.
  intros HD Hr. pose proof Hr as (_ & _ & Hd). destruct (db_GetProperty_ok _ m x Hd) as (r & d & Hg & Hd').
  destruct (on_db_run _ a m m r d Hr Hg Hd') as (a' & ? & ?). by exists r, a'.
Qed.

(** The configuration a new adaptor reads is the default one: the properties it
    was given are in the base class's member. *)
Lemma read_config_new name prop times (d : owned D) :
  exists x, read_config name (mkAdaptor (SetLogging (SetProperties prop (members_new times))) d) = Ret tt (mkAdaptor x d) /\
    logs_ x = false.
Proof. unfold read_config, now. eexists. split; [reflexivity|done]. Qed.

Lemma close_run (a : adaptor (owned D)) d :
  is_set (engine a) = true -> db_Close (pointee (engine a)) = Ret tt d ->
  on_db db_Close a = Ret tt (mkAdaptor (own a) (mkOwned true d)).
Proof. intros Hs Hc. apply on_engine_Ret. by apply through_Ret. Qed.

(** Both adaptors close and open in the same way. *)
Lemma reopen_run options name prop times (a : adaptor (owned D)) m :
  SortedDbDurable SP options name -> adaptor_rep (owned_rep db_rep) a m ->
  exists d1 x s d2, db_Close (pointee (engine a)) = Ret tt d1 /\
    read_config name (new_adaptor prop times (mkAdaptor (own a) (mkOwned false d1))) = Ret tt (mkAdaptor x (mkOwned false d1)) /\
    open_db options name (mkAdaptor x (mkOwned false d1)) = Ret s (mkAdaptor x (mkOwned true d2)) /\ st_ok s = true /\
    adaptor_rep (owned_rep db_rep) (mkAdaptor x (mkOwned true d2)) m.
Proof.
  intros HD (Hq & Hs & Hd). destruct (db_reopens _ m Hd) as (d1 & s & d2 & Hc & Ho & Hok & Hd2).
  destruct (read_config_new name prop times (mkOwned false d1)) as (x & Hx & Hl).
  exists d1, x, s, d2. split_and!; [done|done| |done|].
  - unfold open_db. cbn. by rewrite Ho, Hok.
  - split; [unfold quiet; cbn; rewrite Hl; by destruct (logon x)|]. by split.
Qed.
End durable.


Definition Leveldb_durable {D I St : Type} `{!SortedDb leveldb_options bytes D I St}
    (SP : SortedDbSpec leveldb_options bytes D I St build) (prop : Properties) (times : list Z) :
  SortedDbDurable SP (leveldb_options_of ∅) (str "/mnt/pmem/db") ->
  @KvDurable (adaptor (owned D)) I LeveldbWrapper Leveldb_spec.
Proof.
  intros HD. refine (@Build_KvDurable _ _ LeveldbWrapper Leveldb_spec (new_adaptor prop times) _ _ _).
  - intros a m x Hr. by eapply GetProperty_run.
  - intros a m Hr. by eapply GetProperty_run.
  - intros a m Hr. destruct (reopen_run _ _ prop times a m HD Hr) as (d1 & x & s & d2 & Hc & Hx & Ho & Hok & Hr2).
    pose proof Hr as (_ & Hs & _).
    exists (mkAdaptor (own a) (mkOwned false d1)), 0, (mkAdaptor x (mkOwned true d2)). split_and!; [| |done|done].
    + change (Leveldb_Cleanup a = Ret tt (mkAdaptor (own a) (mkOwned false d1))).
      unfold Leveldb_Cleanup, delete_db. erewrite bind_Ret by reflexivity. rewrite Hs. by erewrite bind_Ret by (by apply close_run).
    + change (Leveldb_Init (new_adaptor prop times (mkAdaptor (own a) (mkOwned false d1))) = Ret 0 (mkAdaptor x (mkOwned true d2))).
      unfold Leveldb_Init. erewrite bind_Ret by reflexivity. unfold new_adaptor at 1. cbn [engine is_set].
      erewrite bind_Ret by reflexivity. erewrite bind_Ret by exact Hx.
      erewrite bind_Ret by exact Ho. by rewrite Hok.
Defined.

Definition Rocksdb_durable {D I St : Type} `{!SortedDb rocksdb_options (list batch_op) D I St}
    (SP : SortedDbSpec rocksdb_options (list batch_op) D I St (fun ops => ops)) (base mult trigger : Z) (prop : Properties) (times : list Z) :
  SortedDbDurable SP (rocksdb_options_of base mult trigger ∅) (str "/mnt/pmem/rocksdb") ->
  @KvDurable (adaptor (owned D)) I (RocksdbWrapper base mult trigger) (Rocksdb_spec base mult trigger).
Proof.
  intros HD. refine (@Build_KvDurable _ _ (RocksdbWrapper base mult trigger) (Rocksdb_spec base mult trigger) (new_adaptor prop times) _ _ _).
  - intros a m x Hr. by eexists _, a.
  - intros a m Hr. by eexists _, a.
  - intros a m Hr. destruct (reopen_run _ _ prop times a m HD Hr) as (d1 & x & s & d2 & Hc & Hx & Ho & Hok & Hr2).
    pose proof Hr as (_ & Hs & _).
    exists (mkAdaptor (own a) (mkOwned false d1)), 0, (mkAdaptor x (mkOwned true d2)). split_and!; [| |done|done].
    + change (Rocksdb_Cleanup a = Ret tt (mkAdaptor (own a) (mkOwned false d1))).
      unfold Rocksdb_Cleanup. by erewrite bind_Ret by (by apply close_run).
    + change (Rocksdb_Init base mult trigger (new_adaptor prop times (mkAdaptor (own a) (mkOwned false d1))) = Ret 0 (mkAdaptor x (mkOwned true d2))).
      unfold Rocksdb_Init. erewrite bind_Ret by reflexivity. unfold new_adaptor at 1. cbn [engine is_set].
      erewrite bind_Ret by reflexivity. erewrite bind_Ret by exact Hx.
      erewrite bind_Ret by exact Ho. by rewrite Hok.
Defined.
