(* ===== verification/Adaptors.v ===== *)
(** The theorems about the stores behind [KvWrapper]: the adaptors of LevelDB and
    RocksDB keep the contract the file system is proved against, given what an
    ordered database promises; the adaptors of the other engines hand batches on in
    order and walk what a scan returned; how [Put] of LevelDB bounds unsynced data;
    and which properties reach a store. *)

From S2P Require Import Prelude Coding WriteBatch Inode Kv Engines VecKv Posix Properties Adaptor MetaKv HiKv SortedKv.

Set Default Proof Using "Type".

Definition key0 : bytes := ToSlice (mkKey 1 2).
Definition key1 : bytes := ToSlice (mkKey 1 3).

Lemma key0_ok : kv_key key0.
Proof. split; [done|]. by apply (bool_decide_unpack _). Qed.

Lemma key1_ok : kv_key key1.
Proof. split; [done|]. by apply (bool_decide_unpack _). Qed.

Definition members0 : members := members_new [].

Lemma tfsKey_halves `{!MetaCoding} {S} k :
  kv_key k -> @tfsKey_new _ S k = ret (mkTfsKey (take 8 k) (drop 8 k) [] mc_unset).
Proof.
  intros [Hl _]. unfold tfsKey_new. rewrite decide_True by lia. unfold slice.
  by rewrite drop_0, (take_ge (drop 8 k)) by (rewrite length_drop; lia).
Qed.

Lemma each_op_ext {S} (put put' : bytes -> bytes -> prog S unit) del del' ops s :
  (forall k v s, kv_key k -> put k v s = put' k v s) -> (forall k s, kv_key k -> del k s = del' k s) ->
  Forall (fun op => kv_key (op_key op)) ops -> each_op put del ops s = each_op put' del' ops s.
Proof.
  intros Hp Hd. revert s. induction ops as [|op ops IH]; intros s Hk; [done|].
  apply Forall_cons_1 in Hk as [Hk Hks].
  destruct op as [k v|k]; cbn [each_op op_key] in *; unfold bind; rewrite ?Hp, ?Hd by done.
  - destruct (put' k v s); [by apply IH|done|done].
  - destruct (del' k s); [by apply IH|done|done].
Qed.

(** C20: whatever the engine, a write batch handed to the uTree, ROART, two-level-hash,
    MetaKV or HiKV adaptor becomes one engine call for each of its operations, in the
    order they were added, with their keys and values; a key goes to MetaKV as its
    two halves. The first call that does not return ends the replay. *)
Theorem batches_reach_engines {D M H} `{!StringDb D, !MetaDB M, !OpenHiKV H} (ops : list batch_op) :
  Forall op_ok ops -> Forall (fun op => kv_key (op_key op)) ops -> Z.of_nat (length ops) < 2 ^ 31 ->
  let string_calls : prog (owned D) unit :=
    each_op (fun k v => through (sd_Put k v) ;;; ret tt) (fun k => through (sd_Delete k)) ops in
  (forall w, uTree_Write (build ops) w = (string_calls ;;; ret 0) w) /\
  (forall w, Roart_Write (build ops) w = (string_calls ;;; ret 0) w) /\
  (forall w, Tlhash_Write (build ops) w = (string_calls ;;; ret 0) w) /\
  (forall a : adaptor M, MetaKV_Write (build ops) a =
     (each_op (fun k v => on_engine (md_Put (mkTfsKey (take 8 k) (drop 8 k) [] mc_unset) (mkTfsValue v [] mc_unset)) ;;; ret tt)
        (fun k => on_engine (md_Delete (mkTfsKey (take 8 k) (drop 8 k) [] mc_unset))) ops ;;; ret 1) a) /\
  (forall a : adaptor (owned H), Hikv_Write (build ops) a =
     (each_op (fun k v => hikv (hk_Set k v) ;;; ret tt) (fun k => hikv (hk_Del k) ;;; ret tt) ops ;;; ret 1) a).
Proof.
  intros Hok Hk Hl string_calls. split_and!; [intros w; by apply run_batch_ops..| |]; intros a.
  - unfold MetaKV_Write. rewrite run_batch_ops by done. unfold bind.
    rewrite (each_op_ext MetaDBInserter_Put
      (fun k v => on_engine (md_Put (mkTfsKey (take 8 k) (drop 8 k) [] mc_unset) (mkTfsValue v [] mc_unset)) ;;; ret tt)
      MetaDBInserter_Delete (fun k => on_engine (md_Delete (mkTfsKey (take 8 k) (drop 8 k) [] mc_unset)))); [done| | |done].
    + intros k v s Hkk. unfold MetaDBInserter_Put. by rewrite tfsKey_halves.
    + intros k s Hkk. unfold MetaDBInserter_Delete. by rewrite tfsKey_halves.
  - unfold Hikv_Write. rewrite Iterate_build by done. rewrite HikvInserter_collects. cbn [app].
    by rewrite Hikv_apply_ops.
Qed.

Definition batch0 : list batch_op := [BPut key0 (str "old"); BPut key1 (str "v"); BDelete key0; BPut key1 (str "w")].

(** The last value of [key1] remains. *)
Lemma batches_reach_engines_witness :
  Tlhash_Write (build batch0) (mkOwned true ∅) = Ret 0 (mkOwned true {[key1 := str "w"]}) /\
  MetaKV_Write (build batch0) (mkAdaptor members0 ∅) = Ret 1 (mkAdaptor members0 {[key1 := str "w"]}) /\
  Hikv_Write (build batch0) (mkAdaptor members0 (mkOwned true ∅)) = Ret 1 (mkAdaptor members0 (mkOwned true {[key1 := str "w"]})).
Proof.
  destruct (batches_reach_engines (D := gmap bytes bytes) (M := gmap bytes bytes) (H := gmap bytes bytes) batch0)
    as (_ & _ & H1 & H2 & H3).
  - assert (forall k, kv_key k -> str_ok k) as Hk by (intros k [H1 H2]; split; [exact H2|lia]).
    pose proof (Hk _ key0_ok) as K0. pose proof (Hk _ key1_ok) as K1.
    assert (str_ok (str "old") /\ str_ok (str "v") /\ str_ok (str "w")) as (V1 & V2 & V3)
      by (split_and!; (split; [apply bytes_ok_str|cbn; lia])).
    apply Forall_cons_2; [exact (conj K0 V1)|]. apply Forall_cons_2; [exact (conj K1 V2)|].
    apply Forall_cons_2; [exact K0|]. apply Forall_cons_2; [exact (conj K1 V3)|apply Forall_nil_2].
  - apply Forall_cons_2; [exact key0_ok|]. apply Forall_cons_2; [exact key1_ok|].
    apply Forall_cons_2; [exact key0_ok|]. apply Forall_cons_2; [exact key1_ok|apply Forall_nil_2].
  - cbn. lia.
  - rewrite H1, H2, H3. vm_compute. split; [reflexivity|]. split; reflexivity.
Defined.

(** C22: whatever the engine, a walk of an iterator of the uTree, ROART or
    two-level-hash adaptor from [Seek] to the end shows the vector the engine's
    [Scan] filled, entry by entry and in its order, in as many rounds as it has
    entries and one more. [Seek] leaves the cursor where it was: an iterator that
    has been moved before skips as many entries as it had passed. *)
Theorem walks_show_scans {D} `{!StringDb D} (TreeDB : bytes -> Z -> prog D unit)
    (Tree HybridHash HybridHash_Init HybridHash_Exit : prog D unit) (w : owned D) target L d :
  is_set w = true ->
  let ut := uTreeWrapper TreeDB in let ro := RoartWrappr Tree in
  let tl := TlhashWrapper HybridHash HybridHash_Init HybridHash_Exit in
  (sd_Scan target [] (pointee w) = Ret L d -> forall fuel, (length L < fuel)%nat ->
     @scan_from _ _ ut fuel target w = Ret L (mkOwned true d) /\
     @scan_from _ _ ro fuel target w = Ret L (mkOwned true d) /\
     @scan_from _ _ tl fuel target w = Ret L (mkOwned true d)) /\
  (forall it : str_iter, 0 <= cursor_ it -> sd_Scan target (dentry_ it) (pointee w) = Ret L d ->
   forall fuel, (length L < fuel)%nat ->
     let rest := drop (Z.to_nat (cursor_ it)) L in
     (it' <- uTreeIterator_Seek it target ;; @walk _ _ ut fuel it') w = Ret rest (mkOwned true d) /\
     (it' <- RoartIterator_Seek it target ;; @walk _ _ ro fuel it') w = Ret rest (mkOwned true d) /\
     (it' <- TlhashIterator_Seek it target ;; @walk _ _ tl fuel it') w = Ret rest (mkOwned true d)).
Proof.
  intros Hw ut ro tl.
  assert (forall (K : KvWrapper (owned D) str_iter) (it : str_iter) fuel,
    it_Valid = (fun it => ret (vec_valid it)) -> it_Next = (fun it => ret (vec_next it)) ->
    it_key = (fun it => e <- vec_at it ;; ret e.1) -> it_value = (fun it => e <- vec_at it ;; ret e.2) ->
    0 <= cursor_ it -> sd_Scan target (dentry_ it) (pointee w) = Ret L d -> (length L < fuel)%nat ->
    (it' <- (L <- through (sd_Scan target (dentry_ it)) ;; ret (mkVec L (cursor_ it))) ;; @walk _ _ K fuel it') w =
      Ret (drop (Z.to_nat (cursor_ it)) L) (mkOwned true d)) as Hgen.
  { intros K it fuel H1 H2 H3 H4 Hc Hs Hf. rewrite bind_assoc. erewrite bind_Ret by (by apply through_Ret).
    rewrite bind_ret. rewrite (walk_vec K (mkVec L (cursor_ it))); try done. cbn [dentry_ cursor_]. lia. }
  split.
  - intros Hs fuel Hf. split_and!; unfold scan_from; cbn [kv_NewIterator ut ro tl uTreeWrapper RoartWrappr TlhashWrapper];
      [unfold uTree_NewIterator|unfold Roart_NewIterator|unfold Tlhash_NewIterator];
      rewrite bind_ret; by apply (Hgen _ vec_new fuel).
  - intros it Hc Hs fuel Hf. split_and!; by apply (Hgen _ it fuel).
Qed.

(** Two entries of one directory; the iterator that has passed one of them skips one. *)
Lemma walks_show_scans_witness :
  let w := mkOwned true {[key0 := str "v"; key1 := str "w"]} in
  @scan_from _ _ (RoartWrappr (ret tt)) 3 key0 w = Ret [(key1, str "w"); (key0, str "v")] w /\
  (it <- RoartIterator_Seek (mkVec [] 1) key0 ;; @walk _ _ (RoartWrappr (ret tt)) 3 it) w = Ret [(key0, str "v")] w.
Proof.
  intros w.
  destruct (walks_show_scans (D := gmap bytes bytes) (fun _ _ => ret tt) (ret tt) (ret tt) (ret tt) (ret tt) w key0
    [(key1, str "w"); (key0, str "v")] (pointee w) eq_refl) as [H1 H2].
  split.
  - apply (H1 ltac:(vm_compute; reflexivity) 3%nat). cbn. lia.
  - apply (H2 (mkVec [] 1) ltac:(cbn; lia) ltac:(vm_compute; reflexivity) 3%nat). cbn. lia.
Defined.

(** C21: the LevelDB and RocksDB adaptors are stores over a database with ordered
    iterators: the entries of a directory are the first ones an iterator yields
    from the directory's key on, and the key [Sync] writes is none of the file
    system's. When the database keeps what was in it from one opening to the next,
    so do the adaptors: [Cleanup] and the [Init] of the adaptor a new process makes
    restore the contents, whatever properties [Setup] passes. *)
Theorem sorted_adaptors_are_stores {D I St} (L : SortedDb leveldb_options bytes D I St)
    (LS : SortedDbSpec leveldb_options bytes D I St build)
    (R : SortedDb rocksdb_options (list batch_op) D I St)
    (RS : SortedDbSpec rocksdb_options (list batch_op) D I St (fun ops => ops)) base mult trigger prop times :
  SortedDbDurable LS (leveldb_options_of ∅) (str "/mnt/pmem/db") ->
  SortedDbDurable RS (rocksdb_options_of base mult trigger ∅) (str "/mnt/pmem/rocksdb") ->
  (exists (K : @KvSpec (adaptor (owned D)) I LeveldbWrapper) (KD : @KvDurable _ _ LeveldbWrapper K),
     (forall a m, @kv_rep _ _ _ K a m <->
        quiet a /\ is_set (engine a) = true /\ @db_rep _ _ _ _ _ L _ LS (pointee (engine a)) m) /\
     @kv_restart _ _ _ K KD = new_adaptor prop times) /\
  (exists (K : @KvSpec (adaptor (owned D)) I (RocksdbWrapper base mult trigger))
      (KD : @KvDurable _ _ (RocksdbWrapper base mult trigger) K),
     (forall a m, @kv_rep _ _ _ K a m <->
        quiet a /\ is_set (engine a) = true /\ @db_rep _ _ _ _ _ R _ RS (pointee (engine a)) m) /\
     @kv_restart _ _ _ K KD = new_adaptor prop times).
Proof.
  intros HL HR. split.
  - by exists Leveldb_spec, (Leveldb_durable LS prop times HL).
  - by exists (Rocksdb_spec base mult trigger), (Rocksdb_durable RS base mult trigger prop times HR).
Qed.

Definition mem_leveldb : SortedDb leveldb_options bytes (gmap bytes bytes) (gmap bytes bytes * list (bytes * bytes)) Status :=
  MemSorted leveldb_options bytes
    (fun b m => (Iterate (mkHandler (fun k v m => <[k := v]> m) (fun k m => delete k m)) b m).2).

Definition mem_rocksdb : SortedDb rocksdb_options (list batch_op) (gmap bytes bytes) (gmap bytes bytes * list (bytes * bytes)) Status :=
  MemSorted rocksdb_options (list batch_op) (fun ops m => foldl apply_op m ops).

Lemma mem_leveldb_batch ops m :
  Forall op_ok ops -> Z.of_nat (length ops) < 2 ^ 31 ->
  (Iterate (mkHandler (fun k v m => <[k := v]> m) (fun k m => delete k m)) (build ops) m).2 = foldl apply_op m ops.
Proof.
  intros Hok Hl. rewrite Iterate_build by done. simpl. clear.
  revert m. induction ops as [|[k v|k] ops IH]; intros m; simpl; done.
Qed.

Definition mem_leveldb_spec : @SortedDbSpec leveldb_options bytes _ _ _ mem_leveldb build :=
  MemSorted_spec leveldb_options bytes _ build mem_leveldb_batch.

Definition mem_rocksdb_spec : @SortedDbSpec rocksdb_options (list batch_op) _ _ _ mem_rocksdb (fun ops => ops) :=
  MemSorted_spec rocksdb_options (list batch_op) _ (fun ops => ops) (fun _ _ _ _ => eq_refl).

Lemma mem_leveldb_durable : SortedDbDurable mem_leveldb_spec (leveldb_options_of ∅) (str "/mnt/pmem/db").
Proof. split; [intros d m x H; by eexists _, d|]. intros d m H. by exists d, Status_OK, d. Qed.

Lemma mem_rocksdb_durable : SortedDbDurable mem_rocksdb_spec (rocksdb_options_of 0 0 0 ∅) (str "/mnt/pmem/rocksdb").
Proof. split; [intros d m x H; by eexists _, d|]. intros d m H. by exists d, Status_OK, d. Qed.

Lemma sorted_adaptors_are_stores_witness :
  exists a1 a2 r a3, @Leveldb_Put _ _ _ mem_leveldb key0 (str "v") (mkAdaptor members0 (mkOwned true ∅)) = Ret 0 a1 /\
    @Leveldb_Cleanup _ _ _ mem_leveldb a1 = Ret tt a2 /\
    @Leveldb_Init _ _ _ mem_leveldb (new_adaptor ∅ [7] a2) = Ret r a3 /\ pointee (engine a3) = {[key0 := str "v"]}.
Proof.
  destruct (sorted_adaptors_are_stores mem_leveldb mem_leveldb_spec mem_rocksdb mem_rocksdb_spec 0 0 0 ∅ [7]
    mem_leveldb_durable mem_rocksdb_durable) as ((K & KD & HK & Hnew) & _).
  destruct (@kv_Put_spec _ _ _ K (mkAdaptor members0 (mkOwned true ∅)) ∅ key0 (str "v")) as (a1 & Hp & Hr);
    [by apply HK|exact key0_ok|split; [apply bytes_ok_str|by cbn]|].
  destruct (@kv_reopen _ _ _ K KD a1 _ Hr) as (a2 & r & a3 & Hc & Hi & _ & Hr3). rewrite Hnew in Hi.
  exists a1, a2, r, a3. split; [exact Hp|]. split; [exact Hc|]. split; [exact Hi|].
  apply HK in Hr3 as (_ & _ & Hr3). rewrite Hr3. reflexivity.
Defined.

(** ** Synchronous writes *)

Definition put_size (p : bytes * bytes) : Z := Z.of_nat (length p.1) + Z.of_nat (length p.2).
Definition put_sizes (ps : list (bytes * bytes)) : Z := foldr (fun p n => put_size p + n) 0 ps.

(** Which of a sequence of puts have to be synchronous when at most [limit] bytes may
    be written without, and [acc] were before. *)
Fixpoint sync_flags (limit acc : Z) (ps : list (bytes * bytes)) : list bool :=
  match ps with
  | [] => []
  | p :: ps' =>
      let written := acc + put_size p in
      if limit <? written then true :: sync_flags limit 0 ps' else false :: sync_flags limit written ps'
  end.

Section sync.
Context {D I St : Type} `{!SortedDb leveldb_options bytes D I St}.

(** The puts as calls of the database, each with its flag, and as calls of the adaptor. *)
Fixpoint db_puts (wa : bool) (fps : list (bool * (bytes * bytes))) : prog D (list St) :=
  match fps with
  | [] => ret []
  | (sync, (k, v)) :: fps' => s <- db_Put (mkWriteOptions sync wa) k v ;; ss <- db_puts wa fps' ;; ret (s :: ss)
  end.

Fixpoint leveldb_puts (ps : list (bytes * bytes)) : prog (adaptor (owned D)) (list Z) :=
  match ps with
  | [] => ret []
  | (k, v) :: ps' => r <- Leveldb_Put k v ;; rs <- leveldb_puts ps' ;; ret (r :: rs)
  end.

(** One put. *)
Lemma Leveldb_Put_sync (a : adaptor (owned D)) k v s d :
  let limit := sync_size_limit (own a) in let written := async_data_size (own a) + put_size (k, v) in
  quiet a -> is_set (engine a) = true -> 0 < limit -> 0 <= async_data_size (own a) -> written < 2 ^ 31 ->
  db_Put (mkWriteOptions (limit <? written) (writeahead (own a))) k v (pointee (engine a)) = Ret s d ->
  exists a', Leveldb_Put k v a = Ret (if st_ok s then 0 else -1) a' /\ quiet a' /\ engine a' = mkOwned true d /\
    sync_size_limit (own a') = limit /\ writeahead (own a') = writeahead (own a) /\
    async_data_size (own a') = if limit <? written then 0 else written.
Proof.
  intros limit written Hq Hs Hl Ha Hw Hp. unfold put_size in written. cbn [fst snd] in written.
  assert (exists a0, plan_sync k v (mkAdaptor (set_statistics (RecordKVOperations PUT (statistics (own a))) (own a)) (engine a)) =
      Ret (limit <? written) a0 /\
    engine a0 = engine a /\ quiet a0 /\ sync_size_limit (own a0) = limit /\ writeahead (own a0) = writeahead (own a) /\
    async_data_size (own a0) = if limit <? written then 0 else written) as (a0 & H0 & He & Hq0 & Hl0 & Hw0 & Ha0).
  { unfold plan_sync. erewrite bind_Ret by reflexivity. cbn [own]. cbv zeta.
    change (sync_size_limit (set_statistics _ _)) with limit.
    change (async_data_size (set_statistics _ _)) with (async_data_size (own a)).
    replace (limit >? 0) with true by (symmetry; lia). rewrite <- Z.add_assoc. fold written.
    rewrite u64_small, i32_small by lia. rewrite Z.gtb_ltb. destruct (limit <? written); by eexists. }
  eexists (mkAdaptor (own a0) (mkOwned true d)). split; [|done].
  unfold Leveldb_Put. erewrite bind_Ret by reflexivity. erewrite bind_Ret by (by apply log_key_quiet).
  erewrite bind_Ret by exact H0. erewrite bind_Ret by reflexivity. rewrite Hw0.
  erewrite bind_Ret by (apply on_engine_Ret; rewrite He; by apply through_Ret). by destruct (st_ok s).
Qed.

Lemma puts_run ps (a : adaptor (owned D)) ss d :
  let limit := sync_size_limit (own a) in
  quiet a -> is_set (engine a) = true -> 0 < limit -> 0 <= async_data_size (own a) <= limit ->
  Forall (fun p => limit + put_size p < 2 ^ 31) ps ->
  db_puts (writeahead (own a)) (zip (sync_flags limit (async_data_size (own a)) ps) ps) (pointee (engine a)) = Ret ss d ->
  exists a', leveldb_puts ps a = Ret ((fun s => if st_ok s then 0 else -1) <$> ss) a' /\ engine a' = mkOwned true d.
Proof.
  intros limit. subst limit. revert a ss. induction ps as [|[k v] ps IH]; intros a ss Hq Hs Hl Ha Hps Hdb.
  { injection Hdb as <- <-. exists a. split; [done|]. destruct (engine a) as [b e]. cbn in *. by subst b. }
  apply Forall_cons_1 in Hps as [Hp Hps]. pose proof (Leveldb_Put_sync a k v) as Hput.
  set (limit := sync_size_limit (own a)) in *. set (written := async_data_size (own a) + put_size (k, v)) in *.
  assert (exists s d1 ss1, db_Put (mkWriteOptions (limit <? written) (writeahead (own a))) k v (pointee (engine a)) = Ret s d1 /\
    db_puts (writeahead (own a)) (zip (sync_flags limit (if limit <? written then 0 else written) ps) ps) d1 = Ret ss1 d /\
    ss = s :: ss1) as (s & d1 & ss1 & H1 & H2 & ->).
  { cbn [sync_flags] in Hdb. fold written in Hdb. destruct (limit <? written); cbn [zip zip_with db_puts] in Hdb;
      apply bind_inv in Hdb as (s & d1 & H1 & (ss1 & d2 & H2 & [= <- <-])%bind_inv); eauto 10. }
  assert (0 <= put_size (k, v)) as Hpos by (unfold put_size; lia).
  destruct (Hput s d1) as (a1 & R1 & Q1 & E1 & L1 & W1 & A1); [done|done|done|lia|unfold written; lia|done|].
  destruct (IH a1 ss1) as (a2 & R2 & E2).
  - done.
  - by rewrite E1.
  - by rewrite L1.
  - rewrite L1, A1. fold limit written. destruct (limit <? written) eqn:E; bool_to_prop; [lia|].
    unfold written in *. lia.
  - by rewrite L1.
  - rewrite W1, L1, A1, E1. exact H2.
  - exists a2. split; [|done]. cbn [leveldb_puts]. erewrite bind_Ret by exact R1. by erewrite bind_Ret by exact R2.
Qed.
End sync.

(** Puts in a row that are not synchronous fit the limit. *)
Lemma sync_flags_run limit acc ps n :
  0 <= acc <= limit -> (forall i, (i < n)%nat -> sync_flags limit acc ps !! i = Some false) ->
  acc + put_sizes (take n ps) <= limit.
Proof.
  revert acc ps. induction n as [|n IH]; intros acc ps Ha Hf; [cbn; destruct ps; cbn; lia|].
  pose proof (Hf 0%nat ltac:(lia)) as H0. destruct ps as [|p ps]; [done|]. cbn [sync_flags] in *.
  assert (0 <= put_size p) as Hp by (unfold put_size; lia).
  destruct (limit <? acc + put_size p) eqn:E; bool_to_prop; [done|].
  change (put_sizes (take (S n) (p :: ps))) with (put_size p + put_sizes (take n ps)). rewrite Z.add_assoc. apply IH; [lia|]. intros i Hi. apply (Hf (S i)). lia.
Qed.

Lemma sync_flags_bound limit acc ps i n :
  0 <= acc <= limit -> (forall j, (i <= j < i + n)%nat -> sync_flags limit acc ps !! j = Some false) ->
  put_sizes (take n (drop i ps)) <= limit.
Proof.
  revert acc ps. induction i as [|i IH]; intros acc ps Ha Hf.
  - rewrite drop_0. pose proof (sync_flags_run limit acc ps n Ha). assert (acc + put_sizes (take n ps) <= limit); [|lia].
    apply H. intros j Hj. apply Hf. lia.
  - destruct ps as [|p ps]; [rewrite drop_nil, take_nil; cbn; lia|]. cbn [drop sync_flags] in *.
    assert (0 <= put_size p) as Hp by (unfold put_size; lia).
    destruct (limit <? acc + put_size p) eqn:E; bool_to_prop.
    + apply (IH 0 ps); [lia|]. intros j Hj. apply (Hf (S j)). lia.
    + apply (IH (acc + put_size p) ps); [lia|]. intros j Hj. apply (Hf (S j)). lia.
Qed.

(** C35: with a limit on unsynced data, a sequence of puts through the LevelDB adaptor
    makes one database call for each, with the synchronous flag on exactly those
    with which the bytes since the last synchronous one exceed the limit, and
    returns the database's answers; so any number of puts in a row that were not
    asked to be synchronous have at most [limit] bytes. *)
Theorem unsynced_bytes_bounded {D I St} `{!SortedDb leveldb_options bytes D I St} (a : adaptor (owned D)) ps :
  let limit := sync_size_limit (own a) in
  let flags := sync_flags limit (async_data_size (own a)) ps in
  quiet a -> is_set (engine a) = true -> 0 < limit -> 0 <= async_data_size (own a) <= limit ->
  Forall (fun p => limit + put_size p < 2 ^ 31) ps ->
  (forall ss d, db_puts (writeahead (own a)) (zip flags ps) (pointee (engine a)) = Ret ss d ->
     exists a', leveldb_puts ps a = Ret ((fun s => if st_ok s then 0 else -1) <$> ss) a' /\ engine a' = mkOwned true d) /\
  (forall i n, (forall j, (i <= j < i + n)%nat -> flags !! j = Some false) -> put_sizes (take n (drop i ps)) <= limit).
Proof.
  intros limit flags Hq Hs Hl Ha Hps. split.
  - intros ss d. by apply puts_run.
  - intros i n. by apply sync_flags_bound.
Qed.

(** 90 bytes are unsynced and 100 allowed: the second put exceeds the limit. *)
Definition adaptor90 : adaptor (owned (gmap bytes bytes)) :=
  mkAdaptor (mkMembers ∅ false ∅ false Statistics_new [] false true 0 5 90 100 []) (mkOwned true ∅).

Lemma unsynced_bytes_bounded_witness :
  let ps := [(str "abc", str "12345"); (str "def", str "value"); (str "ghi", [])] in
  sync_flags 100 90 ps = [false; true; false] /\
  exists a', @leveldb_puts _ _ _ mem_leveldb ps adaptor90 = Ret [0; 0; 0] a' /\
    pointee (engine a') = list_to_map (reverse ps).
Proof.
  intros ps. split; [reflexivity|].
  destruct (unsynced_bytes_bounded (SortedDb0 := mem_leveldb) adaptor90 ps) as [Hrun _].
  - reflexivity.
  - reflexivity.
  - cbn. lia.
  - cbn. lia.
  - apply (bool_decide_unpack _). vm_compute. exact I.
  - destruct (Hrun _ _ ltac:(vm_compute; reflexivity)) as (a' & Hp & He).
    exists a'. split; [exact Hp|]. rewrite He. vm_compute. reflexivity.
Defined.

(** An outcome with the properties [KvWrapper::SetProperties] stored. *)
Definition with_base {A E : Type} (p : Properties) (o : outcome (adaptor E) A) : outcome (adaptor E) A :=
  match o with
  | Ret x a => Ret x (mkAdaptor (SetProperties p (own a)) (engine a))
  | Exit x a => Exit x (mkAdaptor (SetProperties p (own a)) (engine a))
  | UB w => UB w
  end.

Lemma getProperty_empty k v : getProperty k v ∅ = v.
Proof. unfold getProperty. by rewrite lookup_empty. Qed.

Lemma read_config_run {D} name (a : adaptor D) :
  exists a', read_config name a = Ret tt a' /\ engine a' = engine a /\ db_name (own a') = name.
Proof.
  unfold read_config, now, on_own, modify, bind, gets, ret. eexists. split; [reflexivity|]. by split.
Qed.

(** C36: the properties handed to [SetProperties] do not reach the adaptors that
    read their own [p_]: [Init] of the LevelDB, RocksDB and MetaKV adaptors does
    the same whatever the properties are, and the LevelDB adaptor opens the
    built-in path with the built-in options. *)
Theorem properties_do_not_reach_stores {D I St} (L : SortedDb leveldb_options bytes D I St)
    (R : SortedDb rocksdb_options (list batch_op) D I St) (M : MetaDB D) base mult trigger p c d :
  Leveldb_Init (mkAdaptor (SetProperties p (members_new c)) (mkOwned false d)) =
    with_base p (Leveldb_Init (mkAdaptor (members_new c) (mkOwned false d))) /\
  Rocksdb_Init base mult trigger (mkAdaptor (SetProperties p (members_new c)) (mkOwned false d)) =
    with_base p (Rocksdb_Init base mult trigger (mkAdaptor (members_new c) (mkOwned false d))) /\
  MetaKV_Init (mkAdaptor (SetProperties p (members_new c)) d) =
    with_base p (MetaKV_Init (mkAdaptor (members_new c) d)) /\
  (forall s d', db_Open (leveldb_options_of ∅) (str "/mnt/pmem/db") d = Ret s d' ->
   exists a', Leveldb_Init (mkAdaptor (SetProperties p (members_new c)) (mkOwned false d)) =
     Ret (if @st_ok _ _ _ _ _ L s then 0 else -1) a' /\ db_name (own a') = str "/mnt/pmem/db").
Proof.
  split_and!.
  - unfold Leveldb_Init, read_config, open_db, bind, gets, now, on_own, modify, undefined, ret. cbn.
    destruct (db_Open _ _ d); [|done|done]. cbn. by destruct (st_ok a).
  - unfold Rocksdb_Init, read_config, open_db, bind, gets, now, on_own, modify, undefined, ret. cbn.
    destruct (db_Open _ _ d); [|done|done]. cbn. by destruct (st_ok a).
  - unfold MetaKV_Init, on_engine, zoom, bind, gets, now, on_own, modify, ret. cbn.
    destruct (md_new d); [|done|done]. cbn. by destruct (md_Open _ _ _ s).
  - intros s d' Ho. unfold Leveldb_Init. erewrite bind_Ret by reflexivity.
    cbn [is_set engine]. erewrite bind_Ret by reflexivity. cbv zeta. cbn [own]. change (p_ (SetProperties p (members_new c))) with (∅ : Properties).
    rewrite getProperty_empty.
    destruct (read_config_run (str "/mnt/pmem/db") (mkAdaptor (SetProperties p (members_new c)) (mkOwned false d)))
      as (a' & Hc & He & Hn).
    erewrite bind_Ret by exact Hc. eexists (mkAdaptor (own a') (mkOwned (@st_ok _ _ _ _ _ L s) d')). split; [|done].
    erewrite bind_Ret by (unfold open_db; rewrite He; cbn [engine pointee]; rewrite Ho; reflexivity).
    by destruct (@st_ok _ _ _ _ _ L s).
Qed.

Lemma properties_do_not_reach_stores_witness :
  exists a', @Leveldb_Init _ _ _ mem_leveldb (mkAdaptor (SetProperties {[str "leveldb.db" := str "/data/meta"]} members0)
    (mkOwned false ∅)) = Ret 0 a' /\ db_name (own a') = str "/mnt/pmem/db".
Proof.
  destruct (properties_do_not_reach_stores mem_leveldb mem_rocksdb MemMetaDB 0 0 0
    {[str "leveldb.db" := str "/data/meta"]} [] ∅) as (_ & _ & _ & H).
  exact (H Status_OK ∅ eq_refl).
Defined.
