(* ===== verification/State.v ===== *)
(** The state of a mounted file system: [src/fs/tfs_state.h],
    [src/fs/tfs_state.cpp], the lock table [src/fs/inodemutex.cpp], and the
    location of data files ([GetDiskFilePath] of [src/fs/tablefs.cpp]).

    The pointers [metadb] and [logs] of [FileSystemState] are not part of the
    record: the store is a component of the file system's state, and [Setup]
    returns the properties it hands to the store. *)

From S2P Require Import Prelude Inode Posix Properties.

Set Default Proof Using "Type".

Record FileSystemState : Type := mkFSS {
  metadir_ : bytes;
  datadir_ : bytes;
  mountdir_ : bytes;
  max_inode_num : Z;
  threshold_ : Z
}.

Definition FileSystemState_new : FileSystemState := mkFSS [] [] [] 0 0.

Definition set_max_inode_num (n : Z) (s : FileSystemState) : FileSystemState :=
  mkFSS (metadir_ s) (datadir_ s) (mountdir_ s) n (threshold_ s).

Definition IsEmpty (s : FileSystemState) : bool := max_inode_num s =? 0.

Abbreviation st_prog := (prog (FileSystemState * os)).

Definition on_os {A} (m : prog os A) : st_prog A := zoom snd (fun o s => (s.1, o)) m.

(** [sprintf] into a buffer of [cap] bytes. *)
Definition sprintf {S} (cap : nat) (s : bytes) : prog S bytes :=
  if decide (length s < cap)%nat then ret s else undefined OutOfBounds.

Definition dir_path (datadir : bytes) (n : Z) : bytes := datadir ++ str "/" ++ fmt_d n.
Definition root_dat (datadir : bytes) : bytes := datadir ++ str "/root.dat".

(** [(int) inode >> NUM_FILES_IN_DATADIR_BITS] *)
Definition data_bucket (inode : Z) : Z := Z.shiftr (i32 inode) NUM_FILES_IN_DATADIR_BITS.

(** [GetDiskFilePath]: [sprintf (path, "%s/%d/%d", ...)] *)
Definition disk_path (datadir : bytes) (inode_id : Z) : bytes :=
  dir_path datadir (data_bucket inode_id) ++ str "/" ++
  fmt_d (Z.rem (i32 inode_id) NUM_FILES_IN_DATADIR).

(** [access (path, W_OK)]: 0, or -1. *)
Definition os_access (path : bytes) : prog os Z :=
  s <- get_state ;; if decide (path ∈ os_dirs s) then ret 0 else fail ENOENT (-1).

(** [fscanf (f, "%u", &max_inode_num)] stores a 32-bit value into the low half of
    the 64-bit counter; only the result 0, for no conversion, resets it. *)
Definition scan_counter (contents : bytes) (old : Z) : Z :=
  match scan_u contents with
  | Converted v => old / 2 ^ 32 * 2 ^ 32 + v
  | NoConversion => 0
  | EndOfInput => old
  end.

Definition Setup (realpath : bytes -> bytes) (prop : Properties) : st_prog (Z * Properties) :=
  let metadir := realpath (getProperty1 (str "metadir") prop) in
  let datadir := realpath (getProperty (str "datadir") (str "/mnt/pmem/tablefs") prop) in
  let mountdir := realpath (getProperty1 (str "mountdir") prop) in
  let threshold := getPropertyInt (str "threshold") 4096 prop in
  modify (fun s => (mkFSS metadir datadir mountdir (max_inode_num s.1) threshold, s.2)) ;;;
  a <- on_os (os_access datadir) ;;
  failed <- (if a >? 0 then ret true
             else b <- on_os (os_access metadir) ;; ret (b >? 0)) ;;
  if (failed : bool) then exit 1 else
  let prop_ := setProperty (str "leveldb.db") (metadir ++ str "/meta") prop in
  let prop_ := setProperty (str "leveldb.create.if.missing.db") (str "true") prop_ in
  fpath <- sprintf 256 (root_dat datadir) ;;
  f <- on_os (os_read_file fpath) ;;
  (match f with
   | None =>
       modify (fun s => (set_max_inode_num 0 s.1, s.2)) ;;;
       ok <- on_os (os_write_file fpath (fmt_u 0 ++ [10])) ;;
       if negb ok then undefined NullPointer else
       fpath <- sprintf 512 (dir_path datadir 0) ;;
       on_os (os_mkdir fpath) ;;; ret tt
   | Some contents =>
       modify (fun s => (set_max_inode_num (scan_counter contents (max_inode_num s.1)) s.1, s.2))
   end) ;;;
  ret (0, prop_).

(** The part of [Destroy] that saves the counter. *)
Definition Destroy_counter : st_prog unit :=
  s <- get_state ;;
  fpath <- sprintf 256 (root_dat (datadir_ s.1)) ;;
  on_os (os_write_file fpath (fmt_u (max_inode_num s.1) ++ [10])) ;;;
  ret tt.

Definition NewInode : st_prog Z :=
  modify (fun s => (set_max_inode_num (u64 (max_inode_num s.1 + 1)) s.1, s.2)) ;;;
  s <- get_state ;;
  (if max_inode_num s.1 mod NUM_FILES_IN_DATADIR =? 0 then
     fpath <- sprintf 512 (dir_path (datadir_ s.1) (data_bucket (max_inode_num s.1))) ;;
     on_os (os_mkdir fpath) ;;; ret tt
   else ret tt) ;;;
  ret (max_inode_num s.1).

(** ** [InodeMutex] *)

Definition ILOCK_BASE : Z := 1023.
Definition NUM_ILOCK : Z := 1024.

(** The lock a key maps to. *)
Definition lock_id (key : tfs_meta_key_t) : Z :=
  Z.land (u32 (u64 (inode_id key + hash_id key))) ILOCK_BASE.

(** The calls on the locks are commented out in the source: the three operations
    compute the index and have no effect. *)
Definition ReadLock {S} (key : tfs_meta_key_t) : prog S unit :=
  let id := lock_id key in ret tt.
Definition WriteLock {S} (key : tfs_meta_key_t) : prog S unit :=
  let id := lock_id key in ret tt.
Definition Unlock {S} (key : tfs_meta_key_t) : prog S unit :=
  let id := lock_id key in ret tt.

Lemma bind_ReadLock {S B} key (m : unit -> prog S B) s : bind (ReadLock key) m s = m tt s.
Proof. reflexivity. Qed.
Lemma bind_WriteLock {S B} key (m : unit -> prog S B) s : bind (WriteLock key) m s = m tt s.
Proof. reflexivity. Qed.
Lemma bind_Unlock {S B} key (m : unit -> prog S B) s : bind (Unlock key) m s = m tt s.
Proof. reflexivity. Qed.

#[global] Arguments disk_path : simpl never.
#[global] Arguments dir_path : simpl never.
#[global] Arguments root_dat : simpl never.
#[global] Arguments data_bucket : simpl never.

(** * Lemmas *)

Lemma drop_until_app c l r : no_byte c l -> drop_until c (l ++ c :: r) = r.
Proof.
  induction l as [|b l IH]; intros Hl; simpl.
  - by rewrite Z.eqb_refl.
  - apply Forall_cons_1 in Hl as [Hb Hl].
    replace (b =? c) with false by (symmetry; by apply Z.eqb_neq). by apply IH.
Qed.

Lemma dirname_app a b : no_byte 47 b -> dirname (a ++ 47 :: b) = a.
Proof.
  intros Hb. unfold dirname. rewrite reverse_app, reverse_cons, <- app_assoc. simpl.
  rewrite drop_until_app; [apply reverse_involutive|].
  unfold no_byte. by apply Forall_reverse.
Qed.

Lemma dec_digits_no_slash fuel n acc : 0 <= n -> no_byte 47 acc -> no_byte 47 (dec_digits fuel n acc).
Proof.
  revert n acc. induction fuel as [|fuel IH]; intros n acc Hn Hacc; simpl; [done|].
  pose proof (Z.mod_pos_bound n 10 ltac:(lia)).
  assert (no_byte 47 ((48 + n mod 10) :: acc)) by (constructor; [lia|done]).
  case_bool; [done|]. apply IH; [|done]. by apply Z.div_pos.
Qed.

Lemma fmt_d_no_slash n : no_byte 47 (fmt_d n).
Proof.
  unfold fmt_d. case_bool; bool_to_prop.
  - constructor; [lia|]. apply dec_digits_no_slash; [lia|constructor].
  - apply dec_digits_no_slash; [done|constructor].
Qed.

Lemma dirname_disk_path d i : dirname (disk_path d i) = dir_path d (data_bucket i).
Proof. unfold disk_path. apply dirname_app, fmt_d_no_slash. Qed.

Lemma dirname_dir_path d n : dirname (dir_path d n) = d.
Proof. unfold dir_path. apply dirname_app, fmt_d_no_slash. Qed.

Lemma dirname_root_dat d : dirname (root_dat d) = d.
Proof.
  unfold root_dat. change (str "/root.dat") with (47 :: str "root.dat").
  apply dirname_app. unfold no_byte. by repeat constructor.
Qed.

Lemma data_bucket_small i : 0 <= i < 2 ^ 31 -> data_bucket i = i / 16384.
Proof.
  intros Hi. unfold data_bucket, NUM_FILES_IN_DATADIR_BITS. rewrite i32_small by done.
  by rewrite Z.shiftr_div_pow2.
Qed.

Lemma data_slot_small i : 0 <= i < 2 ^ 31 -> Z.rem (i32 i) NUM_FILES_IN_DATADIR = i mod 16384.
Proof.
  intros Hi. rewrite i32_small by done. unfold NUM_FILES_IN_DATADIR.
  rewrite Z.rem_mod_nonneg; lia.
Qed.

(** Distinct inodes below 2^31 have distinct data files. *)
Lemma disk_path_inj d i j :
  0 <= i < 2 ^ 31 -> 0 <= j < 2 ^ 31 -> disk_path d i = disk_path d j -> i = j.
Proof.
  intros Hi Hj E. unfold disk_path, dir_path in E.
  rewrite !data_slot_small, !data_bucket_small in E by done.
  rewrite <- !app_assoc in E. apply app_inv_head in E. injection E as E.
  pose proof (Z.div_mod i 16384 ltac:(lia)). pose proof (Z.div_mod j 16384 ltac:(lia)).
  pose proof (Z.mod_pos_bound i 16384 ltac:(lia)). pose proof (Z.mod_pos_bound j 16384 ltac:(lia)).
  assert (0 <= i / 16384 < 2 ^ 32) as Hbi.
  { split; [apply Z.div_pos; lia|]. apply Z.div_lt_upper_bound; lia. }
  assert (0 <= j / 16384 < 2 ^ 32) as Hbj.
  { split; [apply Z.div_pos; lia|]. apply Z.div_lt_upper_bound; lia. }
  assert (i / 16384 = j / 16384) as Eb.
  { apply (fmt_d_inj _ _ (str "/" ++ fmt_d (i mod 16384)) (str "/" ++ fmt_d (j mod 16384))); done. }
  rewrite Eb in E. apply app_inv_head in E. injection E as E.
  assert (i mod 16384 = j mod 16384) as Em.
  { apply (fmt_d_inj _ _ [] []); [lia|lia|done|done|]. by rewrite !app_nil_r. }
  lia.
Qed.

Lemma length_dec_digits fuel n acc : (length (dec_digits fuel n acc) <= fuel + length acc)%nat.
Proof.
  revert n acc. induction fuel as [|fuel IH]; intros n acc; simpl; [lia|].
  case_bool; simpl; [lia|]. specialize (IH (n / 10) (48 + n mod 10 :: acc)). simpl in IH. lia.
Qed.

Lemma length_fmt_d n : (length (fmt_d n) <= 21)%nat.
Proof.
  unfold fmt_d. pose proof (length_dec_digits 20 (- n) []) as H1.
  pose proof (length_dec_digits 20 n []) as H2. cbn [length] in H1, H2.
  destruct (n <? 0); cbn [length]; lia.
Qed.

Lemma length_dir_path d n : (length (dir_path d n) <= length d + 22)%nat.
Proof. unfold dir_path. rewrite !length_app. pose proof (length_fmt_d n). simpl. lia. Qed.

Lemma length_disk_path d n : (length (disk_path d n) <= length d + 44)%nat.
Proof.
  unfold disk_path. rewrite !length_app. pose proof (length_dir_path d (data_bucket n)).
  pose proof (length_fmt_d (Z.rem (i32 n) NUM_FILES_IN_DATADIR)). simpl. lia.
Qed.

Lemma sprintf_Ret {S} cap s (st : S) : (length s < cap)%nat -> sprintf cap s st = Ret s st.
Proof. intros H. unfold sprintf. by rewrite decide_True. Qed.

(** ** Inode allocation *)

(** The directory every allocated inode's data file goes to exists. *)
Record dirs_ok (s : FileSystemState) (o : os) : Prop := {
  do_root : datadir_ s ∈ os_dirs o;
  do_len : (length (datadir_ s) < 80)%nat;
  do_max : 0 <= max_inode_num s < 2 ^ 31;
  do_dirs : forall i, 0 <= i <= max_inode_num s -> dir_path (datadir_ s) (data_bucket i) ∈ os_dirs o
}.

(** The part of the operating system's state that allocation leaves alone. *)
Definition same_files (o o' : os) : Prop :=
  os_names o' = os_names o /\ os_data o' = os_data o /\ os_fds o' = os_fds o /\
  os_next o' = os_next o /\ os_clock o' = os_clock o /\ os_dirs o ⊆ os_dirs o'.

Lemma os_mkdir_spec path o :
  dirname path ∈ os_dirs o -> exists r o', os_mkdir path o = Ret r o' /\ same_files o o' /\
  path ∈ os_dirs o'.
Proof.
  intros Hd. unfold os_mkdir, bind, get_state. case_decide as Hp.
  - eexists _, _. split; [reflexivity|]. by repeat split.
  - rewrite decide_False by (intros Hn; by apply Hn). eexists _, _. split; [reflexivity|].
    repeat split; simpl; set_solver.
Qed.

Lemma bucket_step i : 0 <= i -> i + 1 < 2 ^ 31 ->
  data_bucket (i + 1) = data_bucket i \/ (i + 1) mod NUM_FILES_IN_DATADIR = 0.
Proof.
  intros H0 H1. rewrite !data_bucket_small by lia. unfold NUM_FILES_IN_DATADIR.
  destruct (decide ((i + 1) mod 16384 = 0)) as [|Hne]; [by right|left].
  pose proof (Z.div_mod (i + 1) 16384 ltac:(lia)). pose proof (Z.mod_pos_bound (i + 1) 16384 ltac:(lia)).
  apply (Z.div_unique i 16384 ((i + 1) / 16384) ((i + 1) mod 16384 - 1)); lia.
Qed.

Lemma NewInode_spec s o :
  dirs_ok s o -> max_inode_num s + 1 < 2 ^ 31 ->
  exists o', NewInode (s, o) = Ret (max_inode_num s + 1) (set_max_inode_num (max_inode_num s + 1) s, o') /\
    dirs_ok (set_max_inode_num (max_inode_num s + 1) s) o' /\ same_files o o'.
Proof.
  intros [Hr Hl Hm Hd] Hlt. unfold NewInode. unfold bind at 1. cbn [modify fst snd].
  rewrite u64_small by lia. set (s' := set_max_inode_num (max_inode_num s + 1) s).
  assert (forall o', same_files o o' -> dir_path (datadir_ s) (data_bucket (max_inode_num s + 1)) ∈ os_dirs o' ->
            dirs_ok s' o') as Hok.
  { intros o' (_ & _ & _ & _ & _ & Hsub) Hin. split; simpl; [set_solver|done|lia|].
    intros i Hi. destruct (decide (i = max_inode_num s + 1)) as [->|Hne]; [done|].
    apply Hsub, Hd. lia. }
  unfold bind at 1. cbn [get_state fst snd]. cbn [s' set_max_inode_num max_inode_num datadir_].
  destruct ((max_inode_num s + 1) mod NUM_FILES_IN_DATADIR =? 0) eqn:E; bool_to_prop.
  - destruct (os_mkdir_spec (dir_path (datadir_ s) (data_bucket (max_inode_num s + 1))) o)
      as (r & o' & Hmk & Hsame & Hin); [by rewrite dirname_dir_path|].
    exists o'. split; [|split; [by apply Hok|done]].
    rewrite bind_assoc. erewrite bind_Ret.
    2: { apply sprintf_Ret. pose proof (length_dir_path (datadir_ s) (data_bucket (max_inode_num s + 1))). lia. }
    rewrite bind_assoc. erewrite bind_Ret by (apply (zoom_Ret snd (fun o s => (s.1, o)) _ (s', o)), Hmk).
    done.
  - exists o. split; [done|]. assert (same_files o o) as Hsame by by repeat split.
    split; [|done]. apply Hok; [done|].
    destruct (bucket_step (max_inode_num s)) as [-> | ?]; [lia|lia| |done]. apply Hd. lia.
Qed.
