(* ===== verification/TableFS.v ===== *)
(** The file system: [src/fs/tablefs.h], [src/fs/tablefs.cpp].

    Every operation of [class TableFS] is a program over the record [tfs], whose
    fields are the components the C++ object points to. Results follow FUSE: 0 or
    a count on success, a negated [errno] on failure. Buffers the caller passes
    by pointer are returned. The log messages of [TABLEFS_DEBUG] builds, the scan
    log and the locks (whose bodies are commented out) have no effect on the
    state. *)

From S2P Require Import Prelude Hashes Coding WriteBatch Inode DCache Cache Kv ICache Posix Properties State.

Set Default Proof Using "Type".

Record tfs_file_handle_t : Type := mkFh {
  fh_handle_ : nat;
  fh_flags_ : Z;
  fh_fd_ : Z
}.

Definition set_fd (fd : Z) (f : tfs_file_handle_t) : tfs_file_handle_t :=
  mkFh (fh_handle_ f) (fh_flags_ f) fd.

(** What the program reads but does not compute. *)
Record environment : Type := mkEnv {
  env_root_stat : Z * Z;            (* [lstat ("/tmp/")]: [st_mode], [st_dev] *)
  env_memory : nat -> nat -> bytes; (* [n] uninitialised bytes of the [i]-th allocation *)
  env_int : Z;                      (* an uninitialised [int] *)
  env_moved : nat -> nat -> bool    (* does [std::string] move when it is resized? *)
}.

Section tablefs.
Context {S It : Type} `{!KvWrapper S It} (env : environment).

Record tfs : Type := mkTfs {
  t_ic : ShardedLRUCache nat * ic_world S;  (* inode_cache, with metadb *)
  t_dc : DentryCache;                       (* dentry_cache *)
  t_st : FileSystemState * os;              (* state_, the operating system *)
  t_fhs : gmap nat tfs_file_handle_t;       (* the file handles [Open] allocated *)
  t_next_fh : nat;
  t_allocs : nat;                           (* allocations of inode buffers so far *)
  flag_fuse_enabled : bool;
  t_context : Z * Z                         (* uid, gid of [fuse_get_context] *)
}.

Definition put_ic (x : ShardedLRUCache nat * ic_world S) (t : tfs) : tfs :=
  mkTfs x (t_dc t) (t_st t) (t_fhs t) (t_next_fh t) (t_allocs t) (flag_fuse_enabled t) (t_context t).
Definition put_dc (x : DentryCache) (t : tfs) : tfs :=
  mkTfs (t_ic t) x (t_st t) (t_fhs t) (t_next_fh t) (t_allocs t) (flag_fuse_enabled t) (t_context t).
Definition put_st (x : FileSystemState * os) (t : tfs) : tfs :=
  mkTfs (t_ic t) (t_dc t) x (t_fhs t) (t_next_fh t) (t_allocs t) (flag_fuse_enabled t) (t_context t).
Definition put_fhs (x : gmap nat tfs_file_handle_t) (t : tfs) : tfs :=
  mkTfs (t_ic t) (t_dc t) (t_st t) x (t_next_fh t) (t_allocs t) (flag_fuse_enabled t) (t_context t).

Abbreviation tfs_prog := (prog tfs).

Definition in_ic {A} (m : prog (ShardedLRUCache nat * ic_world S) A) : tfs_prog A := zoom t_ic put_ic m.
Definition in_dc {A} (m : prog DentryCache A) : tfs_prog A := zoom t_dc put_dc m.
Definition in_st {A} (m : prog (FileSystemState * os) A) : tfs_prog A := zoom t_st put_st m.
Definition in_os {A} (m : prog os A) : tfs_prog A := in_st (on_os m).
Definition metadb {A} (m : prog S A) : tfs_prog A := in_ic (in_world (on_metadb m)).

Definition set_errno (e : Z) : tfs_prog unit := in_os (modify (with_errno e)).
Definition errno : tfs_prog Z := gets (fun t => os_errno (t_st t).2).
Definition GetThreshold : tfs_prog Z := gets (fun t => threshold_ (t_st t).1).

(** [*handle], and assignments to [handle->value_]. *)
Definition handle_at (o : nat) : tfs_prog InodeCacheHandle := in_ic (in_world (get_handle o)).
Definition set_handle_value (o : nat) (v : bytes) : tfs_prog unit :=
  in_ic (in_world (upd_handle o (set_value_ v))).
Definition set_handle_mode (o : nat) (m : InodeAccessMode) : tfs_prog unit :=
  in_ic (in_world (upd_handle o (set_mode_ m))).

(** [reinterpret_cast] of the value reads its first bytes. *)
Definition header_at (v : bytes) : tfs_prog tfs_inode_header :=
  if decide (TFS_INODE_HEADER_SIZE <= length v)%nat then ret (GetInodeHeader v)
  else undefined OutOfBounds.
Definition attribute_at (v : bytes) : tfs_prog tfs_stat_t :=
  if decide (TFS_INODE_ATTR_SIZE <= length v)%nat then ret (GetAttribute v)
  else undefined OutOfBounds.

Definition FSError : tfs_prog Z := e <- errno ;; ret (- e).

(** ** Path lookup *)

(** [strchr (l, '/')]: what is before and after the delimiter. *)
Fixpoint strchr_delim (l : bytes) : option (bytes * bytes) :=
  match l with
  | [] => None
  | b :: l' => if b =? PATH_DELIMITER then Some ([], l')
               else '(a, r) ← strchr_delim l'; Some (b :: a, r)
  end.

(** One component: the inode of [item] in the directory [inode]. *)
Definition lookup_component (key : tfs_meta_key_t) : tfs_prog (option Z) :=
  found <- in_dc (Find key) ;;
  match found with
  | Some ino => ret (Some ino)
  | None =>
      ReadLock key ;;;
      ' (r, result) <- metadb (kv_Get (ToSlice key)) ;;
      if r =? 1 then
        a <- attribute_at result ;;
        in_dc (Insert key (st_ino a)) ;;;
        Unlock key ;;;
        ret (Some (st_ino a))
      else
        set_errno ENOENT ;;;
        Unlock key ;;;
        ret None
  end.

(** The loop of [ParentPathLookup]; [after] is the path from [lpos + 1] on. Each
    round consumes a delimiter, so the length of the path is enough fuel. The
    result is the key, the inode of the last directory and the rest of the path,
    or [None] when a component is missing. *)
Fixpoint ParentPathLookup_loop (fuel : nat) (key : option tfs_meta_key_t) (inode : Z) (after : bytes)
    : tfs_prog (option (option tfs_meta_key_t * Z * bytes)) :=
  match strchr_delim after, fuel with
  | Some (item, after'), Datatypes.S fuel' =>
      let key := BuildMetaKey_path item inode in
      r <- lookup_component key ;;
      match r with
      | Some inode' => ParentPathLookup_loop fuel' (Some key) inode' after'
      | None => ret None
      end
  | _, _ => ret (Some (key, inode, after))
  end.

Definition root_key : tfs_meta_key_t := BuildMetaKey_path [] ROOT_INODE_ID.

Definition ParentPathLookup (path : bytes) : tfs_prog (option (tfs_meta_key_t * Z * bytes)) :=
  match path with
  | [] => undefined OutOfBounds
  | _ :: after =>
      r <- ParentPathLookup_loop (length path) None ROOT_INODE_ID after ;;
      match r with
      | Some (key, inode, rest) => ret (Some (default root_key key, inode, rest))
      | None => ret None
      end
  end.

(** [PathLookup (path, key)] *)
Definition PathLookup (path : bytes) : tfs_prog (option tfs_meta_key_t) :=
  r <- ParentPathLookup path ;;
  match r with
  | Some (key, inode, rest) =>
      ret (Some (match rest with [] => key | _ => BuildMetaKey_path rest inode end))
  | None => set_errno ENOENT ;;; ret None
  end.

(** [PathLookup (path, key, filename)]; without a last component the file name
    is the character at [lpos]. *)
Definition PathLookup_name (path : bytes) : tfs_prog (option (tfs_meta_key_t * bytes)) :=
  r <- ParentPathLookup path ;;
  match r with
  | Some (key, inode, rest) =>
      match rest with
      | [] =>
          let c := match path with
                   | c :: after => match strchr_delim after with
                                   | Some _ => PATH_DELIMITER | None => c end
                   | [] => 0 end in
          ret (Some (key, [c]))
      | _ => ret (Some (BuildMetaKey_path rest inode, rest))
      end
  | None => set_errno ENOENT ;;; ret None
  end.
(** ** Mounting *)

(** The memory of the next [new char[n]]. *)
Definition new_memory (n : nat) : tfs_prog bytes := fun t =>
  Ret (env_memory env (t_allocs t) n)
    (mkTfs (t_ic t) (t_dc t) (t_st t) (t_fhs t) (t_next_fh t) (t_allocs t + 1)
       (flag_fuse_enabled t) (t_context t)).

Definition owner : tfs_prog (option (Z * Z)) :=
  gets (fun t => if flag_fuse_enabled t then Some (t_context t) else None).

(** [InitInodeValue (inum, mode, dev, filename)] *)
Definition NewInodeValue (inum mode dev : Z) (filename : bytes) : tfs_prog bytes :=
  mem <- new_memory (TFS_INODE_HEADER_SIZE + length filename + 1) ;;
  who <- owner ;;
  now <- in_os os_time ;;
  ret (InitInodeValue mem inum mode dev who now filename).

(** [do_monitor]: the thirteen metrics are formatted with the time; the code
    that sent them is commented out. *)
Definition do_monitor : tfs_prog unit :=
  ' (ok, metric) <- metadb kv_GetMetric ;;
  if (ok : bool) then in_os os_time ;;; ret tt else ret tt.

(** One [time (NULL)] for each of the counters [report_get_count] formats. *)
Fixpoint take_times (n : nat) : tfs_prog unit :=
  match n with O => ret tt | Datatypes.S n' => in_os os_time ;;; take_times n' end.

Definition report_get_count : tfs_prog unit :=
  ' (ok, metric) <- metadb (kv_GetStat (str "leveldb.get_count_by_num_files")) ;;
  (if (ok : bool) then take_times 20 else ret tt) ;;;
  ' (ok, metric) <- metadb (kv_GetStat (str "leveldb.false_get_count_by_num_files")) ;;
  if (ok : bool) then take_times 20 else ret tt.

(** [Init (conn)]; [false] for [nullptr]. The monitor thread it starts only
    reads metrics. *)
Definition Init (conn : bool) : tfs_prog bool :=
  modify (fun t => mkTfs (t_ic t) (t_dc t) (t_st t) (t_fhs t) (t_next_fh t) (t_allocs t) conn
                     (t_context t)) ;;;
  r <- metadb kv_Init ;;
  if r <? 0 then ret false else
  st <- gets (fun t => (t_st t).1) ;;
  (if IsEmpty st then
     let key := root_key in
     value <- NewInodeValue ROOT_INODE_ID (env_root_stat env).1 (env_root_stat env).2 [] ;;
     metadb (kv_Put (ToSlice key) value) ;;;
     ret tt
   else ret tt) ;;;
  modify (fun t => put_dc (DentryCache_new (Z.to_nat 16384))
                     (put_ic (InodeCache_new, (t_ic t).2) t)) ;;;
  ret true.

Definition Destroy : tfs_prog unit :=
  do_monitor ;;;
  report_get_count ;;;
  in_ic InodeCache_destroy ;;;
  in_st Destroy_counter ;;;
  metadb kv_Cleanup.

(** ** Attributes *)

Definition GetAttr (path : bytes) : tfs_prog (Z * option tfs_stat_t) :=
  k <- PathLookup path ;;
  match k with
  | None => e <- FSError ;; ret (e, None)
  | Some key =>
      ReadLock key ;;;
      handle <- in_ic (InodeCache_Get key INODE_READ) ;;
      r <- (match handle with
            | Some o =>
                h <- handle_at o ;;
                statbuf <- attribute_at (value_ h) ;;
                in_ic (InodeCache_Release o) ;;;
                ret (0, Some statbuf)
            | None => ret (- ENOENT, None)
            end) ;;
      Unlock key ;;;
      ret r
  end.

(** The body shared by [UpdateTimens], [Chmod] and [Chown]: [UpdateAttribute]
    with a changed copy of the attributes, written back at once. [Chown] returns
    from the middle and leaves the lock held. *)
Definition update_attribute (path : bytes) (unlock : bool) (f : tfs_stat_t -> tfs_stat_t)
    : tfs_prog Z :=
  k <- PathLookup path ;;
  match k with
  | None => FSError
  | Some key =>
      WriteLock key ;;;
      handle <- in_ic (InodeCache_Get key INODE_WRITE) ;;
      match handle with
      | Some o =>
          h <- handle_at o ;;
          value <- attribute_at (value_ h) ;;
          set_handle_value o (UpdateAttribute (value_ h) (f value)) ;;;
          in_ic (InodeCache_WriteBack o) ;;;
          in_ic (InodeCache_Release o) ;;;
          (if unlock then Unlock key else ret tt) ;;;
          ret 0
      | None => Unlock key ;;; ret (- ENOENT)
      end
  end.

Definition UpdateTimens (path : bytes) (atime mtime : Z * Z) : tfs_prog Z :=
  update_attribute path true (set_st_times atime.1 atime.2 mtime.1 mtime.2).

Definition Chmod (path : bytes) (mode : Z) : tfs_prog Z :=
  update_attribute path true (set_st_mode mode).

Definition Chown (path : bytes) (uid gid : Z) : tfs_prog Z :=
  update_attribute path false (set_st_owner uid gid).

Definition Access (path : bytes) (mask : Z) : tfs_prog Z := ret 0.

(** ** Data files *)

Definition disk_path_of (inode_id : Z) : tfs_prog bytes :=
  st <- gets (fun t => (t_st t).1) ;;
  sprintf 128 (disk_path (datadir_ st) inode_id).

Definition OpenDiskFile (iheader : tfs_inode_header) (flags : Z) : tfs_prog Z :=
  fpath <- disk_path_of (st_ino (fstat iheader)) ;;
  fd <- in_os (os_open fpath (Z.lor flags O_CREAT)) ;;
  if fd =? -1 then exit (-1) else ret fd.

Definition TruncateDiskFile (inode_id new_size : Z) : tfs_prog Z :=
  fpath <- disk_path_of inode_id ;;
  in_os (os_truncate fpath new_size).

(** The buffer holds what was there before, overwritten by what was read. *)
Definition MigrateDiskFileToBuffer (inode_id : Z) (buffer : bytes) : tfs_prog bytes :=
  fpath <- disk_path_of inode_id ;;
  fd <- in_os (os_open fpath O_RDONLY) ;;
  ' (r, data) <- in_os (os_pread fd (Z.of_nat (length buffer)) 0) ;;
  in_os (os_close fd) ;;;
  in_os (os_unlink fpath) ;;;
  ret (data ++ drop (length data) buffer).

(** [MigrateToDiskFile (handle, fd, flags)]: the result and the new [fd]. *)
Definition MigrateToDiskFile (o : nat) (fd flags : Z) : tfs_prog (Z * Z) :=
  h <- handle_at o ;;
  iheader <- header_at (value_ h) ;;
  (if fd >=? 0 then in_os (os_close fd) ;;; ret tt else ret tt) ;;;
  fd <- OpenDiskFile iheader flags ;;
  if fd <? 0 then e <- errno ;; ret (- e, -1) else
  if st_size (fstat iheader) >? 0 then
    let start := Z.to_nat (inline_start (value_ h)) in
    let n := Z.to_nat (st_size (fstat iheader)) in
    if decide (length (value_ h) < start + n)%nat then undefined OutOfBounds else
    r <- in_os (os_pwrite fd (slice start n (value_ h)) 0) ;;
    e <- errno ;;
    set_handle_value o (DropInlineData (value_ h)) ;;;
    ret (if r =? st_size (fstat iheader) then 0 else - e, fd)
  else ret (0, fd).
(** ** Open files *)

Definition file_handle (fh : nat) : tfs_prog tfs_file_handle_t :=
  f <- gets (fun t => t_fhs t !! fh) ;; deref UseAfterFree f.

Definition set_file_handle (fh : nat) (f : tfs_file_handle_t) : tfs_prog unit :=
  modify (fun t => put_fhs (<[fh := f]> (t_fhs t)) t).

Definition new_file_handle (f : tfs_file_handle_t) : tfs_prog nat := fun t =>
  Ret (t_next_fh t)
    (mkTfs (t_ic t) (t_dc t) (t_st t) (<[t_next_fh t := f]> (t_fhs t)) (t_next_fh t + 1) (t_allocs t)
       (flag_fuse_enabled t) (t_context t)).

(** [Open (path, fi)]: the result and, on success, [fi->fh]. *)
Definition Open (path : bytes) (flags : Z) : tfs_prog (Z * option nat) :=
  k <- PathLookup path ;;
  match k with
  | None => e <- FSError ;; ret (e, None)
  | Some key =>
      WriteLock key ;;;
      let mode := if (Z.land flags O_RDWR >? 0) || (Z.land flags O_WRONLY >? 0) ||
                     (Z.land flags O_TRUNC >? 0) then INODE_WRITE else INODE_READ in
      handle <- in_ic (InodeCache_Get key mode) ;;
      r <- (match handle with
            | Some o =>
                h <- handle_at o ;;
                iheader <- header_at (value_ h) ;;
                fd <- (if has_blob iheader >? 0 then OpenDiskFile iheader flags else ret (-1)) ;;
                if (has_blob iheader >? 0) && (fd <? 0) then
                  in_ic (InodeCache_Release o) ;;;
                  e <- errno ;; ret (- e, None)
                else
                  fh <- new_file_handle (mkFh o flags fd) ;;
                  ret (0, Some fh)
            | None => ret (- ENOENT, None)
            end) ;;
      Unlock key ;;;
      ret r
  end%bool.

(** The descriptor of a file whose data are on disk, opened on first use. *)
Definition disk_fd (fh : nat) (f : tfs_file_handle_t) (iheader : tfs_inode_header) : tfs_prog Z :=
  if fh_fd_ f <? 0 then
    fd <- OpenDiskFile iheader (fh_flags_ f) ;;
    set_file_handle fh (set_fd fd f) ;;;
    ret fd
  else ret (fh_fd_ f).

(** [Read (path, buf, size, offset, fi)]: the result and the bytes of [buf]. *)
Definition Read (fh : nat) (size offset : Z) : tfs_prog (Z * bytes) :=
  f <- file_handle fh ;;
  h <- handle_at (fh_handle_ f) ;;
  ReadLock (key_ h) ;;;
  iheader <- header_at (value_ h) ;;
  r <- (if has_blob iheader >? 0 then
          fd <- disk_fd fh f iheader ;;
          if fd >=? 0 then ' (n, data) <- in_os (os_pread fd size offset) ;; ret (i32 n, data)
          else ret (- EBADF, [])
        else
          let data := GetInlineData (value_ h) offset size in
          ret (i32 (Z.of_nat (length data)), data)) ;;
  Unlock (key_ h) ;;;
  ret r.

(** [Write (path, buf, size, offset, fi)] with [size] the length of [buf]. *)
Definition Write (fh : nat) (buf : bytes) (offset flags : Z) : tfs_prog Z :=
  f <- file_handle fh ;;
  let o := fh_handle_ f in
  set_handle_mode o INODE_WRITE ;;;
  h <- handle_at o ;;
  ReadLock (key_ h) ;;;
  iheader <- header_at (value_ h) ;;
  threshold <- GetThreshold ;;
  let end_ := u64 (offset + Z.of_nat (length buf)) in
  let has_larger_size := u64 (st_size (fstat iheader)) <? end_ in
  ' (r, has_imgrated) <-
    (if has_blob iheader >? 0 then
       fd <- disk_fd fh f iheader ;;
       if fd >=? 0 then r <- in_os (os_pwrite fd buf offset) ;; ret (i32 r, false)
       else ret (- EBADF, false)
     else if end_ >? u64 threshold then
       ' (r, fd) <- MigrateToDiskFile o (fh_fd_ f) flags ;;
       set_file_handle fh (set_fd fd f) ;;;
       if r =? 0 then
         h <- handle_at o ;;
         new_iheader <- header_at (value_ h) ;;
         set_handle_value o (UpdateInodeHeader (value_ h)
           (set_has_blob 1 (set_fstat (set_st_size (i64 end_) (fstat new_iheader)) new_iheader))) ;;;
         r <- in_os (os_pwrite fd buf offset) ;;
         ret (i32 r, true)
       else ret (r, false)
     else
       set_handle_value o (UpdateInlineData (value_ h) buf offset) ;;;
       ret (i32 (Z.of_nat (length buf)), false)) ;;
  (if (r >=? 0) && has_larger_size && negb has_imgrated then
     h <- handle_at o ;;
     new_iheader <- header_at (value_ h) ;;
     set_handle_value o (UpdateInodeHeader (value_ h)
       (set_fstat (set_st_size (i64 end_) (fstat new_iheader)) new_iheader))
   else ret tt) ;;;
  Unlock (key_ h) ;;;
  ret r.

Definition Fsync (fh : nat) (datasync : Z) : tfs_prog Z :=
  f <- file_handle fh ;;
  h <- handle_at (fh_handle_ f) ;;
  WriteLock (key_ h) ;;;
  iheader <- header_at (value_ h) ;;
  r <- (if decide (mode_ h = INODE_WRITE) then
          r <- (if has_blob iheader >? 0 then in_os (os_fsync (fh_fd_ f)) else ret 0) ;;
          if datasync =? 0 then metadb kv_Sync else ret r
        else ret 0) ;;
  Unlock (key_ h) ;;;
  ret (- r).

Definition Release (fh : nat) : tfs_prog Z :=
  f <- file_handle fh ;;
  let o := fh_handle_ f in
  h <- handle_at o ;;
  WriteLock (key_ h) ;;;
  (if decide (mode_ h = INODE_WRITE) then
     value <- attribute_at (value_ h) ;;
     atime <- in_os os_time ;;
     mtime <- in_os os_time ;;
     set_handle_value o (UpdateAttribute (value_ h) (set_st_times atime 0 mtime 0 value))
   else ret tt) ;;;
  r <- (if negb (fh_fd_ f =? -1) then in_os (os_close (fh_fd_ f)) else ret 0) ;;
  in_ic (InodeCache_WriteBack o) ;;;
  h <- handle_at o ;;
  let key := key_ h in
  in_ic (InodeCache_Release o) ;;;
  in_ic (InodeCache_Evict key) ;;;
  modify (fun t => put_fhs (delete fh (t_fhs t)) t) ;;;
  Unlock key ;;;
  if negb (r =? 0) then e <- errno ;; ret (- e) else ret 0.

(** Reading the header through a pointer taken before the string was resized
    from [old] to [new] bytes. *)
Definition stale_header (old new : nat) (iheader : tfs_inode_header) : tfs_prog tfs_inode_header :=
  if env_moved env old new then undefined UseAfterFree else ret iheader.

Definition Truncate (path : bytes) (new_size : Z) : tfs_prog Z :=
  k <- PathLookup path ;;
  match k with
  | None => FSError
  | Some key =>
      handle <- in_ic (InodeCache_Get key INODE_WRITE) ;;
      WriteLock key ;;;
      r <- (match handle with
            | Some o =>
                h <- handle_at o ;;
                iheader <- header_at (value_ h) ;;
                threshold <- GetThreshold ;;
                r <- (if has_blob iheader >? 0 then
                        if new_size >? threshold then
                          TruncateDiskFile (st_ino (fstat iheader)) new_size ;;; ret 0
                        else if new_size <? 0 then undefined OutOfBounds
                        else
                          buffer <- new_memory (Z.to_nat new_size) ;;
                          data <- MigrateDiskFileToBuffer (st_ino (fstat iheader)) buffer ;;
                          set_handle_value o (UpdateInlineData (value_ h) data 0) ;;; ret 0
                      else
                        if new_size >? threshold then
                          ' (m, fd) <- MigrateToDiskFile o (env_int env) (Z.lor O_TRUNC O_WRONLY) ;;
                          if m =? 0 then
                            r <- in_os (os_ftruncate fd new_size) ;;
                            (if r =? 0 then in_os (os_fsync fd) ;;; ret tt else ret tt) ;;;
                            in_os (os_close fd) ;;;
                            ret r
                          else ret 0
                        else
                          set_handle_value o (TruncateInlineData (value_ h) new_size) ;;; ret 0) ;;
                h' <- handle_at o ;;
                (* [iheader] still points into the string as it was *)
                iheader <- stale_header (length (value_ h)) (length (value_ h')) iheader ;;
                (if negb (new_size =? st_size (fstat iheader)) then
                   new_iheader <- header_at (value_ h') ;;
                   set_handle_value o (UpdateInodeHeader (value_ h')
                     (set_has_blob (if new_size >? threshold then 1 else 0)
                        (set_fstat (set_st_size new_size (fstat new_iheader)) new_iheader)))
                 else ret tt) ;;;
                in_ic (InodeCache_WriteBack o) ;;;
                in_ic (InodeCache_Release o) ;;;
                ret r
            | None => ret (- ENOENT)
            end) ;;
      Unlock key ;;;
      ret r
  end.
(** ** Symbolic links *)

(** [Readlink (path, buf, size)]: the result and the string left in [buf]. *)
Definition Readlink (path : bytes) (size : Z) : tfs_prog (Z * option bytes) :=
  k <- PathLookup path ;;
  match k with
  | None => e <- FSError ;; ret (e, None)
  | Some key =>
      ReadLock key ;;;
      ' (r, result) <- metadb (kv_Get (ToSlice key)) ;;
      if r >? 0 then
        header_at result ;;;
        let data := GetInlineData result 0 (u64 (size - 1)) in
        Unlock key ;;;
        if decide (size <= Z.of_nat (length data)) then undefined OutOfBounds else
        ret (0, Some (c_str data))
      else
        set_errno ENOENT ;;;
        Unlock key ;;;
        e <- FSError ;; ret (e, None)
  end.

Definition Symlink (target path : bytes) : tfs_prog Z :=
  k <- PathLookup_name path ;;
  match k with
  | None => FSError
  | Some (key, filename) =>
      mem <- new_memory (TFS_INODE_HEADER_SIZE + length filename + 1 + length target) ;;
      inum <- in_st NewInode ;;
      who <- owner ;;
      now <- in_os os_time ;;
      WriteLock key ;;;
      metadb (kv_Put (ToSlice key) (SymlinkValue mem inum who now filename target)) ;;;
      Unlock key ;;;
      ret 0
  end.

(** ** Creating and removing entries *)

Definition Unlink (path : bytes) : tfs_prog Z :=
  k <- PathLookup path ;;
  match k with
  | None => FSError
  | Some key =>
      WriteLock key ;;;
      handle <- in_ic (InodeCache_Get key INODE_DELETE) ;;
      r <- (match handle with
            | Some o =>
                h <- handle_at o ;;
                value <- header_at (value_ h) ;;
                threshold <- GetThreshold ;;
                (if st_size (fstat value) >? threshold then
                   fpath <- disk_path_of (st_ino (fstat value)) ;;
                   in_os (os_unlink fpath) ;;; ret tt
                 else ret tt) ;;;
                in_dc (Evict key) ;;;
                in_ic (InodeCache_Release o) ;;;
                in_ic (InodeCache_Evict key) ;;;
                ret 0
            | None => ret (- ENOENT)
            end) ;;
      Unlock key ;;;
      ret r
  end.

(** [MakeNode] and [MakeDir] from the path lookup on. *)
Definition make_inode (path : bytes) (mode dev : Z) : tfs_prog Z :=
  k <- PathLookup_name path ;;
  match k with
  | None => FSError
  | Some (key, filename) =>
      inum <- in_st NewInode ;;
      value <- NewInodeValue inum mode dev filename ;;
      WriteLock key ;;;
      r <- metadb (kv_Put (ToSlice key) value) ;;
      Unlock key ;;;
      if r =? 0 then ret 0 else set_errno ENOENT ;;; FSError
  end.

Definition MakeNode (path : bytes) (mode dev : Z) : tfs_prog Z :=
  make_inode path (Z.lor mode S_IFREG) dev.

Definition MakeDir (path : bytes) (mode : Z) : tfs_prog Z :=
  make_inode path (Z.lor mode S_IFDIR) 0.

Definition RemoveDir (path : bytes) : tfs_prog Z :=
  k <- PathLookup path ;;
  match k with
  | None => FSError
  | Some key =>
      WriteLock key ;;;
      handle <- in_ic (InodeCache_Get key INODE_DELETE) ;;
      r <- (match handle with
            | Some o =>
                in_dc (Evict key) ;;;
                in_ic (InodeCache_Release o) ;;;
                in_ic (InodeCache_Evict key) ;;;
                ret 0
            | None => ret (- ENOENT)
            end) ;;
      Unlock key ;;;
      ret r
  end.

(** The order in which [Rename] takes its two locks. *)
Definition lock_order (old_key new_key : tfs_meta_key_t) : tfs_meta_key_t * tfs_meta_key_t :=
  if (inode_id old_key >? inode_id new_key) ||
     ((inode_id old_key =? inode_id new_key) && (hash_id old_key >? hash_id new_key))
  then (old_key, new_key) else (new_key, old_key).

Definition Rename (old_path new_path : bytes) : tfs_prog Z :=
  k <- PathLookup old_path ;;
  match k with
  | None => FSError
  | Some old_key =>
      k <- PathLookup_name new_path ;;
      match k with
      | None => FSError
      | Some (new_key, filename) =>
          let '(large_key, small_key) := lock_order old_key new_key in
          WriteLock large_key ;;;
          WriteLock small_key ;;;
          old_handle <- in_ic (InodeCache_Get old_key INODE_DELETE) ;;
          r <- (match old_handle with
                | Some o =>
                    h <- handle_at o ;;
                    header_at (value_ h) ;;;
                    let new_value := RenameInodeValue (value_ h) filename in
                    n <- in_ic (InodeCache_Insert new_key new_value) ;;
                    in_ic (InodeCache_BatchCommit o n) ;;;
                    in_ic (InodeCache_Release n) ;;;
                    in_ic (InodeCache_Release o) ;;;
                    in_ic (InodeCache_Evict old_key) ;;;
                    in_dc (Evict old_key) ;;;
                    in_dc (Evict new_key) ;;;
                    ret 0
                | None => ret (- ENOENT)
                end) ;;
          Unlock small_key ;;;
          Unlock large_key ;;;
          ret r
      end
  end.

(** ** Directories *)

Definition OpenDir (path : bytes) : tfs_prog (Z * option nat) :=
  k <- PathLookup path ;;
  match k with
  | None => e <- FSError ;; ret (e, None)
  | Some key =>
      ReadLock key ;;;
      handle <- in_ic (InodeCache_Get key INODE_READ) ;;
      match handle with
      | Some o => Unlock key ;;; ret (0, Some o)
      | None => Unlock key ;;; e <- FSError ;; ret (e, None)
      end
  end.

(** The C string at [iter->value().data() + TFS_INODE_HEADER_SIZE]. *)
Definition name_at (value : bytes) : tfs_prog bytes :=
  let buffer := drop TFS_INODE_HEADER_SIZE value in
  if decide (0 ∈ buffer) then ret (c_str buffer) else undefined OutOfBounds.

(** The loop of [ReadDir]. [filler] is the caller's callback, a program over the
    caller's state [X], of which the file system is a part ([lift]); the result
    also lists the names it was given. A store of [n] entries needs [n] rounds. *)
Fixpoint ReadDir_loop {X} (lift : forall A, tfs_prog A -> prog X A) (fuel : nat)
    (filler : bytes -> prog X Z) (childkey : tfs_meta_key_t) (it : It) (names : list bytes)
    : prog X (option (Z * list bytes)) :=
  match fuel with
  | O => ret None
  | Datatypes.S fuel' =>
      valid <- lift _ (metadb (it_Valid it)) ;;
      if negb valid then ret (Some (0, names)) else
      key <- lift _ (metadb (it_key it)) ;;
      if decide (length key < 8)%nat then undefined OutOfBounds else
      if negb (IsKeyInDir key childkey) then ret (Some (0, names)) else
      if decide (length key < 16)%nat then undefined OutOfBounds else
      value <- lift _ (metadb (it_value it)) ;;
      name <- lift _ (name_at value) ;;
      match name with
      | [] =>
          it <- lift _ (metadb (it_Next it)) ;;
          ReadDir_loop lift fuel' filler childkey it names
      | _ =>
          let names := names ++ [name] in
          r <- filler name ;;
          if r <? 0 then ret (Some (-1, names)) else
          it <- lift _ (metadb (it_Next it)) ;;
          ReadDir_loop lift fuel' filler childkey it names
      end
  end.

Definition ReadDir {X} (lift : forall A, tfs_prog A -> prog X A) (fuel : nat)
    (filler : bytes -> prog X Z) (o : nat) : prog X (option (Z * list bytes)) :=
  phandle <- lift _ (handle_at o) ;;
  a <- lift _ (attribute_at (value_ phandle)) ;;
  let child_inumber := st_ino a in
  let childkey := BuildMetaKey child_inumber (if child_inumber =? ROOT_INODE_ID then 1 else 0) in
  it <- lift _ (metadb kv_NewIterator) ;;
  r <- filler (str ".") ;;
  if r <? 0 then e <- lift _ FSError ;; ret (Some (e, [str "."])) else
  r <- filler (str "..") ;;
  if r <? 0 then e <- lift _ FSError ;; ret (Some (e, [str "."; str ".."])) else
  it <- lift _ (metadb (it_Seek it (ToSlice childkey))) ;;
  ReadDir_loop lift fuel filler childkey it [str "."; str ".."].

Definition ReleaseDir (o : nat) : tfs_prog Z :=
  h <- handle_at o ;;
  in_ic (InodeCache_Release o) ;;;
  ret 0.

Definition GetStat (stat : bytes) : tfs_prog (bool * bytes) := metadb (kv_GetStat stat).

Definition Compact : tfs_prog unit := ret tt.
End tablefs.

Arguments tfs : clear implicits.
