(* ===== verification/FsInv.v ===== *)
(** The abstract file system and the invariant that ties the state of [TableFS]
    to it.

    The abstract state is the table [T] from (directory inode, name hash) keys to
    inode values; [PO] counts the references open files and directories hold on
    cached inodes. [FS T PO t] says that the state [t] implements [T]. *)

From S2P Require Import Prelude Hashes Coding WriteBatch Inode DCache Cache Kv ICache Posix Properties State TableFS.

Set Default Proof Using "Type".

Abbreviation table := (gmap tfs_meta_key_t bytes).

(** * Path resolution on the abstract table *)

Definition ino_of (v : option bytes) : option Z := (fun x => st_ino (GetAttribute x)) <$> v.

Fixpoint resolve_loop (fuel : nat) (T : table) (key : option tfs_meta_key_t) (inode : Z)
    (after : bytes) : option (option tfs_meta_key_t * Z * bytes) :=
  match strchr_delim after, fuel with
  | Some (item, after'), S fuel' =>
      let key := BuildMetaKey_path item inode in
      inode' ← ino_of (T !! key);
      resolve_loop fuel' T (Some key) inode' after'
  | _, _ => Some (key, inode, after)
  end.

Definition resolve_parent (T : table) (path : bytes) : option (tfs_meta_key_t * Z * bytes) :=
  match path with
  | [] => None
  | _ :: after =>
      '(key, inode, rest) ← resolve_loop (length path) T None ROOT_INODE_ID after;
      Some (default root_key key, inode, rest)
  end.

(** The key a path names: its last component in the directory the others lead
    to. *)
Definition resolve (T : table) (path : bytes) : option tfs_meta_key_t :=
  '(key, inode, rest) ← resolve_parent T path;
  Some (match rest with [] => key | _ => BuildMetaKey_path rest inode end).

(** The file name a new entry gets: the last component, or the character the path
    ends with. *)
Definition file_name (path rest : bytes) : bytes :=
  match rest with
  | [] => match path with
          | c :: after => match strchr_delim after with Some _ => [PATH_DELIMITER] | None => [c] end
          | [] => [0]
          end
  | _ => rest
  end.

Definition resolve_name (T : table) (path : bytes) : option (tfs_meta_key_t * bytes) :=
  '(key, inode, rest) ← resolve_parent T path;
  Some (match rest with [] => key | _ => BuildMetaKey_path rest inode end, file_name path rest).

(** The inode value a path names. *)
Definition lookup_path (T : table) (path : bytes) : option bytes :=
  k ← resolve T path; T !! k.

(** * Well-formed inode values *)

Definition wf_inode (v : bytes) : Prop :=
  exists h name data, v = mk_value h name data /\ value_wf h name.

Lemma wf_inode_length v : wf_inode v -> (257 <= length v)%nat.
Proof. intros (h & name & data & -> & Hwf). rewrite (length_mk h name Hwf). lia. Qed.

Lemma wf_inode_ino v : wf_inode v -> 0 <= st_ino (GetAttribute v) < 2 ^ 64.
Proof.
  intros (h & name & data & -> & Hwf). rewrite (GetAttribute_mk h name Hwf).
  destruct Hwf as [(Hs & _) _]. unfold stat_ok, stat_fields, stat_layout in Hs.
  do 2 (apply Forall2_cons_1 in Hs as [? Hs]). unfold field_ok, U64 in *. simpl in *. lia.
Qed.

Lemma str_ok_mk h h' name data :
  value_wf h name -> header_ok h' -> str_ok (mk_value h name data) -> str_ok (mk_value h' name data).
Proof.
  intros Hwf Hh' [Hb Hl]. unfold mk_value in *. apply Forall_app in Hb as [_ Hb]. split.
  - apply Forall_app. split; [|done]. apply header_bytes_ok, Hh'.
  - rewrite length_app, length_header_bytes in * by (apply Hh' || apply Hwf). done.
Qed.

Lemma wf_UpdateAttribute v s :
  wf_inode v -> stat_ok s -> str_ok v ->
  wf_inode (UpdateAttribute v s) /\ str_ok (UpdateAttribute v s) /\ GetAttribute (UpdateAttribute v s) = s.
Proof.
  intros (h & name & data & -> & Hwf) Hs Hv. rewrite UpdateAttribute_mk.
  pose proof (value_wf_fstat s h name Hs Hwf) as Hwf'.
  split; [by exists (set_fstat s h), name, data|]. split.
  - apply (str_ok_mk h); [done|apply Hwf'|done].
  - by rewrite (GetAttribute_mk _ name Hwf').
Qed.

Lemma wf_inode_stat v : wf_inode v -> stat_ok (GetAttribute v).
Proof. intros (h & name & data & -> & Hwf). rewrite (GetAttribute_mk h name Hwf). apply Hwf. Qed.

(** * The invariant *)

Section invariant.
Context {S It : Type} `{!KvWrapper S It, !KvSpec S It}.
Implicit Types (T : table) (PO : nat -> Z) (t : tfs S) (m : gmap bytes bytes).

Definition handles t : gmap nat InodeCacheHandle := w_handles (t_ic t).2.

(** The store and the table agree on the inode number of every key, which is what
    path lookup reads from the store. *)
Record store_ok m T : Prop := {
  so_ino : forall k, key_ok k -> ino_of (m !! ToSlice k) = ino_of (T !! k);
  so_store : forall k v, key_ok k -> m !! ToSlice k = Some v -> wf_inode v;
  so_table : forall k v, T !! k = Some v -> wf_inode v;
  so_keys : forall b v, m !! b = Some v -> exists k, key_ok k /\ b = ToSlice k
}.

Record dcache_ok T (dc : DentryCache) : Prop := {
  dk_inv : dc_inv dc;
  dk_true : forall k i, dc_view dc k = Some i -> ino_of (T !! k) = Some i
}.

(** Inode numbers come from the counter, and no two entries share one. *)
Definition inos_ok T (n : Z) : Prop :=
  forall k v, T !! k = Some v -> 0 <= st_ino (GetAttribute v) <= n /\
    forall k' v', T !! k' = Some v' -> st_ino (GetAttribute v') = st_ino (GetAttribute v) -> k' = k.

Record FS T PO t : Prop := {
  fs_ic : exists m, IC m T PO (t_ic t) /\ store_ok m T;
  fs_dc : dcache_ok T (t_dc t);
  fs_settled : settled PO (handles t);
  fs_tabled : forall o h, handles t !! o = Some h -> in_table (t_ic t) h /\ mode_ h <> INODE_DELETE;
  fs_dirs : dirs_ok (t_st t).1 (t_st t).2 /\ inos_ok T (max_inode_num (t_st t).1)
}.

(** Loading an inode does not push out one that is in use. *)
Definition room PO t (k : tfs_meta_key_t) : Prop := ic_safe PO (t_ic t).1 k.

Lemma key_ok_path item inode : 0 <= inode < 2 ^ 64 -> key_ok (BuildMetaKey_path item inode).
Proof. intros H. split; [done|]. apply murmur64_range. Qed.

Lemma root_key_ok : key_ok root_key.
Proof. apply key_ok_path. unfold ROOT_INODE_ID. lia. Qed.

(** What path lookup leaves alone. *)
Record same_but_dc t t' : Prop := {
  sd_cache : (t_ic t').1 = (t_ic t).1;
  sd_handles : handles t' = handles t;
  sd_next : w_next (t_ic t').2 = w_next (t_ic t).2;
  sd_fss : (t_st t').1 = (t_st t).1;
  sd_os : same_files (t_st t).2 (t_st t').2;
  sd_fhs : t_fhs t' = t_fhs t;
  sd_next_fh : t_next_fh t' = t_next_fh t;
  sd_allocs : t_allocs t' = t_allocs t;
  sd_fuse : flag_fuse_enabled t' = flag_fuse_enabled t;
  sd_context : t_context t' = t_context t
}.

Lemma same_files_refl o : same_files o o.
Proof. by repeat split. Qed.

Lemma same_files_trans o1 o2 o3 : same_files o1 o2 -> same_files o2 o3 -> same_files o1 o3.
Proof.
  intros (? & ? & ? & ? & ? & ?) (? & ? & ? & ? & ? & ?).
  repeat split; try congruence. by etrans.
Qed.

Lemma same_but_dc_refl t : same_but_dc t t.
Proof. split; try done. Qed.

Lemma same_but_dc_trans t1 t2 t3 : same_but_dc t1 t2 -> same_but_dc t2 t3 -> same_but_dc t1 t3.
Proof.
  intros [] []. split; try congruence. by eapply same_files_trans.
Qed.

Lemma room_same PO t t' k : same_but_dc t t' -> room PO t k -> room PO t' k.
Proof. intros [E _ _ _ _ _ _ _ _ _]. unfold room. by rewrite E. Qed.

Lemma dirs_ok_same s o o' : same_files o o' -> dirs_ok s o -> dirs_ok s o'.
Proof. intros (_ & _ & _ & _ & _ & Hs) [? ? ? ?]. split; auto. Qed.

(** *** Running programs on the components *)

Lemma in_ic_Ret {A} (p : prog _ A) t a x : p (t_ic t) = Ret a x -> in_ic p t = Ret a (put_ic x t).
Proof. apply zoom_Ret. Qed.

Lemma in_dc_Ret {A} (p : prog _ A) t a x : p (t_dc t) = Ret a x -> in_dc p t = Ret a (put_dc x t).
Proof. apply zoom_Ret. Qed.

Lemma in_st_Ret {A} (p : prog _ A) t a x : p (t_st t) = Ret a x -> in_st p t = Ret a (put_st x t).
Proof. apply zoom_Ret. Qed.

Lemma in_os_Ret {A} (p : prog os A) t a x :
  p (t_st t).2 = Ret a x -> in_os p t = Ret a (put_st ((t_st t).1, x) t).
Proof. intros E. apply in_st_Ret. unfold on_os. by rewrite (zoom_Ret snd _ p (t_st t) a x E). Qed.

Lemma in_metadb_Ret {A} (p : prog S A) t a s :
  p (w_metadb (t_ic t).2) = Ret a s ->
  metadb p t = Ret a (put_ic ((t_ic t).1, put_metadb s (t_ic t).2) t).
Proof.
  intros E. apply in_ic_Ret. unfold in_world. rewrite (zoom_Ret snd _ _ (t_ic t) a (put_metadb s (t_ic t).2)); [done|].
  by apply metadb_Ret.
Qed.

Lemma handle_at_Ret t o h : handles t !! o = Some h -> handle_at o t = Ret h t.
Proof.
  intros E. unfold handle_at. rewrite (in_ic_Ret _ _ h (t_ic t)).
  - by destruct t.
  - unfold in_world. rewrite (zoom_Ret snd _ _ (t_ic t) h (t_ic t).2); [by destruct (t_ic t)|].
    by apply get_handle_Ret.
Qed.

Lemma attribute_at_Ret v t : wf_inode v -> attribute_at v t = Ret (GetAttribute v) t.
Proof.
  intros Hv%wf_inode_length. unfold attribute_at. rewrite decide_True; [done|].
  unfold TFS_INODE_ATTR_SIZE. lia.
Qed.

Lemma header_at_Ret v t : wf_inode v -> header_at v t = Ret (GetInodeHeader v) t.
Proof.
  intros Hv%wf_inode_length. unfold header_at. rewrite decide_True; [done|].
  unfold TFS_INODE_HEADER_SIZE. lia.
Qed.
(** *** Path lookup *)

Lemma IC_put_metadb m T PO C w s' : kv_rep s' m -> IC m T PO (C, w) -> IC m T PO (C, put_metadb s' w).
Proof. intros Hs [Hr Hc HV]. by split. Qed.

(** Only the store's own bookkeeping and the dentry cache change. *)
Lemma FS_lookup T PO t m s' dc' o' :
  FS T PO t -> IC m T PO (t_ic t) -> store_ok m T -> kv_rep s' m -> dcache_ok T dc' ->
  same_files (t_st t).2 o' ->
  let t' := put_st ((t_st t).1, o') (put_dc dc' (put_ic ((t_ic t).1, put_metadb s' (t_ic t).2) t)) in
  FS T PO t' /\ same_but_dc t t'.
Proof.
  intros [_ Hdc Hset Htab Hdirs] HI Hso Hs Hdc' Ho. split.
  - split; cbn; [|done|done|done|split; [eapply dirs_ok_same; [done|]|]; apply Hdirs].
    exists m. split; [|done]. apply IC_put_metadb; [done|]. by destruct (t_ic t).
  - by split.
Qed.

Lemma lookup_component_spec T PO t k :
  FS T PO t -> key_ok k ->
  exists t', lookup_component k t = Ret (ino_of (T !! k)) t' /\ FS T PO t' /\ same_but_dc t t' /\
    (ino_of (T !! k) = None -> os_errno (t_st t').2 = ENOENT).
Proof.
  intros HFS Hk. pose proof HFS as [(m & HI & Hso) [Hinv Htrue] Hset Htab Hdirs].
  destruct (Find_inv _ k Hinv) as (dc' & Hfind & Hinv' & Hview & _).
  assert (dcache_ok T dc') as Hdc' by (split; [done|intros k' i; rewrite Hview; apply Htrue]).
  pose proof HI as [Hrep _ _].
  unfold lookup_component. erewrite bind_Ret by (apply in_dc_Ret, Hfind).
  destruct (dc_view (t_dc t) k) as [i|] eqn:Hv.
  - rewrite (Htrue _ _ Hv). eexists. split; [reflexivity|].
    destruct (FS_lookup T PO t m (w_metadb (t_ic t).2) dc' (t_st t).2 HFS HI Hso Hrep Hdc'
      (same_files_refl _)) as [HF HS].
    assert (put_dc dc' t = put_st ((t_st t).1, (t_st t).2) (put_dc dc'
      (put_ic ((t_ic t).1, put_metadb (w_metadb (t_ic t).2) (t_ic t).2) t))) as ->.
    { destruct t as [[C []] ? [] ? ? ? ? ?]. done. }
    done.
  - rewrite bind_ReadLock.
    rewrite <- (so_ino _ _ Hso k Hk). destruct (m !! ToSlice k) as [v|] eqn:Em; cbn [ino_of fmap option_fmap option_map].
    + destruct (kv_Get_hit _ _ _ _ Hrep (kv_key_ToSlice k) Em) as (s' & Hg & Hrep').
      erewrite bind_Ret by (apply in_metadb_Ret; exact Hg). cbv iota.
      change (1 =? 1) with true. cbv iota.
      pose proof (so_store _ _ Hso _ _ Hk Em) as Hwf.
      erewrite bind_Ret by by apply attribute_at_Ret.
      destruct (Insert_inv dc' k (st_ino (GetAttribute v)) Hinv') as (dc2 & Hins & Hinv2 & _ & Hback & _).
      erewrite bind_Ret by (apply in_dc_Ret; exact Hins). rewrite bind_Unlock.
      eexists. split; [reflexivity|].
      assert (dcache_ok T dc2) as Hdc2.
      { split; [done|]. intros k' i [[-> ->]|[_ Hi]]%Hback.
        - rewrite <- (so_ino _ _ Hso k Hk), Em. done.
        - apply Hdc', Hi. }
      destruct (FS_lookup T PO t m s' dc2 (t_st t).2 HFS HI Hso Hrep' Hdc2 (same_files_refl _)) as [HF HS].
      assert (put_dc dc2 (put_ic ((t_ic (put_dc dc' t)).1, put_metadb s' (t_ic (put_dc dc' t)).2) (put_dc dc' t))
        = put_st ((t_st t).1, (t_st t).2) (put_dc dc2 (put_ic ((t_ic t).1, put_metadb s' (t_ic t).2) t))) as ->.
      { destruct t as [[C []] ? [] ? ? ? ? ?]. done. }
      done.
    + destruct (kv_Get_miss _ _ _ Hrep (kv_key_ToSlice k) Em) as (r & junk & s' & Hg & Hr & Hrep').
      erewrite bind_Ret by (apply in_metadb_Ret; exact Hg). cbv iota.
      replace (r =? 1) with false by (symmetry; apply Z.eqb_neq; lia). cbv iota.
      erewrite bind_Ret by (apply in_os_Ret; reflexivity). rewrite bind_Unlock.
      eexists. split; [reflexivity|].
      destruct (FS_lookup T PO t m s' dc' (with_errno ENOENT (t_st t).2) HFS HI Hso Hrep' Hdc') as [HF HS].
      { by repeat split. }
      assert (forall X Y : tfs S, X = Y -> FS T PO Y /\ same_but_dc t Y ->
        os_errno (t_st Y).2 = ENOENT -> FS T PO X /\ same_but_dc t X /\
        (@None Z = None -> os_errno (t_st X).2 = ENOENT)) as Hgoal by (intros X Y ->; naive_solver).
      eapply Hgoal; [|by split|done]. destruct t as [[C []] ? [] ? ? ? ? ?]. done.
Qed.

Lemma resolve_loop_spec T PO t fuel key inode after :
  FS T PO t -> 0 <= inode < 2 ^ 64 ->
  exists t', ParentPathLookup_loop fuel key inode after t = Ret (resolve_loop fuel T key inode after) t' /\
    FS T PO t' /\ same_but_dc t t' /\
    (resolve_loop fuel T key inode after = None -> os_errno (t_st t').2 = ENOENT).
Proof.
  revert t key inode after. induction fuel as [|fuel IH]; intros t key inode after HFS Hi.
  - exists t. cbn [ParentPathLookup_loop resolve_loop].
    destruct (strchr_delim after) as [[]|]; (split; [done|]; split; [done|]; split; [apply same_but_dc_refl|done]).
  - cbn [ParentPathLookup_loop resolve_loop].
    destruct (strchr_delim after) as [[item after']|];
      [|exists t; split; [done|]; split; [done|]; split; [apply same_but_dc_refl|done]].
    pose proof (key_ok_path item inode Hi) as Hk.
    destruct (lookup_component_spec T PO t _ HFS Hk) as (t1 & Hrun & HF1 & HS1 & He1).
    erewrite bind_Ret by exact Hrun.
    destruct (T !! BuildMetaKey_path item inode) as [v|] eqn:Ev; cbn [ino_of fmap option_fmap option_map mbind option_bind].
    + destruct HF1 as [(m & HI & Hso) ? ? ? ?].
      destruct (IH t1 (Some (BuildMetaKey_path item inode)) (st_ino (GetAttribute v)) after')
        as (t2 & Hrun2 & HF2 & HS2 & He2).
      * split; eauto.
      * apply wf_inode_ino. by eapply (so_table _ _ Hso).
      * exists t2. split; [done|]. split; [done|]. split; [|done]. by eapply same_but_dc_trans.
    + exists t1. split; [done|]. split; [done|]. split; [done|]. auto.
Qed.

Lemma ParentPathLookup_spec T PO t path :
  FS T PO t -> path <> [] ->
  exists t', ParentPathLookup path t = Ret (resolve_parent T path) t' /\ FS T PO t' /\ same_but_dc t t'.
Proof.
  intros HFS Hp. destruct path as [|c after]; [done|].
  destruct (resolve_loop_spec T PO t (length (c :: after)) None ROOT_INODE_ID after HFS)
    as (t' & Hrun & HF & HS & He); [unfold ROOT_INODE_ID; lia|].
  exists t'. split; [|done]. unfold ParentPathLookup. erewrite bind_Ret by exact Hrun.
  unfold resolve_parent. by destruct (resolve_loop _ _ _ _ _) as [[[? ?] ?]|].
Qed.
Lemma resolve_loop_ok T fuel key inode after key' inode' rest :
  (forall k v, T !! k = Some v -> wf_inode v) -> 0 <= inode < 2 ^ 64 ->
  (forall k, key = Some k -> key_ok k) ->
  resolve_loop fuel T key inode after = Some (key', inode', rest) ->
  0 <= inode' < 2 ^ 64 /\ forall k, key' = Some k -> key_ok k.
Proof.
  intros HT. revert key inode after. induction fuel as [|fuel IH]; intros key inode after Hi Hk.
  - cbn [resolve_loop]. destruct (strchr_delim after) as [[]|]; intros; by simplify_eq.
  - cbn [resolve_loop]. destruct (strchr_delim after) as [[item after']|]; [|intros; by simplify_eq].
    destruct (T !! BuildMetaKey_path item inode) as [v|] eqn:Ev;
      cbn [ino_of fmap option_fmap option_map mbind option_bind]; [|done].
    apply IH.
    + by eapply wf_inode_ino, HT.
    + intros k [= <-]. by apply key_ok_path.
Qed.

Lemma resolve_parent_ok T path key inode rest :
  (forall k v, T !! k = Some v -> wf_inode v) -> resolve_parent T path = Some (key, inode, rest) ->
  key_ok key /\ 0 <= inode < 2 ^ 64.
Proof.
  intros HT. destruct path as [|c after]; [done|]. cbn [resolve_parent].
  destruct (resolve_loop _ _ _ _ _) as [[[key' inode'] rest']|] eqn:E; [|done].
  cbn [mbind option_bind]. intros [= <- <- <-].
  apply resolve_loop_ok in E as [Hi Hk]; [|done|unfold ROOT_INODE_ID; lia|done].
  split; [|done]. destruct key' as [k|]; [by apply Hk|apply root_key_ok].
Qed.

Lemma FS_table_wf T PO t k v : FS T PO t -> T !! k = Some v -> wf_inode v.
Proof. intros [(m & HI & Hso) _ _ _ _]. apply (so_table _ _ Hso). Qed.

Lemma resolve_key_ok T PO t path k : FS T PO t -> resolve T path = Some k -> key_ok k.
Proof.
  intros HFS H. unfold resolve in H.
  destruct (resolve_parent T path) as [[[key inode] rest]|] eqn:E; [|done]. cbn in H.
  injection H as <-. apply resolve_parent_ok in E as [Hk Hi]; [|intros ? ?; by apply (FS_table_wf _ _ _ _ _ HFS)].
  destruct rest; [done|]. by apply key_ok_path.
Qed.

Lemma resolve_name_key T path :
  resolve T path = fst <$> resolve_name T path.
Proof.
  unfold resolve, resolve_name. by destruct (resolve_parent T path) as [[[key inode] rest]|].
Qed.

Lemma PathLookup_spec T PO t path :
  FS T PO t -> path <> [] ->
  exists t', PathLookup path t = Ret (resolve T path) t' /\ FS T PO t' /\ same_but_dc t t' /\
    (resolve T path = None -> os_errno (t_st t').2 = ENOENT).
Proof.
  intros HFS Hp. destruct (ParentPathLookup_spec T PO t path HFS Hp) as (t' & Hrun & HF & HS).
  unfold PathLookup. erewrite bind_Ret by exact Hrun. unfold resolve.
  destruct (resolve_parent T path) as [[[key inode] rest]|]; cbn [mbind option_bind].
  - by exists t'.
  - erewrite bind_Ret by (apply in_os_Ret; reflexivity). eexists. split; [reflexivity|].
    destruct HF as [(m & HI & Hso) ? ? ? fs_dirs]. split; [|split; [|done]].
    + split; cbn; eauto. split; [|apply fs_dirs]. eapply dirs_ok_same; [|apply fs_dirs]. by repeat split.
    + eapply same_but_dc_trans; [exact HS|]. by split.
Qed.

Lemma PathLookup_name_spec T PO t path :
  FS T PO t -> path <> [] ->
  exists t', PathLookup_name path t = Ret (resolve_name T path) t' /\ FS T PO t' /\ same_but_dc t t' /\
    (resolve T path = None -> os_errno (t_st t').2 = ENOENT).
Proof.
  intros HFS Hp. destruct (ParentPathLookup_spec T PO t path HFS Hp) as (t' & Hrun & HF & HS).
  unfold PathLookup_name. erewrite bind_Ret by exact Hrun. unfold resolve, resolve_name.
  destruct (resolve_parent T path) as [[[key inode] rest]|]; cbn [mbind option_bind].
  - exists t'. split; [|done]. destruct rest; [|done]. unfold file_name.
    destruct path as [|c after]; [done|]. by destruct (strchr_delim after) as [[]|].
  - erewrite bind_Ret by (apply in_os_Ret; reflexivity). eexists. split; [reflexivity|].
    destruct HF as [(m & HI & Hso) ? ? ? fs_dirs]. split; [|split; [|done]].
    + split; cbn; eauto. split; [|apply fs_dirs]. eapply dirs_ok_same; [|apply fs_dirs]. by repeat split.
    + eapply same_but_dc_trans; [exact HS|]. by split.
Qed.

Lemma FSError_Ret (t : tfs S) : os_errno (t_st t).2 = ENOENT -> FSError t = Ret (- ENOENT) t.
Proof. intros E. unfold FSError, errno, bind, gets, ret. by rewrite E. Qed.
End invariant.
