(* ===== verification/FsOps.v ===== *)
(** The operations of [TableFS] implement the abstract table: path lookup,
    attributes, creation and removal of entries, renaming. *)

From S2P Require Import Prelude Hashes Coding WriteBatch Inode DCache Cache Kv ICache Posix Properties State TableFS FsInv.

Set Default Proof Using "Type".

Section ops.
Context {S It : Type} `{!KvWrapper S It, !KvSpec S It}.
Implicit Types (T : table) (PO : nat -> Z) (t : tfs S) (m : gmap bytes bytes).

(** * The invariant across the steps of an operation *)

Lemma unhold_hold o PO x : unhold o (hold o PO) x = PO x.
Proof. unfold unhold, hold. case_decide; lia. Qed.

Lemma IC_pins_ext m T PO PO' st : (forall o, PO o = PO' o) -> IC m T PO st -> IC m T PO' st.
Proof.
  intros E [Hr Hc HV]. split; [done| |].
  - eapply sharded_inv_ext; [|exact Hc]. intros id. unfold pins_of. destruct (clive _ _) as [[]|]; auto.
  - eapply V_pins; [| |exact HV]; intros o.
    + rewrite <- E. apply (ic_pins _ _ _ _ _ _ _ HV).
    + rewrite <- E. apply (ic_dead _ _ _ _ _ _ _ HV).
Qed.

Lemma FS_pins_ext T PO PO' t : (forall o, PO o = PO' o) -> FS T PO t -> FS T PO' t.
Proof.
  intros E [(m & HI & Hso) Hdc Hset Htab Hd]. split; try done.
  - exists m. split; [by eapply IC_pins_ext|done].
  - intros o h Eh. rewrite <- E. by apply Hset.
Qed.

(** No file or directory is open. *)
Definition idle : nat -> Z := fun _ => 0.

(** Every live cache entry belongs to a handle of the table. *)
Lemma FS_live_tabled T PO t x : FS T PO t -> clive (t_ic t).1 x <> None -> tabled (t_ic t).1 x.
Proof.
  intros [(m & [_ _ HV] & _) _ _ Htab _] Hx.
  destruct (clive (t_ic t).1 x) as [[k o]|] eqn:E; [|done].
  destruct (live_handle HV _ _ _ E) as (h & ch & Eh & Hid & Hok & _).
  destruct (Htab o h Eh) as [(ch' & Hp & Ht) _].
  pose proof (ho_pointer _ _ _ _ _ _ _ Hok). by assert (ch' = ch) as -> by congruence; rewrite Hid in Ht.
Qed.

(** While the inodes in use are the newest of their shards, any inode can be
    loaded; in particular when nothing is open. *)
Lemma FS_room T PO t k :
  FS T PO t -> (forall x, pins_of PO (t_ic t).1 x <> 0 -> newest (t_ic t).1 x) ->
  (forall x, pins_of PO (t_ic t).1 x < 2 ^ 32 - 2) -> room PO t k.
Proof.
  intros HFS Hn Hcnt. destruct (fs_ic _ _ _ HFS) as (m & [_ Hc _] & _).
  split; [|intros id _; apply Hcnt]. apply csafe_newest; [done| |auto]. intros x. by eapply FS_live_tabled.
Qed.

Lemma FS_room_idle T t k : FS T idle t -> room idle t k.
Proof.
  intros HFS. eapply FS_room; [done| |]; intros x; unfold pins_of, idle; [|by destruct (clive _ _) as [[]|]; lia].
  intros Hx. exfalso. apply Hx. by destruct (clive _ _) as [[]|].
Qed.

(** ** Getting a handle *)

Lemma fs_get T PO t k mode :
  FS T PO t -> key_ok k -> room PO t k -> mode <> INODE_DELETE ->
  match T !! k with
  | Some v => exists o h ic', InodeCache_Get k mode (t_ic t) = Ret (Some o) ic' /\
      FS T (hold o PO) (put_ic ic' t) /\ w_handles ic'.2 !! o = Some h /\ key_ h = k /\ value_ h = v /\
      in_table ic' h /\ (mode = INODE_WRITE -> mode_ h = INODE_WRITE) /\
      (mode = INODE_READ -> PO o = 0 -> mode_ h = INODE_READ) /\
      (forall x, x <> o -> 0 < PO x -> w_handles ic'.2 !! x = handles t !! x)
  | None => exists ic', InodeCache_Get k mode (t_ic t) = Ret None ic' /\ FS T PO (put_ic ic' t) /\
      ic'.1 = (t_ic t).1 /\ w_handles ic'.2 = handles t
  end.
Proof.
  intros HFS Hk Hroom Hmode. pose proof HFS as [(m & HI & Hso) Hdc Hset Htab Hd].
  pose proof (Get_spec m T PO (t_ic t).1 (t_ic t).2 k mode) as Hget.
  replace ((t_ic t).1, (t_ic t).2) with (t_ic t) in Hget by by destruct (t_ic t).
  specialize (Hget HI Hk Hset).
  assert (getable PO (w_handles (t_ic t).2) k mode) as Hgable.
  { intros o h Eh Hkh. destruct (Htab o h Eh) as [_ Hnd]. split; [done|]. intros ->. done. }
  specialize (Hget Hgable Hroom). destruct (T !! k) as [v|] eqn:ET.
  - destruct Hget as (o & h & ic' & Hrun & [G1 G2 G3 G4 G5 G6 G7 G8 G12 G13 G9 G10 G11 G14]).
    exists o, h, ic'. split; [done|]. split; [|repeat (split; [done|])].
    + split; cbn; [eauto|done|done| |done]. intros x hx Ex.
      destruct (decide (x = o)) as [->|Hne].
      * assert (hx = h) as -> by (unfold handles in Ex; cbn in Ex; congruence). split; [done|].
        destruct mode; [by apply G6|done|]. rewrite G5 by done. done.
      * destruct (G11 x hx Ex Hne) as [Ex' Hin]. destruct (Htab x hx Ex') as [Hin' Hnd]. auto.
    + split; [intros ->; by apply G5|]. split; [|done]. intros -> Hz.
      destruct (w_handles (t_ic t).2 !! o) as [h0|] eqn:E0; [|by apply G12].
      rewrite (G8 h0 eq_refl eq_refl). by eapply Hset.
  - destruct Hget as (s' & Hrun & HI'). eexists. split; [exact Hrun|]. split; [|done].
    split; cbn; eauto.
Qed.

Lemma fs_release T PO t o h :
  FS T PO t -> handles t !! o = Some h -> 0 < PO o -> (PO o = 1 -> mode_ h = INODE_READ) ->
  exists ic', InodeCache_Release o (t_ic t) = Ret tt ic' /\ FS T (unhold o PO) (put_ic ic' t) /\
    w_handles ic'.2 = handles t.
Proof.
  intros HFS Eh Hpo Hclean. pose proof HFS as [(m & HI & Hso) Hdc Hset Htab Hd].
  destruct (Htab o h Eh) as [Hin Hnd].
  destruct (Release_spec m T PO (t_ic t) o h HI Eh Hpo Hin) as (C' & Hrun & HI' & [Hlive Htabled]).
  eexists. split; [exact Hrun|]. split; [|done]. split; cbn; [eauto|done| | |done].
  - intros x hx Ex. unfold unhold. case_decide as Hx; [|by apply Hset]. subst x. intros Hz.
    unfold handles in Ex, Eh. cbn in Ex. rewrite Eh in Ex. injection Ex as <-. apply Hclean. lia.
  - intros x hx Ex. destruct (Htab x hx Ex) as [(ch & Hp & Ht) Hm]. split; [|done].
    exists ch. split; [done|]. by apply Htabled.
Qed.
(** ** Changing and writing back a handle *)

Lemma upd_handle_run t o h f :
  handles t !! o = Some h ->
  in_ic (in_world (upd_handle o f)) t =
  Ret tt (put_ic ((t_ic t).1, put_handles (<[o := f h]> (handles t)) (t_ic t).2) t).
Proof.
  intros Eh. apply in_ic_Ret. unfold in_world.
  by rewrite (zoom_Ret snd _ _ (t_ic t) tt _ (upd_handle_Ret (t_ic t).2 o h f Eh)).
Qed.

Lemma dcache_ok_ino T k v dc :
  ino_of (T !! k) = ino_of (Some v) -> dcache_ok T dc -> dcache_ok (<[k := v]> T) dc.
Proof.
  intros Hi [Hinv Htrue]. split; [done|]. intros k' i Hv. destruct (decide (k' = k)) as [->|Hne].
  - rewrite lookup_insert_eq, <- Hi. by apply Htrue.
  - rewrite lookup_insert_ne by done. by apply Htrue.
Qed.

Lemma inos_ok_update T k v v' n :
  T !! k = Some v -> st_ino (GetAttribute v') = st_ino (GetAttribute v) -> inos_ok T n ->
  inos_ok (<[k := v']> T) n.
Proof.
  intros HT Hi Hok k1 v1 H1.
  assert (forall k2 v2, <[k := v']> T !! k2 = Some v2 ->
            exists v0, T !! k2 = Some v0 /\ st_ino (GetAttribute v0) = st_ino (GetAttribute v2)) as Hback.
  { intros k2 v2. rewrite lookup_insert_Some. intros [[<- <-]|[_ ?]]; eauto. }
  destruct (Hback _ _ H1) as (v0 & H0 & E0). destruct (Hok _ _ H0) as [Hr Hu]. rewrite E0 in *.
  split; [done|]. intros k2 v2 H2 E2. destruct (Hback _ _ H2) as (v3 & H3 & E3).
  apply (Hu _ _ H3). congruence.
Qed.

Lemma store_ok_table m T k v :
  wf_inode v -> ino_of (T !! k) = ino_of (Some v) -> store_ok m T -> store_ok m (<[k := v]> T).
Proof.
  intros Hwf Hi [H1 H2 H3 H4]. split; [|done| |done].
  - intros k' Hk'. rewrite H1 by done. destruct (decide (k' = k)) as [->|Hne].
    + by rewrite lookup_insert_eq.
    + by rewrite lookup_insert_ne.
  - intros k' v'. rewrite lookup_insert_Some. intros [[_ <-]|[_ ?]]; [done|by eapply H3].
Qed.

Lemma store_ok_store m T k v :
  key_ok k -> T !! k = Some v -> store_ok m T -> store_ok (<[ToSlice k := v]> m) T.
Proof.
  intros Hk HT [H1 H2 H3 H4]. split; [| |done|].
  - intros k' Hk'. destruct (decide (k' = k)) as [->|Hne].
    + by rewrite lookup_insert_eq, HT.
    + rewrite lookup_insert_ne by (apply not_eq_sym; by apply ToSlice_ne). by apply H1.
  - intros k' v' Hk'. destruct (decide (k' = k)) as [->|Hne].
    + rewrite lookup_insert_eq. intros [= <-]. by eapply H3.
    + rewrite lookup_insert_ne by (apply not_eq_sym; by apply ToSlice_ne). by apply H2.
  - intros b v'. rewrite lookup_insert_Some. intros [[<- _]|[_ ?]]; eauto.
Qed.

(** The table value of a dirty handle is the handle's. *)
Lemma FS_handle_value T PO t o h :
  FS T PO t -> handles t !! o = Some h -> T !! key_ h = Some (value_ h) /\ key_ok (key_ h) /\ str_ok (value_ h).
Proof.
  intros [(m & HI & Hso) Hdc Hset Htab Hd] Eh. destruct (Htab o h Eh) as [Hin Hnd].
  destruct (in_table_cached _ _ _ _ _ _ HI Eh Hin) as (ch & [Hk Hv Hp Hl Hm] & Ht & _).
  split; [|done]. destruct (mode_ h); [by apply Hm|done|by apply Hm].
Qed.

Lemma fs_set_value T PO t o h v :
  FS T PO t -> handles t !! o = Some h -> mode_ h = INODE_WRITE -> 0 < PO o ->
  wf_inode v -> str_ok v -> st_ino (GetAttribute v) = st_ino (GetAttribute (value_ h)) ->
  exists t', set_handle_value o v t = Ret tt t' /\ FS (<[key_ h := v]> T) PO t' /\
    handles t' = <[o := set_value_ v h]> (handles t) /\ t_st t' = t_st t /\
    (t_ic t').1 = (t_ic t).1 /\ t_fhs t' = t_fhs t /\ t_next_fh t' = t_next_fh t.
Proof.
  intros HFS Eh Hm Hpo Hwf Hv Hino. destruct (FS_handle_value _ _ _ _ _ HFS Eh) as (HT & Hk & Hvo).
  pose proof HFS as [(m & HI & Hso) Hdc Hset Htab Hd]. destruct (Htab o h Eh) as [Hin Hnd].
  assert (ino_of (T !! key_ h) = ino_of (Some v)) as Hi.
  { rewrite HT. unfold ino_of, fmap, option_fmap, option_map. by rewrite Hino. }
  eexists. split; [by apply upd_handle_run|]. split; [|done].
  pose proof (set_value_spec m T PO (t_ic t).1 (t_ic t).2 o h v) as Hsv.
  replace ((t_ic t).1, (t_ic t).2) with (t_ic t) in Hsv by by destruct (t_ic t).
  split; cbn.
  - exists m. split; [by apply Hsv|by apply store_ok_table].
  - by apply dcache_ok_ino.
  - intros x hx Ex. unfold handles in Ex. cbn in Ex. apply lookup_insert_Some in Ex as [[<- _]|[_ Ex]]; [lia|].
    by eapply Hset.
  - intros x hx Ex. unfold handles in Ex. cbn in Ex. apply lookup_insert_Some in Ex as [[<- <-]|[_ Ex]].
    + split; [|by rewrite <- Hm in *]. destruct Hin as (ch & Hp & Ht). by exists ch.
    + exact (Htab x hx Ex).
  - split; [apply Hd|]. eapply inos_ok_update; [done|done|apply Hd].
Qed.

Lemma fs_writeback T PO t o h :
  FS T PO t -> handles t !! o = Some h -> mode_ h = INODE_WRITE ->
  exists ic', InodeCache_WriteBack o (t_ic t) = Ret tt ic' /\ FS T PO (put_ic ic' t) /\
    w_handles ic'.2 = <[o := set_mode_ INODE_READ h]> (handles t) /\ ic'.1 = (t_ic t).1.
Proof.
  intros HFS Eh Hm. destruct (FS_handle_value _ _ _ _ _ HFS Eh) as (HT & Hk & Hvo).
  pose proof HFS as [(m & HI & Hso) Hdc Hset Htab Hd]. destruct (Htab o h Eh) as [Hin Hnd].
  pose proof (WriteBack_dirty m T PO (t_ic t).1 (t_ic t).2 o h) as Hwb.
  replace ((t_ic t).1, (t_ic t).2) with (t_ic t) in Hwb by by destruct (t_ic t).
  destruct (Hwb HI Eh Hm) as (s' & Hrun & HI'). eexists. split; [exact Hrun|]. split; [|done].
  split; cbn.
  - eexists. split; [exact HI'|by apply store_ok_store].
  - done.
  - intros x hx Ex. unfold handles in Ex. cbn in Ex. apply lookup_insert_Some in Ex as [[<- <-]|[_ Ex]]; [done|].
    by eapply Hset.
  - intros x hx Ex. unfold handles in Ex. cbn in Ex. apply lookup_insert_Some in Ex as [[<- <-]|[_ Ex]].
    + split; [|done]. destruct Hin as (ch & Hp & Ht). by exists ch.
    + exact (Htab x hx Ex).
  - done.
Qed.
(** * Attributes *)

(** What an operation on a path returns when nothing is there. *)
Definition rooms T PO t (path : bytes) : Prop := forall k, resolve T path = Some k -> room PO t k.

Lemma GetAttr_refines T PO t path :
  FS T PO t -> path <> [] -> rooms T PO t path ->
  exists t', GetAttr path t =
      Ret (match lookup_path T path with
           | Some v => (0, Some (GetAttribute v))
           | None => (- ENOENT, None)
           end) t' /\ FS T PO t'.
Proof.
  intros HFS Hp Hroom. destruct (PathLookup_spec T PO t path HFS Hp) as (t1 & Hrun & HF1 & HS1 & He).
  unfold GetAttr. erewrite bind_Ret by exact Hrun. unfold lookup_path.
  destruct (resolve T path) as [k|] eqn:Er; cbn [mbind option_bind].
  - rewrite bind_ReadLock. pose proof (resolve_key_ok _ _ _ _ _ HFS Er) as Hk.
    pose proof (fs_get T PO t1 k INODE_READ HF1 Hk (room_same _ _ _ _ HS1 (Hroom k Er))) as Hget.
    destruct (T !! k) as [v|] eqn:ET.
    + destruct Hget as (o & h & ic' & Hg & HF2 & Eh & Hkh & Hvh & Htab & _ & Hread & _); [done|].
      pose proof (FS_table_wf _ _ _ _ _ HFS ET) as Hwf. rewrite <- Hvh in Hwf.
      destruct (fs_release T (hold o PO) (put_ic ic' t1) o h HF2 Eh) as (ic2 & Hr & HF3 & _).
      { pose proof (HF1) as [(m & [_ _ HV] & _) _ _ _ _]. pose proof (ic_pins _ _ _ _ _ _ _ HV o).
        unfold hold. rewrite decide_True by done. lia. }
      { unfold hold. rewrite decide_True by done. intros Hone. apply Hread; [done|lia]. }
      eexists. split.
      * erewrite bind_Ret by (apply in_ic_Ret; exact Hg). cbv iota beta. rewrite bind_assoc.
        erewrite bind_Ret by (apply handle_at_Ret; exact Eh). rewrite bind_assoc.
        erewrite bind_Ret by by apply attribute_at_Ret. rewrite bind_assoc.
        erewrite bind_Ret by (apply in_ic_Ret; exact Hr). rewrite bind_ret, bind_Unlock, Hvh.
        reflexivity.
      * eapply FS_pins_ext; [|exact HF3]. apply unhold_hold.
    + destruct Hget as (ic' & Hg & HF2 & _); [done|]. eexists. split.
      * erewrite bind_Ret by (apply in_ic_Ret; exact Hg). cbv iota beta. rewrite bind_ret, bind_Unlock. reflexivity.
      * done.
  - eexists. split; [|exact HF1]. erewrite bind_Ret by (apply FSError_Ret; auto). reflexivity.
Qed.
Lemma FS_pins_nonneg T PO t o : FS T PO t -> 0 <= PO o.
Proof. intros [(m & [_ _ HV] & _) _ _ _ _]. apply (ic_pins _ _ _ _ _ _ _ HV). Qed.

Lemma hold_pos T PO t o : FS T PO t -> 0 < hold o PO o.
Proof.
  intros HFS. pose proof (FS_pins_nonneg _ _ _ o HFS). unfold hold. rewrite decide_True by done. lia.
Qed.

(** The end of an operation on a dirty handle: write it back and release it. *)
Lemma writeback_release T PO t o h :
  FS T (hold o PO) t -> handles t !! o = Some h -> mode_ h = INODE_WRITE -> 0 <= PO o ->
  exists t', (in_ic (InodeCache_WriteBack o) ;;; in_ic (InodeCache_Release o)) t = Ret tt t' /\
    FS T PO t' /\ t_st t' = t_st t /\ t_fhs t' = t_fhs t /\ t_next_fh t' = t_next_fh t /\
    handles t' = <[o := set_mode_ INODE_READ h]> (handles t).
Proof.
  intros HFS Eh Hm Hpo.
  destruct (fs_writeback T _ t o h HFS Eh Hm) as (ic1 & Hwb & HF1 & Hhs1 & _).
  destruct (fs_release T _ (put_ic ic1 t) o (set_mode_ INODE_READ h) HF1) as (ic2 & Hrl & HF2 & Hhs2).
  - unfold handles. cbn. rewrite Hhs1. apply lookup_insert_eq.
  - unfold hold. rewrite decide_True by done. lia.
  - done.
  - eexists. split; [erewrite bind_Ret by (apply in_ic_Ret; exact Hwb); by apply in_ic_Ret|].
    split; [eapply FS_pins_ext; [|exact HF2]; apply unhold_hold|]. repeat (split; [done|]).
    unfold handles at 1. cbn. rewrite Hhs2. unfold handles. cbn. by rewrite Hhs1.
Qed.

Lemma update_attribute_refines T PO t path unlock f :
  FS T PO t -> path <> [] -> rooms T PO t path ->
  (forall s, stat_ok s -> stat_ok (f s) /\ st_ino (f s) = st_ino s) ->
  exists t' r, update_attribute path unlock f t = Ret r t' /\
    match resolve T path with
    | Some k =>
        match T !! k with
        | Some v => r = 0 /\ FS (<[k := UpdateAttribute v (f (GetAttribute v))]> T) PO t'
        | None => r = - ENOENT /\ FS T PO t'
        end
    | None => r = - ENOENT /\ FS T PO t'
    end.
Proof.
  intros HFS Hp Hroom Hf. destruct (PathLookup_spec T PO t path HFS Hp) as (t1 & Hrun & HF1 & HS1 & He).
  unfold update_attribute. erewrite bind_Ret by exact Hrun.
  destruct (resolve T path) as [k|] eqn:Er.
  2: { eexists _, _. split; [apply FSError_Ret; auto|]. done. }
  rewrite bind_WriteLock. pose proof (resolve_key_ok _ _ _ _ _ HFS Er) as Hk.
  pose proof (fs_get T PO t1 k INODE_WRITE HF1 Hk (room_same _ _ _ _ HS1 (Hroom k Er))) as Hget.
  destruct (T !! k) as [v|] eqn:ET.
  2: { destruct Hget as (ic' & Hg & HF2 & _); [done|]. eexists _, _. split; [|by split; [reflexivity|exact HF2]].
       erewrite bind_Ret by (apply in_ic_Ret; exact Hg). reflexivity. }
  destruct Hget as (o & h & ic' & Hg & HF2 & Eh & Hkh & Hvh & Htab & Hmode & _); [done|].
  specialize (Hmode eq_refl).
  pose proof (FS_table_wf _ _ _ _ _ HFS ET) as Hwf.
  destruct (FS_handle_value _ _ _ _ _ HF2 Eh) as (_ & _ & Hstr). rewrite Hvh in Hstr.
  destruct (Hf _ (wf_inode_stat _ Hwf)) as [Hfok Hfino].
  destruct (wf_UpdateAttribute v (f (GetAttribute v)) Hwf Hfok Hstr) as (Hwf' & Hstr' & Hattr').
  destruct (fs_set_value T _ (put_ic ic' t1) o h (UpdateAttribute v (f (GetAttribute v))) HF2 Eh Hmode
    (hold_pos _ _ _ o HF1) Hwf' Hstr') as (t3 & Hset & HF3 & Hhs3 & _).
  { rewrite Hattr', Hvh. done. }
  destruct (writeback_release _ PO t3 o (set_value_ (UpdateAttribute v (f (GetAttribute v))) h) HF3)
    as (t4 & Hwr & HF4 & _).
  { rewrite Hhs3. apply lookup_insert_eq. } { done. } { by eapply FS_pins_nonneg. }
  exists t4, 0. split; [|split; [done|by rewrite <- Hkh]].
  erewrite bind_Ret by (apply in_ic_Ret; exact Hg). cbv iota beta.
  erewrite bind_Ret by (apply handle_at_Ret; exact Eh).
  erewrite bind_Ret by (apply attribute_at_Ret; by rewrite Hvh). rewrite Hvh.
  erewrite bind_Ret by exact Hset.
  apply bind_inv in Hwr as ([] & t5 & H5 & H6).
  erewrite bind_Ret by exact H5. erewrite bind_Ret by exact H6. by destruct unlock.
Qed.
(** * Creating entries *)

(** The environment a new inode is built from: memory of the requested size,
    clock readings and a caller identity that fit their fields, and strings that
    stay where they are when they shrink. *)
Record ready (env : environment) t : Prop := {
  rd_memory : forall i n, length (env_memory env i n) = n /\ bytes_ok (env_memory env i n);
  rd_clock : Forall (fun z => - 2 ^ 63 <= z < 2 ^ 63) (os_clock (t_st t).2);
  rd_context : 0 <= (t_context t).1 < 2 ^ 32 /\ 0 <= (t_context t).2 < 2 ^ 32;
  rd_strings : forall old new, (new <= old)%nat -> env_moved env old new = false
}.

Definition path_ok (path : bytes) : Prop :=
  path <> [] /\ bytes_ok path /\ Z.of_nat (length path) < 2 ^ 31.

(** A key nothing is stored under is not cached either. *)
Lemma FS_absent m T PO t k :
  FS T PO t -> IC m T PO (t_ic t) -> key_ok k -> T !! k = None ->
  forall id o, tabled (t_ic t).1 id -> clive (t_ic t).1 id <> Some (ToSlice k, o).
Proof.
  intros HFS [Hrep Hc HV] Hk HT id o Ht Hl.
  destruct (live_handle HV _ _ _ Hl) as (h & ch & Eh & Hid & Hok & Hkey).
  destruct (FS_handle_value _ _ _ _ _ HFS Eh) as (HTh & _).
  assert (k = key_ h) as Hkh by (apply ToSlice_inj; [done|apply Hok|done]). congruence.
Qed.

Lemma dcache_ok_new T k v dc : T !! k = None -> dcache_ok T dc -> dcache_ok (<[k := v]> T) dc.
Proof.
  intros HT [Hinv Htrue]. split; [done|]. intros k' i Hv. specialize (Htrue k' i Hv).
  rewrite lookup_insert_ne; [done|]. intros ->. by rewrite HT in Htrue.
Qed.

Lemma store_ok_both m T k v :
  key_ok k -> wf_inode v -> store_ok m T -> store_ok (<[ToSlice k := v]> m) (<[k := v]> T).
Proof.
  intros Hk Hwf [H1 H2 H3 H4]. split.
  - intros k' Hk'. destruct (decide (k' = k)) as [->|Hne]; [by rewrite !lookup_insert_eq|].
    rewrite !lookup_insert_ne by (try done; apply ToSlice_ne; done). by apply H1.
  - intros k' v' Hk'. destruct (decide (k' = k)) as [->|Hne].
    + rewrite lookup_insert_eq. by intros [= <-].
    + rewrite lookup_insert_ne by (apply ToSlice_ne; done). by apply H2.
  - intros k' v'. rewrite lookup_insert_Some. intros [[_ <-]|[_ ?]]; [done|by eapply H3].
  - intros b v'. rewrite lookup_insert_Some. intros [[<- _]|[_ ?]]; eauto.
Qed.

Lemma inos_ok_new T k v n :
  0 <= n -> st_ino (GetAttribute v) = n + 1 -> inos_ok T n -> inos_ok (<[k := v]> T) (n + 1).
Proof.
  intros Hn Hv Hok k1 v1 H1. apply lookup_insert_Some in H1 as [[<- <-]|[Hne H1]].
  - rewrite Hv. split; [lia|]. intros k2 v2 H2 E2.
    apply lookup_insert_Some in H2 as [[<- _]|[_ H2]]; [done|].
    destruct (Hok _ _ H2) as [? _]. lia.
  - destruct (Hok _ _ H1) as [Hr Hu]. split; [lia|]. intros k2 v2 H2 E2.
    apply lookup_insert_Some in H2 as [[<- <-]|[_ H2]]; [lia|by eapply Hu].
Qed.

(** Storing a new inode under a free key, right after its number was allocated. *)
Lemma fs_put_new T PO t k v :
  FS T PO t -> key_ok k -> T !! k = None -> wf_inode v -> str_ok v ->
  inos_ok (<[k := v]> T) (max_inode_num (t_st t).1) ->
  exists t', metadb (kv_Put (ToSlice k) v) t = Ret 0 t' /\ FS (<[k := v]> T) PO t' /\
    t_st t' = t_st t /\ t_fhs t' = t_fhs t /\ handles t' = handles t.
Proof.
  intros HFS Hk HT Hwf Hv Hinos. pose proof HFS as [(m & HI & Hso) Hdc Hset Htab Hd].
  pose proof HI as [Hrep Hc HV].
  destruct (kv_Put_spec _ _ (ToSlice k) v Hrep (kv_key_ToSlice k) Hv) as (s' & Hput & Hrep').
  eexists. split; [apply in_metadb_Ret; exact Hput|]. split; [|done]. split; cbn; [|by apply dcache_ok_new|done|done|].
  - exists (<[ToSlice k := v]> m). split; [|by apply store_ok_both]. split; cbn; [done|done|].
    apply V_put; [done|done|done|]. by eapply FS_absent.
  - split; [apply Hd|done].
Qed.

Lemma resolve_name_ok T PO t path k name :
  FS T PO t -> path_ok path -> resolve_name T path = Some (k, name) ->
  key_ok k /\ bytes_ok name /\ Z.of_nat (length name) < 2 ^ 31.
Proof.
  intros HFS (Hne & Hb & Hl) Hr.
  assert (resolve T path = Some k) as Hk by (rewrite resolve_name_key, Hr; done).
  split; [by eapply resolve_key_ok|]. unfold resolve_name in Hr.
  assert (forall l a r, strchr_delim l = Some (a, r) -> r `suffix_of` l) as Hsuf.
  { clear. induction l as [|b l IH]; intros a r H; simpl in H; [done|].
    case_bool; [simplify_eq; by apply suffix_cons_r|].
    destruct (strchr_delim l) as [[a' r']|]; simplify_eq/=. apply suffix_cons_r. by eapply IH. }
  assert (forall fuel T key inode after key' inode' rest,
    resolve_loop fuel T key inode after = Some (key', inode', rest) -> rest `suffix_of` after) as Hrest.
  { clear -Hsuf. induction fuel as [|fuel IH]; intros T key inode after key' inode' rest; cbn [resolve_loop].
    - destruct (strchr_delim after) as [[]|]; intros; by simplify_eq.
    - destruct (strchr_delim after) as [[item after']|] eqn:E; [|intros; by simplify_eq].
      destruct (ino_of (T !! BuildMetaKey_path item inode)); [|done]. cbn [mbind option_bind].
      intros H%IH. etrans; [exact H|by eapply Hsuf]. }
  destruct path as [|c after]; [done|]. cbn [resolve_parent] in Hr.
  destruct (resolve_loop _ _ _ _ _) as [[[key inode] rest]|] eqn:E; [|done].
  cbn in Hr. injection Hr as _ <-. apply Hrest in E as [pre ->].
  apply Forall_cons_1 in Hb as [Hc Hb]. apply Forall_app in Hb as [_ Hb].
  destruct rest as [|b rest]; cbn [file_name].
  - assert (bytes_ok [PATH_DELIMITER]) by (constructor; [unfold byte_ok, PATH_DELIMITER; lia|constructor]).
    destruct (strchr_delim _) as [[]|]; (split; [|simpl; lia]); [done|]. by constructor.
  - split; [done|]. simpl in Hl. rewrite length_app in Hl. simpl in *. lia.
Qed.
(** The invariant does not depend on the rest of the operating system. *)
Lemma FS_os T PO t t' :
  FS T PO t -> t_ic t' = t_ic t -> t_dc t' = t_dc t ->
  dirs_ok (t_st t').1 (t_st t').2 -> max_inode_num (t_st t).1 <= max_inode_num (t_st t').1 ->
  FS T PO t'.
Proof.
  intros [HI Hdc Hset Htab [Hd Hin]] E1 E2 Hd' Hmax. unfold handles in *.
  split; unfold handles; rewrite ?E1, ?E2; try done. split; [done|].
  intros k v Hk. destruct (Hin k v Hk) as [Hr Hu]. split; [lia|done].
Qed.

Lemma dirs_ok_eq s o o' : os_dirs o' = os_dirs o -> dirs_ok s o -> dirs_ok s o'.
Proof. intros E [? ? ? ?]. split; by rewrite ?E. Qed.

(** Allocating an inode number. *)
Lemma fs_new_inode T PO t :
  FS T PO t -> max_inode_num (t_st t).1 + 1 < 2 ^ 31 ->
  exists t', in_st NewInode t = Ret (max_inode_num (t_st t).1 + 1) t' /\ FS T PO t' /\
    (t_st t').1 = set_max_inode_num (max_inode_num (t_st t).1 + 1) (t_st t).1 /\
    same_files (t_st t).2 (t_st t').2 /\ t_context t' = t_context t /\ t_fhs t' = t_fhs t /\
    flag_fuse_enabled t' = flag_fuse_enabled t /\ t_allocs t' = t_allocs t /\ t_ic t' = t_ic t.
Proof.
  intros HFS Hlt. pose proof (fs_dirs _ _ _ HFS) as [Hd Hin].
  destruct (NewInode_spec _ _ Hd Hlt) as (o' & Hrun & Hd' & Hsf).
  replace ((t_st t).1, (t_st t).2) with (t_st t) in Hrun by by destruct (t_st t).
  eexists. split; [by apply in_st_Ret|].
  split; [|by split_and!]. eapply FS_os; [exact HFS|done|done|done|cbn; lia].
Qed.

(** The attributes a new inode gets; the times are not all written. *)
Definition caller t : option (Z * Z) := if flag_fuse_enabled t then Some (t_context t) else None.

Definition fresh_stat (s : tfs_stat_t) (inum mode dev : Z) (who : option (Z * Z)) : Prop :=
  exists old now, s = InitStat old inum mode dev who now.

(** The value of a new inode. *)
Lemma new_value_run env t inum mode dev name :
  ready env t -> 0 <= inum < 2 ^ 64 -> 0 <= mode < 2 ^ 32 -> 0 <= dev < 2 ^ 64 ->
  bytes_ok name -> Z.of_nat (length name) < 2 ^ 31 ->
  exists t' h, NewInodeValue env inum mode dev name t = Ret (mk_value h name []) t' /\
    value_wf h name /\ str_ok (mk_value h name []) /\
    st_ino (fstat h) = inum /\ st_mode (fstat h) = mode /\ st_size (fstat h) = 0 /\ has_blob h = 0 /\
    t_ic t' = t_ic t /\ t_dc t' = t_dc t /\ (t_st t').1 = (t_st t).1 /\ t_fhs t' = t_fhs t /\
    os_dirs (t_st t').2 = os_dirs (t_st t).2 /\ (os_wf (t_st t).2 -> os_wf (t_st t').2) /\
    (forall p, file_at (t_st t').2 p = file_at (t_st t).2 p) /\
    os_clock (t_st t').2 = tail (os_clock (t_st t).2) /\ t_context t' = t_context t /\
    fresh_stat (fstat h) inum mode dev (caller t) /\ flag_fuse_enabled t' = flag_fuse_enabled t.
Proof.
  intros [Hmem Hclock [Hu Hg]] Hi Hm Hd Hb Hl.
  destruct (Hmem (t_allocs t) (TFS_INODE_HEADER_SIZE + length name + 1)%nat) as [Hlen Hbm].
  set (mem := env_memory env (t_allocs t) (TFS_INODE_HEADER_SIZE + length name + 1)) in *.
  set (who := if flag_fuse_enabled t then Some (t_context t) else None).
  set (now := default 0 (head (os_clock (t_st t).2))).
  set (h := init_header mem inum mode dev who now name).
  assert (header_ok h) as Hh.
  { apply init_header_ok; [lia|done|done|done|done| |].
    - intros u g Hw. unfold who in Hw. destruct (flag_fuse_enabled t); [|done].
      destruct (t_context t) as [u' g']. injection Hw as <- <-. cbn in *. lia.
    - unfold now. destruct Hclock; simpl; lia. }
  assert (value_wf h name) as Hwf.
  { split; [done|]. unfold h, init_header. cbn. apply u32_small. lia. }
  eexists _, h. split; [reflexivity|]. split; [done|]. split.
  { split.
    - unfold mk_value. apply Forall_app. split; [apply header_bytes_ok, Hh|].
      apply Forall_app. split; [done|]. constructor; [unfold byte_ok; lia|constructor].
    - rewrite (length_mk h name Hwf). simpl. lia. }
  split_and!; try done; [unfold h, init_header, InitStat, who; cbn;
      destruct (flag_fuse_enabled t); [destruct (t_context t)|]; done..| |].
  - by intros [W1 W2 W3].
  - by eexists _, now.
Qed.

Lemma fs_new_value env T PO t inum mode dev name :
  FS T PO t -> ready env t -> 0 <= inum < 2 ^ 64 -> 0 <= mode < 2 ^ 32 -> 0 <= dev < 2 ^ 64 ->
  bytes_ok name -> Z.of_nat (length name) < 2 ^ 31 ->
  exists t' h, NewInodeValue env inum mode dev name t = Ret (mk_value h name []) t' /\ FS T PO t' /\
    value_wf h name /\ str_ok (mk_value h name []) /\
    st_ino (fstat h) = inum /\ st_mode (fstat h) = mode /\ st_size (fstat h) = 0 /\ has_blob h = 0 /\
    (t_st t').1 = (t_st t).1 /\ t_fhs t' = t_fhs t /\ fresh_stat (fstat h) inum mode dev (caller t).
Proof.
  intros HFS Hrd Hi Hm Hd Hb Hl.
  destruct (new_value_run env t inum mode dev name Hrd Hi Hm Hd Hb Hl)
    as (t' & h & Hrun & Hwf & Hstr & H1 & H2 & H3 & H4 & E1 & E2 & E3 & E4 & E5 & _ & _ & _ & _ & Hfr & _).
  exists t', h. split; [done|]. split; [|by split_and!].
  eapply FS_os; [exact HFS|done|done| |by rewrite E3]. rewrite E3. eapply dirs_ok_eq; [exact E5|apply HFS].
Qed.

Lemma make_inode_refines env T PO t path mode dev :
  FS T PO t -> ready env t -> path_ok path -> 0 <= mode < 2 ^ 32 -> 0 <= dev < 2 ^ 64 ->
  max_inode_num (t_st t).1 + 1 < 2 ^ 31 ->
  match resolve_name T path with
  | Some (k, name) => T !! k = None ->
      exists t' h, make_inode env path mode dev t = Ret 0 t' /\
        FS (<[k := mk_value h name []]> T) PO t' /\ value_wf h name /\
        st_ino (fstat h) = max_inode_num (t_st t).1 + 1 /\ st_mode (fstat h) = mode /\
        st_size (fstat h) = 0 /\ has_blob h = 0 /\
        max_inode_num (t_st t').1 = max_inode_num (t_st t).1 + 1 /\
        fresh_stat (fstat h) (max_inode_num (t_st t).1 + 1) mode dev (caller t)
  | None => exists t', make_inode env path mode dev t = Ret (- ENOENT) t' /\ FS T PO t' /\ (t_st t').1 = (t_st t).1
  end.
Proof.
  intros HFS Hrd Hp Hm Hd Hmax.
  destruct (PathLookup_name_spec T PO t path HFS) as (t1 & Hrun & HF1 & HS1 & He); [apply Hp|].
  unfold make_inode. destruct (resolve_name T path) as [[k name]|] eqn:Er.
  2: { exists t1. split; [|split; [done|apply HS1]]. erewrite bind_Ret by exact Hrun. apply FSError_Ret, He.
       by rewrite resolve_name_key, Er. }
  intros HT. destruct (resolve_name_ok _ _ _ _ _ _ HFS Hp Er) as (Hk & Hbn & Hln).
  pose proof HS1 as [_ _ _ Hfss Hos _ _ _ Hfuse Hctx].
  destruct (fs_new_inode T PO t1 HF1) as (t2 & Hnew & HF2 & Hst2 & Hsf2 & Hctx2 & Hfh2 & Hfl2 & Hal2 & Hic2);
    [by rewrite Hfss|].
  rewrite Hfss in Hnew, Hst2. pose proof (do_max _ _ (proj1 (fs_dirs _ _ _ HFS))) as Hrange.
  destruct (fs_new_value env T PO t2 (max_inode_num (t_st t).1 + 1) mode dev name HF2)
    as (t3 & h & Hval & HF3 & Hwf & Hstr & Hino & Hmode & Hsize & Hblob & Hst3 & _ & Hfr); try done.
  { destruct Hrd as [R1 R2 R3 R4]. split; [done| |congruence|done].
    destruct Hos as (_ & _ & _ & _ & Hc1 & _). destruct Hsf2 as (_ & _ & _ & _ & Hc2 & _). congruence. }
  { lia. }
  destruct (fs_put_new T PO t3 k (mk_value h name []) HF3 Hk HT) as (t4 & Hput & HF4 & Hst4 & _).
  - by exists h, name, [].
  - done.
  - rewrite Hst3, Hst2. cbn. apply inos_ok_new; [lia| |apply (fs_dirs _ _ _ HFS)].
    by rewrite (GetAttribute_mk h name Hwf).
  - exists t4, h. split; [|repeat (split; [done|])].
    + erewrite bind_Ret by exact Hrun. cbv iota beta. erewrite bind_Ret by exact Hnew.
      erewrite bind_Ret by exact Hval. rewrite bind_WriteLock.
      erewrite bind_Ret by exact Hput. rewrite bind_Unlock. reflexivity.
    + split; [by rewrite Hst4, Hst3, Hst2|]. unfold caller in *. by rewrite Hfl2, Hfuse, Hctx2, Hctx in Hfr.
Qed.
(** * Removing entries *)

(** No open file or directory refers to the key. *)
Definition closed PO t (k : tfs_meta_key_t) : Prop :=
  forall o h, handles t !! o = Some h -> key_ h = k -> PO o = 0.

Lemma closed_same PO t t' k : same_but_dc t t' -> closed PO t k -> closed PO t' k.
Proof. intros HS Hc o h. rewrite (sd_handles _ _ HS). apply Hc. Qed.

Lemma getable_closed T PO t k mode :
  FS T PO t -> closed PO t k -> getable PO (handles t) k mode.
Proof. intros HFS Hc o h Eh Hk. split; [apply (fs_tabled _ _ _ HFS o h Eh)|]. intros _. by eapply Hc. Qed.

Lemma dcache_ok_delete T k dc dc' :
  dcache_ok T dc -> dc_inv dc' ->
  (forall k', dc_view dc' k' = if decide (k' = k) then None else dc_view dc k') ->
  dcache_ok (delete k T) dc'.
Proof.
  intros [Hinv Htrue] Hinv' Hview. split; [done|]. intros k' i. rewrite Hview.
  case_decide as Hne; [done|]. rewrite lookup_delete_ne by done. apply Htrue.
Qed.

Lemma store_ok_delete m T k : key_ok k -> store_ok m T -> store_ok (delete (ToSlice k) m) (delete k T).
Proof.
  intros Hk [H1 H2 H3 H4]. split.
  - intros k' Hk'. destruct (decide (k' = k)) as [->|Hne]; [by rewrite !lookup_delete_eq|].
    rewrite !lookup_delete_ne by (try done; apply ToSlice_ne; done). by apply H1.
  - intros k' v' Hk'. rewrite lookup_delete_Some. intros [_ ?]. by eapply H2.
  - intros k' v'. rewrite lookup_delete_Some. intros [_ ?]. by eapply H3.
  - intros b v'. rewrite lookup_delete_Some. intros [_ ?]. by eapply H4.
Qed.

Lemma inos_ok_delete T k n : inos_ok T n -> inos_ok (delete k T) n.
Proof.
  intros Hok k1 v1. rewrite lookup_delete_Some. intros [_ H1]. destruct (Hok _ _ H1) as [Hr Hu].
  split; [done|]. intros k2 v2. rewrite lookup_delete_Some. intros [_ H2]. by eapply Hu.
Qed.

Lemma fs_remove T PO t k v :
  FS T PO t -> key_ok k -> closed PO t k -> room PO t k -> T !! k = Some v ->
  exists o h ic1 ic2 ic3 dc', InodeCache_Get k INODE_DELETE (t_ic t) = Ret (Some o) ic1 /\
    w_handles ic1.2 !! o = Some h /\ value_ h = v /\ Evict k (t_dc t) = Ret tt dc' /\
    InodeCache_Release o ic1 = Ret tt ic2 /\ InodeCache_Evict k ic2 = Ret tt ic3 /\
    forall os', dirs_ok (t_st t).1 os' ->
      FS (delete k T) PO (put_ic ic3 (put_dc dc' (put_st ((t_st t).1, os') t))).
Proof.
  intros HFS Hk Hcl Hroom HT. pose proof HFS as [(m & HI & Hso) Hdc Hset Htab [Hd Hin]].
  pose proof (Get_spec m T PO (t_ic t).1 (t_ic t).2 k INODE_DELETE) as Hget.
  replace ((t_ic t).1, (t_ic t).2) with (t_ic t) in Hget by by destruct (t_ic t).
  specialize (Hget HI Hk Hset (getable_closed _ _ _ _ _ HFS Hcl) Hroom). rewrite HT in Hget.
  destruct Hget as (o & h & ic1 & Hrun & [G1 G2 G3 G4 G5 G6 G7 G8 G12 G13 G9 G10 G11 G14]).
  specialize (G5 ltac:(done)).
  assert (PO o = 0) as Hpo.
  { destruct (handles t !! o) as [h0|] eqn:E0.
    - destruct (G13 h0 E0) as [Hk0 _]. by eapply Hcl.
    - destruct HI as [_ _ HV]. by apply (ic_dead _ _ _ _ _ _ _ HV). }
  destruct (Release_spec m T (hold o PO) ic1 o h G1 G2) as (C2 & Hrel & HI2 & [_ Htab2]); [|done|].
  { unfold hold. rewrite decide_True by done. lia. }
  assert (IC m T PO (C2, ic1.2)) as HI2'.
  { eapply IC_pins_ext; [|exact HI2]. intros x. apply unhold_hold. }
  assert (forall h', in_table ic1 h' -> in_table (C2, ic1.2) h') as Hkeep2.
  { intros h' (ch & Hp & Ht). exists ch. split; [done|]. by apply Htab2. }
  destruct (Evict_unused m T PO (C2, ic1.2) o h HI2' G2 Hpo (Hkeep2 _ G7)) as (ic3 & Hev & HI3 & Hhs3 & Hsup3).
  destruct (Evict_inv (t_dc t) k (dk_inv _ _ Hdc)) as (dc' & Hdce & Hdcinv & _ & Hview).
  exists o, h, ic1, (C2, ic1.2), ic3, dc'. rewrite <- G3 at 3.
  do 3 (split; [done|]). split; [done|]. split; [done|]. split; [done|].
  intros os' Hd'. unfold drop_store, drop_table in HI3. rewrite G5, G3 in HI3.
  split; unfold handles; cbn.
  - exists (delete (ToSlice k) m). split; [done|]. by apply store_ok_delete.
  - by eapply dcache_ok_delete.
  - rewrite Hhs3. intros x hx. cbn. rewrite lookup_delete_Some. intros [Hne Ex] Hz.
    eapply G10; [exact Ex|]. unfold hold. by rewrite decide_False by done.
  - rewrite Hhs3. intros x hx. cbn. rewrite lookup_delete_Some. intros [Hne Ex].
    destruct (G11 x hx Ex (not_eq_sym Hne)) as [Ex0 Hin0].
    destruct (Htab x hx Ex0) as [Hin1 Hm1]. split; [|done].
    apply (Hsup3 x hx); [done|by apply not_eq_sym|]. by apply Hkeep2, Hin0.
  - split; [done|by apply inos_ok_delete].
Qed.
Lemma disk_path_of_Ret T PO t i :
  FS T PO t -> disk_path_of i t = Ret (disk_path (datadir_ (t_st t).1) i) t.
Proof.
  intros HFS. unfold disk_path_of, bind, gets. apply sprintf_Ret.
  pose proof (do_len _ _ (proj1 (fs_dirs _ _ _ HFS))).
  pose proof (length_disk_path (datadir_ (t_st t).1) i). lia.
Qed.

Lemma os_unlink_spec path o :
  exists r o', os_unlink path o = Ret r o' /\ os_names o' = delete path (os_names o) /\
    os_dirs o' = os_dirs o /\ os_data o' = os_data o /\ os_fds o' = os_fds o.
Proof.
  unfold os_unlink, bind, get_state. destruct (os_names o !! path) eqn:E.
  - eexists _, _. split; [reflexivity|]. done.
  - eexists _, _. split; [reflexivity|]. cbn. by rewrite delete_id.
Qed.


(** The common end of [Unlink] and [RemoveDir], from any operating-system state. *)
Lemma remove_run T PO t k v :
  FS T PO t -> key_ok k -> closed PO t k -> room PO t k -> T !! k = Some v ->
  exists o h t1, in_ic (InodeCache_Get k INODE_DELETE) t = Ret (Some o) t1 /\
    handles t1 !! o = Some h /\ value_ h = v /\ t_st t1 = t_st t /\
    forall os', dirs_ok (t_st t).1 os' ->
    exists t', (in_dc (Evict k) ;;; in_ic (InodeCache_Release o) ;;; in_ic (InodeCache_Evict k) ;;;
                ret 0) (put_st ((t_st t).1, os') t1) = Ret 0 t' /\
      FS (delete k T) PO t' /\ (t_st t').2 = os'.
Proof.
  intros HFS Hk Hcl Hroom HT.
  destruct (fs_remove T PO t k v HFS Hk Hcl Hroom HT)
    as (o & h & ic1 & ic2 & ic3 & dc' & Hget & Eh & Hv & Hdc & Hrel & Hev & HF).
  exists o, h, (put_ic ic1 t). split; [by apply in_ic_Ret|]. split; [done|]. split; [done|]. split; [done|].
  intros os' Hd'. eexists. split.
  - erewrite bind_Ret by (apply in_dc_Ret; exact Hdc).
    erewrite bind_Ret by (apply in_ic_Ret; exact Hrel).
    erewrite bind_Ret by (apply in_ic_Ret; exact Hev). reflexivity.
  - split; [|done]. exact (HF os' Hd').
Qed.

Lemma remove_absent T PO t k :
  FS T PO t -> key_ok k -> closed PO t k -> room PO t k -> T !! k = None ->
  exists t', in_ic (InodeCache_Get k INODE_DELETE) t = Ret None t' /\ FS T PO t' /\ t_st t' = t_st t.
Proof.
  intros HFS Hk Hcl Hroom HT. pose proof HFS as [(m & HI & Hso) Hdc Hset Htab Hd].
  pose proof (Get_spec m T PO (t_ic t).1 (t_ic t).2 k INODE_DELETE) as Hget.
  replace ((t_ic t).1, (t_ic t).2) with (t_ic t) in Hget by by destruct (t_ic t).
  specialize (Hget HI Hk Hset (getable_closed _ _ _ _ _ HFS Hcl) Hroom). rewrite HT in Hget.
  destruct Hget as (s' & Hget & HI').
  eexists. split; [apply in_ic_Ret; exact Hget|]. split; [split; cbn; eauto|done].
Qed.

Lemma same_files_at o o' q : same_files o o' -> file_at o' q = file_at o q.
Proof. intros (H1 & H2 & _). unfold file_at, data_of. by rewrite H1, H2. Qed.

Lemma Unlink_refines T PO t path :
  FS T PO t -> path <> [] -> rooms T PO t path ->
  (forall k, resolve T path = Some k -> closed PO t k) ->
  exists t' r, Unlink path t = Ret r t' /\
    match (k ← resolve T path; v ← T !! k; Some (k, v)) with
    | Some (k, v) => r = 0 /\ FS (delete k T) PO t' /\
        (threshold_ (t_st t).1 < st_size (fstat (GetInodeHeader v)) ->
         os_names (t_st t').2 !! disk_path (datadir_ (t_st t).1) (st_ino (fstat (GetInodeHeader v))) = None) /\
        (forall q, q <> disk_path (datadir_ (t_st t).1) (st_ino (fstat (GetInodeHeader v))) ->
         file_at (t_st t').2 q = file_at (t_st t).2 q)
    | None => r = - ENOENT /\ FS T PO t' /\ forall q, file_at (t_st t').2 q = file_at (t_st t).2 q
    end.
Proof.
  intros HFS Hp Hroom Hcl. destruct (PathLookup_spec T PO t path HFS Hp) as (t1 & Hrun & HF1 & HS1 & He).
  unfold Unlink. erewrite bind_Ret by exact Hrun.
  destruct (resolve T path) as [k|] eqn:Er; cbn [mbind option_bind].
  2: { eexists _, _. split; [apply FSError_Ret; auto|]. split; [done|]. split; [done|].
       intros q. by apply same_files_at, HS1. }
  rewrite bind_WriteLock. pose proof (resolve_key_ok _ _ _ _ _ HFS Er) as Hk.
  pose proof (closed_same _ _ _ _ HS1 (Hcl k eq_refl)) as Hcl1.
  pose proof (room_same _ _ _ _ HS1 (Hroom k Er)) as Hroom1.
  destruct (T !! k) as [v|] eqn:ET; cbn [mbind option_bind].
  - destruct (remove_run T PO t1 k v HF1 Hk Hcl1 Hroom1 ET) as (o & h & t2 & Hget & Eh & Hv & Hst2 & Hrest).
    erewrite bind_Ret by exact Hget. cbv iota beta.
    pose proof (FS_table_wf _ _ _ _ _ HFS ET) as Hwf. subst v.
    rewrite bind_assoc. erewrite bind_Ret by (apply handle_at_Ret; exact Eh).
    rewrite bind_assoc. erewrite bind_Ret by by apply header_at_Ret.
    rewrite bind_assoc. unfold GetThreshold. unfold bind at 1, gets at 1. rewrite Hst2.
    rewrite (sd_fss _ _ HS1). rewrite bind_assoc.
    destruct (st_size (fstat (GetInodeHeader (value_ h))) >? threshold_ (t_st t).1) eqn:Esz; bool_to_prop.
    + destruct (os_unlink_spec (disk_path (datadir_ (t_st t).1) (st_ino (fstat (GetInodeHeader (value_ h)))))
        (t_st t1).2) as (r & os' & Hun & Hnm & Hdirs & Hdat & _).
      destruct (Hrest os') as (t3 & Hr3 & HF3 & Hos3).
      { eapply dirs_ok_eq; [exact Hdirs|]. apply (fs_dirs _ _ _ HF1). }
      exists t3, 0. split.
      * rewrite bind_assoc. erewrite bind_Ret.
        2: { unfold disk_path_of, bind, gets. rewrite Hst2, (sd_fss _ _ HS1). apply sprintf_Ret.
             pose proof (do_len _ _ (proj1 (fs_dirs _ _ _ HFS))).
             pose proof (length_disk_path (datadir_ (t_st t).1) (st_ino (fstat (GetInodeHeader (value_ h))))). lia. }
        rewrite bind_assoc. erewrite bind_Ret by (apply in_os_Ret; rewrite Hst2; exact Hun).
        rewrite bind_ret. rewrite Hst2. erewrite bind_Ret by exact Hr3. reflexivity.
      * split; [done|]. split; [done|]. split; [intros _; rewrite Hos3, Hnm; apply lookup_delete_eq|].
        intros q Hq. rewrite Hos3, <- (same_files_at _ _ _ (sd_os _ _ HS1)). unfold file_at, data_of.
        by rewrite Hnm, Hdat, lookup_delete_ne.
    + destruct (Hrest (t_st t1).2 (proj1 (fs_dirs _ _ _ HF1))) as (t3 & Hr3 & HF3 & Hos3).
      exists t3, 0. split.
      * rewrite bind_ret.
        replace (put_st ((t_st t1).1, (t_st t1).2) t2) with t2 in Hr3
          by (rewrite <- Hst2; by destruct t2 as [? ? [] ? ? ? ? ?]).
        erewrite bind_Ret by exact Hr3. reflexivity.
      * split; [done|]. split; [done|]. split; [lia|].
        intros q _. by rewrite Hos3, <- (same_files_at _ _ _ (sd_os _ _ HS1)).
  - destruct (remove_absent T PO t1 k HF1 Hk Hcl1 Hroom1 ET) as (t2 & Hget & HF2 & Hst2).
    eexists _, _. split; [erewrite bind_Ret by exact Hget; reflexivity|]. split; [done|]. split; [done|].
    intros q. rewrite Hst2. by apply same_files_at, HS1.
Qed.

Lemma RemoveDir_refines T PO t path :
  FS T PO t -> path <> [] -> rooms T PO t path ->
  (forall k, resolve T path = Some k -> closed PO t k) ->
  exists t' r, RemoveDir path t = Ret r t' /\
    match (k ← resolve T path; v ← T !! k; Some k) with
    | Some k => r = 0 /\ FS (delete k T) PO t'
    | None => r = - ENOENT /\ FS T PO t'
    end.
Proof.
  intros HFS Hp Hroom Hcl. destruct (PathLookup_spec T PO t path HFS Hp) as (t1 & Hrun & HF1 & HS1 & He).
  unfold RemoveDir. erewrite bind_Ret by exact Hrun.
  destruct (resolve T path) as [k|] eqn:Er; cbn [mbind option_bind].
  2: { eexists _, _. split; [apply FSError_Ret; auto|]. done. }
  rewrite bind_WriteLock. pose proof (resolve_key_ok _ _ _ _ _ HFS Er) as Hk.
  pose proof (closed_same _ _ _ _ HS1 (Hcl k eq_refl)) as Hcl1.
  pose proof (room_same _ _ _ _ HS1 (Hroom k Er)) as Hroom1.
  destruct (T !! k) as [v|] eqn:ET; cbn [mbind option_bind].
  - destruct (remove_run T PO t1 k v HF1 Hk Hcl1 Hroom1 ET) as (o & h & t2 & Hget & _ & _ & Hst2 & Hrest).
    destruct (Hrest (t_st t1).2 (proj1 (fs_dirs _ _ _ HF1))) as (t3 & Hr3 & HF3 & _).
    replace (put_st ((t_st t1).1, (t_st t1).2) t2) with t2 in Hr3
      by (rewrite <- Hst2; by destruct t2 as [? ? [] ? ? ? ? ?]).
    exists t3, 0. split; [|done]. erewrite bind_Ret by exact Hget. cbv iota beta.
    erewrite bind_Ret by exact Hr3. reflexivity.
  - destruct (remove_absent T PO t1 k HF1 Hk Hcl1 Hroom1 ET) as (t2 & Hget & HF2 & _).
    eexists _, _. split; [erewrite bind_Ret by exact Hget; reflexivity|]. done.
Qed.
End ops.
