(* ===== verification/FsRename.v ===== *)
(** [TableFS::Rename] moves an entry of the abstract table. *)

From S2P Require Import Prelude Hashes Coding WriteBatch Inode DCache Cache Kv ICache Posix Properties State TableFS FsInv FsOps.

Set Default Proof Using "Type".

Section rename.
Context {S It : Type} `{!KvWrapper S It, !KvSpec S It}.
Implicit Types (T : table) (PO : nat -> Z) (t : tfs S) (m : gmap bytes bytes).

Lemma IC_live_tabled m T PO st x :
  IC m T PO st -> (forall o h, w_handles st.2 !! o = Some h -> in_table st h) ->
  clive st.1 x <> None -> tabled st.1 x.
Proof.
  intros [_ _ HV] Htab Hx. destruct (clive st.1 x) as [[k o]|] eqn:E; [|done].
  destruct (live_handle HV _ _ _ E) as (h & ch & Eh & Hid & Hok & _).
  destruct (Htab o h Eh) as (ch' & Hp & Ht).
  pose proof (ho_pointer _ _ _ _ _ _ _ Hok). by assert (ch' = ch) as -> by congruence; rewrite Hid in Ht.
Qed.

(** While one handle is held and it is the newest of its shard, another inode can
    be brought in. *)
Lemma one_held_safe m T st o h ch k :
  IC m T (hold o idle) st -> (forall o h, w_handles st.2 !! o = Some h -> in_table st h) ->
  w_handles st.2 !! o = Some h -> pointer h = Some ch -> newest st.1 (hid ch) ->
  ic_safe (hold o idle) st.1 k.
Proof.
  intros HI Htab Eh Hp Hn. pose proof HI as [_ Hc HV]. split.
  2: { intros x _. unfold pins_of, hold, idle. destruct (clive st.1 x) as [[]|]; [case_decide|]; lia. }
  apply csafe_newest; [done|intros x; by eapply IC_live_tabled|].
  intros x _ Hx. unfold pins_of in Hx. destruct (clive st.1 x) as [[kx ox]|] eqn:E; [|done].
  unfold hold, idle in Hx. destruct (decide (ox = o)) as [->|]; [|done].
  destruct (live_handle HV _ _ _ E) as (h' & ch' & Eh' & <- & Hok & _).
  assert (h' = h) as -> by congruence. pose proof (ho_pointer _ _ _ _ _ _ _ Hok).
  by assert (ch' = ch) as -> by congruence.
Qed.

(** The cached entry of another key is not in use. *)
Lemma other_key_idle m T st o h k id :
  IC m T (hold o idle) st -> w_handles st.2 !! o = Some h -> key_ok k -> key_ h <> k ->
  ccached st.1 (ToSlice k) = Some id -> pins_of (hold o idle) st.1 id = 0.
Proof.
  intros [_ Hc HV] Eh Hk Hne Hcc. apply (ccached_Some _ _ _ _ Hc) in Hcc as [_ [x Hl]].
  unfold pins_of. rewrite Hl. unfold hold, idle. rewrite decide_False; [done|]. intros ->.
  destruct (live_handle HV _ _ _ Hl) as (h' & ch' & Eh' & _ & Hok & Hkey).
  assert (h' = h) as -> by congruence. apply Hne.
  symmetry. apply ToSlice_inj; [done|apply Hok|done].
Qed.

Lemma delete_twice {V} `{Countable K} (k : K) (M : gmap K V) : delete k (delete k M) = delete k M.
Proof. apply delete_id, lookup_delete_eq. Qed.

(** After the new entry is in and the batch is written: both handles are held,
    the old one is out of the table. *)
Record committed m T (w : ic_world S) (o n : nat) (h hn : InodeCacheHandle) C' w' : Prop := {
  cm_ic : IC (<[ToSlice (key_ hn) := value_ hn]> (delete (ToSlice (key_ h)) m))
             (delete (key_ h) (<[key_ hn := value_ hn]> T)) (hold n (hold o idle)) (C', w');
  cm_old : w_handles w' !! o = Some h;
  cm_new : w_handles w' !! n = Some hn;
  cm_ne : n <> o;
  cm_tab : forall x hx, w_handles w' !! x = Some hx -> x <> o -> in_table (C', w') hx;
  cm_gone : forall x hx, w_handles w' !! x = Some hx -> in_table (C', w') hx -> key_ hx <> key_ h;
  cm_rest : forall x hx, w_handles w' !! x = Some hx -> x <> n -> w_handles w !! x = Some hx
}.

Lemma rename_commit m T C w o h k2 v' :
  let st := (C, w) in
  IC m T (hold o idle) st -> (forall o h, w_handles w !! o = Some h -> in_table st h) ->
  settled (hold o idle) (w_handles w) ->
  w_handles w !! o = Some h -> (exists ch, pointer h = Some ch /\ newest C (hid ch)) ->
  mode_ h = INODE_DELETE -> key_ h <> k2 -> key_ok k2 -> str_ok v' ->
  exists n st2 chn C3 w3, InodeCache_Insert k2 v' st = Ret n st2 /\
    InodeCache_BatchCommit o n st2 = Ret tt (C3, w3) /\
    committed m T w o n h (mkICH k2 v' INODE_READ (Some chn)) C3 w3.
Proof.
  intros st HI Htab Hset Eh (ch & Hptr & Hnew) Hm Hne Hk2 Hv'.
  destruct (insert_handle_spec m T (hold o idle) C w k2 v' INODE_WRITE)
    as (n & chn & st2 & Hins & HI2 & En & Hfresh & Htn & Hkeep2 & Hset2 & Hoth2 & _); try done.
  { intros id Hid. split; [|done]. by eapply (other_key_idle m T st o h k2 id HI Eh Hk2 Hne). }
  { intros _. by eapply (one_held_safe m T st). }
  rewrite decide_True in HI2 by done.
  assert (n <> o) as Hno by (intros ->; congruence).
  assert (w_handles st2.2 !! o = Some h) as Eh2.
  { rewrite Hkeep2; [done|]. unfold hold, idle. rewrite decide_True by done. lia. }
  assert (forall x hx, w_handles st2.2 !! x = Some hx -> in_table st2 hx) as Htab2.
  { intros x hx Ex. destruct (decide (x = n)) as [->|Hx].
    - exists chn. split; [|done]. rewrite En in Ex. by injection Ex as <-.
    - destruct (Hoth2 x hx Ex Hx) as [Ex0 Hin]. apply Hin. by eapply Htab. }
  destruct (BatchCommit_spec m _ _ st2 o n h _ HI2 Eh2 En) as (C3 & s3 & Hbc & HI3 & Hnt3 & Hsub3 & Hsup3);
    [unfold hold, idle; repeat case_decide; lia|by eapply Htab2|by eapply Htab2|done|done|done|].
  cbn [key_ value_ set_mode_] in *. set (w3 := put_handles _ _) in *.
  assert (forall x hx, w_handles w3 !! x = Some hx -> x <> n -> w_handles st2.2 !! x = Some hx) as Hback.
  { intros x hx Ex Hx. cbn in Ex. by rewrite lookup_insert_ne in Ex by done. }
  exists n, st2, chn, C3, w3. split; [exact Hins|]. split; [exact Hbc|].
  split; try done; [by cbn; rewrite lookup_insert_ne|apply lookup_insert_eq| | |].
  - intros x hx Ex Hxo. destruct (decide (x = n)) as [->|Hx].
    + destruct (Hsup3 n _ En Hno (Htab2 n _ En)) as (c & Hc & Htc). exists c.
      cbn in Ex. rewrite lookup_insert_eq in Ex. by injection Ex as <-.
    + apply Hback in Ex; [|done]. apply (Hsup3 x hx Ex Hxo). by eapply Htab2.
  - intros x hx Ex Hin Hkx. destruct (decide (x = n)) as [->|Hx].
    { cbn in Ex. rewrite lookup_insert_eq in Ex. injection Ex as <-. by apply Hne. }
    apply Hback in Ex; [|done].
    destruct (in_table_cached _ _ _ _ _ _ HI2 Ex (Htab2 _ _ Ex)) as (c1 & K1 & T1 & _).
    destruct (in_table_cached _ _ _ _ _ _ HI2 Eh2 (Htab2 _ _ Eh2)) as (c2 & K2 & T2 & _).
    assert (x = o) as -> by (eapply (tabled_once (ic_view _ _ _ _ HI2)); eauto).
    apply Hnt3. rewrite Eh2 in Ex. by injection Ex as <-.
  - intros x hx Ex Hx. apply Hback in Ex; [|done]. apply (Hoth2 x hx Ex Hx).
Qed.

Lemma rename_release m T w o n h hn C3 w3 :
  committed m T w o n h hn C3 w3 -> mode_ h = INODE_DELETE -> key_ h <> key_ hn ->
  exists C4 st5, InodeCache_Release n (C3, w3) = Ret tt (C4, w3) /\
    InodeCache_Release o (C4, w3) = Ret tt st5 /\ InodeCache_Evict (key_ h) st5 = Ret tt st5 /\
    IC (<[ToSlice (key_ hn) := value_ hn]> (delete (ToSlice (key_ h)) m))
       (<[key_ hn := value_ hn]> (delete (key_ h) T)) idle st5 /\
    w_handles st5.2 = delete o (w_handles w3) /\
    forall x hx, w_handles st5.2 !! x = Some hx -> in_table st5 hx.
Proof.
  intros [HI3 Eh En Hno Htab Hgone Hrest] Hm Hne.
  destruct (ic_handle _ _ _ _ _ _ _ (ic_view _ _ _ _ HI3) o h Eh) as [ch [Hk1 _ _ _ _]].
  destruct (ic_handle _ _ _ _ _ _ _ (ic_view _ _ _ _ HI3) n hn En) as [chn [Hk2 _ _ _ _]].
  destruct (Release_spec _ _ _ (C3, w3) n hn HI3 En) as (C4 & Hr4 & HI4 & [_ Htab4]).
  { unfold hold. rewrite decide_True by done. unfold idle. repeat case_decide; lia. }
  { by eapply Htab. }
  assert (forall x, unhold n (hold n (hold o idle)) x = hold o idle x) as Hpins4 by apply unhold_hold.
  apply (IC_pins_ext _ _ _ _ _ Hpins4) in HI4. cbn [fst snd] in *.
  assert (forall hx, in_table (C4, w3) hx <-> in_table (C3, w3) hx) as Hiff.
  { intros hx. unfold in_table. cbn [fst] in *. by setoid_rewrite Htab4. }
  destruct (Release_orphan _ _ _ (C4, w3) o h HI4 Eh) as (st5 & Hr5 & HI5 & Hhs5 & Htab5).
  { unfold hold, idle. by rewrite decide_True. }
  { intros Hin%Hiff. exact (Hgone o h Eh Hin eq_refl). }
  { intros _ id x Ht Hl.
    destruct (live_handle (ic_view _ _ _ _ HI4) _ _ _ Hl) as (hx & cx & Ex & <- & Hok & Hkey).
    apply (Hgone x hx Ex).
    - apply Hiff. exists cx. split; [apply Hok|done].
    - symmetry. apply ToSlice_inj; [done|apply Hok|done]. }
  apply (IC_pins_ext _ _ _ idle) in HI5; [|apply unhold_hold].
  unfold drop_store, drop_table in HI5. rewrite Hm in HI5.
  rewrite delete_insert_ne, delete_twice in HI5 by (apply ToSlice_ne; done).
  rewrite delete_twice, delete_insert_ne in HI5 by done. cbn [fst snd] in *.
  assert (forall hx, in_table st5 hx <-> in_table (C3, w3) hx) as Hiff5.
  { intros hx. rewrite <- Hiff. unfold in_table. cbn [fst] in *. by setoid_rewrite Htab5. }
  exists C4, st5. split; [done|]. split; [done|]. split; [|split; [done|split; [done|]]].
  - eapply Evict_absent; [exact HI5|done|]. intros x hx Ex Hkx Hin%Hiff5.
    rewrite Hhs5 in Ex. apply lookup_delete_Some in Ex as [Hx Ex]. exact (Hgone x hx Ex Hin Hkx).
  - rewrite Hhs5. intros x hx [Hx Ex]%lookup_delete_Some. apply Hiff5. by apply (Htab x hx Ex), not_eq_sym.
Qed.

(** ** The file system *)

Lemma inos_ok_move T k1 k2 v v' n :
  T !! k1 = Some v -> st_ino (GetAttribute v') = st_ino (GetAttribute v) -> inos_ok T n ->
  inos_ok (<[k2 := v']> (delete k1 T)) n.
Proof.
  intros HT Hi Hok ka va Ha.
  assert (forall k0 v0, <[k2 := v']> (delete k1 T) !! k0 = Some v0 ->
            (k0 = k2 /\ v0 = v') \/ (k0 <> k2 /\ k0 <> k1 /\ T !! k0 = Some v0)) as Hcase.
  { intros k0 v0. rewrite lookup_insert_Some, lookup_delete_Some. naive_solver. }
  destruct (Hok _ _ HT) as [Hr Hu].
  destruct (Hcase _ _ Ha) as [[-> ->]|(Hne & Hne1 & HTa)].
  - rewrite Hi. split; [done|]. intros kb vb Hb E.
    destruct (Hcase _ _ Hb) as [[-> _]|(_ & Hk & HTb)]; [done|]. destruct Hk. by eapply Hu.
  - destruct (Hok _ _ HTa) as [Hra Hua]. split; [done|]. intros kb vb Hb E.
    destruct (Hcase _ _ Hb) as [[-> ->]|(_ & _ & HTb)]; [|by eapply Hua].
    destruct Hne1. symmetry. apply (Hua _ _ HT). congruence.
Qed.

Lemma dcache_ok_move T k1 k2 v' dc dc1 dc2 :
  dcache_ok T dc -> dc_inv dc2 ->
  (forall k, dc_view dc1 k = if decide (k = k1) then None else dc_view dc k) ->
  (forall k, dc_view dc2 k = if decide (k = k2) then None else dc_view dc1 k) ->
  dcache_ok (<[k2 := v']> (delete k1 T)) dc2.
Proof.
  intros [_ Htrue] Hinv H1 H2. split; [done|]. intros k i. rewrite H2, H1.
  destruct (decide (k = k2)) as [|Hne2]; [done|]. destruct (decide (k = k1)) as [|Hne1]; [done|].
  rewrite lookup_insert_ne, lookup_delete_ne by done. apply Htrue.
Qed.

Lemma store_ok_move m T k1 k2 v' :
  key_ok k1 -> key_ok k2 -> wf_inode v' -> store_ok m T ->
  store_ok (<[ToSlice k2 := v']> (delete (ToSlice k1) m)) (<[k2 := v']> (delete k1 T)).
Proof. intros Hk1 Hk2 Hwf Hso. apply store_ok_both; [done|done|]. by apply store_ok_delete. Qed.

(** The value of a renamed inode: the same header, but for the length of the
    name, and the same data. *)
Lemma wf_RenameInodeValue v name :
  wf_inode v -> str_ok v -> bytes_ok name -> Z.of_nat (length name) < 2 ^ 31 ->
  Z.of_nat (length v) + Z.of_nat (length name) < 2 ^ 32 ->
  wf_inode (RenameInodeValue v name) /\ str_ok (RenameInodeValue v name) /\
  GetAttribute (RenameInodeValue v name) = GetAttribute v.
Proof.
  intros (h & old & data & -> & Hwf) [Hb Hl] Hn Hnl Hsum.
  pose proof (length_mk h old Hwf data) as Hlen.
  rewrite (RenameInodeValue_mk h old Hwf name data) by lia.
  assert (value_wf (set_namelen (Z.of_nat (length name)) h) name) as Hwf'.
  { destruct Hwf as [(H1 & H2 & H3 & H4 & H5) H6]. split; [|done].
    exact (conj H1 (conj H2 (conj H3 (conj H4 (conj (Nat2Z.is_nonneg _) (Z.lt_trans _ _ (2 ^ 32) Hnl eq_refl)))))). }
  split; [by eexists _, _, _|]. split; [split|].
  - unfold mk_value in *. apply Forall_app in Hb as [_ Hb]. apply Forall_app in Hb as [_ Hb].
    apply Forall_app. split; [apply header_bytes_ok, Hwf'|]. apply Forall_app. done.
  - rewrite (length_mk _ name Hwf'). lia.
  - by rewrite (GetAttribute_mk _ name Hwf'), (GetAttribute_mk _ old Hwf).
Qed.

Lemma fs_rename T t k1 k2 name v :
  FS T idle t -> key_ok k1 -> key_ok k2 -> k1 <> k2 -> T !! k1 = Some v ->
  bytes_ok name -> Z.of_nat (length name) < 2 ^ 31 -> Z.of_nat (length v) + Z.of_nat (length name) < 2 ^ 32 ->
  exists o h n ic1 ic2 ic3 ic4 ic5 dc1 dc2,
    InodeCache_Get k1 INODE_DELETE (t_ic t) = Ret (Some o) ic1 /\ w_handles ic1.2 !! o = Some h /\ value_ h = v /\
    InodeCache_Insert k2 (RenameInodeValue v name) ic1 = Ret n ic2 /\
    InodeCache_BatchCommit o n ic2 = Ret tt ic3 /\ InodeCache_Release n ic3 = Ret tt ic4 /\
    InodeCache_Release o ic4 = Ret tt ic5 /\ InodeCache_Evict k1 ic5 = Ret tt ic5 /\
    Evict k1 (t_dc t) = Ret tt dc1 /\ Evict k2 dc1 = Ret tt dc2 /\
    FS (<[k2 := RenameInodeValue v name]> (delete k1 T)) idle (put_dc dc2 (put_ic ic5 t)).
Proof.
  intros HFS Hk1 Hk2 Hne HT Hbn Hln Hsum. pose proof HFS as [(m & HI & Hso) Hdc Hset Htab [Hd Hin]].
  pose proof (Get_spec m T idle (t_ic t).1 (t_ic t).2 k1 INODE_DELETE) as Hget.
  replace ((t_ic t).1, (t_ic t).2) with (t_ic t) in Hget by by destruct (t_ic t).
  specialize (Hget HI Hk1 Hset). rewrite HT in Hget.
  destruct Hget as (o & h & [C1 w1] & Hrun & [G1 G2 G3 G4 G5 G6 G7 G8 G12 G13 G9 G10 G11 G14]).
  { by eapply getable_closed. } { by eapply FS_room_idle. }
  specialize (G5 ltac:(done)). pose proof (ic_table _ _ _ _ _ _ _ (ic_view _ _ _ _ HI) _ _ HT) as [_ Hstr].
  destruct (wf_RenameInodeValue v name (FS_table_wf _ _ _ _ _ HFS HT) Hstr Hbn Hln Hsum) as (Hwf' & Hstr' & Hattr').
  destruct (rename_commit m T C1 w1 o h k2 (RenameInodeValue v name)) as (n & ic2 & chn & C3 & w3 & Hins & Hbc & Hcm);
    try done; [|by rewrite G3|].
  { intros x hx Ex. destruct (decide (x = o)) as [->|Hx]; [cbn in G2; by assert (hx = h) as -> by congruence|].
    destruct (G11 x hx Ex Hx) as [Ex0 Hin0]. apply Hin0. by destruct (Htab x hx Ex0). }
  destruct (rename_release _ _ _ _ _ _ _ _ _ Hcm G5) as (C4 & ic5 & Hr4 & Hr5 & Hev & HI5 & Hhs5 & Htab5);
    [by rewrite G3|]. cbn [key_ value_] in *. rewrite G3 in *.
  destruct (Evict_inv (t_dc t) k1 (dk_inv _ _ Hdc)) as (dc1 & Hdce1 & Hdcinv1 & _ & Hview1).
  destruct (Evict_inv dc1 k2 Hdcinv1) as (dc2 & Hdce2 & Hdcinv2 & _ & Hview2).
  exists o, h, n, (C1, w1), ic2, (C3, w3), (C4, w3), ic5, dc1, dc2. do 10 (split; [done|]).
  assert (forall x hx, w_handles ic5.2 !! x = Some hx -> mode_ hx = INODE_READ) as Hread.
  { rewrite Hhs5. intros x hx [Hx Ex]%lookup_delete_Some. destruct (decide (x = n)) as [->|Hxn].
    - rewrite (cm_new _ _ _ _ _ _ _ _ _ Hcm) in Ex. by injection Ex as <-.
    - apply (cm_rest _ _ _ _ _ _ _ _ _ Hcm) in Ex; [|done]. apply (G10 x hx Ex).
      unfold hold, idle. rewrite decide_False by by apply not_eq_sym. done. }
  split; unfold handles; cbn.
  - eexists. split; [exact HI5|]. by apply store_ok_move.
  - by eapply dcache_ok_move.
  - intros x hx Ex _. by eapply Hread.
  - intros x hx Ex. split; [by eapply Htab5|]. by rewrite (Hread x hx Ex).
  - split; [done|]. by eapply inos_ok_move; [|rewrite Hattr'|].
Qed.

(** [Rename] in a file system with nothing open moves the entry, replaces what
    was at the new path, and reports a missing path. *)
Lemma Rename_refines T t old_path new_path :
  FS T idle t -> old_path <> [] -> path_ok new_path ->
  (forall k1 k2 name v, resolve T old_path = Some k1 -> resolve_name T new_path = Some (k2, name) ->
     T !! k1 = Some v -> k1 <> k2 /\ Z.of_nat (length v) + Z.of_nat (length name) < 2 ^ 32) ->
  exists t' r, Rename old_path new_path t = Ret r t' /\
    match resolve T old_path, resolve_name T new_path with
    | Some k1, Some (k2, name) =>
        match T !! k1 with
        | Some v => r = 0 /\ FS (<[k2 := RenameInodeValue v name]> (delete k1 T)) idle t'
        | None => r = - ENOENT /\ FS T idle t'
        end
    | _, _ => r = - ENOENT /\ FS T idle t'
    end.
Proof.
  intros HFS Hp1 Hp2 Hside. unfold Rename.
  destruct (PathLookup_spec T idle t old_path HFS Hp1) as (t1 & Hrun1 & HF1 & _ & He1).
  erewrite bind_Ret by exact Hrun1. destruct (resolve T old_path) as [k1|] eqn:Er1.
  2: { exists t1, (- ENOENT). split; [apply FSError_Ret; auto|done]. }
  destruct (PathLookup_name_spec T idle t1 new_path HF1 (proj1 Hp2)) as (t2 & Hrun2 & HF2 & _ & He2).
  erewrite bind_Ret by exact Hrun2. destruct (resolve_name T new_path) as [[k2 name]|] eqn:Er2.
  2: { exists t2, (- ENOENT). split; [apply FSError_Ret, He2; by rewrite resolve_name_key, Er2|done]. }
  pose proof (resolve_key_ok _ _ _ _ _ HFS Er1) as Hk1.
  destruct (resolve_name_ok _ _ _ _ _ _ HFS Hp2 Er2) as (Hk2 & Hbn & Hln).
  destruct (lock_order k1 k2) as [large small]. rewrite !bind_WriteLock.
  destruct (T !! k1) as [v|] eqn:ET.
  - destruct (Hside k1 k2 name v eq_refl eq_refl ET) as [Hne Hlen].
    destruct (fs_rename T t2 k1 k2 name v HF2 Hk1 Hk2 Hne ET Hbn Hln Hlen)
      as (o & h & n & ic1 & ic2 & ic3 & ic4 & ic5 & dc1 & dc2 & Hget & Eh & Hv & Hins & Hbc & Hr1 & Hr2 & Hev & Hd1 & Hd2 & HF').
    pose proof (FS_table_wf _ _ _ _ _ HFS ET) as Hwf. subst v.
    eexists _, 0. split; [|split; [done|exact HF']].
    erewrite bind_Ret by (apply in_ic_Ret; exact Hget). cbv iota beta.
    rewrite bind_assoc. erewrite bind_Ret by (apply handle_at_Ret; exact Eh).
    rewrite bind_assoc. erewrite bind_Ret by by apply header_at_Ret. cbv zeta.
    rewrite bind_assoc. erewrite bind_Ret by (apply in_ic_Ret; exact Hins).
    rewrite bind_assoc. erewrite bind_Ret by (apply in_ic_Ret; exact Hbc).
    rewrite bind_assoc. erewrite bind_Ret by (apply in_ic_Ret; exact Hr1).
    rewrite bind_assoc. erewrite bind_Ret by (apply in_ic_Ret; exact Hr2).
    rewrite bind_assoc. erewrite bind_Ret by (apply in_ic_Ret; exact Hev).
    rewrite bind_assoc. erewrite bind_Ret by (apply in_dc_Ret; exact Hd1).
    rewrite bind_assoc. erewrite bind_Ret by (apply in_dc_Ret; exact Hd2).
    rewrite bind_ret, !bind_Unlock. reflexivity.
  - destruct (remove_absent T idle t2 k1 HF2 Hk1) as (t3 & Hget & HF3 & _); [done|by eapply FS_room_idle|done|].
    exists t3, (- ENOENT). split; [|done]. erewrite bind_Ret by exact Hget. cbv iota beta.
    rewrite bind_ret, !bind_Unlock. reflexivity.
Qed.
End rename.
