(* ===== verification/FsFile.v ===== *)
(** Open files: [Open], [Read], [Write], [Release] keep the contents of a file,
    inline in the inode or in a data file on disk, and across the migration from
    the one to the other. *)

From S2P Require Import Prelude Hashes Coding WriteBatch Inode DCache Cache Kv ICache Posix Properties State TableFS FsInv FsOps.

Set Default Proof Using "Type".

(** Flags of an ordinary read-write open. *)
Record rw_flags (flags : Z) : Prop := {
  rw_read : readable flags = true;
  rw_write : writable flags = true;
  rw_append : has_flag flags O_APPEND = false;
  rw_trunc : has_flag flags O_TRUNC = false
}.

Lemma land_creat flags f : Z.land O_CREAT f = 0 -> Z.land (Z.lor flags O_CREAT) f = Z.land flags f.
Proof. intros E. by rewrite Z.land_lor_distr_l, E, Z.lor_0_r. Qed.

Lemma rw_flags_creat flags : rw_flags flags -> rw_flags (Z.lor flags O_CREAT).
Proof.
  intros [H1 H2 H3 H4]. unfold readable, writable, has_flag in *.
  split; unfold readable, writable, has_flag; by rewrite land_creat.
Qed.

Lemma has_flag_creat flags : has_flag (Z.lor flags O_CREAT) O_CREAT = true.
Proof.
  unfold has_flag. rewrite Z.land_lor_distr_l, Z.land_diag. apply negb_true_iff, Z.eqb_neq.
  intros E. apply Z.lor_eq_0_iff in E as [_ E]. done.
Qed.

Section files.
Context {S It : Type} `{!KvWrapper S It, !KvSpec S It}.
Implicit Types (T : table) (PO : nat -> Z) (t : tfs S) (m : gmap bytes bytes).

Definition data_file t (hd : tfs_inode_header) : bytes :=
  disk_path (datadir_ (t_st t).1) (st_ino (fstat hd)).

(** A descriptor of the data file, or none yet. *)
Definition fd_ok t (path : bytes) (fd : Z) : Prop :=
  fd = -1 \/
  (0 <= fd /\ exists v fl, os_fds (t_st t).2 !! fd = Some (v, fl) /\ os_names (t_st t).2 !! path = Some v /\
     rw_flags fl).

(** The value [v] of an inode and the descriptor [fd] of an open file represent
    the contents [c]: small files are inline, larger ones have a data file. *)
Definition file_rep t (v : bytes) (fd : Z) (c : bytes) : Prop :=
  exists hd name data, v = mk_value hd name data /\ value_wf hd name /\
    st_size (fstat hd) = Z.of_nat (length c) /\
    ((has_blob hd = 0 /\ data = c /\ Z.of_nat (length c) <= threshold_ (t_st t).1 /\ fd = -1 /\
      file_at (t_st t).2 (data_file t hd) = None) \/
     (has_blob hd = 1 /\ data = [] /\ file_at (t_st t).2 (data_file t hd) = Some c /\ fd_ok t (data_file t hd) fd /\
      threshold_ (t_st t).1 < Z.of_nat (length c))).

Record file_open PO t (fh : nat) (f : tfs_file_handle_t) (h : InodeCacheHandle) (c : bytes) : Prop := {
  fo_fh : t_fhs t !! fh = Some f;
  fo_h : handles t !! fh_handle_ f = Some h;
  fo_pin : 0 < PO (fh_handle_ f);
  fo_flags : rw_flags (fh_flags_ f);
  fo_rep : file_rep t (value_ h) (fh_fd_ f) c;
  fo_os : os_wf (t_st t).2
}.

Lemma file_handle_Ret t fh f : t_fhs t !! fh = Some f -> file_handle fh t = Ret f t.
Proof. intros E. unfold file_handle, bind, gets. by rewrite E. Qed.

(** The directory of the data file of an inode in the table exists. *)
Lemma data_file_dir T PO t o h hd name data :
  FS T PO t -> handles t !! o = Some h -> value_ h = mk_value hd name data -> value_wf hd name ->
  dirname (data_file t hd) ∈ os_dirs (t_st t).2.
Proof.
  intros HFS Eh Hv Hwf. destruct (FS_handle_value _ _ _ _ _ HFS Eh) as (HT & _).
  destruct (fs_dirs _ _ _ HFS) as [Hd Hin]. destruct (Hin _ _ HT) as [Hr _].
  rewrite Hv, (GetAttribute_mk hd name Hwf) in Hr. unfold data_file. rewrite dirname_disk_path.
  by apply (do_dirs _ _ Hd).
Qed.

(** Opening the data file, which is created when it is not there. *)
Lemma OpenDiskFile_spec T PO t hd flags :
  FS T PO t -> os_wf (t_st t).2 -> dirname (data_file t hd) ∈ os_dirs (t_st t).2 -> rw_flags flags ->
  exists fd v t', OpenDiskFile hd flags t = Ret fd t' /\ FS T PO t' /\ 3 <= fd /\ os_wf (t_st t').2 /\
    t' = put_st ((t_st t).1, (t_st t').2) t /\
    os_fds (t_st t').2 = <[fd := (v, Z.lor flags O_CREAT)]> (os_fds (t_st t).2) /\ os_fds (t_st t).2 !! fd = None /\
    os_names (t_st t').2 !! data_file t hd = Some v /\
    only_file (data_file t hd) (t_st t).2 (t_st t').2 /\
    file_at (t_st t').2 (data_file t hd) = Some (default [] (file_at (t_st t).2 (data_file t hd))).
Proof.
  intros HFS Hwf Hdir Hfl. pose proof (rw_flags_creat _ Hfl) as [Hr Hw Ha Ht].
  destruct (os_open_spec (data_file t hd) (Z.lor flags O_CREAT) (t_st t).2 Hwf Hdir (has_flag_creat flags))
    as (fd & v & o' & Hopen & Hge & Hfree & Hfds & Hnm & Hwf' & Hof & Hfa).
  exists fd, v, (put_st ((t_st t).1, o') t). split.
  - unfold OpenDiskFile. erewrite bind_Ret by by eapply disk_path_of_Ret.
    erewrite bind_Ret by (apply in_os_Ret; exact Hopen).
    by replace (fd =? -1) with false by (symmetry; lia).
  - rewrite Ht in Hfa. split; [|by split_and!].
    eapply FS_os; [exact HFS|done|done| |done]. cbn. eapply dirs_ok_eq; [apply Hof|apply HFS].
Qed.

(** Making the handle of an open file dirty. *)
Lemma fs_dirty T PO t o h :
  FS T PO t -> handles t !! o = Some h -> 0 < PO o ->
  exists t', set_handle_mode o INODE_WRITE t = Ret tt t' /\ FS T PO t' /\
    t' = put_ic ((t_ic t).1, put_handles (<[o := set_mode_ INODE_WRITE h]> (handles t)) (t_ic t).2) t.
Proof.
  intros HFS Eh Hpo. destruct (FS_handle_value _ _ _ _ _ HFS Eh) as (HT & Hk & Hv).
  pose proof HFS as [(m & HI & Hso) Hdc Hset Htab Hd]. destruct (Htab o h Eh) as [Hin Hnd].
  destruct (in_table_cached _ _ _ _ _ _ HI Eh Hin) as (ch & Hok & Ht & _).
  pose proof HI as [Hrep Hc HV].
  eexists. split; [by apply upd_handle_run|]. split; [|done].
  pose proof (V_write _ _ _ _ _ _ _ _ _ _ (value_ h) HV Eh Hok Ht Hv) as HW.
  rewrite (insert_id T) in HW by done.
  split; unfold handles; cbn; [|done| | |done].
  - exists m. split; [by split|done].
  - intros x hx [[<- _]|[_ Ex]]%lookup_insert_Some; [lia|]. by apply Hset.
  - intros x hx [[<- <-]|[_ Ex]]%lookup_insert_Some; [|exact (Htab x hx Ex)].
    split; [|done]. destruct Hin as (c & Hp & Htc). by exists c.
Qed.

(** Steps that only touch one data file, descriptors and one file handle. *)
Record disk_step (path : bytes) (fh : nat) t t' : Prop := {
  ds_ic : t_ic t' = t_ic t;
  ds_dc : t_dc t' = t_dc t;
  ds_fss : (t_st t').1 = (t_st t).1;
  ds_file : only_file path (t_st t).2 (t_st t').2;
  ds_wf : os_wf (t_st t').2;
  ds_fhs : forall x, x <> fh -> t_fhs t' !! x = t_fhs t !! x
}.

Lemma disk_step_FS path fh T PO t t' : disk_step path fh t t' -> FS T PO t -> FS T PO t'.
Proof.
  intros [H1 H2 H3 H4 H5 H6] HFS. eapply FS_os; [exact HFS|done|done| |by rewrite H3].
  rewrite H3. eapply dirs_ok_eq; [apply H4|apply HFS].
Qed.

Lemma disk_step_trans path fh t1 t2 t3 :
  disk_step path fh t1 t2 -> disk_step path fh t2 t3 -> disk_step path fh t1 t3.
Proof.
  intros [H1 H2 H3 H4 H5 H6] [G1 G2 G3 G4 G5 G6]. split; try congruence.
  - by eapply only_file_trans.
  - intros x Hx. by rewrite G6, H6.
Qed.

Lemma disk_step_refl path fh t : os_wf (t_st t).2 -> disk_step path fh t t.
Proof. intros Hwf. split; try done. Qed.

(** A descriptor open on the data file, with its contents. *)
Definition opened t (path : bytes) (fd : Z) (c : bytes) : Prop :=
  0 <= fd /\ exists v fl, os_fds (t_st t).2 !! fd = Some (v, fl) /\ os_names (t_st t).2 !! path = Some v /\
    rw_flags fl /\ data_of (t_st t).2 v = c.

Lemma opened_file_at t path fd c : opened t path fd c -> file_at (t_st t).2 path = Some c.
Proof. intros (_ & v & fl & _ & Hn & _ & <-). unfold file_at. by rewrite Hn. Qed.

Lemma opened_fd_ok t path fd c : opened t path fd c -> fd_ok t path fd.
Proof. intros (H0 & v & fl & E & Hn & Hf & _). right. eauto 10. Qed.

Lemma disk_fd_spec T PO t fh f hd c :
  FS T PO t -> os_wf (t_st t).2 -> t_fhs t !! fh = Some f -> rw_flags (fh_flags_ f) ->
  dirname (data_file t hd) ∈ os_dirs (t_st t).2 ->
  file_at (t_st t).2 (data_file t hd) = Some c -> fd_ok t (data_file t hd) (fh_fd_ f) ->
  exists fd t', disk_fd fh f hd t = Ret fd t' /\ disk_step (data_file t hd) fh t t' /\
    t_fhs t' !! fh = Some (set_fd fd f) /\ opened t' (data_file t hd) fd c.
Proof.
  intros HFS Hwf Ef Hfl Hdir Hfa [Hfd|(Hfd & v & fl & E & Hn & Hrw)].
  - destruct (OpenDiskFile_spec T PO t hd (fh_flags_ f) HFS Hwf Hdir Hfl)
      as (fd & v & t1 & Hopen & HF1 & Hge & Hwf1 & Et1 & Hfds & _ & Hnm & Hof & Hfa1).
    exists fd, (put_fhs (<[fh := set_fd fd f]> (t_fhs t)) t1). split.
    { unfold disk_fd. replace (fh_fd_ f <? 0) with true by (symmetry; lia).
      erewrite bind_Ret by exact Hopen. rewrite Et1. reflexivity. }
    split; [|split; [apply lookup_insert_eq|]].
    + split; cbn; try done; [by rewrite Et1|by rewrite Et1|by rewrite Et1|].
      intros x Hx. by rewrite lookup_insert_ne.
    + split; [lia|]. exists v, (Z.lor (fh_flags_ f) O_CREAT). cbn. rewrite Hfds. split; [apply lookup_insert_eq|].
      split; [done|]. split; [by apply rw_flags_creat|].
      rewrite Hfa in Hfa1. unfold file_at in Hfa1. rewrite Hnm in Hfa1. cbn in Hfa1. congruence.
  - exists (fh_fd_ f), t. split.
    { unfold disk_fd. by replace (fh_fd_ f <? 0) with false by (symmetry; lia). }
    split; [by apply disk_step_refl|]. split; [by rewrite Ef; destruct f|].
    split; [done|]. exists v, fl. split_and!; try done.
    unfold file_at in Hfa. rewrite Hn in Hfa. cbn in Hfa. congruence.
Qed.

(** ** Reading *)

Lemma file_rep_disk t t' fh v fd fd' c hd name data :
  disk_step (data_file t hd) fh t t' -> v = mk_value hd name data -> value_wf hd name ->
  st_size (fstat hd) = Z.of_nat (length c) -> has_blob hd = 1 -> data = [] -> opened t' (data_file t hd) fd c ->
  threshold_ (t_st t).1 < Z.of_nat (length c) -> fd' = fd -> file_rep t' v fd' c.
Proof.
  intros HD -> Hwf Hsz Hb -> Hop Hth ->. exists hd, name, []. split_and!; try done. right.
  assert (data_file t' hd = data_file t hd) as -> by (unfold data_file; by rewrite (ds_fss _ _ _ _ HD)).
  split; [done|]. split; [done|]. split; [by eapply opened_file_at|]. split; [by eapply opened_fd_ok|].
  by rewrite (ds_fss _ _ _ _ HD).
Qed.

Lemma file_rep_wf t v fd c : file_rep t v fd c -> wf_inode v.
Proof. intros (hd & name & data & -> & Hwf & _). by exists hd, name, data. Qed.

Lemma header_of hd name data : value_wf hd name -> GetInodeHeader (mk_value hd name data) = hd.
Proof. intros Hwf. by apply (GetInodeHeader_mk hd name). Qed.

Lemma mk_value_inj h name data h' name' data' :
  value_wf h name -> value_wf h' name' -> mk_value h name data = mk_value h' name' data' ->
  h = h' /\ name = name' /\ data = data'.
Proof.
  intros Hw Hw' E. assert (h = h') as <-.
  { by rewrite <- (header_of h name data), E, header_of. }
  split; [done|]. unfold mk_value in E. apply app_inv_head in E.
  apply app_inj_1 in E as [-> [= ->]]; [done|]. destruct Hw as [_ H1], Hw' as [_ H2]. lia.
Qed.

Lemma length_slice_le a b (l : bytes) : (length (slice a b l) <= b)%nat.
Proof. unfold slice. rewrite length_take. lia. Qed.

Lemma Read_refines T PO t fh f h c size offset :
  FS T PO t -> file_open PO t fh f h c ->
  0 <= size < 2 ^ 31 -> 0 <= offset < 2 ^ 62 -> Z.of_nat (length c) < 2 ^ 62 ->
  exists t' f', let data := slice (Z.to_nat offset) (Z.to_nat size) c in
    Read fh size offset t = Ret (Z.of_nat (length data), data) t' /\ FS T PO t' /\
    file_open PO t' fh f' h c /\ fh_handle_ f' = fh_handle_ f /\
    (forall q, q <> disk_path (datadir_ (t_st t).1) (st_ino (GetAttribute (value_ h))) ->
       file_at (t_st t').2 q = file_at (t_st t).2 q).
Proof.
  intros HFS [Ef Eh Hpin Hfl Hrep Hos] Hsz Ho Hc. cbv zeta.
  pose proof (file_rep_wf _ _ _ _ Hrep) as Hwfi.
  assert (i32 (Z.of_nat (length (slice (Z.to_nat offset) (Z.to_nat size) c))) =
          Z.of_nat (length (slice (Z.to_nat offset) (Z.to_nat size) c))) as Hi32.
  { apply i32_small. pose proof (length_slice_le (Z.to_nat offset) (Z.to_nat size) c). lia. }
  destruct Hrep as (hd & name & data & Hv & Hwf & Hst & Hcase).
  pose proof (data_file_dir T PO t _ h hd name data HFS Eh Hv Hwf) as Hdir.
  unfold Read. erewrite bind_Ret by by apply file_handle_Ret.
  erewrite bind_Ret by by apply handle_at_Ret. rewrite bind_ReadLock.
  erewrite bind_Ret by by apply header_at_Ret. rewrite Hv, header_of by done.
  destruct Hcase as [(Hb & -> & Hth & Hfd & Hno)|(Hb & Hdn & Hfa & Hfd & Hbig)]; rewrite Hb.
  - exists t, f. split; [|split; [done|split; [|done]]].
    + change (0 >? 0) with false. cbv iota zeta. rewrite bind_ret, bind_Unlock.
      by rewrite (GetInlineData_mk hd name Hwf), Hi32 by lia.
    + split; try done. exists hd, name, c. split_and!; try done. by left.
  - destruct (disk_fd_spec T PO t fh f hd c HFS Hos Ef Hfl Hdir Hfa Hfd) as (fd & t1 & Hrun & HD & Ef1 & Hop).
    exists t1, (set_fd fd f). split; [|split; [by eapply disk_step_FS|split; [|split; [done|]]]].
    + change (1 >? 0) with true. cbv iota. rewrite bind_assoc. erewrite bind_Ret by exact Hrun.
      destruct Hop as (H0 & v & fl & E & Hn & Hrw & Hd).
      replace (fd >=? 0) with true by (symmetry; lia). rewrite bind_assoc.
      erewrite bind_Ret by (apply in_os_Ret, (os_pread_spec fd v fl); [done|apply Hrw|lia]).
      rewrite Hd. cbv iota zeta beta. rewrite bind_ret, bind_Unlock, Hi32.
      replace (put_st ((t_st t1).1, (t_st t1).2) t1) with t1 by (by destruct t1 as [? ? [] ? ? ? ? ?]). done.
    + split; try done; [by unfold handles; rewrite (ds_ic _ _ _ _ HD)| |apply HD].
      by eapply file_rep_disk.
    + intros q Hq. apply HD. by rewrite (GetAttribute_mk hd name Hwf) in Hq.
Qed.

(** ** Writing *)

Lemma put_st_same t : put_st ((t_st t).1, (t_st t).2) t = t.
Proof. by destruct t as [? ? [] ? ? ? ? ?]. Qed.

(** [pwrite] on an open data file. *)
Lemma pwrite_run t path fh fd c buf off :
  os_wf (t_st t).2 -> opened t path fd c -> 0 <= off -> writes_through c buf off ->
  exists t', in_os (os_pwrite fd buf off) t = Ret (Z.of_nat (length buf)) t' /\ disk_step path fh t t' /\
    t_fhs t' = t_fhs t /\ opened t' path fd (write_at c (Z.to_nat off) buf).
Proof.
  intros Hwf (H0 & v & fl & E & Hn & Hrw & Hd) Ho Hthr.
  destruct (with_data_spec _ path v (write_at c (Z.to_nat off) buf) Hwf Hn) as (W1 & W2 & W3).
  eexists. split; [apply in_os_Ret, (os_pwrite_spec fd v fl); [done|apply Hrw|apply Hrw|done]|].
  destruct (decide (buf = [])) as [->|_].
  { rewrite put_st_same, write_at_none by (destruct Hthr as [|]; [done|lia]).
    split; [by apply disk_step_refl|]. split; [done|]. split; [done|]. by exists v, fl. }
  rewrite Hd. split; [by split|]. split; [done|]. split; [done|]. exists v, fl. split_and!; try done.
  cbn [t_st put_st snd]. rewrite data_of_insert. by rewrite decide_True.
Qed.

(** Setting the value of a dirty handle to a well-formed one. *)
Lemma set_mk T PO t o h hd name data hd' data' :
  FS T PO t -> handles t !! o = Some h -> mode_ h = INODE_WRITE -> 0 < PO o ->
  value_ h = mk_value hd name data -> value_wf hd name -> value_wf hd' name ->
  st_ino (fstat hd') = st_ino (fstat hd) -> bytes_ok data' ->
  257 + Z.of_nat (length name) + Z.of_nat (length data') < 2 ^ 32 ->
  exists t', set_handle_value o (mk_value hd' name data') t = Ret tt t' /\
    FS (<[key_ h := mk_value hd' name data']> T) PO t' /\
    handles t' = <[o := set_value_ (mk_value hd' name data') h]> (handles t) /\
    t_st t' = t_st t /\ t_fhs t' = t_fhs t.
Proof.
  intros HFS Eh Hm Hpo Hv Hwf Hwf' Hino Hb Hlen.
  destruct (FS_handle_value _ _ _ _ _ HFS Eh) as (_ & _ & Hstr).
  destruct (fs_set_value T PO t o h (mk_value hd' name data') HFS Eh Hm Hpo) as (t' & Hrun & HF & Hhs & Hst & _ & Hfh & _).
  - by exists hd', name, data'.
  - split; [|rewrite (length_mk hd' name Hwf'); lia].
    rewrite Hv in Hstr. destruct Hstr as [Hbv _]. unfold mk_value in *.
    apply Forall_app in Hbv as [_ Hbv]. apply Forall_app in Hbv as [Hbn _].
    apply Forall_app. split; [apply header_bytes_ok, Hwf'|]. apply Forall_app. split; [done|].
    apply Forall_cons_2; [unfold byte_ok; lia|done].
  - by rewrite Hv, (GetAttribute_mk hd' name Hwf'), (GetAttribute_mk hd name Hwf).
  - by exists t'.
Qed.

(** Moving the inline data to a new data file. *)
Lemma MigrateToDiskFile_spec T PO t (fh : nat) o h hd name c flags :
  FS T PO t -> os_wf (t_st t).2 -> handles t !! o = Some h -> mode_ h = INODE_WRITE -> 0 < PO o ->
  value_ h = mk_value hd name c -> value_wf hd name -> st_size (fstat hd) = Z.of_nat (length c) ->
  file_at (t_st t).2 (data_file t hd) = None -> rw_flags flags ->
  exists fd t', MigrateToDiskFile o (-1) flags t = Ret (0, fd) t' /\
    FS (<[key_ h := mk_value hd name []]> T) PO t' /\
    handles t' = <[o := set_value_ (mk_value hd name []) h]> (handles t) /\
    (t_st t').1 = (t_st t).1 /\ only_file (data_file t hd) (t_st t).2 (t_st t').2 /\ os_wf (t_st t').2 /\
    t_fhs t' = t_fhs t /\ opened t' (data_file t hd) fd c.
Proof.
  intros HFS Hos Eh Hm Hpo Hv Hwf Hst Hno Hfl.
  destruct (FS_handle_value _ _ _ _ _ HFS Eh) as (HT & _ & [_ Hlen]).
  pose proof (data_file_dir T PO t _ h hd name c HFS Eh Hv Hwf) as Hdir.
  assert (wf_inode (value_ h)) as Hwfi by (rewrite Hv; by exists hd, name, c).
  destruct (OpenDiskFile_spec T PO t hd flags HFS Hos Hdir Hfl)
    as (fd & v & t1 & Hopen & HF1 & Hge & Hwf1 & Et1 & Hfds & _ & Hnm & Hof & Hfa1).
  rewrite Hno in Hfa1. cbn [default] in Hfa1.
  assert (opened t1 (data_file t hd) fd []) as Hop.
  { split; [lia|]. exists v, (Z.lor flags O_CREAT). rewrite Hfds. split; [apply lookup_insert_eq|].
    split; [done|]. split; [by apply rw_flags_creat|]. unfold file_at in Hfa1. rewrite Hnm in Hfa1. cbn in Hfa1. congruence. }
  unfold MigrateToDiskFile. erewrite bind_Ret by by apply handle_at_Ret.
  erewrite bind_Ret by by apply header_at_Ret. change (-1 >=? 0) with false. cbv iota.
  rewrite bind_ret, Hv, header_of by done. erewrite bind_Ret by exact Hopen.
  replace (fd <? 0) with false by (symmetry; lia). cbv iota.
  assert ((t_st t1).1 = (t_st t).1 /\ t_fhs t1 = t_fhs t /\ handles t1 = handles t) as (Hs1 & Hf1 & Hh1)
    by (by rewrite Et1).
  rewrite Hst. destruct (Z.of_nat (length c) >? 0) eqn:Ec; bool_to_prop.
  - destruct (pwrite_run t1 _ fh fd [] c 0 Hwf1 Hop ltac:(lia) ltac:(by right)) as (t2 & Hpw & HD2 & Hfh2 & Hop2).
    change (Z.to_nat 0) with 0%nat in Hop2. rewrite write_at_nil in Hop2.
    destruct (set_mk T PO t2 o h hd name c hd []) as (t3 & Hset & HF3 & Hh3 & Hs3 & Hf3); try done.
    { by eapply disk_step_FS. }
    { unfold handles. rewrite (ds_ic _ _ _ _ HD2), Et1. exact Eh. }
    { constructor. }
    { rewrite Hv, (length_mk hd name Hwf) in Hlen. cbn [length]. lia. }
    exists fd, t3. split; [|split; [done|split; [|split_and!]]].
    + rewrite inline_start_mk by done. rewrite (length_mk hd name Hwf). cbv zeta.
      rewrite decide_False by lia.
      assert (slice (Z.to_nat (257 + Z.of_nat (length name))) (Z.to_nat (Z.of_nat (length c))) (mk_value hd name c) = c) as ->.
      { rewrite mk_value_prefix by done. rewrite slice_app_r by (rewrite length_prefix by done; lia).
        rewrite length_prefix by done. rewrite Nat2Z.id.
        replace (Z.to_nat (257 + Z.of_nat (length name)) - (257 + length name))%nat with 0%nat by lia. by apply slice_all. }
      erewrite bind_Ret by exact Hpw. unfold errno. unfold bind at 1, gets at 1.
      rewrite (DropInlineData_mk hd name Hwf). erewrite bind_Ret by exact Hset. by rewrite Z.eqb_refl.
    + rewrite Hh3. unfold handles at 1. by rewrite (ds_ic _ _ _ _ HD2), Et1.
    + by rewrite Hs3, (ds_fss _ _ _ _ HD2).
    + rewrite Hs3. eapply only_file_trans; [exact Hof|apply HD2].
    + rewrite Hs3. apply HD2.
    + by rewrite Hf3, Hfh2.
    + unfold opened in *. rewrite Hs3. exact Hop2.
  - assert (c = []) as -> by (destruct c; [done|simpl in Ec; lia]).
    exists fd, t1. rewrite <- Hv. rewrite (insert_id T) by done.
    rewrite insert_id by (by destruct h). by split_and!.
Qed.

(** The header after a write that ends at [e]. *)
Definition grown (hd : tfs_inode_header) (e : Z) : tfs_inode_header :=
  set_fstat (set_st_size (Z.max (st_size (fstat hd)) e) (fstat hd)) hd.

Lemma value_wf_grown hd name e :
  value_wf hd name -> 0 <= e < 2 ^ 63 -> value_wf (grown hd e) name.
Proof.
  intros Hwf He. apply value_wf_fstat; [|done]. pose proof (proj1 (proj1 Hwf)) as Hs. apply stat_ok_size; [done|].
  unfold stat_ok, stat_fields, stat_layout in Hs.
  repeat match goal with H : Forall2 _ (_ :: _) (_ :: _) |- _ => apply Forall2_cons_1 in H as [? H] end.
  unfold field_ok, I64 in *. simpl in *. lia.
Qed.

(** The last step of [Write]: a file that has grown gets its new size. *)
Definition set_size (o : nat) (grow : bool) (end_ : Z) : prog (tfs S) unit :=
  if grow then
    h <- handle_at o ;;
    new_iheader <- header_at (value_ h) ;;
    set_handle_value o (UpdateInodeHeader (value_ h)
      (set_fstat (set_st_size (i64 end_) (fstat new_iheader)) new_iheader))
  else ret tt.

Lemma set_size_spec T PO t o h hd name data e :
  FS T PO t -> handles t !! o = Some h -> mode_ h = INODE_WRITE -> 0 < PO o ->
  value_ h = mk_value hd name data -> value_wf hd name -> bytes_ok data -> 0 <= e < 2 ^ 63 ->
  exists t', set_size o (st_size (fstat hd) <? e) e t = Ret tt t' /\
    FS (<[key_ h := mk_value (grown hd e) name data]> T) PO t' /\
    handles t' = <[o := set_value_ (mk_value (grown hd e) name data) h]> (handles t) /\
    t_st t' = t_st t /\ t_fhs t' = t_fhs t.
Proof.
  intros HFS Eh Hm Hpo Hv Hwf Hb He. pose proof (value_wf_grown hd name e Hwf He) as Hwf'.
  destruct (FS_handle_value _ _ _ _ _ HFS Eh) as (HT & _ & [_ Hlen]).
  unfold set_size. destruct (st_size (fstat hd) <? e) eqn:E; bool_to_prop.
  - destruct (set_mk T PO t o h hd name data (grown hd e) data) as (t' & Hset & Hrest); try done.
    { rewrite Hv, (length_mk hd name Hwf) in Hlen. lia. }
    exists t'. split; [|done]. erewrite bind_Ret by by apply handle_at_Ret.
    erewrite bind_Ret by (apply header_at_Ret; rewrite Hv; by exists hd, name, data).
    rewrite Hv, header_of, i64_small by (done || lia).
    rewrite (UpdateInodeHeader_mk hd name Hwf) by apply Hwf.
    unfold grown in *. rewrite Z.max_r in * by lia. exact Hset.
  - assert (grown hd e = hd) as ->.
    { unfold grown. rewrite Z.max_l by lia. by destruct hd as [[] ? ? ?]. }
    exists t. split; [done|]. rewrite <- Hv, (insert_id T) by done.
    rewrite insert_id by (by destruct h). done.
Qed.

(** What a write leaves behind: the state, the file handle and the inode. *)
Record written T PO t (fh : nat) (f : tfs_file_handle_t) (h : InodeCacheHandle) (hd : tfs_inode_header)
    (name c : bytes) (e : Z) t' : Prop := {
  wr_fh : exists f', t_fhs t' !! fh = Some f' /\ fh_handle_ f' = fh_handle_ f /\ fh_flags_ f' = fh_flags_ f /\
    exists hd' data, value_wf hd' name /\ FS (<[key_ h := mk_value hd' name data]> T) PO t' /\
      handles t' !! fh_handle_ f = Some (mkICH (key_ h) (mk_value hd' name data) INODE_WRITE (pointer h)) /\
      fstat hd' = fstat (grown hd e) /\ file_rep t' (mk_value hd' name data) (fh_fd_ f') c;
  wr_name : exists data, value_ h = mk_value hd name data /\ value_wf hd name;
  wr_file : only_file (data_file t hd) (t_st t).2 (t_st t').2;
  wr_os : os_wf (t_st t').2;
  wr_st : (t_st t').1 = (t_st t).1
}.

Section write.
Context T PO t (fh : nat) (f : tfs_file_handle_t) (h : InodeCacheHandle) (hd : tfs_inode_header)
  (name data c buf : bytes) (offset : Z).
Let e := offset + Z.of_nat (length buf).
Let c' := write_at c (Z.to_nat offset) buf.
Hypotheses (HFS : FS T PO t) (Ef : t_fhs t !! fh = Some f) (Eh : handles t !! fh_handle_ f = Some h)
  (Hmode : mode_ h = INODE_WRITE) (Hpin : 0 < PO (fh_handle_ f)) (Hfl : rw_flags (fh_flags_ f))
  (Hos : os_wf (t_st t).2) (Hv : value_ h = mk_value hd name data) (Hwf : value_wf hd name)
  (Hsize : st_size (fstat hd) = Z.of_nat (length c)) (Hoff : 0 <= offset) (Hbuf : bytes_ok buf) (Hthru : writes_through c buf offset)
  (Hlen : Z.of_nat (length (value_ h)) + Z.of_nat (length c) + e < 2 ^ 31).

Lemma data_ok : bytes_ok data.
Proof using HFS Eh Hv.
  clear -HFS Eh Hv. destruct (FS_handle_value _ _ _ _ _ HFS Eh) as (_ & _ & [Hb _]). rewrite Hv in Hb.
  unfold mk_value in Hb. apply Forall_app in Hb as [_ Hb]. apply Forall_app in Hb as [_ Hb].
  by apply Forall_cons_1 in Hb as [_ Hb].
Qed.

Lemma size_grown : Z.max (st_size (fstat hd)) e = Z.of_nat (length c').
Proof using Hsize Hoff. clear -Hsize Hoff. rewrite Hsize. subst e c'. rewrite length_write_at. lia. Qed.

(** A file with a data file. *)
Lemma write_blob :
  has_blob hd = 1 -> data = [] -> file_at (t_st t).2 (data_file t hd) = Some c -> fd_ok t (data_file t hd) (fh_fd_ f) ->
  threshold_ (t_st t).1 < Z.of_nat (length c) ->
  exists t1 t', (fd <- disk_fd fh f hd ;;
      if fd >=? 0 then r <- in_os (os_pwrite fd buf offset) ;; ret (i32 r, false)
      else ret (- EBADF, false)) t = Ret (Z.of_nat (length buf), false) t1 /\
    set_size (fh_handle_ f) (st_size (fstat hd) <? e) e t1 = Ret tt t' /\
    written T PO t fh f h hd name c' e t'.
Proof using All.
  intros Hb Hdn Hfa Hfd Hbig. pose proof (data_file_dir T PO t _ h hd name data HFS Eh Hv Hwf) as Hdir.
  destruct (disk_fd_spec T PO t fh f hd c HFS Hos Ef Hfl Hdir Hfa Hfd) as (fd & t1 & Hrun & HD & Ef1 & Hop).
  destruct (pwrite_run t1 _ fh fd c buf offset (ds_wf _ _ _ _ HD) Hop Hoff Hthru) as (t2 & Hpw & HD2 & Hfh2 & Hop2).
  pose proof (disk_step_trans _ _ _ _ _ HD HD2) as HD12.
  destruct (set_size_spec T PO t2 (fh_handle_ f) h hd name data e) as (t3 & Hset & HF3 & Hh3 & Hs3 & Hf3); try done.
  { by eapply disk_step_FS. }
  { unfold handles. by rewrite (ds_ic _ _ _ _ HD12). }
  { apply data_ok. } { subst e. lia. }
  exists t2, t3. split; [|split; [exact Hset|split]].
  - erewrite bind_Ret by exact Hrun. destruct Hop as (H0 & _).
    replace (fd >=? 0) with true by (symmetry; lia).
    erewrite bind_Ret by exact Hpw. by rewrite i32_small by lia.
  - exists (set_fd fd f). rewrite Hf3, Hfh2. split; [done|]. split; [done|]. split; [done|].
    exists (grown hd e), data. split; [apply value_wf_grown; [done|subst e; lia]|].
    split; [done|]. split; [|split; [done|]].
    + rewrite Hh3, lookup_insert_eq. unfold set_value_. by rewrite Hmode.
    + exists (grown hd e), name, data. split; [done|]. split; [apply value_wf_grown; [done|subst e; lia]|].
      split; [apply size_grown|]. right. split; [done|]. split; [done|].
      assert (data_file t3 (grown hd e) = data_file t hd) as ->
        by (unfold data_file; by rewrite Hs3, (ds_fss _ _ _ _ HD12)).
      unfold fd_ok. rewrite Hs3. split; [by eapply opened_file_at|]. split; [by eapply opened_fd_ok|].
      rewrite (ds_fss _ _ _ _ HD12). subst c'. rewrite length_write_at. lia.
  - by exists data.
  - rewrite Hs3. apply HD12.
  - rewrite Hs3. apply HD12.
  - rewrite Hs3. apply HD12.
Qed.

(** A small file that stays inline. *)
Lemma write_inline :
  has_blob hd = 0 -> data = c -> fh_fd_ f = -1 -> file_at (t_st t).2 (data_file t hd) = None ->
  Z.of_nat (length c) <= threshold_ (t_st t).1 -> e <= threshold_ (t_st t).1 ->
  exists t1 t', set_handle_value (fh_handle_ f) (UpdateInlineData (value_ h) buf offset) t = Ret tt t1 /\
    set_size (fh_handle_ f) (st_size (fstat hd) <? e) e t1 = Ret tt t' /\
    written T PO t fh f h hd name c' e t'.
Proof using All.
  intros Hb Hdc Hfd Hno Hth He. pose proof data_ok as Hdok. rewrite Hdc in Hv, Hdok.
  pose proof Hlen as Hlen'. rewrite Hv, (length_mk hd name Hwf) in Hlen'.
  destruct (set_mk T PO t (fh_handle_ f) h hd name c hd c') as (t1 & Hset1 & HF1 & Hh1 & Hs1 & Hf1); try done.
  { by apply bytes_ok_write_at. } { subst c'. rewrite length_write_at. subst e. lia. }
  destruct (set_size_spec _ PO t1 (fh_handle_ f) (set_value_ (mk_value hd name c') h) hd name c' e HF1)
    as (t2 & Hset2 & HF2 & Hh2 & Hs2 & Hf2); try done.
  { rewrite Hh1. apply lookup_insert_eq. } { by apply bytes_ok_write_at. } { subst e. lia. }
  exists t1, t2. split; [rewrite Hv, (UpdateInlineData_mk hd name Hwf) by lia; exact Hset1|].
  split; [exact Hset2|]. cbn [key_ set_value_] in HF2. rewrite insert_insert_eq in HF2.
  split; [|by exists c|rewrite Hs2, Hs1; apply only_file_refl|by rewrite Hs2, Hs1|by rewrite Hs2, Hs1].
  exists f. rewrite Hf2, Hf1. split; [done|]. split; [done|]. split; [done|].
  exists (grown hd e), c'. split; [apply value_wf_grown; [done|subst e; lia]|].
  split; [done|]. split; [|split; [done|]].
  - rewrite Hh2, lookup_insert_eq. unfold set_value_. cbn. by rewrite Hmode.
  - exists (grown hd e), name, c'. split; [done|]. split; [apply value_wf_grown; [done|subst e; lia]|].
    split; [apply size_grown|]. left. unfold data_file. rewrite Hs2, Hs1.
    split_and!; try done. subst c'. rewrite length_write_at. subst e. lia.
Qed.

(** A small file that outgrows the threshold moves to a data file. *)
Lemma write_migrate flags :
  has_blob hd = 0 -> data = c -> fh_fd_ f = -1 -> file_at (t_st t).2 (data_file t hd) = None ->
  Z.of_nat (length c) <= threshold_ (t_st t).1 < e -> rw_flags flags ->
  exists t', (' (r, fd) <- MigrateToDiskFile (fh_handle_ f) (fh_fd_ f) flags ;;
      set_file_handle fh (set_fd fd f) ;;;
      if r =? 0 then
        h <- handle_at (fh_handle_ f) ;;
        new_iheader <- header_at (value_ h) ;;
        set_handle_value (fh_handle_ f) (UpdateInodeHeader (value_ h)
          (set_has_blob 1 (set_fstat (set_st_size (i64 e) (fstat new_iheader)) new_iheader))) ;;;
        r <- in_os (os_pwrite fd buf offset) ;;
        ret (i32 r, true)
      else ret (r, false)) t = Ret (Z.of_nat (length buf), true) t' /\
    written T PO t fh f h hd name c' e t'.
Proof using All.
  intros Hb Hdc Hfd Hno Hth Hflags. rewrite Hdc in Hv.
  pose proof Hlen as Hlen'. rewrite Hv, (length_mk hd name Hwf) in Hlen'.
  destruct (MigrateToDiskFile_spec T PO t fh (fh_handle_ f) h hd name c flags)
    as (fd & t1 & Hmig & HF1 & Hh1 & Hs1 & Hof1 & Hos1 & Hf1 & Hop1); try done.
  set (t2 := put_fhs (<[fh := set_fd fd f]> (t_fhs t1)) t1).
  assert (disk_step (data_file t hd) fh t1 t2) as HD2.
  { split; try done. intros x Hx. cbn. by rewrite lookup_insert_ne. }
  set (hd' := set_has_blob 1 (grown hd e)).
  assert (value_wf hd' name) as Hwf' by (apply value_wf_blob, value_wf_grown; [lia|done|subst e; lia]).
  destruct (set_mk (<[key_ h := mk_value hd name []]> T) PO t2 (fh_handle_ f) (set_value_ (mk_value hd name []) h) hd name [] hd' [])
    as (t3 & Hset3 & HF3 & Hh3 & Hs3 & Hf3); try done.
  { exact (disk_step_FS _ _ _ _ _ _ HD2 HF1). }
  { unfold handles. cbn. fold (handles t1). rewrite Hh1. apply lookup_insert_eq. } { constructor. } { cbn [length]. lia. }
  destruct (pwrite_run t3 (data_file t hd) fh fd c buf offset) as (t4 & Hpw & HD4 & Hfh4 & Hop4);
    [by rewrite Hs3|unfold opened; by rewrite Hs3|done|done|].
  assert ((t_st t4).1 = (t_st t).1) as Hst4 by by rewrite (ds_fss _ _ _ _ HD4), Hs3.
  exists t4. split; [|split].
  - rewrite Hfd. erewrite bind_Ret by exact Hmig. cbv iota beta.
    erewrite bind_Ret by reflexivity. fold t2. change (0 =? 0) with true. cbv iota.
    erewrite bind_Ret.
    2: { apply handle_at_Ret. unfold handles. cbn. fold (handles t1). rewrite Hh1. apply lookup_insert_eq. }
    cbn [value_ set_value_]. erewrite bind_Ret by (apply header_at_Ret; by exists hd, name, []).
    rewrite header_of, i64_small by (done || (subst e; lia)).
    rewrite (UpdateInodeHeader_mk hd name Hwf) by apply Hwf.
    assert (set_has_blob 1 (set_fstat (set_st_size e (fstat hd)) hd) = hd') as ->
      by (unfold hd', grown; by rewrite Z.max_r by lia).
    erewrite bind_Ret by exact Hset3. erewrite bind_Ret by exact Hpw. by rewrite i32_small by lia.
  - exists (set_fd fd f). rewrite Hfh4, Hf3. split; [apply lookup_insert_eq|]. split; [done|]. split; [done|].
    exists hd', []. cbn [key_ set_value_] in HF3. rewrite insert_insert_eq in HF3.
    split; [done|]. split; [by eapply disk_step_FS|]. split; [|split; [done|]].
    + unfold handles. rewrite (ds_ic _ _ _ _ HD4). fold (handles t3). rewrite Hh3, lookup_insert_eq.
      unfold set_value_. cbn. by rewrite Hmode.
    + exists hd', name, []. split; [done|]. split; [done|]. split; [apply size_grown|]. right. split; [done|]. split; [done|].
      assert (data_file t4 hd' = data_file t hd) as -> by (unfold data_file; by rewrite Hst4).
      split; [by eapply opened_file_at|]. split; [by eapply opened_fd_ok|].
      rewrite Hst4. subst c'. rewrite length_write_at. subst e. lia.
  - by exists c.
  - eapply only_file_trans; [exact Hof1|]. pose proof (ds_file _ _ _ _ HD4) as Hof. by rewrite Hs3 in Hof.
  - apply HD4.
  - done.
Qed.
End write.

(** [Write] after the header was read: the data, then the size. *)
Definition write_data (fh : nat) (f : tfs_file_handle_t) (hd : tfs_inode_header) (v buf : bytes)
    (offset flags e threshold : Z) : prog (tfs S) (Z * bool) :=
  if has_blob hd >? 0 then
    fd <- disk_fd fh f hd ;;
    if fd >=? 0 then r <- in_os (os_pwrite fd buf offset) ;; ret (i32 r, false)
    else ret (- EBADF, false)
  else if e >? threshold then
    ' (r, fd) <- MigrateToDiskFile (fh_handle_ f) (fh_fd_ f) flags ;;
    set_file_handle fh (set_fd fd f) ;;;
    if r =? 0 then
      h <- handle_at (fh_handle_ f) ;;
      new_iheader <- header_at (value_ h) ;;
      set_handle_value (fh_handle_ f) (UpdateInodeHeader (value_ h)
        (set_has_blob 1 (set_fstat (set_st_size (i64 e) (fstat new_iheader)) new_iheader))) ;;;
      r <- in_os (os_pwrite fd buf offset) ;;
      ret (i32 r, true)
    else ret (r, false)
  else
    set_handle_value (fh_handle_ f) (UpdateInlineData v buf offset) ;;;
    ret (i32 (Z.of_nat (length buf)), false).

Definition write_size (o : nat) (larger : bool) (e : Z) (rm : Z * bool) : prog (tfs S) Z :=
  set_size o ((rm.1 >=? 0) && larger && negb rm.2)%bool e ;;; ret rm.1.

Lemma Write_steps t t1 fh f h hd name data (c : bytes) buf offset flags :
  t_fhs t !! fh = Some f -> set_handle_mode (fh_handle_ f) INODE_WRITE t = Ret tt t1 ->
  handles t1 !! fh_handle_ f = Some h -> value_ h = mk_value hd name data -> value_wf hd name ->
  st_size (fstat hd) = Z.of_nat (length c) -> 0 <= threshold_ (t_st t1).1 < 2 ^ 62 -> 0 <= offset ->
  Z.of_nat (length c) + (offset + Z.of_nat (length buf)) < 2 ^ 31 ->
  let e := offset + Z.of_nat (length buf) in
  Write fh buf offset flags t =
  (rm <- write_data fh f hd (value_ h) buf offset flags e (threshold_ (t_st t1).1) ;;
   write_size (fh_handle_ f) (st_size (fstat hd) <? e) e rm) t1.
Proof.
  intros Ef Hd Eh Hv Hwf Hst Hthr Hoff Hlen e.
  unfold Write. erewrite bind_Ret by by apply file_handle_Ret. cbv zeta.
  erewrite bind_Ret by exact Hd. erewrite bind_Ret by (apply handle_at_Ret; exact Eh).
  rewrite bind_ReadLock. erewrite bind_Ret by (apply header_at_Ret; rewrite Hv; by exists hd, name, data).
  rewrite Hv, header_of by done. unfold GetThreshold. unfold bind at 1, gets at 1.
  rewrite Hst, !u64_small by lia. fold e. unfold write_data, write_size.
  apply bind_ext. intros [r mig] s'. reflexivity.
Qed.

(** [Write] on an open file whose contents are [c]: the contents become
    [write_at c offset buf], whichever representation the file has before and
    after. *)
Lemma Write_refines T PO t fh f h c buf offset flags :
  FS T PO t -> file_open PO t fh f h c -> rw_flags flags -> bytes_ok buf -> 0 <= offset ->
  writes_through c buf offset -> 0 <= threshold_ (t_st t).1 < 2 ^ 62 ->
  Z.of_nat (length (value_ h)) + Z.of_nat (length c) + (offset + Z.of_nat (length buf)) < 2 ^ 31 ->
  exists t' hd name, GetInodeHeader (value_ h) = hd /\
    Write fh buf offset flags t = Ret (Z.of_nat (length buf)) t' /\
    written T PO t fh f h hd name (write_at c (Z.to_nat offset) buf) (offset + Z.of_nat (length buf)) t'.
Proof.
  intros HFS [Ef Eh Hpin Hfl Hrep Hos] Hflags Hbuf Hoff Hthru Hthr Hlen.
  destruct (fs_dirty T PO t _ h HFS Eh Hpin) as (t1 & Hd & HF1 & Et1).
  destruct Hrep as (hd & name & data & Hv & Hwf & Hst & Hcase).
  assert (t_st t1 = t_st t) as Hst1 by by rewrite Et1.
  set (h1 := set_mode_ INODE_WRITE h).
  assert (handles t1 !! fh_handle_ f = Some h1) as Eh1 by (rewrite Et1; apply lookup_insert_eq).
  assert (t_fhs t1 !! fh = Some f) as Ef1 by by rewrite Et1.
  set (e := offset + Z.of_nat (length buf)) in *. set (c' := write_at c (Z.to_nat offset) buf).
  assert (exists t2 t3 mig,
    write_data fh f hd (value_ h1) buf offset flags e (threshold_ (t_st t1).1) t1 = Ret (Z.of_nat (length buf), mig) t2 /\
    set_size (fh_handle_ f) ((st_size (fstat hd) <? e) && negb mig)%bool e t2 = Ret tt t3 /\
    written T PO t1 fh f h1 hd name c' e t3) as (t2 & t3 & mig & Hdata & Hsize & HW).
  { unfold data_file, fd_ok in Hcase. rewrite <- Hst1 in *. fold (data_file t1 hd) in Hcase.
    unfold write_data. destruct Hcase as [(Hb & Hdc & Hth & Hfd & Hno)|(Hb & Hdn & Hfa & Hfd & Hbig)].
    - rewrite Hb. change (0 >? 0) with false. cbv iota. destruct (e >? threshold_ (t_st t1).1) eqn:He; bool_to_prop.
      + destruct (write_migrate T PO t1 fh f h1 hd name data c buf offset HF1 Ef1 Eh1 eq_refl Hpin Hfl Hos Hv Hwf Hst
          Hoff Hbuf Hthru Hlen flags Hb Hdc Hfd Hno (conj Hth He) Hflags) as (t2 & Hrun & HW).
        exists t2, t2, true. split; [exact Hrun|]. split; [by rewrite andb_false_r|done].
      + destruct (write_inline T PO t1 fh f h1 hd name data c buf offset HF1 Ef1 Eh1 eq_refl Hpin Hfl Hos Hv Hwf Hst
          Hoff Hbuf Hthru Hlen Hb Hdc Hfd Hno Hth He) as (t2 & t3 & Hrun & Hsize & HW).
        exists t2, t3, false. split; [|split; [by rewrite andb_true_r|done]].
        erewrite bind_Ret by exact Hrun. by rewrite i32_small by lia.
    - rewrite Hb. destruct (write_blob T PO t1 fh f h1 hd name data c buf offset HF1 Ef1 Eh1 eq_refl Hpin Hfl Hos Hv Hwf Hst
          Hoff Hbuf Hthru Hlen Hb Hdn Hfa Hfd Hbig) as (t2 & t3 & Hrun & Hsize & HW).
      exists t2, t3, false. split; [exact Hrun|]. split; [by rewrite andb_true_r|done]. }
  exists t3, hd, name. split; [by rewrite Hv, header_of|]. split.
  - rewrite (Write_steps t t1 fh f h1 hd name data c buf offset flags); try done; [|by rewrite Hst1|fold e; lia].
    fold e. erewrite bind_Ret by exact Hdata. unfold write_size. cbn [fst snd].
    replace (Z.of_nat (length buf) >=? 0) with true by (symmetry; apply Z.geb_le; lia). cbn [andb].
    by erewrite bind_Ret by exact Hsize.
  - destruct HW as [W1 W2 W3 W4 W5]. unfold data_file in *. rewrite Hst1 in *. by split.
Qed.

(** ** Opening *)

Lemma rw_flags_mode flags :
  rw_flags flags -> ((Z.land flags O_RDWR >? 0) || (Z.land flags O_WRONLY >? 0) || (Z.land flags O_TRUNC >? 0))%bool = true.
Proof.
  intros [_ Hw _ _]. unfold writable in Hw. apply negb_true_iff, Z.eqb_neq in Hw.
  pose proof (Z.land_nonneg flags O_RDWR). pose proof (Z.land_nonneg flags O_WRONLY).
  unfold O_RDWR, O_WRONLY, O_RDONLY, O_ACCMODE in *.
  destruct (Z.land flags 2 >? 0) eqn:E2; [done|]. destruct (Z.land flags 1 >? 0) eqn:E1; [done|].
  bool_to_prop. destruct Hw. change 3 with (Z.lor 2 1). rewrite Z.land_lor_distr_r.
  replace (Z.land flags 2) with 0 by lia. replace (Z.land flags 1) with 0 by lia. done.
Qed.

Lemma file_rep_st t t' v fd c :
  t_st t' = t_st t -> file_rep t v fd c -> file_rep t' v fd c.
Proof. intros E. unfold file_rep, fd_ok, data_file. by rewrite E. Qed.

(** Looking a file up and getting its inode for writing. *)
Lemma lookup_file T PO t path k v c :
  FS T PO t -> path <> [] -> rooms T PO t path -> resolve T path = Some k -> T !! k = Some v ->
  os_wf (t_st t).2 -> file_rep t v (-1) c ->
  exists t1 t2 o h, PathLookup path t = Ret (Some k) t1 /\ in_ic (InodeCache_Get k INODE_WRITE) t1 = Ret (Some o) t2 /\
    FS T (hold o PO) t2 /\ handles t2 !! o = Some h /\ key_ h = k /\ value_ h = v /\ mode_ h = INODE_WRITE /\
    0 < hold o PO o /\ (t_st t2).1 = (t_st t).1 /\ os_wf (t_st t2).2 /\ os_clock (t_st t2).2 = os_clock (t_st t).2 /\
    file_rep t2 v (-1) c /\ forall q, file_at (t_st t2).2 q = file_at (t_st t).2 q.
Proof.
  intros HFS Hp Hroom Er ET Hos Hrep.
  destruct (PathLookup_spec T PO t path HFS Hp) as (t1 & Hrun & HF1 & HS1 & _). rewrite Er in Hrun.
  pose proof (resolve_key_ok _ _ _ _ _ HFS Er) as Hk.
  pose proof (fs_get T PO t1 k INODE_WRITE HF1 Hk (room_same _ _ _ _ HS1 (Hroom k Er))) as Hget.
  rewrite ET in Hget. destruct Hget as (o & h & ic' & Hg & HF2 & Eh & Hkh & Hvh & _ & Hm & _); [done|].
  exists t1, (put_ic ic' t1), o, h. pose proof (sd_fss _ _ HS1) as Hst.
  destruct (sd_os _ _ HS1) as (On & Od & Of & Onx & Oc & Osub).
  split_and!; try done; [by apply in_ic_Ret|by apply Hm|by eapply hold_pos| | |].
  - destruct Hos as [W1 W2 W3]. split; cbn; rewrite ?On, ?Of, ?Onx; done.
  - destruct Hrep as (hd & name & data & Hv & Hwf & Hsz & Hcase). exists hd, name, data.
    split_and!; try done. unfold fd_ok, data_file, file_at, data_of in *. cbn [put_ic t_st] in *.
    rewrite Hst, On, Od, Of. exact Hcase.
  - intros q. by apply same_files_at, HS1.
Qed.

(** Opening the data file of an inode that has one. *)
Lemma open_blob T PO t o h hd name data flags c :
  FS T PO t -> handles t !! o = Some h -> value_ h = mk_value hd name data -> value_wf hd name ->
  os_wf (t_st t).2 -> rw_flags flags -> file_rep t (value_ h) (-1) c ->
  exists fd t', (if has_blob hd >? 0 then OpenDiskFile hd flags else ret (-1)) t = Ret fd t' /\
    FS T PO t' /\ ((has_blob hd >? 0) && (fd <? 0))%bool = false /\ handles t' = handles t /\
    (t_st t').1 = (t_st t).1 /\ os_clock (t_st t').2 = os_clock (t_st t).2 /\ os_wf (t_st t').2 /\
    file_rep t' (value_ h) fd c /\
    forall q, q <> data_file t hd -> file_at (t_st t').2 q = file_at (t_st t).2 q.
Proof.
  intros HFS Eh Hv Hwf Hos Hfl Hrep. pose proof (data_file_dir T _ t o h hd name data HFS Eh Hv Hwf) as Hdir.
  destruct Hrep as (hd1 & name1 & data1 & Hv1 & Hwf1 & Hsz & Hcase). rewrite Hv in Hv1.
  destruct (mk_value_inj _ _ _ _ _ _ Hwf Hwf1 Hv1) as (<- & <- & <-).
  destruct Hcase as [(Hb & -> & Hth & _ & Hno)|(Hb & Hdn & Hfa & _ & Hbig)]; rewrite Hb.
  - exists (-1), t. split_and!; try done. exists hd, name, c. split_and!; try done. by left.
  - destruct (OpenDiskFile_spec T _ t hd flags HFS Hos Hdir Hfl)
      as (fd & vn & t3 & Hopen & HF3 & Hge & Hwf3 & Et3 & Hfds & _ & Hnm & Hof3 & Hfa3).
    exists fd, t3. rewrite Hfa in Hfa3. assert ((t_st t3).1 = (t_st t).1) as Hst3 by by rewrite Et3.
    split; [exact Hopen|]. split; [done|]. split; [by replace (fd <? 0) with false by (symmetry; lia)|].
    split; [by rewrite Et3|]. split; [done|]. split; [apply Hof3|]. split; [done|]. split; [|apply Hof3].
    exists hd, name, data. split_and!; try done. right. unfold fd_ok, data_file in *. rewrite Hst3.
    split; [done|]. split; [done|]. split; [done|]. split; [|done]. right. split; [lia|].
    exists vn, (Z.lor flags O_CREAT). rewrite Hfds. split; [apply lookup_insert_eq|]. split; [done|].
    by apply rw_flags_creat.
Qed.

Lemma Open_refines T PO t path flags k v c :
  FS T PO t -> path <> [] -> rooms T PO t path -> resolve T path = Some k -> T !! k = Some v ->
  os_wf (t_st t).2 -> rw_flags flags -> file_rep t v (-1) c ->
  exists t' fh f h, Open path flags t = Ret (0, Some fh) t' /\ FS T (hold (fh_handle_ f) PO) t' /\
    file_open (hold (fh_handle_ f) PO) t' fh f h c /\ key_ h = k /\ value_ h = v /\
    (t_st t').1 = (t_st t).1 /\ os_clock (t_st t').2 = os_clock (t_st t).2 /\
    (forall q, q <> disk_path (datadir_ (t_st t).1) (st_ino (GetAttribute v)) ->
       file_at (t_st t').2 q = file_at (t_st t).2 q).
Proof.
  intros HFS Hp Hroom Er ET Hos Hfl Hrep.
  destruct (lookup_file T PO t path k v c HFS Hp Hroom Er ET Hos Hrep)
    as (t1 & t2 & o & h & Hrun & Hg & HF2 & Eh & Hkh & Hvh & _ & Hpin & Hst2 & Hos2 & Hck2 & Hrep2 & Hf2).
  pose proof Hrep2 as (hd & name & data & Hv & Hwf & _). rewrite <- Hvh in Hv, Hrep2.
  destruct (open_blob T _ t2 o h hd name data flags c HF2 Eh Hv Hwf Hos2 Hfl Hrep2)
    as (fd & t3 & Hopen & HF3 & Hok & Hh3 & Hst3 & Hck3 & Hos3 & Hrep3 & Hof3).
  exists (mkTfs (t_ic t3) (t_dc t3) (t_st t3) (<[t_next_fh t3 := mkFh o flags fd]> (t_fhs t3)) (t_next_fh t3 + 1)
            (t_allocs t3) (flag_fuse_enabled t3) (t_context t3)), (t_next_fh t3), (mkFh o flags fd), h.
  cbn [fh_handle_].
  split; [|split; [|split; [|split_and!; [done|done|by cbn; rewrite Hst3|by cbn; rewrite Hck3|]]]].
  - unfold Open. erewrite bind_Ret by exact Hrun. cbv iota beta. rewrite bind_WriteLock, rw_flags_mode by done. cbv zeta iota.
    erewrite bind_Ret by exact Hg. cbv iota. rewrite bind_assoc.
    erewrite bind_Ret by (apply handle_at_Ret; exact Eh). rewrite bind_assoc.
    erewrite bind_Ret by (apply header_at_Ret; rewrite Hv; by exists hd, name, data). rewrite Hv, header_of by done.
    rewrite bind_assoc. erewrite bind_Ret by exact Hopen. rewrite Hok, bind_assoc.
    erewrite bind_Ret by reflexivity. rewrite bind_ret, bind_Unlock. reflexivity.
  - eapply FS_os; [exact HF3|done|done|apply HF3|done].
  - split; cbn; try done.
    + apply lookup_insert_eq.
    + unfold handles in *. cbn. rewrite Hh3. exact Eh.
  - intros q Hq. cbn. rewrite Hof3; [apply Hf2|].
    unfold data_file. by rewrite Hst2, <- (GetAttribute_mk hd name Hwf data), <- Hv, Hvh.
Qed.

(** ** Closing *)

Definition clock_ok t : Prop := Forall (fun z => - 2 ^ 63 <= z < 2 ^ 63) (os_clock (t_st t).2).

(** Changes of the operating system that no file notices. *)
Record same_disk t t' : Prop := {
  sk_fss : (t_st t').1 = (t_st t).1;
  sk_names : os_names (t_st t').2 = os_names (t_st t).2;
  sk_data : os_data (t_st t').2 = os_data (t_st t).2;
  sk_dirs : os_dirs (t_st t').2 = os_dirs (t_st t).2;
  sk_next : os_next (t_st t').2 = os_next (t_st t).2
}.

Lemma same_disk_file t t' path : same_disk t t' -> file_at (t_st t').2 path = file_at (t_st t).2 path.
Proof. intros [_ H1 H2 _ _]. unfold file_at, data_of. by rewrite H1, H2. Qed.

Lemma os_time_run t :
  clock_ok t -> exists z t', in_os os_time t = Ret z t' /\ - 2 ^ 63 <= z < 2 ^ 63 /\ clock_ok t' /\
    t_ic t' = t_ic t /\ t_dc t' = t_dc t /\ t_fhs t' = t_fhs t /\ same_disk t t' /\
    os_fds (t_st t').2 = os_fds (t_st t).2.
Proof.
  intros Hc. eexists _, _. split; [apply in_os_Ret; reflexivity|]. cbn. unfold clock_ok in *. cbn.
  split; [destruct Hc; simpl; lia|]. split; [by destruct Hc|]. by split_and!.
Qed.

(** The times a dirty inode gets when it is closed. *)
Lemma release_times T PO t o h hd name data :
  FS T PO t -> handles t !! o = Some h -> 0 < PO o -> clock_ok t ->
  value_ h = mk_value hd name data -> value_wf hd name -> mode_ h = INODE_WRITE ->
  exists a b t' t'' hd', in_os os_time t = Ret a t' /\ in_os os_time t' = Ret b t'' /\
    hd' = set_fstat (set_st_times a 0 b 0 (fstat hd)) hd /\ value_wf hd' name /\
    exists t3, set_handle_value o (UpdateAttribute (value_ h) (set_st_times a 0 b 0 (fstat hd))) t'' = Ret tt t3 /\
      FS (<[key_ h := mk_value hd' name data]> T) PO t3 /\
      handles t3 = <[o := set_value_ (mk_value hd' name data) h]> (handles t) /\
      t_fhs t3 = t_fhs t /\ same_disk t t3 /\ os_fds (t_st t3).2 = os_fds (t_st t).2.
Proof.
  intros HFS Eh Hpo Hc Hv Hwf Hm.
  destruct (os_time_run t Hc) as (a & t1 & Ht1 & Ha & Hc1 & I1 & D1 & F1 & S1 & G1).
  destruct (os_time_run t1 Hc1) as (b & t2 & Ht2 & Hb & Hc2 & I2 & D2 & F2 & S2 & G2).
  set (hd' := set_fstat (set_st_times a 0 b 0 (fstat hd)) hd).
  assert (value_wf hd' name) as Hwf'.
  { apply value_wf_fstat; [|done]. apply stat_ok_times; [apply Hwf|]. repeat constructor; lia. }
  destruct (FS_handle_value _ _ _ _ _ HFS Eh) as (_ & _ & [Hbv Hlen]).
  assert (FS T PO t2) as HF2.
  { eapply FS_os; [exact HFS|congruence|congruence| |].
    - rewrite (sk_fss _ _ S2), (sk_fss _ _ S1). eapply dirs_ok_eq; [|apply HFS].
      by rewrite (sk_dirs _ _ S2), (sk_dirs _ _ S1).
    - by rewrite (sk_fss _ _ S2), (sk_fss _ _ S1). }
  assert (handles t2 = handles t) as Hh2 by (unfold handles; congruence).
  destruct (set_mk T PO t2 o h hd name data hd' data) as (t3 & Hset & HF3 & Hh3 & Hs3 & Hf3); try done.
  { by rewrite Hh2. }
  { rewrite Hv in Hbv. unfold mk_value in Hbv. apply Forall_app in Hbv as [_ Hbv].
    apply Forall_app in Hbv as [_ Hbv]. by apply Forall_cons_1 in Hbv as [_ Hbv]. }
  { rewrite Hv, (length_mk hd name Hwf) in Hlen. lia. }
  exists a, b, t1, t2, hd'. split; [done|]. split; [done|]. split; [done|]. split; [done|].
  exists t3. split; [|split; [done|split; [by rewrite Hh3, Hh2|split; [congruence|split; [|by rewrite Hs3, G2, G1]]]]].
  - rewrite Hv, UpdateAttribute_mk. exact Hset.
  - destruct S1, S2. split; rewrite Hs3; congruence.
Qed.

(** The last release of a handle, and its eviction. *)
Lemma fs_close T PO t o h :
  FS T PO t -> handles t !! o = Some h -> PO o = 1 ->
  exists t1 h1 t2 t3, in_ic (InodeCache_WriteBack o) t = Ret tt t1 /\ handles t1 !! o = Some h1 /\
    key_ h1 = key_ h /\ in_ic (InodeCache_Release o) t1 = Ret tt t2 /\
    in_ic (InodeCache_Evict (key_ h)) t2 = Ret tt t3 /\ FS T (unhold o PO) t3 /\
    t_st t3 = t_st t /\ t_fhs t3 = t_fhs t /\ handles t3 = delete o (handles t).
Proof.
  intros HFS Eh Hpo.
  assert (exists t1 h1, in_ic (InodeCache_WriteBack o) t = Ret tt t1 /\ FS T PO t1 /\ handles t1 !! o = Some h1 /\
    key_ h1 = key_ h /\ mode_ h1 = INODE_READ /\ t_st t1 = t_st t /\ t_fhs t1 = t_fhs t /\
    delete o (handles t1) = delete o (handles t)) as (t1 & h1 & Hwb & HF1 & Eh1 & Hk1 & Hm1 & Hs1 & Hf1 & Hd1).
  { destruct (mode_ h) eqn:Hm.
    - exists t, h. split_and!; try done. rewrite (in_ic_Ret _ t tt (t_ic t)); [by destruct t|].
      unfold InodeCache_WriteBack. destruct (t_ic t) as [C w] eqn:Eic.
      assert (w_handles w !! o = Some h) as Ew by (unfold handles in Eh; by rewrite Eic in Eh).
      erewrite bind_Ret by (apply in_world_Ret, get_handle_Ret, Ew). by rewrite Hm.
    - destruct (fs_tabled _ _ _ HFS o h Eh) as [_ Hnd]. done.
    - destruct (fs_writeback T PO t o h HFS Eh Hm) as (ic1 & Hwb & HF1 & Hhs1 & _).
      exists (put_ic ic1 t), (set_mode_ INODE_READ h). split_and!; try done.
      + by apply in_ic_Ret.
      + unfold handles. cbn. rewrite Hhs1. apply lookup_insert_eq.
      + unfold handles at 1. cbn. rewrite Hhs1. by rewrite delete_insert_eq. }
  destruct (fs_release T PO t1 o h1 HF1 Eh1) as (ic2 & Hrl & HF2 & Hhs2); [lia|done|].
  pose proof HF2 as [(m & HI & Hso) Hdc Hset Htab Hd].
  destruct (Htab o h1) as [Hin2 _]; [unfold handles; cbn; by rewrite Hhs2|].
  destruct (Evict_unused m T (unhold o PO) ic2 o h1 HI) as (ic3 & Hev & HI3 & Hhs3 & Hsup3).
  { by rewrite Hhs2. } { unfold unhold. rewrite decide_True by done. lia. } { exact Hin2. }
  unfold drop_store, drop_table in HI3. rewrite Hm1 in HI3. rewrite Hk1 in Hev.
  exists t1, h1, (put_ic ic2 t1), (put_ic ic3 (put_ic ic2 t1)). split; [done|]. split; [done|]. split; [done|].
  split; [by apply in_ic_Ret|]. split; [by apply in_ic_Ret|].
  split; [|split_and!; [done|done|unfold handles; cbn; rewrite Hhs3, Hhs2; exact Hd1]].
  split; unfold handles; cbn; [eauto|done| | |done].
  - rewrite Hhs3. intros x hx [Hne Ex]%lookup_delete_Some. by apply Hset.
  - rewrite Hhs3. intros x hx [Hne Ex]%lookup_delete_Some. destruct (Htab x hx Ex) as [Hi Hmx].
    split; [|done]. by apply (Hsup3 x hx); [|apply not_eq_sym|].
Qed.

(** The first step of [Release]: a dirty inode gets its times. *)
Lemma release_touch T PO t o h hd name data :
  FS T PO t -> handles t !! o = Some h -> 0 < PO o -> clock_ok t ->
  value_ h = mk_value hd name data -> value_wf hd name ->
  exists t1 h1 hd', (if decide (mode_ h = INODE_WRITE) then
      value <- attribute_at (value_ h) ;;
      atime <- in_os os_time ;;
      mtime <- in_os os_time ;;
      set_handle_value o (UpdateAttribute (value_ h) (set_st_times atime 0 mtime 0 value))
    else ret tt) t = Ret tt t1 /\ handles t1 !! o = Some h1 /\ key_ h1 = key_ h /\
    value_ h1 = mk_value hd' name data /\ value_wf hd' name /\
    FS (<[key_ h := mk_value hd' name data]> T) PO t1 /\ delete o (handles t1) = delete o (handles t) /\
    (hd' = hd \/ exists a b, hd' = set_fstat (set_st_times a 0 b 0 (fstat hd)) hd) /\
    t_fhs t1 = t_fhs t /\ same_disk t t1 /\ os_fds (t_st t1).2 = os_fds (t_st t).2.
Proof.
  intros HFS Eh Hpo Hc Hv Hwf. case_decide as Hm.
  - destruct (release_times T PO t o h hd name data HFS Eh Hpo Hc Hv Hwf Hm)
      as (a & b & t1 & t2 & hd' & H1 & H2 & Hhd & Hwf' & t3 & H3 & HF3 & Hh3 & Hf3 & Hs3 & Hg3).
    exists t3, (set_value_ (mk_value hd' name data) h), hd'. split.
    { erewrite bind_Ret by (apply attribute_at_Ret; rewrite Hv; by exists hd, name, data).
      erewrite bind_Ret by exact H1. erewrite bind_Ret by exact H2.
      rewrite Hv at 2. rewrite (GetAttribute_mk hd name Hwf). exact H3. }
    rewrite Hh3. split; [apply lookup_insert_eq|]. rewrite delete_insert_eq. split_and!; try done; eauto.
  - exists t, h, hd. destruct (FS_handle_value _ _ _ _ _ HFS Eh) as (HT & _).
    rewrite <- Hv, (insert_id T) by done. split_and!; try done. by left.
Qed.

(** [Release] of the only open handle of a file stores the inode and keeps the
    contents; the inode is no longer cached. *)
Lemma Release_refines T PO t fh f h c :
  FS T PO t -> file_open PO t fh f h c -> PO (fh_handle_ f) = 1 -> clock_ok t ->
  exists t' v', Release fh t = Ret 0 t' /\ FS (<[key_ h := v']> T) (unhold (fh_handle_ f) PO) t' /\
    file_rep t' v' (-1) c /\ os_wf (t_st t').2 /\ (t_st t').1 = (t_st t).1 /\
    (forall path, file_at (t_st t').2 path = file_at (t_st t).2 path) /\
    t_fhs t' = delete fh (t_fhs t) /\ handles t' = delete (fh_handle_ f) (handles t) /\
    (v' = value_ h \/ exists a b, let s := set_st_times a 0 b 0 (GetAttribute (value_ h)) in
       v' = UpdateAttribute (value_ h) s /\ GetAttribute v' = s).
Proof.
  intros HFS [Ef Eh Hpin Hfl Hrep Hos] Hone Hclk.
  destruct Hrep as (hd & name & data & Hv & Hwf & Hsz & Hcase).
  destruct (release_touch T PO t _ h hd name data HFS Eh Hpin Hclk Hv Hwf)
    as (t1 & h1 & hd' & Htouch & Eh1 & Hk1 & Hv1 & Hwf' & HF1 & Hd1 & Hhd & Hf1 & Hs1 & Hg1).
  assert (st_size (fstat hd') = st_size (fstat hd) /\ has_blob hd' = has_blob hd /\
          st_ino (fstat hd') = st_ino (fstat hd)) as (Esz & Ebl & Eino)
    by (destruct Hhd as [->|(a & b & ->)]; done).
  assert (exists t2, (if negb (fh_fd_ f =? -1) then in_os (os_close (fh_fd_ f)) else ret 0) t1 = Ret 0 t2 /\
    t_ic t2 = t_ic t1 /\ t_dc t2 = t_dc t1 /\ t_fhs t2 = t_fhs t1 /\ same_disk t1 t2 /\
    os_fds (t_st t2).2 ⊆ os_fds (t_st t1).2) as (t2 & Hclose & I2 & D2 & F2 & S2 & G2).
  { destruct Hcase as [(_ & _ & _ & Hfd & _)|(_ & _ & _ & Hfd & _)].
    - exists t1. rewrite Hfd. split_and!; try done.
    - destruct Hfd as [Hfd|(H0 & v & fl & E & _)].
      + exists t1. rewrite Hfd. split_and!; try done.
      + replace (fh_fd_ f =? -1) with false by (symmetry; lia). cbn [negb].
        eexists. split; [apply in_os_Ret, (os_close_spec _ (v, fl)); by rewrite Hg1|].
        split_and!; try done. cbn. apply delete_subseteq. }
  assert (same_disk t t2) as S12 by (destruct Hs1, S2; split; congruence).
  assert (FS (<[key_ h := mk_value hd' name data]> T) PO t2) as HF2.
  { eapply FS_os; [exact HF1|done|done| |by rewrite (sk_fss _ _ S2)]. rewrite (sk_fss _ _ S2).
    eapply dirs_ok_eq; [apply S2|apply HF1]. }
  assert (handles t2 = handles t1) as Hh2 by (unfold handles; congruence).
  destruct (fs_close _ PO t2 (fh_handle_ f) h1 HF2) as (t3 & h3 & t4 & t5 & Hwb & Eh3 & Hk3 & Hrl & Hev & HF5 & Hs5 & Hf5 & Hh5);
    [by rewrite Hh2|done|].
  exists (put_fhs (delete fh (t_fhs t5)) t5), (mk_value hd' name data). split.
  { unfold Release. erewrite bind_Ret by by apply file_handle_Ret. cbv zeta.
    erewrite bind_Ret by (apply handle_at_Ret; exact Eh). rewrite bind_WriteLock.
    erewrite bind_Ret by exact Htouch. erewrite bind_Ret by exact Hclose.
    erewrite bind_Ret by exact Hwb. erewrite bind_Ret by (apply handle_at_Ret; exact Eh3).
    erewrite bind_Ret by exact Hrl. rewrite Hk3. erewrite bind_Ret by exact Hev.
    erewrite bind_Ret by reflexivity. rewrite bind_Unlock. reflexivity. }
  split; [eapply FS_os; [exact HF5|done|done|apply HF5|done]|].
  assert (forall p, file_at (t_st t5).2 p = file_at (t_st t).2 p) as Hfile
    by (intros p; rewrite Hs5; by apply same_disk_file).
  split; [|split; [|split_and!]].
  - exists hd', name, data. split; [done|]. split; [done|]. split; [by rewrite Esz|].
    unfold data_file, fd_ok in *. cbn [t_st put_fhs]. rewrite Hfile, Hs5, (sk_fss _ _ S12), Ebl, Eino.
    destruct Hcase as [(C1 & C2 & C3 & C4 & C5)|(C1 & C0 & C2 & C3 & C4)]; [left|right]; split_and!; try done. by left.
  - cbn. rewrite Hs5. destruct Hos as [W1 W2 W3].
    split; cbn; rewrite ?(sk_names _ _ S12), ?(sk_next _ _ S12); try done.
    intros fd v fl E. apply (W3 fd v fl). rewrite <- Hg1. by eapply lookup_weaken.
  - cbn. by rewrite Hs5, (sk_fss _ _ S12).
  - done.
  - cbn. by rewrite Hf5, F2, Hf1.
  - unfold handles at 1. cbn. fold (handles t5). rewrite Hh5, Hh2. exact Hd1.
  - rewrite Hv. destruct Hhd as [->|(a & b & ->)]; [by left|right]. exists a, b. cbv zeta.
    by rewrite UpdateAttribute_mk, (GetAttribute_mk hd name Hwf), (GetAttribute_mk _ name Hwf').
Qed.

(** ** A whole session: write, close, open again, read *)

Definition open_file (path : bytes) (flags : Z) : prog (tfs S) nat :=
  ' (r, fh) <- Open path flags ;; deref NullPointer fh.

Definition write_session (path buf : bytes) (offset flags : Z) : prog (tfs S) Z :=
  fh <- open_file path flags ;;
  n <- Write fh buf offset flags ;;
  Release fh ;;;
  ret n.

Definition read_session (path : bytes) (size offset flags : Z) : prog (tfs S) (Z * bytes) :=
  fh <- open_file path flags ;;
  Read fh size offset.

Lemma resolve_loop_ext T T' fuel key inode after :
  (forall k, ino_of (T !! k) = ino_of (T' !! k)) ->
  resolve_loop fuel T key inode after = resolve_loop fuel T' key inode after.
Proof.
  intros E. revert key inode after. induction fuel as [|fuel IH]; intros key inode after; cbn [resolve_loop];
    destruct (strchr_delim after) as [[item after']|]; try done.
  rewrite E. destruct (ino_of (T' !! BuildMetaKey_path item inode)); [|done]. apply IH.
Qed.

Lemma resolve_ext T T' path :
  (forall k, ino_of (T !! k) = ino_of (T' !! k)) -> resolve T path = resolve T' path.
Proof.
  intros E. unfold resolve, resolve_parent. destruct path as [|b after]; [done|].
  by rewrite (resolve_loop_ext T T') by done.
Qed.

(** A new value with the same inode number does not change what paths mean. *)
Lemma resolve_same_ino T k v v' path :
  T !! k = Some v -> st_ino (GetAttribute v') = st_ino (GetAttribute v) ->
  resolve (<[k := v']> T) path = resolve T path.
Proof.
  intros HT Hi. apply resolve_ext. intros k'. destruct (decide (k' = k)) as [->|Hne].
  - rewrite lookup_insert_eq, HT. unfold ino_of, fmap, option_fmap, option_map. by rewrite Hi.
  - by rewrite lookup_insert_ne.
Qed.

Lemma idle_hold o x : unhold o (hold o idle) x = idle x.
Proof. apply unhold_hold. Qed.

Lemma write_session_spec T t path k v c buf offset flags :
  FS T idle t -> path <> [] -> resolve T path = Some k -> T !! k = Some v -> file_rep t v (-1) c ->
  os_wf (t_st t).2 -> clock_ok t -> rw_flags flags -> bytes_ok buf -> 0 <= offset -> writes_through c buf offset ->
  0 <= threshold_ (t_st t).1 < 2 ^ 62 ->
  Z.of_nat (length v) + Z.of_nat (length c) + (offset + Z.of_nat (length buf)) < 2 ^ 31 ->
  exists t' v', write_session path buf offset flags t = Ret (Z.of_nat (length buf)) t' /\
    FS (<[k := v']> T) idle t' /\ file_rep t' v' (-1) (write_at c (Z.to_nat offset) buf) /\
    resolve (<[k := v']> T) path = Some k /\ os_wf (t_st t').2 /\ (t_st t').1 = (t_st t).1.
Proof.
  intros HFS Hp Er ET Hrep Hos Hclk Hfl Hbuf Hoff Hthru Hthr Hlen.
  destruct (Open_refines T idle t path flags k v c) as (t1 & fh & f & h & Hopen & HF1 & Hfo1 & Hk & Hv & Hst1 & Hck1 & Hoth1); try done.
  { intros k' _. by eapply FS_room_idle. }
  destruct (Write_refines T _ t1 fh f h c buf offset flags HF1 Hfo1 Hfl Hbuf Hoff Hthru)
    as (t2 & hd & name & Hhd & Hwrite & [(f' & Ef' & Hfo & Hff & hd' & data & Hwf2 & HF2 & Eh2 & Hstat & Hrep2) (data0 & Hname) Hof Hos2 Hst2]);
    [by rewrite Hst1|by rewrite Hv|].
  rewrite <- Hfo in *. set (h2 := mkICH (key_ h) (mk_value hd' name data) INODE_WRITE (pointer h)) in *.
  assert (file_open (hold (fh_handle_ f') idle) t2 fh f' h2 (write_at c (Z.to_nat offset) buf)) as Hfo2.
  { destruct Hfo1 as [E1 E2 E3 E4 E5 E6]. rewrite <- Hfo in *. rewrite <- Hff in *. by split. }
  destruct (Release_refines _ _ t2 fh f' h2 _ HF2 Hfo2) as (t3 & v' & Hrel & HF3 & Hrep3 & Hos3 & Hst3 & _ & _ & _ & Hv').
  { unfold hold, idle. by rewrite decide_True. }
  { unfold clock_ok. by rewrite (of_clock _ _ _ Hof), Hck1. }
  apply (FS_pins_ext _ _ idle) in HF3; [|apply idle_hold].
  cbn [key_ value_ h2] in *. rewrite Hk in *. rewrite insert_insert_eq in HF3.
  exists t3, v'. split; [|split; [done|split; [done|split; [|split; [done|congruence]]]]].
  - unfold write_session, open_file. rewrite bind_assoc. erewrite bind_Ret by exact Hopen. cbv iota beta.
    erewrite bind_Ret by reflexivity. erewrite bind_Ret by exact Hwrite.
    by erewrite bind_Ret by exact Hrel.
  - rewrite (resolve_same_ino T k v); [done|done|]. destruct Hrep as (hd0 & nm0 & d0 & E0 & Hwf0 & _).
    assert (hd = hd0) as -> by (rewrite <- Hhd, Hv, E0; by apply header_of).
    assert (GetAttribute (mk_value hd' name data) = fstat (grown hd0 (offset + Z.of_nat (length buf)))) as Ha
      by (rewrite (GetAttribute_mk hd' name Hwf2); done).
    rewrite E0, (GetAttribute_mk hd0 nm0 Hwf0).
    destruct Hv' as [->|(a & b & _ & ->)]; by rewrite Ha.
Qed.

(** Reading back what was written, in the same run of the file system. *)
Lemma session_roundtrip T t path k v c buf offset flags :
  FS T idle t -> path <> [] -> resolve T path = Some k -> T !! k = Some v -> file_rep t v (-1) c ->
  os_wf (t_st t).2 -> clock_ok t -> rw_flags flags -> bytes_ok buf -> 0 <= offset -> writes_through c buf offset ->
  0 <= threshold_ (t_st t).1 < 2 ^ 62 ->
  Z.of_nat (length v) + Z.of_nat (length c) + (offset + Z.of_nat (length buf)) < 2 ^ 31 ->
  forall size off2, 0 <= size < 2 ^ 31 -> 0 <= off2 < 2 ^ 62 ->
  exists t', let data := slice (Z.to_nat off2) (Z.to_nat size) (write_at c (Z.to_nat offset) buf) in
    (write_session path buf offset flags ;;; read_session path size off2 flags) t =
    Ret (Z.of_nat (length data), data) t'.
Proof.
  intros HFS Hp Er ET Hrep Hos Hclk Hfl Hbuf Hoff Hthru Hthr Hlen size off2 Hsz Ho2.
  destruct (write_session_spec T t path k v c buf offset flags) as (t1 & v' & Hw & HF1 & Hrep1 & Er1 & Hos1 & Hst1); try done.
  destruct (Open_refines _ idle t1 path flags k v' (write_at c (Z.to_nat offset) buf) HF1 Hp) as (t2 & fh & f & h & Hopen & HF2 & Hfo2 & _); try done.
  { intros k' _. by eapply FS_room_idle. }
  { apply lookup_insert_eq. }
  destruct (Read_refines _ _ t2 fh f h _ size off2 HF2 Hfo2) as (t3 & f' & Hread & _); [done|done| |].
  { rewrite length_write_at. lia. }
  exists t3. cbv zeta. erewrite bind_Ret by exact Hw. unfold read_session, open_file.
  rewrite bind_assoc. erewrite bind_Ret by exact Hopen. cbv iota beta.
  erewrite bind_Ret by reflexivity. exact Hread.
Qed.
End files.
