(* ===== verification/FsTruncate.v ===== *)
(** [TableFS::Truncate]: a file shrinks in place, in its data file, or moves from
    its data file back into the inode. *)

From S2P Require Import Prelude Hashes Coding WriteBatch Inode DCache Cache Kv ICache Posix Properties State TableFS FsInv FsOps FsFile.

Set Default Proof Using "Type".

(** ** The operating system *)

Lemma os_truncate_spec path c n o :
  os_wf o -> file_at o path = Some c -> 0 <= n ->
  exists o', os_truncate path n o = Ret 0 o' /\ os_wf o' /\ only_file path o o' /\
    file_at o' path = Some (str_resize c (Z.to_nat n)).
Proof.
  intros Hwf Hf Hn. unfold file_at in Hf. destruct (os_names o !! path) as [v|] eqn:Ev; [|done].
  injection Hf as <-. destruct (with_data_spec o path v (str_resize (data_of o v) (Z.to_nat n)) Hwf Ev) as (W1 & W2 & W3).
  eexists. split; [|done]. unfold os_truncate, bind, get_state. rewrite Ev.
  by replace (n <? 0) with false by (symmetry; lia).
Qed.

(** Reading the start of a file and removing it. *)
Lemma read_and_remove path c n o :
  os_wf o -> file_at o path = Some c -> 0 <= n ->
  exists o', (fd <- os_open path O_RDONLY ;;
      ' (r, data) <- os_pread fd n 0 ;;
      os_close fd ;;;
      os_unlink path ;;;
      ret data) o = Ret (take (Z.to_nat n) c) o' /\ os_wf o' /\ only_file path o o' /\ file_at o' path = None.
Proof.
  intros Hwf Hf Hn. unfold file_at in Hf. destruct (os_names o !! path) as [v|] eqn:Ev; [|done]. injection Hf as <-.
  destruct (fresh_fd_spec (os_fds o)) as [Hfree _]. set (fd := fresh_fd (os_fds o)) in *.
  set (o1 := with_fds (<[fd := (v, O_RDONLY)]> (os_fds o)) o).
  set (o2 := with_fds (delete fd (os_fds o1)) o1).
  exists (with_names (delete path (os_names o2)) o2). split; [|split; [|split]].
  - erewrite bind_Ret.
    2: { unfold os_open, bind at 1, get_state at 1. rewrite Ev. reflexivity. }
    fold o1. erewrite bind_Ret by (rewrite (os_pread_spec fd v O_RDONLY); [reflexivity|apply lookup_insert_eq|done|done]).
    cbv iota beta. erewrite bind_Ret by (eapply os_close_spec, lookup_insert_eq). fold o2.
    erewrite bind_Ret by (unfold os_unlink, bind at 1, get_state at 1; cbn; rewrite Ev; reflexivity). done.
  - destruct Hwf as [W1 W2 W3]. split; cbn.
    + intros p q x [_ Ep]%lookup_delete_Some [_ Eq]%lookup_delete_Some. by eapply W1.
    + intros p x [_ Ep]%lookup_delete_Some. by eapply W2.
    + intros x y fl. rewrite delete_insert_id by done. apply W3.
  - split; [|done|done]. intros q Hq. unfold file_at. cbn. by rewrite lookup_delete_ne by done.
  - unfold file_at. cbn. by rewrite lookup_delete_eq.
Qed.

Section truncate.
Context {S It : Type} `{!KvWrapper S It, !KvSpec S It} (env : environment).
Implicit Types (T : table) (PO : nat -> Z) (t : tfs S).

Lemma in_os_bind {A B} (m : prog os A) (k : A -> prog os B) t :
  in_os (bind m k) t = (a <- in_os m ;; in_os (k a)) t.
Proof.
  unfold in_os, in_st, on_os, zoom, bind. by destruct (m (t_st t).2).
Qed.

Lemma FS_only_file T PO t path o' :
  FS T PO t -> only_file path (t_st t).2 o' -> FS T PO (put_st ((t_st t).1, o') t).
Proof.
  intros HFS Hof. eapply FS_os; [exact HFS|done|done| |done]. cbn. eapply dirs_ok_eq; [apply Hof|apply HFS].
Qed.

(** A data file moves into memory. *)
Lemma MigrateDiskFileToBuffer_spec T PO t hd c buffer :
  FS T PO t -> os_wf (t_st t).2 -> file_at (t_st t).2 (data_file t hd) = Some c -> (length buffer <= length c)%nat ->
  exists o', MigrateDiskFileToBuffer (st_ino (fstat hd)) buffer t =
      Ret (take (length buffer) c) (put_st ((t_st t).1, o') t) /\
    os_wf o' /\ only_file (data_file t hd) (t_st t).2 o' /\ file_at o' (data_file t hd) = None.
Proof.
  intros HFS Hwf Hfa Hlen.
  destruct (read_and_remove (data_file t hd) c (Z.of_nat (length buffer)) (t_st t).2 Hwf Hfa ltac:(lia))
    as (o' & Hrun & Hwf' & Hof & Hno).
  exists o'. split; [|done]. rewrite Nat2Z.id in Hrun. apply in_os_Ret in Hrun.
  unfold MigrateDiskFileToBuffer. erewrite bind_Ret by by eapply disk_path_of_Ret.
  fold (data_file t hd). rewrite in_os_bind in Hrun.
  apply bind_inv in Hrun as (fd & t1 & H1 & Hrun). erewrite bind_Ret by exact H1. rewrite in_os_bind in Hrun.
  apply bind_inv in Hrun as ([r data] & t2 & H2 & Hrun). erewrite bind_Ret by exact H2. cbv iota beta.
  rewrite in_os_bind in Hrun. apply bind_inv in Hrun as (r3 & t3 & H3 & Hrun). erewrite bind_Ret by exact H3.
  rewrite in_os_bind in Hrun. apply bind_inv in Hrun as (r4 & t4 & H4 & Hrun). erewrite bind_Ret by exact H4.
  assert (in_os (ret data) t4 = Ret data t4) as E by by destruct t4 as [? ? [] ? ? ? ? ?].
  rewrite E in Hrun. injection Hrun as -> ->. rewrite length_take_le, drop_all, app_nil_r by done. done.
Qed.

(** The steps of [Truncate] that move data. *)
Definition truncate_data (o : nat) (v : bytes) (iheader : tfs_inode_header) (new_size threshold : Z) : prog (tfs S) Z :=
  if has_blob iheader >? 0 then
    if new_size >? threshold then
      TruncateDiskFile (st_ino (fstat iheader)) new_size ;;; ret 0
    else if new_size <? 0 then undefined OutOfBounds
    else
      buffer <- new_memory env (Z.to_nat new_size) ;;
      data <- MigrateDiskFileToBuffer (st_ino (fstat iheader)) buffer ;;
      set_handle_value o (UpdateInlineData v data 0) ;;; ret 0
  else
    if new_size >? threshold then
      ' (m, fd) <- MigrateToDiskFile o (env_int env) (Z.lor O_TRUNC O_WRONLY) ;;
      if m =? 0 then
        r <- in_os (os_ftruncate fd new_size) ;;
        (if r =? 0 then in_os (os_fsync fd) ;;; ret tt else ret tt) ;;;
        in_os (os_close fd) ;;;
        ret r
      else ret 0
    else
      set_handle_value o (TruncateInlineData v new_size) ;;; ret 0.

(** The data that stay in the inode. *)
Definition inline_part (threshold n : Z) (c : bytes) : bytes :=
  if n >? threshold then [] else str_resize c (Z.to_nat n).

Section steps.
Context (T : table) (PO : nat -> Z) (t : tfs S) (o : nat) (h : InodeCacheHandle) (hd : tfs_inode_header)
  (name data c : bytes) (n : Z).
Let th := threshold_ (t_st t).1.
Let data' := inline_part th n c.
Hypotheses (HFS : FS T PO t) (Eh : handles t !! o = Some h) (Hmode : mode_ h = INODE_WRITE) (Hpin : 0 < PO o)
  (Hos : os_wf (t_st t).2) (Hv : value_ h = mk_value hd name data) (Hwf : value_wf hd name)
  (Hrep : file_rep t (value_ h) (-1) c) (Hn : 0 <= n) (Hc : bytes_ok data')
  (Hlen : 257 + Z.of_nat (length name) + n < 2 ^ 31) (Hside : has_blob hd = 0 -> n <= th)
  (Hmem : forall i k, length (env_memory env i k) = k).

(** After the data have moved. *)
Record moved t' : Prop := {
  mv_FS : FS (<[key_ h := mk_value hd name data']> T) PO t';
  mv_handle : handles t' !! o = Some (set_value_ (mk_value hd name data') h);
  mv_state : (t_st t').1 = (t_st t).1;
  mv_os : os_wf (t_st t').2;
  mv_files : only_file (data_file t hd) (t_st t).2 (t_st t').2;
  mv_data : file_at (t_st t').2 (data_file t hd) = if n >? th then Some (str_resize c (Z.to_nat n)) else None
}.

Lemma bytes_ok_inline : bytes_ok data' /\ 257 + Z.of_nat (length name) + Z.of_nat (length data') < 2 ^ 32.
Proof using Hc Hlen Hn.
  clear -Hc Hlen Hn. split; [done|]. subst data'. unfold inline_part. destruct (n >? th); cbn [length]; [lia|].
  rewrite length_str_resize. lia.
Qed.

Lemma truncate_data_spec :
  exists t', truncate_data o (value_ h) hd n th t = Ret 0 t' /\ moved t'.
Proof using All.
  pose proof Hrep as (hd1 & name1 & data1 & Hv1 & Hwf1 & Hsz & Hcase). rewrite Hv in Hv1.
  destruct (mk_value_inj _ _ _ _ _ _ Hwf Hwf1 Hv1) as (<- & <- & <-). destruct bytes_ok_inline as [Hb' Hl'].
  unfold truncate_data. destruct Hcase as [(Hb & Hd & _ & _ & Hno)|(Hb & Hd & Hfa & _ & Hbig)]; rewrite Hb.
  - change (0 >? 0) with false. cbv iota. pose proof (Hside Hb) as Hle.
    assert ((n >? th) = false) as Hgt by lia. rewrite Hgt.
    assert (data' = str_resize c (Z.to_nat n)) as Ed by (subst data'; unfold inline_part; by rewrite Hgt).
    destruct (set_mk T PO t o h hd name data hd data') as (t1 & Hset & HF1 & Hh1 & Hs1 & _); try done.
    exists t1. split.
    + rewrite Hv, (TruncateInlineData_mk hd name Hwf), Hd, <- Ed by lia. by erewrite bind_Ret by exact Hset.
    + split; try done; [by rewrite Hh1, lookup_insert_eq|by rewrite Hs1..| |by rewrite Hs1, Hgt].
      rewrite Hs1. apply only_file_refl.
  - change (1 >? 0) with true. cbv iota. destruct (n >? th) eqn:Hgt.
    + destruct (os_truncate_spec (data_file t hd) c n (t_st t).2 Hos Hfa Hn) as (o' & Htr & Hwf' & Hof & Hfa').
      assert (data' = []) as Ed by (subst data'; unfold inline_part; by rewrite Hgt).
      exists (put_st ((t_st t).1, o') t). split.
      * erewrite bind_Ret; [done|]. unfold TruncateDiskFile. erewrite bind_Ret by by eapply disk_path_of_Ret.
        apply in_os_Ret, Htr.
      * assert (set_value_ (mk_value hd name data') h = h) as Eh' by (rewrite Ed, <- Hd, <- Hv; by destruct h).
        destruct (FS_handle_value _ _ _ _ _ HFS Eh) as (HT & _).
        split; rewrite ?Eh'; try done; [|by rewrite Hgt].
        rewrite Ed, <- Hd, <- Hv, insert_id by done. by eapply FS_only_file.
    + replace (n <? 0) with false by (symmetry; lia).
      set (t1 := mkTfs (t_ic t) (t_dc t) (t_st t) (t_fhs t) (t_next_fh t) (t_allocs t + 1) (flag_fuse_enabled t) (t_context t)).
      set (buffer := env_memory env (t_allocs t) (Z.to_nat n)).
      assert (length buffer = Z.to_nat n) as Hbl by apply Hmem.
      assert (FS T PO t1) as HF1 by (eapply FS_os; [exact HFS|done|done|apply HFS|done]).
      destruct (MigrateDiskFileToBuffer_spec T PO t1 hd c buffer HF1 Hos Hfa) as (o' & Hmig & Hwf' & Hof & Hno); [subst th; lia|].
      assert (data' = take (Z.to_nat n) c) as Ed.
      { subst data'. unfold inline_part. rewrite Hgt. apply str_resize_shrink. subst th. lia. }
      destruct (set_mk T PO (put_st ((t_st t1).1, o') t1) o h hd name data hd data') as (t2 & Hset & HF2 & Hh2 & Hs2 & _); try done.
      { by eapply FS_only_file. }
      exists t2. split.
      * erewrite bind_Ret by reflexivity. fold t1 buffer. erewrite bind_Ret by exact Hmig.
        rewrite Hv, (UpdateInlineData_mk hd name Hwf), Hd, Hbl, <- Ed by lia. rewrite write_at_nil.
        by erewrite bind_Ret by exact Hset.
      * split; try done; [by rewrite Hh2, lookup_insert_eq|by rewrite Hs2..|]. rewrite Hs2, Hgt. exact Hno.
Qed.
End steps.

(** The header of the resized file. *)
Definition resized (hd : tfs_inode_header) (threshold n : Z) : tfs_inode_header :=
  if n =? st_size (fstat hd) then hd
  else set_has_blob (if n >? threshold then 1 else 0) (set_fstat (set_st_size n (fstat hd)) hd).

Lemma resized_wf hd threshold n name : value_wf hd name -> 0 <= n < 2 ^ 63 -> value_wf (resized hd threshold n) name.
Proof.
  intros Hwf Hn. unfold resized. destruct (n =? _); [done|]. apply value_wf_blob; [by destruct (n >? threshold)|].
  apply value_wf_fstat; [|done]. apply stat_ok_size; [apply Hwf|lia].
Qed.

Lemma resized_stat hd threshold n : fstat (resized hd threshold n) = set_st_size n (fstat hd).
Proof.
  unfold resized. destruct (n =? _) eqn:E; bool_to_prop; [|done]. rewrite E. by destruct hd as [[]].
Qed.

Lemma resized_blob t hd name data c n :
  value_wf hd name -> file_rep t (mk_value hd name data) (-1) c ->
  has_blob (resized hd (threshold_ (t_st t).1) n) = if n >? threshold_ (t_st t).1 then 1 else 0.
Proof.
  intros Hwf (hd1 & name1 & data1 & Hv1 & Hwf1 & Hsz & Hcase).
  destruct (mk_value_inj _ _ _ _ _ _ Hwf Hwf1 Hv1) as (<- & <- & <-).
  unfold resized. destruct (n =? _) eqn:E; [|done]. bool_to_prop. rewrite Hsz in E.
  destruct Hcase as [(-> & _ & Hth & _)|(-> & _ & _ & _ & Hbig)].
  - by replace (n >? _) with false by (symmetry; lia).
  - by replace (n >? _) with true by (symmetry; lia).
Qed.

(** The new size goes into the header, and the header to the store. *)
Lemma truncate_end T PO t o h hd name data n threshold :
  FS T (hold o PO) t -> handles t !! o = Some h -> mode_ h = INODE_WRITE -> 0 <= PO o ->
  value_ h = mk_value hd name data -> value_wf hd name -> 0 <= n < 2 ^ 63 ->
  exists t', ((if negb (n =? st_size (fstat hd)) then
       new_iheader <- header_at (value_ h) ;;
       set_handle_value o (UpdateInodeHeader (value_ h)
         (set_has_blob (if n >? threshold then 1 else 0) (set_fstat (set_st_size n (fstat new_iheader)) new_iheader)))
     else ret tt) ;;;
     in_ic (InodeCache_WriteBack o) ;;;
     in_ic (InodeCache_Release o)) t = Ret tt t' /\
    FS (<[key_ h := mk_value (resized hd threshold n) name data]> T) PO t' /\ t_st t' = t_st t.
Proof.
  intros HFS Eh Hm Hpo Hv Hwf Hn. destruct (FS_handle_value _ _ _ _ _ HFS Eh) as (HT & _ & Hstr).
  assert (bytes_ok data /\ 257 + Z.of_nat (length name) + Z.of_nat (length data) < 2 ^ 32) as [Hb Hl].
  { rewrite Hv in Hstr. destruct Hstr as [Hb Hl]. rewrite (length_mk hd name Hwf) in Hl. split; [|lia].
    unfold mk_value in Hb. apply Forall_app in Hb as [_ Hb]. apply Forall_app in Hb as [_ Hb].
    by apply Forall_cons_1 in Hb as [_ Hb]. }
  assert (exists t1, (if negb (n =? st_size (fstat hd)) then
       new_iheader <- header_at (value_ h) ;;
       set_handle_value o (UpdateInodeHeader (value_ h)
         (set_has_blob (if n >? threshold then 1 else 0) (set_fstat (set_st_size n (fstat new_iheader)) new_iheader)))
     else ret tt) t = Ret tt t1 /\ FS (<[key_ h := mk_value (resized hd threshold n) name data]> T) (hold o PO) t1 /\
     t_st t1 = t_st t /\ exists h1, handles t1 !! o = Some h1 /\ mode_ h1 = INODE_WRITE)
    as (t1 & H1 & HF1 & Hs1 & h1 & Eh1 & Hm1).
  { pose proof (resized_wf hd threshold n name Hwf Hn) as Hwf'. pose proof (resized_stat hd threshold n) as Hst.
    destruct (n =? st_size (fstat hd)) eqn:E.
    - exists t. unfold resized. rewrite E. rewrite <- Hv, insert_id by done. cbn [negb]. eauto 10.
    - destruct (set_mk T (hold o PO) t o h hd name data (resized hd threshold n) data) as (t1 & Hset & HF1 & Hh1 & Hs1 & _);
        try done; [unfold hold; rewrite decide_True by done; lia|by rewrite Hst|].
      exists t1. split; [|split; [done|split; [done|]]].
      + cbn [negb]. rewrite Hv. erewrite bind_Ret by (apply header_at_Ret; by exists hd, name, data).
        rewrite header_of, (UpdateInodeHeader_mk hd name Hwf) by (done || apply Hwf).
        unfold resized in Hset. rewrite E in Hset. exact Hset.
      + rewrite Hh1, lookup_insert_eq. eauto. }
  destruct (writeback_release _ PO t1 o h1 HF1 Eh1 Hm1 Hpo) as (t2 & H2 & HF2 & Hs2 & _).
  exists t2. split; [by erewrite bind_Ret by exact H1|]. split; [done|by rewrite Hs2].
Qed.

(** What [Truncate] leaves. *)
Record truncated T PO t (k : tfs_meta_key_t) (hd : tfs_inode_header) (name c : bytes) (n : Z) t' : Prop := {
  tr_rep : exists hd' data', value_wf hd' name /\ fstat hd' = set_st_size n (fstat hd) /\
    FS (<[k := mk_value hd' name data']> T) PO t' /\
    file_rep t' (mk_value hd' name data') (-1) (str_resize c (Z.to_nat n));
  tr_state : (t_st t').1 = (t_st t).1;
  tr_os : os_wf (t_st t').2;
  tr_files : forall q, q <> data_file t hd -> file_at (t_st t').2 q = file_at (t_st t).2 q
}.

(** A file is resized when it keeps its place, or when it moves back into the inode
    and the string that holds the inode stays where it is. *)
Lemma Truncate_refines T PO t path n k hd name data c :
  FS T PO t -> path <> [] -> rooms T PO t path -> resolve T path = Some k ->
  T !! k = Some (mk_value hd name data) -> value_wf hd name -> os_wf (t_st t).2 ->
  file_rep t (mk_value hd name data) (-1) c -> bytes_ok (inline_part (threshold_ (t_st t).1) n c) -> 0 <= n ->
  257 + Z.of_nat (length name) + n < 2 ^ 31 -> (has_blob hd = 0 -> n <= threshold_ (t_st t).1) ->
  (forall i j, length (env_memory env i j) = j) ->
  env_moved env (length (mk_value hd name data))
    (length (mk_value hd name (inline_part (threshold_ (t_st t).1) n c))) = false ->
  exists t', Truncate env path n t = Ret 0 t' /\ truncated T PO t k hd name c n t'.
Proof.
  intros HFS Hp Hroom Er ET Hwf Hos Hrep Hc Hn Hlen Hside Hmem Hmv.
  destruct (lookup_file T PO t path k _ c HFS Hp Hroom Er ET Hos Hrep)
    as (t1 & t2 & o & h & Hrun & Hg & HF2 & Eh & Hkh & Hvh & Hm & Hpin & Hst2 & Hos2 & _ & Hrep2 & Hf2).
  rewrite <- Hst2 in Hside, Hmv, Hc. rewrite <- Hvh in Hrep2.
  destruct (truncate_data_spec T _ t2 o h hd name data c n HF2 Eh Hm Hpin Hos2 Hvh Hwf Hrep2 Hn Hc Hlen Hside Hmem)
    as (t3 & Hdata & [MF ME MS MO MV MD]).
  set (th := threshold_ (t_st t2).1) in *. set (data' := inline_part th n c) in *.
  destruct (truncate_end _ PO t3 o (set_value_ (mk_value hd name data') h) hd name data' n th MF ME)
    as (t4 & Hend & HF4 & Hs4); try done; [by eapply FS_pins_nonneg|lia|].
  cbn [key_ set_value_] in HF4. rewrite insert_insert_eq, Hkh in HF4.
  assert (data_file t2 hd = data_file t hd) as Hdf by (unfold data_file; by rewrite Hst2). rewrite Hdf in *.
  exists t4. split; [|split].
  - unfold Truncate. erewrite bind_Ret by exact Hrun. cbv iota beta. erewrite bind_Ret by exact Hg.
    rewrite bind_WriteLock. cbv iota. rewrite bind_assoc. erewrite bind_Ret by (apply handle_at_Ret; exact Eh).
    rewrite bind_assoc. erewrite bind_Ret by (apply header_at_Ret; rewrite Hvh; by exists hd, name, data).
    rewrite bind_assoc. erewrite bind_Ret by reflexivity. fold th. rewrite bind_assoc.
    rewrite Hvh, header_of by done. rewrite Hvh in Hdata. erewrite bind_Ret by exact Hdata.
    rewrite bind_assoc. erewrite bind_Ret by (apply handle_at_Ret; exact ME). cbn [value_ set_value_].
    rewrite bind_assoc. unfold stale_header. rewrite Hmv, bind_ret. cbn [value_ set_value_] in Hend.
    rewrite bind_assoc. apply bind_inv in Hend as ([] & t5 & H5 & (  [] & t6 & H6 & H7)%bind_inv).
    erewrite bind_Ret by exact H5. rewrite bind_assoc. erewrite bind_Ret by exact H6.
    rewrite bind_assoc. erewrite bind_Ret by exact H7. rewrite bind_ret, bind_Unlock. reflexivity.
  - exists (resized hd th n), data'. split; [apply resized_wf; [done|lia]|]. split; [apply resized_stat|]. split; [done|].
    exists (resized hd th n), name, data'. split; [done|]. split; [apply resized_wf; [done|lia]|].
    rewrite resized_stat, length_str_resize. split; [cbn; lia|].
    assert (data_file t4 (resized hd th n) = data_file t hd) as ->
      by (unfold data_file; rewrite resized_stat, Hs4, MS, Hst2; done).
    rewrite Hs4, MS. fold th. rewrite MD.
    pose proof (resized_blob t2 hd name data c n Hwf ltac:(by rewrite <- Hvh)) as Hb. fold th in Hb. rewrite Hb.
    subst data'. unfold inline_part. destruct (n >? th) eqn:E; [right|left]; split_and!; try done; [by left|lia|lia].
  - by rewrite Hs4, MS.
  - by rewrite Hs4.
  - intros q Hq. by rewrite Hs4, (of_others _ _ _ MV q Hq), Hf2.
Qed.

Lemma Truncate_missing T PO t path n :
  FS T PO t -> path <> [] -> rooms T PO t path -> (k ← resolve T path; T !! k) = None ->
  exists t', Truncate env path n t = Ret (- ENOENT) t' /\ FS T PO t' /\
    forall q, file_at (t_st t').2 q = file_at (t_st t).2 q.
Proof.
  intros HFS Hp Hroom Hno. destruct (PathLookup_spec T PO t path HFS Hp) as (t1 & Hrun & HF1 & HS1 & He).
  assert (forall q, file_at (t_st t1).2 q = file_at (t_st t).2 q) as Hq by (intros q; by apply same_files_at, HS1).
  unfold Truncate. erewrite bind_Ret by exact Hrun. destruct (resolve T path) as [k|] eqn:Er; cbn in Hno.
  - pose proof (resolve_key_ok _ _ _ _ _ HFS Er) as Hk.
    pose proof (fs_get T PO t1 k INODE_WRITE HF1 Hk (room_same _ _ _ _ HS1 (Hroom k Er))) as Hget.
    rewrite Hno in Hget. destruct Hget as (ic' & Hg & HF2 & _); [done|]. exists (put_ic ic' t1). split; [|done].
    erewrite bind_Ret by (apply in_ic_Ret; exact Hg). rewrite bind_WriteLock, bind_ret, bind_Unlock. reflexivity.
  - exists t1. split; [|done]. by apply FSError_Ret; auto.
Qed.
End truncate.
