(* ===== verification/FsDir.v ===== *)
(** Directories and symbolic links: [OpenDir], [ReadDir], [ReleaseDir],
    [Symlink], [Readlink]. *)

From S2P Require Import Prelude Hashes Coding WriteBatch Inode DCache Cache Kv ICache Posix Properties State TableFS FsInv FsOps.

Set Default Proof Using "Type".

(** The name [ReadDir] reports for an inode value. *)
Definition dir_name (v : bytes) : bytes := c_str (drop TFS_INODE_HEADER_SIZE v).

Definition dir_names (vs : list bytes) : list bytes := filter (fun n => n <> []) (dir_name <$> vs).

(** The key [ReadDir] starts from in the directory with inode number [ino]. *)
Definition first_key (ino : Z) : tfs_meta_key_t :=
  BuildMetaKey ino (if ino =? ROOT_INODE_ID then 1 else 0).

Lemma dir_names_cons v vs :
  dir_names (v :: vs) = match dir_name v with [] => dir_names vs | n => n :: dir_names vs end.
Proof.
  unfold dir_names. cbn [fmap list_fmap]. rewrite filter_cons. by destruct (dir_name v).
Qed.

Lemma take8_ToSlice k : take 8 (ToSlice k) = le_bytes 8 (inode_id k).
Proof. unfold ToSlice. by rewrite take_app_length' by len. Qed.

Lemma same_dir_prefix k k' :
  key_ok k -> key_ok k' -> (take 8 (ToSlice k) = take 8 (ToSlice k') <-> inode_id k = inode_id k').
Proof.
  intros [H1 _] [H2 _]. rewrite !take8_ToSlice. split; [|by intros ->].
  intros E. apply le_bytes_inj in E; [done|cbn; lia|cbn; lia].
Qed.

(** The key a 16-byte string encodes. *)
Definition key_of (b : bytes) : tfs_meta_key_t := BuildMetaKey (le_val (take 8 b)) (le_val (drop 8 b)).

Lemma key_of_ToSlice k : key_ok k -> key_of (ToSlice k) = k.
Proof.
  intros [H1 H2]. unfold key_of, BuildMetaKey. rewrite take8_ToSlice. unfold ToSlice.
  rewrite drop_app_length' by len. rewrite !le_val_bytes, !Z.mod_small by (cbn; lia). by destruct k.
Qed.

(** Below the smallest key of a directory there is nothing. *)
Lemma bytes_leb_app a b c : bytes_leb (a ++ b) (a ++ c) = bytes_leb b c.
Proof. induction a as [|x a IH]; [done|]. simpl. by rewrite Z.ltb_irrefl. Qed.

Lemma bytes_leb_zeros n l : bytes_ok l -> length l = n -> bytes_leb (replicate n 0) l = true.
Proof.
  intros Hl. revert n. induction Hl as [|b l Hb _ IH]; intros [|n] E; try done.
  simpl in *. unfold byte_ok in Hb. destruct (0 <? b) eqn:E0; [done|].
  replace (b <? 0) with false by (symmetry; lia). apply IH. lia.
Qed.

Lemma first_key_least ino k :
  key_ok k -> inode_id k = ino -> ino <> ROOT_INODE_ID -> bytes_leb (ToSlice (first_key ino)) (ToSlice k) = true.
Proof.
  intros Hk <- Hne. unfold first_key, ToSlice, BuildMetaKey. cbn [inode_id hash_id].
  replace (inode_id k =? ROOT_INODE_ID) with false by (symmetry; by apply Z.eqb_neq).
  rewrite bytes_leb_app. apply (bytes_leb_zeros 8); [apply le_bytes_ok|apply length_le_bytes].
Qed.

Lemma name_at_Ret {S} v (t : tfs S) : wf_inode v -> name_at v t = Ret (dir_name v) t.
Proof.
  intros (h & name & data & -> & Hwf). unfold name_at. rewrite decide_True; [done|].
  unfold mk_value. rewrite drop_app_length' by (by rewrite length_header_bytes by apply Hwf).
  apply elem_of_app. right. by left.
Qed.

Section dirs.
Context {S It : Type} `{!KvWrapper S It, !KvSpec S It}.
Implicit Types (T : table) (PO : nat -> Z) (t : tfs S) (m : gmap bytes bytes).

Lemma put_metadb_id t : put_ic ((t_ic t).1, put_metadb (w_metadb (t_ic t).2) (t_ic t).2) t = t.
Proof. by destruct t as [[? []] ? ? ? ? ? ? ?]. Qed.

Lemma metadb_id {A} (p : prog S A) t a :
  p (w_metadb (t_ic t).2) = Ret a (w_metadb (t_ic t).2) -> metadb p t = Ret a t.
Proof. intros E. rewrite (in_metadb_Ret p t a _ E). by rewrite put_metadb_id. Qed.

(** A callback that takes every name and does not touch the file system, as
    FUSE's does. *)
Definition accepts (filler : bytes -> prog (tfs S) Z) : Prop :=
  forall n t, exists r, filler n t = Ret r t /\ 0 <= r.

(** The loop of [ReadDir] reports the names of a run [P] of entries of the
    directory and stops at the first entry [R] of another one. *)
Lemma ReadDir_loop_spec filler dirkey t P R it fuel names :
  accepts filler -> it_rest it (P ++ R) ->
  Forall (fun kv => length kv.1 = 16%nat /\ IsKeyInDir kv.1 dirkey = true /\ wf_inode kv.2) P ->
  (forall kv R', R = kv :: R' -> length kv.1 = 16%nat /\ IsKeyInDir kv.1 dirkey = false) ->
  (length P < fuel)%nat ->
  ReadDir_loop (fun _ p => p) fuel filler dirkey it names t = Ret (Some (0, names ++ dir_names P.*2)) t.
Proof.
  intros Hfill. revert P it names.
  induction fuel as [|fuel IH]; intros P it names Hit HP HR Hlen; [lia|].
  cbn [ReadDir_loop]. erewrite bind_Ret by by apply metadb_id, it_Valid_spec.
  destruct P as [|[k v] P].
  - cbn [app fmap list_fmap]. unfold dir_names. cbn. rewrite app_nil_r.
    destruct R as [|[k v] R]; [done|]. destruct (HR _ _ eq_refl) as [Hl Hd]. cbn [fst] in *.
    rewrite bool_decide_true by done. cbn [negb].
    erewrite bind_Ret by by eapply metadb_id, it_key_spec.
    rewrite decide_False by lia. by rewrite Hd.
  - apply Forall_cons_1 in HP as [(Hl & Hd & Hwf) HP]. cbn [fst snd app] in *.
    rewrite bool_decide_true by done. cbn [negb].
    erewrite bind_Ret by by eapply metadb_id, it_key_spec.
    rewrite decide_False by lia. rewrite Hd. cbn [negb]. rewrite decide_False by lia.
    erewrite bind_Ret by by eapply metadb_id, it_value_spec.
    erewrite bind_Ret by by apply name_at_Ret.
    cbn [fmap list_fmap snd]. rewrite dir_names_cons. destruct (dir_name v) as [|b n] eqn:En.
    + destruct (it_Next_spec (w_metadb (t_ic t).2) it k v (P ++ R) Hit) as (it' & Hnext & Hit').
      erewrite bind_Ret by by apply metadb_id. apply (IH P it' names); try done. simpl in Hlen. lia.
    + cbv zeta. destruct (Hfill (b :: n) t) as (r & Hrun & Hr).
      erewrite bind_Ret by exact Hrun. replace (r <? 0) with false by (symmetry; lia).
      destruct (it_Next_spec (w_metadb (t_ic t).2) it k v (P ++ R) Hit) as (it' & Hnext & Hit').
      erewrite bind_Ret by by apply metadb_id.
      rewrite (IH P it' (names ++ [b :: n])); try done; [by rewrite <- app_assoc|simpl in Hlen; lia].
Qed.

(** With nothing dirty the store holds the whole table. *)
Lemma store_is_table m T PO t k :
  IC m T PO (t_ic t) -> (forall o h, handles t !! o = Some h -> mode_ h = INODE_READ /\ in_table (t_ic t) h) ->
  key_ok k -> m !! ToSlice k = T !! k.
Proof.
  intros HI Hclean Hk. pose proof HI as [_ Hc HV].
  destruct (ccached (t_ic t).1 (ToSlice k)) as [id|] eqn:Hcc.
  - apply (ccached_Some _ _ _ _ Hc) in Hcc as [Ht [o Hl]].
    destruct (live_handle HV _ _ _ Hl) as (h & ch & Eh & <- & Hok & Hkey).
    destruct (Hclean o h Eh) as [Hm _]. pose proof Hok as [Hkh _ _ _ Hmo]. rewrite Hm in Hmo.
    assert (k = key_ h) as -> by by apply ToSlice_inj.
    destruct (Hmo Ht) as [-> ->]. done.
  - symmetry. apply (ic_store _ _ _ _ _ _ _ HV); [done|]. intros id o Ht Hl.
    assert (ccached (t_ic t).1 (ToSlice k) = Some id) by (apply (ccached_Some _ _ _ _ Hc); eauto). congruence.
Qed.

(** The entries a scan yields, as entries of the table. *)
Lemma scan_entries m T PO t ino P R :
  FS T PO t -> IC m T PO (t_ic t) -> store_ok m T ->
  (forall o h, handles t !! o = Some h -> mode_ h = INODE_READ) -> 0 <= ino < 2 ^ 64 ->
  NoDup P.*1 ->
  (forall k v, (k, v) ∈ P -> m !! k = Some v /\ take 8 k = take 8 (ToSlice (first_key ino))) ->
  (forall k v, m !! k = Some v -> take 8 k = take 8 (ToSlice (first_key ino)) ->
     bytes_leb (ToSlice (first_key ino)) k = true -> (k, v) ∈ P) ->
  (forall k v R', R = (k, v) :: R' -> take 8 k <> take 8 (ToSlice (first_key ino)) /\ m !! k = Some v) ->
  exists ks : list (tfs_meta_key_t * bytes), NoDup ks.*1 /\ ks.*2 = P.*2 /\
    (forall k v, (k, v) ∈ ks -> T !! k = Some v /\ inode_id k = ino) /\
    (forall k v, T !! k = Some v -> inode_id k = ino ->
       bytes_leb (ToSlice (first_key ino)) (ToSlice k) = true -> (k, v) ∈ ks) /\
    Forall (fun kv => length kv.1 = 16%nat /\ IsKeyInDir kv.1 (first_key ino) = true /\ wf_inode kv.2) P /\
    (forall kv R', R = kv :: R' -> length kv.1 = 16%nat /\ IsKeyInDir kv.1 (first_key ino) = false).
Proof.
  intros HFS HI Hso Hread Hino Hnd Hin Hall Hstop.
  assert (key_ok (first_key ino)) as Hfk.
  { unfold first_key, BuildMetaKey, key_ok. cbn. destruct (ino =? ROOT_INODE_ID); lia. }
  assert (forall k, key_ok k -> m !! ToSlice k = T !! k) as Hmt.
  { intros k. eapply (store_is_table m T PO t); [done|]. intros o h Eh. split; [by eapply Hread|].
    apply (fs_tabled _ _ _ HFS o h Eh). }
  assert (forall b v, (b, v) ∈ P -> exists k, key_ok k /\ b = ToSlice k /\ T !! k = Some v /\ inode_id k = ino) as HP.
  { intros b v [Hm Hp]%Hin. destruct (so_keys _ _ Hso b v Hm) as (k & Hk & ->).
    exists k. split; [done|]. split; [done|]. rewrite <- Hmt by done. split; [done|].
    apply same_dir_prefix in Hp; done. }
  assert (forall b v, (b, v) ∈ P -> ToSlice (key_of b) = b) as Hback.
  { intros b v Hb. destruct (HP b v Hb) as (k & Hk & -> & _). by rewrite key_of_ToSlice. }
  exists ((fun kv => (key_of kv.1, kv.2)) <$> P). split_and!.
  - rewrite <- list_fmap_compose. cbn. change (fst ∘ _) with (key_of ∘ @fst bytes bytes).
    rewrite list_fmap_compose. apply (NoDup_fmap_1 ToSlice). rewrite <- list_fmap_compose.
    rewrite (list_fmap_ext _ id); [by rewrite list_fmap_id|].
    intros i b Hb. apply list_lookup_fmap_Some in Hb as ([b' v] & -> & Hb). cbn.
    apply (Hback b' v). by eapply list_elem_of_lookup_2.
  - by rewrite <- list_fmap_compose.
  - intros k v Hkv. apply list_elem_of_fmap in Hkv as ([b v'] & [= -> ->] & Hb).
    destruct (HP b v' Hb) as (k & Hk & -> & HT & Hi). by rewrite key_of_ToSlice.
  - intros k v HT Hi Hle. apply list_elem_of_fmap.
    pose proof (ic_table _ _ _ _ _ _ _ (ic_view _ _ _ _ HI) k v HT) as [Hk _].
    exists (ToSlice k, v). cbn. rewrite key_of_ToSlice by done. split; [done|].
    apply Hall; [by rewrite Hmt| |done]. by apply same_dir_prefix.
  - apply list.Forall_forall. intros [b v] Hb. destruct (HP b v Hb) as (k & Hk & -> & HT & Hi). cbn [fst snd].
    split; [apply length_ToSlice|]. split; [|by eapply FS_table_wf].
    rewrite IsKeyInDir_ToSlice by done. apply Z.eqb_eq. by rewrite Hi.
  - intros [b v] R' HR. destruct (Hstop b v R' HR) as [Hne Hm]. cbn [fst].
    destruct (so_keys _ _ Hso b v Hm) as (k & Hk & ->). split; [apply length_ToSlice|].
    rewrite IsKeyInDir_ToSlice by done. apply Z.eqb_neq. intros Hi. apply Hne. by apply same_dir_prefix.
Qed.

(** [ReadDir] on an open directory when no inode is dirty: every entry at most
    once, and all of those that are not below the first key. *)
Lemma ReadDir_refines T PO t o h filler :
  FS T PO t -> handles t !! o = Some h -> (forall o h, handles t !! o = Some h -> mode_ h = INODE_READ) ->
  accepts filler ->
  let ino := st_ino (GetAttribute (value_ h)) in
  exists ks : list (tfs_meta_key_t * bytes), NoDup ks.*1 /\
    (forall k v, (k, v) ∈ ks -> T !! k = Some v /\ inode_id k = ino) /\
    (forall k v, T !! k = Some v -> inode_id k = ino ->
       bytes_leb (ToSlice (first_key ino)) (ToSlice k) = true -> (k, v) ∈ ks) /\
    (forall fuel, (length ks < fuel)%nat -> exists t',
      ReadDir (fun _ p => p) fuel filler o t =
        Ret (Some (0, [str "."; str ".."] ++ dir_names ks.*2)) t' /\ FS T PO t' /\ handles t' = handles t).
Proof.
  intros HFS Eh Hread Hfill ino. destruct (FS_handle_value _ _ _ _ _ HFS Eh) as (HT & _).
  pose proof (FS_table_wf _ _ _ _ _ HFS HT) as Hwf. pose proof (wf_inode_ino _ Hwf) as Hino. fold ino in Hino.
  pose proof HFS as [(m & HI & Hso) Hdc Hset Htab Hd]. pose proof HI as [Hrep _ _].
  destruct (kv_iter_spec _ _ (ToSlice (first_key ino)) Hrep (kv_key_ToSlice _))
    as (s1 & it0 & s2 & it1 & L & Hnew & Hseek & Hrep1 & Hrep2 & Hit & P & R & -> & Hnd & Hin & Hall & Hstop).
  destruct (scan_entries m T PO t ino P R HFS HI Hso Hread Hino Hnd Hin Hall Hstop)
    as (ks & Hks & Hsnd & Hsub & Hsup & HP & HR).
  exists ks. split; [done|]. split; [done|]. split; [done|]. intros fuel Hfuel.
  assert (length P = length ks) as Hlen by (rewrite <- (length_fmap snd P), <- Hsnd; apply length_fmap).
  set (t0 := put_ic ((t_ic t).1, put_metadb s1 (t_ic t).2) t).
  set (t1 := put_ic ((t_ic t).1, put_metadb s2 (t_ic t).2) t).
  destruct (Hfill (str ".") t0) as (r1 & Hf1 & Hr1). destruct (Hfill (str "..") t0) as (r2 & Hf2 & Hr2).
  exists t1. split.
  - unfold ReadDir. erewrite bind_Ret by by apply handle_at_Ret.
    erewrite bind_Ret by by apply attribute_at_Ret. cbv zeta. fold ino. fold (first_key ino).
    erewrite bind_Ret by (apply in_metadb_Ret; exact Hnew). fold t0.
    erewrite bind_Ret by exact Hf1. replace (r1 <? 0) with false by (symmetry; lia).
    erewrite bind_Ret by exact Hf2. replace (r2 <? 0) with false by (symmetry; lia).
    erewrite bind_Ret by (apply in_metadb_Ret; exact Hseek).
    assert (put_ic ((t_ic t0).1, put_metadb s2 (t_ic t0).2) t0 = t1) as ->
      by (by destruct t as [[? []] ? ? ? ? ? ? ?]).
    rewrite (ReadDir_loop_spec filler (first_key ino) t1 P R it1); try done; [by rewrite Hsnd|lia].
  - split; [|done]. split; unfold handles; cbn; try done. exists m. split; [|done].
    apply IC_put_metadb; [done|]. by destruct (t_ic t).
Qed.

(** Every entry of a directory other than the root is listed. *)
Lemma ReadDir_complete T PO t o h filler :
  FS T PO t -> handles t !! o = Some h -> (forall o h, handles t !! o = Some h -> mode_ h = INODE_READ) ->
  accepts filler -> let ino := st_ino (GetAttribute (value_ h)) in ino <> ROOT_INODE_ID ->
  exists ks : list (tfs_meta_key_t * bytes), NoDup ks.*1 /\
    (forall k v, (k, v) ∈ ks <-> T !! k = Some v /\ inode_id k = ino) /\
    (forall fuel, (length ks < fuel)%nat -> exists t',
      ReadDir (fun _ p => p) fuel filler o t =
        Ret (Some (0, [str "."; str ".."] ++ dir_names ks.*2)) t' /\ FS T PO t' /\ handles t' = handles t).
Proof.
  intros HFS Eh Hread Hfill ino Hne.
  destruct (ReadDir_refines T PO t o h filler HFS Eh Hread Hfill) as (ks & H1 & H2 & H3 & H4).
  exists ks. split; [done|]. split; [|done]. intros k v. split; [apply H2|]. intros [HT Hi].
  apply H3; [done|done|]. apply first_key_least; [|done|done].
  destruct (fs_ic _ _ _ HFS) as (m & HI & _). by apply (ic_table _ _ _ _ _ _ _ (ic_view _ _ _ _ HI) _ _ HT).
Qed.

Lemma OpenDir_refines T PO t path :
  FS T PO t -> path <> [] -> rooms T PO t path ->
  match lookup_path T path with
  | Some v => exists t' o h, OpenDir path t = Ret (0, Some o) t' /\ FS T (hold o PO) t' /\
      handles t' !! o = Some h /\ value_ h = v /\ (PO o = 0 -> mode_ h = INODE_READ)
  | None => exists t' e, OpenDir path t = Ret (e, None) t' /\ FS T PO t'
  end.
Proof.
  intros HFS Hp Hroom. destruct (PathLookup_spec T PO t path HFS Hp) as (t1 & Hrun & HF1 & HS1 & He).
  unfold lookup_path, OpenDir. destruct (resolve T path) as [k|] eqn:Er; cbn [mbind option_bind].
  - pose proof (resolve_key_ok _ _ _ _ _ HFS Er) as Hk.
    pose proof (fs_get T PO t1 k INODE_READ HF1 Hk (room_same _ _ _ _ HS1 (Hroom k Er))) as Hget.
    destruct (T !! k) as [v|] eqn:ET.
    + destruct Hget as (o & h & ic' & Hg & HF2 & Eh & Hkh & Hvh & Htab & _ & Hread & _); [done|].
      exists (put_ic ic' t1), o, h. split; [|split_and!; auto].
      erewrite bind_Ret by exact Hrun. cbv iota beta. rewrite bind_ReadLock.
      by erewrite bind_Ret by (apply in_ic_Ret; exact Hg).
    + destruct Hget as (ic' & Hg & HF2 & _); [done|].
      exists (put_ic ic' t1), (- os_errno (t_st t1).2). split; [|done].
      erewrite bind_Ret by exact Hrun. cbv iota beta. rewrite bind_ReadLock.
      by erewrite bind_Ret by (apply in_ic_Ret; exact Hg).
  - exists t1, (- ENOENT). split; [|done]. erewrite bind_Ret by exact Hrun. cbv iota beta.
    by erewrite bind_Ret by (apply FSError_Ret; auto).
Qed.

Lemma ReleaseDir_refines T PO t o h :
  FS T PO t -> handles t !! o = Some h -> 0 < PO o -> (PO o = 1 -> mode_ h = INODE_READ) ->
  exists t', ReleaseDir o t = Ret 0 t' /\ FS T (unhold o PO) t' /\ handles t' = handles t.
Proof.
  intros HFS Eh Hpo Hm. destruct (fs_release T PO t o h HFS Eh Hpo Hm) as (ic' & Hr & HF & Hh).
  exists (put_ic ic' t). split; [|done]. unfold ReleaseDir. erewrite bind_Ret by by apply handle_at_Ret.
  by erewrite bind_Ret by (apply in_ic_Ret; exact Hr).
Qed.

(** ** Symbolic links *)

(** The header of a new link. *)
Lemma link_header env T PO t inum name target :
  FS T PO t -> ready env t -> 0 <= inum < 2 ^ 64 -> bytes_ok name -> bytes_ok target ->
  Z.of_nat (length name) < 2 ^ 31 -> Z.of_nat (length target) < 2 ^ 31 - 2 ^ 10 ->
  let n := (TFS_INODE_HEADER_SIZE + length name + 1 + length target)%nat in
  forall i who now, (who = None \/ who = Some (t_context t)) -> - 2 ^ 63 <= now < 2 ^ 63 ->
  let v := SymlinkValue (env_memory env i n) inum who now name target in
  exists h, v = mk_value h name target /\ value_wf h name /\ str_ok v /\ st_ino (fstat h) = inum /\
    st_mode (fstat h) = S_IFLNK /\ has_blob h = 0 /\ fresh_stat (fstat h) inum S_IFLNK 0 who.
Proof.
  intros HFS [Hmem _ [Hu Hg]] Hi Hb Hbt Hl Hlt n i who now Hwho Hnow v.
  destruct (Hmem i n) as [Hlen Hbm].
  set (h := init_header (env_memory env i n) inum S_IFLNK 0 who now name).
  assert (header_ok h) as Hh.
  { apply init_header_ok; [lia|done|done|done|done| |done].
    intros u g Hw. destruct Hwho as [->| ->]; [done|]. destruct (t_context t) as [u' g'].
    injection Hw as <- <-. cbn in *. lia. }
  assert (value_wf h name) as Hwf by (split; [done|]; unfold h, init_header; cbn; apply u32_small; lia).
  exists h. unfold v. rewrite SymlinkValue_mk. fold h. split; [done|]. split; [done|]. split.
  - split; [|rewrite (length_mk h name Hwf); lia].
    unfold mk_value. apply Forall_app. split; [apply header_bytes_ok, Hh|].
    apply Forall_app. split; [done|]. constructor; [unfold byte_ok; lia|done].
  - split; [unfold h, init_header, InitStat; cbn; by destruct who as [[]|]|].
    split; [unfold h, init_header, InitStat; cbn; by destruct who as [[]|]|].
    split; [done|]. by eexists _, now.
Qed.

Lemma Symlink_refines env T PO t target path :
  FS T PO t -> ready env t -> path_ok path -> bytes_ok target -> Z.of_nat (length target) < 2 ^ 31 - 2 ^ 10 ->
  max_inode_num (t_st t).1 + 1 < 2 ^ 31 ->
  match resolve_name T path with
  | Some (k, name) => T !! k = None ->
      exists t' h, Symlink env target path t = Ret 0 t' /\
        FS (<[k := mk_value h name target]> T) PO t' /\ value_wf h name /\
        st_ino (fstat h) = max_inode_num (t_st t).1 + 1 /\ st_mode (fstat h) = S_IFLNK /\ has_blob h = 0 /\
        max_inode_num (t_st t').1 = max_inode_num (t_st t).1 + 1 /\
        fresh_stat (fstat h) (max_inode_num (t_st t).1 + 1) S_IFLNK 0 (caller t)
  | None => exists t', Symlink env target path t = Ret (- ENOENT) t' /\ FS T PO t' /\ (t_st t').1 = (t_st t).1
  end.
Proof.
  intros HFS Hrd Hp Hbt Hlt Hmax.
  destruct (PathLookup_name_spec T PO t path HFS) as (t1 & Hrun & HF1 & HS1 & He); [apply Hp|].
  unfold Symlink. destruct (resolve_name T path) as [[k name]|] eqn:Er.
  2: { exists t1. split; [|split; [done|apply HS1]]. erewrite bind_Ret by exact Hrun. apply FSError_Ret, He.
       by rewrite resolve_name_key, Er. }
  intros HT. destruct (resolve_name_ok _ _ _ _ _ _ HFS Hp Er) as (Hk & Hbn & Hln).
  set (n := (TFS_INODE_HEADER_SIZE + length name + 1 + length target)%nat).
  set (t2 := mkTfs (t_ic t1) (t_dc t1) (t_st t1) (t_fhs t1) (t_next_fh t1) (t_allocs t1 + 1)
       (flag_fuse_enabled t1) (t_context t1)).
  assert (FS T PO t2) as HF2 by (eapply FS_os; [exact HF1|done|done|apply HF1|done]).
  destruct (fs_new_inode T PO t2 HF2) as (t3 & Hnew & HF3 & Hst3 & Hsf3 & Hctx3 & Hfh3 & Hfl3 & Hal3 & Hic3);
    [cbn; by rewrite (sd_fss _ _ HS1)|].
  cbn [t2 t_st] in Hnew, Hst3. rewrite (sd_fss _ _ HS1) in Hnew, Hst3.
  pose proof (do_max _ _ (proj1 (fs_dirs _ _ _ HFS))) as Hrange.
  set (who := if flag_fuse_enabled t3 then Some (t_context t3) else None).
  set (now := default 0 (head (os_clock (t_st t3).2))).
  set (t4 := put_st ((t_st t3).1, mkOs (os_names (t_st t3).2) (os_data (t_st t3).2) (os_dirs (t_st t3).2)
    (os_fds (t_st t3).2) (os_next (t_st t3).2) (os_errno (t_st t3).2) (tail (os_clock (t_st t3).2))) t3).
  assert (FS T PO t4) as HF4.
  { eapply FS_os; [exact HF3|done|done| |done]. eapply dirs_ok_eq; [|apply HF3]. done. }
  assert (ready env t3) as Hrd3.
  { destruct Hrd as [R1 R2 R3 R4]. destruct (sd_os _ _ HS1) as (_ & _ & _ & _ & Hc1 & _).
    destruct Hsf3 as (_ & _ & _ & _ & Hc3 & _). cbn in Hc3, Hctx3.
    split; [done|by rewrite Hc3, Hc1|by rewrite Hctx3, (sd_context _ _ HS1)|done]. }
  destruct (link_header env T PO t3 (max_inode_num (t_st t).1 + 1) name target HF3 Hrd3 ltac:(lia) Hbn Hbt Hln Hlt
    (t_allocs t1) who now) as (h & Hv & Hwf & Hstr & Hino & Hmode & Hblob & Hfr).
  { unfold who. destruct (flag_fuse_enabled t3); auto. }
  { unfold now. pose proof (rd_clock _ _ Hrd3) as Hc. destruct Hc; simpl; lia. }
  rewrite Hv in Hstr.
  destruct (fs_put_new T PO t4 k (mk_value h name target) HF4 Hk HT) as (t5 & Hput & HF5 & Hst5 & _).
  { by exists h, name, target. } { done. }
  { cbn. rewrite Hst3. cbn. apply inos_ok_new; [lia| |apply (fs_dirs _ _ _ HFS)].
    by rewrite (GetAttribute_mk h name Hwf). }
  exists t5, h. split; [|split_and!; try done].
  2: { rewrite Hst5. cbn. by rewrite Hst3. }
  2: { unfold caller, who in *. rewrite Hfl3, Hctx3 in Hfr. cbn in Hfr.
       by rewrite (sd_fuse _ _ HS1), (sd_context _ _ HS1) in Hfr. }
  erewrite bind_Ret by exact Hrun. cbv iota beta. fold n. erewrite bind_Ret by reflexivity. fold t2.
  erewrite bind_Ret by exact Hnew. erewrite bind_Ret by reflexivity. fold who.
  erewrite bind_Ret by (apply in_os_Ret; reflexivity). fold now. fold t4. rewrite bind_WriteLock.
  erewrite bind_Ret. 2: { unfold n. rewrite Hv. exact Hput. }
  rewrite bind_Unlock. reflexivity.
Qed.

(** [Readlink] gives the target back, cut to the buffer of the caller. *)
Lemma Readlink_refines T PO t path k h name target size :
  FS T PO t -> path <> [] -> resolve T path = Some k -> T !! k = Some (mk_value h name target) -> value_wf h name ->
  (forall o h, handles t !! o = Some h -> mode_ h = INODE_READ) ->
  Forall (fun b => b <> 0) target -> Z.of_nat (length target) < 2 ^ 62 -> 0 < size < 2 ^ 62 ->
  exists t', Readlink path size t = Ret (0, Some (take (Z.to_nat (size - 1)) target)) t' /\ FS T PO t'.
Proof.
  intros HFS Hp Er HT Hwf Hread Hnz Hlen Hsz.
  destruct (PathLookup_spec T PO t path HFS Hp) as (t1 & Hrun & HF1 & HS1 & _). rewrite Er in Hrun.
  pose proof (resolve_key_ok _ _ _ _ _ HFS Er) as Hk.
  pose proof HF1 as [(m & HI & Hso) Hdc Hset Htab Hd]. pose proof HI as [Hrep _ _].
  assert (m !! ToSlice k = Some (mk_value h name target)) as Hm.
  { rewrite <- HT. eapply (store_is_table m T PO t1); [done| |done]. intros o h' Eh.
    split; [|by apply (Htab o h')]. rewrite (sd_handles _ _ HS1) in Eh. by eapply Hread. }
  destruct (kv_Get_hit _ _ _ _ Hrep (kv_key_ToSlice k) Hm) as (s' & Hget & Hrep').
  eexists. split.
  - unfold Readlink. erewrite bind_Ret by exact Hrun. cbv iota beta. rewrite bind_ReadLock.
    erewrite bind_Ret by (apply in_metadb_Ret; exact Hget). cbv iota beta. change (1 >? 0) with true. cbv iota.
    erewrite bind_Ret by (apply header_at_Ret; by exists h, name, target). cbv zeta. rewrite bind_Unlock.
    rewrite u64_small, (GetInlineData_mk h name Hwf) by lia.
    assert (slice (Z.to_nat 0) (Z.to_nat (size - 1)) target = take (Z.to_nat (size - 1)) target) as -> by done.
    rewrite decide_False by (rewrite length_take; lia). rewrite c_str_all; [reflexivity|].
    by apply Forall_take.
  - split; unfold handles; cbn; try done. exists m. split; [|done].
    apply IC_put_metadb; [done|]. by destruct (t_ic t1).
Qed.

(** A path that names nothing. *)
Definition missing T (path : bytes) : Prop :=
  match resolve T path with Some k => T !! k = None | None => True end.

Lemma FS_metadb T PO t m s' :
  FS T PO t -> IC m T PO (t_ic t) -> store_ok m T -> kv_rep s' m ->
  FS T PO (put_ic ((t_ic t).1, put_metadb s' (t_ic t).2) t).
Proof.
  intros [_ Hdc Hset Htab Hd] HI Hso Hrep'. split; unfold handles; cbn; try done. exists m. split; [|done].
  apply IC_put_metadb; [done|]. by destruct (t_ic t).
Qed.

Lemma Readlink_missing T PO t path size :
  FS T PO t -> path <> [] -> missing T path ->
  exists t', Readlink path size t = Ret (- ENOENT, None) t' /\ FS T PO t'.
Proof.
  intros HFS Hp Hmiss. destruct (PathLookup_spec T PO t path HFS Hp) as (t1 & Hrun & HF1 & HS1 & He).
  unfold Readlink. erewrite bind_Ret by exact Hrun. unfold missing in Hmiss.
  destruct (resolve T path) as [k|] eqn:Er.
  2: { exists t1. split; [|done]. by erewrite bind_Ret by (apply FSError_Ret; auto). }
  pose proof (resolve_key_ok _ _ _ _ _ HFS Er) as Hk.
  pose proof HF1 as [(m & HI & Hso) _ _ _ Hd]. pose proof HI as [Hrep _ _].
  assert (m !! ToSlice k = None) as Hm.
  { pose proof (so_ino _ _ Hso k Hk) as Hi. rewrite Hmiss in Hi. by destruct (m !! ToSlice k). }
  destruct (kv_Get_miss _ _ _ Hrep (kv_key_ToSlice k) Hm) as (r & junk & s' & Hget & Hr & Hrep').
  pose proof (FS_metadb _ _ _ _ _ HF1 HI Hso Hrep') as HF2. set (t2 := put_ic _ t1) in *.
  exists (put_st ((t_st t2).1, with_errno ENOENT (t_st t2).2) t2). split.
  - cbv iota beta. rewrite bind_ReadLock. erewrite bind_Ret by (apply in_metadb_Ret; exact Hget). cbv iota beta.
    replace (r >? 0) with false by (symmetry; lia). cbv iota.
    erewrite bind_Ret by (apply in_os_Ret; reflexivity). rewrite bind_Unlock.
    by erewrite bind_Ret by (apply FSError_Ret; reflexivity).
  - eapply FS_os; [exact HF2|done|done| |done]. cbn. eapply dirs_ok_eq; [|apply Hd]. done.
Qed.

Lemma Open_missing T PO t path flags :
  FS T PO t -> path <> [] -> rooms T PO t path -> missing T path ->
  exists t', Open path flags t = Ret (- ENOENT, None) t' /\ FS T PO t' /\
    forall q, file_at (t_st t').2 q = file_at (t_st t).2 q.
Proof.
  intros HFS Hp Hroom Hmiss. destruct (PathLookup_spec T PO t path HFS Hp) as (t1 & Hrun & HF1 & HS1 & He).
  assert (forall q, file_at (t_st t1).2 q = file_at (t_st t).2 q) as Hq by (intros q; apply same_files_at, HS1).
  unfold Open. erewrite bind_Ret by exact Hrun. unfold missing in Hmiss.
  destruct (resolve T path) as [k|] eqn:Er.
  2: { exists t1. split; [|done]. by erewrite bind_Ret by (apply FSError_Ret; auto). }
  pose proof (resolve_key_ok _ _ _ _ _ HFS Er) as Hk. cbv iota. rewrite bind_WriteLock.
  cbv zeta. match goal with |- context [InodeCache_Get _ ?x] => set (mode := x) end.
  assert (mode <> INODE_DELETE) as Hm by (subst mode; by destruct (_ || _)%bool).
  pose proof (fs_get T PO t1 k mode HF1 Hk (room_same _ _ _ _ HS1 (Hroom k Er)) Hm) as Hget. rewrite Hmiss in Hget.
  destruct Hget as (ic' & Hg & HF2 & _). exists (put_ic ic' t1). split; [|done].
  erewrite bind_Ret by (apply in_ic_Ret; exact Hg). reflexivity.
Qed.
End dirs.
