(* ===== verification/FsFrame.v ===== *)
(** What the operations of the file system leave alone: the configuration, the
    caller's identity, the sanity of the operating system and of the clock, and,
    for everything but [Unlink] and writing, every file of the data directory.

    [Keeps R p] says that the program [p] only makes [R]-steps. The instances
    follow the structure of programs, so that the property of an operation is
    found by [keeps] from its definition. *)

From Stdlib Require Import RelationClasses.
From S2P Require Import Prelude Hashes Coding WriteBatch Inode DCache Cache Kv ICache Posix Properties State TableFS FsInv FsOps FsFile FsDir.

Class Keeps {S} (R : S -> S -> Prop) {A} (p : prog S A) : Prop :=
  keeps : forall s a s', p s = Ret a s' -> R s s'.
#[global] Hint Mode Keeps ! ! ! ! : typeclass_instances.

Section structure.
Context {S : Type} (R : S -> S -> Prop) `{!PreOrder R}.

#[global] Instance keeps_ret {A} (a : A) : Keeps R (ret a).
Proof. intros s x s' [= -> ->]. reflexivity. Qed.

#[global] Instance keeps_gets {A} (f : S -> A) : Keeps R (gets f).
Proof. intros s x s' [= <- ->]. reflexivity. Qed.

#[global] Instance keeps_get_state : Keeps R get_state.
Proof. intros s x s' [= <- ->]. reflexivity. Qed.

#[global] Instance keeps_undefined {A} w : Keeps R (undefined w : prog S A).
Proof. intros s x s' [=]. Qed.

#[global] Instance keeps_exit {A} c : Keeps R (exit c : prog S A).
Proof. intros s x s' [=]. Qed.

#[global] Instance keeps_deref {A} w (o : option A) : Keeps R (deref w o).
Proof. destruct o; cbn; apply _. Qed.

#[global] Instance keeps_bind {A B} (m : prog S A) (k : A -> prog S B) :
  Keeps R m -> (forall a, Keeps R (k a)) -> Keeps R (bind m k).
Proof.
  intros Hm Hk s b s'' (a & s' & H1 & H2)%bind_inv. transitivity s'; [by eapply Hm|by eapply Hk].
Qed.

Lemma keeps_modify (f : S -> S) : (forall s, R s (f s)) -> Keeps R (modify f).
Proof. intros H s x s' [= <- <-]. apply H. Qed.

Lemma keeps_zoom {T A} (get : S -> T) (put : T -> S -> S) (RT : T -> T -> Prop) (m : prog T A) :
  Keeps RT m -> (forall s x, RT (get s) x -> R s (put x s)) -> Keeps R (zoom get put m).
Proof.
  intros Hm Hp s a s' H. unfold zoom in H. destruct (m (get s)) eqn:E; [|done|done].
  injection H as <- <-. eapply Hp, Hm, E.
Qed.
End structure.

(** Follow the structure of a program. *)
Ltac keeps_step :=
  match goal with
  | |- forall _, _ => intro
  | |- Keeps _ (let _ := _ in _) => cbv zeta
  | |- Keeps _ (match ?x with _ => _ end) => destruct x
  | |- Keeps _ (bind _ _) => apply keeps_bind; [typeclasses eauto| |]
  | |- Keeps _ _ => solve [typeclasses eauto]
  end.
Ltac keeps_tac := repeat keeps_step.

(** ** The operating system *)

Definition clock_good (o : os) : Prop := Forall (fun z => - 2 ^ 63 <= z < 2 ^ 63) (os_clock o).

(** Steps after which the names, vnodes, descriptors and the clock make sense. *)
Definition os_sane (o o' : os) : Prop := (os_wf o -> os_wf o') /\ (clock_good o -> clock_good o').

(** Steps no file notices. *)
Definition os_calm (o o' : os) : Prop :=
  os_sane o o' /\ forall q, file_at o' q = file_at o q.

#[global] Instance os_sane_preorder : PreOrder os_sane.
Proof. split; [by intros o|]. intros o1 o2 o3 [A B] [C D]. split; auto. Qed.

#[global] Instance os_calm_preorder : PreOrder os_calm.
Proof.
  split; [by intros o|]. intros o1 o2 o3 [A B] [C D]. split; [by etransitivity|]. intros q. by rewrite D.
Qed.

Lemma os_calm_errno e o : os_calm o (with_errno e o).
Proof. split; [|done]. split; [by intros []|done]. Qed.

Lemma os_sane_data v d o : os_sane o (with_data (<[v := d]> (os_data o)) o).
Proof. split; [by intros []|done]. Qed.

#[global] Instance keeps_fail_calm {A} e (r : A) : Keeps os_calm (fail e r).
Proof. apply keeps_bind; [apply _|apply keeps_modify; intros; apply os_calm_errno|apply _]. Qed.

#[global] Instance calm_sane {A} (p : prog os A) : Keeps os_calm p -> Keeps os_sane p.
Proof. intros H s a s' E. by apply (H s a s' E). Qed.

#[global] Instance os_time_calm : Keeps os_calm os_time.
Proof.
  intros s a s' [= _ <-]. split; [|done]. split; [by intros []|]. unfold clock_good. cbn. by intros [].
Qed.

#[global] Instance os_mkdir_calm path : Keeps os_calm (os_mkdir path).
Proof.
  unfold os_mkdir. keeps_tac. apply keeps_modify. intros o. split; [|done]. split; [by intros []|done].
Qed.

#[global] Instance os_pread_calm fd size off : Keeps os_calm (os_pread fd size off).
Proof. unfold os_pread. keeps_tac. Qed.

#[global] Instance os_fsync_calm fd : Keeps os_calm (os_fsync fd).
Proof. unfold os_fsync. keeps_tac. Qed.

#[global] Instance os_close_calm fd : Keeps os_calm (os_close fd).
Proof.
  unfold os_close. keeps_tac. apply keeps_modify. intros o. split; [|done]. split; [|done].
  intros [W1 W2 W3]. split; cbn; try done. intros x v fl [_ E]%lookup_delete_Some. by eapply W3.
Qed.

#[global] Instance os_pwrite_sane fd buf off : Keeps os_sane (os_pwrite fd buf off).
Proof. unfold os_pwrite. keeps_tac. apply keeps_modify. intros o. apply os_sane_data. Qed.

#[global] Instance os_truncate_sane path n : Keeps os_sane (os_truncate path n).
Proof. unfold os_truncate. keeps_tac. apply keeps_modify. intros o. apply os_sane_data. Qed.

#[global] Instance os_ftruncate_sane fd n : Keeps os_sane (os_ftruncate fd n).
Proof. unfold os_ftruncate. keeps_tac. apply keeps_modify. intros o. apply os_sane_data. Qed.

#[global] Instance os_unlink_sane path : Keeps os_sane (os_unlink path).
Proof.
  unfold os_unlink. keeps_tac. apply keeps_modify. intros o. split; [|done]. intros [W1 W2 W3].
  split; cbn; [|intros q v [_ E]%lookup_delete_Some; eauto|done].
  intros q q' v [_ E]%lookup_delete_Some [_ E']%lookup_delete_Some. by eapply W1.
Qed.

Lemma os_wf_create path fd flags o :
  os_wf o -> os_wf (mkOs (<[path := os_next o]> (os_names o)) (<[os_next o := []]> (os_data o)) (os_dirs o)
    (<[fd := (os_next o, flags)]> (os_fds o)) (os_next o + 1) (os_errno o) (os_clock o)).
Proof.
  intros [W1 W2 W3]. split; cbn.
  - intros p q v [[<- <-]|[Hp Ep]]%lookup_insert_Some [[<- Ev]|[Hq Eq]]%lookup_insert_Some; try done.
    + by apply W2 in Eq; lia.
    + subst v. by apply W2 in Ep; lia.
    + by eapply W1.
  - intros p v [[_ <-]|[_ Ep%W2]]%lookup_insert_Some; lia.
  - intros x v fl [[_ [= <- _]]|[_ E%W3]]%lookup_insert_Some; lia.
Qed.

#[global] Instance os_open_sane path flags : Keeps os_sane (os_open path flags).
Proof.
  intros s a s' H. unfold os_open in H. unfold bind at 1, get_state at 1 in H.
  destruct (os_names s !! path) as [v|] eqn:E.
  - cbv zeta in H. apply bind_inv in H as (x & s1 & H1 & H).
    transitivity s1.
    { destruct (_ && _)%bool; injection H1 as <- <-; [apply os_sane_data|reflexivity]. }
    apply bind_inv in H as (y & s2 & [= <- <-] & [= <- <-]).
    assert (os_names s1 = os_names s /\ os_next s1 = os_next s) as [En Ex]
      by (destruct (_ && _)%bool; by injection H1 as <- <-).
    split; [|done]. intros [W1 W2 W3]. split; cbn; try done.
    intros fd v' fl [[_ [= <- _]]|[_ E']]%lookup_insert_Some; [|by eapply W3]. apply (W2 path). by rewrite En.
  - destruct (negb _); [by eapply (keeps_fail_calm ENOENT (-1))|].
    case_decide; [by eapply (keeps_fail_calm ENOENT (-1))|]. cbv zeta in H.
    apply bind_inv in H as (y & s2 & [= <- <-] & [= <- <-]). split; [apply os_wf_create|done].
Qed.

(** ** The file system *)

Section fs.
Context {S It : Type} `{!KvWrapper S It}.
Implicit Types t : tfs S.

(** The configuration and the caller stay, the rest makes sense. *)
Record sane t t' : Prop := {
  sn_context : t_context t' = t_context t;
  sn_fuse : flag_fuse_enabled t' = flag_fuse_enabled t;
  sn_datadir : datadir_ (t_st t').1 = datadir_ (t_st t).1;
  sn_threshold : threshold_ (t_st t').1 = threshold_ (t_st t).1;
  sn_count : max_inode_num (t_st t').1 = max_inode_num (t_st t).1;
  sn_os : os_sane (t_st t).2 (t_st t').2
}.

(** ... and no data file changes. *)
Definition calm t t' : Prop := sane t t' /\ forall q, file_at (t_st t').2 q = file_at (t_st t).2 q.

#[global] Instance sane_preorder : PreOrder sane.
Proof.
  split; [by intros t; split|]. intros t1 t2 t3 [] []. split; try congruence. by etransitivity.
Qed.

#[global] Instance calm_preorder : PreOrder calm.
Proof.
  split; [by intros t; split|]. intros t1 t2 t3 [A B] [C D]. split; [by etransitivity|]. intros q. by rewrite D.
Qed.

(** A new inode takes a number, and may need a directory for its data file. *)
Record newer t t' : Prop := {
  nw_context : t_context t' = t_context t;
  nw_fuse : flag_fuse_enabled t' = flag_fuse_enabled t;
  nw_datadir : datadir_ (t_st t').1 = datadir_ (t_st t).1;
  nw_threshold : threshold_ (t_st t').1 = threshold_ (t_st t).1;
  nw_os : os_calm (t_st t).2 (t_st t').2
}.

#[global] Instance newer_preorder : PreOrder newer.
Proof. split; [by intros t; split|]. intros t1 t2 t3 [] []. split; try congruence. by etransitivity. Qed.

Lemma calm_newer t t' : calm t t' -> newer t t'.
Proof. by intros [[] ?]. Qed.

(** What only concerns the caches, the store and the table of file handles. *)
Record inside t t' : Prop := {
  in_context : t_context t' = t_context t;
  in_fuse : flag_fuse_enabled t' = flag_fuse_enabled t;
  in_st_eq : t_st t' = t_st t
}.

#[global] Instance inside_preorder : PreOrder inside.
Proof. split; [by intros t; split|]. intros t1 t2 t3 [] []. split; congruence. Qed.

Lemma inside_calm t t' : inside t t' -> calm t t'.
Proof. intros [E1 E2 E3]. split; [split|]; rewrite ?E3; try done. Qed.

Definition any {X : Type} (x y : X) : Prop := True.

#[global] Instance keeps_any {X A} (p : prog X A) : Keeps any p.
Proof. by intros s a s' _. Qed.

#[global] Instance keeps_in_ic {A} (p : prog _ A) : Keeps inside (in_ic p : prog (tfs S) A).
Proof. apply (keeps_zoom _ _ _ any); [apply _|by intros; split]. Qed.
#[global] Instance keeps_in_dc {A} (p : prog _ A) : Keeps inside (in_dc p : prog (tfs S) A).
Proof. apply (keeps_zoom _ _ _ any); [apply _|by intros; split]. Qed.
#[global] Instance keeps_inside_calm {A} (p : prog (tfs S) A) : Keeps inside p -> Keeps calm p.
Proof. intros H s a s' E. by apply inside_calm, (H s a s' E). Qed.
#[global] Instance keeps_calm_newer {A} (p : prog (tfs S) A) : Keeps calm p -> Keeps newer p.
Proof. intros H s a s' E. by apply calm_newer, (H s a s' E). Qed.
#[global] Instance keeps_calm_sane {A} (p : prog (tfs S) A) : Keeps calm p -> Keeps sane p.
Proof. intros H s a s' E. by apply (H s a s' E). Qed.

#[global] Instance keeps_os_calm {A} (p : prog os A) : Keeps os_calm p -> Keeps calm (in_os p : prog (tfs S) A).
Proof.
  intros H. apply (keeps_zoom _ _ _ (fun x y => x.1 = y.1 /\ os_calm x.2 y.2)).
  - apply (keeps_zoom _ _ _ os_calm); [done|]. by intros.
  - intros t [s o] [E [H1 H2]]. cbn in *. split; [split|]; cbn; rewrite <- ?E; try done.
Qed.
#[global] Instance keeps_os_sane {A} (p : prog os A) : Keeps os_sane p -> Keeps sane (in_os p : prog (tfs S) A).
Proof.
  intros H. apply (keeps_zoom _ _ _ (fun x y => x.1 = y.1 /\ os_sane x.2 y.2)).
  - apply (keeps_zoom _ _ _ os_sane); [done|]. by intros.
  - intros t [s o] [E H1]. cbn in *. split; cbn; rewrite <- ?E; try done.
Qed.

#[global] Instance keeps_set_errno e : Keeps calm (set_errno e : prog (tfs S) unit).
Proof. apply keeps_os_calm, keeps_modify. intros o. apply os_calm_errno. Qed.

#[global] Instance keeps_ReadLock key : Keeps inside (ReadLock key : prog (tfs S) unit).
Proof. unfold ReadLock. keeps_tac. Qed.
#[global] Instance keeps_WriteLock key : Keeps inside (WriteLock key : prog (tfs S) unit).
Proof. unfold WriteLock. keeps_tac. Qed.
#[global] Instance keeps_Unlock key : Keeps inside (Unlock key : prog (tfs S) unit).
Proof. unfold Unlock. keeps_tac. Qed.

#[global] Instance keeps_header_at v : Keeps inside (header_at v : prog (tfs S) _).
Proof. unfold header_at. keeps_tac. Qed.
#[global] Instance keeps_attribute_at v : Keeps inside (attribute_at v : prog (tfs S) _).
Proof. unfold attribute_at. keeps_tac. Qed.
#[global] Instance keeps_metadb {A} (p : prog S A) : Keeps inside (metadb p).
Proof. apply keeps_in_ic. Qed.
#[global] Instance keeps_handle_at o : Keeps inside (handle_at o : prog (tfs S) _).
Proof. apply keeps_in_ic. Qed.
#[global] Instance keeps_set_handle_value o v : Keeps inside (set_handle_value o v : prog (tfs S) _).
Proof. apply keeps_in_ic. Qed.
#[global] Instance keeps_set_handle_mode o m : Keeps inside (set_handle_mode o m : prog (tfs S) _).
Proof. apply keeps_in_ic. Qed.
#[global] Instance keeps_FSError : Keeps calm (FSError : prog (tfs S) Z).
Proof. unfold FSError, errno. keeps_tac. Qed.

(** *** Path lookup and what changes no data file *)

#[global] Instance keeps_lookup_component key : Keeps calm (lookup_component key).
Proof. unfold lookup_component. keeps_tac. Qed.

#[global] Instance keeps_ParentPathLookup_loop fuel key inode after :
  Keeps calm (ParentPathLookup_loop fuel key inode after).
Proof.
  revert key inode after. induction fuel as [|fuel IH]; intros key inode after; cbn [ParentPathLookup_loop]; keeps_tac.
Qed.

#[global] Instance keeps_ParentPathLookup path : Keeps calm (ParentPathLookup path).
Proof. unfold ParentPathLookup. keeps_tac. Qed.
#[global] Instance keeps_PathLookup path : Keeps calm (PathLookup path).
Proof. unfold PathLookup. keeps_tac. Qed.
#[global] Instance keeps_PathLookup_name path : Keeps calm (PathLookup_name path).
Proof. unfold PathLookup_name. keeps_tac. Qed.

#[global] Instance GetAttr_calm path : Keeps calm (GetAttr path).
Proof. unfold GetAttr. keeps_tac. Qed.
#[global] Instance update_attribute_calm path unlock f : Keeps calm (update_attribute path unlock f).
Proof. unfold update_attribute. keeps_tac. Qed.
#[global] Instance Readlink_calm path size : Keeps calm (Readlink path size).
Proof. unfold Readlink. keeps_tac. Qed.
#[global] Instance RemoveDir_calm path : Keeps calm (RemoveDir path).
Proof. unfold RemoveDir. keeps_tac. Qed.
#[global] Instance Rename_calm old_path new_path : Keeps calm (Rename old_path new_path).
Proof. unfold Rename. keeps_tac. Qed.
#[global] Instance OpenDir_calm path : Keeps calm (OpenDir path).
Proof. unfold OpenDir. keeps_tac. Qed.
#[global] Instance ReleaseDir_calm o : Keeps calm (ReleaseDir o).
Proof. unfold ReleaseDir. keeps_tac. Qed.

#[global] Instance keeps_ReadDir_loop fuel filler childkey it names :
  (forall name, Keeps calm (filler name)) -> Keeps calm (ReadDir_loop (fun _ p => p) fuel filler childkey it names).
Proof.
  intros Hf. revert it names. induction fuel as [|fuel IH]; intros it names; cbn [ReadDir_loop]; keeps_tac;
    unfold name_at; keeps_tac.
Qed.
#[global] Instance ReadDir_calm fuel filler o :
  (forall name, Keeps calm (filler name)) -> Keeps calm (ReadDir (fun _ p => p) fuel filler o).
Proof. intros Hf. unfold ReadDir. keeps_tac. Qed.

(** *** New inodes *)

#[global] Instance keeps_NewInode : Keeps newer (in_st NewInode : prog (tfs S) Z).
Proof.
  apply (keeps_zoom _ _ _ (fun x y => datadir_ y.1 = datadir_ x.1 /\ threshold_ y.1 = threshold_ x.1 /\ os_calm x.2 y.2)).
  - assert (PreOrder (fun x y : FileSystemState * os =>
      datadir_ y.1 = datadir_ x.1 /\ threshold_ y.1 = threshold_ x.1 /\ os_calm x.2 y.2)).
    { split; [by intros x; split_and!|]. intros x y z (A & B & C) (D & E & F). split_and!; [congruence..|by etransitivity]. }
    unfold NewInode, sprintf. keeps_tac; [by apply keeps_modify|].
    apply (keeps_zoom _ _ _ os_calm); [apply _|by intros].
  - by intros t [s o] (E1 & E2 & H1).
Qed.

Context (env : environment).

#[global] Instance keeps_new_memory n : Keeps inside (new_memory env n : prog (tfs S) bytes).
Proof. intros t a t' [= _ <-]. by split. Qed.
#[global] Instance keeps_NewInodeValue inum mode dev name : Keeps calm (NewInodeValue env inum mode dev name : prog (tfs S) bytes).
Proof. unfold NewInodeValue, owner. keeps_tac. Qed.
#[global] Instance make_inode_newer path mode dev : Keeps newer (make_inode env path mode dev).
Proof. unfold make_inode. keeps_tac. Qed.
#[global] Instance Symlink_newer target path : Keeps newer (Symlink env target path).
Proof. unfold Symlink, owner. keeps_tac. Qed.

(** *** Data files *)

#[global] Instance keeps_disk_path_of i : Keeps inside (disk_path_of i : prog (tfs S) bytes).
Proof. unfold disk_path_of, sprintf. keeps_tac. Qed.
#[global] Instance keeps_OpenDiskFile hd flags : Keeps sane (OpenDiskFile hd flags : prog (tfs S) Z).
Proof. unfold OpenDiskFile, errno. keeps_tac. Qed.
#[global] Instance keeps_file_handle fh : Keeps inside (file_handle fh : prog (tfs S) _).
Proof. unfold file_handle. keeps_tac. Qed.
#[global] Instance keeps_set_file_handle fh f : Keeps inside (set_file_handle fh f : prog (tfs S) _).
Proof. by apply keeps_modify. Qed.
#[global] Instance keeps_new_file_handle f : Keeps inside (new_file_handle f : prog (tfs S) _).
Proof. intros t a t' [= _ <-]. by split. Qed.
#[global] Instance keeps_disk_fd fh f hd : Keeps sane (disk_fd fh f hd : prog (tfs S) Z).
Proof. unfold disk_fd. keeps_tac. Qed.
#[global] Instance keeps_MigrateToDiskFile o fd flags : Keeps sane (MigrateToDiskFile o fd flags : prog (tfs S) _).
Proof. unfold MigrateToDiskFile, errno. keeps_tac. Qed.

#[global] Instance keeps_TruncateDiskFile i n : Keeps sane (TruncateDiskFile i n : prog (tfs S) Z).
Proof. unfold TruncateDiskFile. keeps_tac. Qed.
#[global] Instance keeps_MigrateDiskFileToBuffer i buffer : Keeps sane (MigrateDiskFileToBuffer i buffer : prog (tfs S) _).
Proof. unfold MigrateDiskFileToBuffer. keeps_tac. Qed.
#[global] Instance Truncate_sane path n : Keeps sane (Truncate env path n).
Proof. unfold Truncate, GetThreshold, stale_header. keeps_tac. Qed.
#[global] Instance Unlink_sane path : Keeps sane (Unlink path).
Proof. unfold Unlink, GetThreshold. keeps_tac. Qed.
#[global] Instance Open_sane path flags : Keeps sane (Open path flags).
Proof. unfold Open, errno. keeps_tac. Qed.
#[global] Instance Read_sane fh size offset : Keeps sane (Read fh size offset).
Proof. unfold Read. keeps_tac. Qed.
#[global] Instance Write_sane fh buf offset flags : Keeps sane (Write fh buf offset flags).
Proof. unfold Write, GetThreshold. keeps_tac. Qed.
#[global] Instance Release_sane fh : Keeps sane (Release fh).
Proof. unfold Release, errno. keeps_tac. by apply keeps_calm_sane, keeps_inside_calm, keeps_modify. Qed.
End fs.
