(* ===== verification/FsMount.v ===== *)
(** Mounting: [FileSystemState::Setup], the inode counter saved by [Destroy], and
    [TableFS::Init] establish the invariant of the file system. *)

From S2P Require Import Prelude Hashes Coding WriteBatch Inode DCache Cache Kv ICache Posix Properties State TableFS FsInv FsOps FsDir.

Set Default Proof Using "Type".

(** * The data directory *)

(** [access] returns 0 or -1 and changes nothing but [errno]. *)
Lemma os_access_spec d o :
  exists z e, os_access d o = Ret z (with_errno e o) /\ z <= 0.
Proof.
  unfold os_access, bind, get_state. case_decide.
  - exists 0, (os_errno o). split; [by destruct o|done].
  - by eexists _, _.
Qed.

Lemma os_write_file_spec path c o :
  os_wf o -> dirname path ∈ os_dirs o ->
  exists o', os_write_file path c o = Ret true o' /\ os_wf o' /\ only_file path o o' /\
    file_at o' path = Some c /\ os_fds o' = os_fds o.
Proof.
  intros Hwf Hdir. unfold os_write_file, bind at 1, get_state at 1. destruct (os_names o !! path) as [v|] eqn:Ev.
  - destruct (with_data_spec o path v c Hwf Ev) as (W1 & W2 & W3). by eexists.
  - rewrite decide_False by (intros H; by apply H). eexists. split; [reflexivity|].
    destruct Hwf as [W1 W2 W3]. split_and!; cbn.
    + split; cbn.
      * intros p q v. rewrite !lookup_insert_Some.
        intros [[<- <-]|[_ E1]] [[<- E2]|[_ E2]]; [done| | |by eapply W1].
        -- apply W2 in E2. lia.
        -- subst v. apply W2 in E1. lia.
      * intros p v. rewrite lookup_insert_Some. intros [[_ <-]|[_ E]]; [lia|]. apply W2 in E. lia.
      * intros fd v fl E. apply W3 in E. lia.
    + split; [|done|done]. intros q Hq. unfold file_at, data_of. cbn. rewrite lookup_insert_ne by done.
      destruct (os_names o !! q) as [w|] eqn:Ew; [|done]. cbn. f_equal. f_equal.
      apply W2 in Ew. by rewrite lookup_insert_ne by lia.
    + unfold file_at, data_of. cbn. rewrite lookup_insert_eq. cbn. by rewrite lookup_insert_eq.
    + done.
Qed.

Lemma on_os_Ret {A} (p : prog os A) s o a o' : p o = Ret a o' -> on_os p (s, o) = Ret a (s, o').
Proof. apply (zoom_Ret snd (fun o s => (s.1, o)) p (s, o)). Qed.

Section setup.
Context (realpath : bytes -> bytes) (prop : Properties).
Let datadir := realpath (getProperty (str "datadir") (str "/mnt/pmem/tablefs") prop).

Definition setup_state (n : Z) : FileSystemState :=
  mkFSS (realpath (getProperty1 (str "metadir") prop)) datadir (realpath (getProperty1 (str "mountdir") prop)) n
    (getPropertyInt (str "threshold") 4096 prop).

(** [Setup] up to the reading of [root.dat]: the checks of the directories never
    fail. *)
Lemma Setup_start s o :
  (length datadir < 80)%nat -> exists e prop' : _, Setup realpath prop (s, o) =
  ((match file_at o (root_dat datadir) with
    | None =>
        modify (fun s => (set_max_inode_num 0 s.1, s.2)) ;;;
        ok <- on_os (os_write_file (root_dat datadir) (fmt_u 0 ++ [10])) ;;
        if negb ok then undefined NullPointer else
        fpath <- sprintf 512 (dir_path datadir 0) ;;
        on_os (os_mkdir fpath) ;;; ret tt
    | Some contents =>
        modify (fun s => (set_max_inode_num (scan_counter contents (max_inode_num s.1)) s.1, s.2))
    end) ;;; ret (0, prop')) (setup_state (max_inode_num s), with_errno e o).
Proof.
  intros Hlen. destruct (os_access_spec datadir o) as (z1 & e1 & Ha1 & Hz1).
  destruct (os_access_spec (realpath (getProperty1 (str "metadir") prop)) (with_errno e1 o)) as (z2 & e2 & Ha2 & Hz2).
  exists e2, (setProperty (str "leveldb.create.if.missing.db") (str "true")
    (setProperty (str "leveldb.db") (realpath (getProperty1 (str "metadir") prop) ++ str "/meta") prop)).
  unfold Setup. fold datadir. erewrite bind_Ret by reflexivity. cbn [fst snd].
  fold (setup_state (max_inode_num s)).
  erewrite bind_Ret by (apply on_os_Ret, Ha1).
  replace (z1 >? 0) with false by (symmetry; rewrite Z.gtb_ltb; lia). cbv iota. rewrite bind_assoc.
  erewrite bind_Ret by (apply on_os_Ret, Ha2). rewrite bind_ret.
  replace (z2 >? 0) with false by (symmetry; rewrite Z.gtb_ltb; lia). cbv iota zeta.
  erewrite bind_Ret by (apply sprintf_Ret; unfold root_dat; rewrite length_app; simpl; lia).
  erewrite bind_Ret by (apply on_os_Ret; reflexivity). reflexivity.
Qed.

(** A new data directory. *)
Lemma Setup_fresh s o :
  os_wf o -> datadir ∈ os_dirs o -> (length datadir < 80)%nat -> file_at o (root_dat datadir) = None ->
  exists prop' o', Setup realpath prop (s, o) = Ret (0, prop') (setup_state 0, o') /\
    dirs_ok (setup_state 0) o' /\ os_clock o' = os_clock o /\ os_wf o' /\
    file_at o' (root_dat datadir) = Some (fmt_u 0 ++ [10]) /\
    forall q, q <> root_dat datadir -> file_at o' q = file_at o q.
Proof.
  intros Hwf Hdir Hlen Hno. destruct (Setup_start s o Hlen) as (e & prop' & ->). rewrite Hno.
  destruct (os_write_file_spec (root_dat datadir) (fmt_u 0 ++ [10]) (with_errno e o))
    as (o3 & Hw & Hwf3 & Hof3 & Hfa3 & _); [by destruct Hwf|by rewrite dirname_root_dat|].
  destruct (os_mkdir_spec (dir_path datadir 0) o3) as (r & o4 & Hmk & Hsame & Hin).
  { rewrite dirname_dir_path, (of_dirs _ _ _ Hof3). done. }
  destruct Hsame as (S1 & S2 & S3 & S4 & S5 & S6).
  exists prop', o4. split.
  - rewrite bind_assoc. erewrite bind_Ret by reflexivity. cbn [fst snd]. rewrite bind_assoc.
    erewrite bind_Ret by (apply on_os_Ret, Hw). cbn [negb]. rewrite bind_assoc.
    erewrite bind_Ret by (apply sprintf_Ret; pose proof (length_dir_path datadir 0); lia).
    rewrite bind_assoc. erewrite bind_Ret by (apply on_os_Ret, Hmk). reflexivity.
  - split_and!.
    + split; cbn; [apply S6; by rewrite (of_dirs _ _ _ Hof3)|done|lia|].
      intros i Hi. assert (i = 0) as -> by lia. exact Hin.
    + by rewrite S5, (of_clock _ _ _ Hof3).
    + destruct Hwf3 as [W1 W2 W3]. by split; rewrite ?S1, ?S3, ?S4.
    + unfold file_at, data_of in *. by rewrite S1, S2.
    + intros q Hq. transitivity (file_at o3 q); [unfold file_at, data_of; by rewrite S1, S2|].
      by rewrite (of_others _ _ _ Hof3 q Hq).
Qed.

(** A data directory that was used before: the counter is read back. *)
Lemma Setup_existing s o n :
  (length datadir < 80)%nat -> file_at o (root_dat datadir) = Some (fmt_u n ++ [10]) -> max_inode_num s = 0 ->
  exists prop' e, Setup realpath prop (s, o) = Ret (0, prop') (setup_state (u32 n), with_errno e o).
Proof.
  intros Hlen Hf Hs. destruct (Setup_start s o Hlen) as (e & prop' & ->). rewrite Hf.
  exists prop', e. erewrite bind_Ret by reflexivity. cbn [fst snd]. rewrite Hs.
  unfold scan_counter. rewrite scan_fmt_u. reflexivity.
Qed.
End setup.

(** What [Destroy] saves is what the next [Setup] finds, as long as the number
    fits the 32 bits of the [%u] conversion. *)
Lemma counter_saved s o :
  os_wf o -> datadir_ s ∈ os_dirs o -> (length (datadir_ s) < 80)%nat ->
  exists o', Destroy_counter (s, o) = Ret tt (s, o') /\ os_wf o' /\ only_file (root_dat (datadir_ s)) o o' /\
    file_at o' (root_dat (datadir_ s)) = Some (fmt_u (max_inode_num s) ++ [10]).
Proof.
  intros Hwf Hdir Hlen.
  destruct (os_write_file_spec (root_dat (datadir_ s)) (fmt_u (max_inode_num s) ++ [10]) o Hwf)
    as (o' & Hw & Hwf' & Hof & Hfa & _); [by rewrite dirname_root_dat|].
  exists o'. split; [|done]. unfold Destroy_counter. erewrite bind_Ret by reflexivity. cbn [fst snd].
  erewrite bind_Ret by (apply sprintf_Ret; unfold root_dat; rewrite length_app; simpl; lia).
  erewrite bind_Ret by (apply on_os_Ret, Hw). reflexivity.
Qed.

(** * Mounting *)

Section mount.
Context {S It : Type} `{!KvWrapper S It, !KvSpec S It}.
Implicit Types (T : table) (PO : nat -> Z) (t : tfs S) (m : gmap bytes bytes).

(** The store holds exactly the table. *)
Record mirrors m T : Prop := {
  mi_eq : forall k, key_ok k -> T !! k = m !! ToSlice k;
  mi_table : forall k v, T !! k = Some v -> key_ok k /\ str_ok v;
  mi_values : forall k v, m !! k = Some v -> str_ok v
}.

Lemma IC_new m T (w : ic_world S) :
  kv_rep (w_metadb w) m -> w_handles w = ∅ -> mirrors m T -> IC m T idle (InodeCache_new, w).
Proof.
  intros Hrep Hh [M1 M2 M3]. destruct (NewLRUCache_inv (V := nat) MAX_OPEN_FILES) as (Hinv & Hlive & Htab);
    [by unfold MAX_OPEN_FILES|].
  split; cbn [fst snd]; [done| |].
  - eapply sharded_inv_ext; [|exact Hinv]. intros id. unfold pins_of. unfold InodeCache_new. by rewrite Hlive.
  - rewrite Hh. split; unfold InodeCache_new; try done.
    + intros id k o. by rewrite Hlive.
    + intros id1 id2 k o1 o2 Ht. by apply Htab in Ht.
    + intros k Hk _. by apply M1.
Qed.

Lemma dcache_ok_empty T n : dcache_ok T (DentryCache_new n).
Proof. split; [apply new_inv|]. done. Qed.

(** The state with new caches over a store that holds the table. *)
Lemma FS_new m T t n :
  kv_rep (w_metadb (t_ic t).2) m -> w_handles (t_ic t).2 = ∅ -> mirrors m T -> store_ok m T ->
  dirs_ok (t_st t).1 (t_st t).2 -> inos_ok T (max_inode_num (t_st t).1) ->
  FS T idle (put_dc (DentryCache_new n) (put_ic (InodeCache_new, (t_ic t).2) t)).
Proof.
  intros Hrep Hh HM Hso Hd Hi. split; unfold handles; cbn.
  - exists m. split; [by apply IC_new|done].
  - apply dcache_ok_empty.
  - intros o h. by rewrite Hh.
  - intros o h. by rewrite Hh.
  - done.
Qed.

(** Before [Init]: a store that opens with the contents [m], no cached inode. *)
Record unmounted m T t : Prop := {
  um_open : exists r s, kv_Init (w_metadb (t_ic t).2) = Ret r s /\ 0 <= r /\ kv_rep s m;
  um_handles : w_handles (t_ic t).2 = ∅;
  um_mirrors : mirrors m T;
  um_store : store_ok m T;
  um_dirs : dirs_ok (t_st t).1 (t_st t).2
}.

(** Mounting again: the table is what the store holds. *)
Lemma Init_again env m T t conn :
  unmounted m T t -> IsEmpty (t_st t).1 = false -> inos_ok T (max_inode_num (t_st t).1) ->
  exists t', Init env conn t = Ret true t' /\ FS T idle t' /\ t_st t' = t_st t /\
    t_context t' = t_context t /\ flag_fuse_enabled t' = conn.
Proof.
  intros [(r & s & Hinit & Hr & Hrep) Hh HM Hso Hd] Hne Hi. eexists. split; [|split].
  - unfold Init. erewrite bind_Ret by reflexivity. erewrite bind_Ret by (apply in_metadb_Ret; exact Hinit).
    replace (r <? 0) with false by (symmetry; lia). cbv iota.
    erewrite bind_Ret by reflexivity. cbn [t_st put_ic]. rewrite Hne. rewrite bind_ret. reflexivity.
  - by apply (FS_new m).
  - done.
Qed.

(** The first mount creates the root directory. *)
Lemma Init_first env m t conn :
  unmounted m ∅ t -> IsEmpty (t_st t).1 = true -> ready env t ->
  0 <= (env_root_stat env).1 < 2 ^ 32 -> 0 <= (env_root_stat env).2 < 2 ^ 64 ->
  exists t' h, Init env conn t = Ret true t' /\ FS {[root_key := mk_value h [] []]} idle t' /\
    value_wf h [] /\ st_ino (fstat h) = ROOT_INODE_ID /\ st_mode (fstat h) = (env_root_stat env).1 /\
    (t_st t').1 = (t_st t).1 /\ (os_wf (t_st t).2 -> os_wf (t_st t').2) /\ t_context t' = t_context t /\
    os_clock (t_st t').2 = tail (os_clock (t_st t).2) /\
    (forall p, file_at (t_st t').2 p = file_at (t_st t).2 p) /\
    flag_fuse_enabled t' = conn /\ st_size (fstat h) = 0 /\ has_blob h = 0 /\
    fresh_stat (fstat h) ROOT_INODE_ID (env_root_stat env).1 (env_root_stat env).2
      (if conn then Some (t_context t) else None).
Proof.
  intros [(r & s & Hinit & Hr & Hrep) Hh HM Hso Hd] He Hrd Hm Hdv.
  set (t1 := put_ic ((t_ic t).1, put_metadb s (t_ic t).2)
    (mkTfs (t_ic t) (t_dc t) (t_st t) (t_fhs t) (t_next_fh t) (t_allocs t) conn (t_context t))).
  destruct (new_value_run env t1 ROOT_INODE_ID (env_root_stat env).1 (env_root_stat env).2 [])
    as (t2 & h & Hrun & Hwf & Hstr & H1 & H2 & H3 & H4 & E1 & E2 & E3 & E4 & E5 & E6 & E7 & E8 & E9 & E10 & E11);
    [by destruct Hrd|by unfold ROOT_INODE_ID|done|done|constructor|done|].
  assert (w_metadb (t_ic t2).2 = s) as Es by by rewrite E1.
  destruct (kv_Put_spec s m (ToSlice root_key) (mk_value h [] []) Hrep (kv_key_ToSlice _) Hstr) as (s' & Hput & Hrep').
  pose proof root_key_ok as Hrk.
  eexists _, h. split; [|split].
  - unfold Init. erewrite bind_Ret by reflexivity. erewrite bind_Ret by (apply in_metadb_Ret; exact Hinit).
    replace (r <? 0) with false by (symmetry; lia). cbv iota. fold t1.
    erewrite bind_Ret by reflexivity. cbn [t_st put_ic]. change (t_st t1) with (t_st t). rewrite He. cbv zeta.
    rewrite bind_assoc. erewrite bind_Ret by exact Hrun. rewrite bind_assoc.
    erewrite bind_Ret by (apply in_metadb_Ret; rewrite Es; exact Hput). rewrite bind_ret. reflexivity.
  - apply (FS_new (<[ToSlice root_key := mk_value h [] []]> m)); cbn.
    + done.
    + by rewrite E1.
    + destruct HM as [M1 M2 M3]. split.
      * intros k Hk. destruct (decide (k = root_key)) as [->|Hne].
        { by rewrite lookup_singleton_eq, lookup_insert_eq. }
        rewrite lookup_singleton_ne, lookup_insert_ne by (try done; apply ToSlice_ne; done).
        rewrite <- M1 by done. done.
      * intros k v [<- <-]%lookup_singleton_Some. done.
      * intros k v. rewrite lookup_insert_Some. intros [[_ <-]|[_ ?]]; [done|by eapply M3].
    + rewrite <- insert_empty. apply store_ok_both; [done|by exists h, [], []|done].
    + rewrite E3. eapply dirs_ok_eq; [exact E5|done].
    + intros k v [<- <-]%lookup_singleton_Some. rewrite (GetAttribute_mk h [] Hwf), H1, E3.
      split; [unfold ROOT_INODE_ID; destruct (do_max _ _ Hd); cbn; lia|].
      intros k' v' [<- _]%lookup_singleton_Some _. done.
  - split_and!; try done.
Qed.
End mount.
