(* ===== verification/FsSpec.v ===== *)
(** The file system as its users see it: a tree of files, directories and links.

    The state is a map from (directory, name hash) keys to nodes with attributes,
    a name and contents. There is no cache, no store, no encoding and no data file
    here. [step] runs one operation: [Some (r, st')] is the result and the new
    tree; [None] says that this specification promises nothing. It promises nothing
    for
    - what FUSE's kernel side checks before it calls and the file system does not:
      creating a name that is taken or empty, renaming a node to itself or to an
      empty name, reading, writing or truncating what is not a file, reading the
      target of what is not a link;
    - listing the root, whose own entry is among its entries, listing a path that
      does not exist, and listing with fewer rounds than there are entries;
    - a write of no bytes past the end of a file, after which the recorded size and
      the data can differ;
    - a truncation that moves a file between its data file and the inode, other
      than to no bytes, or makes an inline file longer ([resizes]);
    - paths that do not start with a slash or are longer than the code's buffers
      ([path_good]), and numbers outside their ranges. *)

From S2P Require Import Prelude Hashes Inode Posix TableFS.

(** The attributes of a node that the specification determines: all but times. *)
Record attrs : Type := mkAttrs {
  at_ino : Z; at_mode : Z; at_nlink : Z; at_uid : Z; at_gid : Z; at_dev : Z; at_size : Z
}.

Definition attrs_of (s : tfs_stat_t) : attrs :=
  mkAttrs (st_ino s) (st_mode s) (st_nlink s) (st_uid s) (st_gid s) (st_dev s) (st_size s).

Definition set_at_mode (m : Z) (a : attrs) : attrs :=
  mkAttrs (at_ino a) m (at_nlink a) (at_uid a) (at_gid a) (at_dev a) (at_size a).
Definition set_at_owner (u g : Z) (a : attrs) : attrs :=
  mkAttrs (at_ino a) (at_mode a) (at_nlink a) u g (at_dev a) (at_size a).
Definition set_at_size (n : Z) (a : attrs) : attrs :=
  mkAttrs (at_ino a) (at_mode a) (at_nlink a) (at_uid a) (at_gid a) (at_dev a) n.

Definition new_attrs (ino mode dev : Z) (who : option (Z * Z)) : attrs :=
  let '(u, g) := default (0, 0) who in
  mkAttrs ino mode (if S_ISREG mode then 1 else 2) u g dev 0.

Inductive kind : Type :=
| File (contents : bytes)
| Link (target : bytes)
| Dir.

Record node : Type := mkNode { n_attrs : attrs; n_name : bytes; n_kind : kind }.

Definition n_data (n : node) : bytes :=
  match n_kind n with File c => c | Link t => t | Dir => [] end.
Definition n_ino (n : node) : Z := at_ino (n_attrs n).

Record fstree : Type := mkTree {
  tree : gmap tfs_meta_key_t node;
  last_ino : Z;                    (* the inode number given out last *)
  who : option (Z * Z);            (* the owner of new nodes *)
  limit : Z                        (* larger files have a data file: the threshold *)
}.

Definition with_tree (x : gmap tfs_meta_key_t node) (st : fstree) : fstree :=
  mkTree x (last_ino st) (who st) (limit st).

(** ** Paths *)

(** The directories of a path and its last component. *)
Fixpoint split_path (l : bytes) : list bytes * bytes :=
  match l with
  | [] => ([], [])
  | b :: l' =>
      let '(ds, last) := split_path l' in
      if b =? PATH_DELIMITER then ([] :: ds, last)
      else match ds with
           | [] => ([], b :: last)
           | d :: ds' => ((b :: d) :: ds', last)
           end
  end.

Fixpoint walk (m : gmap tfs_meta_key_t node) (k : tfs_meta_key_t) (dir : Z) (ds : list bytes)
    : option (tfs_meta_key_t * Z) :=
  match ds with
  | [] => Some (k, dir)
  | d :: ds' =>
      let k' := BuildMetaKey_path d dir in
      n ← m !! k';
      walk m k' (n_ino n) ds'
  end.

(** The key a path names and its last component; [None] when a directory on the
    way is missing. *)
Definition locate (st : fstree) (path : bytes) : option (tfs_meta_key_t * bytes) :=
  match path with
  | [] => None
  | _ :: l =>
      let '(ds, last) := split_path l in
      '(k, dir) ← walk (tree st) root_key ROOT_INODE_ID ds;
      Some (match last with [] => k | _ => BuildMetaKey_path last dir end, last)
  end.

Definition find (st : fstree) (path : bytes) : option (tfs_meta_key_t * node) :=
  '(k, _) ← locate st path;
  n ← tree st !! k;
  Some (k, n).

(** ** Operations *)

Inductive op : Type :=
| OpMknod (path : bytes) (mode dev : Z)
| OpMkdir (path : bytes) (mode : Z)
| OpSymlink (target path : bytes)
| OpReadlink (path : bytes) (size : Z)
| OpGetattr (path : bytes)
| OpChmod (path : bytes) (mode : Z)
| OpChown (path : bytes) (uid gid : Z)
| OpUtimens (path : bytes) (atime mtime : Z * Z)
| OpTruncate (path : bytes) (size : Z)
| OpUnlink (path : bytes)
| OpRmdir (path : bytes)
| OpRename (old_path new_path : bytes)
| OpWrite (path buf : bytes) (offset : Z)      (* open, write, close *)
| OpRead (path : bytes) (size offset : Z)      (* open, read, close *)
| OpList (path : bytes) (rounds : nat).        (* opendir, readdir, closedir *)

Inductive result : Type :=
| RCode (r : Z)
| RAttrs (r : Z) (a : option attrs)
| RData (r : Z) (d : bytes)
| RNames (r : Z) (names : list bytes).

(** Results are equal, listings in any order. *)
Inductive agrees : result -> result -> Prop :=
| agrees_refl r : agrees r r
| agrees_names r l l' : l ≡ₚ l' -> agrees (RNames r l) (RNames r l').

Definition path_good (path : bytes) : Prop :=
  path <> [] /\ bytes_ok path /\ Z.of_nat (length path) < 2 ^ 31.

Definition create (path : bytes) (mk : Z -> bytes -> node) (st : fstree) : option (result * fstree) :=
  _ ← guard (path_good path /\ last_ino st + 1 < 2 ^ 31);
  match locate st path with
  | None => Some (RCode (- ENOENT), st)
  | Some (k, name) =>
      _ ← guard (tree st !! k = None /\ name <> []);
      let i := last_ino st + 1 in
      Some (RCode 0, mkTree (<[k := mk i name]> (tree st)) i (who st) (limit st))
  end.

Definition change (path : bytes) (f : attrs -> attrs) (st : fstree) : option (result * fstree) :=
  _ ← guard (path_good path);
  match find st path with
  | None => Some (RCode (- ENOENT), st)
  | Some (k, n) =>
      Some (RCode 0, with_tree (<[k := mkNode (f (n_attrs n)) (n_name n) (n_kind n)]> (tree st)) st)
  end.

Definition remove (path : bytes) (st : fstree) : option (result * fstree) :=
  _ ← guard (path_good path);
  match find st path with
  | None => Some (RCode (- ENOENT), st)
  | Some (k, n) => Some (RCode 0, with_tree (delete k (tree st)) st)
  end.

Definition entries_of (st : fstree) (ino : Z) : list node :=
  (map_to_list (filter (fun kn => inode_id kn.1 = ino) (tree st))).*2.

Definition list_dir (path : bytes) (rounds : nat) (st : fstree) : option (result * fstree) :=
  _ ← guard (path_good path);
  '(k, n) ← find st path;
  _ ← guard (n_ino n <> ROOT_INODE_ID /\ (length (entries_of st (n_ino n)) < rounds)%nat);
  Some (RNames 0 ([str "."; str ".."] ++
          filter (fun x => x <> []) ((fun e => c_str (n_name e)) <$> entries_of st (n_ino n))), st).

Definition rename (old_path new_path : bytes) (st : fstree) : option (result * fstree) :=
  _ ← guard (path_good old_path /\ path_good new_path);
  match find st old_path, locate st new_path with
  | Some (k, n), Some (k', name) =>
      _ ← guard (k <> k' /\ name <> [] /\
        257 + Z.of_nat (length (n_name n)) + Z.of_nat (length (n_data n)) + Z.of_nat (length name) < 2 ^ 32);
      Some (RCode 0, with_tree (<[k' := mkNode (n_attrs n) name (n_kind n)]> (delete k (tree st))) st)
  | _, _ => Some (RCode (- ENOENT), st)
  end.

Definition write_file (path buf : bytes) (offset : Z) (st : fstree) : option (result * fstree) :=
  _ ← guard (path_good path);
  match find st path with
  | None => Some (RCode (- ENOENT), st)
  | Some (k, n) =>
      match n_kind n with
      | File c =>
          _ ← guard (bytes_ok buf /\ 0 <= offset /\ writes_through c buf offset /\
            257 + Z.of_nat (length (n_name n)) + 2 * Z.of_nat (length c) +
              (offset + Z.of_nat (length buf)) < 2 ^ 31);
          let c' := write_at c (Z.to_nat offset) buf in
          Some (RCode (Z.of_nat (length buf)),
                with_tree (<[k := mkNode (set_at_size (Z.of_nat (length c')) (n_attrs n)) (n_name n) (File c')]>
                  (tree st)) st)
      | _ => None
      end
  end.

(** Emptying a file, cutting a small one, and any change that leaves a large file
    large. The other changes resize the string that holds the inode upwards, after
    which the code reads through a pointer into it: whether they succeed is up to
    the string. *)
Definition resizes (limit size : Z) (c : bytes) : Prop :=
  size = 0 \/ (Z.of_nat (length c) <= limit /\ 0 <= size <= Z.of_nat (length c)) \/
  (limit < Z.of_nat (length c) /\ limit < size).

Definition truncate_file (path : bytes) (size : Z) (st : fstree) : option (result * fstree) :=
  _ ← guard (path_good path);
  match find st path with
  | None => Some (RCode (- ENOENT), st)
  | Some (k, n) =>
      match n_kind n with
      | File c =>
          _ ← guard (resizes (limit st) size c /\ 257 + Z.of_nat (length (n_name n)) + size < 2 ^ 31);
          let c' := str_resize c (Z.to_nat size) in
          Some (RCode 0, with_tree (<[k := mkNode (set_at_size size (n_attrs n)) (n_name n) (File c')]> (tree st)) st)
      | _ => None
      end
  end.

Definition read_file (path : bytes) (size offset : Z) (st : fstree) : option (result * fstree) :=
  _ ← guard (path_good path);
  match find st path with
  | None => Some (RData (- ENOENT) [], st)
  | Some (k, n) =>
      match n_kind n with
      | File c =>
          _ ← guard (0 <= size < 2 ^ 31 /\ 0 <= offset < 2 ^ 62 /\ Z.of_nat (length c) < 2 ^ 62);
          let d := slice (Z.to_nat offset) (Z.to_nat size) c in
          Some (RData (Z.of_nat (length d)) d, st)
      | _ => None
      end
  end.

Definition read_link (path : bytes) (size : Z) (st : fstree) : option (result * fstree) :=
  _ ← guard (path_good path /\ 0 < size < 2 ^ 62);
  match find st path with
  | None => Some (RData (- ENOENT) [], st)
  | Some (k, n) =>
      match n_kind n with
      | Link t => Some (RData 0 (take (Z.to_nat (size - 1)) t), st)
      | _ => None
      end
  end.

Definition get_attrs (path : bytes) (st : fstree) : option (result * fstree) :=
  _ ← guard (path_good path);
  match find st path with
  | None => Some (RAttrs (- ENOENT) None, st)
  | Some (k, n) => Some (RAttrs 0 (Some (n_attrs n)), st)
  end.


Definition step (o : op) (st : fstree) : option (result * fstree) :=
  match o with
  | OpMknod path mode dev =>
      let mode := Z.lor mode S_IFREG in
      _ ← guard (0 <= mode < 2 ^ 32 /\ 0 <= dev < 2 ^ 64);
      create path (fun i name => mkNode (new_attrs i mode dev (who st)) name (File [])) st
  | OpMkdir path mode =>
      let mode := Z.lor mode S_IFDIR in
      _ ← guard (0 <= mode < 2 ^ 32);
      create path (fun i name => mkNode (new_attrs i mode 0 (who st)) name Dir) st
  | OpSymlink target path =>
      _ ← guard (bytes_ok target /\ Forall (fun b => b <> 0) target /\
                 Z.of_nat (length target) < 2 ^ 31 - 2 ^ 10);
      create path (fun i name => mkNode (new_attrs i S_IFLNK 0 (who st)) name (Link target)) st
  | OpReadlink path size => read_link path size st
  | OpGetattr path => get_attrs path st
  | OpChmod path mode => _ ← guard (0 <= mode < 2 ^ 32); change path (set_at_mode mode) st
  | OpChown path uid gid =>
      _ ← guard (0 <= uid < 2 ^ 32 /\ 0 <= gid < 2 ^ 32); change path (set_at_owner uid gid) st
  | OpUtimens path atime mtime =>
      _ ← guard (Forall (fun x => - 2 ^ 63 <= x < 2 ^ 63) [atime.1; atime.2; mtime.1; mtime.2]);
      change path id st
  | OpTruncate path size => truncate_file path size st
  | OpUnlink path => remove path st
  | OpRmdir path => remove path st
  | OpRename old_path new_path => rename old_path new_path st
  | OpWrite path buf offset => write_file path buf offset st
  | OpRead path size offset => read_file path size offset st
  | OpList path rounds => list_dir path rounds st
  end.

Fixpoint steps (os : list op) (st : fstree) : option (list result * fstree) :=
  match os with
  | [] => Some ([], st)
  | o :: os' =>
      '(r, st1) ← step o st;
      '(rs, st2) ← steps os' st1;
      Some (r :: rs, st2)
  end.

(** The tree of a new file system: the root directory. *)
Definition new_tree (mode dev : Z) (owner : option (Z * Z)) (limit : Z) : fstree :=
  mkTree {[root_key := mkNode (new_attrs ROOT_INODE_ID mode dev owner) [] Dir]} 0 owner limit.
