(* ===== verification/FsHistory.v ===== *)
(** Histories of operations: [TableFS] refines the tree of [FsSpec].

    [represents] relates a tree to a state of the file system in which nothing is
    open. Every operation, run on related states, returns what the specification
    says and leaves related states behind; so does every sequence of operations,
    from the first mount on. *)

From S2P Require Import Prelude Hashes Coding WriteBatch Inode DCache Cache Kv ICache Posix Properties State TableFS FsInv FsOps FsRename FsFile FsTruncate FsDir FsFrame FsMount FsSpec.

Set Default Proof Using "Type".

(** ** Paths *)

Lemma split_path_delim l :
  split_path l = match strchr_delim l with
                 | Some (item, after) => (item :: (split_path after).1, (split_path after).2)
                 | None => ([], l)
                 end.
Proof.
  induction l as [|b l IH]; [done|]. cbn [split_path strchr_delim]. destruct (b =? PATH_DELIMITER).
  - by destruct (split_path l).
  - rewrite IH. by destruct (strchr_delim l) as [[item after]|].
Qed.

Lemma strchr_delim_shorter l item after : strchr_delim l = Some (item, after) -> (length after < length l)%nat.
Proof.
  revert item. induction l as [|b l IH]; intros item H; simpl in H; [done|].
  destruct (b =? PATH_DELIMITER); [by injection H as <- <-; simpl; lia|].
  destruct (strchr_delim l) as [[i a]|]; [|done]. injection H as <- <-. specialize (IH i eq_refl). simpl. lia.
Qed.

Definition same_inos (T : table) (m : gmap tfs_meta_key_t node) : Prop :=
  forall k, ino_of (T !! k) = n_ino <$> m !! k.

Lemma walk_resolve T m fuel after key dir :
  same_inos T m -> (length after < fuel)%nat ->
  resolve_loop fuel T key dir after =
  '(k, d) ← walk m (default root_key key) dir (split_path after).1;
  Some (match (split_path after).1 with [] => key | _ => Some k end, d, (split_path after).2).
Proof.
  intros Hi. revert after key dir. induction fuel as [|fuel IH]; intros after key dir Hl; [lia|].
  cbn [resolve_loop]. rewrite (split_path_delim after). destruct (strchr_delim after) as [[item after']|] eqn:E; [|done].
  apply strchr_delim_shorter in E. cbn [fst snd walk]. rewrite Hi.
  destruct (m !! BuildMetaKey_path item dir) as [n|]; [|done]. cbn [fmap option_fmap option_map mbind option_bind].
  rewrite IH by lia. cbn [default]. destruct (walk _ _ _ _) as [[k d]|] eqn:Ew; [|done].
  cbn [mbind option_bind]. by destruct (split_path after').1; simplify_eq/=.
Qed.

Lemma locate_resolve T st path :
  same_inos T (tree st) -> resolve T path = fst <$> locate st path.
Proof.
  intros Hi. unfold resolve, resolve_parent, locate. destruct path as [|b l]; [done|].
  rewrite (walk_resolve T (tree st)) by (done || simpl; lia). destruct (split_path l) as [ds last]. cbn [fst snd default].
  destruct (walk _ _ _ _) as [[k d]|] eqn:E; [|done]. cbn. f_equal. destruct last; [|done].
  destruct ds; [|done]. cbn in *. by simplify_eq.
Qed.

(** A path with a last component creates under that name. *)
Lemma locate_resolve_name T st path k name :
  same_inos T (tree st) -> locate st path = Some (k, name) -> name <> [] -> resolve_name T path = Some (k, name).
Proof.
  intros Hi. unfold resolve_name, resolve_parent, locate. destruct path as [|b l]; [done|].
  rewrite (walk_resolve T (tree st)) by (done || simpl; lia). destruct (split_path l) as [ds last]. cbn [fst snd default].
  destruct (walk _ _ _ _) as [[k' d]|] eqn:E; [|done]. cbn. intros [= <- <-] Hne.
  by destruct last.
Qed.

Lemma locate_None_name T st path :
  same_inos T (tree st) -> locate st path = None -> resolve_name T path = None.
Proof.
  intros Hi H. pose proof (locate_resolve T st path Hi) as Hr. rewrite H, resolve_name_key in Hr.
  by destruct (resolve_name T path) as [[]|].
Qed.

Lemma c_str_stop (name data : bytes) : c_str (name ++ 0 :: data) = c_str name.
Proof. induction name as [|b name IH]; [done|]. simpl. by rewrite IH. Qed.

Section history.
Context {S It : Type} `{!KvWrapper S It, !KvSpec S It} (env : environment).
Implicit Types (T : table) (t : tfs S) (st : fstree) (m : gmap tfs_meta_key_t node).

(** ** The relation *)

Definition data_path t (ino : Z) : bytes := disk_path (datadir_ (t_st t).1) ino.

(** The contents of a closed file whose value has the header [hd] and the data
    [data]. *)
Definition file_data t (hd : tfs_inode_header) (data c : bytes) : Prop :=
  st_size (fstat hd) = Z.of_nat (length c) /\
  ((has_blob hd = 0 /\ data = c /\ Z.of_nat (length c) <= threshold_ (t_st t).1 /\
    file_at (t_st t).2 (data_path t (st_ino (fstat hd))) = None) \/
   (has_blob hd = 1 /\ data = [] /\ file_at (t_st t).2 (data_path t (st_ino (fstat hd))) = Some c /\
    threshold_ (t_st t).1 < Z.of_nat (length c))).

Definition kind_rep t (hd : tfs_inode_header) (data : bytes) (x : kind) : Prop :=
  match x with
  | File c => file_data t hd data c
  | Link target => data = target /\ Forall (fun b => b <> 0) target /\ Z.of_nat (length target) < 2 ^ 31
  | Dir => data = []
  end.

Definition node_rep t (v : bytes) (n : node) : Prop :=
  exists hd data, v = mk_value hd (n_name n) data /\ value_wf hd (n_name n) /\ attrs_of (fstat hd) = n_attrs n /\
    kind_rep t hd data (n_kind n).

Lemma file_data_rep t hd name data c :
  value_wf hd name -> file_data t hd data c -> file_rep t (mk_value hd name data) (-1) c.
Proof.
  intros Hwf (Hsz & Hc). exists hd, name, data. split_and!; try done.
  destruct Hc as [(? & ? & ? & ?)|(? & ? & ? & ?)]; [left|right]; split_and!; try done. by left.
Qed.

Lemma file_rep_size t hd name data fd c :
  value_wf hd name -> file_rep t (mk_value hd name data) fd c -> st_size (fstat hd) = Z.of_nat (length c).
Proof.
  intros Hwf (hd' & name' & data' & E & Hwf' & Hsz & _). by destruct (mk_value_inj _ _ _ _ _ _ Hwf Hwf' E) as (<- & _ & _).
Qed.

Lemma file_rep_data t hd name data c :
  value_wf hd name -> file_rep t (mk_value hd name data) (-1) c -> file_data t hd data c.
Proof.
  intros Hwf (hd' & name' & data' & E & Hwf' & Hsz & Hc).
  destruct (mk_value_inj _ _ _ _ _ _ Hwf Hwf' E) as (<- & _ & <-). split; [done|].
  destruct Hc as [(? & ? & ? & _ & ?)|(? & ? & ? & _ & ?)]; [left|right]; done.
Qed.

Definition nodes_rep t T m : Prop := forall k, option_Forall2 (node_rep t) (T !! k) (m !! k).

Record represents T st t : Prop := {
  rp_fs : FS T idle t;
  rp_nodes : nodes_rep t T (tree st);
  rp_last : last_ino st = max_inode_num (t_st t).1;
  rp_who : who st = caller t;
  rp_os : os_wf (t_st t).2;
  rp_ready : ready env t;
  rp_threshold : limit st = threshold_ (t_st t).1 /\ 0 <= limit st < 2 ^ 62;
  rp_unused : forall i, last_ino st < i < 2 ^ 31 -> file_at (t_st t).2 (data_path t i) = None
}.

(** A node only depends on the configuration and on its own data file. *)
Lemma node_rep_frame t t' v n :
  datadir_ (t_st t').1 = datadir_ (t_st t).1 -> threshold_ (t_st t').1 = threshold_ (t_st t).1 ->
  file_at (t_st t').2 (data_path t (n_ino n)) = file_at (t_st t).2 (data_path t (n_ino n)) ->
  node_rep t v n -> node_rep t' v n.
Proof.
  intros Hdd Hth Hf (hd & data & Hv & Hwf & Ha & Hk). exists hd, data. split_and!; try done.
  destruct (n_kind n) as [c| |]; try done. unfold n_ino in Hf. rewrite <- Ha in Hf.
  cbn [attrs_of at_ino] in Hf. unfold kind_rep, file_data, data_path in *. by rewrite Hdd, Hth, Hf.
Qed.

Lemma node_rep_attr t v n : node_rep t v n -> attrs_of (GetAttribute v) = n_attrs n.
Proof. intros (hd & data & -> & Hwf & Ha & _). by rewrite (GetAttribute_mk hd _ Hwf). Qed.

Lemma node_rep_ino t v n : node_rep t v n -> st_ino (GetAttribute v) = n_ino n.
Proof. intros H%node_rep_attr. unfold n_ino. by rewrite <- H. Qed.

Lemma nodes_inos t T m : nodes_rep t T m -> same_inos T m.
Proof.
  intros H k. destruct (H k) as [v n Hn|]; [|done]. cbn. f_equal. by eapply node_rep_ino.
Qed.

Lemma nodes_insert t T m k v n :
  nodes_rep t T m -> node_rep t v n -> nodes_rep t (<[k := v]> T) (<[k := n]> m).
Proof.
  intros H Hn j. destruct (decide (j = k)) as [->|Hne].
  - rewrite !lookup_insert_eq. by constructor.
  - by rewrite !lookup_insert_ne.
Qed.

Lemma nodes_delete t T m k : nodes_rep t T m -> nodes_rep t (delete k T) (delete k m).
Proof.
  intros H j. destruct (decide (j = k)) as [->|Hne].
  - rewrite !lookup_delete_eq. by constructor.
  - by rewrite !lookup_delete_ne.
Qed.

Lemma nodes_lookup t T m k n : nodes_rep t T m -> m !! k = Some n -> exists v, T !! k = Some v /\ node_rep t v n.
Proof. intros H E. specialize (H k). rewrite E in H. inversion H; subst. eauto. Qed.

Lemma nodes_absent t T m k : nodes_rep t T m -> m !! k = None -> T !! k = None.
Proof. intros H E. specialize (H k). rewrite E in H. by inversion H. Qed.

(** The end of an operation that creates, and of one that changes no data file. *)
Lemma represents_newer T st t T' st' t' :
  represents T st t -> newer t t' -> FS T' idle t' -> nodes_rep t T' (tree st') ->
  last_ino st' = max_inode_num (t_st t').1 -> last_ino st <= last_ino st' -> who st' = who st ->
  limit st' = limit st -> represents T' st' t'.
Proof.
  intros [F N L W O [R1 R2 R3 R4] Th U] [S1 S2 S3 S4 [[S5 S6] Hf]] HF HN Hl Hle Hw Hli. split; try done.
  - intros k. destruct (HN k) as [v n Hn|]; constructor. by eapply node_rep_frame.
  - rewrite Hw, W. unfold caller. by rewrite S1, S2.
  - auto.
  - split; [done|by apply S6|by rewrite S1|done].
  - by rewrite S4, Hli.
  - intros i Hi. unfold data_path. rewrite S3, Hf. apply U. lia.
Qed.

Lemma represents_calm T st t T' m' t' :
  represents T st t -> calm t t' -> FS T' idle t' -> nodes_rep t T' m' -> represents T' (with_tree m' st) t'.
Proof.
  intros H Hc HF HN. eapply represents_newer; try done; [by apply calm_newer|].
  cbn. rewrite (rp_last _ _ _ H). by rewrite (sn_count _ _ (proj1 Hc)).
Qed.

Lemma represents_same T st t t' :
  represents T st t -> calm t t' -> FS T idle t' -> represents T st t'.
Proof. intros H Hc HF. destruct st. exact (represents_calm _ _ _ _ _ _ H Hc HF (rp_nodes _ _ _ H)). Qed.

(** ** Operations *)

Definition do_op (o : op) : prog (tfs S) result :=
  match o with
  | OpMknod path mode dev => r <- MakeNode env path mode dev ;; ret (RCode r)
  | OpMkdir path mode => r <- MakeDir env path mode ;; ret (RCode r)
  | OpSymlink target path => r <- Symlink env target path ;; ret (RCode r)
  | OpReadlink path size => ' (r, d) <- Readlink path size ;; ret (RData r (default [] d))
  | OpGetattr path => ' (r, s) <- GetAttr path ;; ret (RAttrs r (attrs_of <$> s))
  | OpChmod path mode => r <- Chmod path mode ;; ret (RCode r)
  | OpChown path uid gid => r <- Chown path uid gid ;; ret (RCode r)
  | OpUtimens path atime mtime => r <- UpdateTimens path atime mtime ;; ret (RCode r)
  | OpTruncate path size => r <- Truncate env path size ;; ret (RCode r)
  | OpUnlink path => r <- Unlink path ;; ret (RCode r)
  | OpRmdir path => r <- RemoveDir path ;; ret (RCode r)
  | OpRename old_path new_path => r <- Rename old_path new_path ;; ret (RCode r)
  | OpWrite path buf offset =>
      ' (r, fh) <- Open path O_RDWR ;;
      match fh with
      | Some fh => n <- Write fh buf offset O_RDWR ;; Release fh ;;; ret (RCode n)
      | None => ret (RCode r)
      end
  | OpRead path size offset =>
      ' (r, fh) <- Open path O_RDWR ;;
      match fh with
      | Some fh => ' (n, d) <- Read fh size offset ;; Release fh ;;; ret (RData n d)
      | None => ret (RData r [])
      end
  | OpList path rounds =>
      ' (r, o) <- OpenDir path ;;
      match o with
      | Some o =>
          l <- ReadDir (fun _ p => p) rounds (fun _ => ret 0) o ;;
          ReleaseDir o ;;;
          match l with Some (r, names) => ret (RNames r names) | None => undefined Unfinished end
      | None => ret (RNames r [])
      end
  end.

Fixpoint do_ops (os : list op) : prog (tfs S) (list result) :=
  match os with
  | [] => ret []
  | o :: os' => r <- do_op o ;; rs <- do_ops os' ;; ret (r :: rs)
  end.

(** What an operation must do on related states. *)
Definition implements (o : op) st r st' : Prop :=
  forall T t, represents T st t ->
  exists r' t' T', do_op o t = Ret r' t' /\ agrees r r' /\ represents T' st' t'.

Lemma represents_inos T st t : represents T st t -> same_inos T (tree st).
Proof. intros H. by eapply nodes_inos, H. Qed.

(** The node at a path, or nothing. *)
Lemma find_resolve T st t path :
  represents T st t ->
  match find st path with
  | Some (k, n) => tree st !! k = Some n /\ resolve T path = Some k /\ exists v, T !! k = Some v /\ node_rep t v n
  | None => match resolve T path with Some k => T !! k = None | None => True end
  end.
Proof.
  intros H. rewrite (locate_resolve T st) by by eapply represents_inos. unfold find.
  destruct (locate st path) as [[k name]|]; [|done]. cbn.
  destruct (tree st !! k) as [n|] eqn:E; cbn; [|by eapply nodes_absent, E; apply H].
  split; [done|]. split; [done|]. by eapply nodes_lookup, E; apply H.
Qed.

Lemma rooms_all T st t path : represents T st t -> rooms T idle t path.
Proof. intros H k _. eapply FS_room_idle, H. Qed.

Lemma closed_all t k : closed idle t k.
Proof. done. Qed.

Lemma keeps_run (R : tfs S -> tfs S -> Prop) {A} (p : prog (tfs S) A) t a t' :
  Keeps R p -> p t = Ret a t' -> R t t'.
Proof. intros H E. by eapply H. Qed.

(** *** Attributes *)

Lemma getattr_ok path st r st' : get_attrs path st = Some (r, st') -> implements (OpGetattr path) st r st'.
Proof.
  unfold get_attrs. intros ([Hp _] & _ & E)%bind_Some T t HR. pose proof HR as [HF _ _ _ _ _ _ _].
  destruct (GetAttr_refines T idle t path HF Hp (rooms_all _ _ _ _ HR)) as (t' & Hrun & HF').
  pose proof (represents_same _ _ _ _ HR (keeps_run _ _ _ _ _ (GetAttr_calm path) Hrun) HF') as HR'.
  pose proof (find_resolve T st t path HR) as Hf. unfold lookup_path in Hrun.
  destruct (find st path) as [[k n]|]; injection E as <- <-.
  - destruct Hf as (_ & Er & v & ET & Hn). rewrite Er in Hrun. cbn [mbind option_bind] in Hrun. rewrite ET in Hrun.
    eexists _, t', T. unfold do_op. split; [by erewrite bind_Ret by exact Hrun|]. split; [|done].
    cbn. rewrite (node_rep_attr _ _ _ Hn). constructor.
  - eexists _, t', T. unfold do_op. split; [erewrite bind_Ret by exact Hrun|split; [|exact HR']].
    + by destruct (resolve T path) as [k|]; cbn [mbind option_bind]; [rewrite Hf|].
    + constructor.
Qed.

Lemma kind_rep_attr t hd hd' data x :
  st_size (fstat hd') = st_size (fstat hd) -> st_ino (fstat hd') = st_ino (fstat hd) -> has_blob hd' = has_blob hd ->
  kind_rep t hd data x -> kind_rep t hd' data x.
Proof. intros E1 E2 E3. unfold kind_rep, file_data. by rewrite E1, E2, E3. Qed.

(** [Chmod], [Chown] and [UpdateTimens]. *)
Lemma change_ok path unlock f g st r st' T t :
  change path g st = Some (r, st') ->
  (forall s, stat_ok s -> stat_ok (f s)) -> (forall s, attrs_of (f s) = g (attrs_of s)) ->
  (forall a, at_ino (g a) = at_ino a /\ at_size (g a) = at_size a) -> represents T st t ->
  exists r' t' T', update_attribute path unlock f t = Ret r' t' /\ r = RCode r' /\ represents T' st' t'.
Proof.
  unfold change. intros ([Hp _] & _ & E)%bind_Some Hok Hfg Hg HR. pose proof HR as [HF HN _ _ _ _ _ _].
  assert (forall s, st_ino (f s) = st_ino s /\ st_size (f s) = st_size s) as Hkeep.
  { intros s. destruct (Hg (attrs_of s)) as [H1 H2]. rewrite <- Hfg in H1, H2. done. }
  destruct (update_attribute_refines T idle t path unlock f HF Hp (rooms_all _ _ _ _ HR)) as (t' & r' & Hrun & H).
  { intros s Hs. split; [by apply Hok|apply Hkeep]. }
  pose proof (keeps_run _ _ _ _ _ (update_attribute_calm path unlock f) Hrun) as Hc.
  pose proof (find_resolve T st t path HR) as Hf.
  destruct (find st path) as [[k n]|]; injection E as <- <-.
  - destruct Hf as (_ & Er & v & ET & Hn). rewrite Er, ET in H. destruct H as [-> HF'].
    exists 0, t', (<[k := UpdateAttribute v (f (GetAttribute v))]> T). split; [done|]. split; [done|].
    eapply represents_calm; try done. apply nodes_insert; [done|].
    destruct Hn as (hd & data & -> & Hwf & Ha & Hk). rewrite (GetAttribute_mk hd _ Hwf), UpdateAttribute_mk.
    exists (set_fstat (f (fstat hd)) hd), data. split; [done|]. split; [apply value_wf_fstat; [apply Hok, Hwf|done]|].
    split; [cbn; by rewrite Hfg, Ha|]. by eapply kind_rep_attr, Hk; [apply Hkeep..|].
  - exists r', t', T. split; [done|].
    assert (r' = - ENOENT /\ FS T idle t') as [-> HF'] by (destruct (resolve T path) as [k|]; [by rewrite Hf in H|done]).
    split; [done|]. by eapply represents_same.
Qed.

(** *** Removing *)

(** Inode numbers are in range and belong to one key. *)
Lemma nodes_range T m t k n :
  FS T idle t -> nodes_rep t T m -> m !! k = Some n ->
  0 <= n_ino n <= max_inode_num (t_st t).1 /\
  forall k' n', m !! k' = Some n' -> n_ino n' = n_ino n -> k' = k.
Proof.
  intros HF HN E. destruct (fs_dirs _ _ _ HF) as [_ Hi].
  destruct (nodes_lookup _ _ _ _ _ HN E) as (v & ET & Hn). destruct (Hi _ _ ET) as [Hr Hu].
  rewrite (node_rep_ino _ _ _ Hn) in Hr. split; [done|]. intros k' n' E' Ei.
  destruct (nodes_lookup _ _ _ _ _ HN E') as (v' & ET' & Hn'). apply (Hu k' v' ET').
  by rewrite (node_rep_ino _ _ _ Hn), (node_rep_ino _ _ _ Hn').
Qed.

(** The end of an operation that changes the data file of one inode. *)
Lemma represents_file T st t T' k v' n m' t' :
  represents T st t -> sane t t' -> FS T' idle t' -> tree st !! k = Some n ->
  (forall q, q <> data_path t (n_ino n) -> file_at (t_st t').2 q = file_at (t_st t).2 q) ->
  T' = partial_alter (fun _ => v') k T -> (forall j, j <> k -> m' !! j = tree st !! j) ->
  option_Forall2 (node_rep t') v' (m' !! k) ->
  represents T' (with_tree m' st) t'.
Proof.
  intros HR [S1 S2 S3 S4 S5 [S6 S7]] HF' Ek Hq -> Hm Hk. pose proof HR as [F N L W O [R1 R2 R3 R4] Th U].
  destruct (nodes_range _ _ _ _ _ F N Ek) as [Hr Hu].
  pose proof (do_max _ _ (proj1 (fs_dirs _ _ _ F))) as Hmax.
  split; try done; cbn [with_tree tree last_ino who].
  - intros j. destruct (decide (j = k)) as [->|Hne]; [by rewrite lookup_partial_alter_eq|].
    rewrite lookup_partial_alter_ne, Hm by done. pose proof (N j) as Hj.
    destruct (tree st !! j) as [nj|] eqn:Ej; [|inversion Hj; constructor].
    destruct (nodes_range _ _ _ _ _ F N Ej) as [Hrj _].
    inversion Hj as [? ? Hnj|]; subst. constructor. eapply node_rep_frame; [done|done| |done]. apply Hq.
    intros E. apply disk_path_inj in E; [|lia..]. apply Hne. by eapply Hu.
  - by rewrite L, S5.
  - rewrite W. unfold caller. by rewrite S1, S2.
  - auto.
  - split; [done|by apply S7|by rewrite S1|done].
  - by rewrite S4.
  - intros i Hi. unfold data_path. rewrite S3. rewrite Hq; [by apply U|].
    intros E. apply disk_path_inj in E; lia.
Qed.

Lemma unlink_ok path st r st' : remove path st = Some (r, st') -> implements (OpUnlink path) st r st'.
Proof.
  unfold remove. intros ([Hp _] & _ & E)%bind_Some T t HR. pose proof HR as [HF HN _ _ _ _ _ _].
  destruct (Unlink_refines T idle t path HF Hp (rooms_all _ _ _ _ HR)) as (t' & r' & Hrun & H).
  { intros k _. apply closed_all. }
  pose proof (keeps_run _ _ _ _ _ (Unlink_sane path) Hrun) as Hs.
  pose proof (find_resolve T st t path HR) as Hf.
  destruct (find st path) as [[k n]|]; injection E as <- <-.
  - destruct Hf as (Ek & Er & v & ET & Hn). rewrite Er in H. cbn [mbind option_bind] in H. rewrite ET in H.
    cbn [mbind option_bind] in H. destruct H as (-> & HF' & _ & Hq).
    eexists _, t', (delete k T). unfold do_op. split; [by erewrite bind_Ret by exact Hrun|]. split; [constructor|].
    eapply (represents_file T st t _ k None n); try done.
    + destruct Hn as (hd & data & -> & Hwf & Ha & _). rewrite header_of in Hq by done.
      unfold data_path, n_ino. rewrite <- Ha. exact Hq.
    + intros j Hj. by rewrite lookup_delete_ne.
    + rewrite lookup_delete_eq. constructor.
  - assert (r' = - ENOENT /\ FS T idle t' /\ forall q, file_at (t_st t').2 q = file_at (t_st t).2 q) as (-> & HF' & Hq).
    { destruct (resolve T path) as [k|]; cbn [mbind option_bind] in H; [by rewrite Hf in H|done]. }
    eexists _, t', T. unfold do_op. split; [by erewrite bind_Ret by exact Hrun|]. split; [constructor|].
    by eapply represents_same.
Qed.

Lemma rmdir_ok path st r st' : remove path st = Some (r, st') -> implements (OpRmdir path) st r st'.
Proof.
  unfold remove. intros ([Hp _] & _ & E)%bind_Some T t HR. pose proof HR as [HF HN _ _ _ _ _ _].
  destruct (RemoveDir_refines T idle t path HF Hp (rooms_all _ _ _ _ HR)) as (t' & r' & Hrun & H).
  { intros k _. apply closed_all. }
  pose proof (keeps_run _ _ _ _ _ (RemoveDir_calm path) Hrun) as Hc.
  pose proof (find_resolve T st t path HR) as Hf.
  destruct (find st path) as [[k n]|]; injection E as <- <-.
  - destruct Hf as (Ek & Er & v & ET & Hn). rewrite Er in H. cbn [mbind option_bind] in H. rewrite ET in H.
    cbn [mbind option_bind] in H. destruct H as [-> HF'].
    eexists _, t', (delete k T). unfold do_op. split; [by erewrite bind_Ret by exact Hrun|]. split; [constructor|].
    eapply represents_calm; try done. by apply nodes_delete.
  - assert (r' = - ENOENT /\ FS T idle t') as [-> HF'].
    { destruct (resolve T path) as [k|]; cbn [mbind option_bind] in H; [by rewrite Hf in H|done]. }
    eexists _, t', T. unfold do_op. split; [by erewrite bind_Ret by exact Hrun|]. split; [constructor|].
    by eapply represents_same.
Qed.

(** *** Renaming *)

Lemma node_rep_length t v n :
  node_rep t v n -> Z.of_nat (length v) <= 257 + Z.of_nat (length (n_name n)) + Z.of_nat (length (n_data n)).
Proof.
  intros (hd & data & -> & Hwf & _ & Hk). rewrite (length_mk hd _ Hwf). unfold n_data.
  destruct (n_kind n) as [c| |]; cbn in Hk.
  - destruct Hk as [_ [(_ & -> & _)|(_ & -> & _)]]; simpl; lia.
  - destruct Hk as [-> _]. lia.
  - subst data. simpl. lia.
Qed.

Lemma node_rep_rename t v n name :
  node_rep t v n -> Z.of_nat (length v) + Z.of_nat (length name) < 2 ^ 32 ->
  node_rep t (RenameInodeValue v name) (mkNode (n_attrs n) name (n_kind n)).
Proof.
  intros (hd & data & -> & Hwf & Ha & Hk) Hl. rewrite (length_mk hd _ Hwf) in Hl.
  exists (set_namelen (Z.of_nat (length name)) hd), data. cbn [n_name n_attrs n_kind].
  split; [apply (RenameInodeValue_mk hd _ Hwf); lia|]. split; [|by split].
  destruct Hwf as [(H1 & H2 & H3 & H4 & H5) _]. split; [|done].
  split_and!; try done; cbn; lia.
Qed.

Lemma rename_ok old_path new_path st r st' :
  rename old_path new_path st = Some (r, st') -> implements (OpRename old_path new_path) st r st'.
Proof.
  unfold rename. intros ([[Hp1 _] Hp2] & _ & E)%bind_Some T t HR. pose proof HR as [HF HN _ _ _ _ _ _].
  pose proof (represents_inos _ _ _ HR) as Hi. pose proof (find_resolve T st t old_path HR) as Hf.
  assert ((exists k n k' name, find st old_path = Some (k, n) /\ locate st new_path = Some (k', name)) \/
          (find st old_path = None \/ locate st new_path = None) /\ r = RCode (- ENOENT) /\ st' = st)
    as [(k & n & k' & name & E1 & E2)|(Hno & -> & ->)].
  { destruct (find st old_path) as [[k n]|]; [|right; simplify_eq; eauto].
    destruct (locate st new_path) as [[k' name]|]; [left; eauto 10|right; simplify_eq; eauto]. }
  - rewrite E1, E2 in *. apply bind_Some in E as ((Hne & Hnm & Hlen) & _ & [= <- <-]).
    destruct Hf as (Ek & Er & v & ET & Hn). pose proof (node_rep_length _ _ _ Hn) as Hl.
    pose proof (locate_resolve_name T st new_path k' name Hi E2 Hnm) as Er2.
    destruct (Rename_refines T t old_path new_path HF Hp1 Hp2) as (t' & r' & Hrun & H).
    { intros k1 k2 nm v1 A B C. simplify_eq. split; [done|lia]. }
    rewrite Er, Er2, ET in H. destruct H as [-> HF'].
    eexists _, t', _. unfold do_op. split; [by erewrite bind_Ret by exact Hrun|]. split; [constructor|].
    eapply represents_calm; [done|by eapply keeps_run, Hrun; apply _|exact HF'|].
    apply nodes_insert; [by apply nodes_delete|]. apply node_rep_rename; [done|lia].
  - assert (forall k1 v, resolve T old_path = Some k1 -> T !! k1 = Some v -> resolve_name T new_path = None) as Hmiss.
    { intros k1 v A B. destruct Hno as [Hno|Hno]; [|by eapply locate_None_name].
      rewrite Hno, A in Hf. congruence. }
    destruct (Rename_refines T t old_path new_path HF Hp1 Hp2) as (t' & r' & Hrun & H).
    { intros k1 k2 nm v A B C. by rewrite (Hmiss _ _ A C) in B. }
    assert (r' = - ENOENT /\ FS T idle t') as [-> HF'].
    { destruct (resolve T old_path) as [k1|]; [|done]. destruct (T !! k1) as [v|] eqn:ET.
      - by rewrite (Hmiss _ _ eq_refl ET) in H.
      - by destruct (resolve_name T new_path) as [[]|]. }
    eexists _, t', T. unfold do_op. split; [by erewrite bind_Ret by exact Hrun|]. split; [constructor|].
    eapply represents_same; [done| |done]. by eapply keeps_run, Hrun; apply _.
Qed.

(** *** Creating *)

Lemma attrs_fresh s inum mode dev w : fresh_stat s inum mode dev w -> attrs_of s = new_attrs inum mode dev w.
Proof. intros (old & now & ->). by destruct w as [[]|]. Qed.

(** The end of an operation that creates a node. *)
Lemma represents_new T st t k hd name data x t' :
  represents T st t -> newer t t' -> FS (<[k := mk_value hd name data]> T) idle t' -> value_wf hd name ->
  max_inode_num (t_st t').1 = max_inode_num (t_st t).1 + 1 ->
  kind_rep t hd data x ->
  let i := last_ino st + 1 in
  represents (<[k := mk_value hd name data]> T)
    (mkTree (<[k := mkNode (attrs_of (fstat hd)) name x]> (tree st)) i (who st) (limit st)) t'.
Proof.
  intros HR Hnw HF Hwf Hmax Hk i. pose proof HR as [_ HN HL _ _ _ _ _].
  eapply represents_newer; try done; cbn; [|lia|lia].
  apply nodes_insert; [done|]. by exists hd, data.
Qed.

Lemma make_ok path mode dev x st r st' T t :
  0 <= mode < 2 ^ 32 -> 0 <= dev < 2 ^ 64 -> x = File [] \/ x = Dir ->
  create path (fun i name => mkNode (new_attrs i mode dev (who st)) name x) st = Some (r, st') ->
  represents T st t ->
  exists r' t' T', make_inode env path mode dev t = Ret r' t' /\ r = RCode r' /\ represents T' st' t'.
Proof.
  unfold create. intros Hm Hd Hx ((Hp & Hmax) & _ & E)%bind_Some HR.
  pose proof HR as [HF HN HL HW _ Hrd Hth HU]. pose proof (represents_inos _ _ _ HR) as Hi. rewrite HL in Hmax.
  pose proof (make_inode_refines env T idle t path mode dev HF Hrd Hp Hm Hd Hmax) as H.
  destruct (locate st path) as [[k name]|] eqn:El.
  - apply bind_Some in E as ((Hfree & Hnm) & _ & [= <- <-]). rewrite (locate_resolve_name T st path k name Hi El Hnm) in H.
    destruct (H (nodes_absent _ _ _ _ HN Hfree)) as (t' & h & Hrun & HF' & Hwf & Hino & _ & Hsz & Hb & Hmax' & Hfr).
    exists 0, t', (<[k := mk_value h name []]> T). split; [done|]. split; [done|].
    rewrite HW, HL, <- (attrs_fresh _ _ _ _ _ Hfr), <- HL, <- HW.
    eapply represents_new; try done; [by eapply keeps_run, Hrun; apply _|].
    destruct Hx as [->| ->]; [|done]. split; [done|]. left. split_and!; try done; [simpl; lia|].
    rewrite Hino. apply HU. lia.
  - injection E as <- <-. rewrite (locate_None_name T st path Hi El) in H. destruct H as (t' & Hrun & HF' & Hst).
    exists (- ENOENT), t', T. split; [done|]. split; [done|].
    eapply represents_newer; try done; [by eapply keeps_run, Hrun; apply _|by rewrite Hst].
Qed.

Lemma symlink_ok target path st r st' :
  step (OpSymlink target path) st = Some (r, st') -> implements (OpSymlink target path) st r st'.
Proof.
  cbn [step]. intros ((Hb & Hnz & Hlt) & _ & E)%bind_Some T t HR. unfold create in E.
  apply bind_Some in E as ((Hp & Hmax) & _ & E).
  pose proof HR as [HF HN HL HW _ Hrd Hth HU]. pose proof (represents_inos _ _ _ HR) as Hi. rewrite HL in Hmax.
  pose proof (Symlink_refines env T idle t target path HF Hrd Hp Hb Hlt Hmax) as H. unfold do_op.
  destruct (locate st path) as [[k name]|] eqn:El.
  - apply bind_Some in E as ((Hfree & Hnm) & _ & [= <- <-]). rewrite (locate_resolve_name T st path k name Hi El Hnm) in H.
    destruct (H (nodes_absent _ _ _ _ HN Hfree)) as (t' & h & Hrun & HF' & Hwf & Hino & _ & Hbl & Hmax' & Hfr).
    eexists _, t', (<[k := mk_value h name target]> T). split; [by erewrite bind_Ret by exact Hrun|]. split; [constructor|].
    rewrite HW, HL, <- (attrs_fresh _ _ _ _ _ Hfr), <- HL, <- HW.
    eapply represents_new; try done; [by eapply keeps_run, Hrun; apply _|]. split_and!; try done. lia.
  - injection E as <- <-. rewrite (locate_None_name T st path Hi El) in H. destruct H as (t' & Hrun & HF' & Hst).
    eexists _, t', T. split; [by erewrite bind_Ret by exact Hrun|]. split; [constructor|].
    eapply represents_newer; try done; [by eapply keeps_run, Hrun; apply _|by rewrite Hst].
Qed.

Lemma find_missing T st t path : represents T st t -> find st path = None -> missing T path.
Proof. intros HR E. pose proof (find_resolve T st t path HR) as H. by rewrite E in H. Qed.

Lemma readlink_ok path size st r st' : read_link path size st = Some (r, st') -> implements (OpReadlink path size) st r st'.
Proof.
  unfold read_link. intros (([Hp _] & Hsz) & _ & E)%bind_Some T t HR. pose proof HR as [HF HN _ _ _ _ _ _].
  unfold do_op. destruct (find st path) as [[k n]|] eqn:Ef.
  - pose proof (find_resolve T st t path HR) as Hf. rewrite Ef in Hf.
    destruct Hf as (Ek & Er & v & ET & hd & data & -> & Hwf & _ & Hk).
    destruct (n_kind n) as [|target|]; try done. injection E as <- <-. destruct Hk as (-> & Hnz & Hlen).
    destruct (Readlink_refines T idle t path k hd (n_name n) target size) as (t' & Hrun & HF'); try done; [|lia|].
    { intros o h Eh. by eapply (fs_settled _ _ _ HF). }
    eexists _, t', T. split; [by erewrite bind_Ret by exact Hrun|]. split; [constructor|].
    eapply represents_same; [done| |done]. by eapply keeps_run, Hrun; apply _.
  - injection E as <- <-.
    destruct (Readlink_missing T idle t path size HF Hp (find_missing _ _ _ _ HR Ef)) as (t' & Hrun & HF').
    eexists _, t', T. split; [by erewrite bind_Ret by exact Hrun|]. split; [constructor|].
    eapply represents_same; [done| |done]. by eapply keeps_run, Hrun; apply _.
Qed.

(** *** Reading and writing *)

Lemma rw_O_RDWR : rw_flags O_RDWR.
Proof. by split. Qed.

(** Closing an open file: the node keeps its contents and its attributes. *)
Lemma close_node T t fh f h hd name data c :
  FS T (hold (fh_handle_ f) idle) t -> file_open (hold (fh_handle_ f) idle) t fh f h c -> clock_ok t ->
  value_ h = mk_value hd name data -> value_wf hd name ->
  exists t' hd', Release fh t = Ret 0 t' /\ FS (<[key_ h := mk_value hd' name data]> T) idle t' /\
    (forall q, file_at (t_st t').2 q = file_at (t_st t).2 q) /\ value_wf hd' name /\
    attrs_of (fstat hd') = attrs_of (fstat hd) /\ file_data t' hd' data c.
Proof.
  intros HF Hfo Hclk Hv Hwf.
  destruct (Release_refines T _ t fh f h c HF Hfo) as (t' & v' & Hrun & HF' & Hrep & _ & _ & Hq & _ & _ & Hv').
  { unfold hold, idle. by rewrite decide_True. } { done. }
  apply (FS_pins_ext _ _ idle) in HF'; [|apply idle_hold].
  assert (exists hd', v' = mk_value hd' name data /\ value_wf hd' name /\ attrs_of (fstat hd') = attrs_of (fstat hd))
    as (hd' & -> & Hwf' & Ha).
  { rewrite Hv in Hv'. destruct Hv' as [->|(a & b & Eu & Es)]; [by exists hd|].
    rewrite UpdateAttribute_mk in Eu. rewrite (GetAttribute_mk hd name Hwf) in *. eexists. split; [exact Eu|].
    split; [|done]. apply value_wf_fstat; [|done]. rewrite <- Es. apply wf_inode_stat. by eapply file_rep_wf. }
  exists t', hd'. split_and!; try done. by eapply file_rep_data.
Qed.

Lemma open_node T st t path k n c :
  represents T st t -> find st path = Some (k, n) -> n_kind n = File c ->
  exists t' fh f h, Open path O_RDWR t = Ret (0, Some fh) t' /\ FS T (hold (fh_handle_ f) idle) t' /\
    file_open (hold (fh_handle_ f) idle) t' fh f h c /\ key_ h = k /\ T !! k = Some (value_ h) /\ node_rep t (value_ h) n /\
    (t_st t').1 = (t_st t).1 /\ clock_ok t' /\
    (forall q, q <> data_path t (n_ino n) -> file_at (t_st t').2 q = file_at (t_st t).2 q).
Proof.
  intros HR Ef Ek. pose proof HR as [HF HN _ _ Hos Hrd _ _].
  pose proof (find_resolve T st t path HR) as Hf. rewrite Ef in Hf. destruct Hf as (_ & Er & v & ET & Hn).
  assert (path <> []) as Hp by by intros ->.
  assert (file_rep t v (-1) c) as Hrep.
  { destruct Hn as (hd & data & -> & Hwf & _ & Hk). rewrite Ek in Hk. by apply file_data_rep. }
  destruct (Open_refines T idle t path O_RDWR k v c HF Hp (rooms_all _ _ _ _ HR) Er ET Hos rw_O_RDWR Hrep)
    as (t' & fh & f & h & Hrun & HF' & Hfo & Hk & <- & Hst & Hck & Hq).
  exists t', fh, f, h. split_and!; try done.
  - unfold clock_ok. rewrite Hck. apply Hrd.
  - intros q Hne. apply Hq. by rewrite (node_rep_ino _ _ _ Hn).
Qed.

Lemma sane_clock t t' : sane t t' -> clock_ok t -> clock_ok t'.
Proof. intros H. apply (sn_os _ _ H). Qed.

(** The end of a session on one file. *)
Lemma session_end T st t T1 t' k n hd name data c' :
  represents T st t -> sane t t' -> tree st !! k = Some n -> T1 = <[k := mk_value hd name data]> T -> FS T1 idle t' ->
  (forall q, q <> data_path t (n_ino n) -> file_at (t_st t').2 q = file_at (t_st t).2 q) ->
  name = n_name n -> value_wf hd name -> file_data t' hd data c' ->
  attrs_of (fstat hd) = set_at_size (Z.of_nat (length c')) (n_attrs n) ->
  represents T1 (with_tree (<[k := mkNode (set_at_size (Z.of_nat (length c')) (n_attrs n)) (n_name n) (File c')]>
    (tree st)) st) t'.
Proof.
  intros HR Hs Ek -> HF Hq -> Hwf Hd Ha.
  eapply (represents_file T st t _ k (Some (mk_value hd (n_name n) data)) n); try done.
  - intros j Hj. by rewrite lookup_insert_ne.
  - rewrite lookup_insert_eq. constructor. by exists hd, data.
Qed.

(** Nothing changes when the contents stay. *)
Lemma session_same t v n c st k :
  node_rep t v n -> n_kind n = File c -> tree st !! k = Some n ->
  with_tree (<[k := mkNode (set_at_size (Z.of_nat (length c)) (n_attrs n)) (n_name n) (File c)]> (tree st)) st = st /\
  set_at_size (Z.of_nat (length c)) (n_attrs n) = n_attrs n.
Proof.
  intros (hd & data & _ & _ & Ha & Hk) E Et. rewrite E in Hk. destruct Hk as [Hsz _].
  assert (set_at_size (Z.of_nat (length c)) (n_attrs n) = n_attrs n) as Es.
  { rewrite <- Ha. unfold set_at_size, attrs_of. cbn. by rewrite Hsz. }
  split; [|done]. rewrite Es, <- E.
  replace (mkNode (n_attrs n) (n_name n) (n_kind n)) with n by by destruct n.
  rewrite insert_id by done. by destruct st.
Qed.

Lemma find_tree st path k n : find st path = Some (k, n) -> tree st !! k = Some n.
Proof.
  unfold find. destruct (locate st path) as [[k' ?]|]; [|done]. cbn.
  destruct (tree st !! k') eqn:E; [|done]. cbn. by intros [= <- <-].
Qed.

(** A resize that [resizes] allows does not make the inode longer. *)
Lemma resizes_inline t T k hd name data c size :
  FS T idle t -> T !! k = Some (mk_value hd name data) -> value_wf hd name -> file_data t hd data c ->
  0 <= threshold_ (t_st t).1 -> resizes (threshold_ (t_st t).1) size c ->
  let d := inline_part (threshold_ (t_st t).1) size c in
  (has_blob hd = 0 -> size <= threshold_ (t_st t).1) /\ bytes_ok d /\ (length d <= length data)%nat.
Proof.
  intros HF ET Hwf Hk Hth Hrs. cbv zeta.
  assert (bytes_ok data) as Hb.
  { pose proof HF as [(m & HI & _) _ _ _ _].
    pose proof (ic_table _ _ _ _ _ _ _ (ic_view _ _ _ _ HI) _ _ ET) as [_ [Hb _]]. unfold mk_value in Hb. apply Forall_app in Hb as [_ Hb].
    apply Forall_app in Hb as [_ Hb]. by apply Forall_cons_1 in Hb as [_ Hb]. }
  destruct Hk as [Hsz Hcase]. unfold inline_part.
  destruct (size >? threshold_ (t_st t).1) eqn:E; bool_to_prop.
  - split; [|by split; [constructor|cbn; lia]]. intros H0. destruct Hcase as [(_ & _ & ? & _)|(H1 & _)]; [|congruence].
    destruct Hrs as [->|[|]]; lia.
  - split; [lia|]. destruct Hcase as [(_ & -> & ? & _)|(_ & _ & _ & ?)]; destruct Hrs as [->|[|]]; try lia;
      rewrite ?length_str_resize; (split; [|cbn; lia]); auto with tfs.
Qed.

Lemma truncate_ok path size st r st' :
  truncate_file path size st = Some (r, st') -> implements (OpTruncate path size) st r st'.
Proof.
  unfold truncate_file. intros ([Hp _] & _ & E)%bind_Some T t HR. pose proof HR as [HF _ _ _ Hos Hrd [Hli Hth] _].
  pose proof (find_resolve T st t path HR) as Hf. destruct (find st path) as [[k n]|] eqn:Ef.
  - destruct (n_kind n) as [c| |] eqn:Ekd; try done. apply bind_Some in E as ((Hrs & Hl) & _ & [= <- <-]).
    destruct Hf as (Ek & Er & v & ET & Hn). pose proof Hn as (hd & data & -> & Hwf & Ha & Hk). rewrite Ekd in Hk.
    rewrite Hli in Hrs. assert (0 <= size) as Hsz by (destruct Hrs as [->|[|]]; lia).
    destruct (resizes_inline t T k hd (n_name n) data c size HF ET Hwf Hk ltac:(lia) Hrs) as (Hside & Hib & Hil).
    destruct (Truncate_refines env T idle t path size k hd (n_name n) data c) as (t' & Hrun & [(hd' & data' & Hwf' & Es & HF' & Hrep) _ _ Hq]);
      try done; [by eapply rooms_all|by apply file_data_rep|apply Hrd| |].
    { apply (rd_strings _ _ Hrd). rewrite !(length_mk hd _ Hwf). lia. }
    eexists _, t', _. split; [unfold do_op; by erewrite bind_Ret by exact Hrun|]. split; [constructor|].
    set (c' := str_resize c (Z.to_nat size)). assert (size = Z.of_nat (length c')) as Esz
      by (unfold c'; rewrite length_str_resize; lia).
    rewrite Esz at 1. eapply session_end; try done.
    + by eapply keeps_run, Hrun; apply _.
    + intros q Hne. apply Hq. unfold data_file, data_path, n_ino in *. by rewrite <- Ha in Hne.
    + eapply file_rep_data; [done|exact Hrep].
    + rewrite Es, <- Ha, <- Esz. done.
  - destruct (Truncate_missing env T idle t path size HF Hp (rooms_all _ _ _ _ HR)) as (t' & Hrun & HF' & Hq).
    { by destruct (resolve T path) as [k|]; [|done]. }
    injection E as <- <-.
    eexists _, t', T. unfold do_op. split; [by erewrite bind_Ret by exact Hrun|]. split; [constructor|].
    eapply represents_same; [done| |done]. split; [by eapply keeps_run, Hrun; apply _|done].
Qed.

Lemma read_ok path size offset st r st' :
  read_file path size offset st = Some (r, st') -> implements (OpRead path size offset) st r st'.
Proof.
  unfold read_file. intros ([Hp _] & _ & E)%bind_Some T t HR. pose proof HR as [HF _ _ _ _ _ _ _].
  destruct (find st path) as [[k n]|] eqn:Ef.
  - destruct (n_kind n) as [c| |] eqn:Ekd; try done. apply bind_Some in E as ((Hsz & Ho & Hc) & _ & [= <- <-]).
    destruct (open_node T st t path k n c HR Ef Ekd)
      as (t1 & fh & f & h & Hopen & HF1 & Hfo1 & Hk & ET & Hn & Hst1 & Hclk1 & Hq1).
    destruct (Read_refines T _ t1 fh f h c size offset HF1 Hfo1 Hsz Ho Hc) as (t2 & f' & Hread & HF2 & Hfo2 & Hff & Hq2).
    rewrite <- Hff in HF2, Hfo2. pose proof (keeps_run _ _ _ _ _ (Read_sane _ _ _) Hread) as Hs2.
    pose proof Hn as (hd & data & Hv & Hwf & Ha & _).
    destruct (close_node T t2 fh f' h hd (n_name n) data c HF2 Hfo2 (sane_clock _ _ Hs2 Hclk1) Hv Hwf)
      as (t3 & hd' & Hrel & HF3 & Hq3 & Hwf' & Ha' & Hd'). rewrite Hk in HF3.
    destruct (session_same _ _ _ _ st k Hn Ekd (find_tree _ _ _ _ Ef)) as [<- Hsame].
    eexists _, t3, (<[k := mk_value hd' (n_name n) data]> T). split; [|split; [constructor|]].
    + cbn [do_op]. erewrite bind_Ret by exact Hopen. cbv iota beta. erewrite bind_Ret by exact Hread.
      cbv iota beta. by erewrite bind_Ret by exact Hrel.
    + eapply session_end; try done.
      * transitivity t1; [by eapply keeps_run, Hopen; apply _|].
        transitivity t2; [done|by eapply keeps_run, Hrel; apply _].
      * by eapply find_tree.
      * intros q Hne. rewrite Hq3, Hq2, Hq1; [done|done|]. by rewrite Hst1, (node_rep_ino _ _ _ Hn).
      * by rewrite Ha', Ha, Hsame.
  - injection E as <- <-.
    destruct (Open_missing T idle t path O_RDWR HF Hp (rooms_all _ _ _ _ HR) (find_missing _ _ _ _ HR Ef)) as (t' & Hrun & HF' & Hq).
    eexists _, t', T. split; [cbn [do_op]; by erewrite bind_Ret by exact Hrun|]. split; [constructor|].
    eapply represents_same; [done| |done]. split; [|done]. by eapply keeps_run, Hrun; apply _.
Qed.

(** [Write] on the file of a node that was just opened. *)
Lemma write_node T t t1 fh f h n c buf offset :
  FS T (hold (fh_handle_ f) idle) t1 -> file_open (hold (fh_handle_ f) idle) t1 fh f h c ->
  node_rep t (value_ h) n -> n_kind n = File c -> (t_st t1).1 = (t_st t).1 -> 0 <= threshold_ (t_st t).1 < 2 ^ 62 ->
  bytes_ok buf -> 0 <= offset -> writes_through c buf offset ->
  257 + Z.of_nat (length (n_name n)) + 2 * Z.of_nat (length c) + (offset + Z.of_nat (length buf)) < 2 ^ 31 ->
  let c' := write_at c (Z.to_nat offset) buf in
  exists t2 f' hd data, Write fh buf offset O_RDWR t1 = Ret (Z.of_nat (length buf)) t2 /\
    let h' := mkICH (key_ h) (mk_value hd (n_name n) data) INODE_WRITE (pointer h) in
    FS (<[key_ h := mk_value hd (n_name n) data]> T) (hold (fh_handle_ f') idle) t2 /\
    file_open (hold (fh_handle_ f') idle) t2 fh f' h' c' /\ value_wf hd (n_name n) /\
    attrs_of (fstat hd) = set_at_size (Z.of_nat (length c')) (n_attrs n) /\
    (forall q, q <> data_path t (n_ino n) -> file_at (t_st t2).2 q = file_at (t_st t1).2 q).
Proof.
  intros HF Hfo Hn Hkd Hst Hth Hb Hoff Hthru Hlen c'.
  pose proof (node_rep_length _ _ _ Hn) as Hl. unfold n_data in Hl. rewrite Hkd in Hl.
  destruct (Write_refines T _ t1 fh f h c buf offset O_RDWR HF Hfo rw_O_RDWR Hb Hoff Hthru)
    as (t2 & hd0 & name & Hhd & Hrun & [(f' & Ef' & Hf1 & Hf2 & hd & data & Hwf & HF2 & Eh2 & Hstat & Hrep) (d0 & Hv0 & Hwf0) Hof Hos _]);
    [by rewrite Hst|lia|].
  destruct Hn as (hd1 & d1 & Hv1 & Hwf1 & Ha & Hk). rewrite Hv1 in Hv0.
  destruct (mk_value_inj _ _ _ _ _ _ Hwf1 Hwf0 Hv0) as (<- & <- & _).
  exists t2, f', hd, data. split; [done|]. cbv zeta. rewrite Hf1. split; [done|]. split; [|split; [done|split]].
  - destruct Hfo as [E1 E2 E3 E4 E5 E6]. split; cbn; rewrite ?Hf1, ?Hf2; try done.
  - pose proof (file_rep_size _ _ _ _ _ _ Hwf Hrep) as Hsz. fold c' in Hsz.
    unfold set_at_size, attrs_of in *. rewrite <- Ha, <- Hsz, Hstat. done.
  - intros q Hq. apply Hof. unfold data_file, data_path, n_ino in *. rewrite Hst. rewrite <- Ha in Hq. exact Hq.
Qed.

Lemma write_ok path buf offset st r st' :
  write_file path buf offset st = Some (r, st') -> implements (OpWrite path buf offset) st r st'.
Proof.
  unfold write_file. intros ([Hp _] & _ & E)%bind_Some T t HR. pose proof HR as [HF _ _ _ _ _ [Hli Hth] _]. rewrite Hli in Hth.
  destruct (find st path) as [[k n]|] eqn:Ef.
  - destruct (n_kind n) as [c| |] eqn:Ekd; try done. apply bind_Some in E as ((Hb & Ho & Hthru & Hl) & _ & [= <- <-]).
    destruct (open_node T st t path k n c HR Ef Ekd)
      as (t1 & fh & f & h & Hopen & HF1 & Hfo1 & Hk & ET & Hn & Hst1 & Hclk1 & Hq1).
    destruct (write_node T t t1 fh f h n c buf offset HF1 Hfo1 Hn Ekd Hst1 Hth Hb Ho Hthru Hl)
      as (t2 & f' & hd & data & Hwrite & HF2 & Hfo2 & Hwf & Ha & Hq2).
    pose proof (keeps_run _ _ _ _ _ (Write_sane _ _ _ _) Hwrite) as Hs2.
    destruct (close_node _ t2 fh f' _ hd (n_name n) data _ HF2 Hfo2 (sane_clock _ _ Hs2 Hclk1) eq_refl Hwf)
      as (t3 & hd' & Hrel & HF3 & Hq3 & Hwf' & Ha' & Hd'). cbn [key_] in HF3. rewrite Hk, insert_insert_eq in HF3.
    eexists _, t3, (<[k := mk_value hd' (n_name n) data]> T). split; [|split; [constructor|]].
    + cbn [do_op]. erewrite bind_Ret by exact Hopen. cbv iota beta. erewrite bind_Ret by exact Hwrite.
      by erewrite bind_Ret by exact Hrel.
    + eapply session_end; try done.
      * transitivity t1; [by eapply keeps_run, Hopen; apply _|].
        transitivity t2; [done|by eapply keeps_run, Hrel; apply _].
      * by eapply find_tree.
      * intros q Hne. by rewrite Hq3, Hq2, Hq1.
      * by rewrite Ha', Ha.
  - injection E as <- <-.
    destruct (Open_missing T idle t path O_RDWR HF Hp (rooms_all _ _ _ _ HR) (find_missing _ _ _ _ HR Ef)) as (t' & Hrun & HF' & Hq).
    eexists _, t', T. split; [cbn [do_op]; by erewrite bind_Ret by exact Hrun|]. split; [constructor|].
    eapply represents_same; [done| |done]. split; [|done]. by eapply keeps_run, Hrun; apply _.
Qed.

(** *** Listing *)

Lemma accepts_ret : accepts (fun _ => ret 0 : prog (tfs S) Z).
Proof. intros n t. by exists 0. Qed.

(** The entries of a directory in the table and in the tree. *)
Lemma entries_perm T st t ino (ks : list (tfs_meta_key_t * bytes)) :
  nodes_rep t T (tree st) -> NoDup ks.*1 -> (forall k v, (k, v) ∈ ks <-> T !! k = Some v /\ inode_id k = ino) ->
  dir_name <$> ks.*2 ≡ₚ (fun e => c_str (n_name e)) <$> entries_of st ino.
Proof.
  intros HN Hnd Hks. unfold entries_of.
  set (L := map_to_list (filter (fun kn => inode_id kn.1 = ino) (tree st))).
  assert (ks.*1 ≡ₚ L.*1) as Hp.
  { apply NoDup_Permutation; [done|apply NoDup_fst_map_to_list|]. intros k. rewrite !list_elem_of_fmap. split.
    - intros ([k' v] & -> & [ET Hi]%Hks). cbn. pose proof (HN k') as H. rewrite ET in H.
      inversion H as [? n Hn Ev En|]; subst. exists (k', n). split; [done|].
      apply elem_of_map_to_list, map_lookup_filter_Some. done.
    - intros ([k' n] & -> & Hin). apply elem_of_map_to_list, map_lookup_filter_Some in Hin as [En Hi].
      destruct (nodes_lookup _ _ _ _ _ HN En) as (v & ET & _). exists (k', v). split; [done|]. by apply Hks. }
  set (name := fun k => default [] (dir_name <$> T !! k)).
  assert (dir_name <$> ks.*2 = name <$> ks.*1) as ->.
  { rewrite <- !list_fmap_compose. apply list_fmap_ext. intros i [k v] Hin%list_elem_of_lookup_2. cbn.
    apply Hks in Hin as [ET _]. unfold name. by rewrite ET. }
  assert ((fun e => c_str (n_name e)) <$> L.*2 = name <$> L.*1) as ->.
  { rewrite <- !list_fmap_compose. apply list_fmap_ext. intros i [k n] Hin%list_elem_of_lookup_2. cbn.
    apply elem_of_map_to_list, map_lookup_filter_Some in Hin as [En _].
    destruct (nodes_lookup _ _ _ _ _ HN En) as (v & ET & hd & data & -> & Hwf & _). unfold name. rewrite ET. cbn.
    unfold dir_name. unfold mk_value. rewrite drop_app_length' by (by rewrite length_header_bytes by apply Hwf).
    symmetry. apply c_str_stop. }
  by rewrite Hp.
Qed.

Lemma list_ok path rounds st r st' : list_dir path rounds st = Some (r, st') -> implements (OpList path rounds) st r st'.
Proof.
  unfold list_dir. intros ([Hp _] & _ & ([k n] & Ef & ((Hne & Hlen) & _ & [= <- <-])%bind_Some)%bind_Some)%bind_Some T t HR.
  pose proof HR as [HF HN _ _ _ _ _ _]. pose proof (find_resolve T st t path HR) as Hf. rewrite Ef in Hf.
  destruct Hf as (Ek & Er & v & ET & Hn).
  pose proof (OpenDir_refines T idle t path HF Hp (rooms_all _ _ _ _ HR)) as Ho. unfold lookup_path in Ho.
  rewrite Er in Ho. cbn [mbind option_bind] in Ho. rewrite ET in Ho.
  destruct Ho as (t1 & o & h & Hopen & HF1 & Eh & Hv & Hm).
  assert (forall x hx, handles t1 !! x = Some hx -> mode_ hx = INODE_READ) as Hread.
  { intros x hx Ex. destruct (decide (x = o)) as [->|Hx]; [by simplify_eq; apply Hm|].
    eapply (fs_settled _ _ _ HF1); [done|]. unfold hold, idle. by rewrite decide_False. }
  destruct (ReadDir_complete T _ t1 o h (fun _ => ret 0) HF1 Eh Hread accepts_ret) as (ks & Hnd & Hks & Hlist).
  { by rewrite Hv, (node_rep_ino _ _ _ Hn). }
  rewrite Hv, (node_rep_ino _ _ _ Hn) in Hks. pose proof (entries_perm T st t (n_ino n) ks HN Hnd Hks) as Hperm.
  assert (length ks < rounds)%nat as Hr.
  { apply Permutation_length in Hperm. rewrite !length_fmap in Hperm. lia. }
  destruct (Hlist rounds Hr) as (t2 & Hrun & HF2 & Hh2).
  destruct (ReleaseDir_refines T _ t2 o h HF2) as (t3 & Hrel & HF3 & _); [by rewrite Hh2| | |].
  { unfold hold, idle. rewrite decide_True by done. lia. } { intros _. by apply Hm. }
  apply (FS_pins_ext _ _ idle) in HF3; [|apply idle_hold].
  eexists _, t3, T. split; [|split].
  - cbn [do_op]. erewrite bind_Ret by exact Hopen. cbv iota beta. erewrite bind_Ret by exact Hrun.
    by erewrite bind_Ret by exact Hrel.
  - apply agrees_names, (Permutation_app_head [str "."; str ".."]). unfold dir_names. by rewrite Hperm.
  - eapply represents_same; [done| |done]. transitivity t1; [by eapply keeps_run, Hopen; apply _|].
    transitivity t2; [by eapply keeps_run, Hrun; apply _|by eapply keeps_run, Hrel; apply _].
Qed.

(** ** Histories *)

Lemma code_ok {A} (p : prog (tfs S) Z) (f : Z -> A) t r t' : p t = Ret r t' -> bind p (fun x => ret (f x)) t = Ret (f r) t'.
Proof. intros E. by erewrite bind_Ret by exact E. Qed.

Lemma step_ok o st r st' : step o st = Some (r, st') -> implements o st r st'.
Proof.
  destruct o; cbn [step]; intros E.
  - apply bind_Some in E as ((Hm & Hd) & _ & E). intros T t HR.
    destruct (make_ok _ _ _ _ _ _ _ T t Hm Hd ltac:(by left) E HR) as (r' & t' & T' & Hrun & -> & HR').
    exists (RCode r'), t', T'. split; [by apply (code_ok _ RCode)|]. split; [constructor|done].
  - apply bind_Some in E as (Hm & _ & E). intros T t HR.
    destruct (make_ok _ _ 0 _ _ _ _ T t Hm ltac:(lia) ltac:(by right) E HR) as (r' & t' & T' & Hrun & -> & HR').
    exists (RCode r'), t', T'. split; [by apply (code_ok _ RCode)|]. split; [constructor|done].
  - by apply symlink_ok.
  - by apply readlink_ok.
  - by apply getattr_ok.
  - apply bind_Some in E as (Hm & _ & E). intros T t HR.
    destruct (change_ok path true (set_st_mode mode) _ _ _ _ T t E) as (r' & t' & T' & Hrun & -> & HR'); try done.
    { intros s Hs. by apply stat_ok_mode. }
    exists (RCode r'), t', T'. split; [by apply (code_ok _ RCode)|]. split; [constructor|done].
  - apply bind_Some in E as ((Hu & Hg) & _ & E). intros T t HR.
    destruct (change_ok path false (set_st_owner uid gid) _ _ _ _ T t E) as (r' & t' & T' & Hrun & -> & HR'); try done.
    { intros s Hs. by apply stat_ok_owner. }
    exists (RCode r'), t', T'. split; [by apply (code_ok _ RCode)|]. split; [constructor|done].
  - apply bind_Some in E as (Ht & _ & E). intros T t HR.
    destruct (change_ok path true (set_st_times atime.1 atime.2 mtime.1 mtime.2) _ _ _ _ T t E)
      as (r' & t' & T' & Hrun & -> & HR'); try done.
    { intros s Hs. by apply stat_ok_times. }
    exists (RCode r'), t', T'. split; [by apply (code_ok _ RCode)|]. split; [constructor|done].
  - by apply truncate_ok.
  - by apply unlink_ok.
  - by apply rmdir_ok.
  - by apply rename_ok.
  - by apply write_ok.
  - by apply read_ok.
  - by apply list_ok.
Qed.

Lemma steps_ok os st rs st' T t :
  steps os st = Some (rs, st') -> represents T st t ->
  exists rs' t' T', do_ops os t = Ret rs' t' /\ Forall2 agrees rs rs' /\ represents T' st' t'.
Proof.
  revert st rs T t. induction os as [|o os IH]; intros st rs T t E HR; cbn [steps] in E.
  - injection E as <- <-. exists [], t, T. split; [done|]. split; [constructor|done].
  - apply bind_Some in E as ([r st1] & E1 & ([rs1 st2] & E2 & [= <- <-])%bind_Some).
    destruct (step_ok _ _ _ _ E1 T t HR) as (r' & t1 & T1 & Hrun & Hr & HR1).
    destruct (IH _ _ _ _ E2 HR1) as (rs' & t2 & T2 & Hruns & Hrs & HR2).
    exists (r' :: rs'), t2, T2. split; [|split; [by constructor|done]].
    cbn [do_ops]. erewrite bind_Ret by exact Hrun. by erewrite bind_Ret by exact Hruns.
Qed.

(** The first mount of an empty store and an empty data directory. *)
Lemma represents_mount (m : gmap bytes bytes) t conn :
  unmounted m ∅ t -> IsEmpty (t_st t).1 = true -> ready env t -> os_wf (t_st t).2 ->
  0 <= (env_root_stat env).1 < 2 ^ 32 -> 0 <= (env_root_stat env).2 < 2 ^ 64 ->
  0 <= threshold_ (t_st t).1 < 2 ^ 62 ->
  (forall i, 0 < i < 2 ^ 31 -> file_at (t_st t).2 (data_path t i) = None) ->
  exists t' T, Init env conn t = Ret true t' /\
    represents T (new_tree (env_root_stat env).1 (env_root_stat env).2 (if conn then Some (t_context t) else None)
      (threshold_ (t_st t).1)) t'.
Proof.
  intros Hun He Hrd Hos Hm Hd Hth Hno.
  destruct (Init_first env m t conn Hun He Hrd Hm Hd)
    as (t' & h & Hrun & HF & Hwf & _ & _ & Hst & Hos' & Hctx & Hck & Hq & Hfl & Hsz & Hb & Hfr).
  exists t', {[root_key := mk_value h [] []]}. split; [done|]. split; try done; cbn [new_tree tree last_ino who limit].
  - intros k. destruct (decide (k = root_key)) as [->|Hne]; [|rewrite !lookup_singleton_ne by done; constructor].
    rewrite !lookup_singleton_eq. constructor. exists h, []. split; [done|]. split; [done|]. split; [|done].
    cbn [n_attrs]. by rewrite (attrs_fresh _ _ _ _ _ Hfr).
  - rewrite Hst. unfold IsEmpty in He. lia.
  - unfold caller. by rewrite Hfl, Hctx.
  - auto.
  - destruct Hrd as [R1 R2 R3 R4]. split; [done|rewrite Hck; by destruct R2|by rewrite Hctx|done].
  - rewrite Hst. by split.
  - intros i Hi. unfold data_path in *. rewrite Hst, Hq. by apply Hno.
Qed.
(** ** The bytes of the store *)

(** What the bytes of a stored inode say, read through the accessors of the code:
    the name lies between the header and its NUL, the rest are the inline data, and
    a file's data are there or in its data file, never both. *)
Definition value_typed t (v : bytes) (n : node) : Prop :=
  let hd := GetInodeHeader v in
  let start := Z.to_nat (inline_start v) in
  (start <= length v)%nat /\ v !! (start - 1)%nat = Some 0 /\
  slice TFS_INODE_HEADER_SIZE (Z.to_nat (namelen hd)) v = n_name n /\
  attrs_of (GetAttribute v) = n_attrs n /\
  match n_kind n with
  | File c => st_size (GetAttribute v) = Z.of_nat (length c) /\
      if has_blob hd =? 0 then drop start v = c /\ file_at (t_st t).2 (data_path t (n_ino n)) = None
      else has_blob hd = 1 /\ drop start v = [] /\ file_at (t_st t).2 (data_path t (n_ino n)) = Some c
  | Link target => drop start v = target
  | Dir => drop start v = []
  end.

Lemma mk_value_parts hd name data :
  value_wf hd name ->
  let v := mk_value hd name data in let start := Z.to_nat (inline_start v) in
  drop start v = data /\ v !! (start - 1)%nat = Some 0 /\ (start <= length v)%nat /\
  slice TFS_INODE_HEADER_SIZE (Z.to_nat (namelen hd)) v = name.
Proof.
  intros Hwf v start. assert (length (header_bytes hd) = 256%nat) as Hl by (rewrite length_header_bytes; [done|apply Hwf]).
  assert (start = 257 + length name)%nat as -> by (unfold start, v; rewrite (inline_start_mk _ _ Hwf); lia).
  unfold v, mk_value. split_and!.
  - rewrite (app_assoc _ name), (cons_middle 0), (app_assoc _ [0]). apply drop_app_length'. rewrite !length_app, Hl. simpl. lia.
  - rewrite lookup_app_r, lookup_app_r by lia.
    by replace (257 + length name - 1 - length (header_bytes hd) - length name)%nat with 0%nat by lia.
  - rewrite !length_app, Hl. simpl. lia.
  - destruct Hwf as [_ ->]. unfold slice. rewrite drop_app_length' by done. rewrite Nat2Z.id. apply take_app_length.
Qed.

Lemma node_rep_typed t v n : node_rep t v n -> value_typed t v n.
Proof.
  intros (hd & data & -> & Hwf & Ha & Hk). destruct (mk_value_parts hd (n_name n) data Hwf) as (Hd & Hz & Hl & Hn).
  unfold value_typed. rewrite (GetInodeHeader_mk _ _ Hwf), (GetAttribute_mk hd _ Hwf), Hd. split_and!; try done.
  unfold n_ino. rewrite <- Ha. destruct (n_kind n) as [c| |]; [|by apply Hk|done].
  destruct Hk as (Hsz & [(Hb & -> & _ & Hf)|(Hb & -> & Hf & _)]); (split; [done|]); rewrite Hb; done.
Qed.

(** With nothing open, the store holds the nodes of the tree and nothing else. *)
Lemma represents_store T st t :
  represents T st t ->
  exists m : gmap bytes bytes, kv_rep (w_metadb (t_ic t).2) m /\
    (forall b v, m !! b = Some v ->
       exists k n, b = ToSlice k /\ key_ok k /\ tree st !! k = Some n /\ value_typed t v n) /\
    (forall k n, tree st !! k = Some n -> exists v, m !! ToSlice k = Some v /\ value_typed t v n).
Proof.
  intros [HFS Hn _ _ _ _ _ _]. pose proof HFS as [(m & HI & Hso) _ Hset Htab _]. exists m. split; [apply HI|].
  assert (forall k, key_ok k -> m !! ToSlice k = T !! k) as Hmt.
  { intros k' Hk'. eapply (store_is_table m T idle t); [done| |done]. intros o h Eh.
    split; [by eapply Hset|by eapply Htab]. }
  split.
  - intros b v Hb. destruct (so_keys _ _ Hso _ _ Hb) as (k & Hk & ->). rewrite Hmt in Hb by done.
    specialize (Hn k). rewrite Hb in Hn. inversion Hn as [? n Hr E1 E2|]; subst. exists k, n.
    split_and!; try done. by apply node_rep_typed.
  - intros k n Hk. destruct (nodes_lookup _ _ _ _ _ Hn Hk) as (v & HT & Hr). exists v.
    pose proof (ic_table _ _ _ _ _ _ _ (ic_view _ _ _ _ HI) _ _ HT) as [Hok _].
    rewrite Hmt by done. split; [done|]. by apply node_rep_typed.
Qed.

End history.
