(* ===== verification/FsRemount.v ===== *)
(** Unmounting and mounting again: what [Destroy] leaves on disk is what the next
    process finds.

    A process that has ended leaves the files of the data directory and the
    contents of the store; its caches, descriptors and open files are gone. *)

From Stdlib Require Import RelationClasses.
From S2P Require Import Prelude Hashes Coding WriteBatch Inode DCache Cache Kv ICache Teardown Posix Properties State TableFS FsInv FsOps FsRename FsFile FsTruncate FsDir FsFrame FsMount FsSpec FsHistory.

Set Default Proof Using "Type".

(** * What never changes while a process runs *)

Section config.
Context {S It : Type} `{!KvWrapper S It} (env : environment).
Implicit Types t : tfs S.

Record fixed t t' : Prop := {
  fx_datadir : datadir_ (t_st t').1 = datadir_ (t_st t).1;
  fx_threshold : threshold_ (t_st t').1 = threshold_ (t_st t).1;
  fx_context : t_context t' = t_context t
}.

#[global] Instance fixed_preorder : PreOrder fixed.
Proof. split; [by split|]. intros t1 t2 t3 [A1 A2 A3] [B1 B2 B3]. split; congruence. Qed.

Lemma newer_fixed {A} (p : prog (tfs S) A) : Keeps newer p -> Keeps fixed p.
Proof. intros H s a s' E. by destruct (H s a s' E). Qed.

Lemma sane_fixed {A} (p : prog (tfs S) A) : Keeps sane p -> Keeps fixed p.
Proof. intros H s a s' E. by destruct (H s a s' E). Qed.

#[local] Hint Resolve newer_fixed sane_fixed : typeclass_instances.

#[global] Instance do_op_fixed o : Keeps fixed (do_op env o).
Proof. unfold do_op, MakeNode, MakeDir, Chmod, Chown, UpdateTimens. keeps_tac. Qed.

#[global] Instance Init_fixed conn : Keeps fixed (Init env conn : prog (tfs S) bool).
Proof.
  unfold Init. keeps_tac; apply keeps_modify; by intros t.
Qed.

#[global] Instance do_ops_fixed os : Keeps fixed (do_ops env os).
Proof. induction os; cbn [do_ops]; keeps_tac. Qed.
End config.

(** * Unmounting *)

Section unmount.
Context {S It : Type} `{!KvWrapper S It, !KvSpec S It, !KvDurable S It} (env : environment).
Implicit Types (T : table) (t : tfs S) (st : fstree) (m : gmap bytes bytes).

(** Questions to the store change nothing. *)
Lemma metadb_query {A} (p : prog S A) T st t :
  (forall s m, kv_rep s m -> exists a s', p s = Ret a s' /\ kv_rep s' m) -> represents env T st t ->
  exists a t', metadb p t = Ret a t' /\ represents env T st t'.
Proof.
  intros Hp HR. destruct (rp_fs _ _ _ _ HR) as [(m & HI & Hso) Hdc Hset Htab Hd].
  destruct (Hp _ m (ic_rep _ _ _ _ HI)) as (a & s' & Hrun & Hrep).
  pose proof (in_metadb_Ret p t a s' Hrun) as Hm. eexists _, _. split; [exact Hm|].
  eapply represents_same; [done|by eapply keeps_run, Hm; apply _|]. split; try done.
  exists m. split; [|done]. apply IC_put_metadb; [done|]. by destruct (t_ic t).
Qed.

Lemma clock_query T st t : represents env T st t -> exists z t', in_os os_time t = Ret z t' /\ represents env T st t'.
Proof.
  intros HR. pose proof (in_os_Ret os_time t _ _ eq_refl) as Hm. eexists _, _. split; [exact Hm|].
  eapply represents_same; [done|by eapply keeps_run, Hm; apply _|].
  destruct (rp_fs _ _ _ _ HR) as [Hic Hdc Hset Htab [[D1 D2 D3 D4] Hi]]. by split; [..|split].
Qed.

Lemma take_times_ok n T st t :
  represents env T st t -> exists t', take_times n t = Ret tt t' /\ represents env T st t'.
Proof.
  revert t. induction n as [|n IH]; intros t HR; cbn [take_times]; [by exists t|].
  destruct (clock_query T st t HR) as (z & t1 & H1 & HR1). destruct (IH t1 HR1) as (t2 & H2 & HR2).
  exists t2. split; [by erewrite bind_Ret by exact H1|done].
Qed.

(** The statistics [Destroy] prints first. *)
Lemma reports_ok T st t :
  represents env T st t -> exists t', (do_monitor ;;; report_get_count) t = Ret tt t' /\ represents env T st t'.
Proof using Type*.
  intros HR. destruct (metadb_query kv_GetMetric T st t) as ([ok x] & t1 & H1 & HR1); [apply kv_GetMetric_spec|done|].
  assert (exists t2, do_monitor t = Ret tt t2 /\ represents env T st t2) as (t2 & H2 & HR2).
  { unfold do_monitor. erewrite bind_Ret by exact H1. cbv iota beta. destruct ok; [|by exists t1].
    destruct (clock_query T st t1 HR1) as (z & t2 & H2 & HR2). exists t2. by erewrite bind_Ret by exact H2. }
  erewrite bind_Ret by exact H2. unfold report_get_count.
  destruct (metadb_query (kv_GetStat (str "leveldb.get_count_by_num_files")) T st t2) as ([ok3 x3] & t3 & H3 & HR3);
    [intros s m; apply kv_GetStat_spec|done|]. erewrite bind_Ret by exact H3. cbv iota beta.
  assert (exists t4, (if ok3 then take_times 20 else ret tt) t3 = Ret tt t4 /\ represents env T st t4) as (t4 & H4 & HR4).
  { destruct ok3; [by apply take_times_ok|by exists t3]. }
  erewrite bind_Ret by exact H4.
  destruct (metadb_query (kv_GetStat (str "leveldb.false_get_count_by_num_files")) T st t4) as ([ok5 x5] & t5 & H5 & HR5);
    [intros s m; apply kv_GetStat_spec|done|]. erewrite bind_Ret by exact H5. cbv iota beta.
  destruct ok5; [by apply take_times_ok|by exists t5].
Qed.

(** An unused file system is all in the store. *)
Lemma FS_stored T t :
  FS T idle t -> exists m, kv_rep (w_metadb (t_ic t).2) m /\ IC m T idle (t_ic t) /\ mirrors m T /\ store_ok m T.
Proof.
  intros [(m & HI & Hso) _ Hset Htab _]. exists m. split_and!; [apply HI|done| |done]. split.
  - intros k Hk. symmetry. eapply (store_is_table m T idle t); [exact HI| |exact Hk].
    intros o h Eh. split; [by eapply Hset|by eapply Htab].
  - intros k v. apply (ic_table _ _ _ _ _ _ _ (ic_view _ _ _ _ HI)).
  - intros k v. apply (ic_values _ _ _ _ _ _ _ (ic_view _ _ _ _ HI)).
Qed.

Lemma data_path_not_root dir i : disk_path dir i <> root_dat dir.
Proof.
  intros E. apply (f_equal dirname) in E. rewrite dirname_disk_path, dirname_root_dat in E.
  apply (f_equal length) in E. unfold dir_path in E. rewrite !length_app in E. simpl in E. lia.
Qed.

(** What the end of a process leaves: a store that opens with the table, the data
    files, and the counter. *)
Record saved T st t : Prop := {
  sv_store : exists m r s, kv_Init (kv_restart (w_metadb (t_ic t).2)) = Ret r s /\ 0 <= r /\ kv_rep s m /\
    mirrors m T /\ store_ok m T;
  sv_nodes : nodes_rep t T (tree st);
  sv_last : last_ino st = max_inode_num (t_st t).1;
  sv_dirs : dirs_ok (t_st t).1 (t_st t).2;
  sv_inos : inos_ok T (max_inode_num (t_st t).1);
  sv_os : os_wf (t_st t).2;
  sv_ready : ready env t;
  sv_threshold : limit st = threshold_ (t_st t).1 /\ 0 <= limit st < 2 ^ 62;
  sv_unused : forall i, last_ino st < i < 2 ^ 31 -> file_at (t_st t).2 (data_path t i) = None;
  sv_counter : file_at (t_st t).2 (root_dat (datadir_ (t_st t).1)) = Some (fmt_u (last_ino st) ++ [10])
}.

#[global] Instance keeps_take_times n : Keeps calm (take_times n : prog (tfs S) unit).
Proof. induction n; cbn [take_times]; keeps_tac. Qed.

(** [Destroy] on a file system nobody uses. *)
Lemma Destroy_saves T st t :
  represents env T st t -> exists t', Destroy t = Ret tt t' /\ fixed t t' /\ saved T st t'.
Proof using Type*.
  intros HR0. destruct (reports_ok T st t HR0) as (t1 & H1 & HR).
  assert (fixed t t1) as Hfx.
  { assert (Keeps calm (do_monitor ;;; report_get_count : prog (tfs S) unit)) as K
      by (unfold do_monitor, report_get_count; keeps_tac).
    destruct (K _ _ _ H1) as [[] _]. by split. }
  pose proof HR as [HF HN HL HW HO Hrd Hth HU]. destruct (FS_stored T t1 HF) as (m & Hrep & HI & HM & Hso).
  destruct HF as [_ _ Hset _ [Hd Hi]].
  destruct (InodeCache_destroy_spec m T (t_ic t1) HI Hset) as (C & w & H2 & Hdb & Hhs).
  set (t2 := put_ic (C, w) t1).
  destruct (counter_saved (t_st t1).1 (t_st t1).2 HO (do_root _ _ Hd) (do_len _ _ Hd)) as (o3 & H3 & Hwf3 & Hof & Hfa).
  set (t3 := put_st ((t_st t1).1, o3) t2).
  destruct (kv_reopen (w_metadb w) m) as (s4 & r & s5 & H4 & H5 & Hr & Hrep5); [by rewrite Hdb|].
  set (t4 := put_ic (C, put_metadb s4 w) t3).
  exists t4. split; [|split; [by destruct Hfx|]].
  - unfold Destroy. rewrite <- bind_assoc. erewrite bind_Ret by exact H1.
    erewrite bind_Ret by (apply in_ic_Ret, H2). fold t2.
    erewrite bind_Ret by (apply in_st_Ret; cbn; rewrite (surjective_pairing (t_st t1)); exact H3).
    exact (in_metadb_Ret kv_Cleanup t3 tt s4 H4).
  - assert (forall i, file_at o3 (data_path t1 i) = file_at (t_st t1).2 (data_path t1 i)) as Hfiles.
    { intros i. apply (of_others _ _ _ Hof), data_path_not_root. }
    split; cbn; try done.
    + by exists m, r, s5.
    + intros k. destruct (HN k) as [v n Hn|]; constructor. apply (node_rep_frame t1); [done|done|apply Hfiles|done].
    + destruct Hd as [D1 D2 D3 D4]. split; try done; [by rewrite (of_dirs _ _ _ Hof)|].
      intros i. rewrite (of_dirs _ _ _ Hof). apply D4.
    + destruct Hrd as [R1 R2 R3 R4]. split; try done. cbn. by rewrite (of_clock _ _ _ Hof).
    + intros i Hb. etransitivity; [apply Hfiles|by apply HU].
    + by rewrite HL.
Qed.
End unmount.

(** * Mounting again *)

Section sessions.
Context {S It : Type} `{!KvWrapper S It, !KvSpec S It, !KvDurable S It} (env : environment).
Context (realpath : bytes -> bytes) (prop : Properties).
Implicit Types (T : table) (t : tfs S) (st : fstree) (m : gmap bytes bytes).

(** A new process: new objects, no descriptors, what is on disk. *)
Definition new_process t : tfs S :=
  mkTfs (InodeCache_new, mkWorld (kv_restart (w_metadb (t_ic t).2)) ∅ 0 0) (DentryCache_new 0)
    (FileSystemState_new, with_fds ∅ (t_st t).2) ∅ 0 0 false (t_context t).

(** [Setup] and [Init] succeed and lead from [t] to [t']. *)
Definition mounts (conn : bool) t t' : Prop :=
  exists prop' t1, in_st (Setup realpath prop) t = Ret (0, prop') t1 /\ Init env conn t1 = Ret true t'.

Abbreviation datadir := (realpath (getProperty (str "datadir") (str "/mnt/pmem/tablefs") prop)).

Definition configured t : Prop :=
  datadir_ (t_st t).1 = datadir /\
  threshold_ (t_st t).1 = getPropertyInt (str "threshold") 4096 prop.

Lemma fixed_configured t t' : fixed t t' -> configured t -> configured t'.
Proof. intros [E1 E2 _] [H1 H2]. by rewrite <- E1 in H1; rewrite <- E2 in H2. Qed.

Definition log_in (conn : bool) (ctx : Z * Z) st : fstree :=
  mkTree (tree st) (last_ino st) (if conn then Some ctx else None) (limit st).

(** Mounting what a process has left. *)
Lemma mount_saved T st t conn :
  saved env T st t -> configured t -> 0 < last_ino st ->
  exists t', mounts conn (new_process t) t' /\ represents env T (log_in conn (t_context t) st) t' /\
    configured t' /\ t_context t' = t_context t.
Proof using Type*.
  intros [(m & r & s & Hinit & Hr & Hrep & HM & Hso) HN HL Hd Hi HO Hrd Hth HU Hc] [Edd Eth] Hpos.
  pose proof Hd as [D1 D2 D3 D4]. rewrite Edd in Hc, D1, D2.
  destruct (Setup_existing realpath prop FileSystemState_new (with_fds ∅ (t_st t).2) (last_ino st)) as (prop' & e & HS);
    [done|exact Hc|done|]. rewrite u32_small in HS by lia.
  set (t1 := put_st (setup_state realpath prop (last_ino st), with_errno e (with_fds ∅ (t_st t).2)) (new_process t)).
  assert (unmounted m T t1) as Hun.
  { split; try done; [by exists r, s|]. split; cbn; rewrite ?HL; try done. intros i Hb. pose proof (D4 i Hb) as H.
    rewrite Edd in H. exact H. }
  destruct (Init_again env m T t1 conn Hun) as (t2 & H2 & HF & Est & Ectx & Efl).
  { unfold IsEmpty. cbn. lia. }
  { cbn. by rewrite HL. }
  exists t2. split; [|split_and!].
  - exists prop', t1. split; [apply in_st_Ret, HS|exact H2].
  - assert (forall i, file_at (t_st t2).2 (data_path t i) = file_at (t_st t).2 (data_path t i)) as Hfiles
      by by rewrite Est.
    assert (datadir_ (t_st t2).1 = datadir_ (t_st t).1) as Edd2 by (by rewrite Est, Edd).
    split; cbn; try done.
    + intros k. destruct (HN k) as [v n Hn|]; constructor.
      apply (node_rep_frame t); [done|by rewrite Est, Eth|apply Hfiles|done].
    + by rewrite Est.
    + unfold caller. rewrite Efl, Ectx. done.
    + rewrite Est. by destruct HO.
    + destruct Hrd as [R1 R2 R3 R4]. split; [done|by rewrite Est|by rewrite Ectx|done].
    + rewrite Est. rewrite Eth in Hth. exact Hth.
    + intros i Hb. unfold data_path. rewrite Edd2. etransitivity; [apply Hfiles|by apply HU].
  - split; by rewrite Est.
  - done.
Qed.

(** A new machine: an empty store and an empty data directory. *)
Record blank t : Prop := {
  bl_store : exists (m : gmap bytes bytes) r s, kv_Init (w_metadb (t_ic t).2) = Ret r s /\ 0 <= r /\ kv_rep s m /\
    mirrors m ∅ /\ store_ok m ∅;
  bl_handles : w_handles (t_ic t).2 = ∅;
  bl_dir : datadir ∈ os_dirs (t_st t).2;
  bl_len : (length datadir < 80)%nat;
  bl_counter : file_at (t_st t).2 (root_dat datadir) = None;
  bl_data : forall i, 0 < i < 2 ^ 31 -> file_at (t_st t).2 (disk_path datadir i) = None;
  bl_os : os_wf (t_st t).2;
  bl_ready : ready env t
}.

(** Mounting on a new machine. *)
Lemma mount_blank t conn :
  blank t -> 0 <= (env_root_stat env).1 < 2 ^ 32 -> 0 <= (env_root_stat env).2 < 2 ^ 64 ->
  0 <= getPropertyInt (str "threshold") 4096 prop < 2 ^ 62 ->
  exists t' T, mounts conn t t' /\
    represents env T (new_tree (env_root_stat env).1 (env_root_stat env).2 (if conn then Some (t_context t) else None)
      (getPropertyInt (str "threshold") 4096 prop)) t' /\
    configured t' /\ t_context t' = t_context t.
Proof using Type*.
  intros [(m & r & s & Hinit & Hr & Hrep & HM & Hso) Hh Hd Hl Hc Hno HO Hrd] Hm Hdv Hth.
  destruct (Setup_fresh realpath prop (t_st t).1 (t_st t).2 HO Hd Hl Hc) as (prop' & o & HS & Hdirs & Hck & HO' & _ & Hof).
  rewrite <- surjective_pairing in HS. set (t1 := put_st (setup_state realpath prop 0, o) t).
  destruct (represents_mount env m t1 conn) as (t2 & T & H2 & HR); try done.
  - split; try done. by exists r, s.
  - destruct Hrd as [R1 R2 R3 R4]. split; try done. cbn. by rewrite Hck.
  - intros i Hi. etransitivity; [apply Hof, data_path_not_root|by apply Hno].
  - exists t2, T. split; [exists prop', t1; split; [apply in_st_Ret, HS|exact H2]|]. split; [done|].
    assert (fixed t1 t2) as [E1 E2 E3] by (eapply (keeps_run fixed); [|exact H2]; apply Init_fixed).
    split; [split; [by rewrite E1|by rewrite E2]|by rewrite E3].
Qed.
End sessions.
