(* ===== verification/FuseMain.v ===== *)
(** The program: [src/tablefs_main.cpp].

    The callbacks, the table of them that [main] hands to FUSE, and [main]. What
    [fuse_main] does is not part of the sources: it is a parameter, of which the
    documentation of libfuse says that with [-s] it calls [init], then the
    callbacks of the requests one after the other, and at last [destroy]. *)

From S2P Require Import Prelude Hashes Coding WriteBatch Inode DCache Cache Kv ICache Posix Properties State TableFS FsInv FsOps FsRename FsFile FsTruncate FsDir FsFrame FsMount FsSpec FsHistory FsRemount.

Set Default Proof Using "Type".

Section main.
Context {S It : Type} `{!KvWrapper S It} (env : environment).
Implicit Types t : tfs S.

Abbreviation callback := (prog (tfs S)).

(** * The callbacks *)

Definition wrap_getattr (path : bytes) : callback (Z * option tfs_stat_t) := GetAttr path.
Definition wrap_readlink (path : bytes) (size : Z) : callback (Z * option bytes) := Readlink path size.
Definition wrap_mknod (path : bytes) (mode dev : Z) : callback Z := MakeNode env path mode dev.
Definition wrap_mkdir (path : bytes) (mode : Z) : callback Z := MakeDir env path mode.
Definition wrap_unlink (path : bytes) : callback Z := Unlink path.
Definition wrap_rmdir (path : bytes) : callback Z := RemoveDir path.
Definition wrap_symlink (path link : bytes) : callback Z := Symlink env path link.
Definition wrap_rename (path newpath : bytes) : callback Z := Rename path newpath.
Definition wrap_chmod (path : bytes) (mode : Z) : callback Z := Chmod path mode.
Definition wrap_chown (path : bytes) (uid gid : Z) : callback Z := Chown path uid gid.
Definition wrap_truncate (path : bytes) (newSize : Z) : callback Z := Truncate env path newSize.
Definition wrap_open (path : bytes) (flags : Z) : callback (Z * option nat) := Open path flags.
Definition wrap_read (path : bytes) (size offset : Z) (fh : nat) : callback (Z * bytes) := Read fh size offset.
Definition wrap_write (path buf : bytes) (offset : Z) (fh : nat) (flags : Z) : callback Z := Write fh buf offset flags.
Definition wrap_release (path : bytes) (fh : nat) : callback Z := Release fh.
Definition wrap_opendir (path : bytes) : callback (Z * option nat) := OpenDir path.
Definition wrap_readdir (path : bytes) (rounds : nat) (filler : bytes -> callback Z) (o : nat) :
    callback (option (Z * list bytes)) := ReadDir (fun _ p => p) rounds filler o.
Definition wrap_releasedir (path : bytes) (o : nat) : callback Z := ReleaseDir o.
Definition wrap_init (conn : bool) : callback bool := Init env conn.
Definition wrap_access (path : bytes) (mask : Z) : callback Z := Access path mask.
Definition wrap_utimens (path : bytes) (atime mtime : Z * Z) : callback Z := UpdateTimens path atime mtime.
Definition wrap_destroy : callback unit := Destroy.

(** The members of [struct fuse_operations] that [main] sets. *)
Record fuse_operations : Type := mkFuseOps {
  fo_init : bool -> callback bool;
  fo_getattr : bytes -> callback (Z * option tfs_stat_t);
  fo_opendir : bytes -> callback (Z * option nat);
  fo_readdir : bytes -> nat -> (bytes -> callback Z) -> nat -> callback (option (Z * list bytes));
  fo_releasedir : bytes -> nat -> callback Z;
  fo_mkdir : bytes -> Z -> callback Z;
  fo_rmdir : bytes -> callback Z;
  fo_rename : bytes -> bytes -> callback Z;
  fo_symlink : bytes -> bytes -> callback Z;
  fo_readlink : bytes -> Z -> callback (Z * option bytes);
  fo_open : bytes -> Z -> callback (Z * option nat);
  fo_read : bytes -> Z -> Z -> nat -> callback (Z * bytes);
  fo_write : bytes -> bytes -> Z -> nat -> Z -> callback Z;
  fo_mknod : bytes -> Z -> Z -> callback Z;
  fo_unlink : bytes -> callback Z;
  fo_release : bytes -> nat -> callback Z;
  fo_chmod : bytes -> Z -> callback Z;
  fo_chown : bytes -> Z -> Z -> callback Z;
  fo_truncate : bytes -> Z -> callback Z;
  fo_access : bytes -> Z -> callback Z;
  fo_utimens : bytes -> Z * Z -> Z * Z -> callback Z;
  fo_destroy : callback unit
}.

Definition tablefs_operations : fuse_operations := {|
  fo_init := wrap_init;
  fo_getattr := wrap_getattr;
  fo_opendir := wrap_opendir;
  fo_readdir := wrap_readdir;
  fo_releasedir := wrap_releasedir;
  fo_mkdir := wrap_mkdir;
  fo_rmdir := wrap_rmdir;
  fo_rename := wrap_rename;
  fo_symlink := wrap_symlink;
  fo_readlink := wrap_readlink;
  fo_open := wrap_open;
  fo_read := wrap_read;
  fo_write := wrap_write;
  fo_mknod := wrap_mknod;
  fo_unlink := wrap_unlink;
  fo_release := wrap_release;
  fo_chmod := wrap_chmod;
  fo_chown := wrap_chown;
  fo_truncate := wrap_truncate;
  fo_access := wrap_access;
  fo_utimens := wrap_utimens;
  fo_destroy := wrap_destroy
|}.

(** * [main] *)

(** What the callbacks of [ops] answer to a user's system call: [open] and
    [release] around [read] and [write], [opendir] and [releasedir] around
    [readdir]. *)
Definition answer (ops : fuse_operations) (o : op) : callback result :=
  match o with
  | OpMknod path mode dev => r <- fo_mknod ops path mode dev ;; ret (RCode r)
  | OpMkdir path mode => r <- fo_mkdir ops path mode ;; ret (RCode r)
  | OpSymlink target path => r <- fo_symlink ops target path ;; ret (RCode r)
  | OpReadlink path size => ' (r, d) <- fo_readlink ops path size ;; ret (RData r (default [] d))
  | OpGetattr path => ' (r, s) <- fo_getattr ops path ;; ret (RAttrs r (attrs_of <$> s))
  | OpChmod path mode => r <- fo_chmod ops path mode ;; ret (RCode r)
  | OpChown path uid gid => r <- fo_chown ops path uid gid ;; ret (RCode r)
  | OpUtimens path atime mtime => r <- fo_utimens ops path atime mtime ;; ret (RCode r)
  | OpTruncate path size => r <- fo_truncate ops path size ;; ret (RCode r)
  | OpUnlink path => r <- fo_unlink ops path ;; ret (RCode r)
  | OpRmdir path => r <- fo_rmdir ops path ;; ret (RCode r)
  | OpRename old_path new_path => r <- fo_rename ops old_path new_path ;; ret (RCode r)
  | OpWrite path buf offset =>
      ' (r, fh) <- fo_open ops path O_RDWR ;;
      match fh with
      | Some fh => n <- fo_write ops path buf offset fh O_RDWR ;; fo_release ops path fh ;;; ret (RCode n)
      | None => ret (RCode r)
      end
  | OpRead path size offset =>
      ' (r, fh) <- fo_open ops path O_RDWR ;;
      match fh with
      | Some fh => ' (n, d) <- fo_read ops path size offset fh ;; fo_release ops path fh ;;; ret (RData n d)
      | None => ret (RData r [])
      end
  | OpList path rounds =>
      ' (r, o) <- fo_opendir ops path ;;
      match o with
      | Some o =>
          l <- fo_readdir ops path rounds (fun _ => ret 0) o ;;
          fo_releasedir ops path o ;;;
          match l with Some (r, names) => ret (RNames r names) | None => undefined Unfinished end
      | None => ret (RNames r [])
      end
  end.

Fixpoint answers (ops : fuse_operations) (os : list op) : callback (list result) :=
  match os with
  | [] => ret []
  | o :: os' => r <- answer ops o ;; rs <- answers ops os' ;; ret (r :: rs)
  end.

(** [fuse_main reqs ops argv]: a session in which users make the calls [reqs]; the
    exit status and the answers. *)
Context (fuse_main : list op -> fuse_operations -> list bytes -> callback (Z * list result)).

(** What the documentation says of it, with [-s] among the arguments. *)
Definition fuse_single_threaded : Prop := forall reqs ops argv t, str "-s" ∈ argv ->
  fuse_main reqs ops argv t = (fo_init ops true ;;; rs <- answers ops reqs ;; fo_destroy ops ;;; ret (0, rs)) t.

Context (realpath : bytes -> bytes).

(** Directories that are missing are only reported. *)
Definition main (argv : list bytes) (reqs : list op) : callback (Z * list result) :=
  match parseOpts (tail argv) ∅ with
  | None => undefined NullPointer
  | Some prop =>
      let mountdir := getProperty1 (str "mountdir") prop in
      ' (r, _) <- in_st (Setup realpath prop) ;;
      if r <? 0 then ret (-1, []) else
      fuse_mount_dir <- sprintf 100 mountdir ;;
      fuse_main reqs tablefs_operations [default [] (head argv); fuse_mount_dir; str "-s"]
  end.

(** The callbacks are the operations of [TableFS]. *)
Lemma answers_do_ops reqs : answers tablefs_operations reqs = do_ops env reqs.
Proof.
  induction reqs as [|o reqs IH]; [done|]. cbn [answers do_ops]. rewrite IH. by destruct o.
Qed.
End main.

Arguments fuse_operations S : clear implicits.

(** * Runs of the program *)

Section runs.
Context {S It : Type} `{!KvWrapper S It, !KvSpec S It, !KvDurable S It} (env : environment).
Context (fuse_main : list op -> fuse_operations S -> list bytes -> prog (tfs S) (Z * list result)).
Context (realpath : bytes -> bytes) (argv : list bytes).
Implicit Types (T : table) (t : tfs S) (st : fstree).

(** The program is run again and again, each time by a new process. *)
Fixpoint runs (sessions : list (list op)) : prog (tfs S) (list (list result)) :=
  match sessions with
  | [] => ret []
  | reqs :: sessions' =>
      ' (_, rs) <- main env fuse_main realpath argv reqs ;;
      modify new_process ;;;
      rss <- runs sessions' ;;
      ret (rs :: rss)
  end.

(** Specification: the tree stays. Nothing is promised of a file system that was
    mounted before without a single file having been made in it. *)
Fixpoint tree_runs (ctx : Z * Z) (sessions : list (list op)) st : option (list (list result) * fstree) :=
  match sessions with
  | [] => Some ([], st)
  | reqs :: sessions' =>
      _ ← guard (0 < last_ino st);
      '(rs, st1) ← steps reqs (log_in true ctx st);
      '(rss, st2) ← tree_runs ctx sessions' st1;
      Some (rs :: rss, st2)
  end.

Section with_options.
Context (prop : Properties).
Hypothesis Hargv : parseOpts (tail argv) ∅ = Some prop.
Hypothesis Hmnt : (length (getProperty1 (str "mountdir") prop) < 100)%nat.
Hypothesis Hfuse : fuse_single_threaded fuse_main.

(** A run on a state that mounts. *)
Lemma main_ok t t1 T st reqs rs st' :
  mounts env realpath prop true t t1 -> represents env T st t1 -> configured realpath prop t1 ->
  steps reqs st = Some (rs, st') ->
  exists rs' t' T', main env fuse_main realpath argv reqs t = Ret (0, rs') t' /\ Forall2 agrees rs rs' /\
    saved env T' st' t' /\ configured realpath prop t' /\ t_context t' = t_context t1.
Proof using All.
  intros (prop' & t0 & HS & HI) HR Hcf E.
  destruct (steps_ok env reqs _ _ _ T t1 E HR) as (rs' & t2 & T2 & Hrun & Hrs & HR2).
  pose proof (do_ops_fixed env reqs _ _ _ Hrun) as Hfx.
  destruct (Destroy_saves env T2 st' t2 HR2) as (t3 & Hd & Hfx3 & Hsv).
  exists rs', t3, T2. split; [|split; [done|split; [done|split]]].
  - unfold main. rewrite Hargv. cbv zeta. erewrite bind_Ret by exact HS. cbv iota beta.
    change (0 <? 0) with false. cbv iota. erewrite bind_Ret by (by apply sprintf_Ret).
    rewrite Hfuse by (right; right; left). rewrite answers_do_ops.
    erewrite bind_Ret by exact HI. erewrite bind_Ret by exact Hrun. by erewrite bind_Ret by exact Hd.
  - by eapply fixed_configured, fixed_configured.
  - by rewrite (fx_context _ _ Hfx3), (fx_context _ _ Hfx).
Qed.

(** What a new process starts from. *)
Definition on_disk T st t : Prop :=
  exists t0, t = new_process t0 /\ saved env T st t0 /\ configured realpath prop t0.

Lemma runs_ok sessions T st t rss st' :
  on_disk T st t -> tree_runs (t_context t) sessions st = Some (rss, st') ->
  exists rss' t' T', runs sessions t = Ret rss' t' /\ Forall2 (Forall2 agrees) rss rss' /\ on_disk T' st' t'.
Proof using All.
  revert T st t rss. induction sessions as [|reqs sessions IH]; intros T st t rss Ht E; cbn in E.
  { injection E as <- <-. exists [], t, T. split; [done|]. split; [constructor|done]. }
  destruct Ht as (t0 & -> & Hsv & Hcf). case_guard as Hpos; [|done]. cbn in E.
  apply bind_Some in E as ([rs st1] & E1 & ([rss1 st2] & E2 & [= <- <-])%bind_Some).
  destruct (mount_saved env realpath prop T st t0 true Hsv Hcf Hpos) as (t1 & Hm & HR & Hcf1 & Hctx1).
  destruct (main_ok _ t1 _ _ reqs rs st1 Hm HR Hcf1 E1) as (rs' & t2 & T2 & Hrun & Hrs & Hsv2 & Hcf2 & Hctx2).
  rewrite Hctx1 in Hctx2.
  destruct (IH T2 st1 (new_process t2) rss1) as (rss' & t3 & T3 & Hruns & Hrss & Hon).
  - by exists t2.
  - cbn. by rewrite Hctx2.
  - exists (rs' :: rss'), t3, T3. split; [|split; [by constructor|done]].
    cbn [runs]. erewrite bind_Ret by exact Hrun. cbv iota beta. erewrite bind_Ret by reflexivity.
    by erewrite bind_Ret by exact Hruns.
Qed.

(** From a new machine on. *)
Lemma first_runs_ok t reqs sessions rs st rss st' :
  blank env realpath prop t ->
  0 <= (env_root_stat env).1 < 2 ^ 32 -> 0 <= (env_root_stat env).2 < 2 ^ 64 ->
  0 <= getPropertyInt (str "threshold") 4096 prop < 2 ^ 62 ->
  steps reqs (new_tree (env_root_stat env).1 (env_root_stat env).2 (Some (t_context t))
      (getPropertyInt (str "threshold") 4096 prop)) = Some (rs, st) ->
  tree_runs (t_context t) sessions st = Some (rss, st') ->
  exists rss' t' T', runs (reqs :: sessions) t = Ret rss' t' /\ Forall2 (Forall2 agrees) (rs :: rss) rss' /\
    on_disk T' st' t'.
Proof using All.
  intros Hbl Hm Hd Hth E1 E2.
  destruct (mount_blank env realpath prop t true Hbl Hm Hd Hth) as (t1 & T1 & Hmt & HR & Hcf & Hctx1).
  destruct (main_ok _ t1 _ _ reqs rs st Hmt HR Hcf E1) as (rs' & t2 & T2 & Hrun & Hrs & Hsv2 & Hcf2 & Hctx2).
  destruct (runs_ok sessions T2 st (new_process t2) rss st') as (rss' & t3 & T3 & Hruns & Hrss & Hon).
  - by exists t2.
  - cbn. by rewrite Hctx2, Hctx1.
  - exists (rs' :: rss'), t3, T3. split; [|split; [by constructor|done]].
    cbn [runs]. erewrite bind_Ret by exact Hrun. cbv iota beta. erewrite bind_Ret by reflexivity.
    by erewrite bind_Ret by exact Hruns.
Qed.
End with_options.
End runs.
