(* ===== verification/FsWrapper.v ===== *)
(** The descriptor interface: [src/fs/fswrapper.h], [src/fs/fswrapper.cpp].

    [TableFSWrapper] gives [TableFS] file descriptors and file positions: the
    arrays [freefd], [fis], [paths] and [offsets] have [FDLIMIT] entries, and an
    index outside of them is undefined. The junk file of the [tablefs_pred] mode
    goes to [/dev/null], and the messages of [logon] to [stderr]. *)

From S2P Require Import Prelude Hashes Coding WriteBatch Inode DCache Cache Kv ICache Posix Properties State TableFS FsInv FsOps FsFile FsDir.

Set Default Proof Using "Type".

Record fuse_file_info : Type := mkFi {
  fi_flags : Z;
  fi_fh : option nat
}.

Definition FDLIMIT : nat := 128.

Section fswrapper.
Context {S It : Type} `{!KvWrapper S It} (env : environment).

Record fsw : Type := mkFsw {
  fsw_fs : tfs S;
  fis : list fuse_file_info;
  paths : list bytes;
  offsets : list Z;
  freefd : list Z;
  list_dir_count : Z;
  lsstat_count : Z;
  scanfile_count : Z
}.

Definition put_fs (t : tfs S) (w : fsw) : fsw :=
  mkFsw t (fis w) (paths w) (offsets w) (freefd w) (list_dir_count w) (lsstat_count w) (scanfile_count w).
Definition put_fi (x : list fuse_file_info) (w : fsw) : fsw :=
  mkFsw (fsw_fs w) x (paths w) (offsets w) (freefd w) (list_dir_count w) (lsstat_count w) (scanfile_count w).
Definition put_paths (x : list bytes) (w : fsw) : fsw :=
  mkFsw (fsw_fs w) (fis w) x (offsets w) (freefd w) (list_dir_count w) (lsstat_count w) (scanfile_count w).
Definition put_offsets (x : list Z) (w : fsw) : fsw :=
  mkFsw (fsw_fs w) (fis w) (paths w) x (freefd w) (list_dir_count w) (lsstat_count w) (scanfile_count w).
Definition put_freefd (x : list Z) (w : fsw) : fsw :=
  mkFsw (fsw_fs w) (fis w) (paths w) (offsets w) x (list_dir_count w) (lsstat_count w) (scanfile_count w).

Abbreviation fsw_prog := (prog fsw).

Definition in_fs {A} (p : prog (tfs S) A) : fsw_prog A := zoom fsw_fs put_fs p.

(** The element [a[fd]]. *)
Definition at_fd (fd : Z) : fsw_prog nat :=
  if decide (0 <= fd < Z.of_nat FDLIMIT) then ret (Z.to_nat fd) else undefined OutOfBounds.

(** The constructor: no file system yet, every descriptor free. *)
Definition TableFSWrapper_new (t : tfs S) : fsw :=
  mkFsw t (replicate FDLIMIT (mkFi 0 None)) (replicate FDLIMIT []) (replicate FDLIMIT 0)
    (replicate FDLIMIT 0) 0 0 0.

Definition Fsw_Setup (realpath : bytes -> bytes) (prop : Properties) : fsw_prog Z :=
  ' (r, _) <- in_fs (in_st (Setup realpath prop)) ;;
  if r <? 0 then ret (-1) else
  in_fs (Init env false) ;;;
  ret 0.

(** The destructor. *)
Definition Fsw_Destroy : fsw_prog unit := in_fs Destroy.

Definition Stat (path : bytes) : fsw_prog (Z * option tfs_stat_t) := in_fs (GetAttr path).

Definition Mknod (path : bytes) (mode dev : Z) : fsw_prog Z :=
  ' (r, _) <- Stat path ;;
  if r =? 0 then in_fs (set_errno EEXIST) ;;; ret (-1) else
  in_fs (MakeNode env path mode dev) ;;;
  ' (r, _) <- Stat path ;;
  ret r.

Definition Mkdir (path : bytes) (mode : Z) : fsw_prog Z :=
  ' (r, _) <- Stat path ;;
  if r =? 0 then ret (-1) else
  in_fs (MakeDir env path mode) ;;;
  ' (r, _) <- Stat path ;;
  ret r.

(** The nanoseconds of the [timespec]s are not set. *)
Definition Utime (path : bytes) (actime modtime : Z) : fsw_prog Z :=
  in_fs (UpdateTimens path (actime, env_int env) (modtime, env_int env)).

Definition Fsw_Chmod (path : bytes) (mode : Z) : fsw_prog Z :=
  Stat path ;;;
  in_fs (Chmod path mode) ;;;
  ' (r, _) <- Stat path ;;
  ret r.

(** ** Descriptors *)

Fixpoint first_free (l : list Z) (i : nat) : option nat :=
  match l with
  | [] => None
  | x :: l' => if x =? 0 then Some i else first_free l' (i + 1)
  end.

Definition GetFileDescriptor : fsw_prog Z :=
  w <- get_state ;;
  match first_free (freefd w) 0 with
  | Some i => modify (put_freefd (<[i := 1]> (freefd w))) ;;; ret (Z.of_nat i)
  | None => ret (-1)
  end.

Definition ReleaseFileDescriptor (fd : Z) : fsw_prog unit :=
  i <- at_fd fd ;; modify (fun w => put_freefd (<[i := 0]> (freefd w)) w).

Definition Fsw_Open (path : bytes) (flags : Z) : fsw_prog Z :=
  fd <- GetFileDescriptor ;;
  i <- at_fd fd ;;
  modify (fun w => put_paths (<[i := path]> (paths w)) w) ;;;
  modify (fun w => put_offsets (<[i := 0]> (offsets w)) w) ;;;
  modify (fun w => put_fi (alter (fun fi => mkFi flags (fi_fh fi)) i (fis w)) w) ;;;
  ' (r, fh) <- in_fs (Open path flags) ;;
  (match fh with
   | Some fh => modify (fun w => put_fi (alter (fun fi => mkFi (fi_flags fi) (Some fh)) i (fis w)) w)
   | None => ret tt
   end) ;;;
  if negb (r =? 0) then ReleaseFileDescriptor fd ;;; ret (-1)
  else ret fd.

Definition Seek (fd offset : Z) : fsw_prog Z :=
  i <- at_fd fd ;;
  modify (fun w => put_offsets (<[i := offset]> (offsets w)) w) ;;;
  ret 0.

(** [fis[fd]] and [offsets[fd]]. *)
Definition fi_at (i : nat) : fsw_prog fuse_file_info :=
  w <- get_state ;; deref OutOfBounds (fis w !! i).
Definition offset_at (i : nat) : fsw_prog Z :=
  w <- get_state ;; deref OutOfBounds (offsets w !! i).

Definition Fsw_Write (fd : Z) (buf : bytes) : fsw_prog Z :=
  i <- at_fd fd ;;
  fi <- fi_at i ;;
  off <- offset_at i ;;
  fh <- deref UseAfterFree (fi_fh fi) ;;
  r <- in_fs (Write fh buf off (fi_flags fi)) ;;
  (if r <? 0 then ret tt
   else modify (fun w => put_offsets (<[i := off + r]> (offsets w)) w)) ;;;
  ret r.

Definition Fsw_Read (fd size : Z) : fsw_prog (Z * bytes) :=
  i <- at_fd fd ;;
  fi <- fi_at i ;;
  off <- offset_at i ;;
  fh <- deref UseAfterFree (fi_fh fi) ;;
  ' (r, data) <- in_fs (Read fh size off) ;;
  (if r <? 0 then ret tt
   else modify (fun w => put_offsets (<[i := off + r]> (offsets w)) w)) ;;;
  ret (r, data).

Definition Close (fd : Z) : fsw_prog Z :=
  i <- at_fd fd ;;
  fi <- fi_at i ;;
  fh <- deref UseAfterFree (fi_fh fi) ;;
  r <- in_fs (Release fh) ;;
  ReleaseFileDescriptor fd ;;;
  ret r.

(** ** Directories *)

(** None of the three callbacks has a [return]: reaching their end is undefined. *)
Definition fuse_filler_dir (name : bytes) : fsw_prog Z :=
  modify (fun w => mkFsw (fsw_fs w) (fis w) (paths w) (offsets w) (freefd w)
                     (list_dir_count w + 1) (lsstat_count w) (scanfile_count w)) ;;;
  undefined MissingReturn.

(** The common frame of [Listdir], [Lsstat] and [Scanfile]: the directory handle
    is not released. *)
Definition scan_dir (fuel : nat) (path : bytes) (filler : bytes -> fsw_prog Z) (reset : fsw -> fsw)
    (count : fsw -> Z) : fsw_prog (option Z) :=
  ' (r, fh) <- in_fs (OpenDir path) ;;
  if negb (r =? 0) then ret (Some (-1)) else
  modify reset ;;;
  o <- deref UseAfterFree fh ;;
  res <- ReadDir (fun A (p : prog (tfs S) A) => in_fs p) fuel filler o ;;
  match res with
  | None => ret None
  | Some (r, _) => if negb (r =? 0) then ret (Some (-1)) else c <- gets count ;; ret (Some c)
  end.

Definition Listdir (fuel : nat) (path : bytes) : fsw_prog (option Z) :=
  scan_dir fuel path fuse_filler_dir
    (fun w => mkFsw (fsw_fs w) (fis w) (paths w) (offsets w) (freefd w) 0 (lsstat_count w) (scanfile_count w))
    list_dir_count.

(** [strcpy] behind the prefix in a buffer of 1024 bytes. *)
Definition child_path (path name : bytes) : fsw_prog bytes := sprintf 1024 (path ++ str "/" ++ name).

Definition lsstat_filler (path name : bytes) : fsw_prog Z :=
  fpath <- child_path path name ;;
  Stat fpath ;;;
  modify (fun w => mkFsw (fsw_fs w) (fis w) (paths w) (offsets w) (freefd w)
                     (list_dir_count w) (lsstat_count w + 1) (scanfile_count w)) ;;;
  undefined MissingReturn.

Definition Lsstat (fuel : nat) (path : bytes) : fsw_prog (option Z) :=
  scan_dir fuel path (lsstat_filler path)
    (fun w => mkFsw (fsw_fs w) (fis w) (paths w) (offsets w) (freefd w) (list_dir_count w) 0 (scanfile_count w))
    lsstat_count.

(** The loop that reads a file, for at most [fuel] rounds. *)
Fixpoint scanfile_loop (fuel : nat) (fd size read_size : Z) : fsw_prog unit :=
  if read_size <? size then
    match fuel with
    | O => undefined Unfinished
    | Datatypes.S fuel' =>
        ' (r, _) <- Fsw_Read fd 4096 ;;
        if r =? 0 then ret tt else scanfile_loop fuel' fd size (i32 (read_size + r))
    end
  else ret tt.

(** The size of a file whose [Stat] failed is what the stack holds. *)
Definition scanfile_filler (fuel : nat) (path name : bytes) : fsw_prog Z :=
  fpath <- child_path path name ;;
  ' (_, statbuf) <- Stat fpath ;;
  fd <- Fsw_Open fpath O_RDONLY ;;
  let size := match statbuf with Some s => st_size s | None => env_int env end in
  scanfile_loop fuel fd size 0 ;;;
  Close fd ;;;
  modify (fun w => mkFsw (fsw_fs w) (fis w) (paths w) (offsets w) (freefd w)
                     (list_dir_count w) (lsstat_count w) (scanfile_count w + 1)) ;;;
  undefined MissingReturn.

Definition Scanfile (fuel : nat) (path : bytes) : fsw_prog (option Z) :=
  scan_dir fuel path (scanfile_filler fuel path)
    (fun w => mkFsw (fsw_fs w) (fis w) (paths w) (offsets w) (freefd w) (list_dir_count w) (lsstat_count w) 0)
    scanfile_count.

Definition Fsw_Rename (old_path new_path : bytes) : fsw_prog Z :=
  r <- in_fs (Rename old_path new_path) ;;
  if negb (r =? 0) then ret (-1) else ret 0.

Definition Fsw_Unlink (path : bytes) : fsw_prog Z :=
  r <- in_fs (Unlink path) ;;
  if negb (r =? 0) then ret (-1) else ret 0.

Definition Fsw_GetStat (stat : bytes) : fsw_prog (bool * bytes) := in_fs (GetStat stat).

(** ** [TableFSTestWrapper]: paths as keys *)

Definition Test_Stat (path : bytes) : fsw_prog Z :=
  ' (r, _) <- in_fs (metadb (kv_Get path)) ;;
  if r >? 0 then ret 0 else ret (-1).

Definition Test_Mknod (path : bytes) : fsw_prog Z :=
  r <- Test_Stat path ;;
  if r =? 0 then in_fs (set_errno EEXIST) ;;; ret (-1) else
  in_fs (metadb (kv_Put path [])) ;;;
  Test_Stat path.
End fswrapper.

Arguments fsw : clear implicits.

(** * Properties *)

Section facts.
Context {S It : Type} `{!KvWrapper S It, !KvSpec S It}.
Implicit Types (T : table) (PO : nat -> Z) (t : tfs S) (w : fsw S).

(** ** The descriptor table *)

Lemma first_free_spec l i :
  match first_free l i with
  | Some j => exists n, j = (i + n)%nat /\ l !! n = Some 0 /\ forall m x, (m < n)%nat -> l !! m = Some x -> x <> 0
  | None => Forall (fun x => x <> 0) l
  end.
Proof.
  revert i. induction l as [|x l IH]; intros i; simpl; [constructor|].
  case_bool; bool_to_prop.
  - subst x. exists 0%nat. split; [lia|]. split; [done|]. intros m y Hm. lia.
  - specialize (IH (i + 1)%nat). destruct (first_free l (i + 1)) as [j|].
    + destruct IH as (n & -> & Hn & Hlt). exists (Datatypes.S n). split; [lia|]. split; [done|].
      intros [|m] y Hm Hy; simpl in Hy; [congruence|]. apply (Hlt m y); [lia|done].
    + by constructor.
Qed.

(** [freefd] has [FDLIMIT] entries of 0 and 1, the other arrays as many. *)
Record fds_ok w : Prop := {
  fd_free : length (freefd w) = FDLIMIT;
  fd_bits : Forall (fun x => x = 0 \/ x = 1) (freefd w);
  fd_fis : length (fis w) = FDLIMIT;
  fd_paths : length (paths w) = FDLIMIT;
  fd_offsets : length (offsets w) = FDLIMIT
}.

Lemma new_fds_ok t : fds_ok (TableFSWrapper_new t).
Proof. split; cbn [freefd fis paths offsets TableFSWrapper_new]; rewrite ?length_replicate; try done. apply Forall_replicate. by left. Qed.

(** The lowest free descriptor, or -1 when all are in use. *)
Lemma GetFileDescriptor_spec w :
  fds_ok w ->
  (exists i, (i < FDLIMIT)%nat /\ freefd w !! i = Some 0 /\
     (forall m, (m < i)%nat -> freefd w !! m = Some 1) /\
     GetFileDescriptor w = Ret (Z.of_nat i) (put_freefd (<[i := 1]> (freefd w)) w) /\
     fds_ok (put_freefd (<[i := 1]> (freefd w)) w)) \/
  (Forall (fun x => x = 1) (freefd w) /\ GetFileDescriptor w = Ret (-1) w).
Proof.
  intros [H1 H2 H3 H4 H5]. unfold GetFileDescriptor, bind, get_state.
  pose proof (first_free_spec (freefd w) 0) as Hf. destruct (first_free (freefd w) 0) as [j|].
  - destruct Hf as (n & -> & Hn & Hlt). left. exists n. pose proof (lookup_lt_Some _ _ _ Hn) as Hl.
    split; [lia|]. split; [done|]. split; [|split; [done|]].
    + intros m Hm. destruct (freefd w !! m) as [x|] eqn:Ex; [|apply lookup_ge_None in Ex; lia].
      pose proof (Hlt m x Hm Ex). by destruct (Forall_lookup_1 _ _ _ _ H2 Ex) as [-> | ->].
    + split; cbn [freefd fis paths offsets put_freefd]; try done; [by rewrite length_insert|].
      apply Forall_insert; [done|by right].
  - right. split; [|done]. apply list.Forall_forall. intros x Hx.
    pose proof (proj1 (list.Forall_forall _ _) H2 x Hx) as [->|?]; [|done].
    by pose proof (proj1 (list.Forall_forall _ _) Hf 0 Hx).
Qed.
(** ** Descriptors in use *)

(** [fd] stands for the file handle [fh], positioned at [off]. *)
Record descriptor w (fd : Z) (fh : nat) (off flags : Z) : Prop := {
  de_range : 0 <= fd < Z.of_nat FDLIMIT;
  de_fi : fis w !! Z.to_nat fd = Some (mkFi flags (Some fh));
  de_off : offsets w !! Z.to_nat fd = Some off
}.

Lemma in_fs_Ret {A} (p : prog (tfs S) A) w x t : p (fsw_fs w) = Ret x t -> in_fs p w = Ret x (put_fs t w).
Proof. intros H. unfold in_fs, zoom. by rewrite H. Qed.

Lemma at_fd_Ret fd w : 0 <= fd < Z.of_nat FDLIMIT -> at_fd fd w = Ret (Z.to_nat fd) w.
Proof. intros H. unfold at_fd. by rewrite decide_True. Qed.

Lemma descriptor_run {B} w fd fh off flags (k : nat -> fuse_file_info -> Z -> nat -> prog (fsw S) B) :
  descriptor w fd fh off flags ->
  (i <- at_fd fd ;; fi <- fi_at i ;; off <- offset_at i ;; fh <- deref UseAfterFree (fi_fh fi) ;; k i fi off fh) w =
  k (Z.to_nat fd) (mkFi flags (Some fh)) off fh w.
Proof.
  intros [Hr Hf Ho]. erewrite bind_Ret by (by apply at_fd_Ret).
  erewrite bind_Ret by (unfold fi_at, bind, get_state; rewrite Hf; reflexivity).
  erewrite bind_Ret by (unfold offset_at, bind, get_state; rewrite Ho; reflexivity).
  by erewrite bind_Ret by reflexivity.
Qed.

Lemma descriptor_offset w fd fh off flags off' t :
  descriptor w fd fh off flags ->
  descriptor (put_offsets (<[Z.to_nat fd := off']> (offsets w)) (put_fs t w)) fd fh off' flags.
Proof.
  intros [Hr Hf Ho]. split; [done|done|]. cbn [offsets put_offsets put_fs].
  apply list_lookup_insert_eq. by eapply lookup_lt_Some.
Qed.

(** Writing and reading move the position by what was transferred. *)
Lemma Fsw_Write_run w fd fh off flags buf t :
  descriptor w fd fh off flags -> Write fh buf off flags (fsw_fs w) = Ret (Z.of_nat (length buf)) t ->
  exists w', Fsw_Write fd buf w = Ret (Z.of_nat (length buf)) w' /\ fsw_fs w' = t /\
    descriptor w' fd fh (off + Z.of_nat (length buf)) flags.
Proof.
  intros Hd Hw. eexists. split; [|split; [|by eapply descriptor_offset]].
  - unfold Fsw_Write. rewrite (descriptor_run w fd fh off flags) by done. cbn [fi_flags].
    erewrite bind_Ret by (by apply in_fs_Ret). replace (Z.of_nat (length buf) <? 0) with false by (symmetry; apply Z.ltb_ge, Nat2Z.is_nonneg).
    erewrite bind_Ret by reflexivity. reflexivity.
  - done.
Qed.

Lemma Fsw_Read_run w fd fh off flags size data t :
  descriptor w fd fh off flags -> Read fh size off (fsw_fs w) = Ret (Z.of_nat (length data), data) t ->
  exists w', Fsw_Read fd size w = Ret (Z.of_nat (length data), data) w' /\ fsw_fs w' = t /\
    descriptor w' fd fh (off + Z.of_nat (length data)) flags.
Proof.
  intros Hd Hw. eexists. split; [|split; [|by eapply descriptor_offset]].
  - unfold Fsw_Read. rewrite (descriptor_run w fd fh off flags) by done.
    erewrite bind_Ret by (by apply in_fs_Ret). cbv iota beta. replace (Z.of_nat (length data) <? 0) with false by (symmetry; apply Z.ltb_ge, Nat2Z.is_nonneg).
    erewrite bind_Ret by reflexivity. reflexivity.
  - done.
Qed.

Lemma Seek_run w fd fh off flags off' :
  descriptor w fd fh off flags ->
  exists w', Seek fd off' w = Ret 0 w' /\ fsw_fs w' = fsw_fs w /\ descriptor w' fd fh off' flags.
Proof.
  intros Hd. exists (put_offsets (<[Z.to_nat fd := off']> (offsets w)) (put_fs (fsw_fs w) w)).
  split; [|split; [done|by eapply descriptor_offset]].
  unfold Seek. erewrite bind_Ret by (apply at_fd_Ret, Hd). erewrite bind_Ret by reflexivity. by destruct w.
Qed.

(** [Open] takes the lowest free descriptor. *)
Lemma Fsw_Open_run w path flags fh t :
  fds_ok w -> 0 ∈ freefd w -> Open path flags (fsw_fs w) = Ret (0, Some fh) t ->
  exists fd w', Fsw_Open path flags w = Ret fd w' /\ fsw_fs w' = t /\ descriptor w' fd fh 0 flags /\ fds_ok w' /\
    freefd w !! Z.to_nat fd = Some 0 /\ freefd w' = <[Z.to_nat fd := 1]> (freefd w).
Proof.
  intros Hok Hfree Ho. destruct (GetFileDescriptor_spec w Hok) as [(i & Hi & H0 & _ & Hg & Hok')|[Hall _]]; cycle 1.
  { by apply (proj1 (list.Forall_forall _ _) Hall) in Hfree. }
  assert (is_Some (fis w !! i)) as [fi Hfi] by (apply lookup_lt_is_Some; rewrite (fd_fis _ Hok); lia).
  destruct Hok as [F1 F2 F3 F4 F5].
  eexists (Z.of_nat i), _. unfold Fsw_Open. erewrite bind_Ret by exact Hg.
  erewrite bind_Ret by (apply at_fd_Ret; lia). rewrite Nat2Z.id.
  do 3 (erewrite bind_Ret by reflexivity). erewrite bind_Ret by (by apply in_fs_Ret). cbv iota beta.
  erewrite bind_Ret by reflexivity. cbn [fsw_fs freefd fis offsets paths put_fi put_fs put_offsets put_paths put_freefd].
  split; [reflexivity|]. cbn [fsw_fs freefd fis offsets paths put_fi put_fs put_offsets put_paths put_freefd].
  split_and!; try done.
  - split; cbn [fsw_fs freefd fis offsets paths put_fi put_fs put_offsets put_paths put_freefd]; rewrite ?Nat2Z.id.
    + lia.
    + by rewrite !list_lookup_alter_eq, Hfi.
    + apply list_lookup_insert_eq. lia.
  - destruct Hok' as [G1 G2 _ _ _].
    split; cbn [fsw_fs freefd fis offsets paths put_fi put_fs put_offsets put_paths put_freefd] in *;
      rewrite ?length_alter, ?length_insert; done.
Qed.
End facts.
