(* ===== verification/FsBench.v ===== *)
(** The workloads of the benchmark: [src/fsbench.cpp].

    A workload is the work of one thread on the file system under
    [TableFSWrapper]; how the threads start and stop is in [BenchThreads]. [rand]
    of the C library is a parameter, a sequence for every seed, and so is the time
    of day. What is printed is left out, but for the counts of errors, which are
    the results. *)

From S2P Require Import Prelude Hashes Coding WriteBatch Inode DCache Cache Kv ICache Posix Properties Allocator Trace Random State TableFS FsInv FsOps FsRename FsFile FsTruncate FsDir FsFrame FsMount FsSpec FsHistory FsWrapper.

Set Default Proof Using "Type".

Local Open Scope tfs_scope.

(** * The order in which paths are visited *)

Section order.
Context (rand_of : nat -> Z).

(** The loop of the constructor, from [i] on: the order so far, and the rounds
    left. *)
Fixpoint shuffle (rounds : nat) (i : nat) (path_order : list Z) : list Z :=
  match rounds with
  | O => path_order
  | S rounds' =>
      let j := Z.to_nat (Z.rem (rand_of i) (Z.of_nat i)) in
      let path_order := path_order ++ [default 0 (path_order !! j)] in
      shuffle rounds' (S i) (<[j := Z.of_nat i]> path_order)
  end.

(** [path_order[0] = 0] for [npath] at least 1. *)
Definition make_path_order (npath : nat) : list Z := shuffle (npath - 1) 1 [0].
End order.

(** * The workloads *)

Definition S_IRWXU : Z := 448.
Definition S_IRWXG : Z := 56.
Definition S_IRWXO : Z := 7.
Definition mode_all : Z := Z.lor (Z.lor S_IRWXU S_IRWXG) S_IRWXO.
Definition mode_ug : Z := Z.lor S_IRWXU S_IRWXG.

Record ThreadState : Type := mkThread { th_tid : Z; th_step : Z; op_count_ : Z }.

Definition ThreadState_new (index numthreads : Z) : ThreadState := mkThread index numthreads 0.

(** [%016d] *)
Definition fmt_016d (n : Z) : bytes :=
  if n <? 0 then 45 :: let d := fmt_d (- n) in replicate (15 - length d) 48 ++ d
  else let d := fmt_d n in replicate (16 - length d) 48 ++ d.

Section bench.
Context {S It : Type} `{!KvWrapper S It} (env : environment).
Context (rand_of : Z -> nat -> Z) (now : Z) (prop : Properties) (path_order : list Z).

(** The file system, the trace, the seed of [rand] and how many numbers were
    drawn, and the thread. *)
Record bench : Type := mkBench {
  b_fs : fsw S;
  b_loader : TraceLoader;
  b_seed : Z;
  b_drawn : nat;
  b_thread : ThreadState
}.

Abbreviation bench_prog := (prog bench).

Definition put_bfs (w : fsw S) (b : bench) : bench := mkBench w (b_loader b) (b_seed b) (b_drawn b) (b_thread b).
Definition put_loader (l : TraceLoader) (b : bench) : bench := mkBench (b_fs b) l (b_seed b) (b_drawn b) (b_thread b).
Definition put_rand (seed : Z) (drawn : nat) (b : bench) : bench := mkBench (b_fs b) (b_loader b) seed drawn (b_thread b).
Definition put_thread (t : ThreadState) (b : bench) : bench := mkBench (b_fs b) (b_loader b) (b_seed b) (b_drawn b) t.

Definition on_fs {A} (p : prog (fsw S) A) : bench_prog A := zoom b_fs put_bfs p.
Definition on_loader {A} (p : prog TraceLoader A) : bench_prog A := zoom b_loader put_loader p.

Definition IncreaseCount (num_ops : Z) : bench_prog unit :=
  modify (fun b => put_thread (mkThread (th_tid (b_thread b)) (th_step (b_thread b)) (i32 (op_count_ (b_thread b) + num_ops))) b).

Definition srand (seed : Z) : bench_prog unit := modify (put_rand seed 0).
Definition rand : bench_prog Z :=
  b <- get_state ;;
  modify (put_rand (b_seed b) (Datatypes.S (b_drawn b))) ;;;
  ret (rand_of (b_seed b) (b_drawn b)).

(** [a % b] on [int]s. *)
Definition rem_int (a b : Z) : bench_prog Z := if b =? 0 then undefined OutOfBounds else ret (Z.rem a b).

(** [strcpy (end_fpath, path)] behind the target in [char fpath[4096]]. *)
Definition full_path (path : bytes) : bench_prog bytes :=
  sprintf 4096 (getProperty1 (str "target") prop ++ str "/" ++ path).

(** The string a pointer of the trace points to. *)
Definition path_string (p : addr) : bench_prog bytes :=
  b <- get_state ;; deref OutOfBounds (string_at 4096 p (tl_memory (b_loader b))).

Definition property (name : string) : Z := getPropertyInt (str name) 0 prop.

(** [for (int i = i0; i < n; i += step) body (i)], at most [fuel] rounds; the body
    may leave the workload. *)
Fixpoint stride {A} (fuel : nat) (i n step : Z) (acc : A) (body : Z -> A -> bench_prog (A * bool)) : bench_prog A :=
  if i <? n then
    match fuel with
    | O => undefined Unfinished
    | Datatypes.S fuel' =>
        ' (acc, go_on) <- body i acc ;;
        if (go_on : bool) then stride fuel' (i32 (i + step)) n step acc body else ret acc
    end
  else ret acc.

(** The loop from the thread's number on, in steps of the number of threads. *)
Definition thread_loop {A} (n : Z) (acc : A) (body : Z -> A -> bench_prog (A * bool)) : bench_prog A :=
  b <- get_state ;;
  stride (Z.to_nat n) (th_tid (b_thread b)) n (th_step (b_thread b)) acc body.
Definition full_loop {A} (n : Z) (acc : A) (body : Z -> A -> bench_prog (A * bool)) : bench_prog A :=
  stride (Z.to_nat n) 0 n 1 acc body.

Definition next {A} (acc : A) : bench_prog (A * bool) := ret (acc, true).

(** The bodies of the two loops of [MetadataCreate]. *)
Definition make_dir (i : Z) (acc : unit) : bench_prog (unit * bool) :=
  p <- on_loader (GetDirPath i) ;;
  match p with
  | Some p =>
      path <- path_string p ;;
      fpath <- full_path path ;;
      on_fs (Mkdir env fpath mode_all) ;;;
      IncreaseCount 1 ;;;
      next acc
  | None => next acc
  end.

Definition make_file (i cnt : Z) : bench_prog (Z * bool) :=
  p <- on_loader (GetFilePath i) ;;
  match p with
  | Some p =>
      path <- path_string p ;;
      fpath <- full_path path ;;
      r <- on_fs (Mknod env fpath mode_all 0) ;;
      IncreaseCount 1 ;;;
      next (if r <? 0 then cnt + 1 else cnt)
  | None => next cnt
  end.

Definition MetadataCreate : bench_prog Z :=
  numdirs <- on_loader GetNumDirectoryPaths ;;
  full_loop numdirs tt make_dir ;;;
  thread_loop (property "create_numpaths") 0 make_file.

Definition MetadataCreateWithCompact : bench_prog Z :=
  cnt <- MetadataCreate ;;
  on_fs (in_fs Compact) ;;;
  ret cnt.

(** The choice between [Chmod], [Utime] and [Stat] that two workloads share. *)
Definition query (fpath : bytes) (ratio : Z) : bench_prog Z :=
  q <- rand ;;
  let qi := Z.rem q 100 in
  if Z.rem qi 100 <? Z.quot ratio 2 then on_fs (Fsw_Chmod fpath mode_ug)
  else if Z.rem qi 100 <? ratio then on_fs (Utime env fpath now now)
  else ' (r, _) <- on_fs (Stat fpath) ;; ret r.

Definition MetadataQueryTest : bench_prog Z :=
  numdirs <- on_loader GetNumDirectoryPaths ;;
  let npath := i32 (property "create_numpaths" + numdirs) in
  srand 100 ;;;
  full_loop (property "query_number") 0 (fun _ cnt =>
    x <- rand ;;
    pi <- rem_int x npath ;;
    p <- on_loader (GetPath pi) ;;
    match p with
    | Some p =>
        path <- path_string p ;;
        fpath <- full_path path ;;
        r <- query fpath (property "readwrite_readratio") ;;
        IncreaseCount 1 ;;;
        next (if r <? 0 then cnt + 1 else cnt)
    | None => next cnt
    end).

(** [sprintf (end_fpath, "/f%016d", n)] *)
Definition onedir_path (n : Z) : bench_prog bytes := full_path (str "/f" ++ fmt_016d n).

Definition OnedirCreate : bench_prog Z :=
  let numpaths := property "create_numpaths" in
  srand 100 ;;;
  thread_loop numpaths 0 (fun _ bad_count =>
    x <- rand ;;
    n <- rem_int x numpaths ;;
    fpath <- onedir_path n ;;
    r <- on_fs (Mknod env fpath mode_all 0) ;;
    IncreaseCount 1 ;;;
    next (if r <? 0 then bad_count + 1 else bad_count)).

Definition OnedirQueryTest : bench_prog Z :=
  let npath := property "create_numpaths" in
  srand 100 ;;;
  full_loop (property "query_number") 0 (fun _ bad_count =>
    x <- rand ;;
    pi <- rem_int x npath ;;
    fpath <- onedir_path pi ;;
    r <- query fpath (property "readwrite_readratio") ;;
    IncreaseCount 1 ;;;
    next (if r <? 0 then bad_count + 1 else bad_count)).

(** The contents of the files: random letters. *)
Fixpoint random_content (size : nat) : bench_prog bytes :=
  match size with
  | O => ret []
  | Datatypes.S size' => x <- rand ;; rest <- random_content size' ;; ret (Z.rem x 26 + 97 :: rest)
  end.

(** The content is written from a [char] array: [new char[content_size]]. *)
Definition SmallFileCreate : bench_prog unit :=
  numdirs <- on_loader GetNumDirectoryPaths ;;
  let numpaths := i32 (property "create_numpaths" + numdirs) in
  let content_size := property "filesize" in
  if content_size <? 0 then undefined OutOfBounds else
  content <- random_content (Z.to_nat content_size) ;;
  thread_loop numpaths tt (fun i acc =>
    p <- on_loader (GetPath_type i) ;;
    match p with
    | Some (p, filetype) =>
        path <- path_string p ;;
        fpath <- full_path path ;;
        if filetype =? 102 then
          on_fs (Mknod env fpath mode_all 0) ;;;
          fd <- on_fs (Fsw_Open fpath O_WRONLY) ;;
          if fd >=? 0 then
            on_fs (Fsw_Write fd content) ;;;
            on_fs (Close fd) ;;;
            IncreaseCount 1 ;;;
            next acc
          else ret (acc, false)
        else if filetype =? 100 then
          on_fs (Mkdir env fpath mode_all) ;;;
          IncreaseCount 1 ;;;
          next acc
        else IncreaseCount 1 ;;; next acc
    | None => next acc
    end).

(** [Read] into the array the next [Write] takes its bytes from. *)
Definition SmallFileQueryTest : bench_prog unit :=
  let content_size := property "filesize" in
  if content_size <? 0 then undefined OutOfBounds else
  content <- random_content (Z.to_nat content_size) ;;
  let nfilepath := property "create_numpaths" in
  let ratio := property "readwrite_readratio" in
  srand 100 ;;;
  full_loop (property "query_number") content (fun _ content =>
    x <- rand ;;
    pi <- rem_int x nfilepath ;;
    p <- on_loader (GetFilePath pi) ;;
    p <- deref NullPointer p ;;
    path <- path_string p ;;
    fpath <- full_path path ;;
    q <- rand ;;
    let qi := Z.rem q 100 in
    content <- (if Z.rem qi 100 <? ratio then
       fd <- on_fs (Fsw_Open fpath O_RDONLY) ;;
       if fd >=? 0 then
         ' (_, data) <- on_fs (Fsw_Read fd content_size) ;;
         on_fs (Close fd) ;;;
         ret (data ++ drop (length data) content)
       else ret content
     else
       fd <- on_fs (Fsw_Open fpath O_WRONLY) ;;
       if fd >=? 0 then on_fs (Fsw_Write fd content) ;;; on_fs (Close fd) ;;; ret content else ret content) ;;
    IncreaseCount 1 ;;;
    next content) ;;;
  ret tt.

(** [path_order[i % numfiles]] *)
Definition ordered (i numfiles : Z) : bench_prog Z :=
  j <- rem_int i numfiles ;;
  if j <? 0 then undefined OutOfBounds else deref OutOfBounds (path_order !! Z.to_nat j).

Definition DeleteQueryTest : bench_prog Z :=
  let numfiles := property "create_numpaths" in
  thread_loop (property "query_number") 0 (fun i err_cnt =>
    x <- ordered i numfiles ;;
    p <- on_loader (GetFilePath x) ;;
    match p with
    | Some p =>
        path <- path_string p ;;
        fpath <- full_path path ;;
        r <- on_fs (Fsw_Unlink fpath) ;;
        if r <? 0 then next (err_cnt + 1) else IncreaseCount 1 ;;; next err_cnt
    | None => next err_cnt
    end).

(** A number from a picker, whose range must not be 0. *)
Definition pick_next (pk : RandomPicker) : bench_prog (Z * RandomPicker) :=
  if pk_range pk =? 0 then undefined OutOfBounds else ret (Picker_Next pk).

Definition thread_picker (range : Z) : bench_prog RandomPicker :=
  gets (fun b => RandomPicker_new (th_tid (b_thread b) + 1) (str "uniform") range).

(** The frame of the three workloads over directories; [None] when the listing
    takes more rounds than the model allows. *)
Definition dir_query (scan : bytes -> prog (fsw S) (option Z)) : bench_prog Z :=
  numdirs <- on_loader GetNumDirectoryPaths ;;
  picker <- thread_picker numdirs ;;
  ' (_, err_cnt) <- thread_loop (property "query_number") (picker, 0) (fun _ acc =>
    ' (x, pk) <- pick_next acc.1 ;;
    p <- on_loader (GetDirPath (i32 x)) ;;
    match p with
    | Some p =>
        path <- path_string p ;;
        fpath <- full_path path ;;
        ops <- on_fs (scan fpath) ;;
        ops <- deref Unfinished ops ;;
        if ops <? 0 then next (pk, acc.2 + 1) else IncreaseCount ops ;;; next (pk, acc.2)
    | None => next (pk, acc.2)
    end) ;;
  ret err_cnt.

Definition ScanQueryTest (fuel : nat) : bench_prog Z := dir_query (Listdir fuel).
Definition LsstatQueryTest (fuel : nat) : bench_prog Z := dir_query (Lsstat fuel).
Definition ScanfileQueryTest (fuel : nat) : bench_prog Z := dir_query (Scanfile env fuel).

Definition RenameQueryTest : bench_prog Z :=
  numdirs <- on_loader GetNumDirectoryPaths ;;
  let numfiles := property "create_numpaths" in
  let rename_type := property "rename_type" in
  dir_picker <- thread_picker numdirs ;;
  ' (_, err_cnt) <- thread_loop (property "query_number") (dir_picker, 0) (fun i acc =>
    x <- ordered i numfiles ;;
    p <- on_loader (GetFilePath x) ;;
    match p with
    | Some p =>
        path <- path_string p ;;
        src_path <- full_path path ;;
        ' (dst_path, pk) <-
          (if rename_type =? 0 then
             d <- full_path (path ++ str ".rename") ;; ret (d, acc.1)
           else
             ' (y, pk) <- pick_next acc.1 ;;
             q <- on_loader (GetDirPath (i32 y)) ;;
             q <- deref NullPointer q ;;
             dir <- path_string q ;;
             d <- full_path (dir ++ fmt_016d i) ;;
             ret (d, pk)) ;;
        r <- on_fs (Fsw_Rename src_path dst_path) ;;
        if r <? 0 then next (pk, acc.2 + 1) else IncreaseCount 1 ;;; next (pk, acc.2)
    | None => next acc
    end) ;;
  ret err_cnt.
End bench.

(** * The list of benchmarks *)

Inductive method : Type :=
| M_MetadataCreate | M_MetadataCreateWithCompact | M_MetadataQueryTest | M_OnedirCreate | M_OnedirQueryTest
| M_SmallFileCreate | M_SmallFileQueryTest | M_ScanQueryTest | M_LsstatQueryTest | M_ScanfileQueryTest
| M_RenameQueryTest | M_DeleteQueryTest.

Definition method_names : list (bytes * method) :=
  [(str "metadatacreate", M_MetadataCreate); (str "metadatacreatecompact", M_MetadataCreateWithCompact);
   (str "metadataquery", M_MetadataQueryTest); (str "onedircreate", M_OnedirCreate);
   (str "onedirquery", M_OnedirQueryTest); (str "smallfilecreate", M_SmallFileCreate);
   (str "smallfilequery", M_SmallFileQueryTest); (str "scanquery", M_ScanQueryTest);
   (str "lsstatquery", M_LsstatQueryTest); (str "scanfilequery", M_ScanfileQueryTest);
   (str "renamequery", M_RenameQueryTest); (str "deletequery", M_DeleteQueryTest)].

(** The chain of comparisons. *)
Fixpoint method_of (names : list (bytes * method)) (bench : bytes) : option method :=
  match names with
  | [] => None
  | (name, m) :: names' => if decide (bench = name) then Some m else method_of names' bench
  end.

(** [benchmarks.find (',', lastbench)] and [substr], as the part in front of the
    comma and what is behind it. *)
Fixpoint cut_comma (l : bytes) : bytes * option bytes :=
  match l with
  | [] => ([], None)
  | b :: l' => if b =? 44 then ([], Some l') else let '(x, rest) := cut_comma l' in (b :: x, rest)
  end.

(** The loop of [Run]: the methods in the order they are run, unknown names left
    out. Every round takes a byte at least. *)
Fixpoint run_methods (fuel : nat) (benchmarks : bytes) : list method :=
  match fuel, benchmarks with
  | O, _ | _, [] => []
  | S fuel', _ =>
      let '(bench, rest) := cut_comma benchmarks in
      let more := match rest with Some r => run_methods fuel' r | None => [] end in
      match method_of method_names bench with Some m => m :: more | None => more end
  end.

Definition Run_methods (benchmarks : bytes) : list method := run_methods (length benchmarks) benchmarks.

Section run.
Context {S It : Type} `{!KvWrapper S It} (env : environment).
Context (rand_of : Z -> nat -> Z) (now : Z) (prop : Properties) (path_order : list Z).

(** The work of one thread for a method; [fuel] bounds the listings. *)
Definition run_method (fuel : nat) (m : method) : prog (bench (S := S)) unit :=
  match m with
  | M_MetadataCreate => MetadataCreate env prop ;;; ret tt
  | M_MetadataCreateWithCompact => MetadataCreateWithCompact env prop ;;; ret tt
  | M_MetadataQueryTest => MetadataQueryTest env rand_of now prop ;;; ret tt
  | M_OnedirCreate => OnedirCreate env rand_of prop ;;; ret tt
  | M_OnedirQueryTest => OnedirQueryTest env rand_of now prop ;;; ret tt
  | M_SmallFileCreate => SmallFileCreate env rand_of prop
  | M_SmallFileQueryTest => SmallFileQueryTest rand_of prop
  | M_ScanQueryTest => ScanQueryTest prop fuel ;;; ret tt
  | M_LsstatQueryTest => LsstatQueryTest prop fuel ;;; ret tt
  | M_ScanfileQueryTest => ScanfileQueryTest env prop fuel ;;; ret tt
  | M_RenameQueryTest => RenameQueryTest prop path_order ;;; ret tt
  | M_DeleteQueryTest => DeleteQueryTest prop path_order ;;; ret tt
  end.
End run.

(** * The order is a permutation *)

Lemma shuffle_perm rand_of rounds i l : (0 < i)%nat -> (forall k, 0 <= rand_of k) ->
  l ≡ₚ seqZ 0 (Z.of_nat i) -> shuffle rand_of rounds i l ≡ₚ seqZ 0 (Z.of_nat (i + rounds)).
Proof.
  intros Hi Hr. revert i l Hi. induction rounds as [|rounds IH]; intros i l Hi Hl; cbn [shuffle].
  { by rewrite Nat.add_0_r. }
  replace (i + S rounds)%nat with (S i + rounds)%nat by lia. apply IH; [lia|].
  assert (Hlen : length l = i) by (rewrite Hl, length_seqZ; lia).
  pose proof (Z.rem_bound_pos (rand_of i) (Z.of_nat i) (Hr i) ltac:(lia)) as Hj.
  destruct (lookup_lt_is_Some_2 l (Z.to_nat (Z.rem (rand_of i) (Z.of_nat i)))) as [x Hx]; [lia|]. rewrite Hx. cbn [default].
  set (j := Z.to_nat (Z.rem (rand_of i) (Z.of_nat i))) in *.
  rewrite insert_app_l by (apply lookup_lt_Some in Hx; lia).
  rewrite seqZ_S, <- Hl, Z.add_0_l.
  rewrite <- (take_drop_middle l j x Hx) at 2. rewrite insert_take_drop by (by eapply lookup_lt_Some).
  rewrite !(Permutation_app_comm _ [_]). cbn. rewrite <- !Permutation_middle. apply perm_swap.
Qed.

(** The order in which the workloads visit the paths has every path exactly
    once, whatever numbers the C library draws. *)
Theorem path_order_permutes (rand_of : nat -> Z) (npath : nat) : (0 < npath)%nat -> (forall k, 0 <= rand_of k) ->
  make_path_order rand_of npath ≡ₚ seqZ 0 (Z.of_nat npath).
Proof.
  intros Hn Hr. unfold make_path_order. replace npath with (1 + (npath - 1))%nat at 2 by lia. by apply shuffle_perm; [lia|..].
Qed.

Lemma path_order_permutes_witness : make_path_order (fun k => Z.of_nat (7 * k)) 5 ≡ₚ [0; 1; 2; 3; 4].
Proof. apply (path_order_permutes (fun k => Z.of_nat (7 * k)) 5); [lia|intros; lia]. Defined.

(** * The list of benchmarks *)

Fixpoint join_comma (names : list bytes) : bytes :=
  match names with
  | [] => []
  | [name] => name
  | name :: names' => name ++ 44 :: join_comma names'
  end.

Lemma cut_comma_app x rest : Forall (fun b => b <> 44) x -> cut_comma (x ++ 44 :: rest) = (x, Some rest).
Proof. induction 1 as [|b x Hb _ IH]; [done|]. cbn. rewrite IH. by replace (b =? 44) with false by (symmetry; lia). Qed.

Lemma cut_comma_last x : Forall (fun b => b <> 44) x -> cut_comma x = (x, None).
Proof. induction 1 as [|b x Hb _ IH]; [done|]. cbn. rewrite IH. by replace (b =? 44) with false by (symmetry; lia). Qed.

Lemma run_methods_join names fuel : Forall (Forall (fun b => b <> 44)) names -> (length (join_comma names) <= fuel)%nat ->
  run_methods fuel (join_comma names) = omap (method_of method_names) names.
Proof.
  intros Hn. revert fuel. induction Hn as [|x names Hx Hn IH]; intros fuel Hf; [by destruct fuel|].
  destruct names as [|y names].
  - cbn [join_comma] in *. destruct x as [|b x]; [by destruct fuel|]. destruct fuel as [|fuel]; [cbn in Hf; lia|].
    cbn [run_methods]. rewrite cut_comma_last by done. cbn [omap list_omap]. by destruct (method_of _ _).
  - change (join_comma (x :: y :: names)) with (x ++ 44 :: join_comma (y :: names)) in *.
    rewrite length_app in Hf. cbn [length] in Hf. destruct fuel as [|fuel]; [lia|].
    assert (Hrun : run_methods (S fuel) (x ++ 44 :: join_comma (y :: names)) =
      (let '(bench, rest) := cut_comma (x ++ 44 :: join_comma (y :: names)) in
       let more := match rest with Some r => run_methods fuel r | None => [] end in
       match method_of method_names bench with Some m => m :: more | None => more end)) by by destruct x.
    rewrite Hrun, cut_comma_app by done. rewrite IH by lia. cbn [omap list_omap]. by destruct (method_of method_names x).
Qed.

(** [Run] runs the known benchmarks of the list in their order. *)
Lemma Run_methods_join names : Forall (Forall (fun b => b <> 44)) names ->
  Run_methods (join_comma names) = omap (method_of method_names) names.
Proof. intros Hn. by apply run_methods_join. Qed.

(** * The loops *)

(** The indexes a loop visits. *)
Fixpoint visited (fuel : nat) (i n step : Z) : list Z :=
  match fuel with
  | O => []
  | S fuel' => if i <? n then i :: visited fuel' (i + step) n step else []
  end.

Lemma visited_iff fuel i n step x : 0 < step -> n - i <= Z.of_nat fuel ->
  x ∈ visited fuel i n step <-> exists q, 0 <= q /\ x = i + q * step /\ x < n.
Proof.
  intros Hs. revert i. induction fuel as [|fuel IH]; intros i Hf; cbn [visited].
  - split; [by intros ?%not_elem_of_nil|]. intros (q & Hq & -> & Hx). nia.
  - destruct (i <? n) eqn:E; bool_to_prop.
    + rewrite elem_of_cons, IH by lia. split.
      * intros [->|(q & Hq & -> & Hx)]; [exists 0; lia|]. exists (q + 1). lia.
      * intros (q & Hq & -> & Hx). destruct (decide (q = 0)) as [->|]; [left; lia|right]. exists (q - 1). lia.
    + split; [by intros ?%not_elem_of_nil|]. intros (q & Hq & -> & Hx). nia.
Qed.

Lemma visited_NoDup fuel i n step : 0 < step -> NoDup (visited fuel i n step).
Proof.
  intros Hs. revert i. induction fuel as [|fuel IH]; intros i; cbn [visited]; [constructor|].
  destruct (i <? n); [|constructor]. constructor; [|apply IH].
  assert (H : Forall (fun x => i < x) (visited fuel (i + step) n step)); [|intros Hin; rewrite Forall_forall in H].
  - clear IH. assert (Hlt : i < i + step) by lia. revert Hlt. generalize (i + step) as j. induction fuel as [|fuel IH]; intros j Hj; cbn [visited]; [constructor|].
    destruct (j <? n); constructor; [done|]. apply IH. lia.
  - apply list_elem_of_In in Hin. specialize (H i Hin). lia.
Qed.

(** Each index below [n] is visited by exactly one of [k] threads, and once. *)
Lemma threads_share n k x : 0 < k -> 0 <= x < n ->
  x ∈ visited (Z.to_nat n) (x mod k) n k /\
  forall tid, 0 <= tid < k -> x ∈ visited (Z.to_nat n) tid n k -> tid = x mod k.
Proof.
  intros Hk Hx. pose proof (Z.mod_pos_bound x k Hk) as Hm. split.
  - apply visited_iff; [done|lia|]. exists (x / k). pose proof (Z.div_mod x k ltac:(lia)). split; [apply Z.div_pos; lia|lia].
  - intros tid Ht Hin. apply visited_iff in Hin as (q & Hq & Heq & _); [|done|lia]. apply Z.mod_unique_pos with q; lia.
Qed.

Section loops.
Context {S : Type} {A : Type} (body : Z -> A -> prog (bench (S := S)) (A * bool)).
Context {X : Type} (spec : Z -> A * X -> option (A * X)) (sim : X -> bench (S := S) -> Prop).

Fixpoint spec_loop (is_ : list Z) (x : A * X) : option (A * X) :=
  match is_ with
  | [] => Some x
  | i :: is' => x' ← spec i x; spec_loop is' x'
  end.

Context (Hbody : forall i a x a' x' b, sim x b -> spec i (a, x) = Some (a', x') ->
  exists b', body i a b = Ret (a', true) b' /\ sim x' b').

(** A loop whose rounds follow a specification follows it over all its indexes. *)
Lemma stride_sim fuel i n step a x a' x' b : 0 < step -> 0 <= i -> n + step < 2 ^ 31 -> n - i <= Z.of_nat fuel ->
  sim x b -> spec_loop (visited fuel i n step) (a, x) = Some (a', x') ->
  exists b', stride fuel i n step a body b = Ret a' b' /\ sim x' b'.
Proof using Hbody.
  intros Hs. revert i a x b. induction fuel as [|fuel IH]; intros i a x b Hi Hn Hf Hsim; cbn [visited stride].
  - replace (i <? n) with false by (symmetry; lia). intros [= <- <-]. by exists b.
  - destruct (i <? n) eqn:E; bool_to_prop; [|intros [= <- <-]; by exists b].
    cbn [spec_loop]. intros ([a1 x1] & Hx1 & Hrest)%bind_Some.
    destruct (Hbody i a x a1 x1 b Hsim Hx1) as (b1 & Hrun & Hsim1).
    erewrite bind_Ret by exact Hrun. cbn. rewrite i32_small by lia. apply (IH _ a1 x1); try done; lia.
Qed.
End loops.

(** * [MetadataCreate] builds the tree of the trace *)

(** Specification of a call of [Mkdir] or [Mknod] of the wrapper: an error when the
    path exists, otherwise whether it does afterwards. *)
Definition tree_new (mk : bytes -> op) (path : bytes) (st : fstree) : option (Z * fstree) :=
  _ ← guard (path_good path);
  match find st path with
  | Some _ => Some (-1, st)
  | None =>
      '(_, st') ← step (mk path) st;
      Some (match find st' path with Some _ => 0 | None => - ENOENT end, st')
  end.

(** One path of the trace: the tree, and the number of operations. *)
Definition tree_entry (mk : bytes -> op) (target : bytes) (e : option (bytes * Z)) (x : fstree * Z) : option (Z * (fstree * Z)) :=
  match e with
  | None => None
  | Some e =>
      let fpath := target ++ str "/" ++ e.1 in
      _ ← guard ((length fpath < 4096)%nat /\ 0 <= x.2 < 2 ^ 31 - 1);
      '(code, st') ← tree_new mk fpath x.1;
      Some (code, (st', x.2 + 1))
  end.

Section creates.
Context (target : bytes) (es : list (bytes * Z)) (files : Z).

Definition num_dirs : Z := Z.of_nat (length es) - files.

Definition create_dir (i : Z) (x : unit * (fstree * Z)) : option (unit * (fstree * Z)) :=
  _ ← guard (0 <= i < num_dirs);
  '(_, y) ← tree_entry (fun p => OpMkdir p mode_all) target (es !! Z.to_nat i) x.2;
  Some (tt, y).

(** Counts the files that could not be made. *)
Definition create_file (i : Z) (x : Z * (fstree * Z)) : option (Z * (fstree * Z)) :=
  if (0 <=? i) && (i <? files) then
    '(code, y) ← tree_entry (fun p => OpMknod p mode_all 0) target (es !! Z.to_nat (num_dirs + i)) x.2;
    Some (if code <? 0 then x.1 + 1 else x.1, y)
  else Some x.

(** All directories, and the files of thread [tid] of [k]. *)
Definition tree_metadata_create (numpaths tid k : Z) (x : fstree * Z) : option (Z * (fstree * Z)) :=
  '(_, y) ← spec_loop create_dir (visited (Z.to_nat num_dirs) 0 num_dirs 1) (tt, x);
  spec_loop create_file (visited (Z.to_nat numpaths) tid numpaths k) (0, y).
End creates.

Section refinement.
Context {S It : Type} `{!KvWrapper S It, !KvSpec S It} (env : environment).
Implicit Types (T : table) (st : fstree) (w : fsw S).

(** The wrapper's file system represents a tree. *)
Definition shows st w : Prop := exists T, represents env T st (fsw_fs w).

Lemma in_fs_step {A} (p : prog (tfs S) A) (f : A -> result) o st r st' w :
  (forall t, do_op env o t = bind p (fun x => ret (f x)) t) -> step o st = Some (r, st') -> shows st w -> (forall r', agrees r r' -> r' = r) ->
  exists x w', in_fs p w = Ret x w' /\ f x = r /\ shows st' w'.
Proof.
  intros Hop Hs (T & Hrep) Hag. destruct (step_ok env o st r st' Hs T _ Hrep) as (r' & t' & T' & Hrun & Ha & Hrep').
  rewrite Hop in Hrun. apply bind_inv in Hrun as (x & t1 & Hp & Hret). injection Hret as Hf <-.
  exists x, (put_fs t1 w). split; [by apply in_fs_Ret|]. split; [by rewrite Hf; apply Hag|]. by exists T'.
Qed.

Lemma agrees_code c r' : agrees (RCode c) r' -> r' = RCode c.
Proof. by inversion 1. Qed.

Lemma agrees_attrs c a r' : agrees (RAttrs c a) r' -> r' = RAttrs c a.
Proof. by inversion 1. Qed.

(** What [GetAttr] returns for a path. *)
Definition found st (path : bytes) : Z := match find st path with Some _ => 0 | None => - ENOENT end.

Lemma Stat_shows path st w : path_good path -> shows st w ->
  exists s w', Stat path w = Ret (found st path, s) w' /\ shows st w'.
Proof.
  intros Hp Hw. assert (Hs : exists a, step (OpGetattr path) st = Some (RAttrs (found st path) a, st)).
  { cbn. unfold get_attrs, found. rewrite option_guard_True by done. cbn. destruct (find st path) as [[k n]|]; by eexists. }
  destruct Hs as (a & Hs). unfold Stat.
  destruct (in_fs_step (GetAttr path) (fun x => RAttrs x.1 (attrs_of <$> x.2)) (OpGetattr path) st (RAttrs (found st path) a) st w)
    as ([c s] & w' & Hrun & Hc & Hw'); [|exact Hs|done|apply agrees_attrs|].
  - intros t. cbn. apply bind_ext. by intros [].
  - injection Hc as -> _. by exists s, w'.
Qed.

(** [Mkdir] and [Mknod]: look, make, look again. *)
Lemma make_shows (p : prog (tfs S) Z) (mk : bytes -> op) (on_exists : prog (fsw S) Z) path st w code st' :
  (forall t, do_op env (mk path) t = bind p (fun x => ret (RCode x)) t) ->
  (forall r st1 st2, step (mk path) st1 = Some (r, st2) -> exists c, r = RCode c) ->
  (forall w, shows st w -> exists w', on_exists w = Ret (-1) w' /\ shows st w') ->
  tree_new mk path st = Some (code, st') -> shows st w ->
  exists w', (' (r, _) <- Stat path ;; if r =? 0 then on_exists else in_fs p ;;; ' (r, _) <- Stat path ;; ret r) w = Ret code w' /\
    shows st' w'.
Proof.
  intros Hop Hcode Hex Hnew Hw. unfold tree_new in Hnew. apply bind_Some in Hnew as (Hp & _ & Hnew).
  destruct (Stat_shows path st w Hp Hw) as (s1 & w1 & Hs1 & Hw1). erewrite bind_Ret by exact Hs1. cbv beta iota. unfold found.
  destruct (find st path) as [[k n]|] eqn:Hf; [change (0 =? 0) with true|change (- ENOENT =? 0) with false]; cbv iota.
  - injection Hnew as <- <-. by apply Hex.
  - apply bind_Some in Hnew as ([r st1] & Hst & [= <- <-]). destruct (Hcode _ _ _ Hst) as [c ->].
    destruct (in_fs_step p RCode (mk path) st (RCode c) st1 w1 Hop Hst Hw1 (agrees_code c)) as (x & w2 & Hrun & _ & Hw2).
    erewrite bind_Ret by exact Hrun. destruct (Stat_shows path st1 w2 Hp Hw2) as (s3 & w3 & Hs3 & Hw3).
    exists w3. split; [by erewrite bind_Ret by exact Hs3|done].
Qed.

Lemma create_code path mk st r st' : create path mk st = Some (r, st') -> exists c, r = RCode c.
Proof.
  unfold create. intros (_ & _ & H)%bind_Some. destruct (locate st path) as [[k name]|]; [|injection H as <- <-; eauto].
  apply bind_Some in H as (_ & _ & [= <- <-]). eauto.
Qed.

Lemma Mkdir_shows path mode st w code st' : tree_new (fun p => OpMkdir p mode) path st = Some (code, st') -> shows st w ->
  exists w', Mkdir env path mode w = Ret code w' /\ shows st' w'.
Proof.
  apply (make_shows (MakeDir env path mode) (fun p => OpMkdir p mode) (ret (-1))).
  - done.
  - intros r st1 st2. cbn. intros (_ & _ & H)%bind_Some. by eapply create_code.
  - intros w' Hw. by exists w'.
Qed.

Lemma set_errno_shows e st w : shows st w -> exists w', (in_fs (set_errno e) ;;; ret (-1)) w = Ret (-1) w' /\ shows st w'.
Proof.
  intros (T & Hrep). set (t := fsw_fs w) in *.
  assert (Hrun : set_errno e t = Ret tt (put_st ((t_st t).1, with_errno e (t_st t).2) t)) by done.
  eexists. split; [by erewrite bind_Ret by (apply in_fs_Ret; exact Hrun)|]. exists T. cbn [fsw_fs put_fs].
  apply (represents_same env T st t); [done|by eapply keeps_run; [|exact Hrun]; apply _|].
  pose proof (rp_fs _ _ _ _ Hrep) as HF. apply (FS_os T idle t); try done.
  destruct HF as [_ _ _ _ [Hd _]]. by apply (dirs_ok_eq (t_st t).1 (t_st t).2).
Qed.

Lemma Mknod_shows path mode dev st w code st' : tree_new (fun p => OpMknod p mode dev) path st = Some (code, st') -> shows st w ->
  exists w', Mknod env path mode dev w = Ret code w' /\ shows st' w'.
Proof.
  apply (make_shows (MakeNode env path mode dev) (fun p => OpMknod p mode dev) (in_fs (set_errno EEXIST) ;;; ret (-1))).
  - done.
  - intros r st1 st2. cbn. intros (_ & _ & H)%bind_Some. by eapply create_code.
  - intros w'. apply set_errno_shows.
Qed.

(** The loader of [es] is loaded, the thread is [tid] of [k]. *)
Definition working (l : TraceLoader) (tid k : Z) (x : fstree * Z) (b : bench (S := S)) : Prop :=
  shows x.1 (b_fs b) /\ b_loader b = l /\ b_thread b = mkThread tid k x.2.

Lemma on_fs_run {A} (p : prog (fsw S) A) (b : bench (S := S)) a w : p (b_fs b) = Ret a w -> on_fs p b = Ret a (put_bfs w b).
Proof. intros H. by apply zoom_Ret. Qed.

Lemma on_loader_run {A} (p : prog TraceLoader A) (b : bench (S := S)) a : p (b_loader b) = Ret a (b_loader b) -> on_loader p b = Ret a b.
Proof. intros H. unfold on_loader. erewrite zoom_Ret by exact H. by destruct b. Qed.

(** The path, the call and the count of one round. *)
Lemma entry_round {A : Type} (prop : Properties) (mk : bytes -> op) (call : bytes -> prog (fsw S) Z) (k : Z -> A) l tid n q e x code y b :
  (forall path st w code st', tree_new mk path st = Some (code, st') -> shows st w ->
     exists w', call path w = Ret code w' /\ shows st' w') ->
  string_at 4096 q (tl_memory l) = Some e.1 ->
  tree_entry mk (getProperty1 (str "target") prop) (Some e) x = Some (code, y) -> working l tid n x b ->
  exists b', (path <- path_string q ;; fpath <- full_path prop path ;; r <- on_fs (call fpath) ;; IncreaseCount 1 ;;; next (k r)) b =
    Ret (k code, true) b' /\ working l tid n y b'.
Proof.
  intros Hcall Hq Hent (Hw & Hl & Ht). unfold tree_entry in Hent. cbv zeta in Hent.
  apply bind_Some in Hent as ([Hlen Hc] & _ & Hent). apply bind_Some in Hent as ([c st'] & Hnew & [= <- <-]).
  destruct (Hcall _ _ _ _ _ Hnew Hw) as (w' & Hrun & Hw').
  erewrite bind_Ret by (unfold path_string, bind, get_state; rewrite Hl, Hq; reflexivity).
  erewrite bind_Ret by (unfold full_path, sprintf; by rewrite decide_True).
  erewrite bind_Ret by (apply on_fs_run; exact Hrun). erewrite bind_Ret by reflexivity.
  eexists. split; [reflexivity|]. split; [done|]. split; [done|]. cbn. rewrite Ht. cbn. by rewrite i32_small by lia.
Qed.

Section create_bodies.
Context (prop : Properties) (es : list (bytes * Z)) (files tid k : Z) (l : TraceLoader).
Context (Hl : trace_loaded l es files) (Hf : 0 <= files <= Z.of_nat (length es)).

Lemma make_dir_sim i a x a' x' (b : bench (S := S)) : working l tid k x b ->
  create_dir (getProperty1 (str "target") prop) es files i (a, x) = Some (a', x') ->
  exists b', make_dir env prop i a b = Ret (a', true) b' /\ working l tid k x' b'.
Proof using Hl.
  intros Hw Hs. unfold create_dir in Hs. apply bind_Some in Hs as (Hi & _ & Hs). apply bind_Some in Hs as ([code y] & Hent & [= <- <-]).
  destruct (es !! Z.to_nat i) as [e|] eqn:He; [|done]. destruct Hl as (_ & _ & _ & Hes).
  destruct (Hes _ _ He) as (q & _ & _ & Hd & _ & Hq). rewrite Z2Nat.id in Hd by lia. destruct a.
  pose proof Hw as (_ & Hload & _). unfold make_dir.
  erewrite bind_Ret by (apply on_loader_run; rewrite Hload; apply Hd; unfold num_dirs in Hi; lia).
  apply (entry_round prop (fun p => OpMkdir p mode_all) (fun p => Mkdir env p mode_all) (fun _ => tt) l tid k q e x code y b); [|done..].
  intros path st w c st'. apply Mkdir_shows.
Qed.

Lemma make_file_sim i cnt x cnt' x' (b : bench (S := S)) : working l tid k x b ->
  create_file (getProperty1 (str "target") prop) es files i (cnt, x) = Some (cnt', x') ->
  exists b', make_file env prop i cnt b = Ret (cnt', true) b' /\ working l tid k x' b'.
Proof using Hl Hf.
  intros Hw Hs. pose proof Hw as (_ & Hload & _). destruct Hl as (_ & Hnf & Hnd & Hes). unfold create_file in Hs. unfold make_file.
  destruct ((0 <=? i) && (i <? files)) eqn:Hi.
  - apply bind_Some in Hs as ([code y] & Hent & [= <- <-]). bool_to_prop.
    destruct (es !! Z.to_nat (num_dirs es files + i)) as [e|] eqn:He; [|done].
    destruct (Hes _ _ He) as (q & _ & _ & _ & Hd & Hq). unfold num_dirs in *. rewrite Z2Nat.id in Hd by lia.
    replace (Z.of_nat (length es) - files + i - (Z.of_nat (length es) - files)) with i in Hd by lia.
    erewrite bind_Ret by (apply on_loader_run; rewrite Hload; apply Hd; lia).
    apply (entry_round prop (fun p => OpMknod p mode_all 0) (fun p => Mknod env p mode_all 0)
             (fun r => if r <? 0 then cnt + 1 else cnt) l tid k q e x code y b); [|done..].
    intros path st w c st'. apply Mknod_shows.
  - injection Hs as <- <-. exists b. split; [|done].
    assert (Hnone : on_loader (GetFilePath i) b = Ret None b); [|by erewrite bind_Ret by exact Hnone].
    apply on_loader_run. rewrite Hload. unfold GetFilePath. erewrite bind_Ret by reflexivity. by rewrite Hnf, Hi.
Qed.
End create_bodies.
(** The whole of a thread's [MetadataCreate]. *)
Lemma MetadataCreate_sim (prop : Properties) es files (tid k c : Z) (b : bench (S := S)) st cnt st' c' :
  shows st (b_fs b) -> trace_loaded (b_loader b) es files -> 0 <= files <= Z.of_nat (length es) ->
  Z.of_nat (length es) < 2 ^ 31 - 1 -> b_thread b = mkThread tid k c -> 0 <= tid -> 0 < k ->
  property prop "create_numpaths" + k < 2 ^ 31 ->
  tree_metadata_create (getProperty1 (str "target") prop) es files (property prop "create_numpaths") tid k (st, c) =
    Some (cnt, (st', c')) ->
  exists b', MetadataCreate env prop b = Ret cnt b' /\ shows st' (b_fs b') /\ op_count_ (b_thread b') = c'.
Proof.
  intros Hw (Hnp & Hnf & Hnd & Hes) Hf Hlen Hth Htid Hk Hn Hspec.
  unfold tree_metadata_create in Hspec. apply bind_Some in Hspec as ([[] y] & Hdirs & Hfiles).
  assert (Hsim : working (b_loader b) tid k (st, c) b) by done. unfold MetadataCreate.
  assert (Hnum : i32 (u64 (num_paths (b_loader b) - num_file_paths (b_loader b))) = num_dirs es files).
  { rewrite Hnp, Hnf. unfold num_dirs. rewrite u64_small, i32_small by lia. done. }
  erewrite bind_Ret by (apply on_loader_run; reflexivity). rewrite Hnum. unfold full_loop.
  assert (Hd : 0 <= num_dirs es files < 2 ^ 31 - 1) by (unfold num_dirs; lia).
  destruct (stride_sim (make_dir env prop) (create_dir (getProperty1 (str "target") prop) es files) (working (b_loader b) tid k)
    (make_dir_sim prop es files tid k (b_loader b) (conj Hnp (conj Hnf (conj Hnd Hes))))
    (Z.to_nat (num_dirs es files)) 0 (num_dirs es files) 1 tt (st, c) tt y b) as (b1 & Hrun1 & Hw1 & Hl1 & Ht1); try done; [lia|lia|].
  erewrite bind_Ret by exact Hrun1. unfold thread_loop. erewrite bind_Ret by reflexivity. rewrite Ht1.
  destruct (stride_sim (make_file env prop) (create_file (getProperty1 (str "target") prop) es files) (working (b_loader b) tid k)
    (make_file_sim prop es files tid k (b_loader b) (conj Hnp (conj Hnf (conj Hnd Hes))) Hf)
    (Z.to_nat (property prop "create_numpaths")) tid (property prop "create_numpaths") k 0 y cnt (st', c') b1)
    as (b2 & Hrun2 & Hw2 & Hl2 & Ht2); try done; [lia|].
  exists b2. split; [done|]. split; [done|]. by rewrite Ht2.
Qed.
End refinement.
