(* ===== verification/Scenario.v ===== *)
(** A concrete file system over the in-memory store: the empty mount, then a
    directory [/a] and a file [/a/f]. The instances of the theorems are stated
    on it. *)

From S2P Require Import Prelude Hashes Coding WriteBatch Inode DCache Cache Kv ICache Posix Properties State TableFS FsInv FsOps FsFile FsDir FsMount.

Set Default Proof Using "Type".

Abbreviation fs := (tfs MemKv).

(** The table an in-memory store holds. *)
Definition mem_table (s : MemKv) : table :=
  list_to_map ((fun kv => (key_of kv.1, kv.2)) <$> map_to_list s).

Lemma mem_table_lookup s k :
  (forall b v, s !! b = Some v -> exists k, key_ok k /\ b = ToSlice k) -> key_ok k ->
  mem_table s !! k = s !! ToSlice k.
Proof.
  intros Hkeys Hk. apply option_eq. intros v. unfold mem_table. rewrite <- elem_of_list_to_map.
  - rewrite list_elem_of_fmap. split.
    + intros ([b v'] & [= -> ->] & Hin%elem_of_map_to_list). destruct (Hkeys b v' Hin) as (k' & Hk' & ->).
      cbn [fst snd] in *. by rewrite key_of_ToSlice in *.
    + intros Hs. exists (ToSlice k, v). rewrite elem_of_map_to_list. cbn. by rewrite key_of_ToSlice.
  - rewrite <- list_fmap_compose. cbn. change (fst ∘ _) with (key_of ∘ @fst bytes bytes).
    rewrite list_fmap_compose. apply (NoDup_fmap_1 ToSlice). rewrite <- list_fmap_compose.
    rewrite (list_fmap_ext _ id); [rewrite list_fmap_id; apply NoDup_fst_map_to_list|].
    intros i b Hb. apply list_lookup_fmap_Some in Hb as ([b' v'] & -> & Hb). cbn.
    apply list_elem_of_lookup_2, elem_of_map_to_list in Hb. destruct (Hkeys _ _ Hb) as (k' & Hk' & ->).
    by rewrite key_of_ToSlice.
Qed.

(** With nothing open the table is the one the store holds. *)
Lemma FS_mem_table (T : table) (t : fs) : FS T idle t -> T = mem_table (w_metadb (t_ic t).2).
Proof.
  intros HFS. pose proof HFS as [(m & HI & Hso) _ Hset Htab _].
  assert (m = w_metadb (t_ic t).2) as <- by (symmetry; apply HI).
  apply map_eq. intros k.
  assert (forall k, key_ok k -> m !! ToSlice k = T !! k) as Hmt.
  { intros k' Hk'. eapply (store_is_table m T idle t); [done| |done]. intros o h Eh.
    split; [by eapply Hset|by eapply Htab]. }
  destruct (T !! k) as [v|] eqn:ET.
  - pose proof (ic_table _ _ _ _ _ _ _ (ic_view _ _ _ _ HI) _ _ ET) as [Hk _].
    rewrite mem_table_lookup by (done || apply (so_keys _ _ Hso)). by rewrite Hmt.
  - destruct (mem_table m !! k) as [v|] eqn:EM; [exfalso|done].
    unfold mem_table in EM. apply elem_of_list_to_map_2 in EM.
    apply list_elem_of_fmap in EM as ([b v'] & [= -> ->] & Hin%elem_of_map_to_list).
    destruct (so_keys _ _ Hso _ _ Hin) as (k' & Hk' & ->). cbn [fst] in *. rewrite key_of_ToSlice in ET by done.
    rewrite Hmt in Hin by done. congruence.
Qed.

(** ** The states *)

Definition env0 : environment :=
  mkEnv (16895, 7) (fun _ n => replicate n 170) 42 (fun a b => (a <? b)%nat).
Definition os0 : os :=
  mkOs ∅ ∅ {[str "/d"; str "/d/0"]} ∅ 0 0 [100; 101; 102; 103; 104; 105; 106; 107].
Definition t0 : fs :=
  mkTfs (InodeCache_new, mkWorld ∅ ∅ 0 0) (DentryCache_new 0) (mkFSS [] (str "/d") [] 0 16, os0) ∅ 0 0
    false (0, 0).

Definition after {A} (p : prog fs A) (t : fs) : fs := match p t with Ret _ t' => t' | _ => t end.

Lemma after_Ret {A} (p : prog fs A) t a t' : p t = Ret a t' -> after p t = t'.
Proof. unfold after. by intros ->. Qed.

Definition t1 : fs := after (Init env0 false) t0.
Definition t2 : fs := after (MakeDir env0 (str "/a") 493) t1.
Definition t3 : fs := after (MakeNode env0 (str "/a/f") 420 0) t2.

Definition T1 : table := mem_table (w_metadb (t_ic t1).2).
Definition T2 : table := mem_table (w_metadb (t_ic t2).2).
Definition T3 : table := mem_table (w_metadb (t_ic t3).2).

Lemma dirs_ok0 : dirs_ok (t_st t0).1 (t_st t0).2.
Proof.
  split; cbn.
  - set_solver.
  - lia.
  - lia.
  - intros i Hi. assert (i = 0) as -> by lia. by vm_compute.
Qed.

Lemma unmounted0 : unmounted ∅ ∅ t0.
Proof.
  split; cbn.
  - by exists 0, ∅.
  - done.
  - split; intros *; by rewrite ?lookup_empty.
  - split; intros *; by rewrite ?lookup_empty.
  - apply dirs_ok0.
Qed.

Definition clock_check (t : fs) : bool :=
  forallb (fun z => (- 2 ^ 63 <=? z) && (z <? 2 ^ 63)) (os_clock (t_st t).2).

Lemma clock_check_ok t : clock_check t = true -> clock_ok t.
Proof.
  unfold clock_check, clock_ok. rewrite forallb_forall, Forall_forall. intros H z Hz.
  specialize (H z Hz). lia.
Qed.

Lemma ready0 (t : fs) : clock_check t = true -> t_context t = (0, 0) -> ready env0 t.
Proof.
  intros Hc Hx. split; [|by apply clock_check_ok|by rewrite Hx|intros old new H; cbn; by apply Nat.ltb_ge]. intros i n. cbn. rewrite length_replicate.
  split; [done|]. apply Forall_replicate. unfold byte_ok. lia.
Qed.

(** ** The invariant holds in each of them *)

Lemma FS1 : FS T1 idle t1.
Proof.
  destruct (Init_first env0 ∅ t0 false unmounted0) as (t & h & Hrun & HF & _);
    [done|by apply ready0; vm_compute|done|done|].
  assert (t1 = t) as -> by by apply after_Ret in Hrun. unfold T1.
  assert (t1 = t) as -> by by apply after_Ret in Hrun. by rewrite <- (FS_mem_table _ _ HF).
Qed.

Lemma path_a_ok : path_ok (str "/a").
Proof. split; [done|]. split; [apply bytes_ok_str|]. done. Qed.

Lemma path_f_ok : path_ok (str "/a/f").
Proof. split; [done|]. split; [apply bytes_ok_str|]. done. Qed.

Definition key_a : tfs_meta_key_t := BuildMetaKey_path (str "a") 0.
Definition key_f : tfs_meta_key_t := BuildMetaKey_path (str "f") 1.

Lemma FS2 : FS T2 idle t2.
Proof.
  pose proof (make_inode_refines env0 T1 idle t1 (str "/a") (Z.lor 493 S_IFDIR) 0 FS1) as H.
  replace (resolve_name T1 (str "/a")) with (Some (key_a, str "a")) in H by by vm_compute.
  destruct H as (t & h & Hrun & HF & _);
    [by apply ready0; vm_compute|apply path_a_ok|done|done|by vm_compute|by vm_compute|].
  unfold T2. assert (t2 = t) as -> by by apply after_Ret in Hrun. by rewrite <- (FS_mem_table _ _ HF).
Qed.

(** The file, empty and inline. *)
Lemma FS3 : FS T3 idle t3 /\ exists h, T3 !! key_f = Some (mk_value h (str "f") []) /\ value_wf h (str "f") /\
  st_ino (fstat h) = 2 /\ st_size (fstat h) = 0 /\ has_blob h = 0.
Proof.
  pose proof (make_inode_refines env0 T2 idle t2 (str "/a/f") (Z.lor 420 S_IFREG) 0 FS2) as H.
  replace (resolve_name T2 (str "/a/f")) with (Some (key_f, str "f")) in H by by vm_compute.
  destruct H as (t & h & Hrun & HF & Hwf & Hino & _ & Hsz & Hb & _);
    [by apply ready0; vm_compute|apply path_f_ok|done|done|by vm_compute|by vm_compute|].
  unfold T3. assert (t3 = t) as -> by by apply after_Ret in Hrun. rewrite <- (FS_mem_table _ _ HF).
  split; [exact HF|]. exists h. split; [apply lookup_insert_eq|]. split; [exact Hwf|].
  split; [rewrite Hino; by vm_compute|]. exact (conj Hsz Hb).
Qed.
