(* ===== verification/FsCorrect.v ===== *)
(** The theorems about the operations of the file system, each with an instance
    on the concrete file system of [Scenario]. *)

From S2P Require Import Prelude Hashes Coding WriteBatch Inode DCache Cache Kv ICache Posix Properties State TableFS FsInv FsOps FsRename FsFile FsTruncate FsDir FsMount Scenario.

Set Default Proof Using "Type".

Section theorems.
Context {S It : Type} `{!KvWrapper S It, !KvSpec S It}.
Implicit Types (T : table) (PO : nat -> Z) (t : tfs S).

(** ** Files *)

(** C4: a file written, closed and opened again reads back what was written:
    whatever the file held before ([c], inline or on disk) and wherever the write
    leaves it, the bytes read are those of [c] with [buf] at [offset]. The write
    has at least one byte or starts within the file ([writes_through]); see
    [empty_write_leaves_gap] for the others. *)
Theorem write_close_open_read T t path k v c buf offset flags size off2 :
  FS T idle t -> path <> [] -> resolve T path = Some k -> T !! k = Some v -> file_rep t v (-1) c ->
  os_wf (t_st t).2 -> clock_ok t -> rw_flags flags -> bytes_ok buf -> 0 <= offset -> writes_through c buf offset ->
  0 <= threshold_ (t_st t).1 < 2 ^ 62 ->
  Z.of_nat (length v) + Z.of_nat (length c) + (offset + Z.of_nat (length buf)) < 2 ^ 31 ->
  0 <= size < 2 ^ 31 -> 0 <= off2 < 2 ^ 62 ->
  exists t', let data := slice (Z.to_nat off2) (Z.to_nat size) (write_at c (Z.to_nat offset) buf) in
    (write_session path buf offset flags ;;; read_session path size off2 flags) t =
    Ret (Z.of_nat (length data), data) t'.
Proof. intros. by eapply session_roundtrip. Qed.

(** C5: [Write] on an open file replaces the bytes at [offset] and returns their
    number; the inode's size grows to the end of the write, a file that outgrows
    the threshold moves to its data file, and no other data file changes. A write
    of no bytes is covered when it starts within the file. *)
Theorem Write_updates_contents T PO t fh f h c buf offset flags :
  FS T PO t -> file_open PO t fh f h c -> rw_flags flags -> bytes_ok buf -> 0 <= offset ->
  writes_through c buf offset -> 0 <= threshold_ (t_st t).1 < 2 ^ 62 ->
  Z.of_nat (length (value_ h)) + Z.of_nat (length c) + (offset + Z.of_nat (length buf)) < 2 ^ 31 ->
  exists t' name, Write fh buf offset flags t = Ret (Z.of_nat (length buf)) t' /\
    written T PO t fh f h (GetInodeHeader (value_ h)) name (write_at c (Z.to_nat offset) buf)
      (offset + Z.of_nat (length buf)) t'.
Proof.
  intros HFS Hfo Hfl Hb Ho Hw Ht Hl.
  destruct (Write_refines T PO t fh f h c buf offset flags HFS Hfo Hfl Hb Ho Hw Ht Hl) as (t' & hd & name & -> & Hrun & HW).
  eauto.
Qed.

(** C23: [Truncate] gives a file the first [n] bytes of its contents, or pads them
    with zero bytes, whether the data stay in the inode, stay in the data file or
    move from there into the inode, when the data file is removed; name, inode
    number and the other attributes stay, and so do all other data files. A path
    that leads to no inode gives [-ENOENT] and changes neither the table nor a data
    file. It does not cover a small file that is to grow past the threshold, where
    the code passes on an uninitialised descriptor, and it needs the string that
    holds the inode not to move, because the code reads the size through a pointer
    taken before. *)
Theorem Truncate_resizes env T PO t path n :
  FS T PO t -> path <> [] -> rooms T PO t path -> os_wf (t_st t).2 ->
  (forall i j, length (env_memory env i j) = j) ->
  match (k ← resolve T path; T !! k) with
  | None => exists t', Truncate env path n t = Ret (- ENOENT) t' /\ FS T PO t' /\
      forall q, file_at (t_st t').2 q = file_at (t_st t).2 q
  | Some v => forall k hd name data c, resolve T path = Some k -> v = mk_value hd name data -> value_wf hd name ->
      file_rep t v (-1) c -> bytes_ok (inline_part (threshold_ (t_st t).1) n c) -> 0 <= n ->
      257 + Z.of_nat (length name) + n < 2 ^ 31 -> (has_blob hd = 0 -> n <= threshold_ (t_st t).1) ->
      env_moved env (length v) (length (mk_value hd name (inline_part (threshold_ (t_st t).1) n c))) = false ->
      exists t', Truncate env path n t = Ret 0 t' /\ truncated T PO t k hd name c n t'
  end.
Proof.
  intros HFS Hp Hroom Hos Hmem. destruct (k ← resolve T path; T !! k) as [v|] eqn:E.
  - intros k hd name data c Er -> Hwf Hrep Hb Hn Hl Hside Hmv. rewrite Er in E. cbn in E.
    by eapply Truncate_refines.
  - by eapply Truncate_missing.
Qed.

(** [Read] on an open file returns the bytes of its contents from [offset] on,
    up to [size] and the end of the file, and changes neither the table nor the
    contents. *)
Theorem Read_returns_contents T PO t fh f h c size offset :
  FS T PO t -> file_open PO t fh f h c ->
  0 <= size < 2 ^ 31 -> 0 <= offset < 2 ^ 62 -> Z.of_nat (length c) < 2 ^ 62 ->
  exists t' f', let data := slice (Z.to_nat offset) (Z.to_nat size) c in
    Read fh size offset t = Ret (Z.of_nat (length data), data) t' /\ FS T PO t' /\
    file_open PO t' fh f' h c /\ fh_handle_ f' = fh_handle_ f.
Proof.
  intros HFS Hfo Hsz Ho Hc.
  destruct (Read_refines T PO t fh f h c size offset HFS Hfo Hsz Ho Hc) as (t' & f' & H1 & H2 & H3 & H4 & _). eauto 10.
Qed.

(** [Open] of an existing file gives a handle on its contents and pins its
    inode in the cache. *)
Theorem Open_gives_contents T PO t path flags k v c :
  FS T PO t -> path <> [] -> rooms T PO t path -> resolve T path = Some k -> T !! k = Some v ->
  os_wf (t_st t).2 -> rw_flags flags -> file_rep t v (-1) c ->
  exists t' fh f h, Open path flags t = Ret (0, Some fh) t' /\ FS T (hold (fh_handle_ f) PO) t' /\
    file_open (hold (fh_handle_ f) PO) t' fh f h c /\ key_ h = k /\ value_ h = v.
Proof.
  intros HFS Hp Hroom Er ET Hos Hfl Hrep.
  destruct (Open_refines T PO t path flags k v c HFS Hp Hroom Er ET Hos Hfl Hrep)
    as (t' & fh & f & h & H1 & H2 & H3 & H4 & H5 & _). eauto 10.
Qed.

(** [Release] of the only handle of a file writes its inode to the store,
    drops it from the cache and keeps the contents of every file; only the times
    of the inode change. *)
Theorem Release_stores_inode T PO t fh f h c :
  FS T PO t -> file_open PO t fh f h c -> PO (fh_handle_ f) = 1 -> clock_ok t ->
  exists t' v', Release fh t = Ret 0 t' /\ FS (<[key_ h := v']> T) (unhold (fh_handle_ f) PO) t' /\
    file_rep t' v' (-1) c /\ (forall path, file_at (t_st t').2 path = file_at (t_st t).2 path) /\
    t_fhs t' = delete fh (t_fhs t) /\ handles t' = delete (fh_handle_ f) (handles t) /\
    (v' = value_ h \/ exists a b, v' = UpdateAttribute (value_ h) (set_st_times a 0 b 0 (GetAttribute (value_ h)))).
Proof.
  intros HFS Hfo H1 Hc. destruct (Release_refines T PO t fh f h c HFS Hfo H1 Hc)
    as (t' & v' & R1 & R2 & R3 & _ & _ & R4 & R5 & R6 & R7).
  exists t', v'. split_and!; try done. destruct R7 as [|(a & b & ? & _)]; eauto.
Qed.
End theorems.

(** ** Instances *)

Definition flags0 : Z := O_RDWR.

Lemma rw_flags0 : rw_flags flags0.
Proof. split; done. Qed.

Lemma rooms_idle (T : table) (t : fs) path : FS T idle t -> rooms T idle t path.
Proof. intros HFS k _. by eapply FS_room_idle. Qed.

Definition value_f : bytes := default [] (T3 !! key_f).

Lemma file3 : T3 !! key_f = Some value_f /\ file_rep t3 value_f (-1) [].
Proof.
  unfold value_f. destruct FS3 as [_ (h & -> & Hwf & Hino & Hsz & Hb)]. split; [done|].
  exists h, (str "f"), []. split; [done|]. split; [exact Hwf|]. split; [by rewrite Hsz|]. left.
  split; [exact Hb|]. split; [done|]. split; [by vm_compute|]. split; [done|].
  unfold data_file. rewrite Hino. by vm_compute.
Qed.

Lemma os_wf3 : os_wf (t_st t3).2.
Proof.
  assert (os_names (t_st t3).2 = ∅ /\ os_fds (t_st t3).2 = ∅) as [E1 E2] by by vm_compute.
  split; intros *; rewrite ?E1, ?E2, ?lookup_empty; done.
Qed.

Lemma clock3 : clock_ok t3.
Proof. apply clock_check_ok. by vm_compute. Qed.

Lemma threshold3 : threshold_ (t_st t3).1 = 16.
Proof. by vm_compute. Qed.

Lemma length_f : length value_f = 258%nat.
Proof. by vm_compute. Qed.

Lemma resolve3 : resolve T3 (str "/a/f") = Some key_f.
Proof. by vm_compute. Qed.

Lemma buf_ok : bytes_ok (str "0123456789abcdefghij").
Proof. apply bytes_ok_str. Qed.

(** Twenty bytes do not fit inline: the file goes to disk. *)
Lemma write_close_open_read_witness :
  exists t', (write_session (str "/a/f") (str "0123456789abcdefghij") 2 flags0 ;;;
              read_session (str "/a/f") 100 0 flags0) t3 =
    Ret (22, [0; 0] ++ str "0123456789abcdefghij") t'.
Proof.
  destruct file3 as [HT Hrep].
  destruct (write_close_open_read T3 t3 (str "/a/f") key_f value_f [] (str "0123456789abcdefghij") 2 flags0 100 0
    (proj1 FS3) ltac:(done) resolve3 HT Hrep os_wf3 clock3 rw_flags0 buf_ok) as [t' H];
    [lia|by left|rewrite threshold3; lia|rewrite length_f; cbn; lia|lia|lia|].
  exists t'. exact H.
Defined.

(** The file opened. *)
Lemma opened3 : exists t fh f h, FS T3 (hold (fh_handle_ f) idle) t /\
  file_open (hold (fh_handle_ f) idle) t fh f h [] /\ value_ h = value_f /\
  threshold_ (t_st t).1 = 16 /\ clock_ok t /\ hold (fh_handle_ f) idle (fh_handle_ f) = 1.
Proof.
  destruct file3 as [HT Hrep].
  destruct (Open_refines T3 idle t3 (str "/a/f") flags0 key_f value_f [] (proj1 FS3) ltac:(done)
    (rooms_idle _ _ _ (proj1 FS3)) resolve3 HT os_wf3 rw_flags0 Hrep)
    as (t & fh & f & h & _ & HF & Hfo & _ & Hv & Hst & Hck & _).
  exists t, fh, f, h. split; [exact HF|]. split; [exact Hfo|]. split; [exact Hv|].
  split; [rewrite Hst; exact threshold3|]. split; [|unfold hold, idle; by rewrite decide_True].
  unfold clock_ok. rewrite Hck. exact clock3.
Qed.

Lemma Write_updates_contents_witness :
  exists (t : fs) fh f h PO t' name, Write fh (str "hello") 3 flags0 t = Ret 5 t' /\
    written T3 PO t fh f h (GetInodeHeader (value_ h)) name ([0; 0; 0] ++ str "hello") 8 t'.
Proof.
  destruct opened3 as (t & fh & f & h & HF & Hfo & Hv & Hth & Hck & Hone).
  destruct (Write_updates_contents T3 (hold (fh_handle_ f) idle) t fh f h [] (str "hello") 3 flags0 HF Hfo rw_flags0
    (bytes_ok_str _)) as (t' & name & Hrun & HW); [lia|by left|rewrite Hth; lia|rewrite Hv, length_f; cbn; lia|].
  exists t, fh, f, h, (hold (fh_handle_ f) idle), t', name. split; [exact Hrun|exact HW].
Defined.

Lemma Read_returns_contents_witness : exists (t : fs) fh t', Read fh 10 0 t = Ret (0, []) t'.
Proof.
  destruct opened3 as (t & fh & f & h & HF & Hfo & Hv & Hth & Hck & Hone).
  destruct (Read_returns_contents T3 (hold (fh_handle_ f) idle) t fh f h [] 10 0 HF Hfo)
    as (t' & f' & Hrun & _); [lia|lia|cbn; lia|].
  exists t, fh, t'. exact Hrun.
Defined.

Lemma Open_gives_contents_witness :
  exists t' fh f h, Open (str "/a/f") flags0 t3 = Ret (0, Some fh) t' /\
    file_open (hold (fh_handle_ f) idle) t' fh f h [].
Proof.
  destruct file3 as [HT Hrep].
  destruct (Open_gives_contents T3 idle t3 (str "/a/f") flags0 key_f value_f [] (proj1 FS3) ltac:(done)
    (rooms_idle _ _ _ (proj1 FS3)) resolve3 HT os_wf3 rw_flags0 Hrep) as (t' & fh & f & h & H1 & _ & H2 & _).
  exists t', fh, f, h. split; [exact H1|exact H2].
Defined.

Lemma Release_stores_inode_witness : exists (t : fs) fh t' v', Release fh t = Ret 0 t' /\ file_rep t' v' (-1) [].
Proof.
  destruct opened3 as (t & fh & f & h & HF & Hfo & Hv & Hth & Hck & Hone).
  destruct (Release_stores_inode T3 (hold (fh_handle_ f) idle) t fh f h [] HF Hfo Hone Hck)
    as (t' & v' & H1 & _ & H2 & _).
  exists t, fh, t', v'. split; [exact H1|exact H2].
Defined.

(** The write that [writes_through] leaves out: no bytes, past the end of a file that
    has a data file. The code records the end of the write as the size; the data
    file keeps its 20 bytes, so that a read of the whole file is short. *)
Lemma empty_write_leaves_gap :
  exists t', (write_session (str "/a/f") (str "0123456789abcdefghij") 0 flags0 ;;;
              write_session (str "/a/f") [] 30 flags0 ;;;
              ' (r, stat) <- GetAttr (str "/a/f") ;;
              ' (n, data) <- read_session (str "/a/f") 30 0 flags0 ;;
              ret (r, st_size <$> stat, n, data)) t3 =
    Ret (0, Some 30, 20, str "0123456789abcdefghij") t'.
Proof. eexists. vm_compute. reflexivity. Qed.

Definition env_still : environment := mkEnv (16895, 7) (fun _ n => replicate n 170) 42 (fun _ _ => false).

(** A small file grows within the inode, and a missing one is reported. *)
Lemma Truncate_resizes_witness :
  (exists t' hd' data', Truncate env_still (str "/a/f") 10 t3 = Ret 0 t' /\ st_size (fstat hd') = 10 /\
     file_rep t' (mk_value hd' (str "f") data') (-1) (replicate 10 0)) /\
  (exists t', Truncate env_still (str "/a/g") 10 t3 = Ret (- ENOENT) t').
Proof.
  split.
  - destruct file3 as [_ Hrep]. destruct (proj2 FS3) as (hd & HT & Hwf & _).
    assert (value_f = mk_value hd (str "f") []) as Ev by (unfold value_f; rewrite HT; reflexivity). rewrite Ev in Hrep.
    pose proof (Truncate_resizes env_still T3 idle t3 (str "/a/f") 10 (proj1 FS3) ltac:(done)
      (rooms_idle _ _ _ (proj1 FS3)) os_wf3 (fun i j => length_replicate j 170)) as H.
    rewrite resolve3 in H. cbn [mbind option_bind] in H. rewrite HT in H.
    destruct (H key_f hd (str "f") [] [] eq_refl eq_refl Hwf Hrep) as (t' & Hrun & [(hd' & data' & _ & Hst & _ & Hr) _ _ _]).
    + rewrite threshold3. by apply (bool_decide_unpack _).
    + lia.
    + cbn. lia.
    + intros _. rewrite threshold3. lia.
    + reflexivity.
    + exists t', hd', data'. split; [exact Hrun|]. split; [rewrite Hst; reflexivity|exact Hr].
  - pose proof (Truncate_resizes env_still T3 idle t3 (str "/a/g") 10 (proj1 FS3) ltac:(done)
      (rooms_idle _ _ _ (proj1 FS3)) os_wf3 (fun i j => length_replicate j 170)) as H.
    assert ((k ← resolve T3 (str "/a/g"); T3 !! k) = None) as E by by vm_compute.
    rewrite E in H. destruct H as (t' & Hrun & _). exists t'. exact Hrun.
Defined.
