(* ===== verification/FsNames.v ===== *)
(** The theorems about the name space: lookup, attributes, creation, removal,
    renaming, directories and links. *)

From S2P Require Import Prelude Hashes Coding WriteBatch Inode DCache Cache Kv ICache Posix Properties State TableFS FsInv FsOps FsRename FsFile FsDir FsFrame FsHistory FsMount Scenario FsCorrect.

Set Default Proof Using "Type".

(** * Paths in a table that grows *)

Lemma resolve_loop_grow T T' fuel key inode after r :
  (forall k v, T !! k = Some v -> T' !! k = Some v) ->
  resolve_loop fuel T key inode after = Some r -> resolve_loop fuel T' key inode after = Some r.
Proof.
  intros Hsub. revert key inode after. induction fuel as [|fuel IH]; intros key inode after; cbn [resolve_loop];
    destruct (strchr_delim after) as [[item after']|]; try done.
  destruct (T !! BuildMetaKey_path item inode) as [v|] eqn:E; [|done]. rewrite (Hsub _ _ E).
  cbn [ino_of fmap option_fmap option_map mbind option_bind]. apply IH.
Qed.

Lemma resolve_grow T T' path k :
  (forall k v, T !! k = Some v -> T' !! k = Some v) -> resolve T path = Some k -> resolve T' path = Some k.
Proof.
  intros Hsub. unfold resolve, resolve_parent. destruct path as [|b after]; [done|].
  destruct (resolve_loop _ T _ _ _) as [r|] eqn:E; [|done]. by rewrite (resolve_loop_grow _ _ _ _ _ _ _ Hsub E).
Qed.

Lemma insert_new_grows (T : table) k v : T !! k = None -> forall k' v', T !! k' = Some v' -> <[k := v]> T !! k' = Some v'.
Proof. intros Hk k' v' H. rewrite lookup_insert_ne; [done|]. congruence. Qed.

(** A new entry is found under its path, and hides nothing. *)
Lemma lookup_path_new T path k v :
  resolve T path = Some k -> T !! k = None ->
  lookup_path (<[k := v]> T) path = Some v /\
  forall p w, lookup_path T p = Some w -> lookup_path (<[k := v]> T) p = Some w.
Proof.
  intros Hr Hk. pose proof (insert_new_grows T k v Hk) as Hg. unfold lookup_path. split.
  - rewrite (resolve_grow _ _ _ _ Hg Hr). cbn. apply lookup_insert_eq.
  - intros p w. destruct (resolve T p) as [k'|] eqn:E; [|done]. cbn. intros Hw.
    rewrite (resolve_grow _ _ _ _ Hg E). cbn. by apply Hg.
Qed.

Section theorems.
Context {S It : Type} `{!KvWrapper S It, !KvSpec S It}.
Implicit Types (T : table) (PO : nat -> Z) (t : tfs S).

(** C7: path lookup follows the components of the path through the table, and the
    dentry cache only changes how fast: the result is the one computed from the
    table alone, and a missing component is reported as [ENOENT]. *)
Theorem PathLookup_resolves T PO t path :
  FS T PO t -> path <> [] ->
  exists t', PathLookup path t = Ret (resolve T path) t' /\ FS T PO t' /\ same_but_dc t t' /\
    (resolve T path = None -> os_errno (t_st t').2 = ENOENT).
Proof. apply PathLookup_spec. Qed.

(** [GetAttr] returns the attributes of the inode a path names, and [ENOENT]
    when there is none. *)
Theorem GetAttr_reports T PO t path :
  FS T PO t -> path <> [] -> rooms T PO t path ->
  exists t', GetAttr path t =
      Ret (match lookup_path T path with
           | Some v => (0, Some (GetAttribute v))
           | None => (- ENOENT, None)
           end) t' /\ FS T PO t'.
Proof. apply GetAttr_refines. Qed.

(** [Chmod] replaces the mode of the inode a path names, leaves every other
    field and every other inode alone, and reports a missing path. *)
Theorem Chmod_sets_mode T PO t path mode :
  FS T PO t -> path <> [] -> rooms T PO t path -> 0 <= mode < 2 ^ 32 ->
  exists t' r, Chmod path mode t = Ret r t' /\
    match (k ← resolve T path; v ← T !! k; Some (k, v)) with
    | Some (k, v) => let v' := UpdateAttribute v (set_st_mode mode (GetAttribute v)) in
        r = 0 /\ FS (<[k := v']> T) PO t' /\ GetAttribute v' = set_st_mode mode (GetAttribute v)
    | None => r = - ENOENT /\ FS T PO t'
    end.
Proof.
  intros HFS Hp Hroom Hm.
  assert (forall s, stat_ok s -> stat_ok (set_st_mode mode s) /\ st_ino (set_st_mode mode s) = st_ino s) as Hf.
  { intros s Hs. split; [by apply stat_ok_mode|done]. }
  destruct (update_attribute_refines T PO t path true (set_st_mode mode) HFS Hp Hroom Hf) as (t' & r & Hrun & H).
  exists t', r. split; [exact Hrun|]. destruct (resolve T path) as [k|]; cbn [mbind option_bind]; [|done].
  destruct (T !! k) as [v|] eqn:ET; cbn [mbind option_bind]; [|done]. cbv zeta. destruct H as [-> HF].
  split; [done|]. split; [done|]. destruct (fs_ic _ _ _ HFS) as (m & HI & Hso).
  pose proof (so_table _ _ Hso _ _ ET) as Hwf.
  destruct (ic_table _ _ _ _ _ _ _ (ic_view _ _ _ _ HI) _ _ ET) as [_ Hstr].
  by destruct (wf_UpdateAttribute v _ Hwf (proj1 (Hf _ (wf_inode_stat _ Hwf))) Hstr) as (_ & _ & ->).
Qed.

(** C10: [MakeNode] on a free name allocates the next inode number, stores an empty
    inline regular file under it, makes it visible at its path and hides no other
    path; a missing parent directory is reported. *)
Theorem MakeNode_creates env T PO t path mode dev :
  FS T PO t -> ready env t -> path_ok path -> 0 <= Z.lor mode S_IFREG < 2 ^ 32 -> 0 <= dev < 2 ^ 64 ->
  max_inode_num (t_st t).1 + 1 < 2 ^ 31 -> (forall k name, resolve_name T path = Some (k, name) -> T !! k = None) ->
  match resolve_name T path with
  | Some (k, name) => exists t' h, let v := mk_value h name [] in
      MakeNode env path mode dev t = Ret 0 t' /\ FS (<[k := v]> T) PO t' /\
      lookup_path (<[k := v]> T) path = Some v /\
      (forall p w, lookup_path T p = Some w -> lookup_path (<[k := v]> T) p = Some w) /\
      st_ino (GetAttribute v) = max_inode_num (t_st t).1 + 1 /\ st_mode (GetAttribute v) = Z.lor mode S_IFREG /\
      st_size (GetAttribute v) = 0 /\ max_inode_num (t_st t').1 = max_inode_num (t_st t).1 + 1
  | None => exists t', MakeNode env path mode dev t = Ret (- ENOENT) t' /\ FS T PO t' /\ (t_st t').1 = (t_st t).1
  end.
Proof.
  intros HFS Hrd Hp Hm Hd Hmax Hfree.
  pose proof (make_inode_refines env T PO t path (Z.lor mode S_IFREG) dev HFS Hrd Hp Hm Hd Hmax) as H.
  pose proof (resolve_name_key T path) as Hkey.
  destruct (resolve_name T path) as [[k name]|]; [|exact H].
  specialize (Hfree k name eq_refl). destruct (H Hfree) as (t' & h & Hrun & HF & Hwf & Hino & Hmode & Hsz & _ & Hmax' & _).
  exists t', h. cbv zeta. rewrite (GetAttribute_mk h name Hwf).
  destruct (lookup_path_new T path k (mk_value h name []) Hkey Hfree) as [L1 L2]. by split_and!.
Qed.

(** C9: [Unlink] of a path that nothing has open removes its entry, and its data
    file when it has one, and changes no other data file; a missing path is
    reported and changes no file. *)
Theorem Unlink_removes T PO t path :
  FS T PO t -> path <> [] -> rooms T PO t path ->
  (forall k, resolve T path = Some k -> closed PO t k) ->
  exists t' r, Unlink path t = Ret r t' /\
    match (k ← resolve T path; v ← T !! k; Some (k, v)) with
    | Some (k, v) => r = 0 /\ FS (delete k T) PO t' /\
        (threshold_ (t_st t).1 < st_size (fstat (GetInodeHeader v)) ->
         os_names (t_st t').2 !! disk_path (datadir_ (t_st t).1) (st_ino (fstat (GetInodeHeader v))) = None) /\
        (forall q, q <> disk_path (datadir_ (t_st t).1) (st_ino (fstat (GetInodeHeader v))) ->
         file_at (t_st t').2 q = file_at (t_st t).2 q)
    | None => r = - ENOENT /\ FS T PO t' /\ forall q, file_at (t_st t').2 q = file_at (t_st t).2 q
    end.
Proof. apply Unlink_refines. Qed.

(** [RemoveDir] removes the entry of a directory; it does not look for entries
    in it. *)
Theorem RemoveDir_removes T PO t path :
  FS T PO t -> path <> [] -> rooms T PO t path ->
  (forall k, resolve T path = Some k -> closed PO t k) ->
  exists t' r, RemoveDir path t = Ret r t' /\
    match (k ← resolve T path; v ← T !! k; Some k) with
    | Some k => r = 0 /\ FS (delete k T) PO t'
    | None => r = - ENOENT /\ FS T PO t'
    end.
Proof. apply RemoveDir_refines. Qed.

(** The value of an inode under another name: the bytes of the same header, but for
    the length of the name, then the new name and its NUL, then the same data. *)
Definition renamed (v name v' : bytes) : Prop :=
  exists hd old data, value_wf hd old /\ v = mk_value hd old data /\
    v' = mk_value (set_namelen (Z.of_nat (length name)) hd) name data.

(** C6: in a file system with nothing open, [Rename] between two different keys moves
    the inode: the old key is gone, the new one holds the new name with the
    attributes and the inline data of the old inode, whatever was there before, and
    no data file changes; a missing path is reported and changes nothing. *)
Theorem Rename_moves T t old_path new_path :
  FS T idle t -> old_path <> [] -> path_ok new_path ->
  (forall k1 k2 name v, resolve T old_path = Some k1 -> resolve_name T new_path = Some (k2, name) ->
     T !! k1 = Some v -> k1 <> k2 /\ Z.of_nat (length v) + Z.of_nat (length name) < 2 ^ 32) ->
  exists t' r, Rename old_path new_path t = Ret r t' /\
    match resolve T old_path, resolve_name T new_path with
    | Some k1, Some (k2, name) =>
        match T !! k1 with
        | Some v => r = 0 /\ exists v', renamed v name v' /\ FS (<[k2 := v']> (delete k1 T)) idle t'
        | None => r = - ENOENT /\ FS T idle t'
        end
    | _, _ => r = - ENOENT /\ FS T idle t'
    end /\
    forall q, file_at (t_st t').2 q = file_at (t_st t).2 q.
Proof.
  intros HF Hp1 Hp2 Hside. destruct (Rename_refines T t old_path new_path HF Hp1 Hp2 Hside) as (t' & r & Hrun & H).
  exists t', r. split; [done|]. split; [|apply (keeps_run calm _ _ _ _ (Rename_calm _ _) Hrun)].
  destruct (resolve T old_path) as [k1|]; [|done]. destruct (resolve_name T new_path) as [[k2 name]|]; [|done].
  destruct (T !! k1) as [v|] eqn:ET; [|done]. destruct H as [-> HF']. split; [done|].
  exists (RenameInodeValue v name). split; [|done].
  destruct (FS_table_wf _ _ _ _ _ HF ET) as (hd & old & data & -> & Hwf). exists hd, old, data. split; [done|]. split; [done|].
  destruct (Hside k1 k2 name _ eq_refl eq_refl ET) as [_ Hl]. rewrite (length_mk hd old Hwf) in Hl.
  apply (RenameInodeValue_mk hd old Hwf); lia.
Qed.

(** C8: [ReadDir] of a directory other than the root gives the callback [.], [..]
    and the name of every entry of the directory exactly once, when no inode is
    dirty; as many rounds as there are entries, plus one, are enough. *)
Theorem ReadDir_lists_all T PO t o h filler :
  FS T PO t -> handles t !! o = Some h -> (forall o h, handles t !! o = Some h -> mode_ h = INODE_READ) ->
  accepts filler -> let ino := st_ino (GetAttribute (value_ h)) in ino <> ROOT_INODE_ID ->
  exists ks : list (tfs_meta_key_t * bytes), NoDup ks.*1 /\
    (forall k v, (k, v) ∈ ks <-> T !! k = Some v /\ inode_id k = ino) /\
    (forall fuel, (length ks < fuel)%nat -> exists t',
      ReadDir (fun _ p => p) fuel filler o t =
        Ret (Some (0, [str "."; str ".."] ++ dir_names ks.*2)) t' /\ FS T PO t' /\ handles t' = handles t).
Proof. apply ReadDir_complete. Qed.

(** A symbolic link read back gives the target it was created with, cut to
    the size of the caller's buffer. *)
Theorem Symlink_Readlink env T t target path size k name :
  FS T idle t -> ready env t -> path_ok path -> bytes_ok target -> Forall (fun b => b <> 0) target ->
  Z.of_nat (length target) < 2 ^ 31 - 2 ^ 10 -> max_inode_num (t_st t).1 + 1 < 2 ^ 31 -> 0 < size < 2 ^ 62 ->
  resolve_name T path = Some (k, name) -> T !! k = None ->
  exists t', (r <- Symlink env target path ;; x <- Readlink path size ;; ret (r, x)) t =
    Ret (0, (0, Some (take (Z.to_nat (size - 1)) target))) t'.
Proof.
  intros HFS Hrd Hp Hbt Hnz Hlt Hmax Hsz Er HT.
  pose proof (Symlink_refines env T idle t target path HFS Hrd Hp Hbt Hlt Hmax) as Hs. rewrite Er in Hs.
  destruct (Hs HT) as (t1 & h & Hrun & HF1 & Hwf & _).
  assert (resolve T path = Some k) as Hk by by rewrite resolve_name_key, Er.
  destruct (Readlink_refines (<[k := mk_value h name target]> T) idle t1 path k h name target size) as (t2 & Hrl & _);
    try done; [apply Hp|by eapply resolve_grow; [apply insert_new_grows|]|apply lookup_insert_eq| |lia|].
  { intros o h' Eh. by eapply (fs_settled _ _ _ HF1). }
  exists t2. erewrite bind_Ret by exact Hrun. by erewrite bind_Ret by exact Hrl.
Qed.

(** The first mount over an empty store creates the root directory and
    establishes the invariant with nothing else in the table. *)
Theorem Init_creates_root env m t conn :
  unmounted m ∅ t -> IsEmpty (t_st t).1 = true -> ready env t ->
  0 <= (env_root_stat env).1 < 2 ^ 32 -> 0 <= (env_root_stat env).2 < 2 ^ 64 ->
  exists t' h, Init env conn t = Ret true t' /\ FS {[root_key := mk_value h [] []]} idle t' /\
    value_wf h [] /\ st_ino (fstat h) = ROOT_INODE_ID /\ st_mode (fstat h) = (env_root_stat env).1.
Proof.
  intros H1 H2 H3 H4 H5. destruct (Init_first env m t conn H1 H2 H3 H4 H5) as (t' & h & R & F & W & I & M & _).
  eauto 10.
Qed.

(** Mounting again over a store that holds a table gives the file system of
    that table. *)
Theorem Init_remounts env m T t conn :
  unmounted m T t -> IsEmpty (t_st t).1 = false -> inos_ok T (max_inode_num (t_st t).1) ->
  exists t', Init env conn t = Ret true t' /\ FS T idle t' /\ t_st t' = t_st t.
Proof.
  intros Hun Hne Hi. destruct (Init_again env m T t conn Hun Hne Hi) as (t' & H1 & H2 & H3 & _). by exists t'.
Qed.
End theorems.

(** ** Instances *)

Lemma PathLookup_resolves_witness : exists t', PathLookup (str "/a/f") t3 = Ret (Some key_f) t'.
Proof.
  destruct (PathLookup_resolves T3 idle t3 (str "/a/f") (proj1 FS3) ltac:(done)) as (t' & H & _).
  exists t'. rewrite resolve3 in H. exact H.
Defined.

Lemma entry_of (T : table) path k v :
  resolve T path = Some k -> T !! k = Some v ->
  lookup_path T path = Some v /\ (k ← resolve T path; v ← T !! k; Some (k, v)) = Some (k, v) /\
  (k ← resolve T path; v ← T !! k; Some k) = Some k.
Proof. intros E1 E2. unfold lookup_path. rewrite E1. cbn. by rewrite E2. Qed.

Lemma entry_f : lookup_path T3 (str "/a/f") = Some value_f /\
  (k ← resolve T3 (str "/a/f"); v ← T3 !! k; Some (k, v)) = Some (key_f, value_f).
Proof.
  destruct (entry_of T3 (str "/a/f") key_f value_f resolve3 (proj1 file3)) as (H1 & H2 & _).
  split; [exact H1|exact H2].
Qed.

Lemma GetAttr_reports_witness : exists t', GetAttr (str "/a/f") t3 = Ret (0, Some (GetAttribute value_f)) t'.
Proof.
  destruct (GetAttr_reports T3 idle t3 (str "/a/f") (proj1 FS3) ltac:(done) (rooms_idle _ _ _ (proj1 FS3)))
    as (t' & H & _).
  exists t'. rewrite (proj1 entry_f) in H. exact H.
Defined.

Lemma Chmod_sets_mode_witness : exists t', Chmod (str "/a/f") 384 t3 = Ret 0 t' /\
  FS (<[key_f := UpdateAttribute value_f (set_st_mode 384 (GetAttribute value_f))]> T3) idle t'.
Proof.
  destruct (Chmod_sets_mode T3 idle t3 (str "/a/f") 384 (proj1 FS3) ltac:(done) (rooms_idle _ _ _ (proj1 FS3)) ltac:(lia))
    as (t' & r & H & Hm).
  rewrite (proj2 entry_f) in Hm. cbv zeta in Hm. destruct Hm as (-> & HF & _). exists t'. split; [exact H|exact HF].
Defined.

Lemma path_g_ok : path_ok (str "/a/g").
Proof. split; [done|]. split; [apply bytes_ok_str|]. done. Qed.

Definition key_g : tfs_meta_key_t := BuildMetaKey_path (str "g") 1.

Lemma resolve_g : resolve_name T3 (str "/a/g") = Some (key_g, str "g") /\ T3 !! key_g = None.
Proof. split; by vm_compute. Qed.

Lemma keys_differ : key_f <> key_g.
Proof. intros E. apply (f_equal hash_id) in E. vm_compute in E. discriminate. Qed.

Lemma ready3 : ready env0 t3.
Proof. by apply ready0; vm_compute. Qed.

Lemma max3 : max_inode_num (t_st t3).1 = 2.
Proof. by vm_compute. Qed.

Lemma MakeNode_creates_witness : exists t', MakeNode env0 (str "/a/g") 420 0 t3 = Ret 0 t'.
Proof.
  pose proof (MakeNode_creates env0 T3 idle t3 (str "/a/g") 420 0 (proj1 FS3) ready3 path_g_ok ltac:(done)
    ltac:(lia)) as H.
  destruct resolve_g as [E1 E2]. rewrite E1, max3 in H. destruct H as (t' & h & H & _); [lia| |].
  - intros k name [= <- <-]. exact E2.
  - exists t'. exact H.
Defined.

Lemma Unlink_removes_witness : exists t', Unlink (str "/a/f") t3 = Ret 0 t' /\ FS (delete key_f T3) idle t'.
Proof.
  destruct (Unlink_removes T3 idle t3 (str "/a/f") (proj1 FS3) ltac:(done) (rooms_idle _ _ _ (proj1 FS3)))
    as (t' & r & H & Hm); [intros k _ o h _ _; reflexivity|].
  rewrite (proj2 entry_f) in Hm. destruct Hm as (-> & HF & _). exists t'. split; [exact H|exact HF].
Defined.

Lemma resolve_a : resolve T3 (str "/a") = Some key_a /\ is_Some (T3 !! key_a).
Proof. split; [by vm_compute|]. exists (default [] (T3 !! key_a)). by vm_compute. Qed.

Lemma entry_a : exists v, lookup_path T3 (str "/a") = Some v /\ T3 !! key_a = Some v /\
  (k ← resolve T3 (str "/a"); v ← T3 !! k; Some k) = Some key_a.
Proof.
  destruct resolve_a as [E1 [v E2]]. destruct (entry_of T3 (str "/a") key_a v E1 E2) as (H1 & _ & H2).
  exists v. split; [exact H1|]. split; [exact E2|exact H2].
Qed.

Lemma RemoveDir_removes_witness : exists t', RemoveDir (str "/a") t3 = Ret 0 t' /\ FS (delete key_a T3) idle t'.
Proof.
  destruct (RemoveDir_removes T3 idle t3 (str "/a") (proj1 FS3) ltac:(done) (rooms_idle _ _ _ (proj1 FS3)))
    as (t' & r & H & Hm); [intros k _ o h _ _; reflexivity|].
  destruct entry_a as (v & _ & _ & E). rewrite E in Hm. destruct Hm as (-> & HF). exists t'. split; [exact H|exact HF].
Defined.

Lemma Rename_moves_witness : exists t', Rename (str "/a/f") (str "/a/g") t3 = Ret 0 t' /\
  exists v', renamed value_f (str "g") v' /\ FS (<[key_g := v']> (delete key_f T3)) idle t'.
Proof.
  destruct (Rename_moves T3 t3 (str "/a/f") (str "/a/g") (proj1 FS3) ltac:(done) path_g_ok) as (t' & r & H & Hm & _).
  - destruct resolve_g as [E1 E2]. rewrite resolve3, E1. intros k1 k2 name v [= <-] [= <- <-] Hv.
    rewrite (proj1 file3) in Hv. assert (v = value_f) as -> by congruence. rewrite length_f.
    split; [exact keys_differ|cbn; lia].
  - destruct resolve_g as [E1 E2]. rewrite resolve3, E1, (proj1 file3) in Hm. destruct Hm as [-> HF].
    exists t'. split; [exact H|exact HF].
Defined.

(** The directory [/a] opened. *)
Lemma opendir3 : exists (t : fs) o h, FS T3 (hold o idle) t /\ handles t !! o = Some h /\
  (forall o h, handles t !! o = Some h -> mode_ h = INODE_READ) /\ st_ino (GetAttribute (value_ h)) = 1.
Proof.
  pose proof (OpenDir_refines T3 idle t3 (str "/a") (proj1 FS3) ltac:(done) (rooms_idle _ _ _ (proj1 FS3))) as H.
  destruct entry_a as (v & E1 & E2 & _). rewrite E1 in H. destruct H as (t & o & h & _ & HF & Eh & Hv & Hm).
  exists t, o, h. split; [exact HF|]. split; [exact Eh|]. split.
  - intros x hx Ex. destruct (decide (x = o)) as [->|Hne].
    + rewrite Eh in Ex. injection Ex as <-. apply Hm. reflexivity.
    + apply (fs_settled _ _ _ HF x hx Ex). unfold hold. by rewrite decide_False.
  - rewrite Hv. assert (v = default [] (T3 !! key_a)) as -> by by rewrite E2. by vm_compute.
Qed.

Lemma ReadDir_lists_all_witness : exists (t : fs) o ks,
  (forall k v, (k, v) ∈ ks <-> T3 !! k = Some v /\ inode_id k = 1) /\
  exists t', ReadDir (fun _ p => p) (Datatypes.S (length ks)) (fun _ => ret 0) o t =
    Ret (Some (0, [str "."; str ".."] ++ dir_names ks.*2)) t'.
Proof.
  destruct opendir3 as (t & o & h & HF & Eh & Hread & Hino).
  destruct (ReadDir_lists_all T3 (hold o idle) t o h (fun _ => ret 0) HF Eh Hread) as (ks & _ & H1 & H2).
  - intros n t'. exists 0. split; [reflexivity|lia].
  - rewrite Hino. discriminate.
  - rewrite Hino in H1. destruct (H2 (Datatypes.S (length ks)) ltac:(lia)) as (t' & H & _).
    exists t, o, ks. split; [exact H1|]. exists t'. exact H.
Defined.

Lemma Symlink_Readlink_witness : exists t',
  (r <- Symlink env0 (str "target") (str "/a/g") ;; x <- Readlink (str "/a/g") 5 ;; ret (r, x)) t3 =
  Ret (0, (0, Some (str "targ"))) t'.
Proof.
  destruct resolve_g as [E1 E2].
  destruct (Symlink_Readlink env0 T3 t3 (str "target") (str "/a/g") 5 key_g (str "g") (proj1 FS3) ready3 path_g_ok
    (bytes_ok_str _)) as [t' H]; [repeat constructor; discriminate|cbn; lia|rewrite max3; lia|lia|exact E1|exact E2|].
  exists t'. exact H.
Defined.

Lemma Init_creates_root_witness : exists t' h, Init env0 false t0 = Ret true t' /\
  FS {[root_key := mk_value h [] []]} idle t'.
Proof.
  destruct (Init_creates_root env0 ∅ t0 false unmounted0 eq_refl) as (t' & h & H & HF & _);
    [by apply ready0; vm_compute|cbn; lia|cbn; lia|].
  exists t', h. split; [exact H|exact HF].
Defined.

(** The state after the process is gone: the store and the data directory. *)
Definition off (t : fs) : fs :=
  mkTfs (InodeCache_new, mkWorld (w_metadb (t_ic t).2) ∅ 0 0) (DentryCache_new 0) (t_st t) ∅ 0 0 false (0, 0).

Lemma unmounted_off (T : table) (t : fs) : FS T idle t -> unmounted (w_metadb (t_ic t).2) T (off t).
Proof.
  intros HFS. pose proof HFS as [(m & HI & Hso) _ Hset Htab [Hd _]].
  assert (m = w_metadb (t_ic t).2) as <- by (symmetry; apply HI). split; [|done| |done|done].
  - exists 0, (w_metadb (t_ic t).2). split; [done|]. split; [lia|]. apply HI.
  - split.
    + intros k Hk. symmetry. eapply (store_is_table m T idle t); [exact HI| |exact Hk].
      intros o h Eh. split; [by eapply Hset|by eapply Htab].
    + intros k v. apply (ic_table _ _ _ _ _ _ _ (ic_view _ _ _ _ HI)).
    + intros k v. apply (ic_values _ _ _ _ _ _ _ (ic_view _ _ _ _ HI)).
Qed.

Lemma not_empty3 : IsEmpty (t_st (off t3)).1 = false.
Proof. change (IsEmpty (t_st t3).1 = false). unfold IsEmpty. rewrite max3. reflexivity. Qed.

Lemma Init_remounts_witness : exists t', Init env0 false (off t3) = Ret true t' /\ FS T3 idle t'.
Proof.
  destruct (Init_remounts env0 (w_metadb (t_ic t3).2) T3 (off t3) false (unmounted_off T3 t3 (proj1 FS3)) not_empty3
    (proj2 (fs_dirs _ _ _ (proj1 FS3)))) as (t' & H & HF & _).
  exists t'. split; [exact H|exact HF].
Defined.
