(* ===== verification/Histories.v ===== *)
(** The theorem about whole histories of the file system, and a history it covers. *)

From S2P Require Import Prelude Hashes Coding WriteBatch Inode DCache Cache Kv ICache Posix Properties State TableFS FsInv FsOps FsRename FsFile FsTruncate FsDir FsFrame FsMount FsSpec FsHistory FsRemount FuseMain Scenario.

Set Default Proof Using "Type".

Section theorems.
Context {S It : Type} `{!KvWrapper S It, !KvSpec S It}.

(** C1: the program, run any number of times from a new machine on, behaves like the
    tree of its specification, on all histories of requests on which that partial
    specification is defined (see the head of [FsSpec] for what it leaves out):
    every call of every run returns the specified result, and what one run leaves
    on disk when it is unmounted is what the next one, in a new process with empty
    caches, works on. The store need only keep its contents when it is closed and
    opened again. *)
Theorem program_refines_tree `{!KvDurable S It} (env : environment)
    (fuse_main : list op -> fuse_operations S -> list bytes -> prog (tfs S) (Z * list result))
    (realpath : bytes -> bytes) (argv : list bytes) (prop : Properties) (t : tfs S) reqs sessions rs st rss st' :
  parseOpts (tail argv) ∅ = Some prop -> (length (getProperty1 (str "mountdir") prop) < 100)%nat ->
  fuse_single_threaded fuse_main -> blank env realpath prop t ->
  0 <= (env_root_stat env).1 < 2 ^ 32 -> 0 <= (env_root_stat env).2 < 2 ^ 64 ->
  0 <= getPropertyInt (str "threshold") 4096 prop < 2 ^ 62 ->
  steps reqs (new_tree (env_root_stat env).1 (env_root_stat env).2 (Some (t_context t))
      (getPropertyInt (str "threshold") 4096 prop)) = Some (rs, st) ->
  tree_runs (t_context t) sessions st = Some (rss, st') ->
  exists rss' t' T', runs env fuse_main realpath argv (reqs :: sessions) t = Ret rss' t' /\
    Forall2 (Forall2 agrees) (rs :: rss) rss' /\ on_disk env realpath prop T' st' t'.
Proof. intros Ha Hm Hf. by apply first_runs_ok. Qed.

(** C2: from the first mount on, the file system behaves like the tree of its
    specification: for every sequence of operations on which the specification is
    defined, each call returns the specified result, a listing in some order,
    without undefined behaviour; where a file's data are kept makes no difference.
    The specification is defined for creating files, directories and links at free
    names, reading and writing files, listing directories other than the root,
    renaming between two places, removing, changing attributes and resizing files
    where [resizes] holds; on a path that leads nowhere it says [ENOENT] for all
    of these but listing. The head of [FsSpec] lists what it leaves out. *)
Theorem history_refines_tree (env : environment) (m : gmap bytes bytes) (t : tfs S) (conn : bool) (ops : list op) rs st' :
  unmounted m ∅ t -> IsEmpty (t_st t).1 = true -> ready env t -> os_wf (t_st t).2 ->
  0 <= (env_root_stat env).1 < 2 ^ 32 -> 0 <= (env_root_stat env).2 < 2 ^ 64 ->
  0 <= threshold_ (t_st t).1 < 2 ^ 62 ->
  (forall i, 0 < i < 2 ^ 31 -> file_at (t_st t).2 (data_path t i) = None) ->
  steps ops (new_tree (env_root_stat env).1 (env_root_stat env).2 (if conn then Some (t_context t) else None)
      (threshold_ (t_st t).1)) =
    Some (rs, st') ->
  exists rs' t' T', (Init env conn ;;; do_ops env ops) t = Ret rs' t' /\ Forall2 agrees rs rs' /\
    represents env T' st' t'.
Proof.
  intros Hun He Hrd Hos Hm Hd Hth Hno E.
  destruct (represents_mount env m t conn Hun He Hrd Hos Hm Hd Hth Hno) as (t1 & T1 & Hinit & HR).
  destruct (steps_ok env ops _ _ _ T1 t1 E HR) as (rs' & t2 & T2 & Hrun & Hrs & HR2).
  exists rs', t2, T2. split; [by erewrite bind_Ret by exact Hinit|done].
Qed.

(** C3: the store is well typed after the first mount and any history on which the
    specification is defined: each of its
    entries is a 16-byte key and the value of the node the tree has at that key,
    whose header, NUL-terminated name and data read back through the accessors of
    the code as the node's, the contents of a file being inline or in its data file
    but not both; and every node of the tree has its entry. *)
Theorem store_well_typed (env : environment) (m : gmap bytes bytes) (t : tfs S) (conn : bool) (ops : list op) rs st' :
  unmounted m ∅ t -> IsEmpty (t_st t).1 = true -> ready env t -> os_wf (t_st t).2 ->
  0 <= (env_root_stat env).1 < 2 ^ 32 -> 0 <= (env_root_stat env).2 < 2 ^ 64 ->
  0 <= threshold_ (t_st t).1 < 2 ^ 62 ->
  (forall i, 0 < i < 2 ^ 31 -> file_at (t_st t).2 (data_path t i) = None) ->
  steps ops (new_tree (env_root_stat env).1 (env_root_stat env).2 (if conn then Some (t_context t) else None)
      (threshold_ (t_st t).1)) =
    Some (rs, st') ->
  exists rs' t' m', (Init env conn ;;; do_ops env ops) t = Ret rs' t' /\ kv_rep (w_metadb (t_ic t').2) m' /\
    (forall b v, m' !! b = Some v ->
       exists k n, b = ToSlice k /\ key_ok k /\ tree st' !! k = Some n /\ value_typed t' v n) /\
    (forall k n, tree st' !! k = Some n -> exists v, m' !! ToSlice k = Some v /\ value_typed t' v n).
Proof.
  intros Hun He Hrd Hos Hm Hd Hth Hno E.
  destruct (represents_mount env m t conn Hun He Hrd Hos Hm Hd Hth Hno) as (t1 & T1 & Hinit & HR).
  destruct (steps_ok env ops _ _ _ T1 t1 E HR) as (rs' & t2 & T2 & Hrun & _ & HR2).
  destruct (represents_store env T2 st' t2 HR2) as (m' & Hm').
  exists rs', t2, m'. split; [by erewrite bind_Ret by exact Hinit|exact Hm'].
Qed.
End theorems.

(** ** Instance *)

Definition history0 : list op :=
  [OpMkdir (str "/a") 493;
   OpMknod (str "/a/f") 420 0;
   OpWrite (str "/a/f") (str "hello") 0;
   OpWrite (str "/a/f") (str ", this is a longer file") 5;
   OpRead (str "/a/f") 12 7;
   OpSymlink (str "/a/f") (str "/a/l");
   OpReadlink (str "/a/l") 100;
   OpRename (str "/a/f") (str "/a/g");
   OpGetattr (str "/a/f");
   OpChown (str "/a/g") 7 8;
   OpTruncate (str "/a/g") 20;
   OpGetattr (str "/a/g");
   OpList (str "/a") 10;
   OpUnlink (str "/a/g");
   OpRmdir (str "/b");
   OpMkdir (str "/b/c") 493].

Definition results0 : list result :=
  [RCode 0; RCode 0; RCode 5; RCode 23; RData 12 (str "this is a lo"); RCode 0; RData 0 (str "/a/f"); RCode 0;
   RAttrs (-2) None; RCode 0; RCode 0; RAttrs 0 (Some (mkAttrs 2 33188 1 7 8 0 20));
   RNames 0 [str "."; str ".."; str "g"; str "l"]; RCode 0; RCode (-2); RCode (-2)].

Lemma steps0 :
  exists st', steps history0 (new_tree (env_root_stat env0).1 (env_root_stat env0).2
    (if false then Some (t_context t0) else None) (threshold_ (t_st t0).1)) = Some (results0, st').
Proof. eexists. vm_compute. reflexivity. Qed.

Lemma history_refines_tree_witness :
  exists rs' t', (Init env0 false ;;; do_ops env0 history0) t0 = Ret rs' t' /\ Forall2 agrees results0 rs'.
Proof.
  destruct steps0 as (st' & E).
  destruct (history_refines_tree env0 ∅ t0 false history0 results0 st' unmounted0) as (rs' & t' & T' & Hrun & Hrs & _).
  - reflexivity.
  - by apply ready0; vm_compute.
  - clear E. split; cbn; intros *; by rewrite lookup_empty.
  - cbn. lia.
  - cbn. lia.
  - cbn. lia.
  - reflexivity.
  - exact E.
  - exists rs', t'. exact (conj Hrun Hrs).
Defined.

Lemma store_well_typed_witness :
  exists rs' t' m', (Init env0 false ;;; do_ops env0 history0) t0 = Ret rs' t' /\ w_metadb (t_ic t').2 = m' /\
    forall b v, m' !! b = Some v -> length b = 16%nat.
Proof.
  destruct steps0 as (st' & E).
  destruct (store_well_typed env0 ∅ t0 false history0 results0 st' unmounted0) as (rs' & t' & m' & Hrun & Hm & Ht & _).
  - reflexivity.
  - by apply ready0; vm_compute.
  - clear E. split; cbn; intros *; by rewrite lookup_empty.
  - cbn. lia.
  - cbn. lia.
  - cbn. lia.
  - reflexivity.
  - exact E.
  - exists rs', t', m'. split; [exact Hrun|]. split; [exact Hm|].
    intros b v Hb. destruct (Ht b v Hb) as (k & n & -> & _). apply length_ToSlice.
Defined.

(** Four runs: files are made, changed by later runs, and read by the last one. *)
Definition fuse_main0 (reqs : list op) (ops : fuse_operations MemKv) (argv : list bytes) :
    prog (tfs MemKv) (Z * list result) :=
  fo_init ops true ;;; rs <- answers ops reqs ;; fo_destroy ops ;;; ret (0, rs).

Definition argv0 : list bytes :=
  [str "tablefs"; str "-mountdir"; str "/m"; str "-datadir"; str "/d"; str "-metadir"; str "/e"; str "-threshold"; str "16"].

Definition prop0 : Properties := default ∅ (parseOpts (tail argv0) ∅).

Definition machine0 : tfs MemKv :=
  mkTfs (InodeCache_new, mkWorld ∅ ∅ 0 0) (DentryCache_new 0)
    (FileSystemState_new, mkOs ∅ ∅ {[str "/d"]} ∅ 0 0 [100; 101; 102]) ∅ 0 0 false (5, 6).

Definition run0 : list op :=
  [OpMkdir (str "/a") 493; OpMknod (str "/a/f") 420 0; OpWrite (str "/a/f") (str "hello") 0].
Definition run_more : list (list op) :=
  [[OpRead (str "/a/f") 10 0; OpWrite (str "/a/f") (str ", this is a longer file") 5];
   [OpRename (str "/a/f") (str "/a/g"); OpMkdir (str "/b") 493];
   [OpRead (str "/a/g") 12 7; OpGetattr (str "/a/f"); OpGetattr (str "/b"); OpTruncate (str "/a/g") 0;
    OpWrite (str "/a/g") (str "new") 1; OpRead (str "/a/g") 9 0]].

Lemma tree_runs0 : exists st rss st',
  steps run0 (new_tree (env_root_stat env0).1 (env_root_stat env0).2 (Some (t_context machine0))
      (getPropertyInt (str "threshold") 4096 prop0)) =
    Some ([RCode 0; RCode 0; RCode 5], st) /\
  tree_runs (t_context machine0) run_more st = Some (rss, st') /\
  rss = [[RData 5 (str "hello"); RCode 23]; [RCode 0; RCode 0];
         [RData 12 (str "this is a lo"); RAttrs (-2) None; RAttrs 0 (Some (mkAttrs 3 16877 2 5 6 0 0));
          RCode 0; RCode 3; RData 4 (0 :: str "new")]].
Proof. eexists _, _, _. split; [vm_compute; reflexivity|]. split; vm_compute; reflexivity. Qed.

Lemma datadir0 : getProperty (str "datadir") (str "/mnt/pmem/tablefs") prop0 = str "/d".
Proof. vm_compute. reflexivity. Qed.

Lemma blank0 : blank env0 (fun p => p) prop0 machine0.
Proof.
  split; rewrite ?datadir0.
  - exists ∅, 0, ∅. split_and!; [done|done|done| |]; split; intros *; by rewrite ?lookup_empty.
  - done.
  - cbn. set_solver.
  - cbn. lia.
  - done.
  - done.
  - split; cbn; intros *; by rewrite lookup_empty.
  - split; [apply (rd_memory _ _ (ready0 t0 eq_refl eq_refl))|by apply clock_check_ok|cbn; lia|].
    intros old new H. cbn. by apply Nat.ltb_ge.
Qed.

Lemma program_refines_tree_witness : exists rss' t',
  runs env0 fuse_main0 (fun p => p) argv0 (run0 :: run_more) machine0 = Ret rss' t' /\
  Forall2 (Forall2 agrees) [[RCode 0; RCode 0; RCode 5]; [RData 5 (str "hello"); RCode 23]; [RCode 0; RCode 0];
         [RData 12 (str "this is a lo"); RAttrs (-2) None; RAttrs 0 (Some (mkAttrs 3 16877 2 5 6 0 0));
          RCode 0; RCode 3; RData 4 (0 :: str "new")]] rss'.
Proof.
  destruct tree_runs0 as (st & rss & st' & E1 & E2 & Erss).
  destruct (program_refines_tree env0 fuse_main0 (fun p => p) argv0 prop0 machine0 run0 run_more
    [RCode 0; RCode 0; RCode 5] st rss st' ltac:(vm_compute; reflexivity)) as (rss' & t' & T' & Hrun & Hrs & _).
  - vm_compute. lia.
  - intros reqs ops argv t _. reflexivity.
  - exact blank0.
  - cbn. lia.
  - cbn. lia.
  - vm_compute. split; [discriminate|reflexivity].
  - exact E1.
  - exact E2.
  - rewrite Erss in Hrs. exists rss', t'. exact (conj Hrun Hrs).
Defined.

(** ** A process that is killed *)

(** The counter is written by [Destroy] only: after a run that ends without it, the
    next one gives the same inode numbers again, and two files have one data file. *)
Definition killed_run : prog (tfs MemKv) (Z * list result) :=
  in_st (Setup (fun p => p) prop0) ;;;
  Init env0 true ;;;
  do_ops env0 [OpMkdir (str "/a") 493; OpMknod (str "/a/f") 420 0] ;;;
  modify new_process ;;;
  main env0 fuse_main0 (fun p => p) argv0
    [OpMknod (str "/g") 420 0; OpMknod (str "/h") 420 0; OpGetattr (str "/a/f"); OpGetattr (str "/h")].

Lemma killed_run_reuses_inodes :
  exists t', killed_run machine0 =
    Ret (0, [RCode 0; RCode 0; RAttrs 0 (Some (mkAttrs 2 33188 1 5 6 0 0));
             RAttrs 0 (Some (mkAttrs 2 33188 1 5 6 0 0))]) t'.
Proof. eexists. vm_compute. reflexivity. Qed.
