(* ===== verification/Workloads.v ===== *)
(** The theorem about the creation workload of the benchmark, and a trace it is
    applied to. *)

From S2P Require Import Prelude Hashes Coding WriteBatch Inode DCache Cache Kv ICache Posix Properties Allocator Trace Random State TableFS FsInv FsOps FsRename FsFile FsTruncate FsDir FsFrame FsMount FsSpec FsHistory FsWrapper FsBench Scenario.

Set Default Proof Using "Type".

Section theorems.
Context {S It : Type} `{!KvWrapper S It, !KvSpec S It} (env : environment).
Implicit Types (st : fstree).

(** C19: a thread that runs [MetadataCreate] over a loaded trace makes every
    directory and those files that are its share, each at its path below the
    target, with the outcome the tree of the specification gives; it counts its
    operations and returns the number of files it could not make. *)
Theorem MetadataCreate_builds (prop : Properties) es files (tid k c : Z) (b : bench (S := S)) st cnt st' c' :
  shows env st (b_fs b) -> trace_loaded (b_loader b) es files -> 0 <= files <= Z.of_nat (length es) ->
  Z.of_nat (length es) < 2 ^ 31 - 1 -> b_thread b = mkThread tid k c -> 0 <= tid -> 0 < k ->
  property prop "create_numpaths" + k < 2 ^ 31 ->
  tree_metadata_create (getProperty1 (str "target") prop) es files (property prop "create_numpaths") tid k (st, c) =
    Some (cnt, (st', c')) ->
  exists b', MetadataCreate env prop b = Ret cnt b' /\ shows env st' (b_fs b') /\ op_count_ (b_thread b') = c'.
Proof. apply MetadataCreate_sim. Qed.
End theorems.

(** ** Instance *)

Definition bench_prop0 : Properties :=
  <[str "target" := str "/"]> (<[str "create_numpaths" := str "2"]> ∅).

Definition tree0 : fstree := new_tree (env_root_stat env0).1 (env_root_stat env0).2 None 16.

(** Both files of the trace are made, in the directory that was made before. *)
Lemma tree_create0 : exists st',
  tree_metadata_create (getProperty1 (str "target") bench_prop0) trace0 2 (property bench_prop0 "create_numpaths") 0 1 (tree0, 0) =
    Some (0, (st', 3)) /\
  is_Some (find st' (str "/a/f")) /\ is_Some (find st' (str "/a/g")).
Proof. eexists. split; [vm_compute; reflexivity|]. split; vm_compute; by eexists. Qed.

Lemma loaded0 : exists l, trace_loaded l trace0 2.
Proof.
  destruct (LoadTrace_loads 32 trace0 2 loader0 [(0, 0); (1, 0); (2, 0); (3, 0); (4, 0)] (mkAllocator [24; 3; 5; 7; 7] 0 0 false))
    as (l & _ & Hl); [done|exact trace0_ok|done|cbn; lia|done..|by exists l].
Qed.

Lemma shows0 : shows env0 tree0 (TableFSWrapper_new t1).
Proof.
  destruct (represents_mount env0 ∅ t0 false unmounted0) as (t & T & Hrun & HR).
  - reflexivity.
  - by apply ready0; vm_compute.
  - split; cbn; intros *; by rewrite lookup_empty.
  - cbn. lia.
  - cbn. lia.
  - cbn. lia.
  - reflexivity.
  - assert (t1 = t) as Heq by by apply after_Ret in Hrun. exists T. cbn [fsw_fs TableFSWrapper_new]. by rewrite Heq.
Qed.

Lemma MetadataCreate_builds_witness : exists l b' st',
  MetadataCreate env0 bench_prop0 (mkBench (TableFSWrapper_new t1) l 1 0 (ThreadState_new 0 1)) = Ret 0 b' /\
  shows env0 st' (b_fs b') /\ op_count_ (b_thread b') = 3 /\ is_Some (find st' (str "/a/f")) /\ is_Some (find st' (str "/a/g")).
Proof.
  destruct tree_create0 as (st' & E & H1 & H2). destruct loaded0 as (l & Hl).
  destruct (MetadataCreate_builds env0 bench_prop0 trace0 2 0 1 0 (mkBench (TableFSWrapper_new t1) l 1 0 (ThreadState_new 0 1))
    tree0 0 st' 3) as (b' & Hrun & Hw & Hc).
  - exact shows0.
  - exact Hl.
  - cbn. lia.
  - cbn. lia.
  - reflexivity.
  - lia.
  - lia.
  - vm_compute. reflexivity.
  - exact E.
  - exists l, b', st'. exact (conj Hrun (conj Hw (conj Hc (conj H1 H2)))).
Defined.
