(* ===== verification/Caches.v ===== *)
(** The theorems about the caches, the inode numbers, the configuration and the
    descriptor table of the wrapper. *)

From S2P Require Import Prelude Hashes Coding WriteBatch Inode DCache Cache Kv ICache Posix Properties State TableFS FsInv FsOps FsRename FsFile FsDir FsMount FsWrapper Scenario FsCorrect.

Set Default Proof Using "Type".

(** * The dentry cache *)

Inductive dc_op : Type := DFind (k : tfs_meta_key_t) | DInsert (k : tfs_meta_key_t) (v : Z) | DEvict (k : tfs_meta_key_t).

(** The answers to the lookups of a sequence of operations. *)
Fixpoint dc_run (ops : list dc_op) : prog DentryCache (list (tfs_meta_key_t * option Z)) :=
  match ops with
  | [] => ret []
  | DFind k :: ops' => r <- Find k ;; rs <- dc_run ops' ;; ret ((k, r) :: rs)
  | DInsert k v :: ops' => Insert k v ;;; dc_run ops'
  | DEvict k :: ops' => Evict k ;;; dc_run ops'
  end.

(** What a cache that forgot nothing would answer. *)
Fixpoint dc_answers (ops : list dc_op) (m : gmap tfs_meta_key_t Z) : list (tfs_meta_key_t * option Z) :=
  match ops with
  | [] => []
  | DFind k :: ops' => (k, m !! k) :: dc_answers ops' m
  | DInsert k v :: ops' => dc_answers ops' (<[k := v]> m)
  | DEvict k :: ops' => dc_answers ops' (delete k m)
  end.

(** The same answer, or none. *)
Definition dc_weaker (a b : tfs_meta_key_t * option Z) : Prop := a.1 = b.1 /\ (a.2 = None \/ a.2 = b.2).

Lemma dc_run_spec ops dc m :
  dc_inv dc -> (forall k v, dc_view dc k = Some v -> m !! k = Some v) ->
  exists rs dc', dc_run ops dc = Ret rs dc' /\ dc_inv dc' /\ maxsize dc' = maxsize dc /\
    Forall2 dc_weaker rs (dc_answers ops m).
Proof.
  revert dc m. induction ops as [|[k|k v|k] ops IH]; intros dc m Hinv Hm; cbn [dc_run dc_answers].
  - exists [], dc. by split_and!.
  - destruct (Find_inv dc k Hinv) as (dc1 & Hf & Hi1 & Hv1 & Hs1).
    destruct (IH dc1 m Hi1) as (rs & dc' & Hr & Hi & Hs & Hall); [intros k' v'; rewrite Hv1; apply Hm|].
    exists ((k, dc_view dc k) :: rs), dc'. split_and!; [|done|congruence|].
    + erewrite bind_Ret by exact Hf. by erewrite bind_Ret by exact Hr.
    + constructor; [|done]. split; [done|]. cbn [snd]. destruct (dc_view dc k) as [v|] eqn:E; [|by left].
      right. by rewrite (Hm k v E).
  - destruct (Insert_inv dc k v Hinv) as (dc1 & Hf & Hi1 & Hs1 & Hv1 & _).
    destruct (IH dc1 (<[k := v]> m) Hi1) as (rs & dc' & Hr & Hi & Hs & Hall).
    { intros k' v' H. destruct (Hv1 k' v' H) as [[-> ->]|[Hne Hk]]; [by rewrite lookup_insert_eq|].
      rewrite lookup_insert_ne by done. by apply Hm. }
    exists rs, dc'. split_and!; [|done|congruence|done]. by erewrite bind_Ret by exact Hf.
  - destruct (Evict_inv dc k Hinv) as (dc1 & Hf & Hi1 & Hs1 & Hv1).
    destruct (IH dc1 (delete k m) Hi1) as (rs & dc' & Hr & Hi & Hs & Hall).
    { intros k' v'. rewrite Hv1. case_decide; [done|]. rewrite lookup_delete_ne by done. apply Hm. }
    exists rs, dc'. split_and!; [|done|congruence|done]. by erewrite bind_Ret by exact Hf.
Qed.

(** C11: whatever is looked up, inserted and evicted in whatever order, the dentry
    cache never dereferences a dangling iterator, never holds more entries than
    its size, and answers each lookup with the inode inserted last and not evicted
    since, or with nothing. *)
Theorem dentry_cache_never_lies n ops :
  exists rs dc, dc_run ops (DentryCache_new n) = Ret rs dc /\ (length (cache dc) <= n)%nat /\
    Forall2 dc_weaker rs (dc_answers ops ∅).
Proof.
  destruct (dc_run_spec ops (DentryCache_new n) ∅ (new_inv n)) as (rs & dc & Hr & Hi & Hs & Hall).
  { intros k v. by rewrite (proj2 (dc_view_None _ k (new_inv n)) (lookup_empty k)). }
  exists rs, dc. split_and!; [done| |done]. pose proof (inv_size _ Hi) as Hl. by rewrite Hs in Hl.
Qed.

(** * The LRU cache *)

(** C14: the eviction loop of [LRUCache::Insert] ends, within as many rounds as the
    list is long and one more, when the deleters of the entries nobody uses can run
    one after the other: it takes [n] entries off the old end of the list, each of
    them because the charges exceeded the capacity; those nobody uses are freed
    after their deleters ran, oldest first, and all other handles stay; it stops
    when the charges fit or the list is empty, and keeps the invariant of the shard. *)
Theorem lru_eviction_ends {V W} (hashf : bytes -> Z) (deleter : bytes -> V -> prog W unit) pn c w w0 :
  cache_inv hashf pn c -> run_deleters deleter (unused pn c (lru_ c)) w = Ret tt w0 ->
  exists n c' w', evict_loop deleter (S (length (lru_ c))) (c, w) = Ret tt (c', w') /\ cache_inv hashf pn c' /\
    evicted deleter pn c w n c' w' /\ (usage_ c' <= capacity_ c' \/ lru_ c' = []).
Proof. intros Hinv Hd. eapply evict_loop_spec; [done|done|lia]. Qed.

(** A deleter that keeps a log of what it deletes. *)
Definition log_deleter (k : bytes) (v : nat) : prog (list (bytes * nat)) unit := modify (fun log => log ++ [(k, v)]).

Lemma log_droppable pn (c : LRUCache nat) w : droppable log_deleter pn c w.
Proof. intros l k v _ _ _. by eexists. Qed.

(** Three entries are inserted, two of them released, and the shard gets a smaller
    capacity: it is too full by two. *)
Definition overfull : prog (LRUCache nat * list (bytes * nat)) unit :=
  a <- LRU_Insert log_deleter (str "a") (HashSlice (str "a")) 1%nat 1 ;;
  b <- LRU_Insert log_deleter (str "b") (HashSlice (str "b")) 2%nat 1 ;;
  c <- LRU_Insert log_deleter (str "c") (HashSlice (str "c")) 3%nat 1 ;;
  LRU_Release log_deleter a ;;;
  LRU_Release log_deleter c ;;;
  on_shard (SetCapacity 1).

Definition overfull_shard : LRUCache nat :=
  match overfull (LRU_new 10, []) with Ret _ (c, _) => c | _ => LRU_new 0 end.

Definition overfull_pins : nat -> Z := unpin 2 (unpin 0 (pin 2 (pin 1 (pin 0 (fun _ => 0))))).

Lemma overfull_inv : cache_inv HashSlice overfull_pins overfull_shard.
Proof.
  assert (exists c w, overfull (LRU_new 10, []) = Ret tt (c, w) /\ cache_inv HashSlice overfull_pins c)
    as (c & w & Hrun & Hinv); [|unfold overfull_shard; by rewrite Hrun].
  assert (forall cap, 1 < cap < 2 ^ 31 -> bounded (@LRU_new nat cap)) as Hb.
  { intros cap Hcap. split; [done|]. split; [done|]. cbn. change (size ∅) with 0%nat. lia. }
  destruct (LRU_Insert_fresh HashSlice log_deleter _ (LRU_new 10) (str "a") 1%nat [] (LRU_new_inv HashSlice 10)
    (Hb 10 ltac:(lia)) eq_refl) as (c1 & w1 & R1 & I1 & B1 & _); [by left|apply log_droppable|].
  pose proof R1 as E1. vm_compute in E1. injection E1 as <- <-.
  destruct (LRU_Insert_fresh HashSlice log_deleter _ _ (str "b") 2%nat [] I1 B1 eq_refl) as (c2 & w2 & R2 & I2 & B2 & _);
    [by left|apply log_droppable|]. pose proof R2 as E2. vm_compute in E2. injection E2 as <- <-.
  destruct (LRU_Insert_fresh HashSlice log_deleter _ _ (str "c") 3%nat [] I2 B2 eq_refl) as (c3 & w3 & R3 & I3 & B3 & _);
    [by left|apply log_droppable|]. pose proof R3 as E3. vm_compute in E3. injection E3 as <- <-.
  destruct (Unref_spec HashSlice log_deleter _ _ 0%nat [] I3) as (h4 & _ & R4); [by vm_compute|].
  case_decide as H4; [exfalso; apply (proj2 H4), (list_elem_of_lookup_2 _ 0); vm_compute; reflexivity|]. clear H4.
  destruct R4 as (c4 & R4 & I4 & _). pose proof R4 as E4. vm_compute in E4. injection E4 as <-.
  destruct (Unref_spec HashSlice log_deleter _ _ 2%nat [] I4) as (h5 & _ & R5); [by vm_compute|].
  case_decide as H5; [exfalso; apply (proj2 H5), (list_elem_of_lookup_2 _ 2); vm_compute; reflexivity|]. clear H5.
  destruct R5 as (c5 & R5 & I5 & _). exists (SetCapacity 1 c5), []. split; [|by apply cache_inv_capacity].
  unfold overfull. erewrite bind_Ret by exact R1. erewrite bind_Ret by exact R2. erewrite bind_Ret by exact R3.
  erewrite bind_Ret by exact R4. by erewrite bind_Ret by exact R5.
Qed.

(** The oldest entry is freed, the next one is in use and only leaves the list, so
    that the third one has to go as well. *)
Lemma lru_eviction_ends_witness :
  exists c', evict_loop log_deleter 4 (overfull_shard, []) = Ret tt (c', [(str "a", 1%nat); (str "c", 3%nat)]) /\
    usage_ c' = 1 /\ live c' !! 1%nat = Some (str "b", 2%nat).
Proof.
  destruct (lru_eviction_ends HashSlice log_deleter overfull_pins overfull_shard [] [(str "a", 1%nat); (str "c", 3%nat)]
    overfull_inv) as (n & c' & w' & Hrun & _).
  - vm_compute. reflexivity.
  - change (S (length (lru_ overfull_shard))) with 4%nat in Hrun. exists c'.
    pose proof Hrun as E. vm_compute in E. injection E as Ec Ew.
    split; [rewrite Hrun, <- Ew; reflexivity|]. rewrite <- Ec. vm_compute. split; reflexivity.
Defined.

(** C13: an entry inserted with charge 1, as the inode cache inserts, is what the
    next lookup of its key returns: the same handle, with the value that was
    inserted. The insertion frees at most one entry: the one it replaces or, in a
    full shard, one that nobody uses; its deleter ran on its key and value, and
    without such an entry no deleter ran. The entry that is replaced must not be in
    use, and in a full shard the oldest entry must not be ([csafe]). *)
Theorem cache_insert_lookup {V W} (deleter : bytes -> V -> prog W unit) PN C key v w :
  sharded_inv PN C -> cdroppable deleter PN C w ->
  (forall id, ccached C key = Some id -> PN id = 0) ->
  (ccached C key = None -> csafe PN C key) ->
  exists h C1 w1 C2 gone, Cache_Insert deleter key v 1 (C, w) = Ret h (C1, w1) /\
    Cache.grown C C1 (hid h) key v gone /\
    match gone with
    | None => ccached C key = None /\ w1 = w
    | Some g => (ccached C key = None \/ ccached C key = Some g) /\ PN g = 0 /\
        exists k' v', clive C g = Some (k', v') /\ deleter k' v' w = Ret tt w1
    end /\
    Cache_Lookup key (C1, w1) = Ret (Some h) (C2, w1) /\ clive C2 (hid h) = Some (key, v) /\
    sharded_inv (Pin (hid h) (Pin (hid h) PN)) C2.
Proof.
  intros Hinv Hd Hold Hsafe.
  destruct (Cache_Insert_spec deleter PN C key v w Hinv Hd Hold Hsafe)
    as (h & C1 & w1 & gone & Hr & Hh & Hi1 & Hg & Hn & Hgone).
  assert (ccached C1 key = Some (hid h)) as Hc1.
  { apply (ccached_Some _ _ _ _ Hi1). destruct Hg as (_ & Hl & Ht). split; [by apply Ht; left|].
    exists v. by rewrite Hl, decide_True. }
  assert (PN (hid h) = 0) as Hp0 by (destruct Hg as [Hdead _]; by eapply pins_dead).
  pose proof (Cache_Lookup_spec _ C1 key w1 Hi1) as Hlk. rewrite Hc1 in Hlk.
  destruct Hlk as (C2 & Hl & Hid & Hi2 & Hsv & _).
  { intros id E. assert (id = hid h) as -> by congruence. unfold Pin. rewrite decide_True by done. lia. }
  exists h, C1, w1, C2, gone. split_and!; [done|done| | | |done].
  - destruct gone; [|done]. destruct Hgone as (G1 & _ & G2 & G3). done.
  - rewrite Hl. cbn [hid snd]. rewrite <- Hh. by destruct h.
  - destruct Hg as (_ & Hlv & _). destruct Hsv as [Hsv _]. rewrite Hsv, Hlv. by rewrite decide_True.
Qed.

(** The key is in the cache, and nobody uses its entry: it is replaced. *)
Lemma cache_insert_lookup_witness :
  exists C w h0 h C1 C2, Cache_Insert log_deleter (str "key") 7%nat 1 (NewLRUCache 512, []) = Ret h0 (C, w) /\
    exists C0, Cache_Release log_deleter h0 (C, w) = Ret tt (C0, []) /\
    Cache_Insert log_deleter (str "key") 8%nat 1 (C0, []) = Ret h (C1, [(str "key", 7%nat)]) /\
    Cache_Lookup (str "key") (C1, [(str "key", 7%nat)]) = Ret (Some h) (C2, [(str "key", 7%nat)]) /\
    clive C2 (hid h) = Some (str "key", 8%nat).
Proof.
  destruct (NewLRUCache_inv (V := nat) 512) as (Hi & Hlive & Htab); [lia|].
  assert (ccached (@NewLRUCache nat 512) (str "key") = None) as Hnone.
  { destruct (ccached _ _) eqn:E; [|done]. apply (ccached_Some _ _ _ _ Hi) in E as [Ht _]. by apply Htab in Ht. }
  assert (forall PN C w, cdroppable log_deleter PN C w) as Hdrop by (intros PN C w id k v _ _ _; by eexists).
  destruct (Cache_Insert_spec log_deleter (fun _ => 0) (NewLRUCache 512) (str "key") 7%nat [] Hi (Hdrop _ _ _))
    as (h0 & C & w & gone & R0 & _ & I0 & G0 & _ & Hw); [done| |].
  { intros _. apply csafe_newest; [exact Hi|by intros x Hx; destruct (Hx (Hlive x))|by intros x Hx; destruct (Hx (Hlive x))]. }
  destruct gone as [g|]; [destruct Hw as ([|] & Hg & _); [by apply Htab in Hg|congruence]|]. destruct Hw as [_ ->].
  destruct G0 as (_ & L0 & T0). assert (tabled C (hid h0)) as Ht0 by (apply T0; by left).
  destruct (Cache_Release_spec log_deleter _ C h0 [] I0) as (k & v & _ & _ & R1).
  { unfold Pin. rewrite decide_True by done. lia. }
  destruct (R1 (or_intror Ht0)) as (C0 & R1' & I1 & [L1 T1]).
  assert (ccached C0 (str "key") = Some (hid h0)) as Hc0.
  { apply (ccached_Some _ _ _ _ I1). split; [by apply T1|]. exists 7%nat. rewrite L1, L0. by rewrite decide_True. }
  assert (forall id, ccached C0 (str "key") = Some id -> Unpin (hid h0) (Pin (hid h0) (fun _ => 0)) id = 0) as Hz.
  { intros id E. assert (id = hid h0) as -> by congruence. unfold Unpin, Pin. rewrite !decide_True by done. lia. }
  destruct (cache_insert_lookup log_deleter _ C0 (str "key") 8%nat [] I1 (Hdrop _ _ _) Hz ltac:(congruence))
    as (h & C1 & w1 & C2 & gone & H1 & _ & Hgone & H2 & H3 & _).
  destruct gone as [g|]; [|destruct Hgone; congruence].
  destruct Hgone as ([|E] & _ & k' & v' & Hv & Hdel); [congruence|].
  assert (g = hid h0) as -> by congruence. rewrite L1, L0, decide_True in Hv by done. injection Hv as <- <-.
  injection Hdel as <-. exists C, [], h0, h, C1, C2. split; [exact R0|]. exists C0. split; [exact R1'|].
  split; [exact H1|]. split; [exact H2|exact H3].
Defined.

(** * The inode cache *)

(** C12: [InodeCache::Get] finds an inode if and only if the file system has one:
    the handle carries the current value, including changes not yet in the store,
    it is referenced once more, and no handle another client uses is touched. Its
    mode is the requested one, except that a request to read leaves a cached
    handle's mode, and with it the mark that it has to be written back, as it is. *)
Theorem inode_cache_get {S It} `{!KvWrapper S It, !KvSpec S It} m T PO C (w : ic_world S) k mode :
  IC m T PO (C, w) -> key_ok k -> settled PO (w_handles w) -> getable PO (w_handles w) k mode ->
  ic_safe PO C k ->
  match T !! k with
  | Some v => exists o h st', InodeCache_Get k mode (C, w) = Ret (Some o) st' /\
      IC m T (hold o PO) st' /\ w_handles st'.2 !! o = Some h /\ key_ h = k /\ value_ h = v /\
      mode_ h = match mode, w_handles w !! o with INODE_READ, Some h0 => mode_ h0 | _, _ => mode end /\
      (forall x, x <> o -> 0 < PO x -> w_handles st'.2 !! x = w_handles w !! x)
  | None => exists st', InodeCache_Get k mode (C, w) = Ret None st' /\ IC m T PO st' /\ w_handles st'.2 = w_handles w
  end.
Proof.
  intros HI Hk Hs Hg Hsafe. pose proof (Get_spec m T PO C w k mode HI Hk Hs Hg Hsafe) as H.
  destruct (T !! k) as [v|].
  - destruct H as (o & h & st' & Hr & G). exists o, h, st'.
    split; [done|]. split; [apply G|]. split; [apply G|]. split; [apply G|]. split; [apply G|]. split; [|apply G].
    pose proof (got_mode _ _ _ _ _ _ _ _ _ _ G) as Hm. destruct mode; try (by apply Hm).
    destruct (w_handles w !! o) as [h0|] eqn:E.
    + by rewrite (got_same _ _ _ _ _ _ _ _ _ _ G h0 E).
    + by apply (got_fresh _ _ _ _ _ _ _ _ _ _ G).
  - destruct H as (s' & Hr & H'). eexists. by split_and!.
Qed.

(** The inode of [/a/f] is loaded for reading, and then found in the cache, in use,
    by a request to write. *)
Lemma inode_cache_get_witness :
  exists m o1 st1 o h st2, InodeCache_Get key_f INODE_READ (t_ic t3) = Ret (Some o1) st1 /\
    InodeCache_Get key_f INODE_WRITE st1 = Ret (Some o) st2 /\ IC m T3 (hold o (hold o1 idle)) st2 /\
    w_handles st2.2 !! o = Some h /\ value_ h = value_f /\ mode_ h = INODE_WRITE.
Proof.
  destruct file3 as [HT _]. pose proof (proj1 FS3) as HF. pose proof HF as [(m & HI & _) _ Hset _ _].
  assert (w_handles (t_ic t3).2 = ∅) as Hno by by vm_compute.
  assert (key_ok key_f) as Hk by (apply key_ok_path; vm_compute; by split).
  pose proof (Get_spec m T3 idle (t_ic t3).1 (t_ic t3).2 key_f INODE_READ) as H1. rewrite <- surjective_pairing in H1.
  rewrite HT in H1. destruct H1 as (o1 & h1 & [C1 w1] & R1 & G1); [exact HI|exact Hk|exact Hset| |by eapply FS_room_idle|].
  { intros o h. by rewrite Hno, lookup_empty. }
  assert (forall x hx, w_handles w1 !! x = Some hx -> x = o1 /\ hx = h1) as Honly.
  { intros x hx Ex. destruct (decide (x = o1)) as [->|Hne].
    - pose proof (got_h _ _ _ _ _ _ _ _ _ _ G1) as E. cbn in E. split; [done|congruence].
    - destruct (got_others _ _ _ _ _ _ _ _ _ _ G1 x hx Ex Hne) as [E _]. by rewrite Hno, lookup_empty in E. }
  destruct (got_newest _ _ _ _ _ _ _ _ _ _ G1) as (ch & Hp & Hnew).
  pose proof (inode_cache_get m T3 (hold o1 idle) C1 w1 key_f INODE_WRITE) as H2. rewrite HT in H2.
  destruct H2 as (o & h & st2 & R2 & I2 & Eh & _ & Hv & Hm & _).
  - apply G1.
  - exact Hk.
  - apply G1.
  - intros o h Eh _. destruct (Honly o h Eh) as [-> ->]. split; [by apply G1|done].
  - eapply (one_held_safe m T3 (C1, w1) o1 h1 ch); [apply G1| |apply G1|exact Hp|exact Hnew].
    intros o h Eh. destruct (Honly o h Eh) as [-> ->]. apply G1.
  - exists m, o1, (C1, w1), o, h, st2. split; [exact R1|]. split; [exact R2|]. split; [exact I2|].
    split; [exact Eh|]. split; [exact Hv|]. exact Hm.
Defined.

(** * Inode numbers and data files *)

(** [NewInode] hands out the next number, makes the directory its data file
    goes to and touches no file; the data file of the new inode is none of those
    of the inodes allocated before. *)
Theorem new_inode_has_its_own_file s o :
  dirs_ok s o -> max_inode_num s + 1 < 2 ^ 31 ->
  exists o', let n := max_inode_num s + 1 in
    NewInode (s, o) = Ret n (set_max_inode_num n s, o') /\ dirs_ok (set_max_inode_num n s) o' /\ same_files o o' /\
    dirname (disk_path (datadir_ s) n) ∈ os_dirs o' /\
    forall i, 0 <= i <= max_inode_num s -> disk_path (datadir_ s) i <> disk_path (datadir_ s) n.
Proof.
  intros Hd Hlt. destruct (NewInode_spec s o Hd Hlt) as (o' & Hr & Hd' & Hs). exists o'.
  pose proof (do_max _ _ Hd) as Hm. split_and!; [done|done|done| |].
  - rewrite dirname_disk_path. apply (do_dirs _ _ Hd'). cbn. lia.
  - intros i Hi E. apply disk_path_inj in E; lia.
Qed.

Lemma new_inode_has_its_own_file_witness :
  exists o', NewInode (t_st t0) = Ret 1 (set_max_inode_num 1 (t_st t0).1, o') /\
    disk_path (str "/d") 0 <> disk_path (str "/d") 1.
Proof.
  destruct (new_inode_has_its_own_file (t_st t0).1 (t_st t0).2 dirs_ok0) as (o' & H1 & _ & _ & _ & H2); [cbn; lia|].
  exists o'. split; [exact H1|]. apply (H2 0). cbn. lia.
Defined.

(** * Configuration *)

Lemma scan_digits_print n : 0 <= n < 2 ^ 32 -> scan_digits (dec_digits 20 n []) 0 = n.
Proof.
  intros Hn. destruct (scan_digits_dec 20 n 0 []) as (b & _ & H).
  { split; [lia|]. apply Z.lt_le_trans with (2 ^ 32); [lia|]. by vm_compute. }
  rewrite app_nil_r in H. rewrite H. simpl. lia.
Qed.

Lemma atoi_fmt_d n : - 2 ^ 31 <= n < 2 ^ 31 -> atoi (fmt_d n) = n.
Proof.
  intros Hn. unfold fmt_d, atoi. destruct (n <? 0) eqn:E; bool_to_prop.
  - change (skip_spaces (45 :: ?l)) with (45 :: l). cbn [read_sign Z.eqb Pos.eqb].
    rewrite scan_digits_print by lia. unfold strtol_val.
    replace (Z.max _ _) with n by lia. by apply (to_signed_id 32).
  - destruct (dec_digits_head 19 n) as (b & l & Ed & Hb); [lia|].
    rewrite Ed. destruct (digit_start b l Hb) as [-> ->]. rewrite <- Ed.
    rewrite scan_digits_print by lia. unfold strtol_val. replace (Z.max _ _) with n by lia. by apply (to_signed_id 32).
Qed.

(** The properties written by [store] are read back by [load], name by name and
    value by value, and an integer property reads back as the integer that was
    set, in place of the default. *)
Theorem properties_roundtrip (p : Properties) :
  map_Forall (fun k v => entry_ok (k, v)) p ->
  load (store p) ∅ = p /\
  forall k n d, - 2 ^ 31 <= n < 2 ^ 31 -> getPropertyInt k d (setPropertyInt k n (load (store p) ∅)) = n.
Proof.
  intros Hp. split; [by apply load_store|]. intros k n d Hn. unfold getPropertyInt, setPropertyInt.
  rewrite lookup_insert_eq. by apply atoi_fmt_d.
Qed.

Definition prop0 : Properties := {[str "threshold" := str "4096"]}.

Lemma properties_roundtrip_witness : load (store prop0) ∅ = prop0.
Proof.
  apply (properties_roundtrip prop0). apply map_Forall_singleton.
  repeat split; try (apply (bool_decide_unpack _); vm_compute; exact I).
Defined.

(** * The wrapper *)

Section wrapper.
Context {S It : Type} `{!KvWrapper S It, !KvSpec S It}.

(** A client's calls: open, write, go back and read. *)
Definition write_and_read_back (path buf : bytes) (flags off off2 size : Z) : prog (fsw S) (Z * Z * bytes) :=
  fd <- Fsw_Open path flags ;;
  Seek fd off ;;;
  n <- Fsw_Write fd buf ;;
  Seek fd off2 ;;;
  ' (r, data) <- Fsw_Read fd size ;;
  ret (n, r, data).

(** C33: through the wrapper's descriptors, with positions instead of offsets: a
    client that opens a file, seeks, writes, seeks and reads gets the bytes of the
    updated contents, and the descriptor it works on was free before. *)
Theorem wrapper_write_seek_read T (w : fsw S) path k v c buf flags off off2 size :
  fds_ok w -> 0 ∈ freefd w -> FS T idle (fsw_fs w) -> path <> [] -> resolve T path = Some k -> T !! k = Some v ->
  file_rep (fsw_fs w) v (-1) c -> os_wf (t_st (fsw_fs w)).2 -> rw_flags flags -> bytes_ok buf -> 0 <= off ->
  writes_through c buf off ->
  0 <= threshold_ (t_st (fsw_fs w)).1 < 2 ^ 62 ->
  Z.of_nat (length v) + Z.of_nat (length c) + (off + Z.of_nat (length buf)) < 2 ^ 31 ->
  0 <= size < 2 ^ 31 -> 0 <= off2 < 2 ^ 62 ->
  exists w' fd fh, let data := slice (Z.to_nat off2) (Z.to_nat size) (write_at c (Z.to_nat off) buf) in
    write_and_read_back path buf flags off off2 size w =
      Ret (Z.of_nat (length buf), Z.of_nat (length data), data) w' /\
    descriptor w' fd fh (off2 + Z.of_nat (length data)) flags /\ freefd w !! Z.to_nat fd = Some 0.
Proof.
  intros Hfd Hfree HFS Hp Er ET Hrep Hos Hfl Hbuf Hoff Hthru Hthr Hlen Hsz Ho2.
  destruct (Open_refines T idle (fsw_fs w) path flags k v c HFS Hp) as (t1 & fh & f & h & Hopen & HF1 & Hfo & Hk & Hv & Hst & _);
    try done. { intros k' _. by eapply FS_room_idle. }
  destruct (Fsw_Open_run w path flags fh t1 Hfd Hfree Hopen) as (fd & w1 & H1 & Ht1 & Hd1 & _ & Hf0 & _).
  destruct (Seek_run w1 fd fh 0 flags off Hd1) as (w2 & H2 & Ht2 & Hd2). rewrite Ht1 in Ht2.
  destruct (Write_refines T _ t1 fh f h c buf off flags HF1 Hfo Hfl Hbuf Hoff Hthru)
    as (t3 & hd & name & Hhd & Hwrite & [(f' & Ef' & Hfo' & Hff & hd' & data & Hwf2 & HF2 & Eh2 & Hstat & Hrep2) _ _ Hos2 _]);
    [by rewrite Hst|by rewrite Hv|].
  rewrite <- Ht2 in Hwrite.
  destruct (Fsw_Write_run w2 fd fh off flags buf t3 Hd2 Hwrite) as (w3 & H3 & Ht3 & Hd3).
  destruct (Seek_run w3 fd fh _ flags off2 Hd3) as (w4 & H4 & Ht4 & Hd4). rewrite Ht3 in Ht4.
  destruct (Read_refines _ _ t3 fh f' (mkICH (key_ h) (mk_value hd' name data) INODE_WRITE (pointer h))
    (write_at c (Z.to_nat off) buf) size off2 HF2) as (t5 & f2 & Hread & _); [|done|done|rewrite length_write_at; lia|].
  { destruct Hfo as [E1 E2 E3 E4 E5 E6]. rewrite <- Hfo' in *. rewrite <- Hff in *. by split. }
  cbv zeta in Hread. rewrite <- Ht4 in Hread.
  destruct (Fsw_Read_run w4 fd fh off2 flags size _ t5 Hd4 Hread) as (w5 & H5 & _ & Hd5).
  exists w5, fd, fh. cbv zeta. split; [|by split].
  unfold write_and_read_back. erewrite bind_Ret by exact H1. erewrite bind_Ret by exact H2.
  erewrite bind_Ret by exact H3. erewrite bind_Ret by exact H4. by erewrite bind_Ret by exact H5.
Qed.
End wrapper.

Lemma wrapper_write_seek_read_witness :
  exists w', write_and_read_back (str "/a/f") (str "hello") flags0 0 1 10 (TableFSWrapper_new t3) =
    Ret (5, 4, str "ello") w'.
Proof.
  destruct file3 as [HT Hrep].
  destruct (wrapper_write_seek_read T3 (TableFSWrapper_new t3) (str "/a/f") key_f value_f [] (str "hello") flags0 0 1 10
    (new_fds_ok t3)) as (w' & fd & fh & H & _).
  - apply list_elem_of_here.
  - exact (proj1 FS3).
  - done.
  - exact resolve3.
  - exact HT.
  - exact Hrep.
  - exact os_wf3.
  - exact rw_flags0.
  - apply bytes_ok_str.
  - lia.
  - by left.
  - cbn [fsw_fs TableFSWrapper_new]. rewrite threshold3. lia.
  - rewrite length_f. cbn. lia.
  - lia.
  - lia.
  - exists w'. exact H.
Defined.
