(* ===== verification/Components.v ===== *)
(** The theorems about the encodings below the file system: varints, strings,
    write batches, inode values and keys. *)

From S2P Require Import Prelude Hashes Coding WriteBatch Inode DCache Cache Kv ICache Posix Properties State TableFS FsInv FsOps FsFile FsDir FsMount Scenario FsCorrect.

Set Default Proof Using "Type".

(** * Encodings *)

(** A varint of a 32-bit or a 64-bit value decodes to the value and leaves the
    bytes behind it; the one-byte fast path of [GetVarint32Ptr] agrees with the
    loop, and [VarintLength] predicts the number of bytes. *)
Theorem varint_roundtrip v rest :
  bytes_ok rest ->
  (0 <= v < 2 ^ 32 ->
     GetVarint32 (EncodeVarint32 v ++ rest) = Some (v, rest) /\
     GetVarint32Ptr (EncodeVarint32 v ++ rest) = GetVarint32PtrFallback (EncodeVarint32 v ++ rest)) /\
  (0 <= v < 2 ^ 64 ->
     GetVarint64 (EncodeVarint64 v ++ rest) = Some (v, rest) /\
     VarintLength v = Z.of_nat (length (EncodeVarint64 v))).
Proof.
  intros Hr. split; intros Hv; (split; [by apply GetVarint32_encode || by apply GetVarint64_encode|]).
  - apply GetVarint32Ptr_fallback. apply bytes_ok_app. split; [by apply EncodeVarint32_ok|done].
  - by apply VarintLength_correct.
Qed.

Lemma varint_roundtrip_witness :
  GetVarint32 (EncodeVarint32 4294967295 ++ [1; 2]) = Some (4294967295, [1; 2]) /\
  VarintLength 4294967295 = 5.
Proof.
  destruct (varint_roundtrip 4294967295 [1; 2]) as [H32 H64]; [repeat constructor; unfold byte_ok; lia|].
  split; [apply H32; lia|]. apply H64. lia.
Defined.

(** * Write batches *)

(** C34: iterating over a batch replays the calls that built it, in order and
    with their arguments, and finds the number of them in the header. *)
Theorem batch_replays_operations {S} (h : Handler S) ops s :
  Forall op_ok ops -> Z.of_nat (length ops) < 2 ^ 31 ->
  Iterate h (build ops) s = (Status_OK, foldl (run_op h) s ops).
Proof. apply Iterate_build. Qed.

Lemma batch_replays_operations_witness :
  Iterate (mkHandler (fun k v l => l ++ [(k, Some v)]) (fun k l => l ++ [(k, None)]))
    (build [BPut (str "k") (str "v"); BDelete (str "x")]) [] =
  (Status_OK, [(str "k", Some (str "v")); (str "x", None)]).
Proof.
  rewrite (batch_replays_operations (mkHandler (fun k v l => l ++ [(k, Some v)]) (fun k l => l ++ [(k, None)]))
    [BPut (str "k") (str "v"); BDelete (str "x")] []).
  - reflexivity.
  - repeat constructor; cbn; unfold byte_ok; lia.
  - cbn. lia.
Defined.

(** The loop over a batch ends after at most as many rounds as the batch has
    bytes, well-formed or not: more rounds change nothing. *)
Theorem batch_iteration_ends {S} (h : Handler S) total fuel input found s :
  (length input <= fuel)%nat ->
  Iterate_loop h total fuel input found s = Iterate_loop h total (length input) input found s.
Proof. intros H. apply Iterate_loop_fuel; lia. Qed.

Lemma batch_iteration_ends_witness :
  Iterate_loop (mkHandler (fun _ _ n => n + 1) (fun _ n => n - 1)) 1 100 [1; 1; 65; 1; 66] 0 5 = (Status_OK, 6).
Proof.
  rewrite (batch_iteration_ends (mkHandler (fun _ _ n => n + 1) (fun _ n => n - 1)) 1 100 [1; 1; 65; 1; 66] 0 5);
    [reflexivity|cbn; lia].
Defined.

(** * Inode values *)

(** An inode header written to bytes reads back with every field of the
    attributes, the padding, the blob flag and the length of the name. *)
Theorem inode_header_roundtrip h :
  header_ok h -> header_of_bytes (header_bytes h) = h /\ length (header_bytes h) = TFS_INODE_HEADER_SIZE.
Proof. intros Hh. split; [by apply header_roundtrip|]. apply length_header_bytes, Hh. Qed.

Definition header0 : tfs_inode_header := GetInodeHeader value_f.

Lemma header0_ok : header_ok header0.
Proof.
  unfold header0, value_f. destruct FS3 as [_ (h & -> & Hwf & _)].
  change (header_ok (GetInodeHeader (mk_value h (str "f") []))).
  rewrite header_of by exact Hwf. apply Hwf.
Qed.

Lemma inode_header_roundtrip_witness : header_of_bytes (header_bytes header0) = header0.
Proof. exact (proj1 (inode_header_roundtrip header0 header0_ok)). Defined.

(** Writing inline data and reading them back: [GetInlineData] returns the
    range of [UpdateInlineData]'s result, with holes read as zero bytes. *)
Theorem inline_data_roundtrip h name data buf off off2 size :
  value_wf h name -> 0 <= off < 2 ^ 61 -> 0 <= off2 < 2 ^ 62 -> 0 <= size < 2 ^ 62 ->
  Z.of_nat (length data) < 2 ^ 61 -> Z.of_nat (length buf) < 2 ^ 60 ->
  GetInlineData (UpdateInlineData (mk_value h name data) buf off) off2 size =
  slice (Z.to_nat off2) (Z.to_nat size) (write_at data (Z.to_nat off) buf).
Proof.
  intros Hwf Ho Ho2 Hs Hd Hb. rewrite (UpdateInlineData_mk h name Hwf) by lia.
  apply (GetInlineData_mk h name Hwf); [done|done|]. rewrite length_write_at. lia.
Qed.

Lemma inline_data_roundtrip_witness : exists h, 
  GetInlineData (UpdateInlineData (mk_value h (str "f") (str "abc")) (str "xy") 5) 2 4 = [99; 0; 0; 120].
Proof.
  destruct FS3 as [_ (h & _ & Hwf & _)]. exists h.
  rewrite (inline_data_roundtrip h (str "f") (str "abc") (str "xy") 5 2 4 Hwf); [reflexivity|lia|lia|lia|cbn; lia|cbn; lia].
Defined.

(** Distinct (directory, hash) pairs have distinct 16-byte keys, and keys
    sort by directory prefix. *)
Theorem keys_are_distinct k1 k2 :
  key_ok k1 -> key_ok k2 ->
  (ToSlice k1 = ToSlice k2 <-> k1 = k2) /\
  (take 8 (ToSlice k1) = take 8 (ToSlice k2) <-> inode_id k1 = inode_id k2).
Proof.
  intros H1 H2. split; [|by apply same_dir_prefix]. split; [by apply ToSlice_inj|by intros ->].
Qed.

Lemma keys_are_distinct_witness : take 8 (ToSlice key_f) = take 8 (ToSlice (BuildMetaKey 1 7)).
Proof.
  apply (keys_are_distinct key_f (BuildMetaKey 1 7)); [apply key_ok_path; lia|split; cbn; lia|reflexivity].
Defined.
